(* ===== verification/_CoqProject ===== *)
-Q . S2P
Prelude.v
GoText.v
GoJson.v
Sha256.v
Errors.v
Model.v
Wire.v
Records.v
Reconciling.v
Rows.v
Snapshot.v
Store.v
Graph.v
Heads.v
Mutations.v
Wakes.v
Create.v
Merges.v
Settle.v
Recovery.v
Checkpoints.v
Activation.v
Effects.v
RowFacts.v
Evolution.v
OpEffects.v
RunEffects.v
IntentEffects.v
Topology.v
Delivery.v
Rewrites.v
Renewal.v
Fencing.v
Restoring.v
Kernel.v
Demo.v
Working.v
Lifecycle.v
Isolation.v
HeadLife.v
Saving.v
Fences.v
Guarantees.v
Continuity.v
Replay.v
Claiming.v
Behaviour.v
Lane.v
LaneFacts.v
Dispatch.v
Dispatching.v
Registry.v
RegistryFacts.v
Authority.v
Serving.v
Handover.v
Handing.v
Batch.v
Batching.v
Turn.v
Turning.v
TurnFacts.v
Tooling.v
Tasking.v
Tokens.v
Context.v
Rendering.v
Cropping.v
Budgets.v
Fitting.v
Fitted.v
Shown.v
GameTimes.v
Memories.v
Histories.v
Recalling.v
Retrieval.v
Building.v
Admission.v
TaskContext.v
