(* ===== verification/Prelude.v ===== *)
(** * World Is Agent, task kernel: shared prelude

    The runtime of World Is Agent (Go, [src/runtime]) keeps long-lived agent tasks in
    an SQLite store.  Its task kernel, the package [src/runtime/internal/task], is the
    component every other part of the runtime goes through: a world is activated under
    a binding (world, run, generation), tasks are created in it with a wake each, wakes
    are claimed, enqueued and begun by a dispatcher, the run of a task reports
    operations, facts and cleanups, and intents, reconciliation and attempts settle it.
    Worlds are saved in checkpoints, restored from them, and recovered after a restart
    of the process.  This development models that package as the code is written and
    proves what its state always satisfies; around it, the lanes, the dispatcher, the
    registry of worlds and the delivery of wakes that drive it, and the turn of an agent
    with its tool calls and the context it is shown.

    ** Files, bottom up
    - Prelude: outcomes ([(value, error)] pairs), Go's 64-bit integers, boolean tests,
      sorting, tactics and hint databases.
    - GoText, GoJson, Sha256: the parts of Go's standard library the package computes
      with: trimming and UTF-8 validity, [encoding/json]'s escaping, scanning and
      compaction, the SHA-256 of the canonical bytes.
    - Errors ([errors.go], and the key of [session/identity.go]), Model ([model.go]), Wire
      ([wire.go]), Records ([Record.Validate]), Reconciling ([reconcile.go],
      [evidence.go]), Rows (the stored rows and their decoding), Snapshot (the decoding
      and validation of a checkpoint).
    - Store ([sqlite_store.go], [store.go]): the four tables with the constraints of the
      schema, and the monad the operations run in.
    - Graph ([world_identity.go]), Heads (heads, clock, barrier), Mutations (guarded
      UPDATE statements), Wakes ([wake.go]), Create (and intents), Merges (evidence,
      operations, cleanup), Settle (reconcile and attempt), Recovery ([restart.go]),
      Checkpoints ([PrepareCheckpoint]), Activation ([ActivateWorld] and restores): one
      definition per method, composed as the methods call each other.
    - Effects, RowFacts, Evolution, OpEffects, RunEffects, IntentEffects: what the steps
      and the operations do to task rows.  Topology, Delivery, Rewrites, Renewal: how
      they keep tasks and wakes in agreement.  Fencing, Restoring: the same for
      checkpoints, restart and restores.
    - Kernel: the calls of the service, runs of calls, and the soundness of every call.
      Working: rules by which a relation on databases is carried through
      calls.  Lifecycle: the state machine of wakes.  Isolation: worlds do not touch
      each other.  HeadLife: heads only move forward.  Saving: what a checkpoint holds
      and what its restore brings back.  Fences: no authority, no write; a failed call
      changes nothing.
    - Demo: a concrete world and its run; Guarantees: runs that restore nothing;
      Continuity: saves, restores and fences over all runs; Replay, Claiming, Behaviour:
      what single calls do.
    - Lane, LaneFacts ([session/lane.go]): the worker goroutine of a lane, its clients and
      the channels that admit its tasks, as a step relation.  Dispatch, Dispatching ([dispatcher.go]): the scan that claims
      due wakes and hands them on, over the class [Dispatch.Outside] of what it calls.
    - Registry, RegistryFacts ([gateway/world_registry.go] and the parts of
      [task_checkpoint.go], [task_tools_authority.go], [task_dispatch.go] that change a
      world's slot): connections binding worlds, stage by stage, over the kernel.
      Authority: who may act in a world.  Serving: runs of the registry, and the
      dispatcher composed with it.  Handover, Handing ([task_dispatch.go]): the delivery
      of a wake through its lane, over the registry.
    - Batch, Batching ([agent/scheduler.go]): the tool calls of one model response, in
      sequence and in parallel groups, under any schedule.  Turn, Turning, TurnFacts
      ([agent/loop.go], [turn_history.go]): a turn of the agent around its batches, as a
      program that may return early; its symbolic execution into the relation
      [Turning.Stepped] and the rule that carries an invariant along the steps; how it
      ends, what it may spend, what the model sees and what its history says.
    - Tooling, Tasking ([tool/task_tools.go], [proposal.go], [schema.go]): the tools by
      which a turn creates and changes tasks, over the registry's guard and the kernel.
    - Tokens ([tokenestimate]): JSON values and the token estimate, which
      never grows when members of an object are left out.  Context, Rendering
      ([context/renderer.go], [request_sizing.go]): what the model is shown, and the
      request it is rendered to.  Cropping, Budgets ([context/context.go] and the
      [..._projection.go] files): how sections and request are cut to their budgets.
      Fitting, Fitted, Shown: the cutting ends, is made of cuts only, and what it
      leaves fits.
    - GameTimes ([memory/game_time.go]): stable sorting by comparators that are not total,
      game times with missing fields.  Memories ([memory_projection.go]), Histories
      ([memory/history.go], [history_text.go]; [experience/contract.go],
      [context/experiences.go]), Recalling ([history_projection.go]), Retrieval
      ([retrieval_projection.go]): what of a session's past is selected for the prompt,
      each followed by what it shows: nothing of the future or of another session, the
      latest that fits, and nothing twice.  Building: [Engine.Build], which composes the
      selections with the budgets, and that what it answers is within the budgets of the
      request and of its sections (facts that are already bare may exceed theirs).
    - Admission ([tool/environment_catalog.go], [registry.go], [types.go]): the catalog of
      the tools an environment announces, the registry, and which tools a request offers:
      in the order of their names, those that fit.  TaskContext ([agent/task_context.go],
      [task_wake.go]): whether a turn deals with a task, the snapshot its requests are
      built from and whether a wake's task still waits for a decision, over Registry,
      Tooling and Admission.

    ** State and effects
    A database ([Store.DB]) is four finite maps: heads by world, tasks by owner and id,
    wakes by id, checkpoints by id.  A JSON column holds the value its text decodes to
    together with the checks the code makes on the text (canonical bytes, hashes), so
    decoding is the function [clone...] (decode of encode) and comparisons of texts are
    comparisons of encodings.  An operation is a function of an environment and a state
    in the monad [Store.M]; the environment answers, for every step of the run, whether
    the driver fails there, whether the context is cancelled, what the clocks and the
    id generator say.  A theorem about all environments is therefore a theorem about
    every schedule of faults and cancellations.  A transaction that fails at any step,
    its commit included, leaves the tables as they were.  Transactions are immediate
    (SQLite's [BEGIN IMMEDIATE]), so concurrent calls are serialised, and a run of the
    system is a sequence of calls: [Kernel.step], from the empty store [Kernel.reachable];
    [Kernel.run] is a sequence of calls that restore no checkpoint, along which a world
    only moves forward.

    ** Integers, fuel
    Go's [int64] is [Z] and [uint64] is [N]; conversions and sums that can overflow are
    written with their wrap-around, and the checks of the code that exclude it are part
    of the definitions.  In the kernel no function needs fuel: loops run over lists, and the
    scanner of [GoJson] over the characters of its text.  The retry loops of Handover
    have three rounds, because the third failure ends a delivery
    ([Handing.delivery_always_returns]: they return); the loops of Batch have a round
    for each call, the loop of Turn one for each of [MaxSteps].  The loop of Budgets that
    drops optional content has a round for each thing there is to drop
    ([Budgets.droppable]; [Fitted.optional_content_goes_in_order]: it ends); the parser
    of Tokens has two calls for each byte; the binary searches of Recalling have a round
    for each size ([Recalling.search_ok]: the next size was refused), and the groups of
    Memories one for each record ([Memories.order_groups_ok]).

    ** Not modelled
    The file system and the opening of the database (DSN, pragmas, migration, file
    locks); the JSON decoder on texts this package did not write (rows of other writers
    are outside [reachable]; the model's [clone] is decoding after encoding); the two
    queries of [Read] and of the list calls are taken at one state; the console's
    read-only projections; the memory store (what the searches find, the summaries and
    the history a session has are inputs of the prompt's selections); the copy of the tool
    admission into the prompt's report; the gateway's streams and messages and the process
    wiring, which are clients of this package or independent of it.  Of the handlers a delivery calls, the tools a
    batch runs, the model and the prompt builder a turn calls, and the looks at its task
    that Turn composes (TaskContext defines them), only the answers appear, as parameters;
    so do the JSON schemas of the
    environment's tools, the protobuf conversion, the JSON of the protocol's results and
    Unicode's tables beyond ASCII.  Of trace events only the names appear. *)

From Stdlib Require Export ZArith Lia Ascii String.
From stdpp Require Export sorting.
From stdpp Require Export base option numbers gmap sets strings list.

#[export] Set Default Goal Selector "!".

(** ** Outcomes: a Go function's [(value, error)] pair

    A function returning [(T, error)] either yields a value or an error; a
    function returning just [error] is an [outcome E unit]. *)
Inductive outcome (E A : Type) : Type :=
| Ok (a : A)
| Err (e : E).
Arguments Ok {E A} a.
Arguments Err {E A} e.

#[export] Instance outcome_ret {E} : MRet (outcome E) := fun A a => Ok a.
#[export] Instance outcome_bind {E} : MBind (outcome E) :=
  fun A B f m => match m with Ok a => f a | Err e => Err e end.
#[export] Instance outcome_fmap {E} : FMap (outcome E) :=
  fun A B f m => match m with Ok a => Ok (f a) | Err e => Err e end.

#[export] Instance outcome_eq_dec {E A} `{EqDecision E, EqDecision A} :
  EqDecision (outcome E A).
Proof. solve_decision. Defined.

Definition is_ok {E A} (m : outcome E A) : bool :=
  match m with Ok _ => true | Err _ => false end.

(** [if cond { return err }] *)
Definition fail_if {E} (cond : bool) (e : E) : outcome E unit :=
  if cond then Err e else Ok tt.

(** Forget the error of a Go call whose error is replaced by the caller:
    [if err := f(); err != nil { return e' }]. *)
Definition or_err {E E' A} (m : outcome E A) (e : E') : outcome E' A :=
  match m with Ok a => Ok a | Err _ => Err e end.

Definition of_option {E A} (o : option A) (e : E) : outcome E A :=
  match o with Some a => Ok a | None => Err e end.

(** ** Boolean tests written as the Go code writes them *)
Declare Scope go_scope.
Delimit Scope go_scope with go.
Notation "a == b" := (bool_decide (a = b)) (at level 70, no associativity) : go_scope.
Notation "a != b" := (negb (bool_decide (a = b))) (at level 70, no associativity) : go_scope.
Notation "! b" := (negb b) (at level 35, right associativity, only parsing) : go_scope.

(** [math.MaxInt64] and the wrap-around of Go's 64-bit integers. *)
Definition MaxInt64 : Z := 9223372036854775807.
Definition MaxInt64N : N := 9223372036854775807.
Definition wrap_i64 (z : Z) : Z := ((z + 2 ^ 63) mod 2 ^ 64 - 2 ^ 63)%Z.
Definition wrap_u64 (n : N) : N := (n mod 2 ^ 64)%N.
Definition int64_range (z : Z) : Prop := (- 2 ^ 63 <= z < 2 ^ 63)%Z.

Lemma wrap_i64_id z : int64_range z -> wrap_i64 z = z.
Proof. unfold wrap_i64, int64_range. intros. rewrite Z.mod_small; lia. Qed.

Lemma wrap_u64_id n : (n < 2 ^ 64)%N -> wrap_u64 n = n.
Proof. apply N.mod_small. Qed.

(** ** Inversion lemmas of the outcome monad *)
Section outcome_lemmas.
Context {E : Type}.

Lemma bind_ok {A B} (m : outcome E A) (f : A -> outcome E B) b :
  m ≫= f = Ok b <-> exists a, m = Ok a /\ f a = Ok b.
Proof. destruct m; simpl; naive_solver. Qed.

Lemma fail_if_ok b (e : E) u : fail_if b e = Ok u <-> b = false.
Proof. destruct b, u; simpl; naive_solver. Qed.

Lemma fail_if_bind {A} b (e : E) (m : outcome E A) a :
  (fail_if b e ≫= fun _ => m) = Ok a <-> b = false /\ m = Ok a.
Proof. destruct b; simpl; naive_solver. Qed.

Lemma or_err_ok {E' A} (m : outcome E' A) (e : E) a : or_err m e = Ok a <-> m = Ok a.
Proof. destruct m; simpl; naive_solver. Qed.

Lemma of_option_ok {A} (o : option A) (e : E) a : of_option o e = Ok a <-> o = Some a.
Proof. destruct o; simpl; naive_solver. Qed.

Lemma is_ok_true {A} (m : outcome E A) : is_ok m = true <-> exists a, m = Ok a.
Proof. destruct m; simpl; naive_solver. Qed.

Lemma is_ok_false {A} (m : outcome E A) : is_ok m = false <-> exists e, m = Err e.
Proof. destruct m; simpl; naive_solver. Qed.
End outcome_lemmas.

(** The success of a check, as what it established: [autorewrite with outcome]. *)
Create HintDb outcome.
#[export] Hint Rewrite @fail_if_bind @fail_if_ok @or_err_ok @of_option_ok @is_ok_true : outcome.

(** ** Tactics

    [deex] opens existentials and conjunctions; [boolp] turns the booleans of
    the code into the propositions they decide; [okinv H] inverts a run of the
    outcome monad that ended in [Ok]. *)
Ltac deex :=
  repeat match goal with
  | H : exists _, _ |- _ => destruct H
  | H : _ /\ _ |- _ => destruct H
  | H : (_, _) = (_, _) |- _ => injection H; clear H; intros
  end.

Ltac boolp_in H :=
  repeat first
    [ rewrite negb_true_iff in H | rewrite negb_false_iff in H
    | rewrite orb_false_iff in H | rewrite andb_true_iff in H
    | rewrite orb_true_iff in H | rewrite andb_false_iff in H
    | rewrite bool_decide_eq_true in H | rewrite bool_decide_eq_false in H
    | rewrite Z.ltb_lt in H | rewrite Z.ltb_ge in H
    | rewrite Z.leb_le in H | rewrite Z.leb_gt in H
    | rewrite N.ltb_lt in H | rewrite N.ltb_ge in H
    | rewrite N.leb_le in H | rewrite N.leb_gt in H
    | rewrite Nat.ltb_lt in H | rewrite Nat.ltb_ge in H
    | rewrite Nat.leb_le in H | rewrite Nat.leb_gt in H ].

Ltac boolp := repeat match goal with H : _ = true |- _ => progress boolp_in H
                                | H : _ = false |- _ => progress boolp_in H
                                | H : _ \/ _ |- _ => progress boolp_in H
                                | H : _ /\ _ |- _ => progress boolp_in H end.

Ltac okinv H :=
  lazymatch type of H with
  | (fail_if _ _ ≫= _) = Ok _ =>
      apply fail_if_bind in H; let H1 := fresh "Hg" in destruct H as [H1 H]; okinv H
  | (_ ≫= _) = Ok _ =>
      apply bind_ok in H; let a := fresh "v" in let H1 := fresh "Hv" in
      destruct H as (a & H1 & H); okinv H1; okinv H
  | fail_if _ _ = Ok _ => apply fail_if_ok in H
  | or_err _ _ = Ok _ => apply or_err_ok in H; okinv H
  | of_option _ _ = Ok _ => apply of_option_ok in H
  | mret _ = Ok _ => apply (f_equal (fun o => match o with Ok x => Some x | Err _ => None end)) in H;
                     simpl in H; simplify_eq
  | Ok _ = Ok _ => simplify_eq
  | Err _ = Ok _ => discriminate H
  | _ => idtac
  end.

(** ** Sorting: [sort.Slice(xs, less)]

    The library sort is not stable and its algorithm is unspecified; every
    comparator of the kernel is a strict total order on the slices it sorts, and
    [sort_slice_unique] shows that any correct sort then returns the same slice. *)
Fixpoint insert_slice {A} (less : A -> A -> bool) (x : A) (l : list A) : list A :=
  match l with
  | [] => [x]
  | y :: t => if less y x then y :: insert_slice less x t else x :: y :: t
  end.

Definition sort_slice {A} (less : A -> A -> bool) (l : list A) : list A :=
  foldr (insert_slice less) [] l.

(** A comparator that is a strict total order on the elements of [l]. *)
Record strict_total_on {A} (less : A -> A -> bool) (l : list A) : Prop := {
  sto_irrefl : forall x, x ∈ l -> less x x = false;
  sto_trans : forall x y z, x ∈ l -> y ∈ l -> z ∈ l ->
    less x y = true -> less y z = true -> less x z = true;
  sto_total : forall x y, x ∈ l -> y ∈ l -> x <> y -> less x y = true \/ less y x = true
}.

Section sort_slice.
Context {A : Type} (less : A -> A -> bool).

Lemma insert_slice_perm x l : insert_slice less x l ≡ₚ x :: l.
Proof.
  induction l as [|y t IH]; simpl; [done|].
  destruct (less y x); [|done]. rewrite IH. apply Permutation_swap.
Qed.

Lemma sort_slice_perm l : sort_slice less l ≡ₚ l.
Proof.
  induction l as [|x l IH]; [done|]. unfold sort_slice in *; simpl.
  rewrite insert_slice_perm. by rewrite IH.
Qed.

Lemma sort_slice_nil l : sort_slice less l = [] <-> l = [].
Proof.
  split; [|intros ->; done].
  intros H. pose proof (sort_slice_perm l) as P. rewrite H in P.
  by apply Permutation_nil in P.
Qed.

Lemma strict_total_on_perm l l' :
  l ≡ₚ l' -> strict_total_on less l -> strict_total_on less l'.
Proof.
  intros P [H1 H2 H3]. split; intros *.
  - rewrite <- P. apply H1.
  - rewrite <- P. apply H2.
  - rewrite <- P. apply H3.
Qed.

Lemma strict_total_on_tail x l : strict_total_on less (x :: l) -> strict_total_on less l.
Proof.
  intros [H1 H2 H3]. split; intros.
  - apply H1; by right.
  - apply (H2 _ y); by try right.
  - apply H3; by try right.
Qed.

Lemma insert_slice_sorted x l :
  strict_total_on less (x :: l) -> x ∉ l ->
  StronglySorted (fun a b => less a b = true) l ->
  StronglySorted (fun a b => less a b = true) (insert_slice less x l).
Proof.
  intros HT Hx HS. induction HS as [|y t HS IH HF]; simpl.
  { repeat constructor. }
  destruct (less y x) eqn:Hyx.
  - constructor.
    + apply IH; [|set_solver].
      eapply (strict_total_on_tail y), strict_total_on_perm, HT. apply Permutation_swap.
    + rewrite insert_slice_perm. by constructor.
  - assert (less x y = true) as Hxy.
    { destruct (sto_total _ _ HT x y); [by left|by (right; left)|by intros ->; apply Hx; left|done|congruence]. }
    constructor; [by constructor|]. constructor; [done|].
    apply Forall_forall. intros z Hz. rewrite Forall_forall in HF.
    pose proof (HF z Hz) as Hyz. simpl in Hyz.
    apply (sto_trans _ _ HT x y z); [by left|by (right; left)|by (right; right)|done|done].
Qed.

Lemma sort_slice_sorted l :
  strict_total_on less l -> NoDup l ->
  StronglySorted (fun a b => less a b = true) (sort_slice less l).
Proof.
  induction l as [|x l IH]; intros HT HN; [constructor|].
  apply NoDup_cons in HN as [Hx HN]. simpl. fold (sort_slice less l).
  apply insert_slice_sorted.
  - eapply strict_total_on_perm, HT. by rewrite sort_slice_perm.
  - rewrite sort_slice_perm. done.
  - apply IH; [|done]. by eapply strict_total_on_tail.
Qed.

Lemma sort_slice_unique l l' :
  strict_total_on less l -> NoDup l -> l ≡ₚ l' -> sort_slice less l = sort_slice less l'.
Proof.
  intros HT HN P.
  apply (StronglySorted_unique_strong (fun a b => less a b = true)).
  - intros x y Hx Hy H1 H2. rewrite sort_slice_perm in Hx.
    rewrite sort_slice_perm, <- P in Hy.
    pose proof (sto_trans _ _ HT x y x Hx Hy Hx H1 H2) as Hxx.
    rewrite (sto_irrefl _ _ HT) in Hxx by done. done.
  - by apply sort_slice_sorted.
  - apply sort_slice_sorted; [by eapply strict_total_on_perm|by rewrite <- P].
  - rewrite !sort_slice_perm. done.
Qed.
End sort_slice.

(** ** Byte-wise string order: Go's [<] on strings and SQLite's BINARY collation *)
Fixpoint str_lt (a b : string) : bool :=
  match a, b with
  | _, EmptyString => false
  | EmptyString, String _ _ => true
  | String x a', String y b' =>
    (N_of_ascii x <? N_of_ascii y)%N || (bool_decide (x = y) && str_lt a' b')
  end.

Lemma str_lt_irrefl a : str_lt a a = false.
Proof. induction a as [|x a IH]; simpl; [done|]. by rewrite N.ltb_irrefl, IH, andb_false_r. Qed.

Lemma str_lt_trans a b c : str_lt a b = true -> str_lt b c = true -> str_lt a c = true.
Proof.
  revert b c. induction a as [|x a IH]; intros [|y b] [|z c]; simpl; try done.
  rewrite !orb_true_iff, !andb_true_iff, !N.ltb_lt, !bool_decide_eq_true.
  intros [H1|[-> H1]] [H2|[-> H2]]; [left; lia|by left|by left|right; eauto].
Qed.

Lemma str_lt_total a b : a <> b -> str_lt a b = true \/ str_lt b a = true.
Proof.
  revert b. induction a as [|x a IH]; intros [|y b] Hne; simpl; [done|by left|by right|].
  rewrite !orb_true_iff, !andb_true_iff, !N.ltb_lt, !bool_decide_eq_true.
  destruct (N.lt_trichotomy (N_of_ascii x) (N_of_ascii y)) as [H|[H|H]]; [tauto| |tauto].
  apply (f_equal ascii_of_N) in H. rewrite !ascii_N_embedding in H. subst y.
  destruct (IH b) as [H|H]; [congruence|tauto..].
Qed.

(** [less] chains: compare by the first key, break ties by the second. *)
Lemma strict_total_on_key {A} (key : A -> string) (l : list A) :
  NoDup (key <$> l) -> strict_total_on (fun a b => str_lt (key a) (key b)) l.
Proof.
  intros HN. split.
  - intros x _. apply str_lt_irrefl.
  - intros x y z _ _ _. apply str_lt_trans.
  - intros x y Hx Hy Hne. apply str_lt_total. intros He. apply Hne.
    apply list_elem_of_lookup in Hx as [i Hi], Hy as [j Hj].
    assert (i = j) as ->; [|congruence].
    eapply NoDup_lookup; [done|rewrite list_lookup_fmap, Hi; done|].
    rewrite list_lookup_fmap, Hj. simpl. by rewrite He.
Qed.

(** [if key(i) != key(j) { return key(i) < key(j) }; return less(i, j)]. *)
Definition then_by {A} (lt : Z -> Z -> bool) (key : A -> Z) (less : A -> A -> bool) (i j : A) : bool :=
  if bool_decide (key i = key j) then less i j else lt (key i) (key j).

Lemma then_by_true {A} lt (key : A -> Z) less i j :
  (lt = Z.ltb \/ lt = Z.gtb) ->
  then_by lt key less i j = true <-> lt (key i) (key j) = true \/ (key i = key j /\ less i j = true).
Proof.
  intros Hlt. unfold then_by. case_bool_decide as H; [rewrite H|tauto].
  destruct Hlt as [->| ->]; rewrite ?Z.gtb_ltb, Z.ltb_irrefl; naive_solver.
Qed.

Lemma strict_total_on_then_by {A} lt (key : A -> Z) less (l : list A) :
  (lt = Z.ltb \/ lt = Z.gtb) -> strict_total_on less l -> strict_total_on (then_by lt key less) l.
Proof.
  intros Hlt [H1 H2 H3]. split.
  - intros x Hx. unfold then_by. rewrite bool_decide_true by done. auto.
  - intros x y z Hx Hy Hz. rewrite !then_by_true by done. intros Hxy Hyz.
    assert (lt (key x) (key z) = true \/ (key x = key y /\ key y = key z)) as [H|[Ha Hb]];
      [|by left|right].
    + destruct Hlt as [->| ->]; rewrite ?Z.gtb_ltb, ?Z.ltb_lt in *; lia.
    + split; [congruence|]. rewrite Ha, Hb in *.
      destruct Hlt as [->| ->]; rewrite ?Z.gtb_ltb, ?Z.ltb_irrefl in *; naive_solver.
  - intros x y Hx Hy Hne. rewrite !then_by_true by done.
    destruct (decide (key x = key y)) as [He|He]; [destruct (H3 x y); auto|].
    destruct Hlt as [->| ->]; rewrite ?Z.gtb_ltb, ?Z.ltb_lt; lia.
Qed.

(** Comparators the kernel sorts by: [eauto with ordering]. *)
Create HintDb ordering.
#[export] Hint Resolve sort_slice_perm str_lt_irrefl str_lt_trans str_lt_total strict_total_on_key
  strict_total_on_then_by : ordering.

(** The head of a sorted slice is its least element. *)
Definition least {A} (less : A -> A -> bool) (l : list A) : option A := head (sort_slice less l).

Section least.
Context {A : Type} (less : A -> A -> bool).

Lemma least_none l : least less l = None <-> l = [].
Proof.
  unfold least. rewrite <- (sort_slice_nil less l). destruct (sort_slice less l); simpl; naive_solver.
Qed.

Lemma least_elem l x : least less l = Some x -> x ∈ l.
Proof.
  unfold least. intros H. rewrite <- (sort_slice_perm less l).
  destruct (sort_slice less l); simplify_eq/=. by left.
Qed.

Lemma least_some l x : x ∈ l -> exists y, least less l = Some y.
Proof.
  intros Hx. destruct (least less l) as [y|] eqn:Hl; [eauto|].
  apply least_none in Hl. subst l. by apply not_elem_of_nil in Hx.
Qed.

Lemma least_least l x y :
  strict_total_on less l -> NoDup l -> least less l = Some x -> y ∈ l -> y = x \/ less x y = true.
Proof.
  intros HT HN Hl Hy. pose proof (sort_slice_sorted less l HT HN) as HS.
  rewrite <- (sort_slice_perm less l) in Hy. unfold least in Hl.
  destruct (sort_slice less l) as [|z t]; simplify_eq/=.
  apply elem_of_cons in Hy as [->|Hy]; [by left|right].
  apply StronglySorted_inv in HS as [_ HF]. rewrite Forall_forall in HF. by apply HF.
Qed.

Lemma least_perm l l' :
  strict_total_on less l -> NoDup l -> l ≡ₚ l' -> least less l = least less l'.
Proof. intros. unfold least. by erewrite sort_slice_unique. Qed.
End least.
