(* ===== verification/GoText.v ===== *)
(** * Go text: bytes, runes, [strings.TrimSpace] and decimal formatting

    A Go string is a sequence of bytes: Rocq's [string], one [ascii] per byte.
    This file holds what the kernel uses of the standard library on text:
    UTF-8 decoding as [for range] does it, [unicode.IsSpace],
    [strings.TrimSpace] and the decimal text of integers. *)

From S2P Require Export Prelude.

Local Open Scope N_scope.

(** ** Bytes *)
Definition byte_val (c : ascii) : N := N_of_ascii c.
Definition byte_of (n : N) : ascii := ascii_of_N n.
Definition bytes_of (s : string) : list ascii := String.list_ascii_of_string s.
Definition text_of (l : list ascii) : string := String.string_of_list_ascii l.

Lemma bytes_of_text_of l : bytes_of (text_of l) = l.
Proof. apply String.list_ascii_of_string_of_list_ascii. Qed.

Lemma text_of_bytes_of s : text_of (bytes_of s) = s.
Proof. apply String.string_of_list_ascii_of_string. Qed.

(** [len(s)]: the number of bytes. *)
Definition str_len (s : string) : Z := Z.of_nat (length (bytes_of s)).

(** ** [utf8.DecodeRuneInString]: the first rune and its width in bytes.
    An invalid or truncated sequence is [RuneError] of width 1. *)
Definition RuneError : N := 0xFFFD.

Definition in_range (lo hi n : N) : bool := (lo <=? n) && (n <=? hi).
Definition is_cont (n : N) : bool := in_range 0x80 0xBF n.

Definition decode_rune (l : list N) : N * nat :=
  match l with
  | [] => (RuneError, 0%nat)
  | b0 :: t =>
    if b0 <? 0x80 then (b0, 1%nat)
    else if in_range 0xC2 0xDF b0 then
      match t with
      | b1 :: _ => if is_cont b1
                   then (N.land b0 0x1F * 64 + N.land b1 0x3F, 2%nat) else (RuneError, 1%nat)
      | _ => (RuneError, 1%nat)
      end
    else if in_range 0xE0 0xEF b0 then
      let lo := if b0 =? 0xE0 then 0xA0 else 0x80 in
      let hi := if b0 =? 0xED then 0x9F else 0xBF in
      match t with
      | b1 :: b2 :: _ =>
        if in_range lo hi b1 && is_cont b2
        then (N.land b0 0x0F * 4096 + N.land b1 0x3F * 64 + N.land b2 0x3F, 3%nat)
        else (RuneError, 1%nat)
      | _ => (RuneError, 1%nat)
      end
    else if in_range 0xF0 0xF4 b0 then
      let lo := if b0 =? 0xF0 then 0x90 else 0x80 in
      let hi := if b0 =? 0xF4 then 0x8F else 0xBF in
      match t with
      | b1 :: b2 :: b3 :: _ =>
        if in_range lo hi b1 && is_cont b2 && is_cont b3
        then (N.land b0 0x07 * 262144 + N.land b1 0x3F * 4096
              + N.land b2 0x3F * 64 + N.land b3 0x3F, 4%nat)
        else (RuneError, 1%nat)
      | _ => (RuneError, 1%nat)
      end
    else (RuneError, 1%nat)
  end.

(** The runes of a string with the bytes each was decoded from.  Every rune
    takes at least one byte, so the length of the string is enough fuel
    ([runes_concat]). *)
Fixpoint runes_fuel (fuel : nat) (l : list ascii) : list (N * list ascii) :=
  match fuel, l with
  | S f, _ :: _ =>
    let '(r, w) := decode_rune (byte_val <$> l) in
    let w := Nat.max 1 w in
    (r, take w l) :: runes_fuel f (drop w l)
  | _, _ => []
  end.
Definition runes (s : string) : list (N * list ascii) :=
  let l := bytes_of s in runes_fuel (length l) l.

Lemma runes_fuel_concat fuel l :
  (length l <= fuel)%nat -> concat (snd <$> runes_fuel fuel l) = l.
Proof.
  revert l. induction fuel as [|f IH]; intros [|c t] Hl; try done.
  { simpl in Hl. lia. }
  cbn [runes_fuel]. destruct (decode_rune (byte_val <$> c :: t)) as [r w].
  change (concat _) with
    (take (Nat.max 1 w) (c :: t)
       ++ concat (snd <$> runes_fuel f (drop (Nat.max 1 w) (c :: t)))).
  rewrite IH; [apply take_drop|]. rewrite length_drop. simpl in *. lia.
Qed.

Lemma runes_concat s : concat (snd <$> runes s) = bytes_of s.
Proof. by apply runes_fuel_concat. Qed.

(** ** [unicode.IsSpace] *)
Definition is_space (r : N) : bool :=
  in_range 0x09 0x0D r || (r =? 0x20) || (r =? 0x85) || (r =? 0xA0)
  || (r =? 0x1680) || in_range 0x2000 0x200A r || (r =? 0x2028) || (r =? 0x2029)
  || (r =? 0x202F) || (r =? 0x205F) || (r =? 0x3000).

Fixpoint drop_spaces (l : list (N * list ascii)) : list (N * list ascii) :=
  match l with
  | (r, bs) :: t => if is_space r then drop_spaces t else l
  | [] => []
  end.

(** [strings.TrimSpace].  The library trims the right end by decoding
    backwards; no rune of a forward decoding contains the first byte of a
    well-formed rune anywhere but at its head, so both decodings cut the string
    at the same places. *)
Definition TrimSpace (s : string) : string :=
  text_of (concat (snd <$> rev (drop_spaces (rev (drop_spaces (runes s)))))).

Lemma drop_spaces_nil l : drop_spaces l = [] <-> Forall (fun p => is_space p.1 = true) l.
Proof.
  induction l as [|[r bs] t IH]; simpl; [by split|].
  destruct (is_space r) eqn:E; rewrite Forall_cons; simpl; [|naive_solver congruence].
  rewrite IH. naive_solver.
Qed.

(** ** Decimal text of integers ([strconv]) *)
Definition digit_char (d : N) : ascii := byte_of (48 + d).

Fixpoint dec_digits (fuel : nat) (n : N) (acc : list ascii) : list ascii :=
  match fuel with
  | O => acc
  | S f => let acc := digit_char (n mod 10) :: acc in
           if n / 10 =? 0 then acc else dec_digits f (n / 10) acc
  end.

(** One digit per round and at least one bit per digit: [N.size_nat n + 1]
    rounds reach the leading digit. *)
Definition FormatUint (n : N) : string := text_of (dec_digits (S (N.size_nat n)) n []).
Definition FormatInt (z : Z) : string :=
  match z with
  | Zneg p => String (byte_of 45) (FormatUint (Npos p))
  | _ => FormatUint (Z.to_N z)
  end.

Example format_zero : FormatInt 0 = "0"%string. Proof. reflexivity. Qed.
Example format_neg : FormatInt (-1205) = "-1205"%string. Proof. vm_compute. reflexivity. Qed.
Example trim_ascii : TrimSpace "  a b "%string = "a b"%string. Proof. vm_compute. reflexivity. Qed.
