(* ===== verification/GoJson.v ===== *)
(** * encoding/json: validity, compaction and the encoder

    The scanner of [encoding/json] as the library has it: a byte automaton with
    a stack of open objects and arrays.  [json_valid] is [json.Valid],
    [json_compact] the compaction with HTML escaping that [json.Marshal] applies
    to a [json.RawMessage], and the [enc_*] functions are the encoder the
    kernel's [Marshal] calls run. *)

From S2P Require Export GoText.

Local Open Scope N_scope.

(** ** The scanner *)
Inductive parse_ctx := InObjectKey | InObjectValue | InArray.

Inductive scan_state :=
| BeginValue | BeginValueOrEmpty | BeginStringOrEmpty | BeginString
| EndValue | EndTop
| InString | InStringEsc | InStringEscU | InStringEscU1 | InStringEscU12 | InStringEscU123
| SNeg | S1 | S0 | SDot | SDot0 | SE | SESign | SE0
| ST | STr | STru | SF | SFa | SFal | SFals | SN | SNu | SNul.

Record scanner := { sc_state : scan_state; sc_stack : list parse_ctx }.

Definition scanner_init : scanner := {| sc_state := BeginValue; sc_stack := [] |}.

(** [maxNestingDepth] *)
Definition maxNestingDepth : nat := 10000.

Definition json_space (c : N) : bool := (c =? 0x20) || (c =? 0x09) || (c =? 0x0D) || (c =? 0x0A).
Definition is_digit (c : N) : bool := in_range 48 57 c.
Definition is_hex (c : N) : bool := is_digit c || in_range 97 102 c || in_range 65 70 c.

Definition go_to (st : scan_state) (stack : list parse_ctx) : option (bool * scanner) :=
  Some (true, {| sc_state := st; sc_stack := stack |}).
Definition skip_to (st : scan_state) (stack : list parse_ctx) : option (bool * scanner) :=
  Some (false, {| sc_state := st; sc_stack := stack |}).
Definition push (c : parse_ctx) (st : scan_state) (stack : list parse_ctx) : option (bool * scanner) :=
  if (maxNestingDepth <=? length stack)%nat then None else go_to st (c :: stack).
(** [popParseState] *)
Definition pop (stack : list parse_ctx) : option (bool * scanner) :=
  match stack with
  | [] => None
  | _ :: [] => go_to EndTop []
  | _ :: rest => go_to EndValue rest
  end.

Definition stateEndTop (stack : list parse_ctx) (c : N) : option (bool * scanner) :=
  if json_space c then skip_to EndTop stack else None.

Definition stateEndValue (stack : list parse_ctx) (c : N) : option (bool * scanner) :=
  match stack with
  | [] => stateEndTop stack c
  | top :: rest =>
    if json_space c then skip_to EndValue stack
    else match top with
         | InObjectKey => if c =? 58 then go_to BeginValue (InObjectValue :: rest) else None
         | InObjectValue => if c =? 44 then go_to BeginString (InObjectKey :: rest)
                            else if c =? 125 then pop stack else None
         | InArray => if c =? 44 then go_to BeginValue stack
                      else if c =? 93 then pop stack else None
         end
  end.

Definition stateBeginValue (stack : list parse_ctx) (c : N) : option (bool * scanner) :=
  if json_space c then skip_to BeginValue stack
  else if c =? 123 then push InObjectKey BeginStringOrEmpty stack
  else if c =? 91 then push InArray BeginValueOrEmpty stack
  else if c =? 34 then go_to InString stack
  else if c =? 45 then go_to SNeg stack
  else if c =? 48 then go_to S0 stack
  else if c =? 116 then go_to ST stack
  else if c =? 102 then go_to SF stack
  else if c =? 110 then go_to SN stack
  else if in_range 49 57 c then go_to S1 stack
  else None.

Definition stateBeginString (stack : list parse_ctx) (c : N) : option (bool * scanner) :=
  if json_space c then skip_to BeginString stack
  else if c =? 34 then go_to InString stack else None.

Definition state0 (stack : list parse_ctx) (c : N) : option (bool * scanner) :=
  if c =? 46 then go_to SDot stack
  else if (c =? 101) || (c =? 69) then go_to SE stack
  else stateEndValue stack c.

Definition expect (b : bool) (st : scan_state) (stack : list parse_ctx) : option (bool * scanner) :=
  if b then go_to st stack else None.

(** One byte: [None] is a syntax error, [Some (keep, s')] tells whether the
    byte is part of the compact text. *)
Definition scan_step (s : scanner) (c : N) : option (bool * scanner) :=
  let k := sc_stack s in
  match sc_state s with
  | BeginValue => stateBeginValue k c
  | BeginValueOrEmpty =>
    if json_space c then skip_to BeginValueOrEmpty k
    else if c =? 93 then stateEndValue k c else stateBeginValue k c
  | BeginStringOrEmpty =>
    if json_space c then skip_to BeginStringOrEmpty k
    else if c =? 125 then
      match k with
      | InObjectKey :: rest => stateEndValue (InObjectValue :: rest) c
      | _ => None
      end
    else stateBeginString k c
  | BeginString => stateBeginString k c
  | EndValue => stateEndValue k c
  | EndTop => stateEndTop k c
  | InString => if c =? 34 then go_to EndValue k
                else if c =? 92 then go_to InStringEsc k
                else if c <? 0x20 then None else go_to InString k
  | InStringEsc => if c =? 117 then go_to InStringEscU k
                   else expect ((c =? 98) || (c =? 102) || (c =? 110) || (c =? 114) || (c =? 116)
                                || (c =? 92) || (c =? 47) || (c =? 34)) InString k
  | InStringEscU => expect (is_hex c) InStringEscU1 k
  | InStringEscU1 => expect (is_hex c) InStringEscU12 k
  | InStringEscU12 => expect (is_hex c) InStringEscU123 k
  | InStringEscU123 => expect (is_hex c) InString k
  | SNeg => if c =? 48 then go_to S0 k else expect (in_range 49 57 c) S1 k
  | S1 => if is_digit c then go_to S1 k else state0 k c
  | S0 => state0 k c
  | SDot => expect (is_digit c) SDot0 k
  | SDot0 => if is_digit c then go_to SDot0 k
             else if (c =? 101) || (c =? 69) then go_to SE k else stateEndValue k c
  | SE => if (c =? 43) || (c =? 45) then go_to SESign k else expect (is_digit c) SE0 k
  | SESign => expect (is_digit c) SE0 k
  | SE0 => if is_digit c then go_to SE0 k else stateEndValue k c
  | ST => expect (c =? 114) STr k
  | STr => expect (c =? 117) STru k
  | STru => expect (c =? 101) EndValue k
  | SF => expect (c =? 97) SFa k
  | SFa => expect (c =? 108) SFal k
  | SFal => expect (c =? 115) SFals k
  | SFals => expect (c =? 101) EndValue k
  | SN => expect (c =? 117) SNu k
  | SNu => expect (c =? 108) SNul k
  | SNul => expect (c =? 108) EndValue k
  end.

(** [scanner.eof]: the input ends a value when the scanner is at the top, or
    when one more space brings it there. *)
Definition scan_eof (s : scanner) : bool :=
  match sc_state s with
  | EndTop => true
  | _ => match scan_step s 0x20 with
         | Some (_, s') => match sc_state s' with EndTop => true | _ => false end
         | None => false
         end
  end.

Fixpoint scan_run (s : scanner) (l : list ascii) : option scanner :=
  match l with
  | [] => Some s
  | c :: t => match scan_step s (byte_val c) with
              | Some (_, s') => scan_run s' t
              | None => None
              end
  end.

(** [json.Valid] *)
Definition json_valid (raw : string) : bool :=
  match scan_run scanner_init (bytes_of raw) with
  | Some s => scan_eof s
  | None => false
  end.

(** ** Compaction with HTML escaping ([appendCompact], [escapeHTML = true]) *)
Definition hex_digit (n : N) : ascii := byte_of (if n <? 10 then 48 + n else 87 + n).

Definition escape_u00 (c : N) : list ascii :=
  [byte_of 92; byte_of 117; byte_of 48; byte_of 48; hex_digit (c / 16); hex_digit (c mod 16)].
Definition escape_202 (c : N) : list ascii :=
  [byte_of 92; byte_of 117; byte_of 50; byte_of 48; byte_of 50; hex_digit (c mod 16)].

Definition html_byte (c : N) : bool := (c =? 60) || (c =? 62) || (c =? 38).

(** The bytes written for [c] when it is kept, given the bytes that follow, and
    how many of those belong to the same escape (U+2028 and U+2029). *)
Definition compact_byte (c : ascii) (t : list ascii) : list ascii * nat :=
  let v := byte_val c in
  if html_byte v then (escape_u00 v, 0%nat)
  else match t with
       | c1 :: c2 :: _ =>
         if (v =? 0xE2) && (byte_val c1 =? 0x80) && ((byte_val c2 =? 0xA8) || (byte_val c2 =? 0xA9))
         then (escape_202 (byte_val c2), 2%nat) else ([c], 0%nat)
       | _ => ([c], 0%nat)
       end.

(** [pending] bytes are already written as part of an escape. *)
Fixpoint compact_run (s : scanner) (pending : nat) (l : list ascii) : option (list ascii * scanner) :=
  match l with
  | [] => Some ([], s)
  | c :: t =>
    match scan_step s (byte_val c) with
    | None => None
    | Some (keep, s') =>
      let '(out, skip) := match pending with
                          | O => if keep then compact_byte c t else ([], 0%nat)
                          | S p => ([], p)
                          end in
      match compact_run s' skip t with
      | Some (rest, s'') => Some (out ++ rest, s'')
      | None => None
      end
    end
  end.

Definition json_compact (raw : string) : option string :=
  match compact_run scanner_init 0 (bytes_of raw) with
  | Some (out, s) => if scan_eof s then Some (text_of out) else None
  | None => None
  end.

(** ** The encoder *)

(** A JSON string literal, quotes included ([appendString], [escapeHTML]). *)
Definition enc_rune (p : N * list ascii) : list ascii :=
  let '(r, bs) := p in
  match bs with
  | [c] =>
    let v := byte_val c in
    if v <? 0x80 then
      if (v =? 34) || (v =? 92) then [byte_of 92; c]
      else if v =? 8 then [byte_of 92; byte_of 98]
      else if v =? 12 then [byte_of 92; byte_of 102]
      else if v =? 10 then [byte_of 92; byte_of 110]
      else if v =? 13 then [byte_of 92; byte_of 114]
      else if v =? 9 then [byte_of 92; byte_of 116]
      else if (v <? 0x20) || html_byte v then escape_u00 v
      else [c]
    else bytes_of "\ufffd"
  | _ => if (r =? 0x2028) || (r =? 0x2029) then escape_202 r else bs
  end.

Definition enc_string (s : string) : string :=
  let q := byte_of 34 in text_of (q :: concat (enc_rune <$> runes s) ++ [q]).

Definition enc_bool (b : bool) : string := if b then "true" else "false".
Definition enc_int (z : Z) : string := FormatInt z.
Definition enc_uint (n : N) : string := FormatUint n.

(** A [json.RawMessage]: compacted, [null] when nil; an invalid one makes
    [Marshal] fail. *)
Definition enc_raw (raw : string) : option string :=
  if bool_decide (raw = "") then Some "null"%string else json_compact raw.

(** A struct: its fields in declaration order; [None] is a field dropped by
    [omitempty]. *)
Definition json_field : Type := option (string * string).
Definition field (name v : string) : json_field := Some (name, v).
Definition omit_if (b : bool) (name v : string) : json_field :=
  if b then None else Some (name, v).

Fixpoint join_comma (l : list string) : string :=
  match l with
  | [] => ""
  | [x] => x
  | x :: t => x +:+ "," +:+ join_comma t
  end.

Definition enc_object (fields : list json_field) : string :=
  "{" +:+ join_comma ((fun p => enc_string p.1 +:+ ":" +:+ p.2) <$> omap id fields) +:+ "}".
Definition enc_array (items : list string) : string :=
  "[" +:+ join_comma items +:+ "]".

(** [len(json)] *)
Definition enc_len (s : string) : Z := str_len s.

Fixpoint mapM_opt {A B} (f : A -> option B) (l : list A) : option (list B) :=
  match l with
  | [] => Some []
  | x :: t => y ← f x; ys ← mapM_opt f t; Some (y :: ys)
  end.

(** ** Compaction is idempotent

    The compact text of a valid document is valid and compacts to itself, so a
    raw message that went through one clone never changes again. *)

Ltac destr_tests :=
  repeat match goal with
  | |- context [if ?b then _ else _] => destruct b eqn:?
  | H : context [if ?b then _ else _] |- _ => destruct b eqn:?
  end.

(** [s'] is [s] after white space that the compaction drops. *)
Definition skips_to (s s' : scanner) : Prop := scan_step s 0x20 = Some (false, s').

Lemma json_space_cases c : json_space c = true -> c = 0x20 \/ c = 0x09 \/ c = 0x0D \/ c = 0x0A.
Proof. unfold json_space. rewrite !orb_true_iff, !N.eqb_eq. tauto. Qed.

Lemma pop_keeps k x : pop k = Some x -> x.1 = true.
Proof. destruct k as [|? [|]]; simpl; [done|..]; by intros [= <-]. Qed.

Ltac scan_unfold :=
  unfold scan_step, stateBeginValue, stateBeginString, state0, stateEndValue, stateEndTop,
    skip_to, go_to, push, expect in *.

Ltac scan_cases :=
  repeat match goal with
  | H : Some _ = Some _ |- _ => injection H as H
  | H : (_, _) = (_, _) |- _ => injection H as ? H
  | H : None = Some _ |- _ => discriminate H
  | H : pop _ = Some (false, _) |- _ => apply pop_keeps in H; discriminate H
  | H : context [match ?k with [] => _ | _ :: _ => _ end] |- _ => destruct k
  | H : context [match ?k with InObjectKey => _ | InObjectValue => _ | InArray => _ end] |- _ =>
      destruct k
  | H : context [if ?b then _ else _] |- _ => destruct b eqn:?
  end.

(** Only white space is dropped, and every kind of it leads to the same state. *)
Lemma scan_step_skip s c s' :
  scan_step s c = Some (false, s') -> json_space c = true /\ skips_to s s'.
Proof.
  unfold skips_to. destruct s as [st k]. destruct st; cbn [sc_state sc_stack] in *;
    scan_unfold; cbn [sc_state sc_stack] in *; intros H; scan_cases; try discriminate;
    first [congruence | split; [done|by subst]].
Qed.

Lemma stateEndValue_keeps k c x :
  stateEndValue k c = Some (true, x) -> c = 58 \/ c = 44 \/ c = 125 \/ c = 93.
Proof.
  destruct k as [|top k]; unfold stateEndValue, stateEndTop, skip_to, go_to; intros H.
  { by destruct (json_space c). }
  destruct (json_space c); [done|].
  destruct top; destr_tests; try discriminate;
    match goal with H : (_ =? _) = true |- _ => apply N.eqb_eq in H end; auto.
Qed.

(** A byte kept after dropped white space would be kept without it. *)
Lemma scan_step_skips_back s s' c s2 :
  skips_to s s' -> scan_step s' c = Some (true, s2) -> scan_step s c = Some (true, s2).
Proof.
  unfold skips_to. intros Hs Hc.
  destruct s as [st k].
  destruct st, k as [|top k]; cbv in Hs; try discriminate Hs; injection Hs as <-; try exact Hc.
  all: cbn [scan_step sc_state sc_stack] in *; unfold state0.
  all: try (unfold stateEndTop, skip_to in Hc; destruct (json_space c); discriminate Hc).
  all: pose proof (stateEndValue_keeps _ _ _ Hc) as [-> | [-> | [-> | ->]]]; exact Hc.
Qed.

(** The bytes that need rewriting are accepted in a string only. *)
Lemma scan_step_string_only s c keep s' :
  html_byte c = true \/ c = 0xE2 -> scan_step s c = Some (keep, s') ->
  sc_state s = InString /\ keep = true /\ s' = s.
Proof.
  unfold html_byte. rewrite !orb_true_iff, !N.eqb_eq.
  intros Hc H. destruct s as [st k].
  destruct st, k as [|[] k]; destruct Hc as [[[->| ->]| ->]| ->]; cbv in H; try discriminate H;
    by injection H as <- <-.
Qed.

Lemma compact_byte_plain c t :
  html_byte (byte_val c) = false ->
  (byte_val c = 0xE2 -> forall c1 c2 t', t = c1 :: c2 :: t' ->
     byte_val c1 = 0x80 -> byte_val c2 <> 0xA8 /\ byte_val c2 <> 0xA9) ->
  compact_byte c t = ([c], 0%nat).
Proof.
  intros Hh Hl. unfold compact_byte. rewrite Hh.
  destruct t as [|c1 [|c2 t']]; try done.
  destruct (byte_val c =? 0xE2) eqn:E1; [|done]. apply N.eqb_eq in E1.
  destruct (byte_val c1 =? 0x80) eqn:E2; [|done]. apply N.eqb_eq in E2.
  destruct (Hl E1 _ _ _ eq_refl E2) as [H1 H2].
  apply N.eqb_neq in H1, H2. by rewrite H1, H2.
Qed.

Lemma skips_to_idem s s' : skips_to s s' -> skips_to s' s'.
Proof.
  unfold skips_to. destruct s as [st k].
  destruct st, k as [|top k]; cbv; intros H; try discriminate H; by injection H as <-.
Qed.

Lemma scan_step_in_string s c keep s' :
  sc_state s = InString -> 0x80 <= c -> scan_step s c = Some (keep, s') -> keep = true /\ s' = s.
Proof.
  destruct s as [st k]; cbn [sc_state]. intros -> Hc. unfold scan_step, go_to. cbn [sc_state sc_stack].
  rewrite !(proj2 (N.eqb_neq _ _)), (proj2 (N.ltb_ge _ _)) by lia. by intros [= <- <-].
Qed.

Lemma compact_byte_head c t : exists o n, compact_byte c t = (o, n) /\
  (o = [c] \/ exists o', o = byte_of 92 :: o').
Proof.
  unfold compact_byte, escape_u00, escape_202.
  destruct (html_byte (byte_val c)); [eauto 10|].
  destruct t as [|c1 [|c2 t']]; eauto 10. destr_tests; eauto 10.
Qed.

(** What a string's bytes compact to starts with the same byte or an escape. *)
Lemma compact_run_head s l out s'' :
  sc_state s = InString -> compact_run s 0 l = Some (out, s'') ->
  match l with
  | [] => out = []
  | c :: t => exists rest, (out = c :: rest \/ out = byte_of 92 :: rest)
  end.
Proof.
  intros Hs. destruct l as [|c t]; cbn [compact_run]; [by intros [= <- _]|].
  destruct (scan_step s (byte_val c)) as [[keep s1]|] eqn:Hst; [|done].
  destruct (compact_byte_head c t) as (o & n & Ho & Hcase).
  assert (keep = true) as ->.
  { destruct keep; [done|]. apply scan_step_skip in Hst as [Hsp Hsk].
    destruct s as [st k]; cbn in Hs; subst st. by cbv in Hsk. }
  rewrite Ho. destruct (compact_run s1 n t) as [[rest s2]|]; [|done].
  intros [= <- <-]. destruct Hcase as [->|[o' ->]]; cbn; eauto.
Qed.

Definition no_separator (l : list ascii) : Prop :=
  forall c1 c2 t, l = c1 :: c2 :: t -> byte_val c1 = 0x80 ->
    byte_val c2 <> 0xA8 /\ byte_val c2 <> 0xA9.

Lemma compact_run_lookahead s l out s'' :
  sc_state s = InString -> compact_run s 0 l = Some (out, s'') ->
  no_separator l -> no_separator out.
Proof.
  intros Hs Hrun Hl c1 c2 t -> Hc1.
  pose proof (compact_run_head _ _ _ _ Hs Hrun) as Hhd.
  destruct l as [|a l]; [done|]. destruct Hhd as [rest [[= <- <-]|[= -> _]]]; [|done].
  cbn [compact_run] in Hrun.
  destruct (scan_step s (byte_val c1)) as [[keep s1]|] eqn:Hst; [|done].
  apply scan_step_in_string in Hst as [-> ->]; [|done|lia].
  rewrite compact_byte_plain in Hrun; [|by unfold html_byte; rewrite Hc1|by rewrite Hc1].
  destruct (compact_run s 0 l) as [[rest s2]|] eqn:Hrest; [|done].
  cbn in Hrun. injection Hrun as -> ->.
  pose proof (compact_run_head _ _ _ _ Hs Hrest) as Hhd2.
  destruct l as [|b l]; [done|]. destruct Hhd2 as [rest [[= <- <-]|[= -> _]]]; [|done].
  by eapply Hl.
Qed.

Lemma compact_run_plain s c t r s' s3 :
  html_byte (byte_val c) = false -> (byte_val c = 0xE2 -> no_separator t) ->
  scan_step s (byte_val c) = Some (true, s') ->
  compact_run s' 0 t = Some (r, s3) -> compact_run s 0 (c :: t) = Some (c :: r, s3).
Proof.
  intros Hh Hl Hst Hr. cbn [compact_run]. rewrite Hst, compact_byte_plain; [by rewrite Hr|done|].
  intros He c1 c2 t' -> Hc1. by eapply Hl.
Qed.

(** The escapes this file writes are read back byte for byte inside a string. *)
Lemma compact_run_escape s o c rest s3 :
  sc_state s = InString ->
  (html_byte c = true /\ o = escape_u00 c) \/ ((c = 0xA8 \/ c = 0xA9) /\ o = escape_202 c) ->
  compact_run s 0 rest = Some (rest, s3) ->
  compact_run s 0 (o ++ rest) = Some (o ++ rest, s3).
Proof.
  destruct s as [st k]; cbn [sc_state]. intros ->.
  unfold html_byte. rewrite !orb_true_iff, !N.eqb_eq.
  intros H Hr.
  destruct H as [[[[->| ->]| ->] ->]|[[->| ->] ->]];
    cbn [app escape_u00 escape_202];
    do 6 (eapply compact_run_plain; [reflexivity|discriminate|cbv; reflexivity|]); exact Hr.
Qed.

(** The bytes after an [E2] that make it a separator. *)
Definition separator_tail (t : list ascii) : bool :=
  match t with
  | c1 :: c2 :: _ => (byte_val c1 =? 0x80) && ((byte_val c2 =? 0xA8) || (byte_val c2 =? 0xA9))
  | _ => false
  end.

Lemma compact_run_idem n l s0 s out s'' :
  (length l <= n)%nat -> s0 = s \/ skips_to s0 s -> compact_run s 0 l = Some (out, s'') ->
  exists s3, compact_run s0 0 out = Some (out, s3) /\ (s3 = s'' \/ skips_to s3 s'').
Proof.
  revert l s0 s out s''. induction n as [|n IH]; intros [|c t] s0 s out s'' Hn Hs Hrun.
  1, 3: injection Hrun as <- <-; exists s0; cbn; split; [done|tauto].
  { cbn in Hn. lia. }
  cbn [length] in Hn. cbn [compact_run] in Hrun.
  destruct (scan_step s (byte_val c)) as [[keep s1]|] eqn:Hst; [|done].
  destruct keep; cycle 1.
  { (* dropped white space *)
    apply scan_step_skip in Hst as [_ Hsk].
    destruct (compact_run s1 0 t) as [[rest s2]|] eqn:Hrest; [|done]. injection Hrun as <- <-.
    apply (IH t s0 s1); [lia| |done].
    destruct Hs as [->|Hs]; [by right|]. right.
    pose proof (skips_to_idem _ _ Hs) as Hid. unfold skips_to in *. congruence. }
  assert (scan_step s0 (byte_val c) = Some (true, s1)) as Hst0.
  { destruct Hs as [->|Hs]; [done|]. by eapply scan_step_skips_back. }
  destruct (html_byte (byte_val c)) eqn:Hh.
  { destruct (scan_step_string_only _ _ _ _ (or_introl Hh) Hst0) as (Hstr & _ & ->).
    unfold compact_byte in Hrun. rewrite Hh in Hrun.
    destruct (compact_run s0 0 t) as [[rest s2]|] eqn:Hrest; [|done]. injection Hrun as <- <-.
    destruct (IH t s0 s0 rest s2) as (s3 & H3 & Hq); [lia|by left|done|].
    exists s3. split; [|done].
    apply (compact_run_escape s0 (escape_u00 (byte_val c)) (byte_val c) rest s3); auto. }
  destruct ((byte_val c =? 0xE2) && separator_tail t) eqn:Hsep.
  { (* U+2028 or U+2029 *)
    apply andb_true_iff in Hsep as [He Hsep]. apply N.eqb_eq in He.
    destruct t as [|c1 [|c2 t]]; try discriminate Hsep. cbn [separator_tail] in Hsep.
    unfold compact_byte in Hrun. rewrite Hh, He, <- andb_assoc, Hsep in Hrun. cbn [N.eqb andb Pos.eqb] in Hrun.
    destruct (scan_step_string_only _ _ _ _ (or_intror He) Hst0) as (Hstr & _ & ->).
    apply andb_true_iff in Hsep as [E1 E2]. apply N.eqb_eq in E1.
    rewrite orb_true_iff, !N.eqb_eq in E2.
    cbn [compact_run] in Hrun.
    destruct (scan_step s0 (byte_val c1)) as [[k1 t1]|] eqn:S1; [|done].
    apply scan_step_in_string in S1 as [_ ->]; [|done|lia].
    destruct (scan_step s0 (byte_val c2)) as [[k2 t2]|] eqn:S2; [|done].
    apply scan_step_in_string in S2 as [_ ->]; [|done|lia].
    destruct (compact_run s0 0 t) as [[rest s2]|] eqn:Hrest; [|done].
    cbn [app] in Hrun. injection Hrun as <- <-. cbn [length] in Hn.
    destruct (IH t s0 s0 rest s2) as (s3 & H3 & Hq); [lia|by left|done|].
    exists s3. split; [|done].
    apply (compact_run_escape s0 (escape_202 (byte_val c2)) (byte_val c2) rest s3); auto. }
  assert (byte_val c = 0xE2 -> no_separator t) as Hno.
  { intros He c1 c2 t' -> Hc1. rewrite He in Hsep. cbn [separator_tail] in Hsep.
    rewrite Hc1 in Hsep. cbn in Hsep. rewrite orb_false_iff, !N.eqb_neq in Hsep. tauto. }
  rewrite compact_byte_plain in Hrun; [|done|].
  2: { intros He c1 c2 t' -> Hc1. by eapply (Hno He). }
  destruct (compact_run s1 0 t) as [[rest s2]|] eqn:Hrest; [|done].
  cbn [app] in Hrun. injection Hrun as <- <-.
  destruct (IH t s1 s1 rest s2) as (s3 & H3 & Hq); [lia|by left|done|].
  exists s3. split; [|done]. apply (compact_run_plain _ _ _ _ s1); try done.
  intros He. destruct (scan_step_string_only _ _ _ _ (or_intror He) Hst0) as (Hstr & _ & ->).
  exact (compact_run_lookahead _ _ _ _ Hstr Hrest (Hno He)).
Qed.

Lemma scan_eof_skips s s' : s = s' \/ skips_to s s' -> scan_eof s' = true -> scan_eof s = true.
Proof.
  intros [->|Hs]; [done|]. unfold skips_to in Hs. unfold scan_eof at 2. rewrite Hs.
  destruct s as [st k]. destruct st, k as [|top k]; cbv in Hs; try discriminate Hs;
    injection Hs as <-; cbv; congruence.
Qed.

Lemma json_compact_idem (raw c : string) : json_compact raw = Some c -> json_compact c = Some c.
Proof.
  unfold json_compact. intros H.
  destruct (compact_run scanner_init 0 (bytes_of raw)) as [[out s]|] eqn:Hr; [|done].
  destruct (scan_eof s) eqn:He; [|done]. injection H as <-.
  edestruct (compact_run_idem (length (bytes_of raw)) (bytes_of raw)) as (s3 & H3 & Hq);
    [done|by left|exact Hr|].
  rewrite bytes_of_text_of, H3. by rewrite (scan_eof_skips s3 s).
Qed.

(** Compaction succeeds exactly on valid documents. *)
Lemma compact_run_scan s p l : snd <$> compact_run s p l = scan_run s l.
Proof.
  revert s p. induction l as [|c t IH]; intros s p; [done|]. cbn [compact_run scan_run].
  destruct (scan_step s (byte_val c)) as [[keep s']|]; [|done].
  match goal with |- context [let '(_, _) := ?e in _] => destruct e as [o n] end.
  rewrite <- (IH s' n). by destruct (compact_run s' n t) as [[? ?]|].
Qed.

Lemma json_compact_valid raw : is_Some (json_compact raw) <-> json_valid raw = true.
Proof.
  unfold json_compact, json_valid. rewrite <- (compact_run_scan scanner_init 0).
  destruct (compact_run scanner_init 0 (bytes_of raw)) as [[out s]|]; simpl.
  - destruct (scan_eof s); [by split; eauto|]. split; [intros [x Hx]; discriminate Hx|done].
  - split; [intros [x Hx]; discriminate Hx|done].
Qed.

(** ** The encoder writes compact text

    A string literal the encoder wrote passes through the compaction unchanged. *)

(** The scanner's path over bytes that are all kept and never rewritten. *)
Fixpoint plain_path (s : scanner) (l : list ascii) : option scanner :=
  match l with
  | [] => Some s
  | c :: t =>
    if html_byte (byte_val c) || (byte_val c =? 0xE2) then None
    else match scan_step s (byte_val c) with
         | Some (true, s') => plain_path s' t
         | _ => None
         end
  end.

Lemma compact_run_path s l s' rest out s3 :
  plain_path s l = Some s' -> compact_run s' 0 rest = Some (out, s3) ->
  compact_run s 0 (l ++ rest) = Some (l ++ out, s3).
Proof.
  revert s. induction l as [|c t IH]; intros s; cbn [plain_path app]; [by intros [= ->]|].
  destruct (html_byte (byte_val c) || (byte_val c =? 0xE2)) eqn:Hc; [done|].
  apply orb_false_iff in Hc as [Hh He]. apply N.eqb_neq in He.
  destruct (scan_step s (byte_val c)) as [[[] s1]|] eqn:Hst; try done. intros Hp Hr.
  cbn [compact_run]. rewrite Hst, compact_byte_plain; [|done|by intros].
  by rewrite (IH s1 Hp Hr).
Qed.

Definition in_string (k : list parse_ctx) : scanner := {| sc_state := InString; sc_stack := k |}.

Lemma in_string_high k c : 0x80 <= byte_val c -> scan_step (in_string k) (byte_val c) = Some (true, in_string k).
Proof.
  intros Hc. unfold scan_step, in_string, go_to. cbn [sc_state sc_stack].
  rewrite !(proj2 (N.eqb_neq _ _)), (proj2 (N.ltb_ge _ _)) by lia. done.
Qed.

Lemma high_not_html c : 0x80 <= c -> html_byte c = false.
Proof. intros H. unfold html_byte. rewrite !(proj2 (N.eqb_neq _ _)) by lia. done. Qed.

(** Bytes above ASCII that do not start a separator are kept. *)
Lemma compact_run_high k c t out s3 :
  0x80 <= byte_val c -> (byte_val c = 0xE2 -> no_separator t) ->
  compact_run (in_string k) 0 t = Some (out, s3) ->
  compact_run (in_string k) 0 (c :: t) = Some (c :: out, s3).
Proof.
  intros Hc Hs Hr. eapply compact_run_plain; [by apply high_not_html|done|by apply in_string_high|done].
Qed.

(** What decoding a rune tells about its bytes. *)
Lemma in_range_spec lo hi n : in_range lo hi n = true <-> lo <= n <= hi.
Proof. unfold in_range. rewrite andb_true_iff, !N.leb_le. done. Qed.

Lemma decode_rune_bytes l r w :
  decode_rune (byte_val <$> l) = (r, w) -> l <> [] ->
  (exists c t, l = c :: t /\ w = 1%nat)
  \/ (exists c1 c2 t, l = c1 :: c2 :: t /\ w = 2%nat /\ 0xC2 <= byte_val c1 <= 0xDF /\ 0x80 <= byte_val c2 <= 0xBF)
  \/ (exists c1 c2 c3 t, l = c1 :: c2 :: c3 :: t /\ w = 3%nat /\ 0xE0 <= byte_val c1 <= 0xEF
        /\ 0x80 <= byte_val c2 <= 0xBF /\ 0x80 <= byte_val c3 <= 0xBF
        /\ r = N.land (byte_val c1) 0x0F * 4096 + N.land (byte_val c2) 0x3F * 64 + N.land (byte_val c3) 0x3F)
  \/ (exists c1 c2 c3 c4 t, l = c1 :: c2 :: c3 :: c4 :: t /\ w = 4%nat /\ 0xF0 <= byte_val c1 <= 0xF4
        /\ 0x80 <= byte_val c2 <= 0xBF /\ 0x80 <= byte_val c3 <= 0xBF /\ 0x80 <= byte_val c4 <= 0xBF).
Proof.
  intros H Hl. destruct l as [|c1 l]; [done|]. cbn [fmap list_fmap decode_rune] in H.
  destruct (byte_val c1 <? 0x80); [left; simplify_eq; eauto|].
  destruct (in_range 0xC2 0xDF (byte_val c1)) eqn:R2.
  { destruct l as [|c2 l]; cbn in H; [left; simplify_eq; eauto|]. fold (byte_val c2) in H.
    destruct (is_cont (byte_val c2)) eqn:C2; [|left; simplify_eq; eauto].
    right; left. apply in_range_spec in R2, C2. simplify_eq. eauto 10. }
  destruct (in_range 0xE0 0xEF (byte_val c1)) eqn:R3.
  { destruct l as [|c2 [|c3 l]]; cbn [fmap list_fmap] in H; [left; simplify_eq; eauto..|].
    match type of H with (if ?b then _ else _) = _ => destruct b eqn:C3 end; [|left; simplify_eq; eauto].
    right; right; left. apply andb_true_iff in C3 as [C2 C3]. apply in_range_spec in R3, C2, C3.
    simplify_eq. do 4 eexists. split_and!; try reflexivity; try lia.
    - destruct (byte_val c1 =? 0xE0); lia.
    - destruct (byte_val c1 =? 0xED); lia. }
  destruct (in_range 0xF0 0xF4 (byte_val c1)) eqn:R4; [|left; simplify_eq; eauto].
  destruct l as [|c2 [|c3 [|c4 l]]]; cbn [fmap list_fmap] in H; [left; simplify_eq; eauto..|].
  match type of H with (if ?b then _ else _) = _ => destruct b eqn:C4 end; [|left; simplify_eq; eauto].
  right; right; right. rewrite !andb_true_iff in C4. destruct C4 as [[C2 C3] C4].
  apply in_range_spec in R4, C2, C3, C4. simplify_eq. do 5 eexists. split_and!; try reflexivity; try lia.
  - destruct (byte_val c1 =? 0xF0); lia.
  - destruct (byte_val c1 =? 0xF4); lia.
Qed.

Lemma byte_val_eq c n : byte_val c = n -> c = byte_of n.
Proof. intros <-. symmetry. apply ascii_N_embedding. Qed.

(** One encoded single byte, by trying all of them. *)
Lemma single_byte_path k r c : plain_path (in_string k) (enc_rune (r, [c])) = Some (in_string k).
Proof. destruct c as [[] [] [] [] [] [] [] []]; reflexivity. Qed.

Lemma separator_path k r : r = 0x2028 \/ r = 0x2029 ->
  plain_path (in_string k) (escape_202 r) = Some (in_string k).
Proof. intros [->| ->]; reflexivity. Qed.

Lemma compact_run_rune k l r w rest out s3 :
  decode_rune (byte_val <$> l) = (r, w) -> l <> [] ->
  compact_run (in_string k) 0 rest = Some (out, s3) ->
  compact_run (in_string k) 0 (enc_rune (r, take w l) ++ rest) = Some (enc_rune (r, take w l) ++ out, s3).
Proof.
  intros Hd Hl Hr.
  destruct (decode_rune_bytes _ _ _ Hd Hl) as [(c & t & -> & ->)|[(c1 & c2 & t & -> & -> & H1 & H2)
    |[(c1 & c2 & c3 & t & -> & -> & H1 & H2 & H3 & Hv)|(c1 & c2 & c3 & c4 & t & -> & -> & H1 & H2 & H3 & H4)]]];
    cbn [take].
  { rewrite firstn_O. by eapply compact_run_path; [apply single_byte_path|]. }
  all: rewrite firstn_O; cbn [enc_rune]; destruct ((r =? 0x2028) || (r =? 0x2029)) eqn:Hsep;
    [eapply compact_run_path; [|done]; apply separator_path;
     rewrite orb_true_iff, !N.eqb_eq in Hsep; tauto|cbn [app]].
  - do 2 (apply compact_run_high; [lia|by intros; exfalso; lia|]). done.
  - apply compact_run_high; [lia| |do 2 (apply compact_run_high; [lia|by intros; exfalso; lia|]); done].
    intros He d1 d2 t' [= <- <- _] Hd1. rewrite He, Hd1 in Hv.
    rewrite orb_false_iff, !N.eqb_neq in Hsep.
    split; intros Hx; rewrite Hx in Hv; vm_compute in Hv; naive_solver.
  - do 4 (apply compact_run_high; [lia|by intros; exfalso; lia|]). done.
Qed.

Lemma compact_run_runes k fuel l rest out s3 :
  (length l <= fuel)%nat ->
  compact_run (in_string k) 0 rest = Some (out, s3) ->
  compact_run (in_string k) 0 (concat (enc_rune <$> runes_fuel fuel l) ++ rest)
  = Some (concat (enc_rune <$> runes_fuel fuel l) ++ out, s3).
Proof.
  intros Hf Hr. revert l Hf. induction fuel as [|f IH]; intros [|c t] Hf; try done.
  cbn [runes_fuel]. destruct (decode_rune (byte_val <$> c :: t)) as [r w] eqn:Hd.
  assert (Nat.max 1 w = w) as Hw.
  { destruct (decode_rune_bytes _ _ _ Hd) as [Hx|[Hx|[Hx|Hx]]]; [done|..]; clear -Hx; naive_solver lia. }
  rewrite Hw.
  change (concat (enc_rune <$> ?a :: ?b)) with (enc_rune a ++ concat (enc_rune <$> b)).
  rewrite <- !app_assoc. apply compact_run_rune; [done|done|].
  apply IH. rewrite length_drop. cbn [length] in *. lia.
Qed.

Lemma bytes_of_app a b : bytes_of (a +:+ b) = bytes_of a ++ bytes_of b.
Proof. unfold bytes_of. induction a as [|c a IH]; [done|]. simpl. by rewrite IH. Qed.

(** Where a value may start, a literal is kept whole. *)
Lemma compact_run_enc_string k s rest out s3 :
  compact_run {| sc_state := EndValue; sc_stack := k |} 0 rest = Some (out, s3) ->
  compact_run {| sc_state := BeginValue; sc_stack := k |} 0 (bytes_of (enc_string s) ++ rest)
  = Some (bytes_of (enc_string s) ++ out, s3).
Proof.
  intros Hr. unfold enc_string. rewrite !bytes_of_text_of.
  change (byte_of 34 :: ?x ++ [byte_of 34]) with ([byte_of 34] ++ (x ++ [byte_of 34])).
  rewrite <- !app_assoc. eapply (compact_run_path _ [byte_of 34] (in_string k)); [reflexivity|].
  apply compact_run_runes; [done|].
  by eapply (compact_run_path _ [byte_of 34] {| sc_state := EndValue; sc_stack := k |}).
Qed.
