(* ===== verification/Sha256.v ===== *)
(** * crypto/sha256 and encoding/hex

    SHA-256 on byte strings, with every 32-bit operation reduced modulo 2^32,
    and the lower-case hexadecimal text of the digest: the kernel fingerprints
    stored JSON with [sha256Hex]. *)

From S2P Require Export GoText.

Local Open Scope N_scope.

Definition w32 (n : N) : N := n mod 2 ^ 32.
Definition rotr (n x : N) : N := w32 (N.lor (N.shiftr x n) (N.shiftl x (32 - n))).
Definition not32 (x : N) : N := N.lxor x (2 ^ 32 - 1).

(** The constants of FIPS 180-4, from their definition: the first 32 bits of the
    fractional parts of the cube and square roots of the first primes. *)
Definition first_primes (n : nat) : list N :=
  take n (List.filter (fun p => forallb (fun d => negb (p mod d =? 0)) (N.of_nat <$> seq 2 (N.to_nat p - 2)))
            (N.of_nat <$> seq 2 310)).
(** The integer cube root, bit by bit from [2^bits]. *)
Fixpoint cube_root (bits : nat) (acc x : N) : N :=
  match bits with
  | O => acc
  | S bits => let next := acc + 2 ^ N.of_nat bits in
              cube_root bits (if next ^ 3 <=? x then next else acc) x
  end.
Definition sha_k : list N :=
  Eval vm_compute in (fun p => w32 (cube_root 36 0 (p * 2 ^ 96))) <$> first_primes 64.

Record sha_state := { ha : N; hb : N; hc : N; hd : N; he : N; hf : N; hg : N; hh : N }.

Definition sha_init : sha_state :=
  Eval vm_compute in
    let h i := w32 (N.sqrt (List.nth i (first_primes 8) 0 * 2 ^ 64)) in
    {| ha := h 0%nat; hb := h 1%nat; hc := h 2%nat; hd := h 3%nat;
       he := h 4%nat; hf := h 5%nat; hg := h 6%nat; hh := h 7%nat |}.

Definition sha_round (s : sha_state) (kw : N * N) : sha_state :=
  let '(k, w) := kw in
  let s1 := N.lxor (N.lxor (rotr 6 (he s)) (rotr 11 (he s))) (rotr 25 (he s)) in
  let ch := N.lxor (N.land (he s) (hf s)) (N.land (not32 (he s)) (hg s)) in
  let t1 := w32 (hh s + s1 + ch + k + w) in
  let s0 := N.lxor (N.lxor (rotr 2 (ha s)) (rotr 13 (ha s))) (rotr 22 (ha s)) in
  let maj := N.lxor (N.lxor (N.land (ha s) (hb s)) (N.land (ha s) (hc s))) (N.land (hb s) (hc s)) in
  let t2 := w32 (s0 + maj) in
  {| ha := w32 (t1 + t2); hb := ha s; hc := hb s; hd := hc s;
     he := w32 (hd s + t1); hf := he s; hg := hf s; hh := hg s |}.

(** The message schedule, newest word first: [ws] holds the words so far. *)
Fixpoint sha_extend (n : nat) (ws : list N) : list N :=
  match n with
  | O => ws
  | S n =>
    let nth i := List.nth i ws 0 in
    let w15 := nth 14%nat in
    let w2 := nth 1%nat in
    let s0 := N.lxor (N.lxor (rotr 7 w15) (rotr 18 w15)) (N.shiftr w15 3) in
    let s1 := N.lxor (N.lxor (rotr 17 w2) (rotr 19 w2)) (N.shiftr w2 10) in
    sha_extend n (w32 (nth 15%nat + s0 + nth 6%nat + s1) :: ws)
  end.

Definition sha_add (s t : sha_state) : sha_state :=
  {| ha := w32 (ha s + ha t); hb := w32 (hb s + hb t); hc := w32 (hc s + hc t);
     hd := w32 (hd s + hd t); he := w32 (he s + he t); hf := w32 (hf s + hf t);
     hg := w32 (hg s + hg t); hh := w32 (hh s + hh t) |}.

Definition sha_block (s : sha_state) (block : list N) : sha_state :=
  let ws := rev (sha_extend 48 (rev block)) in
  sha_add s (foldl sha_round s (zip sha_k ws)).

Fixpoint be_bytes (n : nat) (x : N) : list N :=
  match n with
  | O => []
  | S n => N.shiftr x (8 * N.of_nat n) mod 256 :: be_bytes n x
  end.

Definition sha_pad (msg : list N) : list N :=
  let len := length msg in
  let zeros := ((119 - len mod 64) mod 64)%nat in
  msg ++ [0x80] ++ replicate zeros 0 ++ be_bytes 8 (8 * N.of_nat len).

(** Big-endian words of a byte list; a list of bytes has fewer words than
    bytes, so its length is enough fuel. *)
Fixpoint be_words (l : list N) : list N :=
  match l with
  | a :: b :: c :: d :: t => (a * 16777216 + b * 65536 + c * 256 + d) :: be_words t
  | _ => []
  end.

Fixpoint sha_blocks (fuel : nat) (s : sha_state) (ws : list N) : sha_state :=
  match fuel, ws with
  | S f, _ :: _ => sha_blocks f (sha_block s (take 16 ws)) (drop 16 ws)
  | _, _ => s
  end.

(** [sha256.Sum256] *)
Definition Sum256 (data : string) : list N :=
  let ws := be_words (sha_pad (byte_val <$> bytes_of data)) in
  let s := sha_blocks (length ws) sha_init ws in
  concat (be_bytes 4 <$> [ha s; hb s; hc s; hd s; he s; hf s; hg s; hh s]).

Definition nibble (n : N) : ascii := byte_of (if n <? 10 then 48 + n else 87 + n).
(** [hex.EncodeToString] *)
Definition hex_text (l : list N) : string :=
  text_of (concat ((fun b => [nibble (b / 16); nibble (b mod 16)]) <$> l)).

(** [hex.DecodeString] succeeds: an even number of hexadecimal digits. *)
Definition hex_ok (s : string) : bool :=
  let l := bytes_of s in
  Nat.even (length l)
  && forallb (fun c => let v := byte_val c in
       in_range 48 57 v || in_range 97 102 v || in_range 65 70 v) l.

Definition sha256Hex (data : string) : string := hex_text (Sum256 data).

(** The published test vectors for [abc] and the empty message. *)
Example sha256_abc :
  sha256Hex "abc" = "ba7816bf8f01cfea414140de5dae2223b00361a396177a9cb410ff61f20015ad"%string.
Proof. vm_compute. reflexivity. Qed.
Example sha256_empty :
  sha256Hex "" = "e3b0c44298fc1c149afbf4c8996fb92427ae41e4649b934ca495991b7852b855"%string.
Proof. vm_compute. reflexivity. Qed.

Lemma length_be_bytes n x : length (be_bytes n x) = n.
Proof. induction n; simpl; auto. Qed.

Lemma length_Sum256 data : length (Sum256 data) = 32%nat.
Proof. unfold Sum256. simpl. done. Qed.

Lemma length_sha256Hex data : length (bytes_of (sha256Hex data)) = 64%nat.
Proof.
  unfold sha256Hex, hex_text. rewrite bytes_of_text_of.
  pose proof (length_Sum256 data) as H. revert H. generalize (Sum256 data) as l. intros l.
  change 64%nat with (2 * 32)%nat. intros <-.
  induction l as [|x l IH]; [done|].
  change (concat _) with ([nibble (x / 16); nibble (x mod 16)]
    ++ concat ((fun b => [nibble (b / 16); nibble (b mod 16)]) <$> l)).
  rewrite length_app, IH. simpl. lia.
Qed.
