(* ===== verification/Errors.v ===== *)
(** * Task errors and agent sessions: [runtime/internal/task/errors.go], [session/identity.go]

    The closed code set, the error chain, its classification ([Is], [As],
    [Technical]) and the sanitisation that keeps payloads out of wrapped causes.
    An agent session is identified by its game, world and entity. *)

From S2P Require Export GoText.

Inductive Code :=
| CodeInvalidTaskSpec | CodeTaskNotFound | CodeTaskConflict | CodeTaskChanged
| CodeIdempotencyConflict | CodeEvidenceConflict | CodeSourceInvalid | CodeWorldMismatch
| CodeGenerationStale | CodeClockMismatch | CodeClockRewound | CodeWorldNotReady
| CodeSaveInProgress | CodeTaskTerminal | CodeTaskCapacityExceeded
| CodeCheckpointUnconfirmed | CodeCheckpointMissing | CodeCheckpointInvalid | CodeStoreInUse
| CodeOther (text : string).

#[export] Instance Code_eq_dec : EqDecision Code.
Proof. solve_decision. Defined.

Definition Code_string (c : Code) : string :=
  match c with
  | CodeInvalidTaskSpec => "invalid_task_spec"
  | CodeTaskNotFound => "task_not_found"
  | CodeTaskConflict => "task_conflict"
  | CodeTaskChanged => "task_changed"
  | CodeIdempotencyConflict => "idempotency_conflict"
  | CodeEvidenceConflict => "evidence_conflict"
  | CodeSourceInvalid => "source_invalid"
  | CodeWorldMismatch => "world_mismatch"
  | CodeGenerationStale => "generation_stale"
  | CodeClockMismatch => "clock_mismatch"
  | CodeClockRewound => "clock_rewound"
  | CodeWorldNotReady => "world_not_ready"
  | CodeSaveInProgress => "save_in_progress"
  | CodeTaskTerminal => "task_terminal"
  | CodeTaskCapacityExceeded => "task_capacity_exceeded"
  | CodeCheckpointUnconfirmed => "checkpoint_unconfirmed"
  | CodeCheckpointMissing => "checkpoint_missing"
  | CodeCheckpointInvalid => "checkpoint_invalid"
  | CodeStoreInUse => "store_in_use"
  | CodeOther text => text
  end.

Definition Code_Valid (c : Code) : bool :=
  match c with CodeOther _ => false | _ => true end.

(** Error values: the package's [Error] pointer, the two context errors, the driver's
    [sql.ErrNoRows], the identity graph's sentinel, and any other error, whose
    text is payload and which may wrap a further error. *)
Inductive error :=
| TaskErr (code : Code) (cause : option error) (technical : bool)
| Canceled
| DeadlineExceeded
| NoRows
| errAmbiguousWorldTaskIdentityGraph
| Opaque (text : string) (inner : option error).

Notation sentinel c := (TaskErr c None false) (only parsing).
Definition ErrInvalidTaskSpec := sentinel CodeInvalidTaskSpec.
Definition ErrTaskNotFound := sentinel CodeTaskNotFound.
Definition ErrTaskConflict := sentinel CodeTaskConflict.
Definition ErrTaskChanged := sentinel CodeTaskChanged.
Definition ErrIdempotencyConflict := sentinel CodeIdempotencyConflict.
Definition ErrEvidenceConflict := sentinel CodeEvidenceConflict.
Definition ErrSourceInvalid := sentinel CodeSourceInvalid.
Definition ErrWorldMismatch := sentinel CodeWorldMismatch.
Definition ErrGenerationStale := sentinel CodeGenerationStale.
Definition ErrClockMismatch := sentinel CodeClockMismatch.
Definition ErrClockRewound := sentinel CodeClockRewound.
Definition ErrWorldNotReady := sentinel CodeWorldNotReady.
Definition ErrSaveInProgress := sentinel CodeSaveInProgress.
Definition ErrTaskTerminal := sentinel CodeTaskTerminal.
Definition ErrTaskCapacityExceeded := sentinel CodeTaskCapacityExceeded.
Definition ErrCheckpointUnconfirmed := sentinel CodeCheckpointUnconfirmed.
Definition ErrCheckpointMissing := sentinel CodeCheckpointMissing.
Definition ErrCheckpointInvalid := sentinel CodeCheckpointInvalid.
Definition ErrStoreInUse := sentinel CodeStoreInUse.

(** [Error.Unwrap] and the [Unwrap] of a wrapping error. *)
Definition Unwrap (e : error) : option error :=
  match e with
  | TaskErr _ cause _ => cause
  | Opaque _ inner => inner
  | _ => None
  end.

(** [errors.As]: the first task error of the chain. *)
Fixpoint As_task (e : error) : option (Code * option error * bool) :=
  match e with
  | TaskErr c cause t => Some (c, cause, t)
  | Opaque _ (Some i) => As_task i
  | _ => None
  end.

(** [errors.Is(err, ErrX)] for a sentinel of code [c]: [Error.Is] along the
    chain. *)
Fixpoint Is_code (e : error) (c : Code) : bool :=
  match e with
  | TaskErr c' cause _ =>
    (Code_Valid c' && bool_decide (c' = c))
    || match cause with Some i => Is_code i c | None => false end
  | Opaque _ (Some i) => Is_code i c
  | _ => false
  end.

(** [errors.Is] against [context.Canceled], [context.DeadlineExceeded] and
    [errAmbiguousWorldTaskIdentityGraph]. *)
Fixpoint Is_leaf (p : error -> bool) (e : error) : bool :=
  p e || match e with
         | TaskErr _ (Some i) _ => Is_leaf p i
         | Opaque _ (Some i) => Is_leaf p i
         | _ => false
         end.
Definition Is_canceled := Is_leaf (fun e => match e with Canceled => true | _ => false end).
Definition Is_deadline := Is_leaf (fun e => match e with DeadlineExceeded => true | _ => false end).
Definition Is_ambiguous :=
  Is_leaf (fun e => match e with errAmbiguousWorldTaskIdentityGraph => true | _ => false end).
Definition Is_norows := Is_leaf (fun e => match e with NoRows => true | _ => false end).

Definition context_cause (e : error) : option error :=
  if Is_canceled e then Some Canceled
  else if Is_deadline e then Some DeadlineExceeded else None.

(** [sanitizedCause]: [errors.As] stops at the first task error of the chain, so
    the recursion on a wrapping error is the recursion on what it wraps. *)
Fixpoint sanitizedCause (e : error) : option error :=
  match e with
  | TaskErr c cause t =>
    if Code_Valid c
    then Some (TaskErr c (match cause with Some i => sanitizedCause i | None => None end) t)
    else context_cause e
  | Opaque _ (Some i) => sanitizedCause i
  | _ => context_cause e
  end.

Definition WrapError (code : Code) (cause : option error) : error :=
  let technical := match cause with
                   | None => false
                   | Some e => match As_task e with Some (_, _, t) => t | None => true end
                   end in
  TaskErr code (cause ≫= sanitizedCause) technical.

(** [Error.Error]: the text an API caller sees. *)
Definition Error_text (e : error) : string :=
  match e with
  | TaskErr c _ _ => if Code_Valid c then Code_string c else "task_error"
  | Canceled => "context canceled"
  | DeadlineExceeded => "context deadline exceeded"
  | NoRows => "sql: no rows in result set"
  | errAmbiguousWorldTaskIdentityGraph => "ambiguous world task identity graph"
  | Opaque text _ => text
  end.

(** [classifyStoreError] of sqlite_store.go (on a non-nil error). *)
Definition classifyStoreError (e : error) : error :=
  match As_task e with
  | Some (c, _, _) => if Code_Valid c then WrapError c (Some e) else WrapError CodeTaskConflict (Some e)
  | None => WrapError CodeTaskConflict (Some e)
  end.

(** [TechnicalFailure] and [BindingRecoveryError] of dispatcher.go. *)
Definition TechnicalFailure (e : error) : bool :=
  match As_task e with Some (_, _, t) => t | None => true end.
Definition BindingRecoveryError (e : error) : bool :=
  Is_code e CodeGenerationStale || Is_code e CodeWorldNotReady || Is_code e CodeSaveInProgress.

(** An error chain without payload: task codes of the closed set and the two
    context errors only. *)
Fixpoint payload_free (e : error) : bool :=
  match e with
  | TaskErr c cause _ => Code_Valid c && match cause with Some i => payload_free i | None => true end
  | Canceled | DeadlineExceeded => true
  | _ => false
  end.

(** ** Lemmas *)

(** Induction on error chains through the optional cause. *)
Lemma error_chain_ind (P : error -> Prop) :
  (forall c cause t, (forall i, cause = Some i -> P i) -> P (TaskErr c cause t)) ->
  P Canceled -> P DeadlineExceeded -> P NoRows -> P errAmbiguousWorldTaskIdentityGraph ->
  (forall s inner, (forall i, inner = Some i -> P i) -> P (Opaque s inner)) ->
  forall e, P e.
Proof.
  intros HT HC HD HN HA HO. fix IH 1. intros [c cause t| | | | |s inner].
  - apply HT. destruct cause as [i|]; intros j Hj; [|discriminate Hj].
    injection Hj as <-. apply IH.
  - exact HC.
  - exact HD.
  - exact HN.
  - exact HA.
  - apply HO. destruct inner as [i|]; intros j Hj; [|discriminate Hj].
    injection Hj as <-. apply IH.
Qed.

Lemma Code_string_inj c1 c2 :
  Code_Valid c1 = true -> Code_Valid c2 = true -> Code_string c1 = Code_string c2 -> c1 = c2.
Proof. destruct c1, c2; simpl; congruence. Qed.

Lemma context_cause_payload_free e x : context_cause e = Some x -> payload_free x = true.
Proof. unfold context_cause. repeat case_match; intros [= <-]; done. Qed.

Lemma sanitizedCause_payload_free e x : sanitizedCause e = Some x -> payload_free x = true.
Proof.
  revert x. induction e as [c cause t IH| | | | |s inner IH] using error_chain_ind; intros x; simpl.
  - destruct (Code_Valid c) eqn:Hc; [|apply context_cause_payload_free].
    intros [= <-]. simpl. rewrite Hc. simpl.
    destruct cause as [i|]; [|done].
    destruct (sanitizedCause i) eqn:Hi; [|done]. by eapply IH.
  - by intros [= <-].
  - by intros [= <-].
  - done.
  - done.
  - destruct inner as [i|]; [|apply context_cause_payload_free]. by apply IH.
Qed.

Lemma classify_shape e : exists c cause t, classifyStoreError e = TaskErr c cause t
  /\ Code_Valid c = true
  /\ c = match As_task e with Some (c, _, _) => if Code_Valid c then c else CodeTaskConflict
         | None => CodeTaskConflict end.
Proof.
  unfold classifyStoreError, WrapError.
  destruct (As_task e) as [[[c cause] t]|]; [destruct (Code_Valid c) eqn:Hc|]; eauto 10.
Qed.

(** The code every API caller classifies by. *)
Lemma classify_Is_code e c cause t :
  As_task e = Some (c, cause, t) -> Code_Valid c = true ->
  Is_code (classifyStoreError e) c = true.
Proof.
  intros H Hc. unfold classifyStoreError. rewrite H, Hc. simpl.
  rewrite Hc, bool_decide_true; done.
Qed.

(** ** Properties *)

(** C18: Wrapping never leaks a payload: whatever the driver or a caller put in the
    chain, the wrapped error holds only codes of the closed set and the context
    errors, and the technical bit is the classified error's own. *)
Theorem WrapError_sanitizes (code : Code) (cause : option error) :
  Code_Valid code = true ->
  payload_free (WrapError code cause) = true
  /\ Is_code (WrapError code cause) code = true
  /\ (forall e, cause = Some e -> TechnicalFailure (WrapError code cause) = TechnicalFailure e).
Proof.
  intros Hc. split_and!.
  - simpl. rewrite Hc. simpl. destruct cause as [e|]; [|done]. simpl.
    destruct (sanitizedCause e) eqn:Hs; [|done]. by eapply sanitizedCause_payload_free.
  - simpl. rewrite Hc, bool_decide_true; done.
  - intros e ->. unfold TechnicalFailure. simpl. by destruct (As_task e) as [[[? ?] ?]|].
Qed.

Lemma WrapError_sanitizes_witness :
  payload_free (WrapError CodeTaskConflict (Some (Opaque "secret row" (Some Canceled)))) = true.
Proof.
  exact (proj1 (WrapError_sanitizes CodeTaskConflict (Some (Opaque "secret row" (Some Canceled)))
                  eq_refl)).
Defined.

(** ** Agent sessions *)
Record AgentSessionKey := {
  GameID : string;
  WorldID : string;
  EntityID : string
}.

#[export] Instance AgentSessionKey_eq_dec : EqDecision AgentSessionKey.
Proof. solve_decision. Defined.

#[export] Program Instance AgentSessionKey_countable : Countable AgentSessionKey :=
  inj_countable' (fun k => (GameID k, WorldID k, EntityID k))
    (fun p => {| GameID := p.1.1; WorldID := p.1.2; EntityID := p.2 |}) _.
Next Obligation. by intros []. Qed.

Definition Resolve (gameID worldID entityID : string) : outcome error AgentSessionKey :=
  _ ← fail_if (bool_decide (TrimSpace gameID = "")) (Opaque "game_id is required" None);
  _ ← fail_if (bool_decide (TrimSpace worldID = "")) (Opaque "world_id is required" None);
  _ ← fail_if (bool_decide (TrimSpace entityID = "")) (Opaque "entity_id is required" None);
  Ok {| GameID := gameID; WorldID := worldID; EntityID := entityID |}.
