(* ===== verification/Model.v ===== *)
(** * The task model: [runtime/internal/task/model.go]

    Every struct of the model, its constants, and its [Validate] method.
    [int64] fields are [Z], [uint64] fields are [N], a pointer is an [option], a
    [json.RawMessage] is its bytes ([""] when absent).  String enumerations are
    inductive types with one constructor for any other text. *)

From S2P Require Export Errors GoJson.

Local Open Scope go_scope.

(** ** Enumerations *)
Inductive State :=
| StateWaiting | StateRunning | StatePaused | StateSucceeded | StateFailed | StateCancelled
| StateOther (text : string).
Inductive SourceKind :=
| SourceKindInternal | SourceKindInteraction | SourceKindTaskWake | SourceKindEnvironment
| SourceKindLifecycle | SourceKindOther (text : string).
Inductive ReconcileNext :=
| ReconcileNextDecide | ReconcileNextObserve | ReconcileNextSettled | ReconcileNextOther (text : string).
Inductive AttemptOutcomeKind :=
| AttemptOutcomeKindProgress | AttemptOutcomeKindNoProgress | AttemptOutcomeKindReconcileFailed
| AttemptOutcomeKindObservationFailed | AttemptOutcomeKindOther (text : string).
Inductive OperationStatus :=
| OperationStatusRegistered | OperationStatusUncertain | OperationStatusNotSent
| OperationStatusOther (text : string).
Inductive EvidenceKind :=
| EvidenceKindProgress | EvidenceKindSatisfied | EvidenceKindUnsatisfied | EvidenceKindInterrupted
| EvidenceKindOther (text : string).
Inductive CleanupStatus :=
| CleanupStatusReleased | CleanupStatusHandedOff | CleanupStatusUnconfirmed
| CleanupStatusOther (text : string).
Inductive WakeStatus :=
| wakeStatusPending | wakeStatusClaimed | wakeStatusEnqueued | wakeStatusRunning
| wakeStatusConsumed | wakeStatusOther (text : string).
Inductive IntentKind := IntentWait | IntentCancel | IntentOther (text : string).

#[export] Instance State_eq_dec : EqDecision State. Proof. solve_decision. Defined.
#[export] Instance SourceKind_eq_dec : EqDecision SourceKind. Proof. solve_decision. Defined.
#[export] Instance ReconcileNext_eq_dec : EqDecision ReconcileNext. Proof. solve_decision. Defined.
#[export] Instance AttemptOutcomeKind_eq_dec : EqDecision AttemptOutcomeKind. Proof. solve_decision. Defined.
#[export] Instance OperationStatus_eq_dec : EqDecision OperationStatus. Proof. solve_decision. Defined.
#[export] Instance EvidenceKind_eq_dec : EqDecision EvidenceKind. Proof. solve_decision. Defined.
#[export] Instance CleanupStatus_eq_dec : EqDecision CleanupStatus. Proof. solve_decision. Defined.
#[export] Instance WakeStatus_eq_dec : EqDecision WakeStatus. Proof. solve_decision. Defined.
#[export] Instance IntentKind_eq_dec : EqDecision IntentKind. Proof. solve_decision. Defined.

(** Their wire text. *)
Definition State_string (s : State) : string :=
  match s with
  | StateWaiting => "waiting" | StateRunning => "running" | StatePaused => "paused"
  | StateSucceeded => "succeeded" | StateFailed => "failed" | StateCancelled => "cancelled"
  | StateOther t => t
  end.
Definition SourceKind_string (k : SourceKind) : string :=
  match k with
  | SourceKindInternal => "internal" | SourceKindInteraction => "interaction"
  | SourceKindTaskWake => "task_wake" | SourceKindEnvironment => "environment"
  | SourceKindLifecycle => "lifecycle" | SourceKindOther t => t
  end.
Definition OperationStatus_string (s : OperationStatus) : string :=
  match s with
  | OperationStatusRegistered => "registered" | OperationStatusUncertain => "uncertain"
  | OperationStatusNotSent => "not_sent" | OperationStatusOther t => t
  end.
Definition EvidenceKind_string (k : EvidenceKind) : string :=
  match k with
  | EvidenceKindProgress => "progress" | EvidenceKindSatisfied => "satisfied"
  | EvidenceKindUnsatisfied => "unsatisfied" | EvidenceKindInterrupted => "interrupted"
  | EvidenceKindOther t => t
  end.
Definition CleanupStatus_string (s : CleanupStatus) : string :=
  match s with
  | CleanupStatusReleased => "released" | CleanupStatusHandedOff => "handed_off"
  | CleanupStatusUnconfirmed => "unconfirmed" | CleanupStatusOther t => t
  end.
Definition WakeStatus_string (s : WakeStatus) : string :=
  match s with
  | wakeStatusPending => "pending" | wakeStatusClaimed => "claimed"
  | wakeStatusEnqueued => "enqueued" | wakeStatusRunning => "running"
  | wakeStatusConsumed => "consumed" | wakeStatusOther t => t
  end.
Definition IntentKind_string (k : IntentKind) : string :=
  match k with IntentWait => "wait" | IntentCancel => "cancel" | IntentOther t => t end.

(** ** Structs *)
Abbreviation RawMessage := string (only parsing).

Record WorldKey := { wk_GameID : string; wk_WorldID : string }.
Record Binding := { bd_World : WorldKey; bd_RunID : string; bd_Generation : N }.
Record Clock := { ck_ID : string; ck_Tick : Z; ck_Sequence : N }.
Record SourceRef := {
  src_Kind : SourceKind; src_EventID : string; src_TurnID : string; src_CallID : string;
  src_GameTime : RawMessage; src_Facts : RawMessage
}.
Record ExecutionContext := {
  ex_Owner : AgentSessionKey; ex_Binding : Binding; ex_Clock : Clock; ex_Source : SourceRef;
  ex_TaskID : string; ex_WakeID : string; ex_WakeReason : string; ex_WakeDueAt : Z;
  ex_ExpectedRevision : N
}.

Definition MaxTaskContractBytes : Z := 4096.
Inductive ResultContract := ResultContractAuthoritativeEvidence | ResultContractOther (text : string).
#[export] Instance ResultContract_eq_dec : EqDecision ResultContract. Proof. solve_decision. Defined.
Definition ResultContract_string (c : ResultContract) : string :=
  match c with ResultContractAuthoritativeEvidence => "authoritative_evidence"
             | ResultContractOther t => t end.

Record TaskSpec := {
  sp_Instruction : string; sp_ClockID : string; sp_WakeAt : Z; sp_DeadlineAt : Z;
  sp_ResultContract : ResultContract; sp_Contract : RawMessage; sp_EquivalenceKey : string;
  sp_Source : SourceRef
}.
Record Operation := {
  op_ID : string; op_ActionID : string; op_CommandFingerprint : string; op_StartRevision : N;
  op_Binding : Binding; op_Status : OperationStatus; op_Receipt : RawMessage
}.
Record Evidence := {
  ev_FactID : string; ev_TaskID : string; ev_OperationID : string; ev_Binding : Binding;
  ev_StartRevision : N; ev_OccurredAt : Z; ev_Kind : EvidenceKind; ev_WaitUntil : option Z;
  ev_Details : RawMessage; ev_Source : SourceRef; ev_Applied : bool;
  ev_RevalidatedIn : option Binding
}.
(** A nil [EvidenceRefs] is [None]. *)
Record Result := {
  rs_ID : string; rs_TaskID : string; rs_Revision : N; rs_State : State; rs_Reason : string;
  rs_OccurredAt : Z; rs_EvidenceRefs : option (list string); rs_Source : SourceRef
}.
Record Cleanup := { cl_OperationID : string; cl_Status : CleanupStatus; cl_Reason : string }.
Record TaskRecord := mkRecord {
  r_ID : string; r_Owner : AgentSessionKey; r_Spec : TaskSpec; r_State : State; r_Revision : N;
  r_CreatedAtGameTick : Z; r_CreatedAtUnixMS : Z; r_NextWakeAt : option Z; r_Progress : RawMessage;
  r_NeedsReconcile : bool; r_PauseReason : string; r_NoProgressAttempts : Z;
  r_ReconcileAttempts : Z; r_Operations : list Operation; r_Evidence : list Evidence;
  r_Result : option Result; r_Cleanup : list Cleanup
}.
Record Wake := {
  w_ID : string; w_TaskID : string; w_Owner : AgentSessionKey; w_ExpectedRevision : N;
  w_DueTick : Z; w_Reason : string; w_Status : WakeStatus; w_ClaimID : string;
  w_ClaimedBy : string; w_Generation : N; w_Attempt : Z; w_RetryAfterUnixMS : Z
}.
Record Intent := {
  in_Kind : IntentKind; in_NextWakeAt : option Z; in_ProgressNote : string; in_Reason : string
}.
Record Admission := { MaxActivePerOwner : Z }.
Record CreateResult := { cr_Task : TaskRecord; cr_Created : bool }.
Record ReconcileResult := { rr_Task : TaskRecord; rr_Next : ReconcileNext }.
Inductive HeadStatus := worldHeadStatusReady | worldHeadStatusPaused | HeadStatusOther (text : string).
#[export] Instance HeadStatus_eq_dec : EqDecision HeadStatus. Proof. solve_decision. Defined.
Definition HeadStatus_string (s : HeadStatus) : string :=
  match s with worldHeadStatusReady => "ready" | worldHeadStatusPaused => "paused"
             | HeadStatusOther t => t end.
Record Head := {
  hd_Binding : Binding; hd_Clock : Clock; hd_CheckpointID : string; hd_Status : HeadStatus;
  hd_Reason : string
}.
Record AttemptOutcome := { ao_Kind : AttemptOutcomeKind; ao_Reason : string }.

#[export] Instance WorldKey_eq_dec : EqDecision WorldKey. Proof. solve_decision. Defined.
#[export] Instance Binding_eq_dec : EqDecision Binding. Proof. solve_decision. Defined.
#[export] Instance Clock_eq_dec : EqDecision Clock. Proof. solve_decision. Defined.
#[export] Instance SourceRef_eq_dec : EqDecision SourceRef. Proof. solve_decision. Defined.
#[export] Instance TaskSpec_eq_dec : EqDecision TaskSpec. Proof. solve_decision. Defined.
#[export] Instance Operation_eq_dec : EqDecision Operation. Proof. solve_decision. Defined.
#[export] Instance Evidence_eq_dec : EqDecision Evidence. Proof. solve_decision. Defined.
#[export] Instance Result_eq_dec : EqDecision Result. Proof. solve_decision. Defined.
#[export] Instance Cleanup_eq_dec : EqDecision Cleanup. Proof. solve_decision. Defined.
#[export] Instance TaskRecord_eq_dec : EqDecision TaskRecord. Proof. solve_decision. Defined.
#[export] Instance Wake_eq_dec : EqDecision Wake. Proof. solve_decision. Defined.
#[export] Instance Intent_eq_dec : EqDecision Intent. Proof. solve_decision. Defined.
#[export] Instance Head_eq_dec : EqDecision Head. Proof. solve_decision. Defined.
#[export] Instance CreateResult_eq_dec : EqDecision CreateResult. Proof. solve_decision. Defined.

#[export] Program Instance WorldKey_countable : Countable WorldKey :=
  inj_countable' (fun k => (wk_GameID k, wk_WorldID k))
    (fun p => {| wk_GameID := p.1; wk_WorldID := p.2 |}) _.
Next Obligation. by intros []. Qed.

(** ** Field assignment [r.F = v] on copies of a record, a wake, an operation, an evidence *)
Definition set_State (v : State) (r : TaskRecord) : TaskRecord :=
  mkRecord (r_ID r) (r_Owner r) (r_Spec r) v (r_Revision r) (r_CreatedAtGameTick r)
    (r_CreatedAtUnixMS r) (r_NextWakeAt r) (r_Progress r) (r_NeedsReconcile r) (r_PauseReason
    r) (r_NoProgressAttempts r) (r_ReconcileAttempts r) (r_Operations r) (r_Evidence r)
    (r_Result r) (r_Cleanup r).
Definition set_Revision (v : N) (r : TaskRecord) : TaskRecord :=
  mkRecord (r_ID r) (r_Owner r) (r_Spec r) (r_State r) v (r_CreatedAtGameTick r)
    (r_CreatedAtUnixMS r) (r_NextWakeAt r) (r_Progress r) (r_NeedsReconcile r) (r_PauseReason
    r) (r_NoProgressAttempts r) (r_ReconcileAttempts r) (r_Operations r) (r_Evidence r)
    (r_Result r) (r_Cleanup r).
Definition set_NextWakeAt (v : option Z) (r : TaskRecord) : TaskRecord :=
  mkRecord (r_ID r) (r_Owner r) (r_Spec r) (r_State r) (r_Revision r) (r_CreatedAtGameTick
    r) (r_CreatedAtUnixMS r) v (r_Progress r) (r_NeedsReconcile r) (r_PauseReason r)
    (r_NoProgressAttempts r) (r_ReconcileAttempts r) (r_Operations r) (r_Evidence r) (r_Result
    r) (r_Cleanup r).
Definition set_Progress (v : RawMessage) (r : TaskRecord) : TaskRecord :=
  mkRecord (r_ID r) (r_Owner r) (r_Spec r) (r_State r) (r_Revision r) (r_CreatedAtGameTick
    r) (r_CreatedAtUnixMS r) (r_NextWakeAt r) v (r_NeedsReconcile r) (r_PauseReason r)
    (r_NoProgressAttempts r) (r_ReconcileAttempts r) (r_Operations r) (r_Evidence r) (r_Result
    r) (r_Cleanup r).
Definition set_NeedsReconcile (v : bool) (r : TaskRecord) : TaskRecord :=
  mkRecord (r_ID r) (r_Owner r) (r_Spec r) (r_State r) (r_Revision r) (r_CreatedAtGameTick
    r) (r_CreatedAtUnixMS r) (r_NextWakeAt r) (r_Progress r) v (r_PauseReason r)
    (r_NoProgressAttempts r) (r_ReconcileAttempts r) (r_Operations r) (r_Evidence r) (r_Result
    r) (r_Cleanup r).
Definition set_PauseReason (v : string) (r : TaskRecord) : TaskRecord :=
  mkRecord (r_ID r) (r_Owner r) (r_Spec r) (r_State r) (r_Revision r) (r_CreatedAtGameTick
    r) (r_CreatedAtUnixMS r) (r_NextWakeAt r) (r_Progress r) (r_NeedsReconcile r) v
    (r_NoProgressAttempts r) (r_ReconcileAttempts r) (r_Operations r) (r_Evidence r) (r_Result
    r) (r_Cleanup r).
Definition set_NoProgressAttempts (v : Z) (r : TaskRecord) : TaskRecord :=
  mkRecord (r_ID r) (r_Owner r) (r_Spec r) (r_State r) (r_Revision r) (r_CreatedAtGameTick
    r) (r_CreatedAtUnixMS r) (r_NextWakeAt r) (r_Progress r) (r_NeedsReconcile r)
    (r_PauseReason r) v (r_ReconcileAttempts r) (r_Operations r) (r_Evidence r) (r_Result r)
    (r_Cleanup r).
Definition set_ReconcileAttempts (v : Z) (r : TaskRecord) : TaskRecord :=
  mkRecord (r_ID r) (r_Owner r) (r_Spec r) (r_State r) (r_Revision r) (r_CreatedAtGameTick
    r) (r_CreatedAtUnixMS r) (r_NextWakeAt r) (r_Progress r) (r_NeedsReconcile r)
    (r_PauseReason r) (r_NoProgressAttempts r) v (r_Operations r) (r_Evidence r) (r_Result r)
    (r_Cleanup r).
Definition set_Operations (v : list Operation) (r : TaskRecord) : TaskRecord :=
  mkRecord (r_ID r) (r_Owner r) (r_Spec r) (r_State r) (r_Revision r) (r_CreatedAtGameTick
    r) (r_CreatedAtUnixMS r) (r_NextWakeAt r) (r_Progress r) (r_NeedsReconcile r)
    (r_PauseReason r) (r_NoProgressAttempts r) (r_ReconcileAttempts r) v (r_Evidence r)
    (r_Result r) (r_Cleanup r).
Definition set_Evidence (v : list Evidence) (r : TaskRecord) : TaskRecord :=
  mkRecord (r_ID r) (r_Owner r) (r_Spec r) (r_State r) (r_Revision r) (r_CreatedAtGameTick
    r) (r_CreatedAtUnixMS r) (r_NextWakeAt r) (r_Progress r) (r_NeedsReconcile r)
    (r_PauseReason r) (r_NoProgressAttempts r) (r_ReconcileAttempts r) (r_Operations r) v
    (r_Result r) (r_Cleanup r).
Definition set_Result (v : option Result) (r : TaskRecord) : TaskRecord :=
  mkRecord (r_ID r) (r_Owner r) (r_Spec r) (r_State r) (r_Revision r) (r_CreatedAtGameTick
    r) (r_CreatedAtUnixMS r) (r_NextWakeAt r) (r_Progress r) (r_NeedsReconcile r)
    (r_PauseReason r) (r_NoProgressAttempts r) (r_ReconcileAttempts r) (r_Operations r)
    (r_Evidence r) v (r_Cleanup r).
Definition set_Cleanup (v : list Cleanup) (r : TaskRecord) : TaskRecord :=
  mkRecord (r_ID r) (r_Owner r) (r_Spec r) (r_State r) (r_Revision r) (r_CreatedAtGameTick
    r) (r_CreatedAtUnixMS r) (r_NextWakeAt r) (r_Progress r) (r_NeedsReconcile r)
    (r_PauseReason r) (r_NoProgressAttempts r) (r_ReconcileAttempts r) (r_Operations r)
    (r_Evidence r) (r_Result r) v.

(** [updated := wake; updated.Status, ClaimID, ClaimedBy, Generation, Attempt,
    RetryAfterUnixMS = ...] *)
Definition wake_with (w : Wake) (status : WakeStatus) (claimID claimedBy : string)
    (generation : N) (attempt retryAfter : Z) : Wake :=
  {| w_ID := w_ID w; w_TaskID := w_TaskID w; w_Owner := w_Owner w; w_ExpectedRevision :=
     w_ExpectedRevision w; w_DueTick := w_DueTick w; w_Reason := w_Reason w; w_Status :=
     status; w_ClaimID := claimID; w_ClaimedBy := claimedBy; w_Generation := generation;
     w_Attempt := attempt; w_RetryAfterUnixMS := retryAfter |}.
Definition set_w_Status (status : WakeStatus) (w : Wake) : Wake :=
  wake_with w status (w_ClaimID w) (w_ClaimedBy w) (w_Generation w) (w_Attempt w) (w_RetryAfterUnixMS w).
(** [wake.Status = wakeStatusConsumed; wake.RetryAfterUnixMS = 0] *)
Definition consumed_wake (w : Wake) : Wake :=
  wake_with w wakeStatusConsumed (w_ClaimID w) (w_ClaimedBy w) (w_Generation w) (w_Attempt w) 0.
Definition set_op_Status (status : OperationStatus) (o : Operation) : Operation :=
  {| op_ID := op_ID o; op_ActionID := op_ActionID o; op_CommandFingerprint := op_CommandFingerprint o; op_StartRevision := op_StartRevision o;
     op_Binding := op_Binding o; op_Status := status; op_Receipt := op_Receipt o |}.
Definition set_ev_Applied (applied : bool) (e : Evidence) : Evidence :=
  {| ev_FactID := ev_FactID e; ev_TaskID := ev_TaskID e; ev_OperationID := ev_OperationID e;
     ev_Binding := ev_Binding e; ev_StartRevision := ev_StartRevision e; ev_OccurredAt :=
     ev_OccurredAt e; ev_Kind := ev_Kind e; ev_WaitUntil := ev_WaitUntil e; ev_Details :=
     ev_Details e; ev_Source := ev_Source e; ev_Applied := applied; ev_RevalidatedIn :=
     ev_RevalidatedIn e |}.

(** ** Scalar checks *)
Definition requiredIdentity (value : string) : bool := TrimSpace value != "".
Definition optionalIdentity (value : string) : bool := (value == "") || requiredIdentity value.
Definition validOptionalTick (value : option Z) : bool :=
  match value with None => true | Some t => (0 <=? t)%Z end.
Definition validRawJSON (value : RawMessage) : bool := (value == "") || json_valid value.

Definition ValidateDurableCounter (value : N) : outcome error unit :=
  fail_if ((value =? 0)%N || (MaxInt64N <? value)%N) ErrInvalidTaskSpec.
Definition NextDurableCounter (current : N) : outcome error N :=
  if (MaxInt64N <=? current)%N then Err ErrInvalidTaskSpec else Ok (current + 1)%N.

Definition validateOwner (owner : AgentSessionKey) : outcome error unit :=
  _ ← or_err (Resolve (GameID owner) (WorldID owner) (EntityID owner)) ErrInvalidTaskSpec; Ok tt.
Definition sameOwnerWorld (owner : AgentSessionKey) (world : WorldKey) : bool :=
  (GameID owner == wk_GameID world) && (WorldID owner == wk_WorldID world).

(** [taskStateTerminal] of service.go. *)
Definition taskStateTerminal (s : State) : bool :=
  (s == StateSucceeded) || (s == StateFailed) || (s == StateCancelled).

(** ** Validation *)
Definition State_Valid (s : State) : bool :=
  match s with StateOther _ => false | _ => true end.
Definition State_Validate (s : State) : outcome error unit :=
  fail_if (! State_Valid s) ErrInvalidTaskSpec.

Definition WorldKey_Validate (w : WorldKey) : outcome error unit :=
  fail_if (! requiredIdentity (wk_GameID w) || ! requiredIdentity (wk_WorldID w)) ErrInvalidTaskSpec.

Definition Binding_Validate (b : Binding) : outcome error unit :=
  _ ← WorldKey_Validate (bd_World b);
  _ ← fail_if (! requiredIdentity (bd_RunID b)) ErrInvalidTaskSpec;
  ValidateDurableCounter (bd_Generation b).

Definition Clock_Validate (c : Clock) : outcome error unit :=
  fail_if (! requiredIdentity (ck_ID c) || (ck_Tick c <? 0)%Z) ErrInvalidTaskSpec.

Definition SourceRef_Validate (s : SourceRef) : outcome error unit :=
  _ ← match src_Kind s with SourceKindOther _ => Err ErrSourceInvalid | _ => Ok tt end;
  _ ← fail_if (! optionalIdentity (src_EventID s) || ! optionalIdentity (src_TurnID s)
               || ! optionalIdentity (src_CallID s)) ErrSourceInvalid;
  fail_if (! validRawJSON (src_GameTime s) || ! validRawJSON (src_Facts s)) ErrSourceInvalid.

Definition ExecutionContext_Validate (e : ExecutionContext) : outcome error unit :=
  _ ← validateOwner (ex_Owner e);
  _ ← Binding_Validate (ex_Binding e);
  _ ← fail_if ((GameID (ex_Owner e) != wk_GameID (bd_World (ex_Binding e)))
               || (WorldID (ex_Owner e) != wk_WorldID (bd_World (ex_Binding e)))) ErrWorldMismatch;
  _ ← Clock_Validate (ex_Clock e);
  _ ← SourceRef_Validate (ex_Source e);
  _ ← fail_if (! optionalIdentity (ex_TaskID e) || ! optionalIdentity (ex_WakeID e)) ErrInvalidTaskSpec;
  if (ex_ExpectedRevision e =? 0)%N then Ok tt else ValidateDurableCounter (ex_ExpectedRevision e).

Definition TaskSpec_Validate (s : TaskSpec) : outcome error unit :=
  _ ← fail_if (! requiredIdentity (sp_Instruction s) || ! requiredIdentity (sp_ClockID s)
               || (sp_WakeAt s <? 0)%Z || (sp_DeadlineAt s <? 0)%Z
               || (sp_DeadlineAt s <? sp_WakeAt s)%Z
               || (sp_ResultContract s != ResultContractAuthoritativeEvidence)
               || ! optionalIdentity (sp_EquivalenceKey s) || ! validRawJSON (sp_Contract s)
               || (MaxTaskContractBytes <? str_len (sp_Contract s))%Z) ErrInvalidTaskSpec;
  SourceRef_Validate (sp_Source s).

Definition Operation_Validate (o : Operation) : outcome error unit :=
  _ ← fail_if (! requiredIdentity (op_ID o) || ! requiredIdentity (op_ActionID o)
               || ! requiredIdentity (op_CommandFingerprint o)) ErrInvalidTaskSpec;
  _ ← ValidateDurableCounter (op_StartRevision o);
  _ ← Binding_Validate (op_Binding o);
  _ ← match op_Status o with OperationStatusOther _ => Err ErrInvalidTaskSpec | _ => Ok tt end;
  fail_if (! validRawJSON (op_Receipt o)) ErrInvalidTaskSpec.

Definition Evidence_Validate (e : Evidence) : outcome error unit :=
  _ ← fail_if (! requiredIdentity (ev_FactID e) || ! requiredIdentity (ev_TaskID e)
               || ! optionalIdentity (ev_OperationID e)) ErrInvalidTaskSpec;
  _ ← Binding_Validate (ev_Binding e);
  _ ← ValidateDurableCounter (ev_StartRevision e);
  _ ← fail_if ((ev_OccurredAt e <? 0)%Z || ! validOptionalTick (ev_WaitUntil e)
               || ! validRawJSON (ev_Details e)) ErrInvalidTaskSpec;
  _ ← match ev_Kind e with
      | EvidenceKindProgress => Ok tt
      | EvidenceKindSatisfied | EvidenceKindUnsatisfied | EvidenceKindInterrupted =>
        fail_if (ev_WaitUntil e != None) ErrInvalidTaskSpec
      | EvidenceKindOther _ => Err ErrInvalidTaskSpec
      end;
  _ ← SourceRef_Validate (ev_Source e);
  match ev_RevalidatedIn e with Some b => Binding_Validate b | None => Ok tt end.

(** A loop over string identities that refuses a repeated one: the [seen] maps
    of the code. *)
Fixpoint distinct_from (seen : gset string) (l : list string) : bool :=
  match l with
  | [] => true
  | x :: t => (! bool_decide (x ∈ seen)) && distinct_from ({[x]} ∪ seen) t
  end.

Definition Result_Validate (r : Result) : outcome error unit :=
  _ ← fail_if (! requiredIdentity (rs_ID r) || ! requiredIdentity (rs_TaskID r)
               || ! requiredIdentity (rs_Reason r)) ErrInvalidTaskSpec;
  refs ← of_option (rs_EvidenceRefs r) ErrInvalidTaskSpec;
  _ ← ValidateDurableCounter (rs_Revision r);
  _ ← match rs_State r with
      | StateSucceeded | StateFailed | StateCancelled => Ok tt
      | _ => Err ErrInvalidTaskSpec
      end;
  _ ← fail_if (rs_OccurredAt r <? 0)%Z ErrInvalidTaskSpec;
  _ ← fail_if (! forallb requiredIdentity refs || ! distinct_from ∅ refs) ErrInvalidTaskSpec;
  SourceRef_Validate (rs_Source r).

Definition Cleanup_Validate (c : Cleanup) : outcome error unit :=
  _ ← fail_if (! requiredIdentity (cl_OperationID c)) ErrInvalidTaskSpec;
  match cl_Status c with
  | CleanupStatusReleased | CleanupStatusHandedOff =>
    fail_if ((cl_Reason c != "") && (TrimSpace (cl_Reason c) == "")) ErrInvalidTaskSpec
  | CleanupStatusUnconfirmed => fail_if (! requiredIdentity (cl_Reason c)) ErrInvalidTaskSpec
  | CleanupStatusOther _ => Err ErrInvalidTaskSpec
  end.

Definition Wake_Validate (w : Wake) : outcome error unit :=
  _ ← fail_if (! requiredIdentity (w_ID w) || ! requiredIdentity (w_TaskID w)
               || ! requiredIdentity (w_Reason w) || ! optionalIdentity (w_ClaimID w)
               || ! optionalIdentity (w_ClaimedBy w)) ErrInvalidTaskSpec;
  _ ← validateOwner (w_Owner w);
  _ ← ValidateDurableCounter (w_ExpectedRevision w);
  _ ← ValidateDurableCounter (w_Generation w);
  _ ← fail_if ((w_DueTick w <? 0)%Z || (w_Attempt w <? 0)%Z || (w_RetryAfterUnixMS w <? 0)%Z)
        ErrInvalidTaskSpec;
  let claimPresent := w_ClaimID w != "" in
  let claimantPresent := w_ClaimedBy w != "" in
  match w_Status w with
  | wakeStatusPending => fail_if (claimPresent || claimantPresent) ErrInvalidTaskSpec
  | wakeStatusClaimed | wakeStatusEnqueued | wakeStatusRunning =>
    fail_if (! claimPresent || ! claimantPresent || (w_Attempt w =? 0)%Z
             || ! (w_RetryAfterUnixMS w =? 0)%Z) ErrInvalidTaskSpec
  | wakeStatusConsumed =>
    fail_if (! Bool.eqb claimPresent claimantPresent || ! (w_RetryAfterUnixMS w =? 0)%Z) ErrInvalidTaskSpec
  | wakeStatusOther _ => Err ErrInvalidTaskSpec
  end.

Definition Intent_Validate (i : Intent) : outcome error unit :=
  match in_Kind i with
  | IntentWait =>
    fail_if ((in_NextWakeAt i == None) || ! validOptionalTick (in_NextWakeAt i)
             || (in_Reason i != "")
             || ((in_ProgressNote i != "") && (TrimSpace (in_ProgressNote i) == ""))) ErrInvalidTaskSpec
  | IntentCancel =>
    fail_if ((in_NextWakeAt i != None) || (in_ProgressNote i != "")
             || ! requiredIdentity (in_Reason i)) ErrInvalidTaskSpec
  | IntentOther _ => Err ErrInvalidTaskSpec
  end.

Definition Admission_Validate (a : Admission) : outcome error unit :=
  fail_if (MaxActivePerOwner a <? 0)%Z ErrInvalidTaskSpec.

Definition AttemptOutcome_Validate (a : AttemptOutcome) : outcome error unit :=
  match ao_Kind a with
  | AttemptOutcomeKindOther _ => Err ErrInvalidTaskSpec
  | _ => fail_if (! optionalIdentity (ao_Reason a)) ErrInvalidTaskSpec
  end.
