(* ===== verification/Wire.v ===== *)
(** * JSON form of the model

    What [json.Marshal] writes for each struct (its tags of model.go and the
    custom [MarshalJSON] methods of wire.go, which move [owner] to the end), the
    equality tests the kernel makes on that text, and its clones
    ([json.Unmarshal] of [json.Marshal]).

    A clone keeps every field and compacts every raw message: text fields hold
    UTF-8 (they enter through protobuf or JSON), on which the encoder and the
    decoder are inverse. *)

From S2P Require Export Model.

Local Open Scope go_scope.

(** ** Encoders *)
Definition raw_field (name : string) (raw : RawMessage) : option json_field :=
  if raw == "" then Some None else c ← json_compact raw; Some (field name c).
Definition str_field (name v : string) : json_field := field name (enc_string v).
Definition str_omit (name v : string) : json_field := omit_if (v == "") name (enc_string v).
Definition tick_omit (name : string) (v : option Z) : json_field :=
  match v with None => None | Some t => field name (enc_int t) end.

Definition marshalWorldKey (w : WorldKey) : string :=
  enc_object [str_field "game_id" (wk_GameID w); str_field "world_id" (wk_WorldID w)].
Definition marshalBinding (b : Binding) : string :=
  enc_object [field "world" (marshalWorldKey (bd_World b)); str_field "run_id" (bd_RunID b);
              field "generation" (enc_uint (bd_Generation b))].
Definition marshalClock (c : Clock) : string :=
  enc_object [str_field "id" (ck_ID c); field "tick" (enc_int (ck_Tick c));
              field "sequence" (enc_uint (ck_Sequence c))].
Definition marshalOwner (o : AgentSessionKey) : string :=
  enc_object [str_field "game_id" (GameID o); str_field "world_id" (WorldID o);
              str_field "entity_id" (EntityID o)].

Definition marshalSourceRef (s : SourceRef) : option string :=
  gt ← raw_field "game_time" (src_GameTime s);
  fs ← raw_field "facts" (src_Facts s);
  Some (enc_object [str_field "kind" (SourceKind_string (src_Kind s));
                    str_omit "event_id" (src_EventID s); str_omit "turn_id" (src_TurnID s);
                    str_omit "call_id" (src_CallID s); gt; fs]).

Definition marshalTaskSpec (s : TaskSpec) : option string :=
  ct ← raw_field "contract" (sp_Contract s);
  src ← marshalSourceRef (sp_Source s);
  Some (enc_object [str_field "instruction" (sp_Instruction s); str_field "clock_id" (sp_ClockID s);
                    field "wake_at" (enc_int (sp_WakeAt s));
                    field "deadline_at" (enc_int (sp_DeadlineAt s));
                    str_field "result_contract" (ResultContract_string (sp_ResultContract s)); ct;
                    str_omit "equivalence_key" (sp_EquivalenceKey s); field "source" src]).

Definition marshalOperation (o : Operation) : option string :=
  rc ← raw_field "receipt" (op_Receipt o);
  Some (enc_object [str_field "id" (op_ID o); str_field "action_id" (op_ActionID o);
                    str_field "command_fingerprint" (op_CommandFingerprint o);
                    field "start_revision" (enc_uint (op_StartRevision o));
                    field "binding" (marshalBinding (op_Binding o));
                    str_field "status" (OperationStatus_string (op_Status o)); rc]).

Definition marshalEvidence (e : Evidence) : option string :=
  dt ← raw_field "details" (ev_Details e);
  src ← marshalSourceRef (ev_Source e);
  Some (enc_object [str_field "fact_id" (ev_FactID e); str_field "task_id" (ev_TaskID e);
                    str_omit "operation_id" (ev_OperationID e);
                    field "binding" (marshalBinding (ev_Binding e));
                    field "start_revision" (enc_uint (ev_StartRevision e));
                    field "occurred_at" (enc_int (ev_OccurredAt e));
                    str_field "kind" (EvidenceKind_string (ev_Kind e));
                    tick_omit "wait_until" (ev_WaitUntil e); dt; field "source" src;
                    field "applied" (enc_bool (ev_Applied e));
                    match ev_RevalidatedIn e with
                    | None => None
                    | Some b => field "revalidated_in" (marshalBinding b)
                    end]).

Definition marshalResult (r : Result) : option string :=
  src ← marshalSourceRef (rs_Source r);
  Some (enc_object [str_field "id" (rs_ID r); str_field "task_id" (rs_TaskID r);
                    field "revision" (enc_uint (rs_Revision r));
                    str_field "state" (State_string (rs_State r)); str_field "reason" (rs_Reason r);
                    field "occurred_at" (enc_int (rs_OccurredAt r));
                    field "evidence_refs" match rs_EvidenceRefs r with
                                          | None => "null"
                                          | Some refs => enc_array (enc_string <$> refs)
                                          end;
                    field "source" src]).

Definition marshalCleanup (c : Cleanup) : string :=
  enc_object [str_field "operation_id" (cl_OperationID c);
              str_field "status" (CleanupStatus_string (cl_Status c));
              str_field "reason" (cl_Reason c)].

Definition marshalRecord (r : TaskRecord) : option string :=
  spec ← marshalTaskSpec (r_Spec r);
  progress ← raw_field "progress" (r_Progress r);
  operations ← mapM_opt marshalOperation (r_Operations r);
  evidence ← mapM_opt marshalEvidence (r_Evidence r);
  result ← match r_Result r with
           | None => Some None
           | Some x => j ← marshalResult x; Some (field "result" j)
           end;
  Some (enc_object [str_field "id" (r_ID r); field "spec" spec;
                    str_field "state" (State_string (r_State r));
                    field "revision" (enc_uint (r_Revision r));
                    field "created_at_game_tick" (enc_int (r_CreatedAtGameTick r));
                    field "created_at_unix_ms" (enc_int (r_CreatedAtUnixMS r));
                    tick_omit "next_wake_at" (r_NextWakeAt r); progress;
                    field "needs_reconcile" (enc_bool (r_NeedsReconcile r));
                    str_omit "pause_reason" (r_PauseReason r);
                    field "no_progress_attempts" (enc_int (r_NoProgressAttempts r));
                    field "reconcile_attempts" (enc_int (r_ReconcileAttempts r));
                    field "operations" (enc_array operations);
                    field "evidence" (enc_array evidence); result;
                    field "cleanup" (enc_array (marshalCleanup <$> r_Cleanup r));
                    field "owner" (marshalOwner (r_Owner r))]).

Definition marshalWake (w : Wake) : string :=
  enc_object [str_field "id" (w_ID w); str_field "task_id" (w_TaskID w);
              field "expected_revision" (enc_uint (w_ExpectedRevision w));
              field "due_tick" (enc_int (w_DueTick w)); str_field "reason" (w_Reason w);
              str_field "status" (WakeStatus_string (w_Status w)); str_omit "claim_id" (w_ClaimID w);
              str_omit "claimed_by" (w_ClaimedBy w); field "generation" (enc_uint (w_Generation w));
              field "attempt" (enc_int (w_Attempt w));
              field "retry_after_unix_ms" (enc_int (w_RetryAfterUnixMS w));
              field "owner" (marshalOwner (w_Owner w))].

Definition marshalIntent (i : Intent) : string :=
  enc_object [str_field "kind" (IntentKind_string (in_Kind i));
              tick_omit "next_wake_at" (in_NextWakeAt i);
              str_omit "progress_note" (in_ProgressNote i); str_omit "reason" (in_Reason i)].

Definition marshalCreateResult (c : CreateResult) : option string :=
  task ← marshalRecord (cr_Task c);
  Some (enc_object [field "task" task; field "created" (enc_bool (cr_Created c))]).

(** [modelProgressJSON] of intent.go. *)
Definition modelProgressJSON (note : string) : RawMessage :=
  enc_object [str_field "author" "model"; str_field "kind" "explanation"; str_field "note" note].

(** ** Equality of the JSON text *)
Definition json_texts_equal (left right : option string) : bool :=
  match left, right with Some l, Some r => l == r | _, _ => false end.

Definition sourceRefsEqual (left right : SourceRef) : bool :=
  json_texts_equal (marshalSourceRef left) (marshalSourceRef right).
Definition taskSpecsEqual (left right : TaskSpec) : bool :=
  json_texts_equal (marshalTaskSpec left) (marshalTaskSpec right).
Definition operationsEqual (left right : Operation) : bool :=
  json_texts_equal (marshalOperation left) (marshalOperation right).
Definition cleanupsEqual (left right : Cleanup) : bool :=
  json_texts_equal (Some (marshalCleanup left)) (Some (marshalCleanup right)).
Definition evidenceEqualIgnoringApplied (stored incoming : Evidence) : bool :=
  json_texts_equal (marshalEvidence (set_ev_Applied false stored))
                   (marshalEvidence (set_ev_Applied false incoming)).

(** ** Clones *)
Definition clone_raw (raw : RawMessage) : option RawMessage :=
  if raw == "" then Some "" else json_compact raw.

Definition cloneSourceRef (s : SourceRef) : option SourceRef :=
  gt ← clone_raw (src_GameTime s);
  fs ← clone_raw (src_Facts s);
  Some {| src_Kind := src_Kind s; src_EventID := src_EventID s; src_TurnID := src_TurnID s;
          src_CallID := src_CallID s; src_GameTime := gt; src_Facts := fs |}.

Definition cloneTaskSpec (s : TaskSpec) : option TaskSpec :=
  ct ← clone_raw (sp_Contract s);
  src ← cloneSourceRef (sp_Source s);
  Some {| sp_Instruction := sp_Instruction s; sp_ClockID := sp_ClockID s; sp_WakeAt := sp_WakeAt s;
          sp_DeadlineAt := sp_DeadlineAt s; sp_ResultContract := sp_ResultContract s;
          sp_Contract := ct; sp_EquivalenceKey := sp_EquivalenceKey s; sp_Source := src |}.

Definition cloneOperation (o : Operation) : option Operation :=
  rc ← clone_raw (op_Receipt o);
  Some {| op_ID := op_ID o; op_ActionID := op_ActionID o;
          op_CommandFingerprint := op_CommandFingerprint o; op_StartRevision := op_StartRevision o;
          op_Binding := op_Binding o; op_Status := op_Status o; op_Receipt := rc |}.

Definition cloneEvidence (e : Evidence) : option Evidence :=
  dt ← clone_raw (ev_Details e);
  src ← cloneSourceRef (ev_Source e);
  Some {| ev_FactID := ev_FactID e; ev_TaskID := ev_TaskID e; ev_OperationID := ev_OperationID e;
          ev_Binding := ev_Binding e; ev_StartRevision := ev_StartRevision e;
          ev_OccurredAt := ev_OccurredAt e; ev_Kind := ev_Kind e; ev_WaitUntil := ev_WaitUntil e;
          ev_Details := dt; ev_Source := src; ev_Applied := ev_Applied e;
          ev_RevalidatedIn := ev_RevalidatedIn e |}.

Definition cloneCleanup (c : Cleanup) : option Cleanup := Some c.

Definition cloneResultJSON (r : Result) : option Result :=
  src ← cloneSourceRef (rs_Source r);
  Some {| rs_ID := rs_ID r; rs_TaskID := rs_TaskID r; rs_Revision := rs_Revision r;
          rs_State := rs_State r; rs_Reason := rs_Reason r; rs_OccurredAt := rs_OccurredAt r;
          rs_EvidenceRefs := rs_EvidenceRefs r; rs_Source := src |}.

(** Decoding a record also checks its owner ([decodeOwner]). *)
Definition cloneRecord (r : TaskRecord) : option TaskRecord :=
  spec ← cloneTaskSpec (r_Spec r);
  progress ← clone_raw (r_Progress r);
  operations ← mapM_opt cloneOperation (r_Operations r);
  evidence ← mapM_opt cloneEvidence (r_Evidence r);
  result ← match r_Result r with
           | None => Some None
           | Some x => y ← cloneResultJSON x; Some (Some y)
           end;
  if is_ok (validateOwner (r_Owner r)) then
    Some (mkRecord (r_ID r) (r_Owner r) spec (r_State r) (r_Revision r) (r_CreatedAtGameTick r)
            (r_CreatedAtUnixMS r) (r_NextWakeAt r) progress (r_NeedsReconcile r) (r_PauseReason r)
            (r_NoProgressAttempts r) (r_ReconcileAttempts r) operations evidence result
            (r_Cleanup r))
  else None.

(** ** Lemmas *)
Lemma json_texts_equal_true l r :
  json_texts_equal l r = true <-> exists t, l = Some t /\ r = Some t.
Proof.
  unfold json_texts_equal. destruct l, r; split; intros H; deex; try congruence; boolp; subst; eauto.
  simplify_eq. by apply bool_decide_eq_true.
Qed.

Lemma json_texts_equal_refl l : json_texts_equal l l = true <-> is_Some l.
Proof.
  rewrite json_texts_equal_true. split; [intros (t & -> & _); eauto|intros [t ->]; eauto].
Qed.

(** ** Clones are canonical

    A cloned value is a fixed point of cloning and has the text of the original. *)
Lemma modelProgressJSON_compact note : json_compact (modelProgressJSON note) = Some (modelProgressJSON note).
Proof.
  set (pre := bytes_of "{" ++ bytes_of (enc_string "author") ++ bytes_of ":" ++ bytes_of (enc_string "model")
              ++ bytes_of "," ++ bytes_of (enc_string "kind") ++ bytes_of ":" ++ bytes_of (enc_string "explanation")
              ++ bytes_of "," ++ bytes_of (enc_string "note") ++ bytes_of ":").
  assert (bytes_of (modelProgressJSON note) = pre ++ bytes_of (enc_string note) ++ [byte_of 125]) as Hb.
  { unfold modelProgressJSON, enc_object, pre. cbn [omap list_omap id str_field field fmap list_fmap join_comma fst snd].
    rewrite !bytes_of_app, <- !app_assoc. reflexivity. }
  unfold json_compact. rewrite Hb.
  rewrite (compact_run_path _ pre {| GoJson.sc_state := BeginValue; sc_stack := [InObjectValue] |}
             _ (bytes_of (enc_string note) ++ [byte_of 125]) {| GoJson.sc_state := EndTop; sc_stack := [] |});
    [|vm_compute; reflexivity|apply compact_run_enc_string; reflexivity].
  cbn [scan_eof GoJson.sc_state]. rewrite <- Hb. by rewrite text_of_bytes_of.
Qed.

Lemma clone_raw_idem raw c : clone_raw raw = Some c -> clone_raw c = Some c.
Proof.
  unfold clone_raw. case_bool_decide; [by intros [= <-]|]. intros Hc.
  case_bool_decide; [by subst|]. by eapply json_compact_idem.
Qed.

Lemma raw_field_clone name raw c : clone_raw raw = Some c -> raw_field name c = raw_field name raw.
Proof.
  unfold clone_raw, raw_field. case_bool_decide as Hr; [intros [= <-]; by rewrite bool_decide_true|].
  intros Hc. rewrite (json_compact_idem _ _ Hc), Hc.
  case_bool_decide as He; [|done]. subst c. apply json_compact_idem in Hc. discriminate Hc.
Qed.

Lemma clone_raw_valid raw c : clone_raw raw = Some c -> validRawJSON c = true.
Proof.
  intros H%clone_raw_idem. unfold clone_raw, validRawJSON in *.
  case_bool_decide; simpl; [done|]. apply json_compact_valid. eauto.
Qed.

Ltac opt_inv H :=
  repeat match type of H with
  | (_ ≫= _) = Some _ => let a := fresh "x" in let Ha := fresh "Hx" in
      apply bind_Some in H; destruct H as (a & Ha & H)
  | Some _ = Some _ => apply (inj Some) in H; try subst
  end.

Lemma cloneSourceRef_idem s s' : cloneSourceRef s = Some s' -> cloneSourceRef s' = Some s'.
Proof.
  unfold cloneSourceRef. intros H. opt_inv H. simpl.
  rewrite (clone_raw_idem _ _ Hx), (clone_raw_idem _ _ Hx0). done.
Qed.

Lemma cloneSourceRef_marshal s s' : cloneSourceRef s = Some s' -> marshalSourceRef s' = marshalSourceRef s.
Proof.
  unfold cloneSourceRef, marshalSourceRef. intros H. opt_inv H. simpl.
  by rewrite (raw_field_clone _ _ _ Hx), (raw_field_clone _ _ _ Hx0).
Qed.

Lemma cloneTaskSpec_idem s s' : cloneTaskSpec s = Some s' -> cloneTaskSpec s' = Some s'.
Proof.
  unfold cloneTaskSpec. intros H. opt_inv H. simpl.
  rewrite (clone_raw_idem _ _ Hx), (cloneSourceRef_idem _ _ Hx0). done.
Qed.

Lemma cloneTaskSpec_marshal s s' : cloneTaskSpec s = Some s' -> marshalTaskSpec s' = marshalTaskSpec s.
Proof.
  unfold cloneTaskSpec, marshalTaskSpec. intros H. opt_inv H. simpl.
  by rewrite (raw_field_clone _ _ _ Hx), (cloneSourceRef_marshal _ _ Hx0).
Qed.

Lemma cloneOperation_idem o o' : cloneOperation o = Some o' -> cloneOperation o' = Some o'.
Proof. unfold cloneOperation. intros H. opt_inv H. simpl. by rewrite (clone_raw_idem _ _ Hx). Qed.

Lemma cloneEvidence_idem e e' : cloneEvidence e = Some e' -> cloneEvidence e' = Some e'.
Proof.
  unfold cloneEvidence. intros H. opt_inv H. simpl.
  by rewrite (clone_raw_idem _ _ Hx), (cloneSourceRef_idem _ _ Hx0).
Qed.

Lemma cloneResultJSON_idem r r' : cloneResultJSON r = Some r' -> cloneResultJSON r' = Some r'.
Proof. unfold cloneResultJSON. intros H. opt_inv H. simpl. by rewrite (cloneSourceRef_idem _ _ Hx). Qed.

Lemma mapM_opt_idem {A} (f : A -> option A) l l' :
  (forall x y, f x = Some y -> f y = Some y) -> mapM_opt f l = Some l' -> mapM_opt f l' = Some l'.
Proof.
  intros Hf. revert l'. induction l as [|x l IH]; intros l' H; cbn [mapM_opt] in H; opt_inv H; [done|].
  cbn [mapM_opt]. rewrite (Hf _ _ Hx), (IH _ Hx0). done.
Qed.

Lemma mapM_opt_fixed {A} (f : A -> option A) l : mapM_opt f l = Some l <-> Forall (fun x => f x = Some x) l.
Proof.
  induction l as [|x l IH]; cbn [mapM_opt]; [by split; [constructor|]|].
  rewrite Forall_cons, <- IH. split.
  - intros H. opt_inv H. by simplify_eq.
  - intros [-> ->]. done.
Qed.

(** A record cloning leaves alone. *)
Record canonical (r : TaskRecord) : Prop := {
  cn_owner : validateOwner (r_Owner r) = Ok tt;
  cn_spec : cloneTaskSpec (r_Spec r) = Some (r_Spec r);
  cn_progress : clone_raw (r_Progress r) = Some (r_Progress r);
  cn_operations : Forall (fun o => cloneOperation o = Some o) (r_Operations r);
  cn_evidence : Forall (fun e => cloneEvidence e = Some e) (r_Evidence r);
  cn_result : forall x, r_Result r = Some x -> cloneResultJSON x = Some x
}.

Lemma is_ok_tt {E} (m : outcome E unit) : is_ok m = true <-> m = Ok tt.
Proof. destruct m as [[]|]; simpl; split; congruence. Qed.

Lemma cloneRecord_canonical r : cloneRecord r = Some r <-> canonical r.
Proof.
  unfold cloneRecord. split.
  - intros H. opt_inv H. case_match eqn:Ho; [|done]. apply is_ok_tt in Ho.
    destruct r; simpl in *. apply (inj Some) in H. injection H as -> -> -> -> ->.
    split; simpl; try done; try by apply mapM_opt_fixed.
    intros x ->. opt_inv Hx3. by simplify_eq.
  - intros []. rewrite cn_spec0, cn_progress0. cbn [mbind option_bind].
    rewrite (proj2 (mapM_opt_fixed _ _) cn_operations0), (proj2 (mapM_opt_fixed _ _) cn_evidence0).
    cbn [mbind option_bind]. rewrite cn_owner0. destruct r as [??????????????? [x|] ?]; simpl in *; [|done].
    by rewrite (cn_result0 x eq_refl).
Qed.

Lemma cloneRecord_idem r r' : cloneRecord r = Some r' -> cloneRecord r' = Some r'.
Proof.
  intros H. apply cloneRecord_canonical. unfold cloneRecord in H. opt_inv H.
  case_match eqn:Ho; [|done]. apply is_ok_tt in Ho. apply (inj Some) in H. subst r'.
  split; simpl; try done.
  - by eapply cloneTaskSpec_idem.
  - by eapply clone_raw_idem.
  - apply mapM_opt_fixed. eapply mapM_opt_idem; [apply cloneOperation_idem|done].
  - apply mapM_opt_fixed. eapply mapM_opt_idem; [apply cloneEvidence_idem|done].
  - intros y ->. destruct (r_Result r); [|done]. opt_inv Hx3. simplify_eq. by eapply cloneResultJSON_idem.
Qed.
