(* ===== verification/Records.v ===== *)
(** * [Record.Validate]: well-formedness of a task record

    The structural invariant the kernel re-checks on every load and before every
    write, as the code computes it, and [record_ok], the same invariant as a
    proposition, to which it is shown equivalent. *)

From S2P Require Export Wire.

Local Open Scope go_scope.

(** [evidenceSourceIdentity] and [completeEvidenceSourceIdentity] of evidence.go. *)
Abbreviation evidenceSourceIdentity := (string * string * string)%type.
Definition completeEvidenceSourceIdentity (s : SourceRef) : option evidenceSourceIdentity :=
  if ! requiredIdentity (src_EventID s) || ! requiredIdentity (src_TurnID s)
     || ! requiredIdentity (src_CallID s) then None
  else Some (src_EventID s, src_TurnID s, src_CallID s).

Fixpoint sources_distinct (seen : gset evidenceSourceIdentity) (l : list Evidence) : bool :=
  match l with
  | [] => true
  | e :: t =>
    match completeEvidenceSourceIdentity (ev_Source e) with
    | None => sources_distinct seen t
    | Some key => (! bool_decide (key ∈ seen)) && sources_distinct ({[key]} ∪ seen) t
    end
  end.
Definition recordEvidenceSourceIdentityValid (r : TaskRecord) : bool :=
  sources_distinct ∅ (r_Evidence r).

(** [recordHasUnappliedEvidence] of service.go. *)
Definition recordHasUnappliedEvidence (r : TaskRecord) : bool :=
  existsb (fun e => ! ev_Applied e) (r_Evidence r).

(** A loop that checks each element, refuses a repeated key and fills a map. *)
Fixpoint collect {A} (check : A -> outcome error unit) (key : A -> string)
    (l : list A) (seen : gmap string A) : outcome error (gmap string A) :=
  match l with
  | [] => Ok seen
  | x :: t =>
    _ ← check x;
    _ ← fail_if (bool_decide (is_Some (seen !! key x))) ErrInvalidTaskSpec;
    collect check key t (<[key x := x]> seen)
  end.

(** Body of the loop over [r.Operations]. *)
Definition check_operation (r : TaskRecord) (o : Operation) : outcome error unit :=
  _ ← Operation_Validate o;
  _ ← fail_if (! sameOwnerWorld (r_Owner r) (bd_World (op_Binding o))) ErrWorldMismatch;
  fail_if (r_Revision r <? op_StartRevision o)%N ErrInvalidTaskSpec.

(** Body of the loop over [r.Evidence]. *)
Definition check_evidence_operation (operations : gmap string Operation) (e : Evidence) :
    outcome error unit :=
  if ev_OperationID e == "" then fail_if (ev_RevalidatedIn e != None) ErrInvalidTaskSpec
  else
    match operations !! ev_OperationID e with
    | None => Err ErrInvalidTaskSpec
    | Some o =>
      _ ← fail_if ((op_Status o == OperationStatusNotSent)
                   || (ev_StartRevision e != op_StartRevision o)
                   || (ev_Binding e != op_Binding o)) ErrInvalidTaskSpec;
      match ev_RevalidatedIn e with
      | None => Ok tt
      | Some b =>
        let olderGeneration := (bd_RunID (ev_Binding e) == bd_RunID b)
          && (bd_Generation (ev_Binding e) <? bd_Generation b)%N in
        let uncertainActiveQuery := (op_Status o == OperationStatusUncertain) && (ev_Binding e == b) in
        fail_if (! olderGeneration && ! uncertainActiveQuery) ErrInvalidTaskSpec
      end
    end.

Definition check_evidence (r : TaskRecord) (operations : gmap string Operation) (e : Evidence) :
    outcome error unit :=
  _ ← Evidence_Validate e;
  _ ← fail_if (! sameOwnerWorld (r_Owner r) (bd_World (ev_Binding e))
               || match ev_RevalidatedIn e with
                  | Some b => ! sameOwnerWorld (r_Owner r) (bd_World b)
                  | None => false
                  end) ErrWorldMismatch;
  _ ← fail_if ((ev_TaskID e != r_ID r) || (r_Revision r <? ev_StartRevision e)%N) ErrInvalidTaskSpec;
  _ ← fail_if match ev_WaitUntil e with
              | Some t => (t <=? ev_OccurredAt e)%Z || (sp_DeadlineAt (r_Spec r) <? t)%Z
              | None => false
              end ErrInvalidTaskSpec;
  check_evidence_operation operations e.

(** The loop over [r.Result.EvidenceRefs]: does some reference carry the
    outcome? *)
Definition ref_matches (x : Result) (e : Evidence) : bool :=
  let matchesResultFact :=
    (ev_OccurredAt e =? rs_OccurredAt x)%Z && sourceRefsEqual (ev_Source e) (rs_Source x) in
  match rs_State x with
  | StateSucceeded => matchesResultFact && (ev_Kind e == EvidenceKindSatisfied)
  | StateFailed => matchesResultFact
      && ((ev_Kind e == EvidenceKindUnsatisfied) || (ev_Kind e == EvidenceKindInterrupted))
  | _ => false
  end.

Fixpoint check_refs (x : Result) (facts : gmap string Evidence) (refs : list string) (matched : bool) :
    outcome error bool :=
  match refs with
  | [] => Ok matched
  | ref :: t =>
    match facts !! ref with
    | None => Err ErrInvalidTaskSpec
    | Some e =>
      _ ← fail_if (! ev_Applied e) ErrInvalidTaskSpec;
      check_refs x facts t (matched || ref_matches x e)
    end
  end.

Definition check_result (r : TaskRecord) (facts : gmap string Evidence) (x : Result) :
    outcome error unit :=
  _ ← Result_Validate x;
  _ ← fail_if ((rs_TaskID x != r_ID r) || ! (rs_Revision x =? r_Revision r)%N
               || (rs_State x != r_State r)) ErrInvalidTaskSpec;
  matched ← check_refs x facts (default [] (rs_EvidenceRefs x)) false;
  fail_if (((rs_State x == StateSucceeded) || (rs_State x == StateFailed)) && ! matched)
    ErrInvalidTaskSpec.

Definition check_cleanup (operations : gmap string Operation) (c : Cleanup) : outcome error unit :=
  _ ← Cleanup_Validate c;
  fail_if (operations !! cl_OperationID c == None) ErrInvalidTaskSpec.

Definition Record_Validate (r : TaskRecord) : outcome error unit :=
  _ ← fail_if (! requiredIdentity (r_ID r)) ErrInvalidTaskSpec;
  _ ← validateOwner (r_Owner r);
  _ ← TaskSpec_Validate (r_Spec r);
  _ ← State_Validate (r_State r);
  _ ← ValidateDurableCounter (r_Revision r);
  _ ← fail_if ((r_CreatedAtGameTick r <? 0)%Z || (r_CreatedAtUnixMS r <? 0)%Z
               || ! validOptionalTick (r_NextWakeAt r) || ! validRawJSON (r_Progress r)
               || (r_NoProgressAttempts r <? 0)%Z || (r_ReconcileAttempts r <? 0)%Z)
        ErrInvalidTaskSpec;
  operations ← collect (check_operation r) op_ID (r_Operations r) ∅;
  facts ← collect (check_evidence r operations) ev_FactID (r_Evidence r) ∅;
  let hasUnappliedEvidence := recordHasUnappliedEvidence r in
  _ ← fail_if (hasUnappliedEvidence && ! r_NeedsReconcile r) ErrInvalidTaskSpec;
  _ ← fail_if (! recordEvidenceSourceIdentityValid r) ErrInvalidTaskSpec;
  let terminal := taskStateTerminal (r_State r) in
  _ ← fail_if (! Bool.eqb terminal (r_Result r != None)) ErrInvalidTaskSpec;
  _ ← fail_if (terminal && ((r_NextWakeAt r != None) || r_NeedsReconcile r || hasUnappliedEvidence))
        ErrInvalidTaskSpec;
  _ ← match r_Result r with Some x => check_result r facts x | None => Ok tt end;
  _ ← collect (check_cleanup operations) cl_OperationID (r_Cleanup r) ∅;
  Ok tt.

Definition ReconcileResult_Validate (x : ReconcileResult) : outcome error unit :=
  _ ← Record_Validate (rr_Task x);
  match rr_Next x with ReconcileNextOther _ => Err ErrInvalidTaskSpec | _ => Ok tt end.

(** ** The collecting loop *)
Lemma collect_ok {A} check key (l : list A) (seen m : gmap string A) :
  collect check key l seen = Ok m <->
  Forall (fun x => check x = Ok tt) l /\ NoDup (key <$> l)
  /\ (forall x, x ∈ l -> seen !! key x = None)
  /\ m = foldl (fun m x => <[key x := x]> m) seen l.
Proof.
  revert seen. induction l as [|x t IH]; intros seen.
  { simpl. split; [intros [= <-]; split_and!; [done|constructor|set_solver|done]|].
    by intros (_ & _ & _ & ->). }
  cbn [collect]. rewrite bind_ok. setoid_rewrite fail_if_bind.
  rewrite fmap_cons, Forall_cons, NoDup_cons. cbn [foldl].
  setoid_rewrite bool_decide_eq_false. setoid_rewrite IH. setoid_rewrite eq_None_not_Some. split.
  - intros ([] & Hc & Hn & HF & HN & Hd & ->). split_and!; try done.
    + intros Hx. apply list_elem_of_fmap in Hx as (y & He & Hy).
      apply (Hd y Hy). rewrite <- He, lookup_insert_eq. eauto.
    + intros y [->|Hy]%elem_of_cons; [done|]. specialize (Hd y Hy).
      destruct (decide (key x = key y)) as [He|He]; [by rewrite <- He|].
      by rewrite lookup_insert_ne in Hd.
  - intros ((Hc & HF) & (Hx & HN) & Hd & ->). exists tt. split_and!; try done.
    + apply Hd. by left.
    + intros y Hy. rewrite lookup_insert_ne; [apply Hd; by right|].
      intros He. apply Hx. rewrite He. by apply list_elem_of_fmap_2.
Qed.

Lemma foldl_insert_lookup {A} (key : A -> string) (l : list A) (seen : gmap string A) k x :
  NoDup (key <$> l) -> (forall y, y ∈ l -> seen !! key y = None) ->
  foldl (fun m x => <[key x := x]> m) seen l !! k = Some x <->
  seen !! k = Some x \/ (x ∈ l /\ key x = k).
Proof.
  revert seen. induction l as [|y t IH]; intros seen HN Hd; [set_solver|].
  cbn [foldl]. rewrite fmap_cons, NoDup_cons in HN. destruct HN as [Hy HN].
  rewrite IH; [|done|].
  - rewrite elem_of_cons. destruct (decide (key y = k)) as [<-|Hne].
    + rewrite lookup_insert_eq, (Hd y) by (by left). naive_solver.
    + rewrite lookup_insert_ne by done. naive_solver.
  - intros z Hz. rewrite lookup_insert_ne; [apply Hd; by right|].
    intros He. apply Hy. rewrite He. by apply list_elem_of_fmap_2.
Qed.

Lemma collect_empty_ok {A} check key (l : list A) (m : gmap string A) :
  collect check key l ∅ = Ok m ->
  Forall (fun x => check x = Ok tt) l /\ NoDup (key <$> l)
  /\ (forall k x, m !! k = Some x <-> x ∈ l /\ key x = k).
Proof.
  intros (HF & HN & _ & ->)%collect_ok. split_and!; try done. intros k x.
  rewrite foldl_insert_lookup; [|done|set_solver]. rewrite lookup_empty. naive_solver.
Qed.

(** A key occurs in a collected table exactly when an element carries it. *)
Lemma find_key_lookup {A} check (key : A -> string) l (m : gmap string A) k :
  collect check key l ∅ = Ok m -> m !! k = find (fun x => bool_decide (key x = k)) l.
Proof.
  intros (_ & HN & HL)%collect_empty_ok.
  destruct (find _ l) as [x|] eqn:Hf.
  - apply find_some in Hf as [Hx Hk]. boolp. apply HL. split; [by apply list_elem_of_In|done].
  - apply eq_None_not_Some. intros [x Hx]. apply HL in Hx as [Hx Hk].
    apply list_elem_of_In in Hx. pose proof (find_none _ _ Hf x Hx) as Hn. by boolp.
Qed.

(** ** The invariant as a proposition *)
Definition evidence_operation_ok (r : TaskRecord) (e : Evidence) : Prop :=
  if decide (ev_OperationID e = "") then ev_RevalidatedIn e = None
  else exists o, o ∈ r_Operations r /\ op_ID o = ev_OperationID e
    /\ op_Status o <> OperationStatusNotSent
    /\ ev_StartRevision e = op_StartRevision o /\ ev_Binding e = op_Binding o
    /\ (forall b, ev_RevalidatedIn e = Some b ->
         (bd_RunID (ev_Binding e) = bd_RunID b /\ (bd_Generation (ev_Binding e) < bd_Generation b)%N)
         \/ (op_Status o = OperationStatusUncertain /\ ev_Binding e = b)).

Record evidence_ok (r : TaskRecord) (e : Evidence) : Prop := {
  eo_valid : Evidence_Validate e = Ok tt;
  eo_world : sameOwnerWorld (r_Owner r) (bd_World (ev_Binding e)) = true;
  eo_world' : forall b, ev_RevalidatedIn e = Some b -> sameOwnerWorld (r_Owner r) (bd_World b) = true;
  eo_task : ev_TaskID e = r_ID r;
  eo_revision : (ev_StartRevision e <= r_Revision r)%N;
  eo_wait : forall t, ev_WaitUntil e = Some t -> (ev_OccurredAt e < t <= sp_DeadlineAt (r_Spec r))%Z;
  eo_operation : evidence_operation_ok r e
}.

Record operation_ok (r : TaskRecord) (o : Operation) : Prop := {
  oo_valid : Operation_Validate o = Ok tt;
  oo_world : sameOwnerWorld (r_Owner r) (bd_World (op_Binding o)) = true;
  oo_revision : (op_StartRevision o <= r_Revision r)%N
}.

(** The outcome names applied facts of this record, and success or failure is
    carried by one of them. *)
Record result_ok (r : TaskRecord) (x : Result) : Prop := {
  ro_valid : Result_Validate x = Ok tt;
  ro_task : rs_TaskID x = r_ID r;
  ro_revision : rs_Revision x = r_Revision r;
  ro_state : rs_State x = r_State r;
  ro_refs : forall f, f ∈ default [] (rs_EvidenceRefs x) ->
    exists e, e ∈ r_Evidence r /\ ev_FactID e = f /\ ev_Applied e = true;
  ro_proof : rs_State x = StateSucceeded \/ rs_State x = StateFailed ->
    exists e, e ∈ r_Evidence r /\ ev_FactID e ∈ default [] (rs_EvidenceRefs x) /\ ref_matches x e = true
}.

Record record_ok (r : TaskRecord) : Prop := {
  rk_id : requiredIdentity (r_ID r) = true;
  rk_owner : validateOwner (r_Owner r) = Ok tt;
  rk_spec : TaskSpec_Validate (r_Spec r) = Ok tt;
  rk_state : State_Valid (r_State r) = true;
  rk_revision : (1 <= r_Revision r <= MaxInt64N)%N;
  rk_created : (0 <= r_CreatedAtGameTick r)%Z /\ (0 <= r_CreatedAtUnixMS r)%Z;
  rk_next : validOptionalTick (r_NextWakeAt r) = true;
  rk_progress : validRawJSON (r_Progress r) = true;
  rk_attempts : (0 <= r_NoProgressAttempts r)%Z /\ (0 <= r_ReconcileAttempts r)%Z;
  rk_operations : forall o, o ∈ r_Operations r -> operation_ok r o;
  rk_operation_ids : NoDup (op_ID <$> r_Operations r);
  rk_evidence : forall e, e ∈ r_Evidence r -> evidence_ok r e;
  rk_fact_ids : NoDup (ev_FactID <$> r_Evidence r);
  rk_sources : NoDup (omap completeEvidenceSourceIdentity (ev_Source <$> r_Evidence r));
  rk_unapplied : forall e, e ∈ r_Evidence r -> ev_Applied e = false -> r_NeedsReconcile r = true;
  rk_terminal : taskStateTerminal (r_State r) = true <-> is_Some (r_Result r);
  rk_quiet : taskStateTerminal (r_State r) = true -> r_NextWakeAt r = None /\ r_NeedsReconcile r = false;
  rk_result : forall x, r_Result r = Some x -> result_ok r x;
  rk_cleanups : forall c, c ∈ r_Cleanup r -> Cleanup_Validate c = Ok tt
    /\ cl_OperationID c ∈ (op_ID <$> r_Operations r);
  rk_cleanup_ids : NoDup (cl_OperationID <$> r_Cleanup r)
}.

Lemma sources_distinct_ok seen l :
  sources_distinct seen l = true <->
  NoDup (omap completeEvidenceSourceIdentity (ev_Source <$> l))
  /\ (forall k, k ∈ omap completeEvidenceSourceIdentity (ev_Source <$> l) -> k ∉ seen).
Proof.
  revert seen. induction l as [|e l IH]; intros seen.
  { split; [|done]. intros _. split; [constructor|]. cbn. set_solver. }
  cbn [sources_distinct fmap list_fmap omap list_omap].
  destruct (completeEvidenceSourceIdentity (ev_Source e)) as [k|]; [|apply IH].
  rewrite andb_true_iff, negb_true_iff, bool_decide_eq_false, IH.
  change (omap completeEvidenceSourceIdentity (ev_Source <$> l)) with
    (list_omap _ _ completeEvidenceSourceIdentity (ev_Source <$> l)).
  rewrite NoDup_cons. set_solver.
Qed.

Lemma recordHasUnappliedEvidence_true r :
  recordHasUnappliedEvidence r = true <-> exists e, e ∈ r_Evidence r /\ ev_Applied e = false.
Proof.
  unfold recordHasUnappliedEvidence. rewrite existsb_exists. split; intros (e & He & Ha); exists e.
  - rewrite list_elem_of_In. by boolp.
  - rewrite <- list_elem_of_In. by rewrite Ha.
Qed.

Lemma recordHasUnappliedEvidence_false r :
  recordHasUnappliedEvidence r = false <-> forall e, e ∈ r_Evidence r -> ev_Applied e = true.
Proof.
  rewrite <- not_true_iff_false, recordHasUnappliedEvidence_true. split.
  - intros H e He. destruct (ev_Applied e) eqn:Ha; [done|]. destruct H. eauto.
  - intros H (e & He & Ha). rewrite H in Ha; done.
Qed.

Lemma check_operation_ok r o : check_operation r o = Ok tt <-> operation_ok r o.
Proof.
  unfold check_operation. split.
  - intros H. okinv H. destruct v. boolp. by split.
  - intros [H1 H2 H3]. rewrite H1, H2. simpl. apply N.ltb_ge in H3. by rewrite H3.
Qed.

Lemma check_evidence_operation_ok r m e :
  (forall k o, m !! k = Some o <-> o ∈ r_Operations r /\ op_ID o = k) ->
  check_evidence_operation m e = Ok tt <-> evidence_operation_ok r e.
Proof.
  intros Hm. unfold check_evidence_operation, evidence_operation_ok.
  destruct (decide (ev_OperationID e = "")) as [He|He].
  { rewrite (bool_decide_true _ He), fail_if_ok, negb_false_iff. apply bool_decide_eq_true. }
  rewrite bool_decide_false by done.
  destruct (m !! ev_OperationID e) as [o|] eqn:Hl.
  - apply Hm in Hl as [Ho Hk]. rewrite fail_if_bind, !orb_false_iff, !negb_false_iff,
      !bool_decide_eq_true, bool_decide_eq_false. split.
    + intros [[[Hns Hs] Hb] H]. exists o. split_and!; try done. intros b Hr. rewrite Hr in H.
      apply fail_if_ok in H. rewrite <- negb_orb, negb_false_iff, orb_true_iff in H. by boolp.
    + intros (o' & Ho' & Hk' & Hns & Hs & Hb & Hr).
      assert (o' = o) as ->.
      { assert (m !! ev_OperationID e = Some o) as H1 by (apply Hm; done).
        assert (m !! ev_OperationID e = Some o') as H2 by (apply Hm; done). congruence. }
      split_and!; try done. destruct (ev_RevalidatedIn e) as [b|]; [|done].
      rewrite fail_if_ok, <- negb_orb, negb_false_iff, orb_true_iff, !andb_true_iff, !bool_decide_eq_true, N.ltb_lt.
      by apply Hr.
  - split; [done|]. intros (o & Ho & Hk & _).
    assert (m !! ev_OperationID e = Some o) by (by apply Hm). congruence.
Qed.

Lemma check_evidence_ok r m e :
  (forall k o, m !! k = Some o <-> o ∈ r_Operations r /\ op_ID o = k) ->
  check_evidence r m e = Ok tt <-> evidence_ok r e.
Proof.
  intros Hm. unfold check_evidence. split.
  - intros H. okinv H. destruct v. apply (check_evidence_operation_ok r) in H; [|done]. boolp.
    destruct Hg as [Hw Hw']. destruct Hg0. split; try done.
    + intros b Hb. rewrite Hb in Hw'. by boolp.
    + intros t Ht. rewrite Ht in Hg1. boolp. lia.
  - intros [H1 H2 H3 H4 H5 H6 H7]. rewrite H1. cbn [mbind outcome_bind]. rewrite H2.
    rewrite !fail_if_bind, !orb_false_iff. split_and!; try done.
    + destruct (ev_RevalidatedIn e) as [b|] eqn:Hb; [|done]. by rewrite (H3 b).
    + by rewrite bool_decide_true.
    + by apply N.ltb_ge.
    + destruct (ev_WaitUntil e) as [t|] eqn:Ht; [|done]. specialize (H6 t eq_refl).
      apply orb_false_iff. split; [apply Z.leb_gt|apply Z.ltb_ge]; lia.
    + by apply (check_evidence_operation_ok r).
Qed.

Lemma check_refs_ok x (facts : gmap string Evidence) refs b b' :
  check_refs x facts refs b = Ok b' <->
  (forall f, f ∈ refs -> exists e, facts !! f = Some e /\ ev_Applied e = true)
  /\ b' = b || existsb (fun f => match facts !! f with Some e => ref_matches x e | None => false end) refs.
Proof.
  revert b. induction refs as [|f refs IH]; intros b; cbn [check_refs existsb].
  { rewrite orb_false_r. split; [|by intros [_ ->]]. intros [= ->]. split; [set_solver|done]. }
  destruct (facts !! f) as [e|] eqn:Hf.
  - rewrite fail_if_bind, negb_false_iff, IH, orb_assoc. split.
    + intros (Ha & H & ->). split; [|done]. intros g [->|Hg]%elem_of_cons; eauto.
    + intros [H ->]. destruct (H f) as (e' & He' & Ha); [by left|]. split_and!; [congruence| |done].
      intros g Hg. apply H. by right.
  - split; [done|]. intros [H _]. destruct (H f) as (e & He & _); [by left|]. congruence.
Qed.

#[local] Opaque Result_Validate.
Lemma check_result_ok r (m : gmap string Evidence) x :
  (forall k e, m !! k = Some e <-> e ∈ r_Evidence r /\ ev_FactID e = k) ->
  check_result r m x = Ok tt <-> result_ok r x.
Proof.
  intros Hm. unfold check_result. rewrite bind_ok. setoid_rewrite fail_if_bind. setoid_rewrite bind_ok.
  setoid_rewrite check_refs_ok. setoid_rewrite fail_if_ok. cbn [orb].
  assert (forall refs, existsb (fun f => match m !! f with Some e => ref_matches x e | None => false end) refs = true
    <-> exists e, e ∈ r_Evidence r /\ ev_FactID e ∈ refs /\ ref_matches x e = true) as Hex.
  { intros refs. rewrite existsb_exists. split.
    - intros (f & Hf & H). destruct (m !! f) as [e|] eqn:He; [|done].
      apply Hm in He as [He <-]. exists e. apply list_elem_of_In in Hf. done.
    - intros (e & He & Hf & H). exists (ev_FactID e). split; [by apply list_elem_of_In|].
      by rewrite (proj2 (Hm (ev_FactID e) e)). }
  split.
  - intros ([] & Hv & Hg & b & [Hr ->] & Hp). boolp. destruct Hg as [[Ht Hn] Hs].
    apply N.eqb_eq in Hn. split; try done.
    + intros f Hf. destruct (Hr f Hf) as (e & He & Ha). apply Hm in He as [He <-]. eauto.
    + intros Hst. apply Hex. destruct Hp as [Hp|Hp]; [|done]. boolp. naive_solver.
  - intros [Hv Ht Hn Hs Hr Hp]. exists tt. split; [done|]. rewrite Ht, Hn, Hs, N.eqb_refl, !bool_decide_true by done.
    split; [done|]. eexists. split; [split; [|done]|].
    + intros f Hf. destruct (Hr f Hf) as (e & He & <- & Ha). exists e. split; [by apply Hm|done].
    + rewrite andb_false_iff, negb_false_iff, Hex, <- Hs, orb_false_iff, !bool_decide_eq_false.
      destruct (decide (rs_State x = StateSucceeded)); [tauto|].
      destruct (decide (rs_State x = StateFailed)); tauto.
Qed.

#[local] Opaque TaskSpec_Validate validateOwner.

Lemma not_eqb_option {A} `{EqDecision A} b (o : option A) :
  ! Bool.eqb b (o != None) = false <-> (b = true <-> is_Some o).
Proof.
  rewrite negb_false_iff, eqb_true_iff, is_Some_alt.
  destruct o; [rewrite bool_decide_false by done|rewrite bool_decide_true by done];
    destruct b; simpl; naive_solver.
Qed.

Lemma ValidateDurableCounter_ok n : ValidateDurableCounter n = Ok tt <-> (1 <= n <= MaxInt64N)%N.
Proof.
  unfold ValidateDurableCounter. rewrite fail_if_ok, orb_false_iff, N.eqb_neq, N.ltb_ge. lia.
Qed.

Lemma unit_ok {E} (m : outcome E unit) u : m = Ok u -> m = Ok tt.
Proof. by destruct u. Qed.

Lemma check_cleanup_ok r (m : gmap string Operation) c :
  (forall k o, m !! k = Some o <-> o ∈ r_Operations r /\ op_ID o = k) ->
  check_cleanup m c = Ok tt <->
  Cleanup_Validate c = Ok tt /\ cl_OperationID c ∈ (op_ID <$> r_Operations r).
Proof.
  intros Hm. unfold check_cleanup. rewrite bind_ok, list_elem_of_fmap.
  setoid_rewrite fail_if_ok. setoid_rewrite bool_decide_eq_false. split.
  - intros ([] & Hv & Hn). split; [done|]. destruct (m !! cl_OperationID c) as [o|] eqn:Ho; [|done].
    apply Hm in Ho as [Ho <-]. eauto.
  - intros (Hv & o & Ho & Hin). exists tt. split; [done|].
    by rewrite (proj2 (Hm (cl_OperationID c) o)).
Qed.

(** The tables the loops of [Record_Validate] fill. *)
Lemma collect_table {A} check (P : A -> Prop) key (l : list A) (m : gmap string A) :
  (forall x, check x = Ok tt <-> P x) ->
  collect check key l ∅ = Ok m ->
  (forall x, x ∈ l -> P x) /\ NoDup (key <$> l) /\ (forall k x, m !! k = Some x <-> x ∈ l /\ key x = k).
Proof.
  intros HP (HF & HN & HL)%collect_empty_ok. split_and!; try done.
  rewrite Forall_forall in HF. intros x Hx. by apply HP, HF.
Qed.

Lemma collect_total {A} check (P : A -> Prop) key (l : list A) :
  (forall x, check x = Ok tt <-> P x) ->
  (forall x, x ∈ l -> P x) -> NoDup (key <$> l) -> exists m : gmap string A, collect check key l ∅ = Ok m.
Proof.
  intros HP HF HN. eexists. apply collect_ok. split_and!; [|done|set_solver|done].
  apply Forall_forall. intros x Hx. by apply HP, HF.
Qed.

(** Validation accepts exactly the well-formed records. *)
Lemma Record_Validate_sound r : Record_Validate r = Ok tt -> record_ok r.
Proof.
  unfold Record_Validate. intros H. okinv H.
  apply (collect_table _ (operation_ok r)) in Hv3 as (Ho & Hoid & Hom); [|apply check_operation_ok].
  apply (collect_table _ (evidence_ok r)) in Hv4 as (He & Heid & Hem);
    [|intros; by apply check_evidence_ok].
  apply (collect_table _ (fun c => Cleanup_Validate c = Ok tt /\ cl_OperationID c ∈ (op_ID <$> r_Operations r)))
    in Hv6 as (Hc & Hcid & _); [|intros; by apply check_cleanup_ok].
  apply not_eqb_option in Hg3.
  apply unit_ok in Hv, Hv0, Hv1, Hv2. apply ValidateDurableCounter_ok in Hv2.
  apply fail_if_ok in Hv1. apply negb_false_iff in Hg2, Hv1, Hg.
  apply sources_distinct_ok in Hg2 as [Hsrc _].
  rewrite !orb_false_iff, !negb_false_iff, !Z.ltb_ge in Hg0.
  rewrite andb_false_iff, recordHasUnappliedEvidence_false, negb_false_iff in Hg1.
  rewrite andb_false_iff, !orb_false_iff, negb_false_iff, bool_decide_eq_true in Hg4.
  split; try done; try tauto.
  - intros e Hin Ha. destruct Hg1 as [Hg1|Hg1]; [|done]. by rewrite Hg1 in Ha.
  - intros Ht. destruct Hg4 as [Hg4|Hg4]; [congruence|tauto].
  - intros x Hx. rewrite Hx in Hv5. apply unit_ok in Hv5. by apply (check_result_ok r v4).
Qed.

Lemma Record_Validate_complete r : record_ok r -> Record_Validate r = Ok tt.
Proof.
  intros [].
  destruct (collect_total (check_operation r) (operation_ok r) op_ID (r_Operations r))
    as [om Hom]; [apply check_operation_ok|done|done|].
  pose proof (collect_empty_ok _ _ _ _ Hom) as (_ & _ & Hol).
  destruct (collect_total (check_evidence r om) (evidence_ok r) ev_FactID (r_Evidence r))
    as [em Hem]; [intros; by apply check_evidence_ok|done|done|].
  pose proof (collect_empty_ok _ _ _ _ Hem) as (_ & _ & Hel).
  destruct (collect_total (check_cleanup om) (fun c => Cleanup_Validate c = Ok tt
    /\ cl_OperationID c ∈ (op_ID <$> r_Operations r)) cl_OperationID (r_Cleanup r))
    as [cm Hcm]; [intros; by apply check_cleanup_ok|done|done|].
  unfold Record_Validate, State_Validate. rewrite rk_id0, rk_owner0, rk_spec0, rk_state0.
  rewrite (proj2 (ValidateDurableCounter_ok _) rk_revision0). cbn [mbind outcome_bind fail_if negb].
  apply fail_if_bind. split.
  { destruct rk_created0, rk_attempts0. rewrite !orb_false_iff, !negb_false_iff, !Z.ltb_ge. tauto. }
  rewrite Hom. cbn [mbind outcome_bind]. rewrite Hem. cbn [mbind outcome_bind].
  assert (r_NeedsReconcile r = true \/ recordHasUnappliedEvidence r = false) as Hun.
  { destruct (recordHasUnappliedEvidence r) eqn:Hu; [left|tauto].
    apply recordHasUnappliedEvidence_true in Hu as (e & He & Ha). eauto. }
  apply fail_if_bind. split.
  { apply andb_false_iff. rewrite negb_false_iff. tauto. }
  apply fail_if_bind. split.
  { apply negb_false_iff, sources_distinct_ok. split; [done|set_solver]. }
  apply fail_if_bind. split; [by apply not_eqb_option|].
  apply fail_if_bind. split.
  { destruct (taskStateTerminal (r_State r)); [|done]. destruct rk_quiet0 as [Hn Hr]; [done|].
    rewrite Hn, Hr. destruct Hun as [Hun|Hun]; [congruence|by rewrite Hun]. }
  apply bind_ok. exists tt. split.
  { destruct (r_Result r) as [x|]; [|done]. apply (check_result_ok r em); auto. }
  rewrite Hcm. done.
Qed.

Lemma Record_Validate_ok r : Record_Validate r = Ok tt <-> record_ok r.
Proof. split; [apply Record_Validate_sound|apply Record_Validate_complete]. Qed.
