(* ===== verification/Reconciling.v ===== *)
(** * Evidence selection and the reconciled record: the pure part of [reconcile.go]

    Which pending fact decides a task, and the record that applying the pending
    facts produces.  The same derivation serves admission (capacity projection)
    and execution. *)

From S2P Require Export Records.

Local Open Scope go_scope.

Definition pendingEvidence (r : TaskRecord) : list Evidence :=
  List.filter (fun e => ! ev_Applied e) (r_Evidence r).

Definition terminalKindPriority (k : EvidenceKind) : Z :=
  match k with
  | EvidenceKindSatisfied => 0
  | EvidenceKindUnsatisfied => 1
  | EvidenceKindInterrupted => 2
  | _ => 3
  end.

Definition terminalResultState (k : EvidenceKind) : State :=
  if k == EvidenceKindSatisfied then StateSucceeded else StateFailed.

Definition is_terminal_kind (k : EvidenceKind) : bool :=
  match k with
  | EvidenceKindSatisfied | EvidenceKindUnsatisfied | EvidenceKindInterrupted => true
  | _ => false
  end.

Definition by_fact_id (a b : Evidence) : bool := str_lt (ev_FactID a) (ev_FactID b).
Definition terminal_less : Evidence -> Evidence -> bool :=
  then_by Z.ltb ev_OccurredAt (then_by Z.ltb (fun e => terminalKindPriority (ev_Kind e)) by_fact_id).
Definition wait_less : Evidence -> Evidence -> bool :=
  then_by Z.ltb (fun e => default 0%Z (ev_WaitUntil e)) (then_by Z.ltb ev_OccurredAt by_fact_id).
Definition progress_less : Evidence -> Evidence -> bool :=
  then_by Z.gtb ev_OccurredAt by_fact_id.

Definition is_wait (e : Evidence) : bool := (ev_Kind e == EvidenceKindProgress) && (ev_WaitUntil e != None).
Definition is_progress (e : Evidence) : bool := (ev_Kind e == EvidenceKindProgress) && (ev_Details e != "").

Definition selectTerminalEvidence (pending : list Evidence) : option Evidence :=
  least terminal_less (List.filter (fun e => is_terminal_kind (ev_Kind e)) pending).
Definition selectWaitEvidence (pending : list Evidence) : option Evidence :=
  least wait_less (List.filter is_wait pending).
Definition selectProgressEvidence (pending : list Evidence) : option Evidence :=
  least progress_less (List.filter is_progress pending).

(** The fields [reconciledRecord] assigns before it looks at the pending facts. *)
Definition settled_record (nextRevision : N) (r : TaskRecord) : TaskRecord :=
  set_Result None (set_NextWakeAt None (set_ReconcileAttempts 0 (set_NoProgressAttempts 0
    (set_PauseReason "" (set_NeedsReconcile false
      (set_Evidence (set_ev_Applied true <$> r_Evidence r) (set_Revision nextRevision r))))))).

Definition terminal_result (resultID : string) (r : TaskRecord) (terminal : Evidence) : Result :=
  {| rs_ID := resultID; rs_TaskID := r_ID r; rs_Revision := r_Revision r;
     rs_State := terminalResultState (ev_Kind terminal);
     rs_Reason := EvidenceKind_string (ev_Kind terminal); rs_OccurredAt := ev_OccurredAt terminal;
     rs_EvidenceRefs := Some [ev_FactID terminal]; rs_Source := ev_Source terminal |}.

Definition reconciledRecord (r : TaskRecord) (pending : list Evidence) (resultID : string) :
    outcome error TaskRecord :=
  nextRevision ← NextDurableCounter (r_Revision r);
  let updated := settled_record nextRevision r in
  match selectTerminalEvidence pending with
  | Some terminal =>
    Ok (set_Result (Some (terminal_result resultID updated terminal))
          (set_State (terminalResultState (ev_Kind terminal)) updated))
  | None =>
    let updated := match selectWaitEvidence pending with
                   | Some wait => set_NextWakeAt (ev_WaitUntil wait) (set_State StateWaiting updated)
                   | None => set_State StateRunning updated
                   end in
    Ok match selectProgressEvidence pending with
       | Some progress => set_Progress (ev_Details progress) updated
       | None => updated
       end
  end.

Definition isFutureEvidenceWaitRetry (r : TaskRecord) (exec : ExecutionContext) : bool :=
  match r_NextWakeAt r with
  | None => false
  | Some next =>
    if (r_State r != StateWaiting) || (next <=? ck_Tick (ex_Clock exec))%Z
       || ! (r_Revision r =? wrap_u64 (ex_ExpectedRevision exec + 1))%N || r_NeedsReconcile r then false
    else existsb (fun e => ev_Applied e && (ev_Kind e == EvidenceKindProgress)
                           && (ev_WaitUntil e == Some next)) (r_Evidence r)
  end.

(** [None] is the zero [ReconcileResult]. *)
Definition routeReconcileWithoutPending (r : TaskRecord) (exec : ExecutionContext) : option ReconcileResult :=
  if taskStateTerminal (r_State r) then Some {| rr_Task := r; rr_Next := ReconcileNextSettled |}
  else if ! (r_Revision r =? ex_ExpectedRevision exec)%N then
    if isFutureEvidenceWaitRetry r exec then Some {| rr_Task := r; rr_Next := ReconcileNextSettled |}
    else None
  else if (sp_DeadlineAt (r_Spec r) <=? ck_Tick (ex_Clock exec))%Z || r_NeedsReconcile r then
    Some {| rr_Task := r; rr_Next := ReconcileNextObserve |}
  else if r_State r == StateRunning then Some {| rr_Task := r; rr_Next := ReconcileNextDecide |}
  else Some {| rr_Task := r; rr_Next := ReconcileNextSettled |}.

(** ** Selection is deterministic *)
Lemma by_fact_id_total l : NoDup (ev_FactID <$> l) -> strict_total_on by_fact_id l.
Proof. apply (strict_total_on_key ev_FactID). Qed.

Lemma terminal_less_total l : NoDup (ev_FactID <$> l) -> strict_total_on terminal_less l.
Proof. intros. do 2 (apply strict_total_on_then_by; [by left|]). by apply by_fact_id_total. Qed.
Lemma wait_less_total l : NoDup (ev_FactID <$> l) -> strict_total_on wait_less l.
Proof. intros. do 2 (apply strict_total_on_then_by; [by left|]). by apply by_fact_id_total. Qed.
Lemma progress_less_total l : NoDup (ev_FactID <$> l) -> strict_total_on progress_less l.
Proof. intros. apply strict_total_on_then_by; [by right|]. by apply by_fact_id_total. Qed.

Lemma elem_of_bfilter {A} (f : A -> bool) l x : x ∈ List.filter f l <-> x ∈ l /\ f x = true.
Proof. rewrite !list_elem_of_In. apply filter_In. Qed.

Lemma NoDup_bfilter {A} (key : A -> string) (f : A -> bool) l :
  NoDup (key <$> l) -> NoDup (key <$> List.filter f l).
Proof.
  induction l as [|x l IH]; [done|]. rewrite fmap_cons, NoDup_cons. intros [Hx HN]. simpl.
  destruct (f x); [|auto]. rewrite fmap_cons, NoDup_cons. split; [|auto].
  intros (y & Hy & Hin)%list_elem_of_fmap. apply Hx. apply elem_of_bfilter in Hin as [Hin _].
  rewrite Hy. by apply list_elem_of_fmap_2.
Qed.

Lemma bfilter_perm {A} (f : A -> bool) l l' : l ≡ₚ l' -> List.filter f l ≡ₚ List.filter f l'.
Proof.
  induction 1; simpl; repeat case_match; try constructor; try done. by etrans.
Qed.

Lemma least_bfilter_perm less (f : Evidence -> bool) l l' :
  (forall l, NoDup (ev_FactID <$> l) -> strict_total_on less l) ->
  NoDup (ev_FactID <$> l) -> l ≡ₚ l' ->
  least less (List.filter f l) = least less (List.filter f l').
Proof.
  intros HT HN P. apply least_perm.
  - by apply HT, NoDup_bfilter.
  - by eapply NoDup_fmap_1, NoDup_bfilter.
  - by apply bfilter_perm.
Qed.

Lemma pendingEvidence_elem r e : e ∈ pendingEvidence r <-> e ∈ r_Evidence r /\ ev_Applied e = false.
Proof. unfold pendingEvidence. by rewrite elem_of_bfilter, negb_true_iff. Qed.

Lemma pendingEvidence_nil r : pendingEvidence r = [] <-> recordHasUnappliedEvidence r = false.
Proof.
  rewrite recordHasUnappliedEvidence_false. split.
  - intros H e He. destruct (ev_Applied e) eqn:Ha; [done|].
    assert (e ∈ pendingEvidence r) as Hp by (by apply pendingEvidence_elem).
    rewrite H in Hp. by apply not_elem_of_nil in Hp.
  - intros H. destruct (pendingEvidence r) as [|e l] eqn:He; [done|].
    assert (e ∈ pendingEvidence r) as Hp by (rewrite He; by left).
    apply pendingEvidence_elem in Hp as [Hp Ha]. rewrite H in Ha; done.
Qed.

(** ** The reconciled record is well formed *)
Lemma clone_raw_some raw : validRawJSON raw = true <-> is_Some (clone_raw raw).
Proof.
  unfold validRawJSON, clone_raw. case_bool_decide; simpl; [naive_solver|].
  by rewrite json_compact_valid.
Qed.

Lemma raw_field_some name raw : validRawJSON raw = true <-> is_Some (raw_field name raw).
Proof.
  unfold validRawJSON, raw_field. case_bool_decide; simpl; [naive_solver|].
  rewrite <- json_compact_valid. destruct (json_compact raw); simpl; naive_solver.
Qed.

Lemma marshalSourceRef_some s : SourceRef_Validate s = Ok tt -> is_Some (marshalSourceRef s).
Proof.
  unfold SourceRef_Validate, marshalSourceRef. intros H. okinv H.
  rewrite orb_false_iff, !negb_false_iff in H. destruct H as [H1 H2].
  apply (raw_field_some "game_time") in H1 as [g ->]. apply (raw_field_some "facts") in H2 as [f ->].
  simpl. eauto.
Qed.

Lemma sourceRefsEqual_refl s : SourceRef_Validate s = Ok tt -> sourceRefsEqual s s = true.
Proof. intros. by apply json_texts_equal_refl, marshalSourceRef_some. Qed.

Lemma NextDurableCounter_ok n m :
  NextDurableCounter n = Ok m <-> (n < MaxInt64N)%N /\ m = (n + 1)%N.
Proof. unfold NextDurableCounter. case_match; boolp; naive_solver lia. Qed.

Lemma Evidence_Validate_source e : Evidence_Validate e = Ok tt -> SourceRef_Validate (ev_Source e) = Ok tt.
Proof. unfold Evidence_Validate. intros H. okinv H. by eapply unit_ok. Qed.

Lemma Evidence_Validate_scalars e : Evidence_Validate e = Ok tt ->
  requiredIdentity (ev_FactID e) = true /\ (0 <= ev_OccurredAt e)%Z
  /\ validOptionalTick (ev_WaitUntil e) = true /\ validRawJSON (ev_Details e) = true.
Proof. unfold Evidence_Validate. intros H. okinv H. boolp. tauto. Qed.

Lemma set_ev_Applied_validate b e : Evidence_Validate (set_ev_Applied b e) = Evidence_Validate e.
Proof. done. Qed.

Lemma selectTerminalEvidence_some pending e :
  selectTerminalEvidence pending = Some e -> e ∈ pending /\ is_terminal_kind (ev_Kind e) = true.
Proof. intros H%least_elem. by apply elem_of_bfilter in H. Qed.
Lemma selectTerminalEvidence_none pending :
  selectTerminalEvidence pending = None <-> forall e, e ∈ pending -> is_terminal_kind (ev_Kind e) = false.
Proof.
  unfold selectTerminalEvidence. rewrite least_none. split.
  - intros H e He. apply not_true_iff_false. intros Hk.
    assert (e ∈ List.filter (fun e => is_terminal_kind (ev_Kind e)) pending) as Hin by (by apply elem_of_bfilter).
    rewrite H in Hin. by apply not_elem_of_nil in Hin.
  - intros H. destruct (List.filter _ pending) as [|e l] eqn:Hf; [done|].
    assert (e ∈ List.filter (fun e => is_terminal_kind (ev_Kind e)) pending) as Hin by (rewrite Hf; by left).
    apply elem_of_bfilter in Hin as [Hin Hk]. rewrite H in Hk; done.
Qed.
Lemma selectWaitEvidence_some pending e :
  selectWaitEvidence pending = Some e -> e ∈ pending /\ ev_Kind e = EvidenceKindProgress /\ is_Some (ev_WaitUntil e).
Proof.
  intros H%least_elem. apply elem_of_bfilter in H as [H1 H2]. unfold is_wait in H2. boolp.
  split_and!; try tauto. apply not_eq_None_Some. tauto.
Qed.
Lemma selectProgressEvidence_some pending e :
  selectProgressEvidence pending = Some e -> e ∈ pending /\ ev_Kind e = EvidenceKindProgress /\ ev_Details e <> "".
Proof. intros H%least_elem. apply elem_of_bfilter in H as [H1 H2]. unfold is_progress in H2. by boolp. Qed.

(** Applying every fact and moving the revision keeps the lists well formed. *)
Lemma operation_ok_mono r r' o :
  r_Owner r' = r_Owner r -> (r_Revision r <= r_Revision r')%N -> operation_ok r o -> operation_ok r' o.
Proof. intros Ho Hr []. split; [done|by rewrite Ho|lia]. Qed.

Lemma evidence_ok_mono r r' e b :
  r_Owner r' = r_Owner r -> r_ID r' = r_ID r -> r_Spec r' = r_Spec r ->
  r_Operations r' = r_Operations r -> (r_Revision r <= r_Revision r')%N ->
  evidence_ok r e -> evidence_ok r' (set_ev_Applied b e).
Proof.
  intros Ho Hi Hs Hops Hr []. split; rewrite ?Ho, ?Hi, ?Hs, ?Hops; try done; simpl; [lia|].
  unfold evidence_operation_ok in *. by rewrite Hops.
Qed.

Lemma applied_fact_ids (l : list Evidence) : ev_FactID <$> (set_ev_Applied true <$> l) = ev_FactID <$> l.
Proof. rewrite <- list_fmap_compose. done. Qed.
Lemma applied_sources (l : list Evidence) : ev_Source <$> (set_ev_Applied true <$> l) = ev_Source <$> l.
Proof. rewrite <- list_fmap_compose. done. Qed.

(** What a record needs beyond its applied facts to be well formed again. *)
Lemma settled_record_ok r n s next p (res : option Result) :
  record_ok r -> (r_Revision r <= n <= MaxInt64N)%N -> State_Valid s = true ->
  validOptionalTick next = true -> validRawJSON p = true ->
  (taskStateTerminal s = true <-> is_Some res) -> (taskStateTerminal s = true -> next = None) ->
  let r' := set_Progress p (set_Result res (set_NextWakeAt next (set_State s (settled_record n r)))) in
  (forall x, res = Some x -> result_ok r' x) -> record_ok r'.
Proof.
  intros [] Hn Hs Hnext Hp Hterm Hq r' Hres. split; simpl; try done; try lia.
  - intros o Ho. eapply operation_ok_mono; [..|by apply rk_operations]; [done|simpl; lia].
  - intros e (e0 & -> & He)%list_elem_of_fmap.
    eapply evidence_ok_mono; [..|by apply rk_evidence]; try done; simpl; lia.
  - by rewrite applied_fact_ids.
  - by rewrite applied_sources.
  - by intros e (e0 & -> & He)%list_elem_of_fmap.
  - auto.
Qed.

Lemma terminal_result_ok r resultID e u r' :
  record_ok r -> e ∈ r_Evidence r -> requiredIdentity resultID = true ->
  (1 <= r_Revision u <= MaxInt64N)%N -> is_terminal_kind (ev_Kind e) = true ->
  r_ID u = r_ID r -> r_ID r' = r_ID r -> r_Revision r' = r_Revision u ->
  r_State r' = terminalResultState (ev_Kind e) ->
  r_Evidence r' = set_ev_Applied true <$> r_Evidence r ->
  result_ok r' (terminal_result resultID u e).
Proof.
  intros Hr He Hid Hn Hk Hui Hi Hrev Hs Hev. pose proof (rk_evidence _ Hr e He) as [Hv _ _ _ _ _ _].
  pose proof (Evidence_Validate_source e Hv) as Hsrc.
  destruct (Evidence_Validate_scalars e Hv) as (Hf & Ho & _).
  split; rewrite ?Hi, ?Hrev, ?Hs, ?Hev; try done.
  - unfold Result_Validate. simpl. rewrite Hid, Hui, (rk_id _ Hr), Hf, Hsrc.
    rewrite (proj2 (ValidateDurableCounter_ok _) Hn), (proj2 (Z.ltb_ge _ _) Ho).
    by destruct (ev_Kind e).
  - intros f Hf'. cbn in Hf'. apply list_elem_of_singleton in Hf' as ->.
    exists (set_ev_Applied true e). split; [|done]. by apply list_elem_of_fmap_2.
  - intros _. exists (set_ev_Applied true e). split_and!; [by apply list_elem_of_fmap_2|simpl; by left|].
    unfold ref_matches. simpl. rewrite Z.eqb_refl, sourceRefsEqual_refl by done. by destruct (ev_Kind e).
Qed.

Lemma reconciledRecord_shape r pending resultID r' :
  reconciledRecord r pending resultID = Ok r' ->
  (r_Revision r < MaxInt64N)%N /\
  exists s next p res, r' = set_Progress p (set_Result res (set_NextWakeAt next (set_State s
      (settled_record (r_Revision r + 1) r))))
  /\ match selectTerminalEvidence pending with
     | Some e => s = terminalResultState (ev_Kind e) /\ next = None /\ p = r_Progress r
       /\ res = Some (terminal_result resultID (settled_record (r_Revision r + 1) r) e)
     | None => res = None
       /\ (match selectWaitEvidence pending with
           | Some w => s = StateWaiting /\ next = ev_WaitUntil w
           | None => s = StateRunning /\ next = None
           end)
       /\ p = match selectProgressEvidence pending with Some e => ev_Details e | None => r_Progress r end
     end.
Proof.
  unfold reconciledRecord. intros (n & [Hn ->]%NextDurableCounter_ok & H)%bind_ok. split; [done|].
  exists (r_State r'), (r_NextWakeAt r'), (r_Progress r'), (r_Result r').
  destruct (selectTerminalEvidence pending) as [e|]; [by simplify_eq|].
  destruct (selectWaitEvidence pending) as [w|], (selectProgressEvidence pending) as [g|];
    by simplify_eq.
Qed.

Lemma reconciledRecord_ok r resultID r' :
  record_ok r -> requiredIdentity resultID = true ->
  reconciledRecord r (pendingEvidence r) resultID = Ok r' -> record_ok r'.
Proof.
  intros Hr Hid (Hn & s & next & p & res & -> & H)%reconciledRecord_shape.
  assert (forall e, e ∈ pendingEvidence r -> e ∈ r_Evidence r) as Hsub
    by (intros e [He _]%pendingEvidence_elem; done).
  pose proof (rk_revision _ Hr) as Hrev.
  destruct (selectTerminalEvidence _) as [e|] eqn:Hsel.
  - destruct H as (-> & -> & -> & ->). apply selectTerminalEvidence_some in Hsel as [He Hk].
    apply settled_record_ok; try done; try lia.
    + unfold terminalResultState. by case_bool_decide.
    + apply Hr.
    + unfold terminalResultState. case_bool_decide; (split; [eauto|done]).
    + intros x [= <-]. eapply (terminal_result_ok r); simpl; try done; [by apply Hsub|lia].
  - destruct H as (-> & Hw & ->). apply settled_record_ok; try done; try lia.
    + by destruct (selectWaitEvidence _); destruct Hw as [-> _].
    + destruct (selectWaitEvidence _) as [w|] eqn:Hsw; destruct Hw as [_ ->]; [|done].
      apply selectWaitEvidence_some in Hsw as [He _].
      by apply (Evidence_Validate_scalars w), (rk_evidence _ Hr), Hsub.
    + destruct (selectProgressEvidence _) as [g|] eqn:Hsg; [|apply Hr].
      apply selectProgressEvidence_some in Hsg as [He _].
      by apply (Evidence_Validate_scalars g), (rk_evidence _ Hr), Hsub.
    + destruct (selectWaitEvidence _); destruct Hw as [-> _]; (split; [done|by intros []]).
    + by destruct (selectWaitEvidence _); destruct Hw as [-> _].
Qed.
