(* ===== verification/Rows.v ===== *)
(** * Table rows: what [sqlite_store.go], [intent.go] and [wake.go] store and how they re-check it

    Every row keeps indexed columns beside a JSON column.  A JSON column is
    modelled by the value whose canonical text it holds: reading it is the
    [Unmarshal] of that text (the [clone] functions of Wire.v), and every
    comparison of columns compares texts.  [createResponseJSON], which the code
    only compares, stays text. *)

From S2P Require Export Reconciling Sha256.

Local Open Scope go_scope.

Definition to_i64 (n : N) : Z := wrap_i64 (Z.of_N n).

(** ** Intent requests and the idempotency history *)
Record intentRequest := {
  iq_TaskID : string; iq_WakeID : string; iq_ExpectedRevision : N; iq_Source : SourceRef;
  iq_Intent : Intent
}.
Record intentCall := {
  ic_Request : intentRequest; ic_RequestHash : string; ic_Response : TaskRecord;
  ic_ResponseHash : string
}.
Abbreviation intentCallKey := (string * string * string)%type (only parsing).
Record storedIntentTask := { st_record : TaskRecord; st_history : list intentCall }.

Definition marshalIntentRequest (q : intentRequest) : option string :=
  src ← marshalSourceRef (iq_Source q);
  Some (enc_object [str_field "task_id" (iq_TaskID q); str_omit "wake_id" (iq_WakeID q);
                    field "expected_revision" (enc_uint (iq_ExpectedRevision q));
                    field "source" src; field "intent" (marshalIntent (iq_Intent q))]).
Definition marshalIntentCall (c : intentCall) : option string :=
  request ← marshalIntentRequest (ic_Request c);
  response ← marshalRecord (ic_Response c);
  Some (enc_object [field "request" request; str_field "request_hash" (ic_RequestHash c);
                    field "response" response; str_field "response_hash" (ic_ResponseHash c)]).
Definition marshalHistory (h : list intentCall) : option string :=
  calls ← mapM_opt marshalIntentCall h; Some (enc_array calls).

Definition cloneIntentRequest (q : intentRequest) : option intentRequest :=
  src ← cloneSourceRef (iq_Source q);
  Some {| iq_TaskID := iq_TaskID q; iq_WakeID := iq_WakeID q;
          iq_ExpectedRevision := iq_ExpectedRevision q; iq_Source := src; iq_Intent := iq_Intent q |}.

Definition intentExactKey (s : SourceRef) : intentCallKey := (src_EventID s, src_TurnID s, src_CallID s).

Definition intentRequest_validate (q : intentRequest) : outcome error unit :=
  _ ← fail_if (! requiredIdentity (iq_TaskID q) || ! optionalIdentity (iq_WakeID q)) ErrInvalidTaskSpec;
  _ ← ValidateDurableCounter (iq_ExpectedRevision q);
  _ ← SourceRef_Validate (iq_Source q);
  _ ← fail_if (! requiredIdentity (src_EventID (iq_Source q)) || ! requiredIdentity (src_TurnID (iq_Source q))
               || ! requiredIdentity (src_CallID (iq_Source q))) ErrSourceInvalid;
  Intent_Validate (iq_Intent q).

(** The relation between a past intent's response and the record now stored. *)
Definition intent_response_related (q : intentRequest) (response current : TaskRecord) : bool :=
  (iq_TaskID q == r_ID current) && (r_ID response == r_ID current) && (r_Owner response == r_Owner current)
  && (r_CreatedAtGameTick response =? r_CreatedAtGameTick current)%Z
  && (r_CreatedAtUnixMS response =? r_CreatedAtUnixMS current)%Z
  && taskSpecsEqual (r_Spec response) (r_Spec current)
  && (iq_ExpectedRevision q <? r_Revision response)%N
  && (r_Revision response =? wrap_u64 (iq_ExpectedRevision q + 1))%N
  && (r_Revision response <=? r_Revision current)%N
  && ! r_NeedsReconcile response && (r_PauseReason response == "")
  && (r_NoProgressAttempts response =? 0)%Z && (r_ReconcileAttempts response =? 0)%Z.

Definition result_prefix : string := "result_".

Definition intent_effect_related (q : intentRequest) (response current : TaskRecord) : bool :=
  match in_Kind (iq_Intent q) with
  | IntentWait =>
    (r_State response == StateWaiting) && (r_NextWakeAt response != None)
    && (in_NextWakeAt (iq_Intent q) != None)
    && (r_NextWakeAt response == in_NextWakeAt (iq_Intent q)) && (r_Result response == None)
    && ((in_ProgressNote (iq_Intent q) == "")
        || (r_Progress response == modelProgressJSON (in_ProgressNote (iq_Intent q))))
  | IntentCancel =>
    match r_Result response with
    | None => false
    | Some x =>
      (r_State response == StateCancelled) && (r_NextWakeAt response == None)
      && String.prefix result_prefix (rs_ID x) && (rs_TaskID x == r_ID response)
      && (rs_Revision x =? r_Revision response)%N && (rs_State x == StateCancelled)
      && (rs_Reason x == in_Reason (iq_Intent q)) && (src_Kind (rs_Source x) == src_Kind (iq_Source q))
      && sourceRefsEqual (rs_Source x) (iq_Source q) && (rs_EvidenceRefs x == Some [])
      && (r_State current == StateCancelled) && (r_Revision current =? r_Revision response)%N
      && (r_NextWakeAt current == None) && (r_Result current == Some x)
    end
  | IntentOther _ => false
  end.

Definition validateIntentCall (c : intentCall) (current : TaskRecord) :
    outcome error (intentRequest * TaskRecord) :=
  requestJSON ← of_option (marshalIntentRequest (ic_Request c)) ErrInvalidTaskSpec;
  responseJSON ← of_option (marshalRecord (ic_Response c)) ErrInvalidTaskSpec;
  _ ← fail_if ((ic_RequestHash c != sha256Hex requestJSON)
               || (ic_ResponseHash c != sha256Hex responseJSON)) ErrInvalidTaskSpec;
  request ← of_option (cloneIntentRequest (ic_Request c)) ErrInvalidTaskSpec;
  _ ← or_err (intentRequest_validate request) ErrInvalidTaskSpec;
  _ ← fail_if (! json_texts_equal (Some requestJSON) (marshalIntentRequest request)) ErrInvalidTaskSpec;
  response ← of_option (cloneRecord (ic_Response c)) ErrInvalidTaskSpec;
  _ ← or_err (Record_Validate response) ErrInvalidTaskSpec;
  _ ← fail_if (! json_texts_equal (Some responseJSON) (marshalRecord response)) ErrInvalidTaskSpec;
  _ ← fail_if (! intent_response_related request response current) ErrInvalidTaskSpec;
  _ ← fail_if ((r_Revision response =? r_Revision current)%N && (r_Progress response != r_Progress current))
        ErrInvalidTaskSpec;
  _ ← fail_if (! intent_effect_related request response current) ErrInvalidTaskSpec;
  Ok (request, response).

Fixpoint check_history (current : TaskRecord) (seen : gset intentCallKey) (h : list intentCall) :
    outcome error unit :=
  match h with
  | [] => Ok tt
  | call :: t =>
    '(request, _) ← validateIntentCall call current;
    let key := intentExactKey (iq_Source request) in
    _ ← fail_if (bool_decide (key ∈ seen)) ErrInvalidTaskSpec;
    check_history current ({[key]} ∪ seen) t
  end.

Definition cloneIntentCall (c : intentCall) : option intentCall :=
  request ← cloneIntentRequest (ic_Request c);
  response ← cloneRecord (ic_Response c);
  Some {| ic_Request := request; ic_RequestHash := ic_RequestHash c; ic_Response := response;
          ic_ResponseHash := ic_ResponseHash c |}.

Definition decodeIntentHistory (raw : list intentCall) (hash : string) (current : TaskRecord) :
    outcome error (list intentCall) :=
  text ← of_option (marshalHistory raw) ErrInvalidTaskSpec;
  _ ← fail_if (hash != sha256Hex text) ErrInvalidTaskSpec;
  history ← of_option (mapM_opt cloneIntentCall raw) ErrInvalidTaskSpec;
  _ ← fail_if (! json_texts_equal (Some text) (marshalHistory history)) ErrInvalidTaskSpec;
  _ ← check_history current ∅ history;
  Ok history.

(** ** Task rows *)
Record taskRowColumns := {
  co_owner : AgentSessionKey; co_taskID : string; co_state : State; co_revision : Z;
  co_clockID : string; co_nextWakeAt : option Z; co_createEventID : string;
  co_createTurnID : string; co_createCallID : string; co_createFingerprint : string;
  co_equivalenceKey : string; co_recordJSON : TaskRecord; co_createResponseJSON : string;
  co_createResponseHash : string; co_intentHistoryJSON : list intentCall;
  co_intentHistoryHash : string
}.

Definition taskSpecFingerprint (s : TaskSpec) : option string := sha256Hex <$> marshalTaskSpec s.

Definition initialCreateResult (r : TaskRecord) : CreateResult :=
  {| cr_Task := mkRecord (r_ID r) (r_Owner r) (r_Spec r) StateWaiting 1 (r_CreatedAtGameTick r)
                  (r_CreatedAtUnixMS r) (Some (sp_WakeAt (r_Spec r))) "" false "" 0 0 [] [] None [];
     cr_Created := true |}.

Definition decodeCreateResponse (c : taskRowColumns) (r : TaskRecord) (wantFingerprint : string) :
    outcome error CreateResult :=
  _ ← fail_if (co_createResponseHash c != sha256Hex (co_createResponseJSON c)) ErrInvalidTaskSpec;
  let canonical := initialCreateResult r in
  _ ← fail_if (! json_texts_equal (Some (co_createResponseJSON c)) (marshalCreateResult canonical))
        ErrInvalidTaskSpec;
  _ ← or_err (Record_Validate (cr_Task canonical)) ErrInvalidTaskSpec;
  _ ← fail_if (taskSpecFingerprint (r_Spec (cr_Task canonical)) != Some wantFingerprint) ErrInvalidTaskSpec;
  Ok canonical.

(** The indexed columns agree with the record. *)
Definition columns_agree (c : taskRowColumns) (r : TaskRecord) (fingerprint : string) : bool :=
  (r_Owner r == co_owner c) && (r_ID r == co_taskID c) && (r_State r == co_state c)
  && (r_Revision r =? Z.to_N (co_revision c))%N && (sp_ClockID (r_Spec r) == co_clockID c)
  && (r_NextWakeAt r == co_nextWakeAt c)
  && (src_EventID (sp_Source (r_Spec r)) == co_createEventID c)
  && (src_TurnID (sp_Source (r_Spec r)) == co_createTurnID c)
  && (src_CallID (sp_Source (r_Spec r)) == co_createCallID c)
  && (fingerprint == co_createFingerprint c) && (sp_EquivalenceKey (r_Spec r) == co_equivalenceKey c).

Record decodedTask := {
  dt_record : TaskRecord; dt_create : CreateResult; dt_fingerprint : string;
  dt_history : list intentCall
}.

Definition decodeTaskRowColumns (c : taskRowColumns) : outcome error decodedTask :=
  _ ← fail_if (co_revision c <=? 0)%Z ErrInvalidTaskSpec;
  record ← of_option (cloneRecord (co_recordJSON c)) ErrInvalidTaskSpec;
  _ ← Record_Validate record;
  _ ← fail_if (! json_texts_equal (marshalRecord (co_recordJSON c)) (marshalRecord record)) ErrInvalidTaskSpec;
  fingerprint ← of_option (taskSpecFingerprint (r_Spec record)) ErrInvalidTaskSpec;
  _ ← fail_if (! columns_agree c record fingerprint) ErrInvalidTaskSpec;
  response ← decodeCreateResponse c record (co_createFingerprint c);
  history ← decodeIntentHistory (co_intentHistoryJSON c) (co_intentHistoryHash c) record;
  Ok {| dt_record := record; dt_create := response; dt_fingerprint := co_createFingerprint c;
        dt_history := history |}.

(** ** Byte capacity of a task row *)
Definition intentTerminalStructuralReserve : Z := 8192.
Definition projectedResultID : string := "result_-9223372036854775808_18446744073709551615".

Fixpoint taskBytesFit (remaining : Z) (parts : list Z) : bool :=
  match parts with
  | [] => true
  | part :: t => if (part <? 0)%Z || (remaining <? part)%Z then false else taskBytesFit (remaining - part) t
  end.

Definition cleanup_complete (r : TaskRecord) : TaskRecord :=
  let cleaned : gset string := list_to_set (cl_OperationID <$> r_Cleanup r) in
  let missing := List.filter (fun o => ! bool_decide (op_ID o ∈ cleaned)) (r_Operations r) in
  set_Cleanup (r_Cleanup r ++ ((fun o => {| cl_OperationID := op_ID o; cl_Status := CleanupStatusReleased;
                                            cl_Reason := "" |}) <$> missing)) r.
Definition cleanupCompleteRecordJSON (r : TaskRecord) : outcome error string :=
  of_option (marshalRecord (cleanup_complete r)) ErrInvalidTaskSpec.

Definition validateCleanupCompleteCapacity (maxTaskBytes : Z) (r : TaskRecord)
    (createResponseJSON intentHistoryJSON : string) : outcome error unit :=
  projectedJSON ← cleanupCompleteRecordJSON r;
  let parts := [str_len projectedJSON; str_len createResponseJSON; str_len intentHistoryJSON;
                str_len projectedJSON] in
  let parts := if ! taskStateTerminal (r_State r) then parts ++ [intentTerminalStructuralReserve] else parts in
  fail_if (! taskBytesFit maxTaskBytes parts) ErrInvalidTaskSpec.

Definition validateTaskMutationCapacity (maxTaskBytes : Z) (r : TaskRecord)
    (createResponseJSON intentHistoryJSON : string) : outcome error unit :=
  _ ← validateCleanupCompleteCapacity maxTaskBytes r createResponseJSON intentHistoryJSON;
  let pending := pendingEvidence r in
  if bool_decide (pending = []) then Ok tt
  else
    projected ← reconciledRecord r pending projectedResultID;
    validateCleanupCompleteCapacity maxTaskBytes projected createResponseJSON intentHistoryJSON.

(** ** Wake rows *)
Record wakeRow := { wr_indexed : Wake; wr_clockID : string; wr_json : Wake }.
Record durableWake := { dw_wake : Wake; dw_record : storedIntentTask; dw_raw : Wake; dw_clock : string }.

(** [validateScannedWake] and [scanAdmissionWakeRow].  [cloneWake] is the
    identity but for the owner check of [decodeOwner]. *)
Definition cloneWake (w : Wake) : option Wake := if is_ok (validateOwner (w_Owner w)) then Some w else None.
Definition validateScannedWake (row : wakeRow) : outcome error Wake :=
  _ ← fail_if ((to_i64 (w_ExpectedRevision (wr_indexed row)) <=? 0)%Z
               || (to_i64 (w_Generation (wr_indexed row)) <=? 0)%Z) ErrInvalidTaskSpec;
  stored ← of_option (cloneWake (wr_json row)) ErrInvalidTaskSpec;
  _ ← or_err (Wake_Validate stored) ErrInvalidTaskSpec;
  _ ← fail_if (stored != wr_indexed row) ErrInvalidTaskSpec;
  Ok stored.
Definition scanAdmissionWakeRow (row : wakeRow) : outcome error Wake :=
  wake ← or_err (validateScannedWake row) ErrInvalidTaskSpec;
  _ ← fail_if (! requiredIdentity (wr_clockID row)) ErrInvalidTaskSpec;
  Ok wake.

Definition executableStatus (s : WakeStatus) : bool :=
  match s with
  | wakeStatusPending | wakeStatusClaimed | wakeStatusEnqueued | wakeStatusRunning => true
  | _ => false
  end.

(** The task side of a wake that is waiting for delivery, or running. *)
Definition wake_waits_for (w : Wake) (r : TaskRecord) : bool :=
  ! taskStateTerminal (r_State r) && (r_State r == StateWaiting) && (r_Result r == None)
  && (r_NextWakeAt r == Some (w_DueTick w)) && (r_Revision r =? w_ExpectedRevision w)%N.
Definition wake_runs (w : Wake) (r : TaskRecord) : bool :=
  (r_State r == StateRunning) && (r_Result r == None) && (r_NextWakeAt r == None)
  && (w_ExpectedRevision w <? r_Revision r)%N.

Definition validateTaskWakePair (r : TaskRecord) (w : Wake) : outcome error unit :=
  _ ← Record_Validate r;
  _ ← Wake_Validate w;
  _ ← fail_if ((r_Owner r != w_Owner w) || (r_ID r != w_TaskID w)
               || (sp_DeadlineAt (r_Spec r) <? w_DueTick w)%Z) ErrInvalidTaskSpec;
  match w_Status w with
  | wakeStatusPending | wakeStatusClaimed | wakeStatusEnqueued =>
    fail_if (! wake_waits_for w r) ErrInvalidTaskSpec
  | wakeStatusRunning => fail_if (! wake_runs w r) ErrInvalidTaskSpec
  | wakeStatusConsumed => Ok tt
  | wakeStatusOther _ => Err ErrInvalidTaskSpec
  end.

(** ** World head rows *)
Definition checkpointBarrierPrepared : string := "prepared".
Definition noCode : Code := CodeOther "".

Record worldHeadRow := {
  wh_Head : Head; wh_SaveRequestID : string; wh_BarrierStatus : string;
  wh_BarrierPreparedAtUnixMS : Z; wh_RuntimeInstanceID : string; wh_RecoveryRunID : string;
  wh_RecoveryError : Code
}.
#[export] Instance worldHeadRow_eq_dec : EqDecision worldHeadRow. Proof. solve_decision. Defined.

Definition worldHeadRow_validate (r : worldHeadRow) : outcome error unit :=
  _ ← Binding_Validate (hd_Binding (wh_Head r));
  _ ← Clock_Validate (hd_Clock (wh_Head r));
  _ ← fail_if ((MaxInt64N <? ck_Sequence (hd_Clock (wh_Head r)))%N
               || ! optionalIdentity (hd_CheckpointID (wh_Head r))
               || ! requiredIdentity (HeadStatus_string (hd_Status (wh_Head r)))
               || ! optionalIdentity (hd_Reason (wh_Head r)) || ! optionalIdentity (wh_SaveRequestID r)
               || ! optionalIdentity (wh_BarrierStatus r) || (wh_BarrierPreparedAtUnixMS r <? 0)%Z
               || ! requiredIdentity (wh_RuntimeInstanceID r)) ErrInvalidTaskSpec;
  _ ← fail_if (! (wh_BarrierPreparedAtUnixMS r =? 0)%Z
               && ((wh_BarrierStatus r != checkpointBarrierPrepared) || (wh_SaveRequestID r == "")))
        ErrInvalidTaskSpec;
  _ ← fail_if (! Bool.eqb (wh_RecoveryRunID r == "") (wh_RecoveryError r == noCode)) ErrInvalidTaskSpec;
  fail_if ((wh_RecoveryRunID r != "")
           && (! requiredIdentity (wh_RecoveryRunID r) || ! Code_Valid (wh_RecoveryError r)
               || (hd_Status (wh_Head r) != worldHeadStatusPaused)
               || (hd_Reason (wh_Head r) != Code_string (wh_RecoveryError r))
               || (wh_SaveRequestID r != "") || (wh_BarrierStatus r != "")
               || ! (wh_BarrierPreparedAtUnixMS r =? 0)%Z)) ErrInvalidTaskSpec.

Definition marshalHead (h : Head) : string :=
  enc_object [field "binding" (marshalBinding (hd_Binding h)); field "clock" (marshalClock (hd_Clock h));
              str_omit "checkpoint_id" (hd_CheckpointID h);
              str_field "status" (HeadStatus_string (hd_Status h)); str_omit "reason" (hd_Reason h)].
Definition marshalWorldHeadRow (r : worldHeadRow) : string :=
  enc_object [field "head" (marshalHead (wh_Head r)); str_field "save_request_id" (wh_SaveRequestID r);
              str_field "barrier_status" (wh_BarrierStatus r);
              omit_if (wh_BarrierPreparedAtUnixMS r =? 0)%Z "barrier_prepared_at_unix_ms"
                (enc_int (wh_BarrierPreparedAtUnixMS r));
              str_field "runtime_instance_id" (wh_RuntimeInstanceID r);
              str_omit "recovery_run_id" (wh_RecoveryRunID r);
              str_omit "recovery_error" (Code_string (wh_RecoveryError r))].

(** Indexed columns of a head row and its JSON column. *)
Record headColumns := {
  hc_runID : string; hc_generation : Z; hc_clockID : string; hc_clockTick : Z;
  hc_clockSequence : Z; hc_checkpointID : string; hc_saveRequestID : string;
  hc_barrierStatus : string; hc_runtimeInstanceID : string; hc_status : HeadStatus;
  hc_reason : string; hc_headJSON : worldHeadRow
}.

Definition head_columns (r : worldHeadRow) : headColumns :=
  {| hc_runID := bd_RunID (hd_Binding (wh_Head r));
     hc_generation := to_i64 (bd_Generation (hd_Binding (wh_Head r)));
     hc_clockID := ck_ID (hd_Clock (wh_Head r)); hc_clockTick := ck_Tick (hd_Clock (wh_Head r));
     hc_clockSequence := to_i64 (ck_Sequence (hd_Clock (wh_Head r)));
     hc_checkpointID := hd_CheckpointID (wh_Head r); hc_saveRequestID := wh_SaveRequestID r;
     hc_barrierStatus := wh_BarrierStatus r; hc_runtimeInstanceID := wh_RuntimeInstanceID r;
     hc_status := hd_Status (wh_Head r); hc_reason := hd_Reason (wh_Head r); hc_headJSON := r |}.

Definition scanWorldHeadRow (world : WorldKey) (c : headColumns) : outcome error worldHeadRow :=
  _ ← fail_if ((hc_generation c <=? 0)%Z || (hc_clockSequence c <? 0)%Z) ErrInvalidTaskSpec;
  let stored := hc_headJSON c in
  let indexed :=
    {| wh_Head := {| hd_Binding := {| bd_World := world; bd_RunID := hc_runID c;
                                      bd_Generation := Z.to_N (hc_generation c) |};
                     hd_Clock := {| ck_ID := hc_clockID c; ck_Tick := hc_clockTick c;
                                    ck_Sequence := Z.to_N (hc_clockSequence c) |};
                     hd_CheckpointID := hc_checkpointID c; hd_Status := hc_status c;
                     hd_Reason := hc_reason c |};
       wh_SaveRequestID := hc_saveRequestID c; wh_BarrierStatus := hc_barrierStatus c;
       wh_BarrierPreparedAtUnixMS := wh_BarrierPreparedAtUnixMS stored;
       wh_RuntimeInstanceID := hc_runtimeInstanceID c; wh_RecoveryRunID := wh_RecoveryRunID stored;
       wh_RecoveryError := wh_RecoveryError stored |} in
  _ ← fail_if ((stored != indexed) || ! is_ok (worldHeadRow_validate stored)) ErrInvalidTaskSpec;
  Ok stored.

Definition validateDurableWakeRelation (head : worldHeadRow) (candidate : durableWake) : outcome error unit :=
  let w := dw_wake candidate in
  let r := st_record (dw_record candidate) in
  _ ← fail_if ((w_Owner w != r_Owner r) || (w_TaskID w != r_ID r)
               || (sp_DeadlineAt (r_Spec r) <? w_DueTick w)%Z
               || (dw_clock candidate != sp_ClockID (r_Spec r))
               || (sp_ClockID (r_Spec r) != ck_ID (hd_Clock (wh_Head head)))) ErrInvalidTaskSpec;
  let currentGeneration := (w_Generation w =? bd_Generation (hd_Binding (wh_Head head)))%N in
  match w_Status w with
  | wakeStatusPending | wakeStatusClaimed | wakeStatusEnqueued =>
    fail_if (! currentGeneration || ! wake_waits_for w r) ErrInvalidTaskSpec
  | wakeStatusRunning => fail_if (! currentGeneration || ! wake_runs w r) ErrInvalidTaskSpec
  | wakeStatusConsumed => Ok tt
  | wakeStatusOther _ => Err ErrInvalidTaskSpec
  end.
