(* ===== verification/Snapshot.v ===== *)
(** * Checkpoint snapshots: the decoding and validation half of [checkpoint.go]

    A checkpoint row carries the whole working set of a world as one JSON text
    with its SHA-256.  [checkpointSnapshot_validate] is the code's own check; it
    runs whenever a save barrier is retired or a checkpoint is restored. *)

From S2P Require Export Rows.

Local Open Scope go_scope.

Definition checkpointSchemaVersion : Z := 1.

Record checkpointPrepareRequest := {
  pq_Binding : Binding; pq_Clock : Clock; pq_SaveRequestID : string; pq_Evidence : list Evidence
}.
Record checkpointTaskSnapshot := {
  ts_Record : TaskRecord; ts_CreateFingerprint : string; ts_CreateResponseJSON : RawMessage;
  ts_CreateResponseHash : string; ts_IntentHistoryJSON : list intentCall;
  ts_IntentHistoryHash : string
}.
Record checkpointWakeSnapshot := { ws_ClockID : string; ws_Wake : Wake }.
(** The nil slices of the code are JSON [null]s, which the writer never emits;
    the slices here are the non-nil ones. *)
Record checkpointSnapshot := {
  sn_SchemaVersion : Z; sn_World : WorldKey; sn_PreparedHead : Head;
  sn_Request : checkpointPrepareRequest; sn_Tasks : list checkpointTaskSnapshot;
  sn_Wakes : list checkpointWakeSnapshot
}.
Record checkpointRow := {
  cp_ID : string; cp_World : WorldKey; cp_SaveRequestID : string; cp_SchemaVersion : Z;
  cp_Clock : Clock; cp_Checksum : string; cp_Snapshot : checkpointSnapshot
}.

(** ** JSON form *)
Definition marshalPrepareRequest (q : checkpointPrepareRequest) : option string :=
  evidence ← mapM_opt marshalEvidence (pq_Evidence q);
  Some (enc_object [field "binding" (marshalBinding (pq_Binding q)); field "clock" (marshalClock (pq_Clock q));
                    str_field "save_request_id" (pq_SaveRequestID q);
                    field "evidence" (enc_array evidence)]).
Definition marshalTaskSnapshot (t : checkpointTaskSnapshot) : option string :=
  record ← marshalRecord (ts_Record t);
  response ← json_compact (ts_CreateResponseJSON t);
  history ← marshalHistory (ts_IntentHistoryJSON t);
  Some (enc_object [field "record" record; str_field "create_fingerprint" (ts_CreateFingerprint t);
                    field "create_response" response;
                    str_field "create_response_hash" (ts_CreateResponseHash t);
                    field "intent_history" history;
                    str_field "intent_history_hash" (ts_IntentHistoryHash t)]).
Definition marshalWakeSnapshot (w : checkpointWakeSnapshot) : string :=
  enc_object [str_field "clock_id" (ws_ClockID w); field "wake" (marshalWake (ws_Wake w))].
Definition marshalSnapshot (s : checkpointSnapshot) : option string :=
  request ← marshalPrepareRequest (sn_Request s);
  tasks ← mapM_opt marshalTaskSnapshot (sn_Tasks s);
  Some (enc_object [field "schema_version" (enc_int (sn_SchemaVersion s));
                    field "world" (marshalWorldKey (sn_World s));
                    field "prepared_head" (marshalHead (sn_PreparedHead s)); field "request" request;
                    field "tasks" (enc_array tasks);
                    field "wakes" (enc_array (marshalWakeSnapshot <$> sn_Wakes s))]).

Definition cloneTaskSnapshot (t : checkpointTaskSnapshot) : option checkpointTaskSnapshot :=
  record ← cloneRecord (ts_Record t);
  response ← json_compact (ts_CreateResponseJSON t);
  history ← mapM_opt cloneIntentCall (ts_IntentHistoryJSON t);
  Some {| ts_Record := record; ts_CreateFingerprint := ts_CreateFingerprint t;
          ts_CreateResponseJSON := response; ts_CreateResponseHash := ts_CreateResponseHash t;
          ts_IntentHistoryJSON := history; ts_IntentHistoryHash := ts_IntentHistoryHash t |}.
Definition cloneWakeSnapshot (w : checkpointWakeSnapshot) : option checkpointWakeSnapshot :=
  wake ← cloneWake (ws_Wake w); Some {| ws_ClockID := ws_ClockID w; ws_Wake := wake |}.
Definition cloneSnapshot (s : checkpointSnapshot) : option checkpointSnapshot :=
  evidence ← mapM_opt cloneEvidence (pq_Evidence (sn_Request s));
  tasks ← mapM_opt cloneTaskSnapshot (sn_Tasks s);
  wakes ← mapM_opt cloneWakeSnapshot (sn_Wakes s);
  Some {| sn_SchemaVersion := sn_SchemaVersion s; sn_World := sn_World s;
          sn_PreparedHead := sn_PreparedHead s;
          sn_Request := {| pq_Binding := pq_Binding (sn_Request s); pq_Clock := pq_Clock (sn_Request s);
                           pq_SaveRequestID := pq_SaveRequestID (sn_Request s);
                           pq_Evidence := evidence |};
          sn_Tasks := tasks; sn_Wakes := wakes |}.

(** ** Ordering and normal form *)
Definition normalizeCheckpointRecord (r : TaskRecord) : outcome error TaskRecord :=
  cloned ← of_option (cloneRecord r) ErrInvalidTaskSpec;
  let sorted :=
    set_Operations (sort_slice (fun i j => str_lt (op_ID i) (op_ID j)) (r_Operations cloned))
    (set_Evidence (sort_slice by_fact_id (r_Evidence cloned))
    (set_Cleanup (sort_slice (fun i j => str_lt (cl_OperationID i) (cl_OperationID j)) (r_Cleanup cloned))
    (set_Result ((fun x => {| rs_ID := rs_ID x; rs_TaskID := rs_TaskID x; rs_Revision := rs_Revision x;
                              rs_State := rs_State x; rs_Reason := rs_Reason x;
                              rs_OccurredAt := rs_OccurredAt x;
                              rs_EvidenceRefs := sort_slice str_lt <$> rs_EvidenceRefs x;
                              rs_Source := rs_Source x |}) <$> r_Result cloned) cloned))) in
  _ ← Record_Validate sorted;
  Ok sorted.

Definition checkpointTaskLess (left right : checkpointTaskSnapshot) : bool :=
  let l := ts_Record left in
  let r := ts_Record right in
  if EntityID (r_Owner l) != EntityID (r_Owner r) then str_lt (EntityID (r_Owner l)) (EntityID (r_Owner r))
  else str_lt (r_ID l) (r_ID r).
Definition checkpointWakeLess (left right : checkpointWakeSnapshot) : bool :=
  let l := ws_Wake left in
  let r := ws_Wake right in
  if EntityID (w_Owner l) != EntityID (w_Owner r) then str_lt (EntityID (w_Owner l)) (EntityID (w_Owner r))
  else if w_TaskID l != w_TaskID r then str_lt (w_TaskID l) (w_TaskID r)
  else str_lt (w_ID l) (w_ID r).

Definition checkpointTaskColumns (t : checkpointTaskSnapshot) : taskRowColumns :=
  let r := ts_Record t in
  {| co_owner := r_Owner r; co_taskID := r_ID r; co_state := r_State r;
     co_revision := to_i64 (r_Revision r); co_clockID := sp_ClockID (r_Spec r);
     co_nextWakeAt := r_NextWakeAt r; co_createEventID := src_EventID (sp_Source (r_Spec r));
     co_createTurnID := src_TurnID (sp_Source (r_Spec r));
     co_createCallID := src_CallID (sp_Source (r_Spec r));
     co_createFingerprint := ts_CreateFingerprint t; co_equivalenceKey := sp_EquivalenceKey (r_Spec r);
     co_recordJSON := r; co_createResponseJSON := ts_CreateResponseJSON t;
     co_createResponseHash := ts_CreateResponseHash t; co_intentHistoryJSON := ts_IntentHistoryJSON t;
     co_intentHistoryHash := ts_IntentHistoryHash t |}.

(** ** Validation *)
Abbreviation worldTaskIdentity := (AgentSessionKey * string)%type (only parsing).
Abbreviation checkpointCallKey := (string * string * string * string)%type (only parsing).
Definition checkpointCallIdentity (entityID : string) (s : SourceRef) : checkpointCallKey :=
  (entityID, src_EventID s, src_TurnID s, src_CallID s).

Fixpoint adjacent_less {A} (less : A -> A -> bool) (l : list A) : bool :=
  match l with
  | x :: ((y :: _) as t) => less x y && adjacent_less less t
  | _ => true
  end.

(** Add keys to a seen-set; [None] on a repetition. *)
Fixpoint claim_all {K} `{Countable K} (seen : gset K) (keys : list K) : option (gset K) :=
  match keys with
  | [] => Some seen
  | k :: t => if bool_decide (k ∈ seen) then None else claim_all ({[k]} ∪ seen) t
  end.

Record taskScan := {
  sc_taskMap : gmap (AgentSessionKey * string) TaskRecord; sc_taskIDs : gset string; sc_operationIDs : gset string;
  sc_facts : gmap string Evidence; sc_sources : gset evidenceSourceIdentity;
  sc_equivalence : gset (string * string); sc_calls : gset (string * string * string * string)
}.
Definition empty_scan : taskScan :=
  {| sc_taskMap := ∅; sc_taskIDs := ∅; sc_operationIDs := ∅; sc_facts := ∅; sc_sources := ∅;
     sc_equivalence := ∅; sc_calls := ∅ |}.

Definition call_identities (r : TaskRecord) (history : list intentCall) : option (list checkpointCallKey) :=
  let entity := EntityID (r_Owner r) in
  intents ← mapM_opt (fun c => match validateIntentCall c r with
                               | Ok (request, _) => Some (checkpointCallIdentity entity (iq_Source request))
                               | Err _ => None
                               end) history;
  Some (checkpointCallIdentity entity (sp_Source (r_Spec r)) :: intents).

(** Body of the loop over [s.Tasks]. *)
Definition scan_task (world : WorldKey) (sc : taskScan) (t : checkpointTaskSnapshot) : option taskScan :=
  match decodeTaskRowColumns (checkpointTaskColumns t) with
  | Err _ => None
  | Ok decoded =>
    let r := dt_record decoded in
    if ! sameOwnerWorld (r_Owner r) world || (r_State r == StateRunning) then None else
    match normalizeCheckpointRecord r with
    | Err _ => None
    | Ok normalized =>
      if ! json_texts_equal (marshalRecord r) (marshalRecord normalized) then None else
      if bool_decide (is_Some (sc_taskMap sc !! (r_Owner r, r_ID r)))
         || bool_decide (r_ID r ∈ sc_taskIDs sc) then None else
      let source := sp_Source (r_Spec r) in
      if ! requiredIdentity (src_EventID source) || ! requiredIdentity (src_TurnID source)
         || ! requiredIdentity (src_CallID source) then None else
      keys ← call_identities r (dt_history decoded);
      calls ← claim_all (sc_calls sc) keys;
      equivalence ← (if (sp_EquivalenceKey (r_Spec r) != "") && ! taskStateTerminal (r_State r)
                     then claim_all (sc_equivalence sc) [(EntityID (r_Owner r), sp_EquivalenceKey (r_Spec r))]
                     else Some (sc_equivalence sc));
      operations ← claim_all (sc_operationIDs sc) (op_ID <$> r_Operations r);
      _ ← claim_all (dom (sc_facts sc)) (ev_FactID <$> r_Evidence r);
      sources ← claim_all (sc_sources sc)
                  (omap completeEvidenceSourceIdentity (ev_Source <$> r_Evidence r));
      Some {| sc_taskMap := <[(r_Owner r, r_ID r) := r]> (sc_taskMap sc);
              sc_taskIDs := {[r_ID r]} ∪ sc_taskIDs sc; sc_operationIDs := operations;
              sc_facts := foldl (fun m e => <[ev_FactID e := e]> m) (sc_facts sc) (r_Evidence r);
              sc_sources := sources; sc_equivalence := equivalence; sc_calls := calls |}
    end
  end.
Fixpoint scan_tasks (world : WorldKey) (sc : taskScan) (l : list checkpointTaskSnapshot) : option taskScan :=
  match l with
  | [] => Some sc
  | t :: l' => sc' ← scan_task world sc t; scan_tasks world sc' l'
  end.

Record wakeScan := {
  sw_wakeIDs : gset string; sw_keys : gset (string * string * N * string);
  sw_active : gmap (AgentSessionKey * string) nat
}.
(** Body of the loop over [s.Wakes]. *)
Definition scan_wake (s : checkpointSnapshot) (tasks : gmap (AgentSessionKey * string) TaskRecord)
    (sw : wakeScan) (ws : checkpointWakeSnapshot) : option wakeScan :=
  let w := ws_Wake ws in
  if ! is_ok (Wake_Validate w) || ! requiredIdentity (ws_ClockID ws) || ! sameOwnerWorld (w_Owner w) (sn_World s)
  then None else
  if (w_Status w != wakeStatusPending) && (w_Status w != wakeStatusConsumed) then None else
  r ← tasks !! (w_Owner w, w_TaskID w);
  if (ws_ClockID ws != sp_ClockID (r_Spec r)) || ! is_ok (validateTaskWakePair r w) then None else
  wakeIDs ← claim_all (sw_wakeIDs sw) [w_ID w];
  keys ← claim_all (sw_keys sw) [(EntityID (w_Owner w), w_TaskID w, w_ExpectedRevision w, w_Reason w)];
  if w_Status w == wakeStatusPending then
    if ! (w_Generation w =? bd_Generation (hd_Binding (sn_PreparedHead s)))%N then None else
    Some {| sw_wakeIDs := wakeIDs; sw_keys := keys;
            sw_active := partial_alter (fun n => Some (S (default 0 n))) (w_Owner w, w_TaskID w) (sw_active sw) |}
  else Some {| sw_wakeIDs := wakeIDs; sw_keys := keys; sw_active := sw_active sw |}.
Fixpoint scan_wakes (s : checkpointSnapshot) (tasks : gmap (AgentSessionKey * string) TaskRecord)
    (sw : wakeScan) (l : list checkpointWakeSnapshot) : option wakeScan :=
  match l with
  | [] => Some sw
  | w :: l' => sw' ← scan_wake s tasks sw w; scan_wakes s tasks sw' l'
  end.

Definition request_evidence_valid (s : checkpointSnapshot) (e : Evidence) : bool :=
  is_ok (Evidence_Validate e) && ! ev_Applied e && (bd_World (ev_Binding e) == sn_World s)
  && match ev_RevalidatedIn e with Some b => bd_World b == sn_World s | None => true end.

Definition snapshot_header_valid (s : checkpointSnapshot) : bool :=
  let head := sn_PreparedHead s in
  let request := sn_Request s in
  (sn_SchemaVersion s =? checkpointSchemaVersion)%Z && (sn_World s == bd_World (hd_Binding head))
  && (sn_World s == bd_World (pq_Binding request)) && (hd_Status head == worldHeadStatusReady)
  && (hd_Reason head == "") && requiredIdentity (hd_CheckpointID head)
  && requiredIdentity (pq_SaveRequestID request) && is_ok (WorldKey_Validate (sn_World s))
  && is_ok (Binding_Validate (hd_Binding head)) && is_ok (Clock_Validate (hd_Clock head))
  && (ck_Sequence (hd_Clock head) <=? MaxInt64N)%N && (hd_Clock head == pq_Clock request)
  && is_ok (Binding_Validate (pq_Binding request))
  && (bd_RunID (pq_Binding request) == bd_RunID (hd_Binding head))
  && match NextDurableCounter (bd_Generation (pq_Binding request)) with
     | Ok next => (next =? bd_Generation (hd_Binding head))%N
     | Err _ => false
     end.

Definition active_wakes_match (sc : taskScan) (sw : wakeScan) : bool :=
  forallb (fun p => let want := if r_State p.2 == StateWaiting then 1 else 0 in
                    Nat.eqb (default 0 (sw_active sw !! p.1)) want)
    (map_to_list (sc_taskMap sc)).

Definition checkpointSnapshot_validate (s : checkpointSnapshot) : outcome error unit :=
  _ ← fail_if (! snapshot_header_valid s) ErrCheckpointInvalid;
  _ ← fail_if (! forallb (request_evidence_valid s) (pq_Evidence (sn_Request s))
               || ! adjacent_less by_fact_id (pq_Evidence (sn_Request s))) ErrCheckpointInvalid;
  _ ← fail_if (! adjacent_less checkpointTaskLess (sn_Tasks s)) ErrCheckpointInvalid;
  sc ← of_option (scan_tasks (sn_World s) empty_scan (sn_Tasks s)) ErrCheckpointInvalid;
  _ ← fail_if (! adjacent_less checkpointWakeLess (sn_Wakes s)) ErrCheckpointInvalid;
  sw ← of_option (scan_wakes s (sc_taskMap sc) {| sw_wakeIDs := ∅; sw_keys := ∅; sw_active := ∅ |} (sn_Wakes s))
         ErrCheckpointInvalid;
  _ ← fail_if (! active_wakes_match sc sw) ErrCheckpointInvalid;
  fail_if (! forallb (fun c => match sc_facts sc !! ev_FactID c with
                               | Some stored => evidenceEqualIgnoringApplied stored c
                               | None => false
                               end) (pq_Evidence (sn_Request s))) ErrCheckpointInvalid.

Definition checkpointRow_validate (row : checkpointRow) : outcome error unit :=
  _ ← fail_if (! requiredIdentity (cp_ID row) || ! requiredIdentity (cp_SaveRequestID row)
               || (cp_SchemaVersion row <=? 0)%Z || ! requiredIdentity (cp_Checksum row)
               || ! match marshalSnapshot (cp_Snapshot row) with
                    | Some text => (0 <? str_len text)%Z && json_valid text
                    | None => false
                    end) ErrInvalidTaskSpec;
  _ ← WorldKey_Validate (cp_World row);
  _ ← Clock_Validate (cp_Clock row);
  fail_if (MaxInt64N <? ck_Sequence (cp_Clock row))%N ErrInvalidTaskSpec.

Definition validateDecodedCheckpoint (row : checkpointRow) (s : checkpointSnapshot) : outcome error unit :=
  _ ← fail_if (! is_ok (checkpointRow_validate row) || ! (cp_SchemaVersion row =? checkpointSchemaVersion)%Z
               || (cp_World row != sn_World s) || (cp_SaveRequestID row != pq_SaveRequestID (sn_Request s))
               || (cp_Clock row != hd_Clock (sn_PreparedHead s))
               || (cp_ID row != hd_CheckpointID (sn_PreparedHead s))
               || ! (str_len (cp_Checksum row) =? 64)%Z) ErrCheckpointInvalid;
  _ ← fail_if (! hex_ok (cp_Checksum row)) ErrCheckpointInvalid;
  checkpointSnapshot_validate s.

Definition decodeCheckpointRow (row : checkpointRow) : outcome error checkpointSnapshot :=
  text ← of_option (marshalSnapshot (cp_Snapshot row)) ErrCheckpointInvalid;
  _ ← fail_if (! is_ok (checkpointRow_validate row) || ! (cp_SchemaVersion row =? checkpointSchemaVersion)%Z
               || (sha256Hex text != cp_Checksum row)) ErrCheckpointInvalid;
  snapshot ← of_option (cloneSnapshot (cp_Snapshot row)) ErrCheckpointInvalid;
  _ ← fail_if (! json_texts_equal (Some text) (marshalSnapshot snapshot)) ErrCheckpointInvalid;
  _ ← validateDecodedCheckpoint row snapshot;
  Ok snapshot.
