(* ===== verification/Store.v ===== *)
(** * The SQLite store: tables, driver steps and immediate transactions ([sqlite_store.go])

    The database is four tables with the keys, unique indexes, foreign key and
    checks of the schema.  A service call runs in a monad over it: every clock
    reading, new identity, context check and driver call is a numbered step whose
    outcome the environment chooses, so a theorem over all environments covers
    every schedule of driver faults and cancellations. *)

From S2P Require Export Snapshot.

Local Open Scope go_scope.

(** ** Options, tables and environment *)
Record StoreOptions := {
  MaxTaskBytes : Z; MaxSnapshotBytes : Z; MaxTasksPerWorld : Z; CheckpointBarrierTimeoutMS : Z
}.

(** [StoreOptions.Resolve] on the options the model keeps; zero selects the default. *)
Definition StoreOptions_Resolve (o : StoreOptions) : outcome error StoreOptions :=
  _ ← fail_if ((MaxTaskBytes o <? 0)%Z || (MaxSnapshotBytes o <? 0)%Z || (MaxTasksPerWorld o <? 0)%Z
               || (CheckpointBarrierTimeoutMS o <? 0)%Z) ErrInvalidTaskSpec;
  let or_default v d := if (v =? 0)%Z then d else v in
  Ok {| MaxTaskBytes := or_default (MaxTaskBytes o) 262144%Z;
        MaxSnapshotBytes := or_default (MaxSnapshotBytes o) 33554432%Z;
        MaxTasksPerWorld := or_default (MaxTasksPerWorld o) 1024%Z;
        CheckpointBarrierTimeoutMS := or_default (CheckpointBarrierTimeoutMS o) 10000%Z |}.

Record DB := mkDB {
  db_heads : gmap WorldKey headColumns;
  db_tasks : gmap (AgentSessionKey * string) taskRowColumns;
  db_wakes : gmap string wakeRow;
  db_checkpoints : gmap string checkpointRow
}.
Definition empty_db : DB := mkDB ∅ ∅ ∅ ∅.

(** [idgen.New]: prefix, nanosecond clock and process-wide counter. *)
Definition idgen_New (prefix : string) (nano : Z) (counter : N) : string :=
  prefix +:+ "_" +:+ FormatInt nano +:+ "_" +:+ FormatUint counter.

(** What a call finds around it at each step: [ctx.Err()], driver errors, the
    millisecond clock of [nowUnixMS], the nanosecond clock and the counter of
    [idgen.New]; and the runtime's identity and the store's options. *)
Record Env := {
  e_ctx : nat -> option error;
  e_fault : nat -> option error;
  e_now : nat -> Z;
  e_nano : nat -> Z;
  e_counter : nat -> N;
  e_claimantID : string;
  e_options : StoreOptions
}.
Record St := mkSt { st_db : DB; st_step : nat }.

(** ** The monad *)
Definition M (A : Type) : Type := Env -> St -> outcome error A * St.
#[export] Instance M_ret : MRet M := fun A a _ st => (Ok a, st).
#[export] Instance M_bind : MBind M := fun A B f m env st =>
  match m env st with
  | (Ok a, st') => f a env st'
  | (Err e, st') => (Err e, st')
  end.

Definition fail {A} (e : error) : M A := fun _ st => (Err e, st).
Definition lift {A} (o : outcome error A) : M A := fun _ st => (o, st).
Definition ask {A} (f : Env -> A) : M A := fun env st => (Ok (f env), st).
Definition tick (st : St) : St := mkSt (st_db st) (S (st_step st)).

(** [s.nowUnixMS()] and [s.newID(prefix)]. *)
Definition nowUnixMS : M Z := fun env st => (Ok (e_now env (st_step st)), tick st).
Definition newID (prefix : string) : M string := fun env st => 
  (Ok (idgen_New prefix (e_nano env (st_step st)) (e_counter env (st_step st))), tick st).

(** [ctx.Err()]. *)
Definition ctx_err : M unit := fun env st =>
  (match e_ctx env (st_step st) with Some e => Err e | None => Ok tt end, tick st).

(** One driver call: it fails with the driver's error and no effect, or runs. *)
Definition query {A} (q : DB -> outcome error A) : M A := fun env st =>
  match e_fault env (st_step st) with
  | Some e => (Err e, tick st)
  | None => (q (st_db st), tick st)
  end.
Definition exec {A} (x : DB -> outcome error (A * DB)) : M A := fun env st =>
  match e_fault env (st_step st) with
  | Some e => (Err e, tick st)
  | None => match x (st_db st) with
            | Ok (a, db') => (Ok a, mkSt db' (S (st_step st)))
            | Err e => (Err e, tick st)
            end
  end.

(** [if errors.Is(err, sql.ErrNoRows)]: a [QueryRow] whose [Scan] found no row. *)
Definition catch {A} (m : M A) (h : error -> M A) : M A := fun env st =>
  match m env st with
  | (Err e, st') => h e env st'
  | r => r
  end.

(** [withImmediateTransaction]: a callback that fails, a cancellation before the
    commit and a failed commit all leave the tables as they were. *)
Definition withImmediateTransaction {A} (callback : M A) : M A := fun env st =>
  match e_ctx env (st_step st) with
  | Some e => (Err (WrapError CodeTaskConflict (Some e)), tick st)
  | None =>
    let st1 := tick st in
    match e_fault env (st_step st1) with
    | Some e => (Err (classifyStoreError e), tick st1)
    | None =>
      match callback env (tick st1) with
      | (Err e, st2) => (Err (classifyStoreError e), mkSt (st_db st) (st_step st2))
      | (Ok a, st2) =>
        match e_ctx env (st_step st2) with
        | Some e => (Err (WrapError CodeTaskConflict (Some e)), mkSt (st_db st) (S (st_step st2)))
        | None =>
          match e_fault env (S (st_step st2)) with
          | Some e => (Err (classifyStoreError e), mkSt (st_db st) (S (S (st_step st2))))
          | None => (Ok a, mkSt (st_db st2) (S (S (st_step st2))))
          end
        end
      end
    end
  end.

(** [validateService] on a service [NewService] built. *)
Definition validateService : M unit :=
  claimant ← ask e_claimantID;
  _ ← lift (fail_if (! requiredIdentity claimant) ErrTaskConflict);
  catch ctx_err (fun e => fail (WrapError CodeTaskConflict (Some e))).

(** ** Constraints of the schema *)
Definition constraint_failed : error := Opaque "constraint failed" None.

Definition activeState (s : State) : bool :=
  match s with StateWaiting | StateRunning | StatePaused => true | _ => false end.

Definition task_key (c : taskRowColumns) : AgentSessionKey * string := (co_owner c, co_taskID c).
Definition task_checks (c : taskRowColumns) : bool :=
  (1 <=? co_revision c)%Z && (co_revision c <=? MaxInt64)%Z && validOptionalTick (co_nextWakeAt c).
(** [idx_tasks_create_call] and [idx_tasks_active_equivalence]. *)
Definition task_conflict (a b : taskRowColumns) : bool :=
  (co_owner a == co_owner b)
  && (((co_createEventID a == co_createEventID b) && (co_createTurnID a == co_createTurnID b)
       && (co_createCallID a == co_createCallID b))
      || ((co_equivalenceKey a != "") && (co_equivalenceKey a == co_equivalenceKey b)
          && activeState (co_state a) && activeState (co_state b))).

Definition wake_checks (w : wakeRow) : bool :=
  let i := wr_indexed w in
  (1 <=? to_i64 (w_ExpectedRevision i))%Z && (0 <=? w_DueTick i)%Z && (1 <=? to_i64 (w_Generation i))%Z
  && (0 <=? w_Attempt i)%Z && (0 <=? w_RetryAfterUnixMS i)%Z.
Definition wake_task (w : Wake) : AgentSessionKey * string := (w_Owner w, w_TaskID w).
(** The UNIQUE constraint of the table and [idx_task_wakeups_executable_task]. *)
Definition wake_conflict (a b : wakeRow) : bool :=
  let i := wr_indexed a in
  let j := wr_indexed b in
  (wake_task i == wake_task j)
  && (((w_ExpectedRevision i =? w_ExpectedRevision j)%N && (w_Reason i == w_Reason j))
      || (executableStatus (w_Status i) && executableStatus (w_Status j))).

Definition no_other {K A} `{Countable K} (k : K) (conflict : A -> bool) (m : gmap K A) : bool :=
  bool_decide (map_Forall (fun k' x => k' <> k -> conflict x = false) m).

Definition put_task (c : taskRowColumns) (db : DB) : outcome error DB :=
  if task_checks c && no_other (task_key c) (task_conflict c) (db_tasks db)
  then Ok (mkDB (db_heads db) (<[task_key c := c]> (db_tasks db)) (db_wakes db) (db_checkpoints db))
  else Err constraint_failed.
Definition put_wake (w : wakeRow) (db : DB) : outcome error DB :=
  if wake_checks w && no_other (w_ID (wr_indexed w)) (wake_conflict w) (db_wakes db)
     && bool_decide (is_Some (db_tasks db !! wake_task (wr_indexed w)))
  then Ok (mkDB (db_heads db) (db_tasks db) (<[w_ID (wr_indexed w) := w]> (db_wakes db)) (db_checkpoints db))
  else Err constraint_failed.
Definition put_head (k : WorldKey) (c : headColumns) (db : DB) : outcome error DB :=
  if (1 <=? hc_generation c)%Z && (0 <=? hc_clockTick c)%Z && (0 <=? hc_clockSequence c)%Z
  then Ok (mkDB (<[k := c]> (db_heads db)) (db_tasks db) (db_wakes db) (db_checkpoints db))
  else Err constraint_failed.

(** [INSERT INTO tasks] and [INSERT INTO task_wakeups]. *)
Definition insert_task (c : taskRowColumns) : M unit :=
  exec (fun db => _ ← fail_if (bool_decide (is_Some (db_tasks db !! task_key c))) constraint_failed;
                  db' ← put_task c db; Ok (tt, db')).
Definition insert_wake (w : wakeRow) : M unit :=
  exec (fun db => _ ← fail_if (bool_decide (is_Some (db_wakes db !! w_ID (wr_indexed w)))) constraint_failed;
                  db' ← put_wake w db; Ok (tt, db')).

(** [UPDATE ... WHERE key AND guard], the key fixing at most one row; the result is
    [RowsAffected]. *)
Definition update_task (k : AgentSessionKey * string) (guard : taskRowColumns -> bool)
    (set : taskRowColumns -> taskRowColumns) : M Z :=
  exec (fun db => match db_tasks db !! k with
                  | Some c => if guard c then db' ← put_task (set c) db; Ok (1%Z, db') else Ok (0%Z, db)
                  | None => Ok (0%Z, db)
                  end).
Definition update_wake (k : string) (guard : wakeRow -> bool) (set : wakeRow -> wakeRow) : M Z :=
  exec (fun db => match db_wakes db !! k with
                  | Some c => if guard c then db' ← put_wake (set c) db; Ok (1%Z, db') else Ok (0%Z, db)
                  | None => Ok (0%Z, db)
                  end).
Definition update_head (k : WorldKey) (guard : headColumns -> bool) (set : headColumns -> headColumns) : M Z :=
  exec (fun db => match db_heads db !! k with
                  | Some c => if guard c then db' ← put_head k (set c) db; Ok (1%Z, db') else Ok (0%Z, db)
                  | None => Ok (0%Z, db)
                  end).
(** [if affected != 1 { return ErrTaskChanged }]. *)
Definition affected_one (affected : Z) : M unit := lift (fail_if (! (affected =? 1)%Z) ErrTaskChanged).

(** ** Selections *)
Definition task_row_less (a b : taskRowColumns) : bool :=
  if EntityID (co_owner a) != EntityID (co_owner b) then str_lt (EntityID (co_owner a)) (EntityID (co_owner b))
  else str_lt (co_taskID a) (co_taskID b).
Definition rows_where (p : taskRowColumns -> bool) (db : DB) : list taskRowColumns :=
  sort_slice task_row_less (List.filter p ((map_to_list (db_tasks db)).*2)).
Definition in_world (world : WorldKey) (o : AgentSessionKey) : bool := sameOwnerWorld o world.

Definition wakes_where (p : wakeRow -> bool) (less : wakeRow -> wakeRow -> bool) (db : DB) : list wakeRow :=
  sort_slice less (List.filter p ((map_to_list (db_wakes db)).*2)).

(** [validateTaskLookup]. *)
Definition validateTaskLookup (owner : AgentSessionKey) (taskID : string) : outcome error unit :=
  fail_if (! is_ok (validateOwner owner) || ! requiredIdentity taskID) ErrInvalidTaskSpec.

(** Decode every selected row, in order. *)
Definition decode_rows (l : list taskRowColumns) : outcome error (list decodedTask) := 
  foldr (fun c acc => d ← decodeTaskRowColumns c; t ← acc; Ok (d :: t)) (Ok []) l.

(** ** Runs of the monad *)
Lemma M_bind_ok {A B} (m : M A) (f : A -> M B) env st b st' :
  (m ≫= f) env st = (Ok b, st') <->
  exists a st1, m env st = (Ok a, st1) /\ f a env st1 = (Ok b, st').
Proof.
  unfold mbind, M_bind. destruct (m env st) as [[a|e] st1]; split; intros H; deex; simplify_eq; eauto.
Qed.

Lemma lift_ok {A} (o : outcome error A) env st a st' :
  lift o env st = (Ok a, st') <-> o = Ok a /\ st' = st.
Proof. unfold lift. naive_solver. Qed.
Lemma ret_ok {A} (x : A) env st a st' : (mret x : M A) env st = (Ok a, st') <-> a = x /\ st' = st.
Proof. unfold mret, M_ret. naive_solver. Qed.
Lemma ask_ok {A} (f : Env -> A) env st a st' : ask f env st = (Ok a, st') <-> a = f env /\ st' = st.
Proof. unfold ask. naive_solver. Qed.
Lemma fail_ok {A} e env st (a : A) st' : fail e env st = (Ok a, st') <-> False.
Proof. unfold fail. naive_solver. Qed.
Lemma ctx_err_ok env st u st' : ctx_err env st = (Ok u, st') -> st' = tick st.
Proof. unfold ctx_err. naive_solver. Qed.
Lemma query_ok {A} (q : DB -> outcome error A) env st a st' :
  query q env st = (Ok a, st') -> q (st_db st) = Ok a /\ st' = tick st.
Proof. unfold query. destruct (e_fault _ _); naive_solver. Qed.
Lemma exec_ok {A} (x : DB -> outcome error (A * DB)) env st a st' :
  exec x env st = (Ok a, st') -> x (st_db st) = Ok (a, st_db st').
Proof. unfold exec. destruct (e_fault _ _); [done|]. destruct (x _) as [[? ?]|]; naive_solver. Qed.

Lemma tx_ok {A} (cb : M A) env st a st' :
  withImmediateTransaction cb env st = (Ok a, st') ->
  exists st1 st2, st_db st1 = st_db st /\ cb env st1 = (Ok a, st2) /\ st_db st' = st_db st2.
Proof.
  unfold withImmediateTransaction. destruct (e_ctx _ _); [done|]. destruct (e_fault _ _); [done|].
  destruct (cb _ _) as [[b|e] st2] eqn:Hcb; [|done].
  destruct (e_ctx _ _); [done|]. destruct (e_fault _ _); [done|].
  intros [= -> <-]. exists (tick (tick st)), st2. done.
Qed.

Lemma tx_err {A} (cb : M A) env st e st' :
  withImmediateTransaction cb env st = (Err e, st') -> st_db st' = st_db st.
Proof.
  unfold withImmediateTransaction. intros H.
  destruct (e_ctx env (st_step st)); [by simplify_eq/=|]. destruct (e_fault _ _); [by simplify_eq/=|].
  destruct (cb _ _) as [[b|e'] st2]; [|by simplify_eq/=].
  destruct (e_ctx _ _); [by simplify_eq/=|]. destruct (e_fault _ _); by simplify_eq/=.
Qed.
