(* ===== verification/Graph.v ===== *)
(** * World task identity graph: [world_identity.go]

    One pass over every task row of a world.  Operation ids, fact ids and
    complete source identities are unique across the world, not only within a
    record; a repetition is the ambiguity sentinel, which each caller maps to its
    own code. *)

From S2P Require Export Store.

Local Open Scope go_scope.

Record worldOperationIdentity := {
  wo_operation : Operation; wo_owner : AgentSessionKey; wo_taskID : string; wo_clockID : string
}.
Record worldEvidenceIdentity := {
  we_evidence : Evidence; we_owner : AgentSessionKey; we_taskID : string
}.
Record worldTaskIdentityGraph := mkGraph {
  g_tasks : gmap (AgentSessionKey * string) storedIntentTask;
  g_operations : gmap string worldOperationIdentity;
  g_facts : gmap string worldEvidenceIdentity;
  g_sources : gset evidenceSourceIdentity
}.
Definition empty_graph : worldTaskIdentityGraph := mkGraph ∅ ∅ ∅ ∅.

(** Loop over [record.Operations]. *)
Fixpoint add_operations (r : TaskRecord) (l : list Operation) (m : gmap string worldOperationIdentity) :
    outcome error (gmap string worldOperationIdentity) :=
  match l with
  | [] => Ok m
  | o :: t =>
    _ ← fail_if (bool_decide (is_Some (m !! op_ID o))) errAmbiguousWorldTaskIdentityGraph;
    add_operations r t (<[op_ID o := {| wo_operation := o; wo_owner := r_Owner r; wo_taskID := r_ID r;
                                        wo_clockID := sp_ClockID (r_Spec r) |}]> m)
  end.

(** Loop over [record.Evidence]. *)
Fixpoint add_facts (r : TaskRecord) (l : list Evidence) (m : gmap string worldEvidenceIdentity)
    (s : gset evidenceSourceIdentity) :
    outcome error (gmap string worldEvidenceIdentity * gset evidenceSourceIdentity) :=
  match l with
  | [] => Ok (m, s)
  | e :: t =>
    _ ← fail_if (bool_decide (is_Some (m !! ev_FactID e))) errAmbiguousWorldTaskIdentityGraph;
    let m' := <[ev_FactID e := {| we_evidence := e; we_owner := r_Owner r; we_taskID := r_ID r |}]> m in
    match completeEvidenceSourceIdentity (ev_Source e) with
    | None => add_facts r t m' s
    | Some source =>
      _ ← fail_if (bool_decide (source ∈ s)) errAmbiguousWorldTaskIdentityGraph;
      add_facts r t m' ({[source]} ∪ s)
    end
  end.

(** One row of the result set. *)
Definition graph_add (g : worldTaskIdentityGraph) (c : taskRowColumns) :
    outcome error worldTaskIdentityGraph :=
  decoded ← decodeTaskRowColumns c;
  let r := dt_record decoded in
  let identity := (r_Owner r, r_ID r) in
  _ ← fail_if (bool_decide (is_Some (g_tasks g !! identity))) errAmbiguousWorldTaskIdentityGraph;
  operations ← add_operations r (r_Operations r) (g_operations g);
  '(facts, sources) ← add_facts r (r_Evidence r) (g_facts g) (g_sources g);
  Ok (mkGraph (<[identity := {| st_record := r; st_history := dt_history decoded |}]> (g_tasks g))
        operations facts sources).

Fixpoint build_graph (g : worldTaskIdentityGraph) (rows : list taskRowColumns) :
    outcome error worldTaskIdentityGraph :=
  match rows with
  | [] => Ok g
  | c :: t => g' ← graph_add g c; build_graph g' t
  end.

Definition world_rows (world : WorldKey) : DB -> list taskRowColumns :=
  rows_where (fun c => in_world world (co_owner c)).

Definition loadWorldTaskIdentityGraph (world : WorldKey) : M worldTaskIdentityGraph :=
  _ ← lift (WorldKey_Validate world);
  rows ← query (fun db => Ok (world_rows world db));
  lift (build_graph empty_graph rows).

(** Callers rename the sentinel: [loadWorldTaskGraphForWakeTx] to [ErrInvalidTaskSpec],
    and so on. *)
Definition graph_or (ambiguous : error) (world : WorldKey) : M worldTaskIdentityGraph :=
  catch (loadWorldTaskIdentityGraph world) (fun e => fail (if Is_ambiguous e then ambiguous else e)).
Definition loadWorldTaskGraphForWakeTx (world : WorldKey) : M worldTaskIdentityGraph :=
  graph_or ErrInvalidTaskSpec world.

Definition validateWorldTaskIdentityGraph (world : WorldKey) : M unit :=
  catch (_ ← loadWorldTaskIdentityGraph world; mret tt)
    (fun e => fail (if Is_ambiguous e then ErrInvalidTaskSpec else classifyStoreError e)).

(** [loadIntentTaskTx] and [loadWorldTaskByIDTx]. *)
Definition loadIntentTaskTx (owner : AgentSessionKey) (taskID : string) : M storedIntentTask :=
  query (fun db =>
    match db_tasks db !! (owner, taskID) with
    | None => Err ErrTaskNotFound
    | Some c => decoded ← decodeTaskRowColumns c;
                Ok {| st_record := dt_record decoded; st_history := dt_history decoded |}
    end).

Definition loadWorldTaskByIDTx (world : WorldKey) (taskID : string) : M storedIntentTask :=
  _ ← lift (fail_if (! requiredIdentity taskID) ErrInvalidTaskSpec);
  rows ← query (fun db => Ok (rows_where (fun c => in_world world (co_owner c) && (co_taskID c == taskID)) db));
  decoded ← lift (decode_rows rows);
  match decoded with
  | [] => fail ErrTaskNotFound
  | [d] => mret {| st_record := dt_record d; st_history := dt_history d |}
  | _ => fail ErrEvidenceConflict
  end.

(** ** Read-only computations *)
Class ReadOnly {A} (m : M A) : Prop := read_only : forall env st o st', m env st = (o, st') -> st_db st' = st_db st.

#[export] Instance ro_ret {A} (a : A) : ReadOnly (mret a : M A).
Proof. intros ???? [= _ <-]. done. Qed.
#[export] Instance ro_fail {A} e : ReadOnly (@fail A e).
Proof. intros ???? [= _ <-]. done. Qed.
#[export] Instance ro_lift {A} (x : outcome error A) : ReadOnly (lift x).
Proof. intros ???? [= _ <-]. done. Qed.
#[export] Instance ro_ask {A} (f : Env -> A) : ReadOnly (ask f).
Proof. intros ???? [= _ <-]. done. Qed.
#[export] Instance ro_now : ReadOnly nowUnixMS.
Proof. intros ???? [= _ <-]. done. Qed.
#[export] Instance ro_newID p : ReadOnly (newID p).
Proof. intros ???? [= _ <-]. done. Qed.
#[export] Instance ro_ctx_err : ReadOnly ctx_err.
Proof. intros ???? [= _ <-]. done. Qed.
#[export] Instance ro_affected n : ReadOnly (affected_one n).
Proof. apply ro_lift. Qed.
#[export] Instance ro_query {A} (q : DB -> outcome error A) : ReadOnly (query q).
Proof. intros ???? H. unfold query in H. destruct (e_fault _ _); by simplify_eq/=. Qed.
#[export] Instance ro_bind {A B} (m : M A) (f : A -> M B) :
  ReadOnly m -> (forall a, ReadOnly (f a)) -> ReadOnly (m ≫= f).
Proof.
  intros Hm Hf env st o st' H. unfold mbind, M_bind in H.
  destruct (m env st) as [[a|e] st1] eqn:Hr; [|by simplify_eq; eapply Hm].
  rewrite (Hf _ _ _ _ _ H). by eapply Hm.
Qed.
#[export] Instance ro_catch {A} (m : M A) h : ReadOnly m -> (forall e, ReadOnly (h e)) -> ReadOnly (catch m h).
Proof.
  intros Hm Hh env st o st' H. unfold catch in H.
  destruct (m env st) as [[a|e] st1] eqn:Hr; [by simplify_eq; eapply Hm|].
  rewrite (Hh _ _ _ _ _ H). by eapply Hm.
Qed.
#[export] Instance ro_if {A} (b : bool) (m n : M A) : ReadOnly m -> ReadOnly n -> ReadOnly (if b then m else n).
Proof. by destruct b. Qed.
#[export] Instance ro_option {A B} (o : option A) (f : A -> M B) (n : M B) :
  (forall a, ReadOnly (f a)) -> ReadOnly n -> ReadOnly (match o with Some a => f a | None => n end).
Proof. by destruct o. Qed.

#[export] Hint Extern 8 (ReadOnly (match _ with _ => _ end)) => case_match : typeclass_instances.

#[export] Instance ro_graph w : ReadOnly (loadWorldTaskIdentityGraph w).
Proof. apply _. Qed.
#[export] Instance ro_graph_or e w : ReadOnly (graph_or e w).
Proof. apply _. Qed.
#[export] Instance ro_loadIntent o t : ReadOnly (loadIntentTaskTx o t).
Proof. apply _. Qed.
#[export] Instance ro_loadByID w t : ReadOnly (loadWorldTaskByIDTx w t).
Proof.
  unfold loadWorldTaskByIDTx. do 3 (apply ro_bind; [apply _|intros ?]).
  repeat case_match; apply _.
Qed.
#[export] Instance ro_validateService : ReadOnly validateService.
Proof. apply _. Qed.
