(* ===== verification/Heads.v ===== *)
(** * World heads: loading for mutation, clock, deactivation and the save barrier

    The head half of [sqlite_store.go], [service.go] (clock and authority checks)
    and [checkpoint.go] ([UpdateClock], [DeactivateWorld], [FinishCheckpoint],
    [ReadCheckpointBarrier] and the barrier's expiry). *)

From S2P Require Export Graph.

Local Open Scope go_scope.

(** ** Loading *)
Definition loadWorldHeadTx (world : WorldKey) : M (option worldHeadRow) :=
  query (fun db => match db_heads db !! world with
                   | None => Ok None
                   | Some c => row ← scanWorldHeadRow world c; Ok (Some row)
                   end).

Definition scanCheckpointRow (row : checkpointRow) : outcome error checkpointRow :=
  _ ← or_err (checkpointRow_validate row) ErrCheckpointInvalid; Ok row.
Definition checkpoint_where (p : checkpointRow -> bool) (db : DB) : option checkpointRow :=
  find p ((map_to_list (db_checkpoints db)).*2).
Definition loadCheckpointBySaveRequestTx (world : WorldKey) (saveRequestID : string) : M (option checkpointRow) :=
  _ ← lift (fail_if (! requiredIdentity saveRequestID) ErrInvalidTaskSpec);
  query (fun db =>
    match checkpoint_where (fun c => (cp_World c == world) && (cp_SaveRequestID c == saveRequestID)) db with
    | None => Ok None
    | Some row => r ← scanCheckpointRow row; Ok (Some r)
    end).

Definition validateRestartBarrierTx (head : worldHeadRow) : M unit :=
  if (wh_SaveRequestID head == "") && (wh_BarrierStatus head == "") then mret tt else
  _ ← lift (fail_if ((wh_BarrierStatus head != checkpointBarrierPrepared)
                     || ! requiredIdentity (wh_SaveRequestID head)
                     || ! requiredIdentity (hd_CheckpointID (wh_Head head))) ErrCheckpointInvalid);
  found ← loadCheckpointBySaveRequestTx (bd_World (hd_Binding (wh_Head head))) (wh_SaveRequestID head);
  row ← lift (of_option found ErrCheckpointInvalid);
  _ ← lift (fail_if (cp_ID row != hd_CheckpointID (wh_Head head)) ErrCheckpointInvalid);
  snapshot ← lift (or_err (decodeCheckpointRow row) ErrCheckpointInvalid);
  lift (fail_if (sn_PreparedHead snapshot != wh_Head head) ErrCheckpointInvalid).

(** ** Compare-and-swap of a head row *)
Definition updateWorldHeadCASTx (before updated : worldHeadRow) : M unit :=
  _ ← lift (worldHeadRow_validate before);
  _ ← lift (fail_if (! is_ok (worldHeadRow_validate updated)
                     || (bd_World (hd_Binding (wh_Head before)) != bd_World (hd_Binding (wh_Head updated))))
              ErrInvalidTaskSpec);
  affected ← update_head (bd_World (hd_Binding (wh_Head before)))
               (fun c => marshalWorldHeadRow (hc_headJSON c) == marshalWorldHeadRow before)
               (fun _ => head_columns updated);
  _ ← affected_one affected;
  ctx_err.

(** Field assignments on a head row. *)
Definition with_barrier (saveRequestID status : string) (preparedAt : Z) (r : worldHeadRow) : worldHeadRow :=
  {| wh_Head := wh_Head r; wh_SaveRequestID := saveRequestID; wh_BarrierStatus := status;
     wh_BarrierPreparedAtUnixMS := preparedAt; wh_RuntimeInstanceID := wh_RuntimeInstanceID r;
     wh_RecoveryRunID := wh_RecoveryRunID r; wh_RecoveryError := wh_RecoveryError r |}.
Definition with_head (h : Head) (r : worldHeadRow) : worldHeadRow :=
  {| wh_Head := h; wh_SaveRequestID := wh_SaveRequestID r; wh_BarrierStatus := wh_BarrierStatus r;
     wh_BarrierPreparedAtUnixMS := wh_BarrierPreparedAtUnixMS r;
     wh_RuntimeInstanceID := wh_RuntimeInstanceID r; wh_RecoveryRunID := wh_RecoveryRunID r;
     wh_RecoveryError := wh_RecoveryError r |}.
Definition head_with_clock (clock : Clock) (h : Head) : Head :=
  {| hd_Binding := hd_Binding h; hd_Clock := clock; hd_CheckpointID := hd_CheckpointID h;
     hd_Status := hd_Status h; hd_Reason := hd_Reason h |}.
Definition head_paused (reason : string) (h : Head) : Head :=
  {| hd_Binding := hd_Binding h; hd_Clock := hd_Clock h; hd_CheckpointID := hd_CheckpointID h;
     hd_Status := worldHeadStatusPaused; hd_Reason := reason |}.

(** Is the prepared barrier of this instance older than its bound? *)
Definition barrier_ours (claimantID : string) (r : worldHeadRow) : bool :=
  (wh_BarrierStatus r == checkpointBarrierPrepared) && (wh_SaveRequestID r != "")
  && (0 <? wh_BarrierPreparedAtUnixMS r)%Z && (wh_RuntimeInstanceID r == claimantID).
Definition barrier_expired (timeout now : Z) (r : worldHeadRow) : bool :=
  (wh_BarrierPreparedAtUnixMS r <=? now)%Z && (timeout <=? wrap_i64 (now - wh_BarrierPreparedAtUnixMS r))%Z.

Definition releaseExpiredCheckpointBarrierTx (current : worldHeadRow) : M worldHeadRow :=
  claimant ← ask e_claimantID;
  if ! barrier_ours claimant current then mret current else
  now ← nowUnixMS;
  _ ← lift (fail_if (now <=? 0)%Z ErrInvalidTaskSpec);
  timeout ← ask (fun env => CheckpointBarrierTimeoutMS (e_options env));
  if ! barrier_expired timeout now current then mret current else
  _ ← validateRestartBarrierTx current;
  let updated := with_barrier "" "" 0 current in
  _ ← updateWorldHeadCASTx current updated;
  mret updated.

(** [loadWorldHeadForMutationTx] with the caller's [!found] branch. *)
Definition loadWorldHeadForMutationTx (world : WorldKey) : M worldHeadRow :=
  found ← loadWorldHeadTx world;
  match found with
  | None => fail ErrWorldNotReady
  | Some current => releaseExpiredCheckpointBarrierTx current
  end.

(** ** Authority and clock checks *)
Definition validateMonotonicClock (current supplied : Clock) : outcome error unit :=
  _ ← fail_if (ck_ID current != ck_ID supplied) ErrClockMismatch;
  _ ← fail_if ((ck_Tick supplied <? ck_Tick current)%Z || (ck_Sequence supplied <? ck_Sequence current)%N)
        ErrClockRewound;
  fail_if ((supplied != current) && (ck_Sequence supplied =? ck_Sequence current)%N) ErrClockMismatch.

Definition validateExactWakeClock (current supplied : Clock) : outcome error unit :=
  _ ← fail_if (ck_ID current != ck_ID supplied) ErrClockMismatch;
  _ ← fail_if ((ck_Tick supplied <? ck_Tick current)%Z || (ck_Sequence supplied <? ck_Sequence current)%N)
        ErrClockRewound;
  fail_if (current != supplied) ErrClockMismatch.

Definition validateCreateAuthority (head : worldHeadRow) (exec : ExecutionContext) : outcome error unit :=
  _ ← fail_if (hd_Status (wh_Head head) != worldHeadStatusReady) ErrWorldNotReady;
  _ ← fail_if ((wh_BarrierStatus head != "") || (wh_SaveRequestID head != "")) ErrSaveInProgress;
  _ ← fail_if (hd_Binding (wh_Head head) != ex_Binding exec) ErrGenerationStale;
  _ ← fail_if (ck_ID (hd_Clock (wh_Head head)) != ck_ID (ex_Clock exec)) ErrClockMismatch;
  _ ← fail_if ((ck_Tick (ex_Clock exec) <? ck_Tick (hd_Clock (wh_Head head)))%Z
               || (ck_Sequence (ex_Clock exec) <? ck_Sequence (hd_Clock (wh_Head head)))%N) ErrClockRewound;
  fail_if (hd_Clock (wh_Head head) != ex_Clock exec) ErrClockMismatch.

Definition validateWakeWorldAuthority (head : worldHeadRow) (binding : Binding) (claimantID : string) :
    outcome error unit :=
  _ ← fail_if (hd_Status (wh_Head head) != worldHeadStatusReady) ErrWorldNotReady;
  _ ← fail_if ((wh_BarrierStatus head != "") || (wh_SaveRequestID head != "")) ErrSaveInProgress;
  _ ← fail_if (hd_Binding (wh_Head head) != binding) ErrGenerationStale;
  fail_if (wh_RuntimeInstanceID head != claimantID) ErrTaskChanged.

Definition validateEvidenceAuthority (head : worldHeadRow) (binding : Binding) : outcome error unit :=
  _ ← fail_if (hd_Status (wh_Head head) != worldHeadStatusReady) ErrWorldNotReady;
  _ ← fail_if ((wh_BarrierStatus head != "") || (wh_SaveRequestID head != "")) ErrSaveInProgress;
  _ ← fail_if (bd_World (hd_Binding (wh_Head head)) != bd_World binding) ErrWorldMismatch;
  fail_if (hd_Binding (wh_Head head) != binding) ErrGenerationStale.

(** ** Service operations on heads *)
Definition loadWorldHead (world : WorldKey) : M worldHeadRow :=
  _ ← lift (WorldKey_Validate world);
  catch (query (fun db => match db_heads db !! world with
                          | None => Err NoRows
                          | Some c => scanWorldHeadRow world c
                          end))
    (fun e => fail (if Is_norows e then ErrTaskNotFound else classifyStoreError e)).
#[export] Instance ro_loadWorldHead w : ReadOnly (loadWorldHead w). Proof. apply _. Qed.

Definition ReadHead (world : WorldKey) : M Head :=
  _ ← validateService;
  row ← loadWorldHead world;
  mret (wh_Head row).

Definition UpdateClock (binding : Binding) (clock : Clock) : M Head :=
  _ ← validateService;
  _ ← lift (Binding_Validate binding);
  _ ← lift (fail_if (! is_ok (Clock_Validate clock) || (MaxInt64N <? ck_Sequence clock)%N) ErrInvalidTaskSpec);
  withImmediateTransaction (
    current ← loadWorldHeadForMutationTx (bd_World binding);
    claimant ← ask e_claimantID;
    _ ← lift (validateWakeWorldAuthority current binding claimant);
    _ ← lift (fail_if (ck_ID (hd_Clock (wh_Head current)) != ck_ID clock) ErrClockMismatch);
    _ ← lift (validateMonotonicClock (hd_Clock (wh_Head current)) clock);
    if clock == hd_Clock (wh_Head current) then mret (wh_Head current) else
    let updated := with_head (head_with_clock clock (wh_Head current)) current in
    _ ← updateWorldHeadCASTx current updated;
    mret (wh_Head updated)).

Definition DeactivateWorld (binding : Binding) (reason : string) : M unit :=
  _ ← validateService;
  _ ← lift (fail_if (! is_ok (Binding_Validate binding) || ! requiredIdentity reason) ErrInvalidTaskSpec);
  withImmediateTransaction (
    current ← loadWorldHeadForMutationTx (bd_World binding);
    claimant ← ask e_claimantID;
    _ ← lift (fail_if (hd_Binding (wh_Head current) != binding) ErrGenerationStale);
    _ ← lift (fail_if (wh_RuntimeInstanceID current != claimant) ErrTaskChanged);
    _ ← lift (fail_if ((wh_BarrierStatus current != "") || (wh_SaveRequestID current != "")) ErrSaveInProgress);
    if (hd_Status (wh_Head current) == worldHeadStatusPaused) && (hd_Reason (wh_Head current) == reason)
    then mret tt else
    _ ← lift (fail_if (hd_Status (wh_Head current) != worldHeadStatusReady) ErrWorldNotReady);
    updateWorldHeadCASTx current (with_head (head_paused reason (wh_Head current)) current)).

Definition FinishCheckpoint (binding : Binding) (saveRequestID : string) (saved : bool) : M unit :=
  _ ← validateService;
  _ ← lift (fail_if (! is_ok (Binding_Validate binding) || ! requiredIdentity saveRequestID) ErrInvalidTaskSpec);
  withImmediateTransaction (
    current ← loadWorldHeadForMutationTx (bd_World binding);
    claimant ← ask e_claimantID;
    _ ← lift (fail_if (hd_Binding (wh_Head current) != binding) ErrGenerationStale);
    _ ← lift (fail_if (wh_RuntimeInstanceID current != claimant) ErrTaskChanged);
    found ← loadCheckpointBySaveRequestTx (bd_World binding) saveRequestID;
    checkpoint ← lift (of_option found ErrTaskChanged);
    _ ← lift (fail_if (hd_CheckpointID (wh_Head current) != cp_ID checkpoint) ErrTaskChanged);
    if (wh_SaveRequestID current == "") && (wh_BarrierStatus current == "") then mret tt else
    _ ← lift (fail_if ((wh_SaveRequestID current != saveRequestID)
                       || (wh_BarrierStatus current != checkpointBarrierPrepared)) ErrTaskChanged);
    updateWorldHeadCASTx current (with_barrier "" "" 0 current)).

Record CheckpointBarrier := { cb_Held : bool; cb_SaveRequestID : string; cb_ExpiresAtUnixMS : Z }.

Definition ReadCheckpointBarrier (world : WorldKey) : M CheckpointBarrier :=
  _ ← validateService;
  _ ← lift (WorldKey_Validate world);
  withImmediateTransaction (
    current ← loadWorldHeadForMutationTx world;
    claimant ← ask e_claimantID;
    _ ← lift (fail_if (wh_RuntimeInstanceID current != claimant) ErrTaskChanged);
    if (wh_BarrierStatus current == "") && (wh_SaveRequestID current == "")
    then mret {| cb_Held := false; cb_SaveRequestID := ""; cb_ExpiresAtUnixMS := 0 |}
    else
      timeout ← ask (fun env => CheckpointBarrierTimeoutMS (e_options env));
      mret {| cb_Held := true; cb_SaveRequestID := wh_SaveRequestID current;
              cb_ExpiresAtUnixMS := if (0 <? wh_BarrierPreparedAtUnixMS current)%Z
                                    then wrap_i64 (wh_BarrierPreparedAtUnixMS current + timeout) else 0 |}).
