(* ===== verification/Mutations.v ===== *)
(** * Row mutations: the prepare/update pairs shared by the service operations

    Each operation prepares the new record (validation, immutability, byte
    capacity) and then writes it by a compare-and-swap on the row it read. *)

From S2P Require Export Heads.

Local Open Scope go_scope.

(** ** Preparing *)
Definition maxTaskBytes : M Z := ask (fun env => MaxTaskBytes (e_options env)).

(** The tail of every [prepare] method: the texts the capacity check measures.
    [initial] is the record the create response is recomputed from. *)
Definition prepare_capacity (updated initial : TaskRecord) (history : list intentCall) : M unit :=
  _ ← lift (of_option (marshalRecord updated) ErrInvalidTaskSpec);
  createResponseJSON ← lift (of_option (marshalCreateResult (initialCreateResult initial)) ErrInvalidTaskSpec);
  intentHistoryJSON ← lift (of_option (marshalHistory history) ErrInvalidTaskSpec);
  limit ← maxTaskBytes;
  lift (validateTaskMutationCapacity limit updated createResponseJSON intentHistoryJSON).

(** [prepareNoRevisionMutation]: operation and evidence merges leave business state alone. *)
Definition prepareNoRevisionMutation (current : storedIntentTask) (updated : TaskRecord) : M TaskRecord :=
  let before := st_record current in
  _ ← lift (Record_Validate updated);
  _ ← lift (fail_if ((r_ID before != r_ID updated) || (r_Owner before != r_Owner updated)
                     || ! taskSpecsEqual (r_Spec before) (r_Spec updated)
                     || (r_State before != r_State updated)
                     || ! (r_Revision before =? r_Revision updated)%N
                     || ! (r_CreatedAtGameTick before =? r_CreatedAtGameTick updated)%Z
                     || ! (r_CreatedAtUnixMS before =? r_CreatedAtUnixMS updated)%Z
                     || (r_NextWakeAt before != r_NextWakeAt updated)) ErrInvalidTaskSpec);
  _ ← prepare_capacity updated before (st_history current);
  mret updated.

(** [prepareReconcileMutation]. *)
Definition prepareReconcileMutation (current : storedIntentTask) (updated : TaskRecord) : M TaskRecord :=
  let before := st_record current in
  _ ← lift (Record_Validate updated);
  _ ← lift (fail_if ((r_ID before != r_ID updated) || (r_Owner before != r_Owner updated)
                     || ! taskSpecsEqual (r_Spec before) (r_Spec updated)
                     || ! (r_CreatedAtGameTick before =? r_CreatedAtGameTick updated)%Z
                     || ! (r_CreatedAtUnixMS before =? r_CreatedAtUnixMS updated)%Z
                     || ! (r_Revision updated =? wrap_u64 (r_Revision before + 1))%N) ErrInvalidTaskSpec);
  _ ← prepare_capacity updated before (st_history current);
  mret updated.

(** [prepareCleanupMutation]: only the cleanup list may differ, compared as text. *)
Definition prepareCleanupMutation (current : storedIntentTask) (updated : TaskRecord) : M TaskRecord :=
  _ ← lift (Record_Validate updated);
  let expected := set_Cleanup (r_Cleanup updated) (st_record current) in
  _ ← lift (fail_if (! json_texts_equal (marshalRecord updated) (marshalRecord expected)) ErrInvalidTaskSpec);
  _ ← prepare_capacity updated (st_record current) (st_history current);
  mret updated.

(** [prepareBeginMutation]. *)
Definition prepareBeginMutation (current : storedIntentTask) : M TaskRecord :=
  nextRevision ← lift (NextDurableCounter (r_Revision (st_record current)));
  let updated := set_NextWakeAt None (set_Revision nextRevision (set_State StateRunning (st_record current))) in
  _ ← lift (Record_Validate updated);
  _ ← prepare_capacity updated (st_record current) (st_history current);
  mret updated.

(** [prepareIntentMutation]: the response joins the idempotency history. *)
Definition prepareIntentMutation (current : storedIntentTask) (response : TaskRecord)
    (request : intentRequest) (fingerprint : string) : M (list intentCall) :=
  _ ← lift (Record_Validate response);
  responseJSON ← lift (of_option (marshalRecord response) ErrInvalidTaskSpec);
  let call := {| ic_Request := request; ic_RequestHash := fingerprint; ic_Response := response;
                 ic_ResponseHash := sha256Hex responseJSON |} in
  let history := st_history current ++ [call] in
  _ ← prepare_capacity response response history;
  mret history.

(** ** Writing *)
Definition row_key (r : TaskRecord) : AgentSessionKey * string := (r_Owner r, r_ID r).
Definition same_record (before : TaskRecord) (c : taskRowColumns) : bool :=
  json_texts_equal (marshalRecord (co_recordJSON c)) (marshalRecord before).
(** [WHERE state = ? AND revision = ? AND clock_id = ? AND record_json = ?] *)
Definition row_is (before : TaskRecord) (c : taskRowColumns) : bool :=
  (co_state c == r_State before) && (co_revision c =? to_i64 (r_Revision before))%Z
  && (co_clockID c == sp_ClockID (r_Spec before)) && same_record before c.

(** [SET record_json = ?] *)
Definition set_row_record (r : TaskRecord) (c : taskRowColumns) : taskRowColumns :=
  {| co_owner := co_owner c; co_taskID := co_taskID c; co_state := co_state c;
     co_revision := co_revision c; co_clockID := co_clockID c; co_nextWakeAt := co_nextWakeAt c;
     co_createEventID := co_createEventID c; co_createTurnID := co_createTurnID c;
     co_createCallID := co_createCallID c; co_createFingerprint := co_createFingerprint c;
     co_equivalenceKey := co_equivalenceKey c; co_recordJSON := r;
     co_createResponseJSON := co_createResponseJSON c;
     co_createResponseHash := co_createResponseHash c;
     co_intentHistoryJSON := co_intentHistoryJSON c; co_intentHistoryHash := co_intentHistoryHash c |}.
(** [SET state = ?, revision = ?, next_wake_at = ?, record_json = ?] *)
Definition set_row_state (next : option Z) (r : TaskRecord) (c : taskRowColumns) : taskRowColumns :=
  {| co_owner := co_owner c; co_taskID := co_taskID c; co_state := r_State r;
     co_revision := to_i64 (r_Revision r); co_clockID := co_clockID c; co_nextWakeAt := next;
     co_createEventID := co_createEventID c; co_createTurnID := co_createTurnID c;
     co_createCallID := co_createCallID c; co_createFingerprint := co_createFingerprint c;
     co_equivalenceKey := co_equivalenceKey c; co_recordJSON := r;
     co_createResponseJSON := co_createResponseJSON c;
     co_createResponseHash := co_createResponseHash c;
     co_intentHistoryJSON := co_intentHistoryJSON c; co_intentHistoryHash := co_intentHistoryHash c |}.
Definition set_row_clock (clockID : string) (c : taskRowColumns) : taskRowColumns :=
  {| co_owner := co_owner c; co_taskID := co_taskID c; co_state := co_state c;
     co_revision := co_revision c; co_clockID := clockID; co_nextWakeAt := co_nextWakeAt c;
     co_createEventID := co_createEventID c; co_createTurnID := co_createTurnID c;
     co_createCallID := co_createCallID c; co_createFingerprint := co_createFingerprint c;
     co_equivalenceKey := co_equivalenceKey c; co_recordJSON := co_recordJSON c;
     co_createResponseJSON := co_createResponseJSON c;
     co_createResponseHash := co_createResponseHash c;
     co_intentHistoryJSON := co_intentHistoryJSON c; co_intentHistoryHash := co_intentHistoryHash c |}.
Definition set_row_history (history : list intentCall) (hash : string) (c : taskRowColumns) : taskRowColumns :=
  {| co_owner := co_owner c; co_taskID := co_taskID c; co_state := co_state c;
     co_revision := co_revision c; co_clockID := co_clockID c; co_nextWakeAt := co_nextWakeAt c;
     co_createEventID := co_createEventID c; co_createTurnID := co_createTurnID c;
     co_createCallID := co_createCallID c; co_createFingerprint := co_createFingerprint c;
     co_equivalenceKey := co_equivalenceKey c; co_recordJSON := co_recordJSON c;
     co_createResponseJSON := co_createResponseJSON c;
     co_createResponseHash := co_createResponseHash c;
     co_intentHistoryJSON := history; co_intentHistoryHash := hash |}.

(** An update of one task row that must find it, and the stage check after it. *)
Definition update_row (before : TaskRecord) (guard : taskRowColumns -> bool)
    (set : taskRowColumns -> taskRowColumns) : M unit :=
  affected ← update_task (row_key before) guard set;
  _ ← affected_one affected;
  ctx_err.
Definition marshal_before (before : TaskRecord) : M unit :=
  _ ← lift (of_option (marshalRecord before) ErrInvalidTaskSpec); mret tt.

Definition updateNoRevisionRecordTx (before prepared : TaskRecord) : M unit :=
  _ ← marshal_before before;
  update_row before (row_is before) (set_row_record prepared).

Definition updateReconcileRecordTx (before prepared : TaskRecord) : M unit :=
  _ ← marshal_before before;
  update_row before (row_is before)
    (fun c => set_row_clock (sp_ClockID (r_Spec prepared)) (set_row_state (r_NextWakeAt prepared) prepared c)).

(** [updateAttemptRecordTx]; [updateRestartRecordTx] is the same statement. *)
Definition updateAttemptRecordTx (before prepared : TaskRecord) : M unit :=
  _ ← marshal_before before;
  update_row before (fun c => row_is before c && (co_nextWakeAt c == None)) (set_row_state (r_NextWakeAt prepared) prepared).

Definition updateBeginRecordTx (before prepared : TaskRecord) : M unit :=
  _ ← marshal_before before;
  update_row before
    (fun c => row_is before c && (r_NextWakeAt before != None) && (co_nextWakeAt c == r_NextWakeAt before))
    (set_row_state None prepared).

Definition updateIntentRecordTx (before prepared : TaskRecord) : M unit :=
  update_row before (fun c => (co_revision c =? to_i64 (r_Revision before))%Z) (set_row_state (r_NextWakeAt prepared) prepared).

Definition storeIntentHistoryTx (before prepared : TaskRecord) (history : list intentCall) : M unit :=
  historyJSON ← lift (of_option (marshalHistory history) ErrInvalidTaskSpec);
  update_row before (fun c => (co_revision c =? to_i64 (r_Revision prepared))%Z)
    (set_row_history history (sha256Hex historyJSON)).
