(* ===== verification/Wakes.v ===== *)
(** * Wakes: the delivery state machine of [wake.go] and the wake half of [intent.go]

    A wake goes [pending -> claimed -> enqueued -> running -> consumed]; a released
    claim goes back to [pending].  Every transition is a compare-and-swap on all
    the columns of the row, made only after the world's task graph, the wake row
    and their relation have been re-validated. *)

From S2P Require Export Mutations.

Local Open Scope go_scope.

Definition wakeReasonCreated : string := "created".
Definition wakeReasonIntentWait : string := "intent_wait".
Definition wakeReasonEvidenceWait : string := "evidence_wait".

(** ** Rows *)
Definition wake_row (clockID : string) (w : Wake) : wakeRow :=
  {| wr_indexed := w; wr_clockID := clockID; wr_json := w |}.

(** [insertWakeTx]. *)
Definition insertWakeTx (r : TaskRecord) (w : Wake) : M unit :=
  _ ← lift (validateTaskWakePair r w);
  _ ← insert_wake (wake_row (sp_ClockID (r_Spec r)) w);
  ctx_err.

(** [updateWakeCASTx]; the WHERE clause compares every column with the row read. *)
Definition updateWakeCASTx (before : durableWake) (updated : Wake) : M unit :=
  _ ← lift (Wake_Validate updated);
  let w := dw_wake before in
  _ ← lift (fail_if ((w_ID updated != w_ID w) || (w_TaskID updated != w_TaskID w)
                     || (w_Owner updated != w_Owner w)
                     || ! (w_ExpectedRevision updated =? w_ExpectedRevision w)%N
                     || ! (w_DueTick updated =? w_DueTick w)%Z || (w_Reason updated != w_Reason w))
              ErrInvalidTaskSpec);
  affected ← update_wake (w_ID w)
    (fun c => (wr_indexed c == w) && (wr_clockID c == sp_ClockID (r_Spec (st_record (dw_record before))))
              && (marshalWake (wr_json c) == marshalWake (dw_raw before)))
    (fun c => {| wr_indexed := updated; wr_clockID := wr_clockID c; wr_json := updated |});
  _ ← affected_one affected;
  ctx_err.

Definition by_wake_id (a b : wakeRow) : bool := str_lt (w_ID (wr_indexed a)) (w_ID (wr_indexed b)).

(** The rows [consumeWakesTx] selects: at most two unconsumed wakes of the task. *)
Definition unconsumed_wakes (r : TaskRecord) (db : DB) : list wakeRow :=
  take 2 (wakes_where (fun c => (wake_task (wr_indexed c) == row_key r)
                                && (w_Status (wr_indexed c) != wakeStatusConsumed)) by_wake_id db).

Definition scan_task_wake (head : worldHeadRow) (r : TaskRecord) (c : wakeRow) : outcome error Wake :=
  stored ← validateScannedWake c;
  _ ← fail_if (wr_clockID c != sp_ClockID (r_Spec r)) ErrInvalidTaskSpec;
  _ ← validateDurableWakeRelation head
        {| dw_wake := stored; dw_record := {| st_record := r; st_history := [] |}; dw_raw := stored;
           dw_clock := wr_clockID c |};
  Ok stored.
Fixpoint scan_task_wakes (head : worldHeadRow) (r : TaskRecord) (l : list wakeRow) : outcome error (list Wake) :=
  match l with
  | [] => Ok []
  | c :: t => w ← scan_task_wake head r c; rest ← scan_task_wakes head r t; Ok (w :: rest)
  end.

(** The wake of this generation and runtime that reconciliation may keep running. *)
Definition kept_running (head : worldHeadRow) (keepRunning : bool) (w : Wake) : bool :=
  keepRunning && (w_Status w == wakeStatusRunning)
  && (w_Generation w =? bd_Generation (hd_Binding (wh_Head head)))%N
  && (w_ClaimedBy w == wh_RuntimeInstanceID head).

Definition consume_wake (w : Wake) : M unit :=
  affected ← update_wake (w_ID w)
    (fun c => (wake_task (wr_indexed c) == wake_task w) && (w_Status (wr_indexed c) == w_Status w))
    (fun c => {| wr_indexed := wake_with (wr_indexed c) wakeStatusConsumed (w_ClaimID (wr_indexed c))
                                 (w_ClaimedBy (wr_indexed c)) (w_Generation (wr_indexed c))
                                 (w_Attempt (wr_indexed c)) 0;
                 wr_clockID := wr_clockID c; wr_json := consumed_wake w |});
  affected_one affected.

Fixpoint consume_all (head : worldHeadRow) (keepRunning : bool) (l : list Wake) : M unit :=
  match l with
  | [] => ctx_err
  | w :: t => _ ← (if kept_running head keepRunning w then mret tt else consume_wake w);
              consume_all head keepRunning t
  end.

(** [consumeWakesTx]. *)
Definition consumeWakesTx (head : worldHeadRow) (r : TaskRecord) (keepRunning : bool) : M unit :=
  rows ← query (fun db => Ok (unconsumed_wakes r db));
  wakes ← lift (scan_task_wakes head r rows);
  consume_all head keepRunning wakes.

(** ** Finding wakes *)
Definition graph_wake (head : worldHeadRow) (g : worldTaskIdentityGraph) (row : wakeRow) (w : Wake) :
    outcome error durableWake :=
  record ← of_option (g_tasks g !! (w_Owner w, w_TaskID w)) ErrInvalidTaskSpec;
  let candidate := {| dw_wake := w; dw_record := record; dw_raw := wr_json row; dw_clock := wr_clockID row |} in
  _ ← validateDurableWakeRelation head candidate;
  Ok candidate.

Definition findStrictWorldWakeTx (head : worldHeadRow) (wakeID : string) : M durableWake :=
  let world := bd_World (hd_Binding (wh_Head head)) in
  graph ← loadWorldTaskGraphForWakeTx world;
  found ← query (fun db =>
    match db_wakes db !! wakeID with
    | Some c => if in_world world (w_Owner (wr_indexed c))
                then w ← scanAdmissionWakeRow c; Ok (c, w) else Err ErrTaskNotFound
    | None => Err ErrTaskNotFound
    end);
  lift (graph_wake head graph found.1 found.2).

(** [claimDueWakeSQL]: due pending wakes of this generation, oldest first. *)
Definition due_less : wakeRow -> wakeRow -> bool :=
  then_by Z.ltb (fun c => w_DueTick (wr_indexed c))
    (fun a b => let x := wr_indexed a in
                let y := wr_indexed b in
                if EntityID (w_Owner x) != EntityID (w_Owner y)
                then str_lt (EntityID (w_Owner x)) (EntityID (w_Owner y))
                else if w_TaskID x != w_TaskID y then str_lt (w_TaskID x) (w_TaskID y)
                else str_lt (w_ID x) (w_ID y)).
Definition is_due (head : worldHeadRow) (clock : Clock) (nowUnix : Z) (c : wakeRow) : bool :=
  let w := wr_indexed c in
  in_world (bd_World (hd_Binding (wh_Head head))) (w_Owner w) && (wr_clockID c == ck_ID clock)
  && (w_Status w == wakeStatusPending)
  && (w_Generation w =? bd_Generation (hd_Binding (wh_Head head)))%N
  && (w_DueTick w <=? ck_Tick clock)%Z && (w_RetryAfterUnixMS w <=? nowUnix)%Z.
Definition due_rows (head : worldHeadRow) (clock : Clock) (nowUnix : Z) (limit : nat) (db : DB) : list wakeRow :=
  take limit (wakes_where (is_due head clock nowUnix) due_less db).

Fixpoint scan_wake_rows (l : list wakeRow) : outcome error (list (wakeRow * Wake)) :=
  match l with
  | [] => Ok []
  | c :: t => w ← scanAdmissionWakeRow c; rest ← scan_wake_rows t; Ok ((c, w) :: rest)
  end.
Fixpoint graph_wakes (head : worldHeadRow) (g : worldTaskIdentityGraph) (l : list (wakeRow * Wake)) :
    outcome error (list durableWake) :=
  match l with
  | [] => Ok []
  | (c, w) :: t => d ← graph_wake head g c w; rest ← graph_wakes head g t; Ok (d :: rest)
  end.

Definition loadDueWakeCandidatesTx (head : worldHeadRow) (clock : Clock) (nowUnix : Z) (limit : nat) :
    M (list durableWake) :=
  graph ← loadWorldTaskGraphForWakeTx (bd_World (hd_Binding (wh_Head head)));
  if bool_decide (limit = 0) then mret [] else
  rows ← query (fun db => Ok (due_rows head clock nowUnix limit db));
  scanned ← lift (scan_wake_rows rows);
  lift (graph_wakes head graph scanned).

(** ** Service operations *)
Definition validateWakeIdentityInput (binding : Binding) (wakeID claimID : string) : outcome error unit :=
  _ ← Binding_Validate binding;
  fail_if (! requiredIdentity wakeID || ! requiredIdentity claimID) ErrInvalidTaskSpec.

(** The head of the world, checked for this binding and this runtime. *)
Definition wake_world (binding : Binding) : M worldHeadRow :=
  head ← loadWorldHeadForMutationTx (bd_World binding);
  claimant ← ask e_claimantID;
  _ ← lift (validateWakeWorldAuthority head binding claimant);
  mret head.

Fixpoint fresh_ids (prefix : string) (n : nat) (seen : gset string) : M (list string) :=
  match n with
  | O => mret []
  | S n' =>
    id ← newID prefix;
    _ ← lift (fail_if (! requiredIdentity id) ErrInvalidTaskSpec);
    _ ← lift (fail_if (bool_decide (id ∈ seen)) ErrInvalidTaskSpec);
    rest ← fresh_ids prefix n' ({[id]} ∪ seen);
    mret (id :: rest)
  end.

Definition claimed_wake (claimID claimantID : string) (w : Wake) : Wake :=
  wake_with w wakeStatusClaimed claimID claimantID (w_Generation w) (w_Attempt w + 1) 0.

Fixpoint claim_each (claimantID : string) (candidates : list durableWake) (claimIDs : list string) :
    M (list Wake) :=
  match candidates, claimIDs with
  | candidate :: t, claimID :: ids =>
    _ ← lift (fail_if (MaxInt64 <=? w_Attempt (dw_wake candidate))%Z ErrInvalidTaskSpec);
    let updated := claimed_wake claimID claimantID (dw_wake candidate) in
    _ ← updateWakeCASTx candidate updated;
    rest ← claim_each claimantID t ids;
    mret (updated :: rest)
  | _, _ => mret []
  end.

Definition ClaimDue (binding : Binding) (clock : Clock) (limit : Z) : M (list Wake) :=
  _ ← validateService;
  _ ← lift (Binding_Validate binding);
  _ ← lift (fail_if (! is_ok (Clock_Validate clock) || (MaxInt64N <? ck_Sequence clock)%N || (limit <? 0)%Z)
              ErrInvalidTaskSpec);
  maxTasks ← ask (fun env => MaxTasksPerWorld (e_options env));
  let batchLimit := Z.to_nat (Z.min limit maxTasks) in
  claimIDs ← fresh_ids "claim" batchLimit ∅;
  now ← nowUnixMS;
  _ ← lift (fail_if (now <? 0)%Z ErrInvalidTaskSpec);
  withImmediateTransaction (
    head ← wake_world binding;
    claimant ← ask e_claimantID;
    _ ← lift (validateExactWakeClock (hd_Clock (wh_Head head)) clock);
    wakes ← loadDueWakeCandidatesTx head clock now batchLimit;
    if (limit =? 0)%Z then mret [] else claim_each claimant wakes claimIDs).

Definition MarkEnqueued (binding : Binding) (wakeID claimID : string) : M unit :=
  _ ← validateService;
  _ ← lift (validateWakeIdentityInput binding wakeID claimID);
  withImmediateTransaction (
    head ← wake_world binding;
    claimant ← ask e_claimantID;
    current ← findStrictWorldWakeTx head wakeID;
    let w := dw_wake current in
    _ ← lift (fail_if ((w_ClaimID w != claimID) || (w_ClaimedBy w != claimant)) ErrTaskChanged);
    if w_Status w == wakeStatusEnqueued then mret tt else
    _ ← lift (fail_if (w_Status w != wakeStatusClaimed) ErrTaskChanged);
    updateWakeCASTx current (set_w_Status wakeStatusEnqueued w)).

(** [time.Time] as its Unix seconds and nanosecond part. *)
Record Time := { t_Unix : Z; t_Nanosecond : Z }.
Definition zeroTimeUnix : Z := -62135596800.
Definition checkedUnixMilli (value : Time) : outcome error Z :=
  _ ← fail_if ((t_Unix value =? zeroTimeUnix)%Z && (t_Nanosecond value =? 0)%Z) ErrInvalidTaskSpec;
  let seconds := t_Unix value in
  _ ← fail_if ((seconds <? 0)%Z || (MaxInt64 / 1000 <? seconds)%Z) ErrInvalidTaskSpec;
  let milliseconds := (t_Nanosecond value / 1000000)%Z in
  let base := wrap_i64 (seconds * 1000) in
  _ ← fail_if (wrap_i64 (MaxInt64 - base) <? milliseconds)%Z ErrInvalidTaskSpec;
  Ok (wrap_i64 (base + milliseconds)).

Definition ReleaseClaim (binding : Binding) (wakeID claimID : string) (retryAt : Time) : M unit :=
  _ ← validateService;
  _ ← lift (validateWakeIdentityInput binding wakeID claimID);
  retryAfterUnixMS ← lift (checkedUnixMilli retryAt);
  withImmediateTransaction (
    head ← wake_world binding;
    claimant ← ask e_claimantID;
    current ← findStrictWorldWakeTx head wakeID;
    let w := dw_wake current in
    _ ← lift (fail_if ((w_Status w != wakeStatusClaimed) || (w_ClaimID w != claimID)
                       || (w_ClaimedBy w != claimant)) ErrTaskChanged);
    updateWakeCASTx current
      (wake_with w wakeStatusPending "" "" (w_Generation w) (w_Attempt w) retryAfterUnixMS)).

Definition begin_context (head : worldHeadRow) (r : TaskRecord) (w : Wake) : ExecutionContext :=
  {| ex_Owner := r_Owner r; ex_Binding := hd_Binding (wh_Head head); ex_Clock := hd_Clock (wh_Head head);
     ex_Source := {| src_Kind := SourceKindTaskWake; src_EventID := ""; src_TurnID := "";
                     src_CallID := w_ID w; src_GameTime := ""; src_Facts := "" |};
     ex_TaskID := r_ID r; ex_WakeID := w_ID w; ex_WakeReason := w_Reason w; ex_WakeDueAt := w_DueTick w;
     ex_ExpectedRevision := r_Revision r |}.

Definition BeginWake (binding : Binding) (wakeID claimID : string) : M (ExecutionContext * TaskRecord) :=
  _ ← validateService;
  _ ← lift (validateWakeIdentityInput binding wakeID claimID);
  '(exec, record) ← withImmediateTransaction (
    head ← wake_world binding;
    claimant ← ask e_claimantID;
    current ← findStrictWorldWakeTx head wakeID;
    let w := dw_wake current in
    _ ← lift (fail_if ((w_Status w != wakeStatusEnqueued) || (w_ClaimID w != claimID)
                       || (w_ClaimedBy w != claimant)) ErrTaskChanged);
    _ ← lift (fail_if (ck_Tick (hd_Clock (wh_Head head)) <? w_DueTick w)%Z ErrTaskChanged);
    prepared ← prepareBeginMutation (dw_record current);
    _ ← updateBeginRecordTx (st_record (dw_record current)) prepared;
    _ ← updateWakeCASTx current (set_w_Status wakeStatusRunning w);
    mret (begin_context head prepared w, prepared));
  detached ← lift (of_option (cloneRecord record) ErrInvalidTaskSpec);
  mret (exec, detached).

Record WakeInspection := { wi_Head : Head; wi_Wake : Wake; wi_Task : TaskRecord }.

(** A read-only transaction: a begin, the reads, a commit. *)
Definition InspectWake (binding : Binding) (wakeID : string) : M WakeInspection :=
  _ ← validateService;
  _ ← lift (fail_if (! is_ok (Binding_Validate binding) || ! requiredIdentity wakeID) ErrInvalidTaskSpec);
  let classified {A} (m : M A) : M A := catch m (fun e => fail (classifyStoreError e)) in
  _ ← classified (query (fun _ => Ok tt));
  found ← classified (loadWorldHeadTx (bd_World binding));
  head ← lift (of_option found ErrWorldNotReady);
  _ ← lift (fail_if (hd_Binding (wh_Head head) != binding) ErrGenerationStale);
  current ← classified (findStrictWorldWakeTx head wakeID);
  let w := dw_wake current in
  _ ← lift (fail_if ((w_Status w == wakeStatusConsumed)
                     && (r_Revision (st_record (dw_record current)) <? w_ExpectedRevision w)%N) ErrInvalidTaskSpec);
  _ ← lift (fail_if ((bd_Generation binding <? w_Generation w)%N
                     || (((w_Status w == wakeStatusClaimed) || (w_Status w == wakeStatusEnqueued)
                          || (w_Status w == wakeStatusRunning))
                         && (w_ClaimedBy w != wh_RuntimeInstanceID head))) ErrInvalidTaskSpec);
  record ← lift (of_option (cloneRecord (st_record (dw_record current))) ErrInvalidTaskSpec);
  _ ← classified (query (fun _ => Ok tt));
  mret {| wi_Head := wh_Head head; wi_Wake := w; wi_Task := record |}.
