(* ===== verification/Create.v ===== *)
(** * Creating and reading tasks, and intents: [service.go] ([Create], [Read], [List], [ListActive],
    [ListRecentResults], [ApplyIntent]), [admission.go] and [intent.go] *)

From S2P Require Export Wakes.

Local Open Scope go_scope.

(** ** Creation *)
Definition call_identity_complete (s : SourceRef) : bool :=
  requiredIdentity (src_EventID s) && requiredIdentity (src_TurnID s) && requiredIdentity (src_CallID s).

Definition validateCreateInput (exec : ExecutionContext) (spec : TaskSpec) (admission : Admission) :
    outcome error unit :=
  _ ← ExecutionContext_Validate exec;
  _ ← TaskSpec_Validate spec;
  _ ← or_err (Admission_Validate admission) ErrInvalidTaskSpec;
  _ ← fail_if (! call_identity_complete (ex_Source exec)) ErrSourceInvalid;
  _ ← fail_if (sp_ClockID spec != ck_ID (ex_Clock exec)) ErrClockMismatch;
  fail_if (! sourceRefsEqual (ex_Source exec) (sp_Source spec)) ErrSourceInvalid.

Record preparedTaskCreate := {
  pc_record : TaskRecord; pc_wake : Wake; pc_fingerprint : string; pc_createResponseJSON : string
}.

(** [prepareTaskCreate]. *)
Definition prepareTaskCreate (limit : Z) (record : TaskRecord) (wake : Wake) :
    outcome error preparedTaskCreate :=
  _ ← validateTaskWakePair record wake;
  _ ← of_option (marshalRecord record) ErrInvalidTaskSpec;
  fingerprint ← of_option (taskSpecFingerprint (r_Spec record)) ErrInvalidTaskSpec;
  responseJSON ← of_option (marshalCreateResult (initialCreateResult record)) ErrInvalidTaskSpec;
  _ ← or_err (validateTaskMutationCapacity limit record responseJSON "[]") ErrInvalidTaskSpec;
  Ok {| pc_record := record; pc_wake := wake; pc_fingerprint := fingerprint;
        pc_createResponseJSON := responseJSON |}.

Definition create_columns (p : preparedTaskCreate) : taskRowColumns :=
  let r := pc_record p in
  {| co_owner := r_Owner r; co_taskID := r_ID r; co_state := r_State r;
     co_revision := to_i64 (r_Revision r); co_clockID := sp_ClockID (r_Spec r);
     co_nextWakeAt := r_NextWakeAt r; co_createEventID := src_EventID (sp_Source (r_Spec r));
     co_createTurnID := src_TurnID (sp_Source (r_Spec r));
     co_createCallID := src_CallID (sp_Source (r_Spec r)); co_createFingerprint := pc_fingerprint p;
     co_equivalenceKey := sp_EquivalenceKey (r_Spec r); co_recordJSON := r;
     co_createResponseJSON := pc_createResponseJSON p;
     co_createResponseHash := sha256Hex (pc_createResponseJSON p); co_intentHistoryJSON := [];
     co_intentHistoryHash := sha256Hex "[]" |}.

Definition world_task_count (world : WorldKey) (db : DB) : Z :=
  Z.of_nat (length (List.filter (fun c => in_world world (co_owner c)) ((map_to_list (db_tasks db)).*2))).
Definition owner_world (o : AgentSessionKey) : WorldKey := {| wk_GameID := GameID o; wk_WorldID := WorldID o |}.

(** [insertTaskAndWakeTx]. *)
Definition insertTaskAndWakeTx (p : preparedTaskCreate) : M unit :=
  count ← query (fun db => Ok (world_task_count (owner_world (r_Owner (pc_record p))) db));
  maxTasks ← ask (fun env => MaxTasksPerWorld (e_options env));
  _ ← lift (fail_if (maxTasks <=? count)%Z ErrTaskCapacityExceeded);
  _ ← insert_task (create_columns p);
  _ ← ctx_err;
  insert_wake (wake_row (sp_ClockID (r_Spec (pc_record p))) (pc_wake p)).

(** ** Idempotency of calls: [loadOwnerCallIdentityTx] *)
Inductive ownerCallIdentityMatch :=
| MatchCreate (result : CreateResult) (fingerprint : string)
| MatchIntent (call : intentCall) (response : TaskRecord).

Fixpoint match_history (current : TaskRecord) (target : intentCallKey) (h : list intentCall)
    (seen : gset (string * string * string)) (found : option ownerCallIdentityMatch) :
    outcome error (gset (string * string * string) * option ownerCallIdentityMatch) :=
  match h with
  | [] => Ok (seen, found)
  | call :: t =>
    '(request, response) ← validateIntentCall call current;
    let key := intentExactKey (iq_Source request) in
    _ ← fail_if (bool_decide (key ∈ seen)) ErrInvalidTaskSpec;
    match_history current target t ({[key]} ∪ seen)
      (if key == target then Some (MatchIntent call response) else found)
  end.

Fixpoint match_rows (target : intentCallKey) (rows : list taskRowColumns)
    (seen : gset (string * string * string)) (found : option ownerCallIdentityMatch) :
    outcome error (option ownerCallIdentityMatch) :=
  match rows with
  | [] => Ok found
  | c :: t =>
    d ← decodeTaskRowColumns c;
    let createKey := intentExactKey (sp_Source (r_Spec (dt_record d))) in
    _ ← fail_if (bool_decide (createKey ∈ seen)) ErrInvalidTaskSpec;
    '(seen', found') ← match_history (dt_record d) target (dt_history d) ({[createKey]} ∪ seen)
      (if createKey == target then Some (MatchCreate (dt_create d) (dt_fingerprint d)) else found);
    match_rows target t seen' found'
  end.

Definition owner_rows (owner : AgentSessionKey) : DB -> list taskRowColumns :=
  rows_where (fun c => co_owner c == owner).
Definition loadOwnerCallIdentityTx (owner : AgentSessionKey) (target : intentCallKey) :
    M (option ownerCallIdentityMatch) :=
  rows ← query (fun db => Ok (owner_rows owner db));
  lift (match_rows target rows ∅ None).

(** [loadExactCreateTx]. *)
Definition loadExactCreateTx (owner : AgentSessionKey) (source : SourceRef) (fingerprint : string) :
    M (option CreateResult) :=
  found ← loadOwnerCallIdentityTx owner (intentExactKey source);
  match found with
  | None => mret None
  | Some (MatchCreate result stored) =>
    if stored == fingerprint then mret (Some result) else fail ErrIdempotencyConflict
  | Some (MatchIntent _ _) => fail ErrIdempotencyConflict
  end.

(** [loadEquivalentTaskTx]: the partial unique index leaves at most one row. *)
Definition loadEquivalentTaskTx (owner : AgentSessionKey) (equivalenceKey : string) : M (option TaskRecord) :=
  if equivalenceKey == "" then mret None else
  query (fun db =>
    match rows_where (fun c => (co_owner c == owner) && (co_equivalenceKey c == equivalenceKey)
                               && activeState (co_state c)) db with
    | [] => Ok None
    | c :: _ => d ← decodeTaskRowColumns c; Ok (Some (dt_record d))
    end).

(** [enforceAdmissionTx]. *)
Definition active_count (owner : AgentSessionKey) (db : DB) : Z :=
  Z.of_nat (length (List.filter (fun c => (co_owner c == owner) && activeState (co_state c))
                      ((map_to_list (db_tasks db)).*2))).
Definition enforceAdmissionTx (owner : AgentSessionKey) (admission : Admission) : M unit :=
  if (MaxActivePerOwner admission =? 0)%Z then mret tt else
  active ← query (fun db => Ok (active_count owner db));
  lift (fail_if (MaxActivePerOwner admission <=? active)%Z ErrTaskConflict).

Definition new_record (id : string) (exec : ExecutionContext) (spec : TaskSpec) (nowUnix : Z) : TaskRecord :=
  mkRecord id (ex_Owner exec) spec StateWaiting 1 (ck_Tick (ex_Clock exec)) nowUnix
    (Some (sp_WakeAt spec)) "" false "" 0 0 [] [] None [].
Definition new_wake (id taskID : string) (owner : AgentSessionKey) (revision : N) (due : Z) (reason : string)
    (generation : N) : Wake :=
  {| w_ID := id; w_TaskID := taskID; w_Owner := owner; w_ExpectedRevision := revision; w_DueTick := due;
     w_Reason := reason; w_Status := wakeStatusPending; w_ClaimID := ""; w_ClaimedBy := "";
     w_Generation := generation; w_Attempt := 0; w_RetryAfterUnixMS := 0 |}.

(** The fallible preparation whose error [Create] keeps until it has looked for an
    idempotent answer. *)
Definition prepare_create (limit : Z) (record : TaskRecord) (wake : Wake) :
    outcome error (preparedTaskCreate * CreateResult) :=
  prepared ← prepareTaskCreate limit record wake;
  let initial := initialCreateResult record in
  created ← of_option (cloneRecord (cr_Task initial)) ErrInvalidTaskSpec;
  Ok (prepared, {| cr_Task := created; cr_Created := cr_Created initial |}).

Definition create_tx (exec : ExecutionContext) (spec : TaskSpec) (admission : Admission)
    (fingerprint : string) (prepared : outcome error (preparedTaskCreate * CreateResult)) : M CreateResult :=
  head ← loadWorldHeadForMutationTx (bd_World (ex_Binding exec));
  _ ← lift (validateCreateAuthority head exec);
  exact ← loadExactCreateTx (ex_Owner exec) (ex_Source exec) fingerprint;
  match exact with
  | Some result => mret result
  | None =>
    equivalent ← loadEquivalentTaskTx (ex_Owner exec) (sp_EquivalenceKey spec);
    match equivalent with
    | Some task => mret {| cr_Task := task; cr_Created := false |}
    | None =>
      _ ← enforceAdmissionTx (ex_Owner exec) admission;
      _ ← lift (fail_if ((sp_WakeAt spec <=? ck_Tick (ex_Clock exec))%Z
                         || (sp_DeadlineAt spec <? sp_WakeAt spec)%Z) ErrInvalidTaskSpec);
      '(p, created) ← lift prepared;
      _ ← insertTaskAndWakeTx p;
      mret created
    end
  end.

Definition Create (exec : ExecutionContext) (spec : TaskSpec) (admission : Admission) : M CreateResult :=
  _ ← validateService;
  _ ← lift (validateCreateInput exec spec admission);
  clonedSpec ← lift (of_option (cloneTaskSpec spec) ErrInvalidTaskSpec);
  fingerprint ← lift (of_option (taskSpecFingerprint clonedSpec) ErrInvalidTaskSpec);
  taskID ← newID "task";
  now ← nowUnixMS;
  let record := new_record taskID exec clonedSpec now in
  wakeID ← newID "wake";
  let wake := new_wake wakeID taskID (ex_Owner exec) 1 (sp_WakeAt clonedSpec) wakeReasonCreated
                (bd_Generation (ex_Binding exec)) in
  limit ← maxTaskBytes;
  withImmediateTransaction
    (create_tx exec clonedSpec admission fingerprint (prepare_create limit record wake)).

(** ** Reads *)
Definition loadTask (owner : AgentSessionKey) (taskID : string) : M TaskRecord :=
  _ ← lift (validateTaskLookup owner taskID);
  catch (d ← query (fun db => match db_tasks db !! (owner, taskID) with
                              | None => Err NoRows
                              | Some c => decodeTaskRowColumns c
                              end);
         mret (dt_record d))
    (fun e => fail (if Is_norows e then ErrTaskNotFound else classifyStoreError e)).

Definition Read (owner : AgentSessionKey) (taskID : string) : M TaskRecord :=
  _ ← validateService;
  _ ← lift (validateTaskLookup owner taskID);
  record ← loadTask owner taskID;
  _ ← validateWorldTaskIdentityGraph (owner_world owner);
  mret record.

(** A read of the owner's rows that [select] picks and truncates. *)
Definition read_rows (select : DB -> list taskRowColumns) : M (list TaskRecord) :=
  catch (rows ← query (fun db => Ok (select db));
         decoded ← lift (decode_rows rows);
         mret (dt_record <$> decoded))
    (fun e => fail (classifyStoreError e)).

Definition ReadList (owner : AgentSessionKey) (limit : Z) : M (list TaskRecord) :=
  _ ← validateService;
  _ ← lift (validateOwner owner);
  if (limit <=? 0)%Z then mret [] else
  _ ← validateWorldTaskIdentityGraph (owner_world owner);
  read_rows (fun db => take (Z.to_nat limit) (owner_rows owner db)).

Definition ListActive (owner : AgentSessionKey) (limit : Z) : M (list TaskRecord) :=
  _ ← validateService;
  _ ← lift (validateOwner owner);
  if (limit <=? 0)%Z then mret [] else
  _ ← validateWorldTaskIdentityGraph (owner_world owner);
  read_rows (fun db => take (Z.to_nat limit)
    (rows_where (fun c => (co_owner c == owner) && activeState (co_state c)) db)).

Definition maxRecentTaskResults : Z := 3.
Definition recent_less : Result -> Result -> bool :=
  then_by Z.gtb rs_OccurredAt (fun a b => str_lt (rs_ID a) (rs_ID b)).
Definition terminal_rows (owner : AgentSessionKey) : DB -> list taskRowColumns :=
  rows_where (fun c => (co_owner c == owner)
                       && ((co_state c == StateSucceeded) || (co_state c == StateFailed)
                           || (co_state c == StateCancelled))).

Definition ListRecentResults (owner : AgentSessionKey) (limit : Z) : M (list Result) :=
  _ ← validateService;
  _ ← lift (validateOwner owner);
  if (limit <=? 0)%Z then mret [] else
  _ ← validateWorldTaskIdentityGraph (owner_world owner);
  records ← read_rows (terminal_rows owner);
  let results := sort_slice recent_less (omap r_Result records) in
  mret (take (Z.to_nat (Z.min limit maxRecentTaskResults)) results).

(** ** Model intents: [ApplyIntent] and [intent.go]

    A wait or a cancel of the model, applied at most once per call identity: the
    owner's history answers a repeated call with the stored response. *)
Record preparedIntentRequest := { pi_request : intentRequest; pi_requestJSON : string; pi_fingerprint : string }.

Definition validateApplyIntentInput (exec : ExecutionContext) (intent : Intent) : outcome error unit :=
  _ ← ExecutionContext_Validate exec;
  _ ← fail_if (! requiredIdentity (ex_TaskID exec) || (ex_ExpectedRevision exec =? 0)%N) ErrInvalidTaskSpec;
  _ ← fail_if (! call_identity_complete (ex_Source exec)) ErrSourceInvalid;
  Intent_Validate intent.

Definition prepareIntentRequest (exec : ExecutionContext) (intent : Intent) :
    outcome error preparedIntentRequest :=
  let request := {| iq_TaskID := ex_TaskID exec; iq_WakeID := ex_WakeID exec;
                    iq_ExpectedRevision := ex_ExpectedRevision exec; iq_Source := ex_Source exec;
                    iq_Intent := intent |} in
  data ← of_option (marshalIntentRequest request) ErrInvalidTaskSpec;
  cloned ← of_option (cloneIntentRequest request) ErrInvalidTaskSpec;
  _ ← or_err (intentRequest_validate cloned) ErrInvalidTaskSpec;
  _ ← fail_if (! json_texts_equal (Some data) (marshalIntentRequest cloned)) ErrInvalidTaskSpec;
  Ok {| pi_request := cloned; pi_requestJSON := data; pi_fingerprint := sha256Hex data |}.

(** [loadExactIntentTx]. *)
Definition loadExactIntentTx (owner : AgentSessionKey) (incoming : preparedIntentRequest) :
    M (option TaskRecord) :=
  found ← loadOwnerCallIdentityTx owner (intentExactKey (iq_Source (pi_request incoming)));
  match found with
  | None => mret None
  | Some (MatchCreate _ _) => fail ErrIdempotencyConflict
  | Some (MatchIntent call response) =>
    if (ic_RequestHash call != pi_fingerprint incoming)
       || ! json_texts_equal (marshalIntentRequest (ic_Request call)) (Some (pi_requestJSON incoming))
    then fail ErrIdempotencyConflict else mret (Some response)
  end.

(** The record an intent turns [current] into. *)
Definition intent_record (exec : ExecutionContext) (request : intentRequest) (resultID : string)
    (current : TaskRecord) : outcome error TaskRecord :=
  nextRevision ← NextDurableCounter (r_Revision current);
  let updated := set_ReconcileAttempts 0 (set_NoProgressAttempts 0 (set_PauseReason ""
                   (set_NeedsReconcile false (set_Revision nextRevision current)))) in
  let intent := iq_Intent request in
  match in_Kind intent with
  | IntentWait =>
    match in_NextWakeAt intent with
    | None => Err ErrInvalidTaskSpec
    | Some next =>
      _ ← fail_if ((next <=? ck_Tick (ex_Clock exec))%Z || (sp_DeadlineAt (r_Spec current) <? next)%Z)
            ErrInvalidTaskSpec;
      let updated := set_Result None (set_NextWakeAt (Some next) (set_State StateWaiting updated)) in
      Ok (if in_ProgressNote intent != "" then set_Progress (modelProgressJSON (in_ProgressNote intent)) updated
          else updated)
    end
  | IntentCancel =>
    Ok (set_Result (Some {| rs_ID := resultID; rs_TaskID := r_ID current; rs_Revision := nextRevision;
                            rs_State := StateCancelled; rs_Reason := in_Reason intent;
                            rs_OccurredAt := ck_Tick (ex_Clock exec); rs_EvidenceRefs := Some [];
                            rs_Source := iq_Source request |})
          (set_NextWakeAt None (set_State StateCancelled updated)))
  | IntentOther _ => Err ErrInvalidTaskSpec
  end.

(** May the intent act on the record it found? *)
Definition intent_admissible (exec : ExecutionContext) (current : TaskRecord) : outcome error unit :=
  _ ← fail_if (sp_ClockID (r_Spec current) != ck_ID (ex_Clock exec)) ErrClockMismatch;
  _ ← fail_if (taskStateTerminal (r_State current)) ErrTaskTerminal;
  _ ← fail_if (r_Result current != None) ErrInvalidTaskSpec;
  _ ← fail_if (! (r_Revision current =? ex_ExpectedRevision exec)%N) ErrTaskChanged;
  fail_if (r_NeedsReconcile current || recordHasUnappliedEvidence current) ErrTaskChanged.

Definition apply_intent_tx (exec : ExecutionContext) (request : preparedIntentRequest)
    (candidateResultID candidateWakeID : string) : M TaskRecord :=
  head ← loadWorldHeadForMutationTx (bd_World (ex_Binding exec));
  _ ← lift (validateCreateAuthority head exec);
  exact ← loadExactIntentTx (ex_Owner exec) request;
  match exact with
  | Some response =>
    _ ← lift (fail_if (sp_ClockID (r_Spec response) != ck_ID (ex_Clock exec)) ErrClockMismatch);
    mret response
  | None =>
    current ← loadIntentTaskTx (ex_Owner exec) (ex_TaskID exec);
    let before := st_record current in
    _ ← lift (intent_admissible exec before);
    updated ← lift (intent_record exec (pi_request request) candidateResultID before);
    history ← prepareIntentMutation current updated (pi_request request) (pi_fingerprint request);
    _ ← updateIntentRecordTx before updated;
    _ ← consumeWakesTx head before false;
    _ ← ctx_err;
    _ ← match in_Kind (iq_Intent (pi_request request)), r_NextWakeAt updated with
        | IntentWait, Some next =>
          _ ← insertWakeTx updated (new_wake candidateWakeID (r_ID updated) (r_Owner updated)
                (r_Revision updated) next wakeReasonIntentWait (bd_Generation (ex_Binding exec)));
          ctx_err
        | _, _ => mret tt
        end;
    _ ← storeIntentHistoryTx before updated history;
    mret updated
  end.

Definition ApplyIntent (exec : ExecutionContext) (intent : Intent) : M TaskRecord :=
  _ ← validateService;
  _ ← lift (validateApplyIntentInput exec intent);
  request ← lift (prepareIntentRequest exec intent);
  candidateResultID ← newID "result";
  candidateWakeID ← newID "wake";
  withImmediateTransaction (apply_intent_tx exec request candidateResultID candidateWakeID).
