(* ===== verification/Merges.v ===== *)
(** * Merges that do not advance the revision: [evidence.go], [operation.go],
    [operation_not_sent.go], [cleanup.go]

    Admitting a fact, registering an operation, recording that one was never sent,
    and recording how one was cleaned up. *)

From S2P Require Export Create.

Local Open Scope go_scope.

(** ** Evidence *)
Definition validateCurrentEvidenceBinding (got current : Binding) : outcome error unit :=
  _ ← fail_if (bd_World got != bd_World current) ErrWorldMismatch;
  fail_if (got != current) ErrGenerationStale.

Definition findRecordOperation (r : TaskRecord) (operationID : string) : option Operation :=
  find (fun o => op_ID o == operationID) (r_Operations r).

Definition validateNewEvidence (head : Head) (r : TaskRecord) (e : Evidence) : outcome error unit :=
  _ ← fail_if (sp_ClockID (r_Spec r) != ck_ID (hd_Clock head)) ErrClockMismatch;
  _ ← fail_if (taskStateTerminal (r_State r)) ErrTaskTerminal;
  _ ← fail_if (r_Result r != None) ErrInvalidTaskSpec;
  _ ← fail_if (ck_Tick (hd_Clock head) <? ev_OccurredAt e)%Z ErrTaskChanged;
  _ ← fail_if match ev_WaitUntil e with
              | Some t => (t <=? ev_OccurredAt e)%Z || (sp_DeadlineAt (r_Spec r) <? t)%Z
              | None => false
              end ErrInvalidTaskSpec;
  if ev_OperationID e == "" then
    _ ← fail_if (ev_RevalidatedIn e != None) ErrEvidenceConflict;
    _ ← validateCurrentEvidenceBinding (ev_Binding e) (hd_Binding head);
    fail_if (! (ev_StartRevision e =? r_Revision r)%N) ErrTaskChanged
  else
    operation ← of_option (findRecordOperation r (ev_OperationID e)) ErrEvidenceConflict;
    _ ← fail_if (op_Status operation == OperationStatusNotSent) ErrEvidenceConflict;
    _ ← fail_if (! (ev_StartRevision e =? op_StartRevision operation)%N) ErrTaskChanged;
    match ev_RevalidatedIn e with
    | None =>
      _ ← fail_if (op_Status operation != OperationStatusRegistered) ErrEvidenceConflict;
      _ ← validateCurrentEvidenceBinding (ev_Binding e) (hd_Binding head);
      fail_if (op_Binding operation != ev_Binding e) ErrEvidenceConflict
    | Some b =>
      _ ← (if b != hd_Binding head then
             if bd_World b != bd_World (hd_Binding head) then Err ErrWorldMismatch else Err ErrGenerationStale
           else Ok tt);
      _ ← fail_if (bd_World (ev_Binding e) != bd_World (hd_Binding head)) ErrWorldMismatch;
      _ ← fail_if (bd_RunID (ev_Binding e) != bd_RunID (hd_Binding head)) ErrGenerationStale;
      let g := bd_Generation (ev_Binding e) in
      let current := bd_Generation (hd_Binding head) in
      _ ← fail_if ((current <? g)%N || ((g =? current)%N && (op_Status operation != OperationStatusUncertain)))
            ErrEvidenceConflict;
      fail_if (op_Binding operation != ev_Binding e) ErrEvidenceConflict
    end.

(** [admitEvidenceTx]: [true] when the fact is new. *)
Definition admitEvidenceTx (head : worldHeadRow) (e : Evidence) : M bool :=
  let world := bd_World (hd_Binding (wh_Head head)) in
  current ← loadWorldTaskByIDTx world (ev_TaskID e);
  let before := st_record current in
  _ ← lift (fail_if (sp_ClockID (r_Spec before) != ck_ID (hd_Clock (wh_Head head))) ErrClockMismatch);
  graph ← graph_or ErrEvidenceConflict world;
  match g_facts graph !! ev_FactID e with
  | Some identity =>
    _ ← lift (fail_if ((we_owner identity != r_Owner before) || (we_taskID identity != r_ID before)
                       || ! evidenceEqualIgnoringApplied (we_evidence identity) e) ErrEvidenceConflict);
    mret false
  | None =>
    _ ← lift (fail_if match completeEvidenceSourceIdentity (ev_Source e) with
                      | Some source => bool_decide (source ∈ g_sources graph)
                      | None => false
                      end ErrEvidenceConflict);
    _ ← lift (validateNewEvidence (wh_Head head) before e);
    _ ← lift (NextDurableCounter (r_Revision before));
    let updated := set_NeedsReconcile true (set_Evidence (r_Evidence before ++ [e]) before) in
    prepared ← prepareNoRevisionMutation current updated;
    _ ← updateNoRevisionRecordTx before prepared;
    mret true
  end.

Definition AdmitEvidence (binding : Binding) (evidence : Evidence) : M bool :=
  _ ← validateService;
  _ ← lift (Binding_Validate binding);
  cloned ← lift (of_option (cloneEvidence evidence) ErrInvalidTaskSpec);
  _ ← lift (Evidence_Validate cloned);
  _ ← lift (fail_if (ev_Applied cloned) ErrEvidenceConflict);
  _ ← lift (fail_if ((bd_World (ev_Binding cloned) != bd_World binding)
                     || match ev_RevalidatedIn cloned with
                        | Some b => bd_World b != bd_World binding
                        | None => false
                        end) ErrWorldMismatch);
  withImmediateTransaction (
    head ← loadWorldHeadForMutationTx (bd_World binding);
    _ ← lift (validateEvidenceAuthority head binding);
    admitEvidenceTx head cloned).

(** ** Operations *)
Definition validateOperationExecution (exec : ExecutionContext) : outcome error unit :=
  _ ← ExecutionContext_Validate exec;
  fail_if (! requiredIdentity (ex_TaskID exec) || (ex_ExpectedRevision exec =? 0)%N) ErrInvalidTaskSpec.

Definition validateNewOperation (exec : ExecutionContext) (o : Operation) : outcome error unit :=
  _ ← Operation_Validate o;
  _ ← fail_if ((op_Status o != OperationStatusRegistered) || (op_Receipt o != "")) ErrInvalidTaskSpec;
  _ ← fail_if (bd_World (op_Binding o) != bd_World (ex_Binding exec)) ErrWorldMismatch;
  _ ← fail_if (op_Binding o != ex_Binding exec) ErrGenerationStale;
  fail_if (! (op_StartRevision o =? ex_ExpectedRevision exec)%N) ErrTaskChanged.

(** Answer of a registration whose id the world already knows. *)
Definition registered_again (exec : ExecutionContext) (stored : worldOperationIdentity) (o : Operation) :
    outcome error Operation :=
  let b := op_Binding (wo_operation stored) in
  _ ← fail_if ((wo_owner stored != ex_Owner exec) || (wo_taskID stored != ex_TaskID exec)
               || ! operationsEqual (wo_operation stored) o) ErrIdempotencyConflict;
  _ ← fail_if (wo_clockID stored != ck_ID (ex_Clock exec)) ErrClockMismatch;
  _ ← fail_if (bd_World b != bd_World (ex_Binding exec)) ErrWorldMismatch;
  _ ← fail_if ((bd_RunID b != bd_RunID (ex_Binding exec))
               || (bd_Generation (ex_Binding exec) <? bd_Generation b)%N) ErrGenerationStale;
  Ok (wo_operation stored).

Definition register_admissible (exec : ExecutionContext) (before : TaskRecord) : outcome error unit :=
  _ ← fail_if (sp_ClockID (r_Spec before) != ck_ID (ex_Clock exec)) ErrClockMismatch;
  _ ← fail_if (r_NeedsReconcile before || recordHasUnappliedEvidence before) ErrTaskChanged;
  _ ← fail_if (taskStateTerminal (r_State before)) ErrTaskTerminal;
  _ ← fail_if (r_Result before != None) ErrInvalidTaskSpec;
  _ ← fail_if (! (r_Revision before =? ex_ExpectedRevision exec)%N) ErrTaskChanged;
  _ ← NextDurableCounter (r_Revision before);
  Ok tt.

Definition RegisterOperation (exec : ExecutionContext) (operation : Operation) : M Operation :=
  _ ← validateService;
  _ ← lift (validateOperationExecution exec);
  _ ← lift (fail_if (! requiredIdentity (op_ID operation)) ErrInvalidTaskSpec);
  cloned ← lift (of_option (cloneOperation operation) ErrInvalidTaskSpec);
  withImmediateTransaction (
    head ← loadWorldHeadForMutationTx (bd_World (ex_Binding exec));
    _ ← lift (validateCreateAuthority head exec);
    current ← loadIntentTaskTx (ex_Owner exec) (ex_TaskID exec);
    graph ← graph_or ErrIdempotencyConflict (bd_World (ex_Binding exec));
    match g_operations graph !! op_ID cloned with
    | Some stored => lift (registered_again exec stored cloned)
    | None =>
      let before := st_record current in
      _ ← lift (validateNewOperation exec cloned);
      _ ← lift (register_admissible exec before);
      let updated := set_Operations (r_Operations before ++ [cloned]) before in
      prepared ← prepareNoRevisionMutation current updated;
      _ ← updateNoRevisionRecordTx before prepared;
      mret cloned
    end).

(** [MarkOperationNotSent]: the first operation with this id decides. *)
Definition mark_not_sent (operationID : string) (l : list Operation) : list Operation :=
  match list_find (fun o => op_ID o = operationID) l with
  | Some (i, o) => <[i := set_op_Status OperationStatusNotSent o]> l
  | None => l
  end.

Definition MarkOperationNotSent (binding : Binding) (owner : AgentSessionKey)
    (taskID operationID actionID : string) : M unit :=
  _ ← validateService;
  _ ← lift (fail_if (! is_ok (Binding_Validate binding) || (GameID owner != wk_GameID (bd_World binding))
                     || (WorldID owner != wk_WorldID (bd_World binding))
                     || ! requiredIdentity (EntityID owner) || ! requiredIdentity taskID
                     || ! requiredIdentity operationID || ! requiredIdentity actionID) ErrInvalidTaskSpec);
  withImmediateTransaction (
    found ← loadWorldHeadTx (bd_World binding);
    head ← lift (of_option found ErrWorldNotReady);
    claimant ← ask e_claimantID;
    _ ← lift (validateEvidenceAuthority head binding);
    _ ← lift (fail_if (wh_RuntimeInstanceID head != claimant) ErrGenerationStale);
    current ← loadIntentTaskTx owner taskID;
    let before := st_record current in
    match findRecordOperation before operationID with
    | None => fail ErrTaskChanged
    | Some o =>
      _ ← lift (fail_if ((op_ActionID o != actionID) || (op_Binding o != binding)) ErrTaskChanged);
      _ ← lift (fail_if (existsb (fun f => ev_OperationID f == op_ID o) (r_Evidence before)) ErrEvidenceConflict);
      if op_Status o == OperationStatusNotSent then mret tt else
      _ ← lift (fail_if (op_Status o != OperationStatusRegistered) ErrTaskChanged);
      let updated := set_Operations (mark_not_sent operationID (r_Operations before)) before in
      prepared ← prepareNoRevisionMutation current updated;
      updateNoRevisionRecordTx before prepared
    end).

(** ** Cleanup *)

(** The loop over the stored cleanups: [None] when the report is already recorded. *)
Fixpoint merge_cleanup (c : Cleanup) (l : list Cleanup) : outcome error (option (list Cleanup)) :=
  match l with
  | [] => Ok (Some [c])
  | existing :: t =>
    if cl_OperationID existing != cl_OperationID c then
      rest ← merge_cleanup c t; Ok (option_map (cons existing) rest)
    else if cleanupsEqual existing c then Ok None
    else if (cl_Status existing != CleanupStatusUnconfirmed)
            || ((cl_Status c != CleanupStatusReleased) && (cl_Status c != CleanupStatusHandedOff))
    then Err ErrIdempotencyConflict
    else Ok (Some (c :: t))
  end.

Definition RecordCleanup (binding : Binding) (taskID : string) (cleanup : Cleanup) : M unit :=
  _ ← validateService;
  _ ← lift (Binding_Validate binding);
  _ ← lift (fail_if (! requiredIdentity taskID) ErrInvalidTaskSpec);
  cloned ← lift (of_option (cloneCleanup cleanup) ErrInvalidTaskSpec);
  _ ← lift (Cleanup_Validate cloned);
  withImmediateTransaction (
    head ← loadWorldHeadForMutationTx (bd_World binding);
    _ ← lift (validateEvidenceAuthority head binding);
    current ← catch (loadWorldTaskByIDTx (bd_World binding) taskID)
      (fun e => fail (if Is_code e CodeEvidenceConflict then ErrTaskConflict else e));
    let before := st_record current in
    _ ← lift (fail_if (sp_ClockID (r_Spec before) != ck_ID (hd_Clock (wh_Head head))) ErrClockMismatch);
    graph ← graph_or ErrTaskConflict (bd_World binding);
    identity ← lift (of_option (g_operations graph !! cl_OperationID cloned) ErrTaskChanged);
    let b := op_Binding (wo_operation identity) in
    _ ← lift (fail_if ((wo_owner identity != r_Owner before) || (wo_taskID identity != r_ID before)) ErrTaskChanged);
    _ ← lift (fail_if (bd_World b != bd_World binding) ErrWorldMismatch);
    _ ← lift (fail_if ((bd_RunID b != bd_RunID binding) || (bd_Generation binding <? bd_Generation b)%N)
                ErrGenerationStale);
    merged ← lift (merge_cleanup cloned (r_Cleanup before));
    match merged with
    | None => mret tt
    | Some cleanups =>
      prepared ← prepareCleanupMutation current (set_Cleanup cleanups before);
      updateNoRevisionRecordTx before prepared
    end).
