(* ===== verification/Settle.v ===== *)
(** * Advancing a running task: [Reconcile] of reconcile.go and [FinishAttempt] of attempt.go *)

From S2P Require Export Merges.

Local Open Scope go_scope.

(** ** Reconcile *)
Definition validateReconcileExecution (exec : ExecutionContext) : outcome error unit :=
  _ ← ExecutionContext_Validate exec;
  _ ← fail_if (! requiredIdentity (ex_TaskID exec) || (ex_ExpectedRevision exec =? 0)%N) ErrInvalidTaskSpec;
  let source := ex_Source exec in
  let wake := src_Kind source == SourceKindTaskWake in
  _ ← fail_if (wake && ! requiredIdentity (ex_WakeID exec)) ErrSourceInvalid;
  if wake && (src_EventID source == "") && (src_TurnID source == "") then
    fail_if (src_CallID source != ex_WakeID exec) ErrSourceInvalid
  else fail_if (! call_identity_complete source) ErrSourceInvalid.

Definition settle_next (now : Z) (updated : TaskRecord) : ReconcileNext :=
  match r_State updated, r_NextWakeAt updated with
  | StateWaiting, Some next => if (next <=? now)%Z then ReconcileNextObserve else ReconcileNextSettled
  | StateRunning, _ =>
    if (sp_DeadlineAt (r_Spec updated) <=? now)%Z then ReconcileNextObserve else ReconcileNextDecide
  | _, _ => ReconcileNextSettled
  end.

Definition reconcile_tx (exec : ExecutionContext) (candidateResultID candidateWakeID : string) :
    M ReconcileResult :=
  head ← loadWorldHeadForMutationTx (bd_World (ex_Binding exec));
  claimant ← ask e_claimantID;
  _ ← lift (validateCreateAuthority head exec);
  current ← loadIntentTaskTx (ex_Owner exec) (ex_TaskID exec);
  let before := st_record current in
  _ ← lift (fail_if (sp_ClockID (r_Spec before) != ck_ID (ex_Clock exec)) ErrClockMismatch);
  _ ← graph_or ErrTaskConflict (bd_World (ex_Binding exec));
  let pending := pendingEvidence before in
  if bool_decide (pending = []) then lift (of_option (routeReconcileWithoutPending before exec) ErrTaskChanged)
  else
    _ ← lift (fail_if (taskStateTerminal (r_State before)) ErrInvalidTaskSpec);
    _ ← lift (fail_if (r_Result before != None) ErrInvalidTaskSpec);
    _ ← lift (fail_if (! (r_Revision before =? ex_ExpectedRevision exec)%N) ErrTaskChanged);
    updated ← lift (reconciledRecord before pending candidateResultID);
    prepared ← prepareReconcileMutation current updated;
    _ ← updateReconcileRecordTx before prepared;
    let now := ck_Tick (hd_Clock (wh_Head head)) in
    let keepRunning := (r_State updated == StateRunning) && (now <? sp_DeadlineAt (r_Spec updated))%Z
                       && (wh_RuntimeInstanceID head == claimant) in
    _ ← consumeWakesTx head before keepRunning;
    _ ← ctx_err;
    _ ← match r_State updated, r_NextWakeAt updated with
        | StateWaiting, Some next =>
          _ ← insertWakeTx prepared (new_wake candidateWakeID (r_ID updated) (r_Owner updated)
                (r_Revision updated) next wakeReasonEvidenceWait
                (bd_Generation (hd_Binding (wh_Head head))));
          ctx_err
        | _, _ => mret tt
        end;
    mret {| rr_Task := prepared; rr_Next := settle_next now updated |}.

Definition Reconcile (exec : ExecutionContext) : M ReconcileResult :=
  _ ← validateService;
  _ ← lift (validateReconcileExecution exec);
  candidateResultID ← newID "result";
  candidateWakeID ← newID "wake";
  withImmediateTransaction (reconcile_tx exec candidateResultID candidateWakeID).

(** ** Attempts *)
Definition pauseReasonNoProgress : string := "no_progress".
Definition pauseReasonEvidenceUnconfirmed : string := "evidence_unconfirmed".
Definition maxConsecutiveAttemptFailures : Z := 3.

Definition validateFinishAttemptInput (exec : ExecutionContext) (outcome : AttemptOutcome) :
    Prelude.outcome error unit :=
  _ ← ExecutionContext_Validate exec;
  _ ← AttemptOutcome_Validate outcome;
  _ ← fail_if (! requiredIdentity (ex_TaskID exec) || ! requiredIdentity (ex_WakeID exec)
               || (ex_ExpectedRevision exec =? 0)%N) ErrInvalidTaskSpec;
  let source := ex_Source exec in
  _ ← fail_if (src_Kind source != SourceKindTaskWake) ErrSourceInvalid;
  if (src_EventID source == "") && (src_TurnID source == "") then
    fail_if (src_CallID source != ex_WakeID exec) ErrSourceInvalid
  else fail_if (! call_identity_complete source) ErrSourceInvalid.

(** One more strike; the third pauses the task. *)
Definition strike (reason : string) (attempts : Z) (updated : TaskRecord) : TaskRecord * bool :=
  if (attempts =? maxConsecutiveAttemptFailures)%Z
  then (set_NeedsReconcile false (set_PauseReason reason (set_State StatePaused updated)), true)
  else (updated, false).

Definition attempt_update (outcome : AttemptOutcomeKind) (current updated : TaskRecord) :
    Prelude.outcome error (TaskRecord * bool) :=
  match outcome with
  | AttemptOutcomeKindNoProgress =>
    if r_NeedsReconcile current then Err ErrTaskChanged else
    let attempts := (r_NoProgressAttempts current + 1)%Z in
    Ok (strike pauseReasonNoProgress attempts
          (set_NeedsReconcile true (set_ReconcileAttempts 0 (set_NoProgressAttempts attempts updated))))
  | AttemptOutcomeKindReconcileFailed | AttemptOutcomeKindObservationFailed =>
    if ! Bool.eqb (outcome == AttemptOutcomeKindReconcileFailed) (r_NeedsReconcile current)
    then Err ErrTaskChanged else
    let attempts := (r_ReconcileAttempts current + 1)%Z in
    Ok (strike pauseReasonEvidenceUnconfirmed attempts
          (set_ReconcileAttempts attempts (set_NeedsReconcile true updated)))
  | AttemptOutcomeKindProgress =>
    let updated := set_ReconcileAttempts 0 (set_NeedsReconcile false updated) in
    Ok (if ! r_NeedsReconcile current then set_NoProgressAttempts 0 updated else updated, false)
  | AttemptOutcomeKindOther _ => Err ErrInvalidTaskSpec
  end.

Definition applyAttemptOutcome (current : TaskRecord) (outcome : AttemptOutcome) :
    Prelude.outcome error (TaskRecord * bool) :=
  nextRevision ← NextDurableCounter (r_Revision current);
  _ ← fail_if ((maxConsecutiveAttemptFailures <=? r_NoProgressAttempts current)%Z
               || (maxConsecutiveAttemptFailures <=? r_ReconcileAttempts current)%Z) ErrInvalidTaskSpec;
  '(updated, pause) ← attempt_update (ao_Kind outcome) current
                        (set_PauseReason "" (set_Revision nextRevision current));
  _ ← Record_Validate updated;
  Ok (updated, pause).

(** Loop of [requireAttemptWakeTopologyTx]: the executable wakes it meets are the
    selected one, running. *)
Fixpoint attempt_topology (head : worldHeadRow) (selected : durableWake) (l : list wakeRow) :
    Prelude.outcome error nat :=
  match l with
  | [] => Ok 0
  | c :: t =>
    w ← scanAdmissionWakeRow c;
    _ ← validateDurableWakeRelation head
          {| dw_wake := w; dw_record := dw_record selected; dw_raw := wr_json c; dw_clock := wr_clockID c |};
    _ ← fail_if ((w_ID w != w_ID (dw_wake selected)) || (w_Status w != wakeStatusRunning)) ErrInvalidTaskSpec;
    n ← attempt_topology head selected t;
    Ok (S n)
  end.
Definition executable_wakes (w : Wake) (db : DB) : list wakeRow :=
  take 2 (wakes_where (fun c => (wake_task (wr_indexed c) == wake_task w)
                                && executableStatus (w_Status (wr_indexed c))) by_wake_id db).
Definition requireAttemptWakeTopologyTx (head : worldHeadRow) (selected : durableWake) : M unit :=
  rows ← query (fun db => Ok (executable_wakes (dw_wake selected) db));
  count ← lift (attempt_topology head selected rows);
  let want := if w_Status (dw_wake selected) == wakeStatusConsumed then 0 else 1 in
  lift (fail_if (! Nat.eqb count want) ErrInvalidTaskSpec).

Definition attempt_admissible (exec : ExecutionContext) (claimant : string) (current : durableWake) :
    Prelude.outcome error unit :=
  let r := st_record (dw_record current) in
  let w := dw_wake current in
  _ ← fail_if ((r_Owner r != ex_Owner exec) || (r_ID r != ex_TaskID exec)) ErrTaskChanged;
  _ ← fail_if (sp_ClockID (r_Spec r) != ck_ID (ex_Clock exec)) ErrClockMismatch;
  _ ← fail_if (! (r_Revision r =? ex_ExpectedRevision exec)%N) ErrTaskChanged;
  _ ← fail_if (taskStateTerminal (r_State r)) ErrTaskTerminal;
  _ ← fail_if ((r_State r != StateRunning) || (r_Result r != None) || (r_NextWakeAt r != None)
               || (r_PauseReason r != "")) ErrTaskChanged;
  fail_if ((w_ClaimedBy w != claimant) || ! (w_Generation w =? bd_Generation (ex_Binding exec))%N
           || (r_Revision r <=? w_ExpectedRevision w)%N
           || ((w_Status w != wakeStatusRunning) && (w_Status w != wakeStatusConsumed))) ErrTaskChanged.

Definition finish_attempt_tx (exec : ExecutionContext) (outcome : AttemptOutcome) : M TaskRecord :=
  head ← loadWorldHeadForMutationTx (bd_World (ex_Binding exec));
  claimant ← ask e_claimantID;
  _ ← lift (validateCreateAuthority head exec);
  _ ← lift (validateWakeWorldAuthority head (ex_Binding exec) claimant);
  current ← findStrictWorldWakeTx head (ex_WakeID exec);
  _ ← lift (attempt_admissible exec claimant current);
  _ ← requireAttemptWakeTopologyTx head current;
  let before := st_record (dw_record current) in
  '(updated, pause) ← lift (applyAttemptOutcome before outcome);
  prepared ← prepareReconcileMutation (dw_record current) updated;
  _ ← updateAttemptRecordTx before prepared;
  _ ← (if pause && (w_Status (dw_wake current) == wakeStatusRunning)
       then updateWakeCASTx current (consumed_wake (dw_wake current)) else mret tt);
  mret prepared.

Definition FinishAttempt (exec : ExecutionContext) (outcome : AttemptOutcome) : M TaskRecord :=
  _ ← validateService;
  _ ← lift (validateFinishAttemptInput exec outcome);
  record ← withImmediateTransaction (finish_attempt_tx exec outcome);
  lift (of_option (cloneRecord record) ErrInvalidTaskSpec).
