(* ===== verification/Recovery.v ===== *)
(** * Restart recovery: [restart.go]

    A runtime that finds a world bound to an earlier runtime instance replans every
    task: deliveries go back to [pending], running tasks go back to waiting with a
    fresh wake and their unreported operations become uncertain. *)

From S2P Require Export Settle.

Local Open Scope go_scope.

Definition wakeReasonRestartReconcile : string := "restart_reconcile".

Record restartRunningTask := { rt_record : storedIntentTask; rt_wake : option durableWake }.
Record restartRecoveryPlan := { rp_deliveries : list durableWake; rp_running : list restartRunningTask }.
Record preparedRestartRecovery := {
  rr_current : restartRunningTask; rr_mutation : TaskRecord; rr_replacement : Wake
}.

(** ** The durable wakes of a world *)
Definition wake_row_less (a b : wakeRow) : bool :=
  let x := wr_indexed a in
  let y := wr_indexed b in
  if EntityID (w_Owner x) != EntityID (w_Owner y) then str_lt (EntityID (w_Owner x)) (EntityID (w_Owner y))
  else if w_TaskID x != w_TaskID y then str_lt (w_TaskID x) (w_TaskID y)
  else str_lt (w_ID x) (w_ID y).
Definition world_wakes (world : WorldKey) : DB -> list wakeRow :=
  wakes_where (fun c => in_world world (w_Owner (wr_indexed c))) wake_row_less.

Definition loadWorldDurableWakesTx (head : worldHeadRow) (graph : worldTaskIdentityGraph) : M (list durableWake) :=
  rows ← query (fun db => Ok (world_wakes (bd_World (hd_Binding (wh_Head head))) db));
  scanned ← lift (scan_wake_rows rows);
  lift (graph_wakes head graph scanned).

(** The entry of the [executable] map for one task, in scan order. *)
Definition executable_of (wakes : list durableWake) (k : AgentSessionKey * string) : list durableWake :=
  List.filter (fun d => executableStatus (w_Status (dw_wake d)) && (wake_task (dw_wake d) == k)) wakes.
(** A wake that some other runtime instance claimed. *)
Definition foreign_claim (head : worldHeadRow) (d : durableWake) : bool :=
  executableStatus (w_Status (dw_wake d)) && (w_Status (dw_wake d) != wakeStatusPending)
  && (w_ClaimedBy (dw_wake d) != wh_RuntimeInstanceID head).

(** [sortedWorldTaskIdentities], with the tasks the identities stand for. *)
Definition identity_less (a b : (AgentSessionKey * string) * storedIntentTask) : bool :=
  let '(o, t) := a.1 in
  let '(o', t') := b.1 in
  if GameID o != GameID o' then str_lt (GameID o) (GameID o')
  else if WorldID o != WorldID o' then str_lt (WorldID o) (WorldID o')
  else if EntityID o != EntityID o' then str_lt (EntityID o) (EntityID o')
  else str_lt t t'.
Definition sortedWorldTaskIdentities (g : worldTaskIdentityGraph) :
    list ((AgentSessionKey * string) * storedIntentTask) :=
  sort_slice identity_less (map_to_list (g_tasks g)).

(** ** The plan *)
Definition plan_task (recoverPriorInstance : bool) (record : storedIntentTask) (active : list durableWake)
    (plan : restartRecoveryPlan) : outcome error restartRecoveryPlan :=
  match r_State (st_record record), active with
  | StateWaiting, [d] =>
    _ ← fail_if (w_Status (dw_wake d) == wakeStatusRunning) ErrInvalidTaskSpec;
    Ok (if recoverPriorInstance
        then {| rp_deliveries := rp_deliveries plan ++ [d]; rp_running := rp_running plan |} else plan)
  | StateRunning, [] =>
    Ok (if recoverPriorInstance
        then {| rp_deliveries := rp_deliveries plan;
                rp_running := rp_running plan ++ [ {| rt_record := record; rt_wake := None |}] |} else plan)
  | StateRunning, [d] =>
    _ ← fail_if (w_Status (dw_wake d) != wakeStatusRunning) ErrInvalidTaskSpec;
    Ok (if recoverPriorInstance
        then {| rp_deliveries := rp_deliveries plan;
                rp_running := rp_running plan ++ [ {| rt_record := record; rt_wake := Some d |}] |} else plan)
  | (StatePaused | StateSucceeded | StateFailed | StateCancelled), [] => Ok plan
  | _, _ => Err ErrInvalidTaskSpec
  end.
Fixpoint plan_tasks (recoverPriorInstance : bool) (wakes : list durableWake)
    (l : list ((AgentSessionKey * string) * storedIntentTask)) (plan : restartRecoveryPlan) :
    outcome error restartRecoveryPlan :=
  match l with
  | [] => Ok plan
  | (k, record) :: t =>
    plan' ← plan_task recoverPriorInstance record (executable_of wakes k) plan;
    plan_tasks recoverPriorInstance wakes t plan'
  end.

Definition planRestartRecoveryTx (head : worldHeadRow) (claimantID : string) : M restartRecoveryPlan :=
  _ ← lift (fail_if (! requiredIdentity claimantID) ErrTaskConflict);
  graph ← graph_or ErrInvalidTaskSpec (bd_World (hd_Binding (wh_Head head)));
  wakes ← loadWorldDurableWakesTx head graph;
  _ ← lift (fail_if (existsb (foreign_claim head) wakes) ErrInvalidTaskSpec);
  lift (plan_tasks (wh_RuntimeInstanceID head != claimantID) wakes (sortedWorldTaskIdentities graph)
          {| rp_deliveries := []; rp_running := [] |}).

(** ** Records and rows *)
Definition recovered_operation (o : Operation) : Operation :=
  if op_Status o == OperationStatusRegistered then set_op_Status OperationStatusUncertain o else o.
Definition recoveredRunningRecord (current : TaskRecord) (nowTick : Z) : outcome error TaskRecord :=
  nextRevision ← NextDurableCounter (r_Revision current);
  let due := if (sp_DeadlineAt (r_Spec current) <? nowTick)%Z then sp_DeadlineAt (r_Spec current) else nowTick in
  Ok (set_Operations (recovered_operation <$> r_Operations current)
       (set_NextWakeAt (Some due) (set_PauseReason "" (set_NeedsReconcile true
         (set_State StateWaiting (set_Revision nextRevision current)))))).

(** The compare-and-swap of a running task's row. *)
Definition updateRestartRecordTx (before prepared : TaskRecord) : M unit :=
  _ ← marshal_before before;
  update_row before (fun c => row_is before c && (co_nextWakeAt c == None))
    (set_row_state (r_NextWakeAt prepared) prepared).

(** The wake that replaces the run of a recovered record. *)
Definition replacement_wake (wakeID : string) (updated : TaskRecord) (generation : N) : Wake :=
  new_wake wakeID (r_ID updated) (r_Owner updated) (r_Revision updated) (default 0%Z (r_NextWakeAt updated))
    wakeReasonRestartReconcile generation.

Definition validateRestartActivation (current : worldHeadRow) (runID : string) (clock : Clock) :
    outcome error unit :=
  _ ← fail_if (hd_Status (wh_Head current) != worldHeadStatusReady) ErrWorldNotReady;
  _ ← fail_if (bd_RunID (hd_Binding (wh_Head current)) != runID) ErrTaskChanged;
  validateMonotonicClock (hd_Clock (wh_Head current)) clock.

(** [updateWorldRestartHeadTx]: generation, clock, barrier and runtime may change. *)
Definition restart_head (updated before : worldHeadRow) : worldHeadRow :=
  let h := wh_Head before in
  {| wh_Head := {| hd_Binding := {| bd_World := bd_World (hd_Binding h); bd_RunID := bd_RunID (hd_Binding h);
                                    bd_Generation := bd_Generation (hd_Binding (wh_Head updated)) |};
                   hd_Clock := hd_Clock (wh_Head updated); hd_CheckpointID := hd_CheckpointID h;
                   hd_Status := hd_Status h; hd_Reason := hd_Reason h |};
     wh_SaveRequestID := wh_SaveRequestID updated; wh_BarrierStatus := wh_BarrierStatus updated;
     wh_BarrierPreparedAtUnixMS := wh_BarrierPreparedAtUnixMS updated;
     wh_RuntimeInstanceID := wh_RuntimeInstanceID updated; wh_RecoveryRunID := wh_RecoveryRunID before;
     wh_RecoveryError := wh_RecoveryError before |}.
Definition set_restart_columns (updated : worldHeadRow) (c : headColumns) : headColumns :=
  let u := head_columns updated in
  {| hc_runID := hc_runID c; hc_generation := hc_generation u; hc_clockID := hc_clockID u;
     hc_clockTick := hc_clockTick u; hc_clockSequence := hc_clockSequence u;
     hc_checkpointID := hc_checkpointID c; hc_saveRequestID := hc_saveRequestID u;
     hc_barrierStatus := hc_barrierStatus u; hc_runtimeInstanceID := hc_runtimeInstanceID u;
     hc_status := hc_status c; hc_reason := hc_reason c; hc_headJSON := updated |}.
Definition updateWorldRestartHeadTx (before updated : worldHeadRow) : M unit :=
  _ ← lift (worldHeadRow_validate updated);
  _ ← lift (fail_if (updated != restart_head updated before) ErrInvalidTaskSpec);
  affected ← update_head (bd_World (hd_Binding (wh_Head before)))
    (fun c => (hc_runtimeInstanceID c == wh_RuntimeInstanceID before)
              && (marshalWorldHeadRow (hc_headJSON c) == marshalWorldHeadRow before))
    (set_restart_columns updated);
  _ ← affected_one affected;
  ctx_err.

(** ** Applying a plan *)
Fixpoint prepare_recoveries (nowTick : Z) (generation : N) (running : list restartRunningTask)
    (candidateWakeIDs : list string) : M (list preparedRestartRecovery) :=
  match running, candidateWakeIDs with
  | [], _ => mret []
  | _ :: _, [] => fail ErrTaskChanged
  | current :: running', wakeID :: ids =>
    updated ← lift (recoveredRunningRecord (st_record (rt_record current)) nowTick);
    mutation ← prepareReconcileMutation (rt_record current) updated;
    let replacement := replacement_wake wakeID updated generation in
    _ ← lift (validateTaskWakePair updated replacement);
    exists_ ← query (fun db => Ok (bool_decide (is_Some (db_wakes db !! wakeID))));
    _ ← lift (fail_if exists_ ErrTaskConflict);
    rest ← prepare_recoveries nowTick generation running' ids;
    mret ({| rr_current := current; rr_mutation := mutation; rr_replacement := replacement |} :: rest)
  end.

(** A delivery that goes back to [pending] under a new generation. *)
Definition rebound_wake (generation : N) (retryAfter : Z) (w : Wake) : Wake :=
  wake_with w wakeStatusPending "" "" generation (w_Attempt w) retryAfter.

Fixpoint reset_deliveries (generation : N) (l : list durableWake) : M unit :=
  match l with
  | [] => mret tt
  | d :: t => _ ← updateWakeCASTx d (rebound_wake generation 0 (dw_wake d)); reset_deliveries generation t
  end.

Definition recover_running (p : preparedRestartRecovery) : M unit :=
  _ ← updateRestartRecordTx (st_record (rt_record (rr_current p))) (rr_mutation p);
  _ ← match rt_wake (rr_current p) with
      | Some d => updateWakeCASTx d (consumed_wake (dw_wake d))
      | None => mret tt
      end;
  _ ← insertWakeTx (rr_mutation p) (rr_replacement p);
  ctx_err.
Fixpoint recover_all (l : list preparedRestartRecovery) : M unit :=
  match l with
  | [] => mret tt
  | p :: t => _ ← recover_running p; recover_all t
  end.

Definition rebound_head (generation : N) (clock : Clock) (runtimeInstanceID : string) (head : worldHeadRow) :
    worldHeadRow :=
  let h := wh_Head head in
  {| wh_Head := {| hd_Binding := {| bd_World := bd_World (hd_Binding h); bd_RunID := bd_RunID (hd_Binding h);
                                    bd_Generation := generation |};
                   hd_Clock := clock; hd_CheckpointID := hd_CheckpointID h; hd_Status := hd_Status h;
                   hd_Reason := hd_Reason h |};
     wh_SaveRequestID := ""; wh_BarrierStatus := ""; wh_BarrierPreparedAtUnixMS := 0;
     wh_RuntimeInstanceID := runtimeInstanceID; wh_RecoveryRunID := wh_RecoveryRunID head;
     wh_RecoveryError := wh_RecoveryError head |}.

Definition applyRestartRecoveryTx (head : worldHeadRow) (plan : restartRecoveryPlan)
    (candidateWakeIDs : list string) (clock : Clock) (runtimeInstanceID : string) : M Head :=
  _ ← lift (fail_if (! requiredIdentity runtimeInstanceID
                     || (runtimeInstanceID == wh_RuntimeInstanceID head)) ErrTaskChanged);
  _ ← lift (validateRestartActivation head (bd_RunID (hd_Binding (wh_Head head))) clock);
  _ ← validateRestartBarrierTx head;
  generation ← lift (NextDurableCounter (bd_Generation (hd_Binding (wh_Head head))));
  prepared ← prepare_recoveries (ck_Tick clock) generation (rp_running plan) candidateWakeIDs;
  _ ← reset_deliveries generation (rp_deliveries plan);
  _ ← recover_all prepared;
  let updatedHead := rebound_head generation clock runtimeInstanceID head in
  _ ← updateWorldRestartHeadTx head updatedHead;
  mret (wh_Head updatedHead).
