(* ===== verification/Checkpoints.v ===== *)
(** * Preparing a checkpoint: the writing half of [checkpoint.go]

    [PrepareCheckpoint] admits the facts the save carries, fences the working set
    under the next generation, stores a snapshot of it and raises the save barrier,
    in one transaction. *)

From S2P Require Export Recovery.

Local Open Scope go_scope.

Inductive CheckpointStatus :=
| checkpointStatusConfirmed | checkpointStatusAbsent | checkpointStatusUnconfirmed
| CheckpointStatusOther (text : string).
#[export] Instance CheckpointStatus_eq_dec : EqDecision CheckpointStatus. Proof. solve_decision. Defined.
Record CheckpointRef := {
  rf_Status : CheckpointStatus; rf_ID : string; rf_Checksum : string; rf_SchemaVersion : Z;
  rf_World : WorldKey; rf_Reason : string
}.
Record Prepared := { pp_Head : Head; pp_Reference : CheckpointRef; pp_SaveRequestID : string }.

(** ** The request *)
Definition check_request_evidence (binding : Binding) (item : Evidence) : outcome error Evidence :=
  copyItem ← of_option (cloneEvidence item) ErrInvalidTaskSpec;
  _ ← Evidence_Validate copyItem;
  _ ← fail_if (ev_Applied copyItem) ErrEvidenceConflict;
  _ ← fail_if ((bd_World (ev_Binding copyItem) != bd_World binding)
               || match ev_RevalidatedIn copyItem with
                  | Some b => bd_World b != bd_World binding
                  | None => false
                  end) ErrWorldMismatch;
  Ok copyItem.
Fixpoint check_request_facts (binding : Binding) (l : list Evidence) : outcome error (list Evidence) :=
  match l with
  | [] => Ok []
  | item :: t => e ← check_request_evidence binding item; rest ← check_request_facts binding t; Ok (e :: rest)
  end.
(** One fact per id of the sorted slice; two facts of one id must agree. *)
Fixpoint merge_facts (last : option Evidence) (l : list Evidence) : outcome error (list Evidence) :=
  match l with
  | [] => Ok []
  | item :: t =>
    match last with
    | Some prior =>
      if ev_FactID prior == ev_FactID item then
        _ ← fail_if (! evidenceEqualIgnoringApplied prior item) ErrEvidenceConflict;
        merge_facts last t
      else rest ← merge_facts (Some item) t; Ok (item :: rest)
    | None => rest ← merge_facts (Some item) t; Ok (item :: rest)
    end
  end.
Definition prepareCheckpointRequest (binding : Binding) (clock : Clock) (saveRequestID : string)
    (evidence : list Evidence) : outcome error checkpointPrepareRequest :=
  _ ← Binding_Validate binding;
  _ ← fail_if (! is_ok (Clock_Validate clock) || (MaxInt64N <? ck_Sequence clock)%N
               || ! requiredIdentity saveRequestID) ErrInvalidTaskSpec;
  cloned ← check_request_facts binding evidence;
  normalized ← merge_facts None (sort_slice by_fact_id cloned);
  Ok {| pq_Binding := binding; pq_Clock := clock; pq_SaveRequestID := saveRequestID; pq_Evidence := normalized |}.

Definition preparedFromCheckpoint (row : checkpointRow) (snapshot : checkpointSnapshot) : Prepared :=
  {| pp_Head := sn_PreparedHead snapshot;
     pp_Reference := {| rf_Status := checkpointStatusConfirmed; rf_ID := cp_ID row; rf_Checksum := cp_Checksum row;
                        rf_SchemaVersion := cp_SchemaVersion row; rf_World := cp_World row; rf_Reason := "" |};
     pp_SaveRequestID := cp_SaveRequestID row |}.

Definition prepareCheckpointRetry (current : worldHeadRow) (row : checkpointRow)
    (request : checkpointPrepareRequest) : outcome error Prepared :=
  snapshot ← decodeCheckpointRow row;
  got ← of_option (marshalPrepareRequest (sn_Request snapshot)) ErrCheckpointInvalid;
  want ← of_option (marshalPrepareRequest request) ErrInvalidTaskSpec;
  _ ← fail_if (got != want) ErrIdempotencyConflict;
  _ ← fail_if ((hd_Binding (wh_Head current) != hd_Binding (sn_PreparedHead snapshot))
               || (hd_CheckpointID (wh_Head current) != cp_ID row)) ErrTaskChanged;
  _ ← fail_if ((wh_SaveRequestID current != "")
               && ((wh_SaveRequestID current != cp_SaveRequestID row)
                   || (wh_BarrierStatus current != checkpointBarrierPrepared))) ErrTaskChanged;
  Ok (preparedFromCheckpoint row snapshot).

(** ** New wake identities *)
Fixpoint checkpointWakeIDs (n : nat) (seen : gset string) : M (list string) :=
  match n with
  | O => mret []
  | S n' =>
    id ← newID "wake";
    _ ← lift (fail_if (! requiredIdentity id) ErrInvalidTaskSpec);
    _ ← lift (fail_if (bool_decide (id ∈ seen)) ErrTaskConflict);
    rest ← checkpointWakeIDs n' ({[id]} ∪ seen);
    mret (id :: rest)
  end.
Definition countWorldTasks (world : WorldKey) : M nat :=
  _ ← lift (WorldKey_Validate world);
  count ← catch (query (fun db => Ok (world_task_count world db))) (fun e => fail (classifyStoreError e));
  mret (Z.to_nat count).

(** ** Fencing the working set *)

(** [updateCheckpointWakeTx]: the SET list leaves the wake's id, owner, task and clock. *)
Definition checkpoint_wake_columns (updated : Wake) (c : wakeRow) : wakeRow :=
  let w := wr_indexed c in
  {| wr_indexed := {| w_ID := w_ID w; w_TaskID := w_TaskID w; w_Owner := w_Owner w;
                      w_ExpectedRevision := w_ExpectedRevision updated; w_DueTick := w_DueTick updated;
                      w_Reason := w_Reason updated; w_Status := w_Status updated;
                      w_ClaimID := w_ClaimID updated; w_ClaimedBy := w_ClaimedBy updated;
                      w_Generation := w_Generation updated; w_Attempt := w_Attempt updated;
                      w_RetryAfterUnixMS := w_RetryAfterUnixMS updated |};
     wr_clockID := wr_clockID c; wr_json := updated |}.
Definition updateCheckpointWakeTx (before : durableWake) (updated : Wake) : M unit :=
  _ ← lift (Wake_Validate updated);
  affected ← update_wake (w_ID (dw_wake before))
    (fun c => (wr_indexed c == dw_wake before) && (wr_clockID c == dw_clock before)
              && (marshalWake (wr_json c) == marshalWake (dw_raw before)))
    (checkpoint_wake_columns updated);
  _ ← affected_one affected;
  ctx_err.

(** A pending wake keeps its retry time, a claimed or enqueued one starts over. *)
Definition fenced_wake (generation : N) (w : Wake) : Wake :=
  rebound_wake generation (if w_Status w == wakeStatusPending then w_RetryAfterUnixMS w else 0) w.

Fixpoint normalize_tasks (nowTick : Z) (generation : N) (wakes : list durableWake) (wakeIDs : list string)
    (l : list ((AgentSessionKey * string) * storedIntentTask)) : M unit :=
  match l with
  | [] => ctx_err
  | (k, current) :: t =>
    match r_State (st_record current), executable_of wakes k with
    | StateWaiting, [d] =>
      _ ← lift (fail_if (w_Status (dw_wake d) == wakeStatusRunning) ErrInvalidTaskSpec);
      _ ← updateCheckpointWakeTx d (fenced_wake generation (dw_wake d));
      normalize_tasks nowTick generation wakes wakeIDs t
    | StateRunning, executable =>
      _ ← lift (fail_if match executable with
                        | [] => false
                        | [d] => w_Status (dw_wake d) != wakeStatusRunning
                        | _ => true
                        end ErrInvalidTaskSpec);
      match wakeIDs with
      | [] => fail ErrTaskChanged
      | wakeID :: ids =>
        updatedRecord ← lift (recoveredRunningRecord (st_record current) nowTick);
        mutation ← prepareReconcileMutation current updatedRecord;
        _ ← updateRestartRecordTx (st_record current) mutation;
        _ ← match executable with
            | [d] => updateCheckpointWakeTx d (consumed_wake (dw_wake d))
            | _ => mret tt
            end;
        _ ← insertWakeTx updatedRecord (replacement_wake wakeID updatedRecord generation);
        normalize_tasks nowTick generation wakes ids t
      end
    | (StatePaused | StateSucceeded | StateFailed | StateCancelled), [] =>
      normalize_tasks nowTick generation wakes wakeIDs t
    | _, _ => fail ErrInvalidTaskSpec
    end
  end.
Definition normalizeCheckpointWorkingSetTx (head : worldHeadRow) (generation : N) (wakeIDs : list string) : M unit :=
  graph ← graph_or ErrInvalidTaskSpec (bd_World (hd_Binding (wh_Head head)));
  wakes ← loadWorldDurableWakesTx head graph;
  _ ← lift (fail_if (existsb (foreign_claim head) wakes) ErrInvalidTaskSpec);
  normalize_tasks (ck_Tick (hd_Clock (wh_Head head))) generation wakes wakeIDs (sortedWorldTaskIdentities graph).

(** ** The snapshot *)
Definition snapshot_task (c : taskRowColumns) : outcome error checkpointTaskSnapshot :=
  decoded ← decodeTaskRowColumns c;
  record ← normalizeCheckpointRecord (dt_record decoded);
  Ok {| ts_Record := record; ts_CreateFingerprint := co_createFingerprint c;
        ts_CreateResponseJSON := co_createResponseJSON c; ts_CreateResponseHash := co_createResponseHash c;
        ts_IntentHistoryJSON := co_intentHistoryJSON c; ts_IntentHistoryHash := co_intentHistoryHash c |}.
Fixpoint snapshot_tasks (rows : list taskRowColumns) : outcome error (list checkpointTaskSnapshot) :=
  match rows with
  | [] => Ok []
  | c :: t => s ← snapshot_task c; rest ← snapshot_tasks t; Ok (s :: rest)
  end.
Definition captureCheckpointSnapshotTx (head : Head) (request : checkpointPrepareRequest) :
    M (checkpointSnapshot * string) :=
  let world := bd_World (hd_Binding head) in
  rows ← query (fun db => Ok (world_rows world db));
  tasks ← lift (snapshot_tasks rows);
  graph ← graph_or ErrInvalidTaskSpec world;
  wakeRows ← loadWorldDurableWakesTx
    {| wh_Head := head; wh_SaveRequestID := ""; wh_BarrierStatus := ""; wh_BarrierPreparedAtUnixMS := 0;
       wh_RuntimeInstanceID := "snapshot"; wh_RecoveryRunID := ""; wh_RecoveryError := noCode |} graph;
  let snapshot :=
    {| sn_SchemaVersion := checkpointSchemaVersion; sn_World := world; sn_PreparedHead := head;
       sn_Request := request; sn_Tasks := tasks;
       sn_Wakes := (fun d => {| ws_ClockID := dw_clock d; ws_Wake := dw_wake d |}) <$> wakeRows |} in
  _ ← lift (checkpointSnapshot_validate snapshot);
  raw ← lift (of_option (marshalSnapshot snapshot) ErrInvalidTaskSpec);
  mret (snapshot, raw).

(** ** Checkpoint rows *)
Definition checkpoint_checks (row : checkpointRow) : bool :=
  (0 <? cp_SchemaVersion row)%Z && (0 <=? ck_Tick (cp_Clock row))%Z && (0 <=? to_i64 (ck_Sequence (cp_Clock row)))%Z.
Definition checkpoint_conflict (a b : checkpointRow) : bool :=
  (cp_World a == cp_World b) && (cp_SaveRequestID a == cp_SaveRequestID b).
Definition insert_checkpoint (row : checkpointRow) : M unit :=
  exec (fun db =>
    _ ← fail_if (bool_decide (is_Some (db_checkpoints db !! cp_ID row))) constraint_failed;
    if checkpoint_checks row && no_other (cp_ID row) (checkpoint_conflict row) (db_checkpoints db)
    then Ok (tt, mkDB (db_heads db) (db_tasks db) (db_wakes db) (<[cp_ID row := row]> (db_checkpoints db)))
    else Err constraint_failed).
Definition maxSnapshotBytes : M Z := ask (fun env => MaxSnapshotBytes (e_options env)).
Definition insertCheckpointTx (row : checkpointRow) : M unit :=
  _ ← lift (checkpointRow_validate row);
  limit ← maxSnapshotBytes;
  _ ← lift (fail_if match marshalSnapshot (cp_Snapshot row) with
                    | Some raw => (limit <? str_len raw)%Z
                    | None => true
                    end ErrInvalidTaskSpec);
  _ ← insert_checkpoint row;
  ctx_err.

(** ** The service operation *)
Fixpoint admit_facts (head : worldHeadRow) (l : list Evidence) : M unit :=
  match l with
  | [] => mret tt
  | item :: t => _ ← admitEvidenceTx head item; admit_facts head t
  end.
Definition prepared_head (nextGeneration : N) (clock : Clock) (checkpointID : string) (h : Head) : Head :=
  {| hd_Binding := {| bd_World := bd_World (hd_Binding h); bd_RunID := bd_RunID (hd_Binding h);
                      bd_Generation := nextGeneration |};
     hd_Clock := clock; hd_CheckpointID := checkpointID; hd_Status := worldHeadStatusReady; hd_Reason := "" |}.

(** The transaction once no checkpoint of this save request exists. *)
Definition prepare_checkpoint_tx (current : worldHeadRow) (binding : Binding) (clock : Clock)
    (saveRequestID : string) (request : checkpointPrepareRequest) (checkpointID : string)
    (wakeIDs : list string) : M Prepared :=
  claimant ← ask e_claimantID;
  _ ← lift (validateWakeWorldAuthority current binding claimant);
  _ ← lift (validateExactWakeClock (hd_Clock (wh_Head current)) clock);
  _ ← admit_facts current (pq_Evidence request);
  nextGeneration ← lift (NextDurableCounter (bd_Generation (hd_Binding (wh_Head current))));
  let preparedHead := prepared_head nextGeneration clock checkpointID (wh_Head current) in
  _ ← normalizeCheckpointWorkingSetTx current nextGeneration wakeIDs;
  '(snapshot, snapshotJSON) ← captureCheckpointSnapshotTx preparedHead request;
  limit ← maxSnapshotBytes;
  _ ← lift (fail_if (limit <? str_len snapshotJSON)%Z ErrInvalidTaskSpec);
  let row := {| cp_ID := checkpointID; cp_World := bd_World binding; cp_SaveRequestID := saveRequestID;
                cp_SchemaVersion := checkpointSchemaVersion; cp_Clock := clock;
                cp_Checksum := sha256Hex snapshotJSON; cp_Snapshot := snapshot |} in
  _ ← lift (validateDecodedCheckpoint row snapshot);
  _ ← insertCheckpointTx row;
  barrierPreparedAt ← nowUnixMS;
  _ ← lift (fail_if (barrierPreparedAt <=? 0)%Z ErrInvalidTaskSpec);
  _ ← updateWorldHeadCASTx current
        (with_barrier saveRequestID checkpointBarrierPrepared barrierPreparedAt (with_head preparedHead current));
  mret (preparedFromCheckpoint row snapshot).

Definition PrepareCheckpoint (binding : Binding) (clock : Clock) (saveRequestID : string)
    (evidence : list Evidence) : M Prepared :=
  _ ← validateService;
  request ← lift (prepareCheckpointRequest binding clock saveRequestID evidence);
  checkpointID ← newID "checkpoint";
  _ ← lift (fail_if (! requiredIdentity checkpointID) ErrInvalidTaskSpec);
  wakeIDCount ← countWorldTasks (bd_World binding);
  wakeIDs ← checkpointWakeIDs wakeIDCount ∅;
  withImmediateTransaction (
    current ← loadWorldHeadForMutationTx (bd_World binding);
    prior ← loadCheckpointBySaveRequestTx (bd_World binding) saveRequestID;
    match prior with
    | Some row => lift (prepareCheckpointRetry current row request)
    | None => prepare_checkpoint_tx current binding clock saveRequestID request checkpointID wakeIDs
    end).
