(* ===== verification/Activation.v ===== *)
(** * Activating a world: [ActivateWorld] of [service.go] and the restoring half of
    [checkpoint.go]

    A runtime takes a world over in one of four ways: it creates the head of a new
    world, recovers the working set an earlier instance of the same run left,
    reactivates a paused head, or restores a confirmed checkpoint under a new run.
    A failed restore pauses the world instead. *)

From S2P Require Export Checkpoints.

Local Open Scope go_scope.

(** [result, err := f()]: the caller looks at the error itself. *)
Definition attempt {A} (m : M A) : M (outcome error A) := fun env st => let '(o, st') := m env st in (Ok o, st').

(** ** Input checks *)
Definition validateActivationBase (world : WorldKey) (runID : string) (clock : Clock) : outcome error unit :=
  _ ← fail_if (! is_ok (WorldKey_Validate world) || ! requiredIdentity runID) ErrInvalidTaskSpec;
  fail_if (! is_ok (Clock_Validate clock) || (MaxInt64N <? ck_Sequence clock)%N) ErrInvalidTaskSpec.

Definition validateCheckpointReference (world : WorldKey) (ref : CheckpointRef) : outcome error unit :=
  match rf_Status ref with
  | checkpointStatusAbsent =>
    fail_if ((rf_World ref != world) || (rf_ID ref != "") || (rf_Checksum ref != "")
             || ! (rf_SchemaVersion ref =? 0)%Z || ! optionalIdentity (rf_Reason ref)) ErrCheckpointInvalid
  | checkpointStatusUnconfirmed =>
    _ ← fail_if ((rf_World ref != world) || (rf_ID ref != "") || (rf_Checksum ref != "")
                 || ! (rf_SchemaVersion ref =? checkpointSchemaVersion)%Z
                 || ! requiredIdentity (rf_Reason ref)) ErrCheckpointInvalid;
    Err ErrCheckpointUnconfirmed
  | checkpointStatusConfirmed =>
    _ ← fail_if ((rf_World ref != world) || ! requiredIdentity (rf_ID ref)
                 || ! (str_len (rf_Checksum ref) =? 64)%Z
                 || ! (rf_SchemaVersion ref =? checkpointSchemaVersion)%Z || (rf_Reason ref != ""))
          ErrCheckpointInvalid;
    fail_if (! hex_ok (rf_Checksum ref)) ErrCheckpointInvalid
  | CheckpointStatusOther _ => Err ErrCheckpointInvalid
  end.

Definition validateActivationRetry (current : worldHeadRow) (runID : string) (clock : Clock) : outcome error unit :=
  _ ← fail_if (hd_Status (wh_Head current) != worldHeadStatusReady) ErrWorldNotReady;
  _ ← fail_if ((wh_BarrierStatus current != "") || (wh_SaveRequestID current != "")) ErrSaveInProgress;
  _ ← fail_if (bd_RunID (hd_Binding (wh_Head current)) != runID) ErrTaskChanged;
  validateExactWakeClock (hd_Clock (wh_Head current)) clock.

(** ** Heads *)
Definition insert_head (k : WorldKey) (c : headColumns) : M unit :=
  exec (fun db => _ ← fail_if (bool_decide (is_Some (db_heads db !! k))) constraint_failed;
                  db' ← put_head k c db; Ok (tt, db')).
Definition insertWorldHeadTx (row : worldHeadRow) : M unit :=
  insert_head (bd_World (hd_Binding (wh_Head row))) (head_columns row).

Definition worldHasDurableStateTx (world : WorldKey) : M bool :=
  query (fun db => Ok (existsb (fun c => in_world world (co_owner c)) ((map_to_list (db_tasks db)).*2)
                       || existsb (fun c => in_world world (w_Owner (wr_indexed c))) ((map_to_list (db_wakes db)).*2)
                       || existsb (fun c => cp_World c == world) ((map_to_list (db_checkpoints db)).*2))).

Definition loadCheckpointTx (world : WorldKey) (checkpointID : string) : M (option checkpointRow) :=
  query (fun db =>
    match db_checkpoints db !! checkpointID with
    | Some row => if cp_World row == world then r ← scanCheckpointRow row; Ok (Some r) else Ok None
    | None => Ok None
    end).

(** ** Restoring a checkpoint *)

(** [DELETE FROM task_wakeups] and [DELETE FROM tasks] of one world; deleting a task
    deletes its wakes. *)
Definition delete_world_wakes (world : WorldKey) : M unit :=
  exec (fun db => Ok (tt, mkDB (db_heads db) (db_tasks db)
    (filter (fun kc => in_world world (w_Owner (wr_indexed kc.2)) = false) (db_wakes db)) (db_checkpoints db))).
Definition delete_world_tasks (world : WorldKey) : M unit :=
  exec (fun db => Ok (tt, mkDB (db_heads db)
    (filter (fun kc => in_world world (co_owner kc.2) = false) (db_tasks db))
    (filter (fun kc => in_world world (w_Owner (wr_indexed kc.2)) = false) (db_wakes db)) (db_checkpoints db))).

Definition insertCheckpointTaskTx (task : checkpointTaskSnapshot) : M unit :=
  let columns := checkpointTaskColumns task in
  _ ← lift (or_err (decodeTaskRowColumns columns) ErrCheckpointInvalid);
  _ ← insert_task columns;
  ctx_err.
Definition insertCheckpointWakeTx (record : TaskRecord) (clockID : string) (wake : Wake) : M unit :=
  _ ← lift (fail_if ((clockID != sp_ClockID (r_Spec record)) || ! is_ok (validateTaskWakePair record wake))
              ErrCheckpointInvalid);
  _ ← insert_wake (wake_row clockID wake);
  ctx_err.

Fixpoint restore_tasks (l : list checkpointTaskSnapshot) : M unit :=
  match l with
  | [] => mret tt
  | item :: t => _ ← insertCheckpointTaskTx item; restore_tasks t
  end.
(** The [records] map of the restored tasks. *)
Definition restored_records (l : list checkpointTaskSnapshot) : gmap (AgentSessionKey * string) TaskRecord :=
  foldl (fun m item => <[row_key (ts_Record item) := ts_Record item]> m) ∅ l.
Definition restored_wake (generation : N) (w : Wake) : Wake :=
  if w_Status w == wakeStatusPending
  then wake_with w wakeStatusPending "" "" generation (w_Attempt w) (w_RetryAfterUnixMS w) else w.
Fixpoint restore_wakes (generation : N) (records : gmap (AgentSessionKey * string) TaskRecord)
    (l : list checkpointWakeSnapshot) : M unit :=
  match l with
  | [] => mret tt
  | item :: t =>
    let wake := restored_wake generation (ws_Wake item) in
    record ← lift (of_option (records !! wake_task wake) ErrCheckpointInvalid);
    _ ← insertCheckpointWakeTx record (ws_ClockID item) wake;
    restore_wakes generation records t
  end.

Definition activated_head (world : WorldKey) (runID : string) (generation : N) (clock : Clock)
    (checkpointID : string) : Head :=
  {| hd_Binding := {| bd_World := world; bd_RunID := runID; bd_Generation := generation |}; hd_Clock := clock;
     hd_CheckpointID := checkpointID; hd_Status := worldHeadStatusReady; hd_Reason := "" |}.
Definition fresh_head_row (head : Head) (runtimeInstanceID : string) : worldHeadRow :=
  {| wh_Head := head; wh_SaveRequestID := ""; wh_BarrierStatus := ""; wh_BarrierPreparedAtUnixMS := 0;
     wh_RuntimeInstanceID := runtimeInstanceID; wh_RecoveryRunID := ""; wh_RecoveryError := noCode |}.

(** The generation a restore starts from. *)
Definition base_generation (snapshot : checkpointSnapshot) (current : option worldHeadRow) : N :=
  let g := bd_Generation (hd_Binding (sn_PreparedHead snapshot)) in
  match current with
  | Some row => if (g <? bd_Generation (hd_Binding (wh_Head row)))%N
                then bd_Generation (hd_Binding (wh_Head row)) else g
  | None => g
  end.

(** The working set of the world is replaced by the snapshot's. *)
Definition restore_working_set (world : WorldKey) (generation : N) (snapshot : checkpointSnapshot) : M unit :=
  _ ← delete_world_wakes world;
  _ ← delete_world_tasks world;
  _ ← ctx_err;
  _ ← restore_tasks (sn_Tasks snapshot);
  restore_wakes generation (restored_records (sn_Tasks snapshot)) (sn_Wakes snapshot).

Definition activate_checkpoint_tx (world : WorldKey) (runID : string) (clock : Clock) (ref : CheckpointRef) : M Head :=
  found ← loadCheckpointTx world (rf_ID ref);
  row ← lift (of_option found ErrCheckpointMissing);
  _ ← lift (fail_if (! (cp_SchemaVersion row =? rf_SchemaVersion ref)%Z || (cp_Checksum row != rf_Checksum ref)
                     || (cp_World row != rf_World ref)) ErrCheckpointInvalid);
  snapshot ← lift (decodeCheckpointRow row);
  _ ← lift (fail_if (ck_ID clock != ck_ID (hd_Clock (sn_PreparedHead snapshot))) ErrClockMismatch);
  _ ← lift (fail_if (ck_Tick clock <? ck_Tick (hd_Clock (sn_PreparedHead snapshot)))%Z ErrClockRewound);
  current ← loadWorldHeadTx world;
  _ ← lift (fail_if match current with
                    | Some head => bd_RunID (hd_Binding (wh_Head head)) == runID
                    | None => false
                    end ErrTaskChanged);
  generation ← lift (NextDurableCounter (base_generation snapshot current));
  _ ← restore_working_set world generation snapshot;
  claimant ← ask e_claimantID;
  let head := activated_head world runID generation clock (cp_ID row) in
  let updated := fresh_head_row head claimant in
  _ ← match current with
      | Some before => updateWorldHeadCASTx before updated
      | None => _ ← insertWorldHeadTx updated; ctx_err
      end;
  mret head.
Definition activateCheckpoint (world : WorldKey) (runID : string) (clock : Clock) (ref : CheckpointRef) : M Head :=
  withImmediateTransaction (activate_checkpoint_tx world runID clock ref).

(** ** Pausing after a failed restore *)
Definition checkpointRecoveryCode (failure : error) : option Code :=
  match As_task failure with
  | Some (c, _, _) => if Code_Valid c then Some c else None
  | None => None
  end.
Definition checkpointRecoveryError (head : worldHeadRow) : error :=
  if (wh_RecoveryRunID head == "") || ! Code_Valid (wh_RecoveryError head) then ErrCheckpointInvalid
  else sentinel (wh_RecoveryError head).

Definition recovery_paused (runID : string) (code : Code) (h : Head) (runtimeInstanceID : string) : worldHeadRow :=
  {| wh_Head := head_paused (Code_string code) h; wh_SaveRequestID := ""; wh_BarrierStatus := "";
     wh_BarrierPreparedAtUnixMS := 0; wh_RuntimeInstanceID := runtimeInstanceID; wh_RecoveryRunID := runID;
     wh_RecoveryError := code |}.

Definition pauseWorldForCheckpointFailure (world : WorldKey) (runID : string) (clock : Clock) (failure : error) :
    M unit :=
  match checkpointRecoveryCode failure with
  | None => fail ErrCheckpointInvalid
  | Some code => withImmediateTransaction (
    found ← loadWorldHeadTx world;
    match found with
    | None =>
      claimant ← ask e_claimantID;
      let row := recovery_paused runID code (activated_head world runID 1 clock "") claimant in
      _ ← lift (worldHeadRow_validate row);
      _ ← insertWorldHeadTx row;
      ctx_err
    | Some current =>
      if (wh_RecoveryRunID current == "") && (bd_RunID (hd_Binding (wh_Head current)) == runID) then mret tt
      else if (hd_Status (wh_Head current) == worldHeadStatusPaused)
              && (hd_Reason (wh_Head current) == Code_string code)
              && (wh_RecoveryRunID current == runID) && (wh_RecoveryError current == code) then mret tt
      else updateWorldHeadCASTx current
             (recovery_paused runID code (wh_Head current) (wh_RuntimeInstanceID current))
    end)
  end.

(** The restore and, when it fails, the pause; the restore's error is the answer. *)
Definition restore_or_pause (world : WorldKey) (runID : string) (clock : Clock) (ref : CheckpointRef) : M Head :=
  restored ← attempt (activateCheckpoint world runID clock ref);
  match restored with
  | Ok head => mret head
  | Err restoreErr => _ ← pauseWorldForCheckpointFailure world runID clock restoreErr; fail restoreErr
  end.
Definition pause_and_fail (world : WorldKey) (runID : string) (clock : Clock) (e : error) : M Head :=
  _ ← pauseWorldForCheckpointFailure world runID clock e; fail e.

(** ** Reactivating a paused head *)
Definition reactivated_head (generation : N) (clock : Clock) (claimantID : string) (current : worldHeadRow) : worldHeadRow :=
  let h := wh_Head current in
  {| wh_Head := {| hd_Binding := {| bd_World := bd_World (hd_Binding h); bd_RunID := bd_RunID (hd_Binding h);
                                    bd_Generation := generation |};
                   hd_Clock := clock; hd_CheckpointID := hd_CheckpointID h; hd_Status := worldHeadStatusReady;
                   hd_Reason := "" |};
     wh_SaveRequestID := wh_SaveRequestID current; wh_BarrierStatus := wh_BarrierStatus current;
     wh_BarrierPreparedAtUnixMS := wh_BarrierPreparedAtUnixMS current; wh_RuntimeInstanceID := claimantID;
     wh_RecoveryRunID := wh_RecoveryRunID current; wh_RecoveryError := wh_RecoveryError current |}.

Definition activate_paused_tx (world : WorldKey) (runID : string) (clock : Clock) (wakeIDs : list string) : M Head :=
  current ← loadWorldHeadForMutationTx world;
  _ ← lift (fail_if (bd_RunID (hd_Binding (wh_Head current)) != runID) ErrTaskChanged);
  _ ← lift (fail_if (hd_Status (wh_Head current) != worldHeadStatusPaused) ErrTaskChanged);
  _ ← lift (fail_if (wh_RecoveryRunID current != "") (checkpointRecoveryError current));
  _ ← lift (fail_if ((wh_BarrierStatus current != "") || (wh_SaveRequestID current != "")) ErrSaveInProgress);
  _ ← lift (validateMonotonicClock (hd_Clock (wh_Head current)) clock);
  generation ← lift (NextDurableCounter (bd_Generation (hd_Binding (wh_Head current))));
  _ ← normalizeCheckpointWorkingSetTx (with_head (head_with_clock clock (wh_Head current)) current) generation wakeIDs;
  claimant ← ask e_claimantID;
  let updated := reactivated_head generation clock claimant current in
  _ ← updateWorldHeadCASTx current updated;
  mret (wh_Head updated).
Definition activatePausedWorkingHead (world : WorldKey) (runID : string) (clock : Clock) : M Head :=
  wakeIDCount ← countWorldTasks world;
  wakeIDs ← checkpointWakeIDs wakeIDCount ∅;
  withImmediateTransaction (activate_paused_tx world runID clock wakeIDs).

(** ** Activating the current run *)

(** [loadWorldHeadForMutationTx] where a missing head is not an error. *)
Definition find_head_for_mutation (world : WorldKey) : M (option worldHeadRow) :=
  found ← loadWorldHeadTx world;
  match found with
  | None => mret None
  | Some current => row ← releaseExpiredCheckpointBarrierTx current; mret (Some row)
  end.

(** The first transaction: the head it answers with and, when an earlier instance
    holds the world, that instance and the number of its running tasks. *)
Definition activate_first_tx (world : WorldKey) (runID : string) (clock : Clock) : M (Head * option (string * nat)) :=
  found ← find_head_for_mutation world;
  claimant ← ask e_claimantID;
  match found with
  | Some current =>
    let recoverPriorInstance := wh_RuntimeInstanceID current != claimant in
    _ ← (if recoverPriorInstance then
           _ ← lift (validateRestartActivation current runID clock);
           validateRestartBarrierTx current
         else lift (validateActivationRetry current runID clock));
    plan ← planRestartRecoveryTx current claimant;
    mret (wh_Head current, if recoverPriorInstance
                           then Some (wh_RuntimeInstanceID current, length (rp_running plan)) else None)
  | None =>
    hasState ← worldHasDurableStateTx world;
    _ ← lift (fail_if hasState ErrWorldNotReady);
    let head := activated_head world runID 1 clock "" in
    _ ← insertWorldHeadTx (fresh_head_row head claimant);
    mret (head, None)
  end.

(** The second transaction: recover the working set of the earlier instance. *)
Definition activate_recovery_tx (world : WorldKey) (runID : string) (clock : Clock) (recoveryFromInstance : string)
    (candidateWakeIDs : list string) : M Head :=
  current ← loadWorldHeadForMutationTx world;
  claimant ← ask e_claimantID;
  if wh_RuntimeInstanceID current == claimant then
    _ ← lift (validateActivationRetry current runID clock);
    mret (wh_Head current)
  else
    _ ← lift (validateRestartActivation current runID clock);
    _ ← validateRestartBarrierTx current;
    _ ← lift (fail_if (wh_RuntimeInstanceID current != recoveryFromInstance) ErrTaskChanged);
    plan ← planRestartRecoveryTx current claimant;
    _ ← lift (fail_if (length candidateWakeIDs <? length (rp_running plan))%nat ErrTaskChanged);
    applyRestartRecoveryTx current plan candidateWakeIDs clock claimant.

Definition recoveryWakeIDs (count : nat) : M (list string) := fresh_ids "wake" count ∅.

Definition activate_run (world : WorldKey) (runID : string) (clock : Clock) : M Head :=
  '(result, recovery) ← withImmediateTransaction (activate_first_tx world runID clock);
  match recovery with
  | None => mret result
  | Some (recoveryFromInstance, recoveryWakeCount) =>
    candidateWakeIDs ← recoveryWakeIDs recoveryWakeCount;
    withImmediateTransaction (activate_recovery_tx world runID clock recoveryFromInstance candidateWakeIDs)
  end.

(** ** The service operation *)
Definition ActivateWorld (world : WorldKey) (runID : string) (clock : Clock) (ref : CheckpointRef) : M Head :=
  _ ← validateService;
  _ ← lift (validateActivationBase world runID clock);
  match validateCheckpointReference world ref with
  | Err e => pause_and_fail world runID clock e
  | Ok _ =>
    loaded ← attempt (loadWorldHead world);
    match loaded with
    | Ok current =>
      if wh_RecoveryRunID current != "" then
        _ ← lift (fail_if (rf_Status ref != checkpointStatusConfirmed) (checkpointRecoveryError current));
        restore_or_pause world runID clock ref
      else if (bd_RunID (hd_Binding (wh_Head current)) == runID)
              && (hd_Status (wh_Head current) == worldHeadStatusPaused) then
        activatePausedWorkingHead world runID clock
      else if bd_RunID (hd_Binding (wh_Head current)) != runID then
        if rf_Status ref != checkpointStatusConfirmed then pause_and_fail world runID clock ErrCheckpointMissing
        else restore_or_pause world runID clock ref
      else activate_run world runID clock
    | Err e =>
      if Is_code e CodeTaskNotFound then
        if rf_Status ref == checkpointStatusConfirmed then restore_or_pause world runID clock ref
        else activate_run world runID clock
      else fail e
    end
  end.
