(* ===== verification/Effects.v ===== *)
(** * Effects: what a successful run of each building block did

    Inversion lemmas for the driver calls and row mutations, and the tactic that
    takes a successful run of a service operation apart. *)

From S2P Require Export Activation.

Local Open Scope go_scope.

Lemma query_run {A} (q : DB -> outcome error A) env st a st' :
  query q env st = (Ok a, st') <-> q (st_db st) = Ok a /\ e_fault env (st_step st) = None /\ st' = tick st.
Proof. unfold query. destruct (e_fault _ _); (split; [intros [= H <-]|intros (H & He & Hs)]); simplify_eq; auto. by rewrite H. Qed.

Lemma now_ok env st a st' : nowUnixMS env st = (Ok a, st') <-> a = e_now env (st_step st) /\ st' = tick st.
Proof. unfold nowUnixMS. naive_solver. Qed.
Lemma newID_ok p env st a st' : newID p env st = (Ok a, st') <-> 
  a = idgen_New p (e_nano env (st_step st)) (e_counter env (st_step st)) /\ st' = tick st.
Proof. unfold newID. naive_solver. Qed.
Lemma ctx_err_run env st u st' : ctx_err env st = (Ok u, st') <-> e_ctx env (st_step st) = None /\ st' = tick st.
Proof. unfold ctx_err. destruct (e_ctx _ _), u; (split; [intros [= <-]|intros [He Hs]]); simplify_eq; auto. Qed.
Lemma catch_fail_ok {A} (m : M A) g env st a st' :
  catch m (fun e => fail (g e)) env st = (Ok a, st') <-> m env st = (Ok a, st').
Proof. unfold catch, fail. destruct (m env st) as [[]]; naive_solver. Qed.
Lemma affected_one_ok n env st u st' : affected_one n env st = (Ok u, st') <-> n = 1%Z /\ st' = st.
Proof.
  unfold affected_one. rewrite lift_ok, fail_if_ok, negb_false_iff, Z.eqb_eq. done.
Qed.

(** Take a successful run apart: [lift]ed checks become their boolean facts,
    read-only steps an equation on the database, and nested binds are opened. *)
Ltac minv H :=
  lazymatch type of H with
  | mbind _ _ _ _ = (Ok _, _) =>
      apply M_bind_ok in H;
      let a := fresh "a" in let s := fresh "st" in let H1 := fresh "Hr" in
      destruct H as (a & s & H1 & H); minv H1; cbn beta in H; minv H
  | lift _ _ _ = (Ok _, _) => apply lift_ok in H; let E := fresh "Est" in destruct H as [H E]; subst; okinv H
  | mret _ _ _ = (Ok _, _) => apply ret_ok in H; destruct H as [? ?]; subst
  | ask _ _ _ = (Ok _, _) => apply ask_ok in H; destruct H as [? ?]; subst
  | fail _ _ _ = (Ok _, _) => exfalso; apply fail_ok in H; exact H
  | query _ _ _ = (Ok _, _) =>
      apply query_run in H; let E := fresh "Est" in let F := fresh "Hf" in destruct H as (H & F & E);
      subst; cbn [tick st_db] in H; okinv H
  | ctx_err _ _ = (Ok _, _) => apply ctx_err_run in H; destruct H as [H ?]; subst
  | nowUnixMS _ _ = (Ok _, _) => apply now_ok in H; destruct H as [? ?]; subst
  | newID _ _ _ = (Ok _, _) => apply newID_ok in H; destruct H as [? ?]; subst
  | catch _ (fun e => fail _) _ _ = (Ok _, _) => apply catch_fail_ok in H; minv H
  | affected_one _ _ _ = (Ok _, _) => apply affected_one_ok in H; destruct H as [H ?]; subst
  | match ?p with (_, _) => _ end _ _ = _ => destruct p; minv H
  | match ?p with pair _ _ => _ end _ _ = (Ok _, _) => destruct p; minv H
  | (if ?b then _ else _) _ _ = (Ok _, _) => let E := fresh "Hb" in destruct b eqn:E; minv H
  | _ => idtac
  end.

(** Read-only steps left the database alone: [ro_all] rewrites every database
    back to the last one a write produced. *)
Ltac ro_all :=
  repeat match goal with
  | H : ?m ?env ?s = (Ok _, ?s') |- _ =>
      lazymatch goal with
      | _ : st_db s' = st_db s |- _ => fail
      | _ => let R := constr:(ltac:(typeclasses eauto) : ReadOnly m) in
             let E := fresh "Edb" in pose proof (R _ _ _ _ H : st_db s' = st_db s) as E
      end
  end; cbn [tick st_db] in *.

(** ** Driver calls *)
Lemma put_task_ok c db db' : put_task c db = Ok db' ->
  task_checks c = true /\ no_other (task_key c) (task_conflict c) (db_tasks db) = true
  /\ db' = mkDB (db_heads db) (<[task_key c := c]> (db_tasks db)) (db_wakes db) (db_checkpoints db).
Proof.
  unfold put_task. destruct (task_checks c && _) eqn:H; [|done]. intros [= <-]. apply andb_true_iff in H as [? ?]. done.
Qed.
Lemma put_wake_ok w db db' : put_wake w db = Ok db' ->
  wake_checks w = true /\ no_other (w_ID (wr_indexed w)) (wake_conflict w) (db_wakes db) = true
  /\ is_Some (db_tasks db !! wake_task (wr_indexed w))
  /\ db' = mkDB (db_heads db) (db_tasks db) (<[w_ID (wr_indexed w) := w]> (db_wakes db)) (db_checkpoints db).
Proof.
  unfold put_wake. destruct (_ && _) eqn:H; [|done]. intros [= <-]. boolp. tauto.
Qed.
Lemma put_head_ok k c db db' : put_head k c db = Ok db' ->
  db' = mkDB (<[k := c]> (db_heads db)) (db_tasks db) (db_wakes db) (db_checkpoints db).
Proof. unfold put_head. destruct (_ && _); [|done]. by intros [= <-]. Qed.

Lemma update_task_one k guard set env st st' :
  update_task k guard set env st = (Ok 1%Z, st') ->
  exists c, db_tasks (st_db st) !! k = Some c /\ guard c = true /\ put_task (set c) (st_db st) = Ok (st_db st').
Proof.
  unfold update_task. intros H%exec_ok. destruct (db_tasks (st_db st) !! k) as [c|]; [|done].
  destruct (guard c) eqn:Hg; [|done]. okinv H. eauto.
Qed.
Lemma update_wake_one k guard set env st st' :
  update_wake k guard set env st = (Ok 1%Z, st') ->
  exists c, db_wakes (st_db st) !! k = Some c /\ guard c = true /\ put_wake (set c) (st_db st) = Ok (st_db st').
Proof.
  unfold update_wake. intros H%exec_ok. destruct (db_wakes (st_db st) !! k) as [c|]; [|done].
  destruct (guard c) eqn:Hg; [|done]. okinv H. eauto.
Qed.
Lemma update_head_one k guard set env st st' :
  update_head k guard set env st = (Ok 1%Z, st') ->
  exists c, db_heads (st_db st) !! k = Some c /\ guard c = true /\ put_head k (set c) (st_db st) = Ok (st_db st').
Proof.
  unfold update_head. intros H%exec_ok. destruct (db_heads (st_db st) !! k) as [c|]; [|done].
  destruct (guard c) eqn:Hg; [|done]. okinv H. eauto.
Qed.

(** ** Row mutations *)
Definition with_tasks (m : gmap (AgentSessionKey * string) taskRowColumns) (db : DB) : DB :=
  mkDB (db_heads db) m (db_wakes db) (db_checkpoints db).
Definition with_wakes (m : gmap string wakeRow) (db : DB) : DB :=
  mkDB (db_heads db) (db_tasks db) m (db_checkpoints db).
Definition with_heads (m : gmap WorldKey headColumns) (db : DB) : DB :=
  mkDB m (db_tasks db) (db_wakes db) (db_checkpoints db).

(** Setters that keep the primary key. *)
Class KeepsKey (set : taskRowColumns -> taskRowColumns) : Prop := keeps_key : forall c, task_key (set c) = task_key c.
#[export] Instance kk_record r : KeepsKey (set_row_record r). Proof. done. Qed.
#[export] Instance kk_state n r : KeepsKey (set_row_state n r). Proof. done. Qed.
#[export] Instance kk_reconcile c n r : KeepsKey (fun row => set_row_clock c (set_row_state n r row)). Proof. done. Qed.
#[export] Instance kk_history h x : KeepsKey (set_row_history h x). Proof. done. Qed.

(** Every row is stored under its own key. *)
Definition keyed (db : DB) : Prop := forall k c, db_tasks db !! k = Some c -> task_key c = k.

Lemma update_row_ok before guard set env st u st' `{KeepsKey set} :
  keyed (st_db st) -> update_row before guard set env st = (Ok u, st') ->
  exists c, db_tasks (st_db st) !! row_key before = Some c /\ guard c = true
  /\ task_checks (set c) = true
  /\ no_other (row_key before) (task_conflict (set c)) (db_tasks (st_db st)) = true
  /\ st_db st' = with_tasks (<[row_key before := set c]> (db_tasks (st_db st))) (st_db st).
Proof.
  intros Hk H0. unfold update_row in H0. minv H0.
  apply update_task_one in Hr as (c & Hc & Hg & (H1 & H2 & H3)%put_task_ok). exists c.
  rewrite (keeps_key c), (Hk _ _ Hc) in H2, H3. split_and!; done.
Qed.

Lemma insert_wake_ok w env st u st' :
  insert_wake w env st = (Ok u, st') ->
  db_wakes (st_db st) !! w_ID (wr_indexed w) = None /\ wake_checks w = true
  /\ no_other (w_ID (wr_indexed w)) (wake_conflict w) (db_wakes (st_db st)) = true
  /\ is_Some (db_tasks (st_db st) !! wake_task (wr_indexed w))
  /\ st_db st' = with_wakes (<[w_ID (wr_indexed w) := w]> (db_wakes (st_db st))) (st_db st).
Proof.
  unfold insert_wake. intros H%exec_ok. okinv H. boolp. apply eq_None_not_Some in Hg.
  apply put_wake_ok in Hv as (H1 & H2 & H3 & H4). split_and!; done.
Qed.

Lemma insertWakeTx_ok r w env st u st' :
  insertWakeTx r w env st = (Ok u, st') ->
  validateTaskWakePair r w = Ok tt /\ db_wakes (st_db st) !! w_ID w = None
  /\ no_other (w_ID w) (wake_conflict (wake_row (sp_ClockID (r_Spec r)) w)) (db_wakes (st_db st)) = true
  /\ st_db st' = with_wakes (<[w_ID w := wake_row (sp_ClockID (r_Spec r)) w]> (db_wakes (st_db st))) (st_db st).
Proof.
  unfold insertWakeTx. intros H. minv H. apply insert_wake_ok in Hr0 as (H1 & H2 & H3 & H4 & H5).
  split_and!; try done. by destruct a.
Qed.

Lemma updateWakeCASTx_ok before updated env st u st' :
  updateWakeCASTx before updated env st = (Ok u, st') ->
  Wake_Validate updated = Ok tt /\ w_ID updated = w_ID (dw_wake before)
  /\ w_TaskID updated = w_TaskID (dw_wake before) /\ w_Owner updated = w_Owner (dw_wake before)
  /\ exists c, db_wakes (st_db st) !! w_ID (dw_wake before) = Some c
  /\ wr_indexed c = dw_wake before /\ wr_clockID c = sp_ClockID (r_Spec (st_record (dw_record before)))
  /\ st_db st' = with_wakes (<[w_ID (dw_wake before) :=
       {| wr_indexed := updated; wr_clockID := wr_clockID c; wr_json := updated |}]> (db_wakes (st_db st))) (st_db st).
Proof.
  unfold updateWakeCASTx. intros H. minv H. boolp. destruct a.
  apply update_wake_one in Hr1 as (c & Hc & Hg & (H1 & H2 & H3 & H4)%put_wake_ok). cbn [wr_indexed] in *.
  boolp. split_and!; try tauto. exists c. split_and!; try tauto. cbn [tick st_db]. rewrite H4.
  unfold with_wakes. do 2 f_equal. tauto.
Qed.

(** ** World heads *)
Lemma to_i64_small n : (n <= MaxInt64N)%N -> to_i64 n = Z.of_N n.
Proof. intros H. unfold to_i64. apply wrap_i64_id. unfold int64_range, MaxInt64N in *. lia. Qed.

(** Writing a validated head and reading it back is the identity. *)
Lemma head_columns_scan r : worldHeadRow_validate r = Ok tt ->
  scanWorldHeadRow (bd_World (hd_Binding (wh_Head r))) (head_columns r) = Ok r.
Proof.
  intros H. pose proof H as H'. unfold worldHeadRow_validate in H.
  apply bind_ok in H as ([] & Hb & H). apply bind_ok in H as ([] & Hc & H). apply fail_if_bind in H as [Hg _].
  unfold Binding_Validate in Hb. okinv Hb. apply ValidateDurableCounter_ok in Hb.
  unfold Clock_Validate in Hc. okinv Hc.
  assert (ck_Sequence (hd_Clock (wh_Head r)) <= MaxInt64N)%N as Hs.
  { apply N.ltb_ge. rewrite !orb_false_iff in Hg. tauto. }
  unfold scanWorldHeadRow, head_columns. cbn [hc_generation hc_clockSequence hc_headJSON hc_runID hc_clockID
    hc_clockTick hc_checkpointID hc_status hc_reason hc_saveRequestID hc_barrierStatus hc_runtimeInstanceID].
  rewrite !to_i64_small, !N2Z.id by lia.
  apply fail_if_bind. split. { apply orb_false_iff. split; [apply Z.leb_gt|apply Z.ltb_ge]; lia. }
  destruct r as [[[] []] ]. cbn. rewrite bool_decide_true by done. cbn in H'. rewrite H'. done.
Qed.

Lemma updateWorldHeadCASTx_ok before updated env st u st' :
  updateWorldHeadCASTx before updated env st = (Ok u, st') ->
  worldHeadRow_validate updated = Ok tt
  /\ bd_World (hd_Binding (wh_Head updated)) = bd_World (hd_Binding (wh_Head before))
  /\ st_db st' = with_heads (<[bd_World (hd_Binding (wh_Head before)) := head_columns updated]> (db_heads (st_db st))) (st_db st).
Proof.
  unfold updateWorldHeadCASTx. intros H. minv H. boolp. destruct Hr0 as [Hv Hw].
  apply update_head_one in Hr1 as (c & Hc & Hg & Hp%put_head_ok).
  split_and!; [by apply is_ok_tt|done|]. cbn [tick st_db]. by rewrite Hp.
Qed.

Lemma scanWorldHeadRow_ok w c r : scanWorldHeadRow w c = Ok r ->
  bd_World (hd_Binding (wh_Head r)) = w /\ worldHeadRow_validate r = Ok tt.
Proof.
  unfold scanWorldHeadRow. intros H. okinv H. boolp. destruct Hg0 as [Heq Hv].
  apply is_ok_tt in Hv. split; [by rewrite Heq|done].
Qed.

Lemma loadWorldHeadTx_ok w env st o st' :
  loadWorldHeadTx w env st = (Ok o, st') ->
  st_db st' = st_db st /\ match o with
     | None => db_heads (st_db st) !! w = None
     | Some r => exists c, db_heads (st_db st) !! w = Some c /\ scanWorldHeadRow w c = Ok r
     end.
Proof.
  intros H. unfold loadWorldHeadTx in H. minv H. split; [done|].
  destruct (db_heads (st_db st) !! w) as [c|]; okinv H; eauto.
Qed.

#[export] Instance ro_loadHead w : ReadOnly (loadWorldHeadTx w). Proof. apply _. Qed.
#[export] Instance ro_loadCheckpoint w s : ReadOnly (loadCheckpointBySaveRequestTx w s). Proof. apply _. Qed.
#[export] Instance ro_restartBarrier h : ReadOnly (validateRestartBarrierTx h). Proof. apply _. Qed.

(** Loading a head for mutation touches only that head, by retiring an expired
    barrier; what it returns is what the table now holds. *)
Lemma loadWorldHeadForMutationTx_ok w env st r st' :
  loadWorldHeadForMutationTx w env st = (Ok r, st') ->
  bd_World (hd_Binding (wh_Head r)) = w /\ worldHeadRow_validate r = Ok tt
  /\ exists c r0, db_heads (st_db st) !! w = Some c /\ scanWorldHeadRow w c = Ok r0
  /\ ((r = r0 /\ st_db st' = st_db st)
      \/ (r = with_barrier "" "" 0 r0 /\ barrier_ours (e_claimantID env) r0 = true
          /\ st_db st' = with_heads (<[w := head_columns r]> (db_heads (st_db st))) (st_db st))).
Proof.
  unfold loadWorldHeadForMutationTx. intros H. minv H.
  apply loadWorldHeadTx_ok in Hr as [Edb Ho]. destruct a as [r0|]; [|by apply fail_ok in H].
  destruct Ho as (c & Hc & Hs). destruct (scanWorldHeadRow_ok _ _ _ Hs) as [Hw Hv].
  unfold releaseExpiredCheckpointBarrierTx in H. minv H; rewrite ?Edb in *.
  - split_and!; [done|done|]. exists c, r0. split_and!; auto.
  - split_and!; [done|done|]. exists c, r0. split_and!; auto.
  - rename Hb into Hours. ro_all. apply updateWorldHeadCASTx_ok in Hr1 as (Hv' & Hw' & Hdb).
    split_and!; [done|done|]. exists c, r0. split_and!; try done. right.
    split_and!; [done|by apply negb_false_iff|]. rewrite Hdb. congruence.
Qed.
