(* ===== verification/RowFacts.v ===== *)
(** * Row well-formedness: when a task row decodes, and which updates keep it decodable *)

From S2P Require Export Effects.

Local Open Scope go_scope.

#[local] Opaque Record_Validate sha256Hex marshalRecord marshalTaskSpec marshalCreateResult
  marshalHistory cloneRecord modelProgressJSON.

Lemma or_err_unit_ok {E E'} (m : outcome E unit) (e : E') u : or_err m e = Ok u -> m = Ok tt.
Proof. destruct m as [[]|]; simpl; [done|discriminate]. Qed.

(** ** Clones keep everything but the bytes of raw messages *)
Lemma cloneRecord_canonical_out r r' : cloneRecord r = Some r' -> canonical r'.
Proof. intros H%cloneRecord_idem. by apply cloneRecord_canonical. Qed.

Lemma canonical_clone r r' : canonical r -> cloneRecord r = Some r' -> r' = r.
Proof. intros H%cloneRecord_canonical Hc. congruence. Qed.

(** The history of a row is a fixed point of decoding too. *)
Definition canonical_call (c : intentCall) : Prop := cloneIntentCall c = Some c.

Lemma cloneIntentRequest_idem q q' : cloneIntentRequest q = Some q' -> cloneIntentRequest q' = Some q'.
Proof. unfold cloneIntentRequest. intros H. opt_inv H. simpl. by rewrite (cloneSourceRef_idem _ _ Hx). Qed.

Lemma cloneIntentCall_idem c c' : cloneIntentCall c = Some c' -> cloneIntentCall c' = Some c'.
Proof.
  unfold cloneIntentCall. intros H. opt_inv H. simpl.
  by rewrite (cloneIntentRequest_idem _ _ Hx), (cloneRecord_idem _ _ Hx0).
Qed.

Record row_wf (k : AgentSessionKey * string) (c : taskRowColumns) : Prop := {
  rw_key : task_key c = k;
  rw_record : canonical (co_recordJSON c);
  rw_history : Forall canonical_call (co_intentHistoryJSON c);
  rw_decodes : exists d, decodeTaskRowColumns c = Ok d
}.
Definition tasks_wf (db : DB) : Prop := forall k c, db_tasks db !! k = Some c -> row_wf k c.

Lemma tasks_wf_keyed db : tasks_wf db -> keyed db.
Proof. intros H k c Hc. apply (H k c Hc). Qed.

(** What a decoded row consists of. *)
Record decoded_row (c : taskRowColumns) (d : decodedTask) : Prop := {
  de_record : dt_record d = co_recordJSON c;
  de_history : dt_history d = co_intentHistoryJSON c;
  de_valid : Record_Validate (co_recordJSON c) = Ok tt;
  de_agree : exists fp, taskSpecFingerprint (r_Spec (co_recordJSON c)) = Some fp
                        /\ columns_agree c (co_recordJSON c) fp = true;
  de_revision : (0 < co_revision c)%Z;
  de_marshal : is_Some (marshalRecord (co_recordJSON c));
  de_create : exists cr, decodeCreateResponse c (co_recordJSON c) (co_createFingerprint c) = Ok cr
                         /\ dt_create d = cr;
  de_checked : decodeIntentHistory (co_intentHistoryJSON c) (co_intentHistoryHash c) (co_recordJSON c)
               = Ok (co_intentHistoryJSON c)
}.

Lemma decode_canonical c d :
  canonical (co_recordJSON c) -> Forall canonical_call (co_intentHistoryJSON c) ->
  decodeTaskRowColumns c = Ok d -> decoded_row c d.
Proof.
  intros Hc Hh H. unfold decodeTaskRowColumns in H. okinv H.
  apply (canonical_clone _ _ Hc) in Hv. subst v.
  assert (decodeIntentHistory (co_intentHistoryJSON c) (co_intentHistoryHash c) (co_recordJSON c) = Ok v3) as Hd by done.
  unfold decodeIntentHistory in Hd. apply bind_ok in Hd as (text & Ht & Hd).
  apply fail_if_bind in Hd as [Hhash Hd]. apply bind_ok in Hd as (h & Hm & Hd). apply of_option_ok in Hm.
  rewrite (proj2 (mapM_opt_fixed _ _) Hh) in Hm. injection Hm as <-.
  apply fail_if_bind in Hd as [_ Hd]. apply bind_ok in Hd as (_ & _ & Hd). injection Hd as <-.
  simplify_eq. destruct v0. split; simpl; try done; eauto.
  - exists v1. by rewrite negb_false_iff in Hg1.
  - lia.
  - rewrite negb_false_iff in Hg0. by apply json_texts_equal_refl in Hg0.
Qed.

Lemma decode_intro c fp cr :
  canonical (co_recordJSON c) -> (0 < co_revision c)%Z -> Record_Validate (co_recordJSON c) = Ok tt ->
  is_Some (marshalRecord (co_recordJSON c)) ->
  taskSpecFingerprint (r_Spec (co_recordJSON c)) = Some fp ->
  columns_agree c (co_recordJSON c) fp = true ->
  decodeCreateResponse c (co_recordJSON c) (co_createFingerprint c) = Ok cr ->
  decodeIntentHistory (co_intentHistoryJSON c) (co_intentHistoryHash c) (co_recordJSON c)
    = Ok (co_intentHistoryJSON c) ->
  exists d, decodeTaskRowColumns c = Ok d.
Proof.
  intros Hc Hr Hv Hm Hfp Ha Hcr Hh. unfold decodeTaskRowColumns.
  rewrite (proj2 (Z.leb_gt _ _) Hr), (proj2 (cloneRecord_canonical _) Hc).
  cbn [mbind outcome_bind fail_if of_option]. rewrite Hv. cbn [mbind outcome_bind].
  rewrite (proj2 (json_texts_equal_refl _) Hm), Hfp. cbn [negb mbind outcome_bind fail_if of_option].
  rewrite Ha. cbn [negb mbind outcome_bind fail_if]. rewrite Hcr. cbn [mbind outcome_bind]. rewrite Hh.
  cbn [mbind outcome_bind]. eauto.
Qed.

(** The identity of a task: what no operation changes. *)
Record same_identity (r r' : TaskRecord) : Prop := {
  si_id : r_ID r' = r_ID r;
  si_owner : r_Owner r' = r_Owner r;
  si_spec : r_Spec r' = r_Spec r;
  si_tick : r_CreatedAtGameTick r' = r_CreatedAtGameTick r;
  si_unix : r_CreatedAtUnixMS r' = r_CreatedAtUnixMS r
}.

(** The business state, which only a new revision may change. *)
Record same_business (r r' : TaskRecord) : Prop := {
  sb_state : r_State r' = r_State r;
  sb_revision : r_Revision r' = r_Revision r;
  sb_next : r_NextWakeAt r' = r_NextWakeAt r;
  sb_progress : r_Progress r' = r_Progress r;
  sb_result : r_Result r' = r_Result r
}.

(** ** The history survives *)
Lemma validateIntentCall_same c r r' :
  same_identity r r' -> same_business r r' -> validateIntentCall c r' = validateIntentCall c r.
Proof.
  intros [H1 H2 H3 H4 H5] [B1 B2 B3 B4 B5].
  unfold validateIntentCall, intent_response_related, intent_effect_related.
  by rewrite H1, H2, H3, H4, H5, B1, B2, B3, B4, B5.
Qed.

Lemma validateIntentCall_advanced c r r' x :
  same_identity r r' -> (r_Revision r < r_Revision r')%N -> r_State r <> StateCancelled ->
  validateIntentCall c r = Ok x -> validateIntentCall c r' = Ok x.
Proof.
  intros [H1 H2 H3 H4 H5] Hrev Hs. unfold validateIntentCall.
  destruct (of_option (marshalIntentRequest (ic_Request c)) _) as [q|]; cbn [mbind outcome_bind]; [|done].
  destruct (of_option (marshalRecord (ic_Response c)) _) as [p|]; cbn [mbind outcome_bind]; [|done].
  destruct (fail_if _ _); cbn [mbind outcome_bind]; [|done].
  destruct (of_option (cloneIntentRequest (ic_Request c)) _) as [request|]; cbn [mbind outcome_bind]; [|done].
  destruct (or_err (intentRequest_validate request) _); cbn [mbind outcome_bind]; [|done].
  destruct (fail_if _ _); cbn [mbind outcome_bind]; [|done].
  destruct (of_option (cloneRecord (ic_Response c)) _) as [response|]; cbn [mbind outcome_bind]; [|done].
  destruct (or_err (Record_Validate response) _); cbn [mbind outcome_bind]; [|done].
  destruct (fail_if (! json_texts_equal (Some p) (marshalRecord response)) _); cbn [mbind outcome_bind]; [|done].
  rewrite !fail_if_bind, !negb_false_iff. intros (Hrel & Hprog & Heff & Hx).
  assert (r_Revision response <= r_Revision r)%N as Hle.
  { unfold intent_response_related in Hrel. rewrite !andb_true_iff, N.leb_le in Hrel. tauto. }
  split_and!; try done.
  - unfold intent_response_related in *. rewrite H1, H2, H3, H4, H5.
    rewrite !andb_true_iff, N.leb_le in *. split_and!; try tauto. lia.
  - apply andb_false_iff. left. apply N.eqb_neq. lia.
  - unfold intent_effect_related in *. destruct (in_Kind (iq_Intent request)); try done.
    destruct (r_Result response); [|done]. rewrite !andb_true_iff, !bool_decide_eq_true in Heff. tauto.
Qed.

Lemma check_history_ext r r' seen h :
  (forall c x, c ∈ h -> validateIntentCall c r = Ok x -> validateIntentCall c r' = Ok x) ->
  check_history r seen h = Ok tt -> check_history r' seen h = Ok tt.
Proof.
  revert seen. induction h as [|c h IH]; intros seen Hv; [done|]. cbn [check_history].
  intros ([q p] & Hq & H)%bind_ok. rewrite (Hv _ _ ltac:(by left) Hq). cbn [mbind outcome_bind].
  apply fail_if_bind in H as [Hs H]. apply fail_if_bind. split; [done|].
  apply IH; [|done]. intros. apply Hv; [by right|done].
Qed.

Lemma decodeIntentHistory_ext h hash r r' :
  (forall c x, c ∈ h -> validateIntentCall c r = Ok x -> validateIntentCall c r' = Ok x) ->
  Forall canonical_call h ->
  decodeIntentHistory h hash r = Ok h -> decodeIntentHistory h hash r' = Ok h.
Proof.
  intros Hv Hh. unfold decodeIntentHistory.
  intros (text & Ht & H)%bind_ok. rewrite Ht. cbn [mbind outcome_bind].
  apply fail_if_bind in H as [Hhash H]. rewrite Hhash. cbn [mbind outcome_bind fail_if].
  rewrite (proj2 (mapM_opt_fixed _ _) Hh) in *. cbn [mbind outcome_bind of_option] in *.
  apply fail_if_bind in H as [He H]. rewrite He. cbn [mbind outcome_bind fail_if].
  apply bind_ok in H as ([] & H & _). rewrite (check_history_ext r r'); done.
Qed.

(** ** The create response survives *)
Lemma initialCreateResult_same r r' : same_identity r r' -> initialCreateResult r' = initialCreateResult r.
Proof. intros [H1 H2 H3 H4 H5]. unfold initialCreateResult. by rewrite H1, H2, H3, H4, H5. Qed.

Lemma decodeCreateResponse_same c c' r r' :
  co_createResponseJSON c' = co_createResponseJSON c -> co_createResponseHash c' = co_createResponseHash c ->
  co_createFingerprint c' = co_createFingerprint c -> same_identity r r' ->
  decodeCreateResponse c' r' (co_createFingerprint c') = decodeCreateResponse c r (co_createFingerprint c).
Proof.
  intros H1 H2 H3 Hs. unfold decodeCreateResponse.
  by rewrite H1, H2, H3, (initialCreateResult_same _ _ Hs).
Qed.

(** ** Updates of a row *)
Lemma columns_agree_true c r fp : columns_agree c r fp = true <->
  r_Owner r = co_owner c /\ r_ID r = co_taskID c /\ r_State r = co_state c
  /\ r_Revision r = Z.to_N (co_revision c) /\ sp_ClockID (r_Spec r) = co_clockID c
  /\ r_NextWakeAt r = co_nextWakeAt c /\ src_EventID (sp_Source (r_Spec r)) = co_createEventID c
  /\ src_TurnID (sp_Source (r_Spec r)) = co_createTurnID c
  /\ src_CallID (sp_Source (r_Spec r)) = co_createCallID c
  /\ fp = co_createFingerprint c /\ sp_EquivalenceKey (r_Spec r) = co_equivalenceKey c.
Proof.
  unfold columns_agree. rewrite !andb_true_iff, !bool_decide_eq_true, N.eqb_eq. tauto.
Qed.

(** A row keeps its identity columns, create response and history. *)
Record row_kept (c c' : taskRowColumns) : Prop := {
  rk_key : task_key c' = task_key c;
  rk_clock : co_clockID c' = co_clockID c;
  rk_create : (co_createEventID c', co_createTurnID c', co_createCallID c', co_createFingerprint c',
     co_equivalenceKey c', co_createResponseJSON c', co_createResponseHash c')
    = (co_createEventID c, co_createTurnID c, co_createCallID c, co_createFingerprint c,
       co_equivalenceKey c, co_createResponseJSON c, co_createResponseHash c)
}.

(** The columns follow the new record. *)
Record row_follows (c' : taskRowColumns) : Prop := {
  rf_state : co_state c' = r_State (co_recordJSON c');
  rf_revision : co_revision c' = to_i64 (r_Revision (co_recordJSON c'));
  rf_next : co_nextWakeAt c' = r_NextWakeAt (co_recordJSON c')
}.

(** The record part of a decodable row after an update; the history is checked
    against the new record. *)
Lemma row_updated k c c' :
  row_wf k c -> row_kept c c' -> row_follows c' ->
  same_identity (co_recordJSON c) (co_recordJSON c') ->
  canonical (co_recordJSON c') -> Record_Validate (co_recordJSON c') = Ok tt ->
  is_Some (marshalRecord (co_recordJSON c')) ->
  Forall canonical_call (co_intentHistoryJSON c') ->
  decodeIntentHistory (co_intentHistoryJSON c') (co_intentHistoryHash c') (co_recordJSON c')
    = Ok (co_intentHistoryJSON c') ->
  row_wf k c'.
Proof.
  intros [Hk Hcan Hhist [d Hd]] [Hkey Hclock Hcreate] [Hst Hrev Hnext] Hid Hcan' Hv Hm Hhist' Hh.
  apply decode_canonical in Hd as [_ _ _ (fp & Hfp & Ha) _ _ (cr & Hcr & _) _]; [|done|done].
  injection Hcreate as E1 E2 E3 E4 E5 E6 E7.
  split; [by rewrite Hkey|done|done|].
  apply columns_agree_true in Ha as (A1 & A2 & A3 & A4 & A5 & A6 & A7 & A8 & A9 & A10 & A11).
  unfold task_key in Hkey. injection Hkey as K1 K2.
  pose proof (proj1 (Record_Validate_ok _) Hv) as Hok. pose proof (rk_revision _ Hok) as Hr.
  destruct Hid as [I1 I2 I3 I4 I5] eqn:HI.
  eapply (decode_intro c' fp cr); try done.
  - rewrite Hrev, to_i64_small by lia. lia.
  - by rewrite I3.
  - apply columns_agree_true. rewrite Hst, Hrev, Hnext, Hclock, K1, K2, I1, I2, I3, E1, E2, E3, E4, E5.
    rewrite to_i64_small, N2Z.id by lia. split_and!; try done; by rewrite <- ?A1, <- ?A2.
  - rewrite (decodeCreateResponse_same c c' (co_recordJSON c)); [done|done|done|done|by split].
Qed.
