(* ===== verification/Evolution.v ===== *)
(** * How stored tasks evolve

    [evolves r r'] is everything the kernel promises about a record across any
    number of its operations; [tasks_evolve] lifts it to the task table together
    with the invariant that every row still decodes. *)

From S2P Require Export RowFacts.

Local Open Scope go_scope.

#[local] Opaque Record_Validate sha256Hex marshalRecord marshalTaskSpec marshalCreateResult
  marshalHistory cloneRecord modelProgressJSON validateTaskMutationCapacity.

(** An operation may only leave [registered]. *)
Definition op_status_kept (o : Operation) (s : OperationStatus) : Prop :=
  s = op_Status o \/ op_Status o = OperationStatusRegistered.

Record evolves (r r' : TaskRecord) : Prop := {
  ev_identity : same_identity r r';
  ev_revision : (r_Revision r <= r_Revision r')%N;
  ev_merge : r_Revision r' = r_Revision r -> same_business r r';
  ev_final : taskStateTerminal (r_State r) = true -> same_business r r' /\ r_Evidence r' = r_Evidence r;
  ev_facts : forall e, e ∈ r_Evidence r ->
    exists b, set_ev_Applied b e ∈ r_Evidence r' /\ (ev_Applied e = true -> b = true);
  ev_operations : forall o, o ∈ r_Operations r ->
    exists s, set_op_Status s o ∈ r_Operations r' /\ op_status_kept o s;
  ev_cleanups : forall c, c ∈ r_Cleanup r -> cl_Status c <> CleanupStatusUnconfirmed -> c ∈ r_Cleanup r'
}.

#[export] Instance same_identity_preorder : PreOrder same_identity.
Proof. split; [by intros r|]. intros r1 r2 r3 [] []. split; congruence. Qed.
#[export] Instance same_business_preorder : PreOrder same_business.
Proof. split; [by intros r|]. intros r1 r2 r3 [] []. split; congruence. Qed.

Lemma set_ev_Applied_id e : set_ev_Applied (ev_Applied e) e = e.
Proof. by destruct e. Qed.
Lemma set_op_Status_id o : set_op_Status (op_Status o) o = o.
Proof. by destruct o. Qed.

#[export] Instance evolves_preorder : PreOrder evolves.
Proof.
  split.
  - intros r. split; try done.
    + intros e He. exists (ev_Applied e). by rewrite set_ev_Applied_id.
    + intros o Ho. exists (op_Status o). rewrite set_op_Status_id. by split; [|left].
  - intros r1 r2 r3 [I1 R1 M1 T1 F1 O1 C1] [I2 R2 M2 T2 F2 O2 C2]. split.
    + by trans r2.
    + lia.
    + intros He. trans r2; [apply M1|apply M2]; lia.
    + intros Ht. destruct (T1 Ht) as [B1 E1].
      destruct (T2 ltac:(by rewrite (sb_state _ _ B1))) as [B2 E2]. split; [by trans r2|congruence].
    + intros e He. destruct (F1 e He) as (b & Hb & Hi). destruct (F2 _ Hb) as (b' & Hb' & Hi').
      exists b'. split; [done|]. intros Ha. apply Hi'. simpl. auto.
    + intros o Ho. destruct (O1 o Ho) as (s & Hs & Hk). destruct (O2 _ Hs) as (s' & Hs' & Hk').
      exists s'. split; [done|]. unfold op_status_kept in *. simpl in *. naive_solver congruence.
    + auto.
Qed.

(** ** The task table *)
Record tasks_evolve (db db' : DB) : Prop := {
  te_wf : tasks_wf db';
  te_rows : forall k c, db_tasks db !! k = Some c ->
    exists c', db_tasks db' !! k = Some c' /\ evolves (co_recordJSON c) (co_recordJSON c')
}.

Lemma tasks_evolve_same db db' : tasks_wf db -> db_tasks db' = db_tasks db -> tasks_evolve db db'.
Proof.
  intros Hwf He. split; [intros k c; rewrite He; apply Hwf|].
  intros k c Hc. exists c. by rewrite He.
Qed.

Lemma tasks_evolve_trans db1 db2 db3 : tasks_evolve db1 db2 -> tasks_evolve db2 db3 -> tasks_evolve db1 db3.
Proof.
  intros [W1 R1] [W2 R2]. split; [done|]. intros k c Hc.
  destruct (R1 k c Hc) as (c2 & Hc2 & E1). destruct (R2 k c2 Hc2) as (c3 & Hc3 & E2).
  exists c3. split; [done|]. by trans (co_recordJSON c2).
Qed.

Lemma tasks_evolve_row db db' k c c' :
  tasks_wf db -> db_tasks db !! k = Some c -> row_wf k c' ->
  evolves (co_recordJSON c) (co_recordJSON c') -> db_tasks db' = <[k := c']> (db_tasks db) ->
  tasks_evolve db db'.
Proof.
  intros Hwf Hc Hc' He Hdb. split.
  - intros j d. rewrite Hdb. destruct (decide (j = k)) as [->|Hne].
    + rewrite lookup_insert_eq. by intros [= <-].
    + rewrite lookup_insert_ne by done. apply Hwf.
  - intros j d Hj. rewrite Hdb. destruct (decide (j = k)) as [->|Hne].
    + rewrite lookup_insert_eq. exists c'. assert (d = c) as -> by congruence. done.
    + rewrite lookup_insert_ne by done. exists d. done.
Qed.

Lemma tasks_evolve_new db db' k c' :
  tasks_wf db -> db_tasks db !! k = None -> row_wf k c' -> db_tasks db' = <[k := c']> (db_tasks db) ->
  tasks_evolve db db'.
Proof.
  intros Hwf Hk Hc' Hdb. split.
  - intros j d. rewrite Hdb. destruct (decide (j = k)) as [->|Hne].
    + rewrite lookup_insert_eq. by intros [= <-].
    + rewrite lookup_insert_ne by done. apply Hwf.
  - intros j d Hj. exists d. rewrite Hdb, lookup_insert_ne; [done|congruence].
Qed.

(** ** Tasks that were read *)

(** The row behind a loaded task. *)
Record loaded (db : DB) (t : storedIntentTask) (c : taskRowColumns) : Prop := {
  ld_row : db_tasks db !! row_key (st_record t) = Some c;
  ld_record : co_recordJSON c = st_record t;
  ld_history : co_intentHistoryJSON c = st_history t;
  ld_wf : row_wf (row_key (st_record t)) c
}.

Lemma loaded_row db k c d :
  tasks_wf db -> db_tasks db !! k = Some c -> decodeTaskRowColumns c = Ok d ->
  loaded db {| st_record := dt_record d; st_history := dt_history d |} c /\ row_key (dt_record d) = k.
Proof.
  intros Hwf Hc Hd. pose proof (Hwf _ _ Hc) as Hrow. destruct Hrow as [Hk Hcan Hh _].
  pose proof (decode_canonical c d Hcan Hh Hd) as [Hr Hhist _ (fp & _ & Ha) _ _ _ _].
  apply columns_agree_true in Ha as (A1 & A2 & _).
  assert (row_key (dt_record d) = k) as Hkey.
  { unfold row_key, task_key in *. rewrite Hr, A1, A2. done. }
  split; [|done]. split; simpl; rewrite ?Hkey; auto.
Qed.

Lemma loadIntentTaskTx_ok o t env st r st' :
  tasks_wf (st_db st) -> loadIntentTaskTx o t env st = (Ok r, st') ->
  st_db st' = st_db st /\ row_key (st_record r) = (o, t) /\ exists c, loaded (st_db st) r c.
Proof.
  intros Hwf H. unfold loadIntentTaskTx in H. minv H. split; [done|].
  destruct (db_tasks (st_db st) !! (o, t)) as [c|] eqn:Hc; [|done]. okinv H.
  destruct (loaded_row _ _ _ _ Hwf Hc Hv) as [Hl Hk]. eauto.
Qed.

Lemma rows_where_elem p db c : c ∈ rows_where p db <-> p c = true /\ exists k, db_tasks db !! k = Some c.
Proof.
  unfold rows_where. rewrite sort_slice_perm, elem_of_bfilter, list_elem_of_fmap. split.
  - intros (([k c'] & -> & Hin) & Hp). apply elem_of_map_to_list in Hin. eauto.
  - intros (Hp & k & Hk). split; [|done]. exists (k, c). split; [done|]. by apply elem_of_map_to_list.
Qed.

Lemma decode_rows_ok l ds : decode_rows l = Ok ds ->
  length ds = length l /\ forall d, d ∈ ds -> exists c, c ∈ l /\ decodeTaskRowColumns c = Ok d.
Proof.
  revert ds. induction l as [|c l IH]; intros ds H.
  { injection H as <-. split; [done|]. set_solver. }
  unfold decode_rows in H. cbn [foldr] in H. fold (decode_rows l) in H. okinv H.
  destruct (IH _ Hv0) as [Hl Hd]. split; [simpl; congruence|].
  intros d [->|Hin]%elem_of_cons; [exists c; split; [by left|done]|].
  destruct (Hd d Hin) as (c' & Hc' & Hdec). exists c'. split; [by right|done].
Qed.

Lemma loadWorldTaskByIDTx_ok w t env st r st' :
  tasks_wf (st_db st) -> loadWorldTaskByIDTx w t env st = (Ok r, st') ->
  st_db st' = st_db st /\ sameOwnerWorld (r_Owner (st_record r)) w = true /\ r_ID (st_record r) = t
  /\ exists c, loaded (st_db st) r c.
Proof.
  intros Hwf H. pose proof (ro_loadByID w t _ _ _ _ H) as Edb. split; [done|].
  unfold loadWorldTaskByIDTx in H. minv H.
  match goal with H : decode_rows _ = Ok ?l |- _ => destruct (decode_rows_ok _ _ H) as [_ Hd];
    destruct l as [|d [|]] end.
  all: try (exfalso; by apply fail_ok in H). apply ret_ok in H as [-> _]. destruct (Hd d ltac:(by left)) as (c & Hin & Hdec).
  apply rows_where_elem in Hin as (Hp & k & Hk). apply andb_true_iff in Hp as [Hw Ht].
  destruct (loaded_row _ _ _ _ Hwf Hk Hdec) as [Hl Hkey]. cbn [st_record].
  pose proof (rw_key _ _ (Hwf _ _ Hk)) as Htk. rewrite <- Htk in Hkey.
  unfold row_key, task_key in Hkey. injection Hkey as K1 K2.
  split_and!; [by rewrite K1|rewrite K2; by boolp|eauto].
Qed.

Lemma build_graph_tasks rows g g' k t :
  build_graph g rows = Ok g' -> g_tasks g' !! k = Some t ->
  g_tasks g !! k = Some t \/ exists c d, c ∈ rows /\ decodeTaskRowColumns c = Ok d
    /\ t = {| st_record := dt_record d; st_history := dt_history d |} /\ k = row_key (dt_record d).
Proof.
  revert g. induction rows as [|c rows IH]; intros g H Ht; cbn [build_graph] in H.
  { injection H as <-. by left. }
  okinv H. destruct (IH _ H Ht) as [Hl|(c' & d & Hc' & Hr)].
  - unfold graph_add in Hv. okinv Hv. destruct v2 as [facts sources]. okinv Hv. simpl in Hl.
    destruct (decide (k = row_key (dt_record v0))) as [->|Hne].
    + unfold row_key in Hl. rewrite lookup_insert_eq in Hl. injection Hl as <-. right.
      exists c, v0. split_and!; [by left|done..].
    + rewrite lookup_insert_ne in Hl by (intros <-; done). by left.
  - right. exists c', d. split; [by right|done].
Qed.

Lemma graph_or_ok e w env st g st' :
  graph_or e w env st = (Ok g, st') ->
  st_db st' = st_db st /\ build_graph empty_graph (world_rows w (st_db st)) = Ok g.
Proof.
  intros H. ro_all. split; [done|]. unfold graph_or in H. apply catch_fail_ok in H.
  unfold loadWorldTaskIdentityGraph in H. minv H. done.
Qed.

Lemma graph_task_loaded db w g k t :
  tasks_wf db -> build_graph empty_graph (world_rows w db) = Ok g -> g_tasks g !! k = Some t ->
  row_key (st_record t) = k /\ exists c, loaded db t c.
Proof.
  intros Hwf Hg Ht. destruct (build_graph_tasks _ _ _ _ _ Hg Ht) as [Hl|(c & d & Hc & Hd & -> & ->)].
  { unfold empty_graph in Hl. cbn [g_tasks] in Hl. by rewrite lookup_empty in Hl. }
  apply rows_where_elem in Hc as (_ & k & Hk). destruct (loaded_row _ _ _ _ Hwf Hk Hd) as [Hl _].
  split; [done|]. eauto.
Qed.

(** A wake found with its task. *)
Lemma findStrictWorldWakeTx_ok head id env st d st' :
  tasks_wf (st_db st) -> findStrictWorldWakeTx head id env st = (Ok d, st') ->
  st_db st' = st_db st
  /\ validateDurableWakeRelation head d = Ok tt
  /\ row_key (st_record (dw_record d)) = wake_task (dw_wake d)
  /\ (exists c, loaded (st_db st) (dw_record d) c)
  /\ exists row, db_wakes (st_db st) !! id = Some row /\ scanAdmissionWakeRow row = Ok (dw_wake d).
Proof.
  intros Hwf H. unfold findStrictWorldWakeTx in H. minv H.
  apply graph_or_ok in Hr as [Edb Hg]. rewrite Edb in *.
  destruct (db_wakes (st_db st) !! id) as [row|] eqn:Hrow; [|done].
  destruct (in_world _ _); [|done]. okinv Hr0. unfold graph_wake in H. okinv H. simpl in *.
  destruct (graph_task_loaded _ _ _ _ _ Hwf Hg Hv0) as [Hk Hl].
  apply unit_ok in Hv1. split_and!; eauto.
Qed.

(** ** Prepared records *)
Lemma prepare_capacity_ok updated initial h env st u st' :
  prepare_capacity updated initial h env st = (Ok u, st') -> st' = st /\ is_Some (marshalRecord updated).
Proof. unfold prepare_capacity, maxTaskBytes. intros H. minv H. split; [done|eauto]. Qed.

Lemma prepareNoRevisionMutation_ok current updated env st p st' :
  prepareNoRevisionMutation current updated env st = (Ok p, st') ->
  p = updated /\ st' = st /\ Record_Validate updated = Ok tt /\ is_Some (marshalRecord updated).
Proof.
  unfold prepareNoRevisionMutation. intros H. minv H.
  match goal with H : prepare_capacity _ _ _ _ _ = _ |- _ => apply prepare_capacity_ok in H as [-> Hm] end.
  match goal with H : Record_Validate _ = Ok ?u |- _ => destruct u end. done.
Qed.

Lemma prepareReconcileMutation_ok current updated env st p st' :
  prepareReconcileMutation current updated env st = (Ok p, st') ->
  p = updated /\ st' = st /\ Record_Validate updated = Ok tt /\ is_Some (marshalRecord updated).
Proof.
  unfold prepareReconcileMutation. intros H. minv H.
  match goal with H : prepare_capacity _ _ _ _ _ = _ |- _ => apply prepare_capacity_ok in H as [-> Hm] end.
  match goal with H : Record_Validate _ = Ok ?u |- _ => destruct u end. done.
Qed.

Lemma prepareCleanupMutation_ok current updated env st p st' :
  prepareCleanupMutation current updated env st = (Ok p, st') ->
  p = updated /\ st' = st /\ Record_Validate updated = Ok tt /\ is_Some (marshalRecord updated).
Proof.
  unfold prepareCleanupMutation. intros H. minv H.
  match goal with H : prepare_capacity _ _ _ _ _ = _ |- _ => apply prepare_capacity_ok in H as [-> Hm] end.
  match goal with H : Record_Validate _ = Ok ?u |- _ => destruct u end. done.
Qed.

Lemma prepareBeginMutation_ok current env st p st' :
  prepareBeginMutation current env st = (Ok p, st') ->
  (r_Revision (st_record current) < MaxInt64N)%N
  /\ p = set_NextWakeAt None (set_Revision (r_Revision (st_record current) + 1)
           (set_State StateRunning (st_record current)))
  /\ st' = st /\ Record_Validate p = Ok tt /\ is_Some (marshalRecord p).
Proof.
  unfold prepareBeginMutation. intros H. minv H.
  match goal with H : prepare_capacity _ _ _ _ _ = _ |- _ => apply prepare_capacity_ok in H as [-> Hm] end.
  match goal with H : Record_Validate _ = Ok ?u |- _ => destruct u end.
  match goal with H : NextDurableCounter _ = Ok _ |- _ => apply NextDurableCounter_ok in H as [Hn ->] end. done.
Qed.

(** ** One row update *)
Lemma row_advanced k c c' :
  row_wf k c -> row_kept c c' -> row_follows c' ->
  co_intentHistoryJSON c' = co_intentHistoryJSON c -> co_intentHistoryHash c' = co_intentHistoryHash c ->
  evolves (co_recordJSON c) (co_recordJSON c') ->
  canonical (co_recordJSON c') -> Record_Validate (co_recordJSON c') = Ok tt ->
  is_Some (marshalRecord (co_recordJSON c')) -> row_wf k c'.
Proof.
  intros Hwf Hk Hf Hh1 Hh2 Hev Hc Hv Hm. pose proof Hwf as [_ Hcan Hhist [d Hd]].
  apply decode_canonical in Hd as Hdec; [|done|done].
  eapply row_updated; try done; rewrite ?Hh1, ?Hh2; [apply Hev|done|].
  eapply decodeIntentHistory_ext; [|done|apply Hdec].
  intros call x _ Hcall. destruct (decide (r_Revision (co_recordJSON c') = r_Revision (co_recordJSON c))) as [He|Hne].
  - rewrite (validateIntentCall_same _ (co_recordJSON c)); [done|apply Hev|by apply Hev].
  - eapply validateIntentCall_advanced; [apply Hev| | |done].
    + pose proof (ev_revision _ _ Hev). lia.
    + intros Hs. destruct (ev_final _ _ Hev) as [Hb _]; [by rewrite Hs|]. by apply Hne, Hb.
Qed.

(** What a compare-and-swap on a loaded task leaves behind. *)
Lemma update_loaded db t c set guard env st u st' `{KeepsKey set} :
  tasks_wf db -> loaded db t c -> st_db st = db ->
  update_row (st_record t) guard set env st = (Ok u, st') ->
  row_kept c (set c) -> row_follows (set c) ->
  co_intentHistoryJSON (set c) = co_intentHistoryJSON c -> co_intentHistoryHash (set c) = co_intentHistoryHash c ->
  evolves (st_record t) (co_recordJSON (set c)) ->
  canonical (co_recordJSON (set c)) -> Record_Validate (co_recordJSON (set c)) = Ok tt ->
  is_Some (marshalRecord (co_recordJSON (set c))) ->
  tasks_evolve db (st_db st') /\ guard c = true
  /\ st_db st' = with_tasks (<[row_key (st_record t) := set c]> (db_tasks db)) db.
Proof.
  intros Hwf [Hl1 Hl2 Hl3 Hl4] Hdb Hup Hk Hf Hh1 Hh2 Hev Hc Hv Hm.
  assert (keyed (st_db st)) as Hkd by (rewrite Hdb; by apply tasks_wf_keyed).
  destruct (update_row_ok _ _ _ _ _ _ _ Hkd Hup) as (c0 & Hc0 & Hg & _ & _ & Hdb').
  rewrite Hdb in *. assert (c0 = c) as -> by congruence. rewrite <- Hl2 in Hev. split_and!; [|done|done].
  eapply (tasks_evolve_row _ _ _ c (set c)); [done|done| |done|by rewrite Hdb'].
  by eapply row_advanced.
Qed.

Lemma loaded_canonical db t c : loaded db t c -> canonical (st_record t).
Proof. intros [_ <- _ Hw]. apply Hw. Qed.
Lemma loaded_valid db t c : loaded db t c -> Record_Validate (st_record t) = Ok tt.
Proof.
  intros [_ <- _ Hw]. destruct (rw_decodes _ _ Hw) as [d Hd].
  by apply decode_canonical in Hd as Hdec; [apply Hdec|apply Hw|apply Hw].
Qed.
Lemma loaded_ok db t c : loaded db t c -> record_ok (st_record t).
Proof. intros H. by apply Record_Validate_ok, (loaded_valid _ _ _ H). Qed.
Lemma loaded_columns db t c : loaded db t c ->
  co_state c = r_State (st_record t) /\ co_revision c = to_i64 (r_Revision (st_record t))
  /\ co_nextWakeAt c = r_NextWakeAt (st_record t) /\ co_clockID c = sp_ClockID (r_Spec (st_record t)).
Proof.
  intros H. pose proof (loaded_ok _ _ _ H) as Hok. destruct H as [_ Hr _ Hw]. rewrite <- Hr in *.
  destruct (rw_decodes _ _ Hw) as [d Hd].
  apply decode_canonical in Hd as [_ _ _ (fp & _ & Ha) Hpos _ _ _]; [|apply Hw|apply Hw].
  apply columns_agree_true in Ha as (A1 & A2 & A3 & A4 & A5 & A6 & _).
  pose proof (rk_revision _ Hok). rewrite to_i64_small, A4 by lia. split_and!; try done. lia.
Qed.

(** A merge: the record column alone changes. *)
Lemma merge_effect db t c prepared env st u st' :
  tasks_wf db -> loaded db t c -> st_db st = db ->
  updateNoRevisionRecordTx (st_record t) prepared env st = (Ok u, st') ->
  evolves (st_record t) prepared -> r_Revision prepared = r_Revision (st_record t) ->
  canonical prepared -> Record_Validate prepared = Ok tt -> is_Some (marshalRecord prepared) ->
  tasks_evolve db (st_db st')
  /\ st_db st' = with_tasks (<[row_key (st_record t) := set_row_record prepared c]> (db_tasks db)) db.
Proof.
  intros Hwf Hl Hdb Hup Hev Hrev Hc Hv Hm. unfold updateNoRevisionRecordTx, marshal_before in Hup. minv Hup.
  destruct (loaded_columns _ _ _ Hl) as (C1 & C2 & C3 & C4).
  destruct (ev_merge _ _ Hev Hrev) as [B1 B2 B3 B4 B5].
  edestruct (update_loaded _ t c _ _ _ _ _ _ Hwf Hl eq_refl Hup) as (He & _ & Hdb'); try done.
  split; cbn [set_row_record co_state co_revision co_nextWakeAt co_recordJSON]; congruence.
Qed.
