(* ===== verification/OpEffects.v ===== *)
(** * Every service operation evolves the task table

    One lemma per operation, errors and driver faults included. *)

From S2P Require Export Evolution.

Local Open Scope go_scope.

#[local] Opaque Record_Validate sha256Hex marshalRecord marshalTaskSpec marshalCreateResult
  marshalHistory cloneRecord modelProgressJSON validateTaskMutationCapacity.

(** ** Steps that leave the task table alone *)
Class KeepsTasks {A} (m : M A) : Prop :=
  keeps_tasks : forall env st a st', m env st = (Ok a, st') -> db_tasks (st_db st') = db_tasks (st_db st).

#[export] Instance kt_ro {A} (m : M A) `{ReadOnly A m} : KeepsTasks m | 10.
Proof. intros env st a st' Hr. by rewrite (H _ _ _ _ Hr). Qed.
#[export] Instance kt_bind {A B} (m : M A) (f : A -> M B) :
  KeepsTasks m -> (forall a, KeepsTasks (f a)) -> KeepsTasks (m ≫= f).
Proof.
  intros Hm Hf env st b st' H. apply M_bind_ok in H as (a & st1 & H1 & H2).
  rewrite (Hf _ _ _ _ _ H2). by eapply Hm.
Qed.
#[export] Instance kt_if {A} (b : bool) (m n : M A) : KeepsTasks m -> KeepsTasks n -> KeepsTasks (if b then m else n).
Proof. by destruct b. Qed.
#[export] Instance kt_insertWake r w : KeepsTasks (insertWakeTx r w).
Proof. intros env st u st' H. apply insertWakeTx_ok in H as (_ & _ & _ & ->). done. Qed.
#[export] Instance kt_updateWake b u : KeepsTasks (updateWakeCASTx b u).
Proof. intros env st x st' H. apply updateWakeCASTx_ok in H as (_ & _ & _ & _ & c & _ & _ & _ & ->). done. Qed.
#[export] Instance kt_headCAS b u : KeepsTasks (updateWorldHeadCASTx b u).
Proof. intros env st x st' H. apply updateWorldHeadCASTx_ok in H as (_ & _ & ->). done. Qed.
#[export] Instance kt_loadHead w : KeepsTasks (loadWorldHeadForMutationTx w).
Proof.
  intros env st r st' H.
  apply loadWorldHeadForMutationTx_ok in H as (_ & _ & c & r0 & _ & _ & [ [_ Hd]|(_ & _ & Hd)]); by rewrite Hd.
Qed.
#[export] Instance kt_consume_wake w : KeepsTasks (consume_wake w).
Proof.
  intros env st u st' H. unfold consume_wake in H. minv H.
  apply update_wake_one in Hr as (c & _ & _ & (_ & _ & _ & Hd)%put_wake_ok). by rewrite Hd.
Qed.
#[export] Instance kt_consume_all h b l : KeepsTasks (consume_all h b l).
Proof. induction l; apply _. Qed.
#[export] Instance kt_consumeWakes h r b : KeepsTasks (consumeWakesTx h r b).
Proof. apply _. Qed.
#[export] Instance kt_claim_each c l i : KeepsTasks (claim_each c l i).
Proof. revert i. induction l as [|x l IH]; intros [|i i']; cbn [claim_each]; apply _. Qed.

#[export] Hint Extern 8 (KeepsTasks (match _ with _ => _ end)) => case_match : typeclass_instances.

(** Equations on the task tables along a run. *)
Ltac kt_all :=
  repeat match goal with
  | H : ?m ?env ?s = (Ok _, ?s') |- _ =>
      lazymatch goal with
      | _ : db_tasks (st_db s') = db_tasks (st_db s) |- _ => fail
      | _ => let R := constr:(ltac:(typeclasses eauto) : KeepsTasks m) in
             let E := fresh "Etk" in pose proof (R _ _ _ _ H : db_tasks (st_db s') = db_tasks (st_db s)) as E
      end
  end; cbn [tick st_db] in *.

Lemma tasks_wf_ext db db' : db_tasks db' = db_tasks db -> tasks_wf db -> tasks_wf db'.
Proof. intros He H k c. rewrite He. apply H. Qed.
Lemma loaded_ext db db' t c : db_tasks db' = db_tasks db -> loaded db t c -> loaded db' t c.
Proof. intros He []. split; try done. by rewrite He. Qed.
Lemma tasks_evolve_ext db1 db2 db1' db2' :
  db_tasks db1' = db_tasks db1 -> db_tasks db2' = db_tasks db2 -> tasks_evolve db1 db2 -> tasks_evolve db1' db2'.
Proof.
  intros E1 E2 [W R]. split; [by eapply tasks_wf_ext|]. intros k c. rewrite E1, E2. apply R.
Qed.

(** A callback that evolves the table when it succeeds; a call that evolves it always. *)
Definition EvolvesOk {A} (m : M A) : Prop := forall env st a st',
  tasks_wf (st_db st) -> m env st = (Ok a, st') -> tasks_evolve (st_db st) (st_db st').
Definition Evolves {A} (m : M A) : Prop := forall env st o st',
  tasks_wf (st_db st) -> m env st = (o, st') -> tasks_evolve (st_db st) (st_db st').

Lemma evolves_tx {A} (cb : M A) : EvolvesOk cb -> Evolves (withImmediateTransaction cb).
Proof.
  intros Hcb env st [a|e] st' Hwf H.
  - apply tx_ok in H as (st1 & st2 & E1 & Hr & E2). rewrite E2, <- E1. eapply Hcb; [|done]. by rewrite E1.
  - apply tx_err in H. apply tasks_evolve_same; [done|by rewrite H].
Qed.
Lemma evolves_ro {A} (m : M A) `{ReadOnly A m} : Evolves m.
Proof. intros env st o st' Hwf Hr. apply tasks_evolve_same; [done|]. by rewrite (H _ _ _ _ Hr). Qed.
Lemma evolves_bind {A B} (m : M A) (f : A -> M B) :
  Evolves m -> (forall a, Evolves (f a)) -> Evolves (m ≫= f).
Proof.
  intros Hm Hf env st o st' Hwf H. unfold mbind, M_bind in H.
  destruct (m env st) as [[a|e] st1] eqn:Hr.
  - eapply tasks_evolve_trans; [by eapply Hm|]. eapply Hf; [|done]. by eapply (Hm env st).
  - simplify_eq. by eapply Hm.
Qed.
Lemma evolves_lift {A B} (x : outcome error A) (f : A -> M B) :
  (forall a, x = Ok a -> Evolves (f a)) -> Evolves (lift x ≫= f).
Proof.
  intros Hf env st o st' Hwf H. unfold mbind, M_bind, lift in H. destruct x as [a|e].
  - by eapply Hf.
  - simplify_eq. by apply tasks_evolve_same.
Qed.
Lemma evolvesOk_kt {A} (m : M A) `{KeepsTasks A m} : EvolvesOk m.
Proof. intros env st o st' Hwf Hr. apply tasks_evolve_same; [done|]. by rewrite (H _ _ _ _ Hr). Qed.

(** Peel the read-only prefix of a call. *)
Ltac evolves_prefix :=
  repeat first [ apply evolves_tx
               | apply evolves_bind; [apply evolves_ro; apply _|intros ?] ].

(** ** Merges *)

(** A record that differs from [r] in its lists and flags only. *)
Lemma evolves_lists r r' :
  same_identity r r' -> same_business r r' ->
  (taskStateTerminal (r_State r) = true -> r_Evidence r' = r_Evidence r) ->
  (forall e, e ∈ r_Evidence r -> e ∈ r_Evidence r') ->
  (forall o, o ∈ r_Operations r -> exists s, set_op_Status s o ∈ r_Operations r' /\ op_status_kept o s) ->
  (forall c, c ∈ r_Cleanup r -> cl_Status c <> CleanupStatusUnconfirmed -> c ∈ r_Cleanup r') ->
  evolves r r'.
Proof.
  intros Hi Hb Ht He Ho Hc. split; try done; [by rewrite (sb_revision _ _ Hb)|auto|].
  intros e Hin. exists (ev_Applied e). rewrite set_ev_Applied_id. auto.
Qed.

Lemma same_operations (l l' : list Operation) : (forall o, o ∈ l -> o ∈ l') -> forall o, o ∈ l ->
  exists s, set_op_Status s o ∈ l' /\ op_status_kept o s.
Proof.
  intros H o Ho. exists (op_Status o). rewrite set_op_Status_id. split; [auto|by left].
Qed.

Lemma canonical_set_evidence r l n :
  canonical r -> Forall (fun e => cloneEvidence e = Some e) l ->
  canonical (set_NeedsReconcile n (set_Evidence l r)).
Proof. intros [] Hl. by split. Qed.
Lemma canonical_set_operations r l :
  canonical r -> Forall (fun o => cloneOperation o = Some o) l -> canonical (set_Operations l r).
Proof. intros [] Hl. by split. Qed.

Lemma admitEvidenceTx_effect head e :
  cloneEvidence e = Some e -> EvolvesOk (admitEvidenceTx head e).
Proof.
  intros Hce env st b st' Hwf H. unfold admitEvidenceTx in H. minv H.
  apply loadWorldTaskByIDTx_ok in Hr as (E1 & _ & _ & c & Hl); [|done].
  match goal with H : graph_or _ _ _ _ = (Ok ?g, _) |- _ => apply graph_or_ok in H as [E2 _];
    destruct (g_facts g !! ev_FactID e) as [identity|] end.
  { minv H. apply tasks_evolve_same; [done|congruence]. }
  minv H.
  match goal with H : prepareNoRevisionMutation _ _ _ _ = _ |- _ =>
    apply prepareNoRevisionMutation_ok in H as (-> & -> & Hv & Hm) end.
  match goal with H : validateNewEvidence _ _ _ = Ok _ |- _ => rename H into Hne end.
  match goal with H : updateNoRevisionRecordTx _ _ _ _ = _ |- _ =>
    destruct (merge_effect _ _ c _ _ _ _ _ Hwf Hl (eq_trans E2 E1) H) as [He _]; try done end.
  - apply evolves_lists; try done; simpl.
    + intros Ht. unfold validateNewEvidence in Hne. okinv Hne. congruence.
    + intros f Hf. apply elem_of_app. by left.
    + by apply same_operations.
  - apply canonical_set_evidence; [by eapply loaded_canonical|]. apply Forall_app. split; [|by constructor].
    apply (loaded_canonical _ _ _ Hl).
Qed.

Lemma AdmitEvidence_effect binding e : Evolves (AdmitEvidence binding e).
Proof.
  unfold AdmitEvidence. do 2 (apply evolves_bind; [apply evolves_ro; apply _|intros ?]).
  apply evolves_lift. intros e' Hce%of_option_ok.
  assert (EvolvesOk (head ← loadWorldHeadForMutationTx (bd_World binding);
      _ ← lift (validateEvidenceAuthority head binding); admitEvidenceTx head e')) as Hcb.
  { intros env st b st' Hwf H. minv H. kt_all.
    eapply tasks_evolve_ext; [symmetry; eassumption|reflexivity|].
    eapply admitEvidenceTx_effect; [by eapply cloneEvidence_idem| |done]. by eapply tasks_wf_ext. }
  repeat (apply evolves_bind; [apply evolves_ro; apply _|intros ?]). by apply evolves_tx.
Qed.

Lemma RegisterOperation_effect exec operation : Evolves (RegisterOperation exec operation).
Proof.
  unfold RegisterOperation. do 3 (apply evolves_bind; [apply evolves_ro; apply _|intros ?]).
  apply evolves_lift. intros c Hce%of_option_ok.
  apply cloneOperation_idem in Hce. apply evolves_tx.
  intros env st b st' Hwf H. minv H. kt_all.
  match goal with H : loadIntentTaskTx _ _ _ _ = _ |- _ =>
    apply loadIntentTaskTx_ok in H as (E1 & _ & row & Hl); [|by eapply tasks_wf_ext] end.
  match goal with H : graph_or _ _ _ _ = (Ok ?g, _) |- _ => apply graph_or_ok in H as [E2 _];
    destruct (g_operations g !! op_ID c) as [identity|] end.
  { minv H. apply tasks_evolve_same; [done|congruence]. }
  minv H.
  match goal with H : prepareNoRevisionMutation _ _ _ _ = _ |- _ =>
    apply prepareNoRevisionMutation_ok in H as (-> & -> & Hv & Hm) end.
  match goal with H : updateNoRevisionRecordTx _ _ _ _ = _, E : db_tasks (st_db _) = db_tasks (st_db st) |- _ =>
    edestruct (merge_effect _ _ row _ _ _ _ _ (tasks_wf_ext _ _ E Hwf) Hl (eq_trans E2 E1) H) as [He _]; try done;
    [..|by eapply tasks_evolve_ext; [symmetry; exact E|reflexivity|]] end.
  - apply evolves_lists; try done; simpl.
    apply same_operations. intros o Ho. apply elem_of_app. by left.
  - apply canonical_set_operations; [by eapply loaded_canonical|]. apply Forall_app. split; [|by constructor].
    apply (loaded_canonical _ _ _ Hl).
Qed.

Lemma mark_not_sent_elem id l o : o ∈ l -> (forall o', find (fun o => bool_decide (op_ID o = id)) l = Some o' ->
    op_Status o' = OperationStatusRegistered) ->
  exists s, set_op_Status s o ∈ mark_not_sent id l /\ op_status_kept o s.
Proof.
  intros Ho Hreg. unfold mark_not_sent. destruct (list_find _ l) as [[i x]|] eqn:Hf; cycle 1.
  { by apply (same_operations l l). }
  apply list_find_Some in Hf as (Hi & Hx & Hmin).
  assert (find (fun o => bool_decide (op_ID o = id)) l = Some x) as Hfind.
  { clear -Hi Hx Hmin. revert i Hi Hmin. induction l as [|y l IH]; intros i Hi Hmin; [done|]. simpl.
    case_bool_decide as Hy.
    - destruct i as [|i]; simpl in Hi; [congruence|]. exfalso. by apply (Hmin 0 y eq_refl ltac:(lia)).
    - destruct i as [|i]; simpl in Hi; [congruence|]. apply (IH i); [done|].
      intros j z Hj Hlt. apply (Hmin (S j) z); [done|lia]. }
  apply list_elem_of_lookup in Ho as [j Hj]. destruct (decide (j = i)) as [->|Hne].
  - assert (o = x) as -> by congruence. exists OperationStatusNotSent. split; [|right; auto].
    apply list_elem_of_lookup. exists i. apply list_lookup_insert_eq. by eapply lookup_lt_Some.
  - exists (op_Status o). rewrite set_op_Status_id. split; [|by left].
    apply list_elem_of_lookup. exists j. by rewrite list_lookup_insert_ne.
Qed.

Lemma mark_not_sent_canonical id l :
  Forall (fun o => cloneOperation o = Some o) l -> Forall (fun o => cloneOperation o = Some o) (mark_not_sent id l).
Proof.
  intros Hl. unfold mark_not_sent. destruct (list_find _ l) as [[i x]|] eqn:Hf; [|done].
  apply list_find_Some in Hf as (Hi & _). apply Forall_insert; [done|].
  rewrite Forall_lookup in Hl. specialize (Hl _ _ Hi). clear -Hl.
  unfold cloneOperation in *. opt_inv Hl. destruct x; simpl in *. rewrite Hx. simpl. by simplify_eq.
Qed.

Lemma MarkOperationNotSent_effect b o t i a : Evolves (MarkOperationNotSent b o t i a).
Proof.
  unfold MarkOperationNotSent. evolves_prefix. intros env st u st' Hwf H. minv H. kt_all.
  match goal with H : loadIntentTaskTx _ _ _ _ = (Ok ?t, _) |- _ =>
    apply loadIntentTaskTx_ok in H as (E1 & _ & row & Hl); [|by eapply tasks_wf_ext];
    destruct (findRecordOperation (st_record t) i) as [op|] eqn:Hop end.
  all: try (exfalso; by apply fail_ok in H).
  minv H. { apply tasks_evolve_same; [done|congruence]. }
  match goal with H : prepareNoRevisionMutation _ _ _ _ = _ |- _ =>
    apply prepareNoRevisionMutation_ok in H as (-> & -> & Hv & Hm) end.
  match goal with E : db_tasks (st_db _) = db_tasks (st_db st) |- _ =>
    edestruct (merge_effect _ _ row _ _ _ _ _ (tasks_wf_ext _ _ E Hwf) Hl E1 H) as [He _]; try done;
    [..|by eapply tasks_evolve_ext; [symmetry; exact E|reflexivity|]] end.
  - apply evolves_lists; try done; simpl. intros o' Ho'. apply mark_not_sent_elem; [done|].
    intros x Hx. unfold findRecordOperation in Hop. rewrite Hx in Hop. simplify_eq. by boolp.
  - apply canonical_set_operations; [by eapply loaded_canonical|]. apply mark_not_sent_canonical.
    apply (loaded_canonical _ _ _ Hl).
Qed.

Lemma merge_cleanup_elem c l l' x :
  merge_cleanup c l = Ok (Some l') -> x ∈ l -> cl_Status x <> CleanupStatusUnconfirmed -> x ∈ l'.
Proof.
  revert l'. induction l as [|y l IH]; intros l' H Hx Hs; [by apply not_elem_of_nil in Hx|].
  cbn [merge_cleanup] in H. destruct (cl_OperationID y != cl_OperationID c).
  - okinv H. destruct v as [t|]; cbn in H; [|done]. injection H as <-.
    apply elem_of_cons in Hx as [->|Hx]; [by left|right; eauto].
  - destruct (cleanupsEqual y c); [done|]. destruct (_ || _) eqn:Hst; [done|]. injection H as <-.
    apply elem_of_cons in Hx as [->|Hx]; [|by right]. boolp. tauto.
Qed.

Lemma RecordCleanup_effect b t c : Evolves (RecordCleanup b t c).
Proof.
  unfold RecordCleanup. evolves_prefix. intros env st u st' Hwf H. minv H. kt_all.
  match goal with H : loadWorldTaskByIDTx _ _ _ _ = _ |- _ =>
    apply loadWorldTaskByIDTx_ok in H as (E1 & _ & _ & row & Hl); [|by eapply tasks_wf_ext] end.
  match goal with H : graph_or _ _ _ _ = (Ok ?g, _) |- _ => apply graph_or_ok in H as [E2 _] end.
  match goal with H : merge_cleanup _ _ = Ok ?m |- _ => destruct m as [l|]; rename H into Hmerge end; cycle 1.
  { minv H. apply tasks_evolve_same; [done|congruence]. }
  minv H.
  match goal with H : prepareCleanupMutation _ _ _ _ = _ |- _ =>
    apply prepareCleanupMutation_ok in H as (-> & -> & Hv & Hm) end.
  match goal with E : db_tasks (st_db _) = db_tasks (st_db st) |- _ =>
    edestruct (merge_effect _ _ row _ _ _ _ _ (tasks_wf_ext _ _ E Hwf) Hl (eq_trans E2 E1) H) as [He _]; try done;
    [..|by eapply tasks_evolve_ext; [symmetry; exact E|reflexivity|]] end.
  - apply evolves_lists; try done; simpl.
    + by apply same_operations.
    + intros x Hx Hs. by eapply merge_cleanup_elem.
  - destruct (loaded_canonical _ _ _ Hl). by split.
Qed.

(** ** Revisions *)

(** A record one revision on: nothing but identity and lists is constrained. *)
Lemma evolves_advance r r' :
  same_identity r r' -> r_Revision r' = (r_Revision r + 1)%N -> taskStateTerminal (r_State r) = false ->
  (exists b, r_Evidence r' = r_Evidence r \/ (b = true /\ r_Evidence r' = set_ev_Applied true <$> r_Evidence r)) ->
  r_Operations r' = r_Operations r -> r_Cleanup r' = r_Cleanup r ->
  evolves r r'.
Proof.
  intros Hi Hrev Ht (b & He) Ho Hc. split; try done; [lia|intros; lia|congruence| | |by rewrite Hc].
  - intros e Hin. destruct He as [He|[_ He]]; rewrite He.
    + exists (ev_Applied e). by rewrite set_ev_Applied_id.
    + exists true. split; [by apply list_elem_of_fmap_2|done].
  - rewrite Ho. by apply same_operations.
Qed.

(** [SET state, revision, next_wake_at, record_json] on a loaded task. *)
Lemma state_effect db t c set guard prepared env st u st' `{KeepsKey set} :
  tasks_wf db -> loaded db t c -> st_db st = db ->
  update_row (st_record t) guard set env st = (Ok u, st') ->
  co_state (set c) = r_State prepared -> co_revision (set c) = to_i64 (r_Revision prepared) ->
  co_nextWakeAt (set c) = r_NextWakeAt prepared -> co_clockID (set c) = co_clockID c ->
  co_recordJSON (set c) = prepared ->
  (co_createEventID (set c), co_createTurnID (set c), co_createCallID (set c), co_createFingerprint (set c),
     co_equivalenceKey (set c), co_createResponseJSON (set c), co_createResponseHash (set c))
    = (co_createEventID c, co_createTurnID c, co_createCallID c, co_createFingerprint c,
       co_equivalenceKey c, co_createResponseJSON c, co_createResponseHash c) ->
  co_intentHistoryJSON (set c) = co_intentHistoryJSON c -> co_intentHistoryHash (set c) = co_intentHistoryHash c ->
  evolves (st_record t) prepared ->
  canonical prepared -> Record_Validate prepared = Ok tt -> is_Some (marshalRecord prepared) ->
  tasks_evolve db (st_db st') /\ guard c = true
  /\ st_db st' = with_tasks (<[row_key (st_record t) := set c]> (db_tasks db)) db.
Proof.
  intros Hwf Hl Hdb Hup E1 E2 E3 E4 E5 E6 E7 E8 Hev Hc Hv Hm.
  eapply (update_loaded _ t c _ _ _ _ _ _ Hwf Hl Hdb Hup); rewrite ?E5; try done.
  split; rewrite ?E5; congruence.
Qed.

Lemma canonical_business r s n next p pr nr np ra res :
  canonical r -> clone_raw pr = Some pr -> (forall x, res = Some x -> cloneResultJSON x = Some x) ->
  canonical (mkRecord (r_ID r) (r_Owner r) (r_Spec r) s n (r_CreatedAtGameTick r) (r_CreatedAtUnixMS r) next
    pr nr p np ra (r_Operations r) (r_Evidence r) res (r_Cleanup r)).
Proof. intros [] Hp Hres. by split. Qed.

Lemma BeginWake_effect binding wakeID claimID : Evolves (BeginWake binding wakeID claimID).
Proof.
  unfold BeginWake. do 2 (apply evolves_bind; [apply evolves_ro; apply _|intros ?]).
  apply evolves_bind; [|intros [exec rec]; apply evolves_ro; apply _]. apply evolves_tx.
  intros env st [x y] st' Hwf H. unfold wake_world in H. minv H. kt_all.
  match goal with H : findStrictWorldWakeTx _ _ _ _ = (Ok ?d, _) |- _ =>
    apply findStrictWorldWakeTx_ok in H as (E1 & Hrel & Hkey & (row & Hl) & wrow & Hw & Hscan);
    [|by eapply tasks_wf_ext] end.
  match goal with H : prepareBeginMutation _ _ _ = _ |- _ =>
    apply prepareBeginMutation_ok in H as (Hrev & -> & -> & Hv & Hm) end.
  match goal with H : updateBeginRecordTx _ _ _ _ = _ |- _ => rename H into Hup end.
  unfold updateBeginRecordTx, marshal_before in Hup. minv Hup.
  match goal with H : update_row (st_record (dw_record ?d)) _ _ _ _ = _ |- _ =>
    assert (w_Status (dw_wake d) = wakeStatusEnqueued) as Hst by (boolp; tauto);
    assert (r_State (st_record (dw_record d)) = StateWaiting) as Hs end.
  { unfold validateDurableWakeRelation in Hrel. okinv Hrel. rewrite Hst in Hrel. okinv Hrel.
    unfold wake_waits_for in Hrel. boolp. tauto. }
  match goal with H : update_row (st_record (dw_record ?d)) _ (set_row_state None ?p) _ _ = _,
      E : db_tasks (st_db _) = db_tasks (st_db st) |- _ =>
    edestruct (state_effect _ (dw_record d) row _ _ p _ _ _ _ (tasks_wf_ext _ _ E Hwf) Hl E1 H) as (He & _ & _);
      try done; [..|by eapply tasks_evolve_ext; [symmetry; exact E| |exact He]; congruence] end.
  - apply evolves_advance; try done; [by simpl; rewrite Hs|by exists false; left].
  - destruct (loaded_canonical _ _ _ Hl). by split.
Qed.
