(* ===== verification/RunEffects.v ===== *)
(** * Operations that advance a task, and the ones that create it

    [FinishAttempt], [Reconcile], [ApplyIntent] and [Create]: each moves a task one
    revision on, or adds a row, and leaves a table whose rows all decode. *)

From S2P Require Export OpEffects.

Local Open Scope go_scope.

#[local] Opaque Record_Validate sha256Hex marshalRecord marshalTaskSpec marshalCreateResult
  marshalHistory cloneRecord modelProgressJSON validateTaskMutationCapacity.

Lemma marshalHistory_nil : marshalHistory [] = Some "[]".
Proof. vm_compute. reflexivity. Qed.

(** ** Attempts *)
Lemma applyAttemptOutcome_shape r o r' pause :
  applyAttemptOutcome r o = Ok (r', pause) ->
  (r_Revision r < MaxInt64N)%N /\ Record_Validate r' = Ok tt /\ same_identity r r'
  /\ r_Revision r' = (r_Revision r + 1)%N /\ r_State r' = (if pause then StatePaused else r_State r)
  /\ (r_NextWakeAt r', r_Progress r', r_Operations r', r_Evidence r', r_Result r', r_Cleanup r')
     = (r_NextWakeAt r, r_Progress r, r_Operations r, r_Evidence r, r_Result r, r_Cleanup r).
Proof.
  unfold applyAttemptOutcome. intros H.
  apply bind_ok in H as (n & [Hn ->]%NextDurableCounter_ok & H). apply fail_if_bind in H as [_ H].
  apply bind_ok in H as ([u p] & Hu & H). apply bind_ok in H as (v & Hv & H). destruct v. simplify_eq.
  split; [done|]. split; [done|]. clear Hv. unfold attempt_update, strike in Hu.
  destruct (ao_Kind o); repeat (case_match; try discriminate Hu); simplify_eq; simpl; split_and!; done.
Qed.

Lemma canonical_kept r r' :
  canonical r -> same_identity r r' ->
  (r_Progress r', r_Operations r', r_Evidence r', r_Result r')
    = (r_Progress r, r_Operations r, r_Evidence r, r_Result r) -> canonical r'.
Proof.
  intros [] Hid Heq. injection Heq as E1 E2 E3 E4.
  split; rewrite ?(si_owner _ _ Hid), ?(si_spec _ _ Hid), ?E1, ?E2, ?E3, ?E4; done.
Qed.

(** Writing the record an attempt left. *)
Lemma attempt_row_effect db t row r' env st u st' :
  tasks_wf db -> loaded db t row -> st_db st = db ->
  updateAttemptRecordTx (st_record t) r' env st = (Ok u, st') ->
  taskStateTerminal (r_State (st_record t)) = false -> same_identity (st_record t) r' ->
  r_Revision r' = (r_Revision (st_record t) + 1)%N ->
  (r_Progress r', r_Operations r', r_Evidence r', r_Result r', r_Cleanup r')
    = (r_Progress (st_record t), r_Operations (st_record t), r_Evidence (st_record t), r_Result (st_record t),
       r_Cleanup (st_record t)) ->
  Record_Validate r' = Ok tt -> is_Some (marshalRecord r') ->
  tasks_evolve db (st_db st')
  /\ st_db st' = with_tasks (<[row_key (st_record t) := set_row_state (r_NextWakeAt r') r' row]> (db_tasks db)) db.
Proof.
  intros Hwf Hl Hdb Hup Ht Hid Hrev Heq Hv Hm. injection Heq as E1 E2 E3 E4 E5.
  unfold updateAttemptRecordTx, marshal_before in Hup. minv Hup.
  edestruct (state_effect _ t row _ _ r' _ _ _ _ Hwf Hl eq_refl Hup) as (He & _ & Hdb'); try done.
  - apply evolves_advance; try done. exists false. by left.
  - eapply canonical_kept; [by eapply loaded_canonical|done|congruence].
Qed.

Lemma FinishAttempt_effect exec o : Evolves (FinishAttempt exec o).
Proof.
  unfold FinishAttempt. do 2 (apply evolves_bind; [apply evolves_ro; apply _|intros ?]).
  apply evolves_bind; [|intros ?; apply evolves_ro; apply _]. apply evolves_tx.
  intros env st x st' Hwf H. unfold finish_attempt_tx in H. minv H. all: kt_all.
  all: match goal with H : findStrictWorldWakeTx _ _ _ _ = (Ok ?d, _) |- _ =>
    apply findStrictWorldWakeTx_ok in H as (E1 & _ & _ & (row & Hl) & _); [|by eapply tasks_wf_ext] end.
  all: match goal with H : prepareReconcileMutation _ _ _ _ = _ |- _ =>
    apply prepareReconcileMutation_ok in H as (-> & -> & Hv & Hm) end.
  all: match goal with H : requireAttemptWakeTopologyTx _ _ _ _ = _ |- _ => apply read_only in H as E2 end.
  all: match goal with H : applyAttemptOutcome _ _ = Ok _ |- _ =>
    apply applyAttemptOutcome_shape in H as (Hrev & _ & Hid & Hnext & Hs & Hk) end.
  all: match goal with H : attempt_admissible _ _ _ = Ok _ |- _ => unfold attempt_admissible in H; okinv H end.
  all: injection Hk as K1 K2 K3 K4 K5 K6.
  all: match goal with W : tasks_wf (st_db ?s0), E : db_tasks (st_db _) = db_tasks (st_db ?s0), L : loaded _ _ _,
      F1 : st_db ?s2 = st_db _, F2 : _ = st_db ?s1, H : updateAttemptRecordTx _ _ _ _ = _ |- _ => 
    assert (st_db s2 = st_db s1) as E3 by congruence;
    destruct (attempt_row_effect _ _ _ _ _ _ _ _ (tasks_wf_ext _ _ E W) L E3 H) as [He _];
      [done..|congruence|done|done|]; eapply tasks_evolve_ext; [symmetry; exact E| |exact He]; congruence end.
Qed.

(** ** Reconciliation *)
Lemma cloneEvidence_fixed e : cloneEvidence e = Some e ->
  clone_raw (ev_Details e) = Some (ev_Details e) /\ cloneSourceRef (ev_Source e) = Some (ev_Source e).
Proof. destruct e. unfold cloneEvidence. simpl. intros H. opt_inv H. by simplify_eq. Qed.

Lemma canonical_applied l : Forall (fun e => cloneEvidence e = Some e) l ->
  Forall (fun e => cloneEvidence e = Some e) (set_ev_Applied true <$> l).
Proof.
  intros Hl. rewrite Forall_fmap. eapply Forall_impl; [exact Hl|]. intros e [H1 H2]%cloneEvidence_fixed.
  unfold cloneEvidence. simpl. by rewrite H1, H2.
Qed.

Lemma reconciledRecord_canonical r resultID r' :
  canonical r -> reconciledRecord r (pendingEvidence r) resultID = Ok r' -> canonical r'.
Proof.
  intros [] (_ & s & next & p & res & -> & H)%reconciledRecord_shape.
  assert (forall e, e ∈ pendingEvidence r -> cloneEvidence e = Some e) as Hp.
  { intros e [He _]%pendingEvidence_elem. rewrite Forall_forall in cn_evidence. auto. }
  split; simpl; try done; [|by apply canonical_applied|].
  - destruct (selectTerminalEvidence _); [by destruct H as (_ & _ & -> & _)|].
    destruct H as (_ & _ & ->). destruct (selectProgressEvidence _) as [e|] eqn:He; [|done].
    apply selectProgressEvidence_some in He as [He _]. by apply cloneEvidence_fixed, Hp.
  - intros x ->. destruct (selectTerminalEvidence _) as [e|] eqn:He; [|by destruct H].
    apply selectTerminalEvidence_some in He as [He _]. destruct H as (_ & _ & _ & [= ->]).
    unfold cloneResultJSON. simpl. destruct (cloneEvidence_fixed _ (Hp _ He)) as [_ Hs]. by rewrite Hs.
Qed.

Lemma reconciledRecord_evolves r pending resultID r' :
  taskStateTerminal (r_State r) = false -> reconciledRecord r pending resultID = Ok r' -> evolves r r'.
Proof.
  intros Ht (_ & s & next & p & res & -> & H)%reconciledRecord_shape.
  apply evolves_advance; try done. exists true. by right.
Qed.

(** Writing the reconciled record. *)
Lemma reconcile_row_effect db t row resultID r' env st u st' :
  tasks_wf db -> loaded db t row -> st_db st = db ->
  updateReconcileRecordTx (st_record t) r' env st = (Ok u, st') ->
  taskStateTerminal (r_State (st_record t)) = false ->
  reconciledRecord (st_record t) (pendingEvidence (st_record t)) resultID = Ok r' ->
  Record_Validate r' = Ok tt -> is_Some (marshalRecord r') ->
  tasks_evolve db (st_db st')
  /\ st_db st' = with_tasks (<[row_key (st_record t) :=
       set_row_clock (sp_ClockID (r_Spec r')) (set_row_state (r_NextWakeAt r') r' row)]> (db_tasks db)) db.
Proof.
  intros Hwf Hl Hdb Hup Ht Hrec Hv Hm. unfold updateReconcileRecordTx, marshal_before in Hup. minv Hup.
  pose proof (reconciledRecord_evolves _ _ _ _ Ht Hrec) as Hev.
  destruct (loaded_columns _ _ _ Hl) as (_ & _ & _ & Hck).
  edestruct (state_effect _ t row _ _ r' _ _ _ _ Hwf Hl eq_refl Hup) as (He & _ & Hdb'); try done.
  - simpl. rewrite Hck. by rewrite (si_spec _ _ (ev_identity _ _ Hev)).
  - eapply reconciledRecord_canonical; [by eapply loaded_canonical|done].
Qed.

Lemma reconcile_tx_effect exec resultID wakeID : EvolvesOk (reconcile_tx exec resultID wakeID).
Proof.
  intros env st x st' Hwf H. unfold reconcile_tx in H. minv H. all: kt_all.
  { apply tasks_evolve_same; [done|congruence]. }
  match goal with H : loadIntentTaskTx _ _ _ _ = (Ok ?t, _) |- _ =>
    apply loadIntentTaskTx_ok in H as (E1 & _ & row & Hl); [|by eapply tasks_wf_ext] end.
  match goal with H : graph_or _ _ _ _ = (Ok ?g, _) |- _ => apply graph_or_ok in H as [E2 _] end.
  match goal with H : prepareReconcileMutation _ _ _ _ = _ |- _ =>
    apply prepareReconcileMutation_ok in H as (-> & -> & Hv & Hm) end.
  match goal with H : updateReconcileRecordTx _ _ _ _ = _, E : db_tasks (st_db _) = db_tasks (st_db st) |- _ =>
    edestruct (reconcile_row_effect _ _ _ resultID _ _ _ _ _ (tasks_wf_ext _ _ E Hwf) Hl (eq_trans E2 E1) H) as [He _];
      [eassumption..|]; eapply tasks_evolve_ext; [symmetry; exact E| |exact He]; congruence end.
Qed.

Lemma Reconcile_effect exec : Evolves (Reconcile exec).
Proof. unfold Reconcile. evolves_prefix. apply reconcile_tx_effect. Qed.

(** ** Creation *)
Lemma insert_task_ok c env st u st' :
  insert_task c env st = (Ok u, st') ->
  db_tasks (st_db st) !! task_key c = None /\ task_checks c = true
  /\ no_other (task_key c) (task_conflict c) (db_tasks (st_db st)) = true
  /\ st_db st' = with_tasks (<[task_key c := c]> (db_tasks (st_db st))) (st_db st).
Proof.
  unfold insert_task. intros H%exec_ok. okinv H. boolp. apply eq_None_not_Some in Hg.
  apply put_task_ok in Hv as (H1 & H2 & H3). done.
Qed.

Lemma insertTaskAndWakeTx_ok p env st u st' :
  insertTaskAndWakeTx p env st = (Ok u, st') ->
  let c := create_columns p in
  let w := wake_row (sp_ClockID (r_Spec (pc_record p))) (pc_wake p) in
  (world_task_count (owner_world (r_Owner (pc_record p))) (st_db st) < MaxTasksPerWorld (e_options env))%Z
  /\ db_tasks (st_db st) !! task_key c = None
  /\ no_other (task_key c) (task_conflict c) (db_tasks (st_db st)) = true
  /\ db_wakes (st_db st) !! w_ID (pc_wake p) = None
  /\ no_other (w_ID (pc_wake p)) (wake_conflict w) (db_wakes (st_db st)) = true
  /\ st_db st' = with_wakes (<[w_ID (pc_wake p) := w]> (db_wakes (st_db st)))
                   (with_tasks (<[task_key c := c]> (db_tasks (st_db st))) (st_db st)).
Proof.
  unfold insertTaskAndWakeTx. intros H. minv H. boolp.
  match goal with H : insert_task _ _ _ = _ |- _ => apply insert_task_ok in H as (H1 & _ & H2 & H3) end.
  apply insert_wake_ok in H as (H4 & _ & H5 & _ & H6). cbn [tick st_db] in *.
  rewrite H3 in H4, H5, H6. split_and!; done.
Qed.

Lemma new_record_canonical id exec spec spec' now :
  cloneTaskSpec spec = Some spec' -> validateOwner (ex_Owner exec) = Ok tt -> canonical (new_record id exec spec' now).
Proof. intros Hs%cloneTaskSpec_idem Ho. by split; [..|simpl; constructor|simpl; constructor|]. Qed.

Lemma prepare_create_ok limit r w p created :
  prepare_create limit r w = Ok (p, created) ->
  pc_record p = r /\ pc_wake p = w /\ validateTaskWakePair r w = Ok tt
  /\ taskSpecFingerprint (r_Spec r) = Some (pc_fingerprint p)
  /\ marshalCreateResult (initialCreateResult r) = Some (pc_createResponseJSON p)
  /\ is_Some (marshalRecord r) /\ cr_Created created = true
  /\ cloneRecord (cr_Task (initialCreateResult r)) = Some (cr_Task created).
Proof.
  unfold prepare_create, prepareTaskCreate. intros H. okinv H. destruct v0. simpl.
  split_and!; try done; eauto.
Qed.

Lemma created_row_wf id exec spec spec' now limit w p created :
  cloneTaskSpec spec = Some spec' -> validateOwner (ex_Owner exec) = Ok tt ->
  prepare_create limit (new_record id exec spec' now) w = Ok (p, created) ->
  row_wf (task_key (create_columns p)) (create_columns p).
Proof.
  intros Hs Ho (Hr & Hw & Hpair & Hfp & Hcr & Hm & _)%prepare_create_ok.
  pose proof (new_record_canonical id exec spec spec' now Hs Ho) as Hcan. rewrite <- Hr in *.
  assert (Record_Validate (pc_record p) = Ok tt) as Hv.
  { unfold validateTaskWakePair in Hpair. apply bind_ok in Hpair as ([] & Hv & _). done. }
  split; [done|done|constructor|].
  apply (decode_intro _ (pc_fingerprint p) (initialCreateResult (pc_record p))); [done| |done|done|by rewrite <- Hfp| | |].
  - simpl. by rewrite Hr.
  - apply columns_agree_true. simpl. rewrite Hr. done.
  - unfold decodeCreateResponse.
    cbn [create_columns co_createResponseJSON co_createResponseHash co_createFingerprint co_recordJSON].
    assert (cr_Task (initialCreateResult (pc_record p)) = pc_record p) as -> by (by rewrite Hr).
    rewrite Hcr, Hv, Hfp, (proj2 (json_texts_equal_refl _)), !bool_decide_true by eauto. done.
  - unfold decodeIntentHistory. cbn [create_columns co_intentHistoryJSON co_intentHistoryHash co_recordJSON].
    rewrite marshalHistory_nil. cbn [mbind outcome_bind of_option mapM_opt]. rewrite bool_decide_true by done. 
    rewrite marshalHistory_nil. done.
Qed.

Lemma Create_effect exec spec admission : Evolves (Create exec spec admission).
Proof.
  unfold Create. do 1 (apply evolves_bind; [apply evolves_ro; apply _|intros ?]).
  apply evolves_lift. intros [] Hin. apply evolves_lift. intros spec' Hs%of_option_ok.
  evolves_prefix.
  intros env st x st' Hwf H. unfold create_tx in H. minv H. kt_all.
  destruct a7 as [result|]. { minv H. apply tasks_evolve_same; [done|congruence]. }
  minv H. kt_all.
  match goal with H : match ?e with Some _ => _ | None => _ end _ _ = _ |- _ => destruct e end.
  { minv H. apply tasks_evolve_same; [done|congruence]. }
  minv H. kt_all.
  match goal with H : insertTaskAndWakeTx _ _ _ = _ |- _ => apply insertTaskAndWakeTx_ok in H as (_ & Hn & _ & _ & _ & Hdb) end.
  match goal with H : prepare_create _ _ _ = Ok (?p, _) |- _ =>
    eapply (tasks_evolve_new _ _ (task_key (create_columns p)) (create_columns p)); [done|congruence| |] end.
  - eapply created_row_wf; [exact Hs| |done]. unfold validateCreateInput, ExecutionContext_Validate in Hin. okinv Hin. 
    by eapply unit_ok.
  - rewrite Hdb. simpl. congruence.
Qed.
