(* ===== verification/IntentEffects.v ===== *)
(** * Intents keep the idempotency history decodable

    [ApplyIntent] writes a row twice, the record and then the history that answers
    a repeated call; the call it stores validates against the record it stored. *)

From S2P Require Export RunEffects.

Local Open Scope go_scope.

#[local] Opaque Record_Validate sha256Hex marshalRecord marshalTaskSpec marshalCreateResult
  marshalHistory cloneRecord modelProgressJSON validateTaskMutationCapacity.

Lemma result_id_prefix nano counter : String.prefix result_prefix (idgen_New "result" nano counter) = true.
Proof. unfold idgen_New. simpl. by destruct (FormatInt nano +:+ "_" +:+ FormatUint counter). Qed.

(** ** The record an intent leaves *)
Record intent_applied (q : intentRequest) (r r' : TaskRecord) : Prop := {
  ia_identity : same_identity r r';
  ia_bound : (r_Revision r < MaxInt64N)%N;
  ia_revision : r_Revision r' = (r_Revision r + 1)%N;
  ia_lists : (r_Operations r', r_Evidence r', r_Cleanup r') = (r_Operations r, r_Evidence r, r_Cleanup r);
  ia_settled : (r_NeedsReconcile r', r_PauseReason r', r_NoProgressAttempts r', r_ReconcileAttempts r')
               = (false, "", 0%Z, 0%Z);
  ia_effect : intent_effect_related q r' r' = true;
  ia_progress : r_Progress r' = r_Progress r \/ r_Progress r' = modelProgressJSON (in_ProgressNote (iq_Intent q));
  ia_result : forall x, r_Result r' = Some x -> rs_Source x = iq_Source q
}.

Lemma intent_record_applied exec q resultID r r' :
  String.prefix result_prefix resultID = true -> SourceRef_Validate (iq_Source q) = Ok tt ->
  intent_record exec q resultID r = Ok r' -> intent_applied q r r'.
Proof.
  intros Hp Hs H. unfold intent_record in H. okinv H. apply NextDurableCounter_ok in Hv as [Hn ->].
  destruct (in_Kind (iq_Intent q)) eqn:Hk; [| |done].
  - destruct (in_NextWakeAt (iq_Intent q)) as [next|] eqn:Hnext; [|done]. okinv H. 
    destruct (decide (in_ProgressNote (iq_Intent q) = "")) as [He|He]; simplify_eq;
      rewrite ?(bool_decide_true _ He), ?(bool_decide_false _ He); cbn [negb]; split; simpl; try done; try tauto.
    all: unfold intent_effect_related; rewrite Hk, Hnext; simpl; rewrite ?(bool_decide_true _ He), ?(bool_decide_false _ He);
      rewrite !bool_decide_true by done; done.
  - simplify_eq. split; simpl; [by split|done..| |by left|by intros x [= <-]].
    unfold intent_effect_related. rewrite Hk. simpl.
    rewrite Hp, N.eqb_refl, sourceRefsEqual_refl, !bool_decide_true by done. done.
Qed.

(** ** The call it stores *)
Lemma validateIntentCall_new q r r' (text response : string) :
  intent_applied q r r' -> iq_TaskID q = r_ID r -> iq_ExpectedRevision q = r_Revision r ->
  is_Some (taskSpecFingerprint (r_Spec r')) ->
  cloneIntentRequest q = Some q -> intentRequest_validate q = Ok tt -> marshalIntentRequest q = Some text ->
  canonical r' -> Record_Validate r' = Ok tt -> marshalRecord r' = Some response ->
  validateIntentCall {| ic_Request := q; ic_RequestHash := sha256Hex text; ic_Response := r';
                        ic_ResponseHash := sha256Hex response |} r' = Ok (q, r').
Proof.
  intros [Hid Hb Hrev Hl Hset Heff Hp Hx] Ht He Hfp Hcq Hvq Hmq Hc Hv Hm.
  injection Hset as S1 S2 S3 S4.
  unfold validateIntentCall. cbn [ic_Request ic_RequestHash ic_Response ic_ResponseHash].
  rewrite Hmq, Hm, Hcq, (proj2 (cloneRecord_canonical _) Hc). cbn [of_option mbind outcome_bind].
  rewrite !bool_decide_true, Hvq, Hv by done. cbn [negb orb fail_if or_err mbind outcome_bind].
  rewrite Hmq, Hm, !(proj2 (json_texts_equal_refl _)) by eauto. cbn [negb fail_if mbind outcome_bind].
  assert (intent_response_related q r' r' = true) as ->.
  { unfold intent_response_related, taskSpecsEqual. rewrite Ht, He, S1, S2, S3, S4, (si_id _ _ Hid), Hrev.
    rewrite wrap_u64_id, !Z.eqb_refl, N.eqb_refl, N.leb_refl, !bool_decide_true by (done || (unfold MaxInt64N in *; lia)).
    rewrite (proj2 (json_texts_equal_refl _)), (proj2 (N.ltb_lt _ _)); [done|lia|].
    destruct Hfp as [fp Hfp]. unfold taskSpecFingerprint in Hfp. by destruct (marshalTaskSpec _). }
  cbn [negb fail_if mbind outcome_bind].
  rewrite andb_false_r. cbn [fail_if mbind outcome_bind]. by rewrite Heff.
Qed.

(** ** A call no history of the owner knows *)
Lemma match_history_found r target h seen found seen' found' :
  match_history r target h seen found = Ok (seen', found') -> is_Some found -> is_Some found'.
Proof.
  revert seen found. induction h as [|c h IH]; intros seen found H Hs; cbn [match_history] in H; [by simplify_eq|].
  okinv H. destruct v as [q p]. okinv H. eapply IH; [exact H|]. by case_bool_decide.
Qed.

Lemma match_history_none r target h seen found seen' :
  match_history r target h seen found = Ok (seen', None) ->
  found = None /\ forall c q p, c ∈ h -> validateIntentCall c r = Ok (q, p) -> intentExactKey (iq_Source q) <> target.
Proof.
  revert seen found. induction h as [|c h IH]; intros seen found H; cbn [match_history] in H.
  { simplify_eq. split; [done|]. intros c q p Hc. by apply not_elem_of_nil in Hc. }
  okinv H. destruct v as [q p]. okinv H. apply IH in H as [Hf H].
  case_bool_decide as Hk; [done|]. split; [done|].
  intros c' q' p' [->|Hc']%elem_of_cons Hv'; [congruence|eauto].
Qed.

Lemma match_rows_none target rows seen found :
  match_rows target rows seen found = Ok None ->
  found = None /\ forall c d call q p, c ∈ rows -> decodeTaskRowColumns c = Ok d -> call ∈ dt_history d ->
    validateIntentCall call (dt_record d) = Ok (q, p) -> intentExactKey (iq_Source q) <> target.
Proof.
  revert seen found. induction rows as [|c rows IH]; intros seen found H; cbn [match_rows] in H.
  { simplify_eq. split; [done|]. intros c ???? Hc. by apply not_elem_of_nil in Hc. }
  okinv H. destruct v0 as [seen' found']. apply IH in H as [-> H].
  apply match_history_none in Hv0 as [Hf Hh]. split; [by case_bool_decide|].
  intros c' d' call q p [->|Hc']%elem_of_cons Hd; [|by eapply H].
  assert (d' = v) as -> by congruence. apply Hh.
Qed.

Lemma check_history_snoc r seen h call q p :
  check_history r seen h = Ok tt -> validateIntentCall call r = Ok (q, p) ->
  intentExactKey (iq_Source q) ∉ seen ->
  (forall c q' p', c ∈ h -> validateIntentCall c r = Ok (q', p') ->
     intentExactKey (iq_Source q') <> intentExactKey (iq_Source q)) ->
  check_history r seen (h ++ [call]) = Ok tt.
Proof.
  revert seen. induction h as [|c h IH]; intros seen H Hv Hs Hf; cbn [check_history app] in *.
  { rewrite Hv. cbn [mbind outcome_bind]. by rewrite bool_decide_false. }
  okinv H. destruct v as [q' p']. okinv H. rewrite Hv0. cbn [mbind outcome_bind]. rewrite Hg.
  cbn [mbind outcome_bind fail_if]. eapply IH; [done|exact Hv| |].
  - apply not_elem_of_union. split; [|done]. rewrite elem_of_singleton.
    intros He. by apply (Hf c q' p'); [left|done|].
  - intros. by eapply Hf; [right|].
Qed.

(** ** The history with the new call *)
Lemma canonical_call_request c r q p :
  canonical_call c -> validateIntentCall c r = Ok (q, p) -> q = ic_Request c.
Proof.
  unfold canonical_call, cloneIntentCall. intros Hc H. destruct c as [q0 h0 p0 k0]. opt_inv Hc. simplify_eq/=.
  unfold validateIntentCall in H. cbn [ic_Request ic_Response ic_RequestHash ic_ResponseHash] in H. okinv H. congruence.
Qed.

Lemma decodeIntentHistory_checked h hash r : Forall canonical_call h ->
  decodeIntentHistory h hash r = Ok h -> check_history r ∅ h = Ok tt.
Proof.
  intros Hh H. unfold decodeIntentHistory in H. rewrite (proj2 (mapM_opt_fixed _ _) Hh) in H.
  okinv H. by eapply unit_ok.
Qed.

Lemma decodeIntentHistory_snoc h hash r call q p text :
  Forall canonical_call h -> canonical_call call ->
  decodeIntentHistory h hash r = Ok h -> validateIntentCall call r = Ok (q, p) ->
  (forall c q' p', c ∈ h -> validateIntentCall c r = Ok (q', p') ->
     intentExactKey (iq_Source q') <> intentExactKey (iq_Source q)) ->
  marshalHistory (h ++ [call]) = Some text ->
  decodeIntentHistory (h ++ [call]) (sha256Hex text) r = Ok (h ++ [call]).
Proof.
  intros Hh Hc Hd Hv Hf Ht. unfold decodeIntentHistory.
  assert (Forall canonical_call (h ++ [call])) as Hh' by (apply Forall_app; by split; [|constructor]).
  rewrite Ht, (proj2 (mapM_opt_fixed _ _) Hh'). cbn [of_option mbind outcome_bind].
  rewrite bool_decide_true by done. cbn [negb fail_if mbind outcome_bind].
  rewrite Ht, (proj2 (json_texts_equal_refl _)) by eauto. cbn [negb fail_if mbind outcome_bind].
  rewrite (check_history_snoc r ∅ h call q p); [done|by eapply decodeIntentHistory_checked|done|set_solver|done].
Qed.

(** ** Preparation *)
Lemma prepareIntentRequest_ok exec intent p :
  prepareIntentRequest exec intent = Ok p ->
  cloneIntentRequest (pi_request p) = Some (pi_request p)
  /\ intentRequest_validate (pi_request p) = Ok tt
  /\ marshalIntentRequest (pi_request p) = Some (pi_requestJSON p)
  /\ pi_fingerprint p = sha256Hex (pi_requestJSON p)
  /\ iq_TaskID (pi_request p) = ex_TaskID exec
  /\ iq_ExpectedRevision (pi_request p) = ex_ExpectedRevision exec
  /\ iq_Intent (pi_request p) = intent.
Proof.
  unfold prepareIntentRequest. intros H. okinv H. cbn [pi_request pi_requestJSON pi_fingerprint].
  apply negb_false_iff, json_texts_equal_true in Hg as (t & [= <-] & Ht).
  split_and!; [by eapply cloneIntentRequest_idem|by destruct v1|done|done|..];
    unfold cloneIntentRequest in Hv0; opt_inv Hv0; done.
Qed.

Lemma prepareIntentMutation_ok current r' q fp env st h st' :
  prepareIntentMutation current r' q fp env st = (Ok h, st') ->
  st' = st /\ Record_Validate r' = Ok tt /\ exists text, marshalRecord r' = Some text
  /\ h = st_history current ++ [ {| ic_Request := q; ic_RequestHash := fp; ic_Response := r';
                                    ic_ResponseHash := sha256Hex text |} ].
Proof.
  unfold prepareIntentMutation. intros H. minv H.
  match goal with H : prepare_capacity _ _ _ _ _ = _ |- _ => apply prepare_capacity_ok in H as [-> Hm] end.
  match goal with H : Record_Validate _ = Ok ?u |- _ => destruct u end. split_and!; eauto.
Qed.

Lemma intent_applied_canonical q r r' :
  canonical r -> cloneIntentRequest q = Some q -> intent_applied q r r' -> canonical r'.
Proof.
  intros [] Hq [Hid _ _ Hl _ _ Hp Hx]. injection Hl as L1 L2 L3.
  split; rewrite ?(si_owner _ _ Hid), ?(si_spec _ _ Hid), ?L1, ?L2; try done.
  - destruct Hp as [->| ->]; [done|]. unfold clone_raw. case_bool_decide; [congruence|].
    apply modelProgressJSON_compact.
  - intros x Hr. unfold cloneResultJSON. rewrite (Hx _ Hr).
    destruct q. unfold cloneIntentRequest in Hq. opt_inv Hq. simplify_eq/=. rewrite Hx0. simpl.
    destruct x; simpl in *. do 2 f_equal. symmetry. apply (Hx _ Hr).
Qed.

Lemma intent_applied_evolves q r r' :
  taskStateTerminal (r_State r) = false -> intent_applied q r r' -> evolves r r'.
Proof.
  intros Ht [Hid _ Hrev Hl _ _ _ _]. injection Hl as L1 L2 L3.
  apply evolves_advance; try done. exists false. by left.
Qed.

Lemma loadExactIntentTx_none owner p env st st' :
  loadExactIntentTx owner p env st = (Ok None, st') ->
  st_db st' = st_db st /\
  forall c d call q r, c ∈ owner_rows owner (st_db st) -> decodeTaskRowColumns c = Ok d -> call ∈ dt_history d ->
    validateIntentCall call (dt_record d) = Ok (q, r) ->
    intentExactKey (iq_Source q) <> intentExactKey (iq_Source (pi_request p)).
Proof.
  unfold loadExactIntentTx, loadOwnerCallIdentityTx. intros H. minv H.
  match goal with H : match ?f with Some _ => _ | None => _ end _ _ = _ |- _ => destruct f as [ [] |] end.
  - by apply fail_ok in H.
  - minv H. simplify_eq.
  - apply match_rows_none in Hr as [_ Hn]. minv H. split; [done|]. exact Hn.
Qed.

(** The second write: the history joins the record. *)
Lemma store_history_effect db k row h text env st before prepared u st' :
  tasks_wf db -> db_tasks db !! k = Some row -> st_db st = db -> row_key before = k ->
  storeIntentHistoryTx before prepared h env st = (Ok u, st') ->
  Forall canonical_call h -> marshalHistory h = Some text ->
  decodeIntentHistory h (sha256Hex text) (co_recordJSON row) = Ok h ->
  tasks_evolve db (st_db st')
  /\ st_db st' = with_tasks (<[k := set_row_history h (sha256Hex text) row]> (db_tasks db)) db.
Proof.
  intros Hwf Hrow Hdb Hk Hup Hh Ht Hd. unfold storeIntentHistoryTx in Hup. minv Hup.
  match goal with H : marshalHistory h = Some ?t |- _ => assert (t = text) as -> by congruence end.
  destruct (update_row_ok _ _ _ _ _ _ _ (tasks_wf_keyed _ Hwf) Hup) as (c & Hc & _ & _ & _ & Hdb').
  assert (c = row) as -> by congruence. split; [|done].
  pose proof (Hwf _ _ Hrow) as Hw. destruct (rw_decodes _ _ Hw) as [d Hdec].
  apply decode_canonical in Hdec as Hde; [|apply Hw|apply Hw].
  apply (tasks_evolve_row _ _ (row_key before) row (set_row_history h (sha256Hex text) row)); [done|done| |done|by rewrite Hdb'].
  eapply row_updated; [exact Hw|done| |done|apply Hw|apply Hde|apply Hde|done|done].
  destruct (de_agree _ _ Hde) as (fp & _ & Ha). apply columns_agree_true in Ha as (_ & _ & A3 & A4 & _ & A6 & _).
  split; simpl; [done| |done]. rewrite A4, to_i64_small; [pose proof (de_revision _ _ Hde); lia|].
  rewrite <- A4. apply (rk_revision _ (proj1 (Record_Validate_ok _) (de_valid _ _ Hde))).
Qed.

Lemma evolves_newID {B} p (f : string -> M B) :
  (forall nano counter, Evolves (f (idgen_New p nano counter))) -> Evolves (newID p ≫= f).
Proof.
  intros Hf env st o st' Hwf H. unfold mbind, M_bind, newID in H.
  exact (Hf _ _ env (tick st) o st' Hwf H).
Qed.

(** The first write: the record an intent left, over the row it was read from. *)
Lemma intent_row_effect db t row q r' env st u st' :
  tasks_wf db -> loaded db t row -> st_db st = db ->
  updateIntentRecordTx (st_record t) r' env st = (Ok u, st') ->
  taskStateTerminal (r_State (st_record t)) = false ->
  cloneIntentRequest q = Some q -> intent_applied q (st_record t) r' ->
  Record_Validate r' = Ok tt -> is_Some (marshalRecord r') ->
  tasks_evolve db (st_db st')
  /\ st_db st' = with_tasks (<[row_key (st_record t) := set_row_state (r_NextWakeAt r') r' row]> (db_tasks db)) db.
Proof.
  intros Hwf Hl Hdb Hup Ht Hq Hia Hv Hm. unfold updateIntentRecordTx in Hup.
  edestruct (state_effect _ t row _ _ r' _ _ _ _ Hwf Hl Hdb Hup) as (He & _ & Hdb'); try done.
  - by eapply intent_applied_evolves.
  - eapply intent_applied_canonical; [by eapply loaded_canonical|exact Hq|exact Hia].
Qed.

Lemma check_history_all r seen h c :
  check_history r seen h = Ok tt -> c ∈ h -> exists q p, validateIntentCall c r = Ok (q, p).
Proof.
  revert seen. induction h as [|c' h IH]; intros seen H Hc; [by apply not_elem_of_nil in Hc|].
  cbn [check_history] in H. okinv H. destruct v as [q p]. okinv H.
  apply elem_of_cons in Hc as [->|Hc]; eauto.
Qed.

(** The extended history decodes against the record the intent left. *)
Lemma intent_history_decodes db t row q r' request response text :
  loaded db t row -> taskStateTerminal (r_State (st_record t)) = false ->
  cloneIntentRequest q = Some q -> intentRequest_validate q = Ok tt -> marshalIntentRequest q = Some request ->
  iq_TaskID q = r_ID (st_record t) -> iq_ExpectedRevision q = r_Revision (st_record t) ->
  intent_applied q (st_record t) r' -> Record_Validate r' = Ok tt -> marshalRecord r' = Some response ->
  (forall call q' p, call ∈ st_history t -> validateIntentCall call (st_record t) = Ok (q', p) ->
     intentExactKey (iq_Source q') <> intentExactKey (iq_Source q)) ->
  let h := st_history t ++ [ {| ic_Request := q; ic_RequestHash := sha256Hex request; ic_Response := r';
                                ic_ResponseHash := sha256Hex response |} ] in
  marshalHistory h = Some text ->
  Forall canonical_call h /\ decodeIntentHistory h (sha256Hex text) r' = Ok h.
Proof.
  intros Hl Ht Hcq Hvq Hmq Hid Hexp Hia Hv Hm Hfresh h Htext.
  pose proof (intent_applied_canonical _ _ _ (loaded_canonical _ _ _ Hl) Hcq Hia) as Hcan.
  destruct Hl as [Hrow Hrec Hhist Hw]. rewrite <- Hrec, <- Hhist in *.
  destruct (rw_decodes _ _ Hw) as [d Hd]. pose proof (rw_history _ _ Hw) as Hch.
  apply decode_canonical in Hd as Hde; [|apply Hw|done].
  pose proof (decodeIntentHistory_checked _ _ _ Hch (de_checked _ _ Hde)) as Hck.
  set (call := {| ic_Request := q; ic_RequestHash := _; ic_Response := _; ic_ResponseHash := _ |}) in h.
  assert (h = co_intentHistoryJSON row ++ [call]) as Hh by (unfold h; congruence).
  rewrite Hh in Htext |- *.
  assert (canonical_call call) as Hcc.
  { unfold canonical_call, cloneIntentCall. simpl. by rewrite Hcq, (proj2 (cloneRecord_canonical _) Hcan). }
  assert (decodeIntentHistory (co_intentHistoryJSON row) (co_intentHistoryHash row) r'
          = Ok (co_intentHistoryJSON row)) as Hold.
  { eapply decodeIntentHistory_ext; [|done|apply Hde]. intros c [q' p'] _ Hc.
    eapply validateIntentCall_advanced; [apply Hia| |by intros Hs; rewrite Hs in Ht|exact Hc].
    rewrite (ia_revision _ _ _ Hia). lia. }
  split; [by apply Forall_app; split; [|constructor]|].
  eapply (decodeIntentHistory_snoc _ _ _ call q r'); [done|done|exact Hold| | |exact Htext].
  - eapply validateIntentCall_new; [exact Hia|done|done| |done..].
    destruct (de_agree _ _ Hde) as (fp & Hfp & _). rewrite (si_spec _ _ (ia_identity _ _ _ Hia)). by rewrite Hfp.
  - intros c q' p' Hc Hvc. destruct (check_history_all _ _ _ c Hck Hc) as (q0 & p0 & H0).
    assert (canonical_call c) as Hcanc by (rewrite Forall_forall in Hch; auto).
    rewrite (canonical_call_request _ _ _ _ Hcanc Hvc).
    rewrite <- (canonical_call_request _ _ _ _ Hcanc H0). by eapply Hfresh.
Qed.

Lemma storeIntentHistoryTx_marshal before prepared h env st u st' :
  storeIntentHistoryTx before prepared h env st = (Ok u, st') -> is_Some (marshalHistory h).
Proof. unfold storeIntentHistoryTx. intros H. minv H. eauto. Qed.

Lemma intentRequest_source q : intentRequest_validate q = Ok tt -> SourceRef_Validate (iq_Source q) = Ok tt.
Proof. unfold intentRequest_validate. intros H. okinv H. by eapply unit_ok. Qed.

(** A loaded task is among the owner's rows, so what the lookup skipped is not in its history. *)
Lemma loaded_fresh db t row target owner :
  loaded db t row -> r_Owner (st_record t) = owner ->
  (forall c d call q r, c ∈ owner_rows owner db -> decodeTaskRowColumns c = Ok d -> call ∈ dt_history d ->
    validateIntentCall call (dt_record d) = Ok (q, r) -> intentExactKey (iq_Source q) <> target) ->
  forall call q r, call ∈ st_history t -> validateIntentCall call (st_record t) = Ok (q, r) ->
    intentExactKey (iq_Source q) <> target.
Proof.
  intros Hl Ho Hf. destruct Hl as [Hrow Hrec Hhist Hw]. destruct (rw_decodes _ _ Hw) as [d Hd].
  apply decode_canonical in Hd as Hde; [|apply Hw|apply Hw].
  rewrite <- Hrec, <- Hhist in *. rewrite <- (de_record _ _ Hde), <- (de_history _ _ Hde).
  intros call q r. apply (Hf row d); [|done]. apply rows_where_elem. split; [|eauto].
  apply bool_decide_eq_true. rewrite <- Ho. pose proof (rw_key _ _ Hw) as Hk.
  unfold task_key, row_key in Hk. by injection Hk.
Qed.

Lemma ApplyIntent_effect exec intent : Evolves (ApplyIntent exec intent).
Proof.
  unfold ApplyIntent. do 1 (apply evolves_bind; [apply evolves_ro; apply _|intros ?]).
  apply evolves_lift. intros [] Hin. apply evolves_lift. intros request Hreq.
  apply prepareIntentRequest_ok in Hreq as (Hcq & Hvq & Hmq & Hfp & Hid & Hexp & _).
  apply evolves_newID. intros nano counter. evolves_prefix.
  intros env st x st' Hwf H. unfold apply_intent_tx in H. minv H. kt_all.
  match goal with H : loadExactIntentTx _ _ _ _ = (Ok ?e, _) |- _ => destruct e as [response|] end.
  { minv H. apply tasks_evolve_same; [done|congruence]. }
  minv H. kt_all.
  apply loadExactIntentTx_none in Hr1 as [E1 Hfresh].
  apply loadIntentTaskTx_ok in Hr2 as (E2 & Hkey & row & Hl); [|by eapply tasks_wf_ext, Hwf; congruence].
  apply prepareIntentMutation_ok in Hr5 as (-> & Hv & response & Hm & ->).
  unfold intent_admissible in Hr3. okinv Hr3.
  pose proof (intent_record_applied _ _ _ _ _ (result_id_prefix nano counter) (intentRequest_source _ Hvq) Hr4) as Hia.
  unfold row_key in Hkey. injection Hkey as Ko Kt. boolp.
  destruct (storeIntentHistoryTx_marshal _ _ _ _ _ _ _ Hr10) as [text Htext]. rewrite Hfp in *.
  assert (tasks_wf (st_db st1)) as Hwf1 by (eapply tasks_wf_ext, Hwf; congruence).
  destruct (intent_row_effect _ a3 row (pi_request request) a5 _ _ _ _ Hwf1 Hl E2 Hr6)
    as [He1 Hdb4]; [done|done|done|done|by eauto|].
  apply N.eqb_eq in Hg2. rewrite E1 in *.
  assert (forall call q p, call ∈ st_history a3 -> validateIntentCall call (st_record a3) = Ok (q, p) ->
    intentExactKey (iq_Source q) <> intentExactKey (iq_Source (pi_request request))) as Hnew
    by (by eapply loaded_fresh).
  destruct (intent_history_decodes _ a3 row (pi_request request) a5 (pi_requestJSON request) response text Hl)
    as [Hch Hdec]; [congruence..|done|done|done|done|done|].
  assert (db_tasks (st_db st6) = db_tasks (st_db st4)) as Etk6 by congruence.
  edestruct (store_history_effect (st_db st6) (row_key (st_record a3)) (set_row_state (r_NextWakeAt a5) a5 row))
    as [He2 _]; [|by rewrite Etk6, Hdb4; apply lookup_insert_eq|done|done|exact Hr10|done|exact Htext|done|].
  { eapply tasks_wf_ext; [exact Etk6|]. apply He1. }
  eapply tasks_evolve_ext; [| |eapply tasks_evolve_trans; [exact He1|]]; [congruence|reflexivity|].
  eapply tasks_evolve_ext; [symmetry; exact Etk6|reflexivity|exact He2].
Qed.

(** ** Read-only lookups of wakes *)
#[export] Instance ro_findWake h w : ReadOnly (findStrictWorldWakeTx h w).
Proof. unfold findStrictWorldWakeTx, loadWorldTaskGraphForWakeTx. apply _. Qed.
#[export] Instance ro_dueWakes h c n l : ReadOnly (loadDueWakeCandidatesTx h c n l).
Proof. unfold loadDueWakeCandidatesTx, loadWorldTaskGraphForWakeTx. apply _. Qed.
#[export] Instance ro_fresh_ids p n seen : ReadOnly (fresh_ids p n seen).
Proof. revert seen. induction n; intros seen; apply _. Qed.
