(* ===== verification/Topology.v ===== *)
(** * Wakes and tasks agree

    The topology of a store: every wake row decodes and pairs with its task, a
    task has at most one wake that can still run, and a waiting task has one. *)

From S2P Require Export IntentEffects.

Local Open Scope go_scope.

#[local] Opaque Record_Validate sha256Hex marshalRecord marshalTaskSpec marshalCreateResult
  marshalHistory cloneRecord modelProgressJSON validateTaskMutationCapacity Wake_Validate.

(** ** The invariant *)
Definition wake_fits (r : TaskRecord) (w : Wake) : Prop :=
  row_key r = wake_task w /\ (w_DueTick w <= sp_DeadlineAt (r_Spec r))%Z
  /\ match w_Status w with
     | wakeStatusPending | wakeStatusClaimed | wakeStatusEnqueued => wake_waits_for w r = true
     | wakeStatusRunning => wake_runs w r = true
     | wakeStatusConsumed => True
     | wakeStatusOther _ => False
     end.

Lemma validateTaskWakePair_ok r w :
  validateTaskWakePair r w = Ok tt <->
  Record_Validate r = Ok tt /\ Wake_Validate w = Ok tt /\ wake_fits r w.
Proof.
  unfold wake_fits, row_key, wake_task. split.
  - unfold validateTaskWakePair. intros ([] & Hr & ([] & Hw & [Hg H]%fail_if_bind)%bind_ok)%bind_ok. boolp.
    destruct Hg as [[Ho Hi] Hd]. split_and!; try done; [congruence|].
    destruct (w_Status w); try done; by apply fail_if_ok, negb_false_iff in H.
  - intros (Hr & Hw & Hk & Hd & H). injection Hk as Ho Hi. unfold validateTaskWakePair. rewrite Hr, Hw, Ho, Hi.
    cbn [mbind outcome_bind]. rewrite !bool_decide_true by done. rewrite (proj2 (Z.ltb_ge _ _) Hd).
    cbn [negb orb fail_if mbind outcome_bind]. destruct (w_Status w); try done; by rewrite H.
Qed.

(** Every wake row is stored under its id, with equal columns and JSON. *)
Record wakes_ok (db : DB) : Prop := {
  wk_row : forall id c, db_wakes db !! id = Some c ->
    w_ID (wr_indexed c) = id /\ wr_json c = wr_indexed c /\ Wake_Validate (wr_indexed c) = Ok tt;
  wk_unique : forall id1 id2 c1 c2, db_wakes db !! id1 = Some c1 -> db_wakes db !! id2 = Some c2 ->
    wake_task (wr_indexed c1) = wake_task (wr_indexed c2) ->
    executableStatus (w_Status (wr_indexed c1)) = true -> executableStatus (w_Status (wr_indexed c2)) = true ->
    id1 = id2
}.

Definition wake_paired (tasks : gmap (AgentSessionKey * string) taskRowColumns) (c : wakeRow) : Prop :=
  exists row, tasks !! wake_task (wr_indexed c) = Some row /\ wake_fits (co_recordJSON row) (wr_indexed c)
  /\ wr_clockID c = sp_ClockID (r_Spec (co_recordJSON row)).

Definition has_wake (wakes : gmap string wakeRow) (k : AgentSessionKey * string) : Prop :=
  exists id c, wakes !! id = Some c /\ wake_task (wr_indexed c) = k
  /\ executableStatus (w_Status (wr_indexed c)) = true.

(** Tasks and wakes agree on the tasks of [P]: all of them between calls, all but
    one while a call is rewriting that one. *)
Record paired_on (P : AgentSessionKey * string -> Prop) (db : DB) : Prop := {
  pr_wakes : forall id c, db_wakes db !! id = Some c -> P (wake_task (wr_indexed c)) -> wake_paired (db_tasks db) c;
  pr_tasks : forall k row, db_tasks db !! k = Some row -> P k ->
    r_State (co_recordJSON row) = StateWaiting -> has_wake (db_wakes db) k
}.

Record topology (db : DB) : Prop := {
  tp_wakes : wakes_ok db;
  tp_paired : paired_on (fun _ => True) db
}.

(** ** Changing one wake, one task *)
Section changes.
Context (db db' : DB).

Lemma wakes_ok_same : db_wakes db' = db_wakes db -> wakes_ok db -> wakes_ok db'.
Proof. intros He []. split; rewrite He; auto. Qed.

Lemma wakes_ok_put id c :
  wakes_ok db -> db_wakes db' = <[id := c]> (db_wakes db) ->
  w_ID (wr_indexed c) = id -> wr_json c = wr_indexed c -> Wake_Validate (wr_indexed c) = Ok tt ->
  no_other id (wake_conflict c) (db_wakes db) = true -> wakes_ok db'.
Proof.
  intros [Hrow Hun] He Hid Hj Hv Hno%bool_decide_eq_true. rewrite map_Forall_lookup in Hno.
  assert (forall id2 c2, db_wakes db !! id2 = Some c2 -> wake_task (wr_indexed c) = wake_task (wr_indexed c2) ->
    executableStatus (w_Status (wr_indexed c)) = true -> executableStatus (w_Status (wr_indexed c2)) = true ->
    id2 = id) as Hfree.
  { intros id2 c2 H2 Ht E1 E2. destruct (decide (id2 = id)) as [|Hne]; [done|].
    pose proof (Hno id2 c2 H2 Hne) as Hc. unfold wake_conflict in Hc.
    rewrite (bool_decide_true _ Ht), E1, E2, orb_true_r in Hc. done. }
  split; rewrite He.
  - intros j d. destruct (decide (j = id)) as [->|Hne]; [rewrite lookup_insert_eq; by intros [= <-]|].
    rewrite lookup_insert_ne by done. apply Hrow.
  - intros j1 j2 d1 d2. destruct (decide (j1 = id)) as [->|H1], (decide (j2 = id)) as [->|H2]; try done.
    + rewrite lookup_insert_eq, lookup_insert_ne by done. intros [= <-] L2 Ht X1 X2. symmetry. by eapply Hfree.
    + rewrite lookup_insert_eq, lookup_insert_ne by done. intros L1 [= <-] Ht X1 X2. by eapply Hfree.
    + rewrite !lookup_insert_ne by done. apply Hun.
Qed.

(** A wake of a task outside [P]. *)
Lemma paired_wake_outside P id c :
  paired_on P db -> db_tasks db' = db_tasks db -> db_wakes db' = <[id := c]> (db_wakes db) ->
  ~ P (wake_task (wr_indexed c)) ->
  (forall c0, db_wakes db !! id = Some c0 -> wake_task (wr_indexed c0) = wake_task (wr_indexed c)) ->
  paired_on P db'.
Proof.
  intros [Hw Ht] E1 E2 Hn Hold. split; rewrite E1, E2.
  - intros j d. destruct (decide (j = id)) as [->|Hne].
    + rewrite lookup_insert_eq. intros [= <-] HP. done.
    + rewrite lookup_insert_ne by done. apply Hw.
  - intros k row Hk HP Hs. destruct (Ht k row Hk HP Hs) as (j & d & Hj & Hd & He).
    exists j, d. split; [|done]. rewrite lookup_insert_ne; [done|]. intros ->.
    rewrite (Hold _ Hj) in Hd. congruence.
Qed.

(** A row outside [P]. *)
Lemma paired_row_outside P k row :
  paired_on P db -> db_tasks db' = <[k := row]> (db_tasks db) -> db_wakes db' = db_wakes db ->
  ~ P k -> paired_on P db'.
Proof.
  intros [Hw Ht] E1 E2 Hn. split; rewrite E1, E2.
  - intros j d Hj HP. destruct (Hw j d Hj HP) as (r0 & Hr & Hf). exists r0.
    rewrite lookup_insert_ne; [done|congruence].
  - intros k' row' Hk' HP. rewrite lookup_insert_ne in Hk' by congruence. by eapply Ht.
Qed.

Lemma paired_weaken (P Q : AgentSessionKey * string -> Prop) : (forall k, Q k -> P k) -> paired_on P db -> paired_on Q db.
Proof. intros HPQ [Hw Ht]. split; intros; [by eapply Hw, HPQ|by eapply Ht; [|apply HPQ|]]. Qed.

Lemma paired_same P :
  db_tasks db' = db_tasks db -> db_wakes db' = db_wakes db -> paired_on P db -> paired_on P db'.
Proof. intros E1 E2 []. split; rewrite E1, E2; auto. Qed.

(** Put the excepted task back. *)
Lemma paired_close k :
  paired_on (fun j => j <> k) db ->
  (forall id c, db_wakes db !! id = Some c -> wake_task (wr_indexed c) = k -> wake_paired (db_tasks db) c) ->
  (forall row, db_tasks db !! k = Some row -> r_State (co_recordJSON row) = StateWaiting ->
     has_wake (db_wakes db) k) ->
  paired_on (fun _ => True) db.
Proof.
  intros [Hw Ht] H1 H2. split.
  - intros id c Hc _. destruct (decide (wake_task (wr_indexed c) = k)); eauto.
  - intros j row Hj _ Hs. destruct (decide (j = k)) as [->|]; eauto.
Qed.
End changes.

Lemma topology_same db db' :
  db_tasks db' = db_tasks db -> db_wakes db' = db_wakes db -> topology db -> topology db'.
Proof. intros E1 E2 [Hw Hp]. split; [by eapply wakes_ok_same|by eapply paired_same]. Qed.

(** ** Steps that leave tasks and wakes alone *)
Class KeepsRows {A} (m : M A) : Prop := keeps_rows : forall env st a st', m env st = (Ok a, st') ->
  db_tasks (st_db st') = db_tasks (st_db st) /\ db_wakes (st_db st') = db_wakes (st_db st).

#[export] Instance kr_ro {A} (m : M A) `{ReadOnly A m} : KeepsRows m | 10.
Proof. intros env st a st' Hr. by rewrite (H _ _ _ _ Hr). Qed.
#[export] Instance kr_bind {A B} (m : M A) (f : A -> M B) :
  KeepsRows m -> (forall a, KeepsRows (f a)) -> KeepsRows (m ≫= f).
Proof.
  intros Hm Hf env st b st' H. apply M_bind_ok in H as (a & st1 & H1 & H2).
  destruct (Hf _ _ _ _ _ H2) as [-> ->]. by eapply Hm.
Qed.
#[export] Instance kr_if {A} (b : bool) (m n : M A) : KeepsRows m -> KeepsRows n -> KeepsRows (if b then m else n).
Proof. by destruct b. Qed.
#[export] Instance kr_headCAS b u : KeepsRows (updateWorldHeadCASTx b u).
Proof. intros env st x st' H. apply updateWorldHeadCASTx_ok in H as (_ & _ & ->). done. Qed.
#[export] Instance kr_loadHead w : KeepsRows (loadWorldHeadForMutationTx w).
Proof.
  intros env st r st' H.
  apply loadWorldHeadForMutationTx_ok in H as (_ & _ & c & r0 & _ & _ & [ [_ Hd]|(_ & _ & Hd)]); by rewrite Hd.
Qed.
#[export] Hint Extern 8 (KeepsRows (match _ with _ => _ end)) => case_match : typeclass_instances.

(** ** What the wake writes do *)
Lemma updateWakeCASTx_wakes before updated env st u st' :
  updateWakeCASTx before updated env st = (Ok u, st') ->
  Wake_Validate updated = Ok tt /\ w_ID updated = w_ID (dw_wake before)
  /\ wake_task updated = wake_task (dw_wake before)
  /\ w_ExpectedRevision updated = w_ExpectedRevision (dw_wake before)
  /\ w_DueTick updated = w_DueTick (dw_wake before)
  /\ db_tasks (st_db st') = db_tasks (st_db st)
  /\ exists c, db_wakes (st_db st) !! w_ID updated = Some c /\ wr_indexed c = dw_wake before
  /\ let c' := {| wr_indexed := updated; wr_clockID := wr_clockID c; wr_json := updated |} in
     no_other (w_ID updated) (wake_conflict c') (db_wakes (st_db st)) = true
     /\ db_wakes (st_db st') = <[w_ID updated := c']> (db_wakes (st_db st)).
Proof.
  unfold updateWakeCASTx. intros H. minv H.
  match goal with H : update_wake _ _ _ _ _ = _ |- _ =>
    apply update_wake_one in H as (c & Hc & Hg & (_ & Hn & _ & Hdb)%put_wake_ok) end. cbn [wr_indexed] in *.
  boolp. destruct a. match goal with H : _ /\ w_Reason _ = _ |- _ => destruct H as ((((( H1 & H2) & H3) & H4) & H5) & H6) end.
  apply N.eqb_eq in H4. apply Z.eqb_eq in H5.
  cbn [tick st_db] in *. rewrite Hdb. split_and!; try done; [unfold wake_task; congruence|].
  exists c. rewrite H1 in *. tauto.
Qed.

(** The wake row a loaded wake came from. *)
Lemma scanAdmissionWakeRow_ok c w : scanAdmissionWakeRow c = Ok w ->
  w = wr_indexed c /\ wr_json c = w /\ Wake_Validate w = Ok tt.
Proof.
  unfold scanAdmissionWakeRow, validateScannedWake, cloneWake. intros H. okinv H.
  case_match; [|done]. simplify_eq. boolp. subst. split_and!; try done. by eapply unit_ok.
Qed.

Lemma relation_fits head d :
  validateDurableWakeRelation head d = Ok tt ->
  dw_clock d = sp_ClockID (r_Spec (st_record (dw_record d))) /\
  wake_fits (st_record (dw_record d)) (dw_wake d).
Proof.
  unfold validateDurableWakeRelation, wake_fits, row_key, wake_task. intros H.
  apply fail_if_bind in H as [Hg H]. boolp. destruct Hg as ((((H1 & H2) & H3) & H4) & H5).
  split; [done|]. split; [congruence|]. split; [done|].
  destruct (w_Status (dw_wake d)); try done; apply fail_if_ok in H; boolp; tauto.
Qed.

(** One wake of a task changes while the task stays: the next status fits the task,
    and a waiting task keeps a live wake. *)
Lemma topology_wake_step db before updated env st u st' row :
  topology db -> db_tasks (st_db st) = db_tasks db -> db_wakes (st_db st) = db_wakes db ->
  updateWakeCASTx before updated env st = (Ok u, st') ->
  db_tasks db !! wake_task (dw_wake before) = Some row ->
  wake_fits (co_recordJSON row) updated ->
  (r_State (co_recordJSON row) = StateWaiting -> executableStatus (w_Status updated) = true) ->
  topology (st_db st').
Proof.
  intros [Hw Hp] E1 E2 Hup Hrow Hfit Hlive.
  apply updateWakeCASTx_wakes in Hup as (Hv & _ & Ht & _ & _ & T1 & c & Hc & Hi & Hno & T2).
  rewrite E1 in T1. rewrite E2 in Hc, Hno, T2. split.
  - eapply (wakes_ok_put db); [done|exact T2|done..].
  - destruct Hp as [Hpw Hpt]. split; rewrite T1, T2.
    + intros j d. destruct (decide (j = w_ID updated)) as [->|Hne].
      * rewrite lookup_insert_eq. intros [= <-] _. exists row. cbn [wr_indexed wr_clockID].
        rewrite Ht. split_and!; [done|done|].
        destruct (Hpw _ _ Hc I) as (row' & Hr' & _ & Hck). rewrite Hi in Hr'. congruence.
      * rewrite lookup_insert_ne by done. apply Hpw.
    + intros k r Hk _ Hs. destruct (Hpt k r Hk I Hs) as (j & d & Hj & Hd & He).
      destruct (decide (j = w_ID updated)) as [->|Hne].
      * exists (w_ID updated). eexists. rewrite lookup_insert_eq. split; [done|]. cbn [wr_indexed].
        assert (d = c) as -> by congruence. rewrite Hi in Hd. rewrite Ht. split; [done|]. apply Hlive. congruence.
      * exists j, d. by rewrite lookup_insert_ne.
Qed.

(** ** Calls *)
Definition TopoOk {A} (m : M A) : Prop := forall env st a st',
  tasks_wf (st_db st) -> topology (st_db st) -> m env st = (Ok a, st') -> topology (st_db st').
Definition Topo {A} (m : M A) : Prop := forall env st o st',
  tasks_wf (st_db st) -> topology (st_db st) -> m env st = (o, st') -> topology (st_db st').

Lemma topo_tx {A} (cb : M A) : TopoOk cb -> Topo (withImmediateTransaction cb).
Proof.
  intros Hcb env st [a|e] st' Hwf Ht H.
  - apply tx_ok in H as (st1 & st2 & E1 & Hr & E2). rewrite E2. eapply Hcb; [| |exact Hr]; by rewrite E1.
  - apply tx_err in H. by rewrite H.
Qed.
Lemma topo_ro {A} (m : M A) `{ReadOnly A m} : Topo m.
Proof. intros env st o st' Hwf Ht Hr. by rewrite (H _ _ _ _ Hr). Qed.
Lemma topo_pre {A B} (m : M A) `{ReadOnly A m} (f : A -> M B) : (forall a, Topo (f a)) -> Topo (m ≫= f).
Proof.
  intros Hf env st o st' Hwf Ht Hr. unfold mbind, M_bind in Hr.
  destruct (m env st) as [[a|e] st1] eqn:Hm; pose proof (H _ _ _ _ Hm) as E.
  - eapply Hf; [| |exact Hr]; by rewrite E.
  - simplify_eq. by rewrite E.
Qed.
Lemma topo_post {A B} (m : M A) (f : A -> M B) : Topo m -> (forall a, ReadOnly (f a)) -> Topo (m ≫= f).
Proof.
  intros Hm Hf env st o st' Hwf Ht Hr. unfold mbind, M_bind in Hr.
  destruct (m env st) as [[a|e] st1] eqn:H1; [|simplify_eq; by eapply Hm].
  rewrite (Hf _ _ _ _ _ Hr). by eapply Hm.
Qed.
Lemma topo_lift {A B} (x : outcome error A) (f : A -> M B) :
  (forall a, x = Ok a -> Topo (f a)) -> Topo (lift x ≫= f).
Proof.
  intros Hf env st o st' Hwf Ht H. unfold mbind, M_bind, lift in H. destruct x as [a|e].
  - by eapply Hf.
  - by simplify_eq.
Qed.
Lemma topo_kr {A} (m : M A) `{KeepsRows A m} : TopoOk m.
Proof. intros env st o st' Hwf Ht Hr. destruct (H _ _ _ _ Hr). by eapply topology_same. Qed.

Ltac topo_prefix := repeat first
  [ apply topo_tx | apply topo_pre; [apply _|intros ?] | apply topo_post; [|intros ?; apply _] ].

(** Equations on tasks and wakes along the steps that keep them. *)
Ltac kr_all :=
  repeat match goal with
  | H : ?m ?env ?s = (Ok _, ?s') |- _ =>
      lazymatch goal with
      | _ : db_wakes (st_db s') = db_wakes (st_db s) |- _ => fail
      | _ => let R := constr:(ltac:(typeclasses eauto) : KeepsRows m) in
             let E := fresh "Ert" in let F := fresh "Erw" in
             destruct (R _ _ _ _ H : db_tasks (st_db s') = db_tasks (st_db s) /\ db_wakes (st_db s') = db_wakes (st_db s))
               as [E F]
      end
  end; cbn [tick st_db] in *.

(** ** Merges *)
Lemma merge_topology db t row prepared env st u st' :
  tasks_wf db -> topology db -> loaded db t row -> st_db st = db ->
  updateNoRevisionRecordTx (st_record t) prepared env st = (Ok u, st') ->
  same_identity (st_record t) prepared -> same_business (st_record t) prepared ->
  topology (st_db st').
Proof.
  intros Hwf [Hw [Hpw Hpt]] [Hrow Hrec _ _] Hdb Hup [I1 I2 I3 I4 I5] [B1 B2 B3 B4 B5].
  unfold updateNoRevisionRecordTx, marshal_before in Hup. minv Hup.
  destruct (update_row_ok _ _ _ _ _ _ _ (tasks_wf_keyed _ Hwf) Hup) as (c & Hc & _ & _ & _ & ->).
  assert (c = row) as -> by congruence. rewrite <- Hrec in *. split; [by eapply wakes_ok_same, Hw|].
  split; cbn [with_tasks db_tasks db_wakes].
  - intros id d Hd _. destruct (Hpw id d Hd I) as (r0 & Hr1 & (F1 & F2 & F3) & Hck).
    destruct (decide (wake_task (wr_indexed d) = row_key (co_recordJSON row))) as [He|Hne].
    + exists (set_row_record prepared row). rewrite He, lookup_insert_eq. cbn [set_row_record co_recordJSON].
      rewrite He in Hr1. assert (r0 = row) as -> by congruence.
      unfold wake_fits, row_key, wake_waits_for, wake_runs in *. rewrite I1, I2, I3, B1, B2, B3, B5. done.
    + exists r0. rewrite lookup_insert_ne by done. by split_and!.
  - intros k r Hk _ Hs. destruct (decide (k = row_key (co_recordJSON row))) as [->|Hne].
    + rewrite lookup_insert_eq in Hk. injection Hk as <-. cbn [set_row_record co_recordJSON] in Hs.
      rewrite B1 in Hs. by eapply Hpt.
    + rewrite lookup_insert_ne in Hk by done. by eapply Hpt.
Qed.

(** A merge found its task after steps that kept the rows. *)
Lemma merge_topology_from st1 st2 t row prepared env st u st' :
  tasks_wf (st_db st) -> topology (st_db st) ->
  db_tasks (st_db st1) = db_tasks (st_db st) -> db_wakes (st_db st1) = db_wakes (st_db st) ->
  st_db st2 = st_db st1 -> loaded (st_db st1) t row ->
  updateNoRevisionRecordTx (st_record t) prepared env st2 = (Ok u, st') ->
  same_identity (st_record t) prepared -> same_business (st_record t) prepared ->
  topology (st_db st').
Proof.
  intros Hwf Ht E1 E2 E3 Hl Hup Hi Hb.
  eapply (merge_topology (st_db st1)); [by eapply tasks_wf_ext|by eapply topology_same|exact Hl|done|exact Hup|done..].
Qed.

Lemma admitEvidenceTx_topology head e : TopoOk (admitEvidenceTx head e).
Proof.
  intros env st b st' Hwf Ht H. unfold admitEvidenceTx in H. minv H. kr_all.
  match goal with H : loadWorldTaskByIDTx _ _ _ _ = _ |- _ =>
    apply loadWorldTaskByIDTx_ok in H as (E1 & _ & _ & c & Hl); [|done] end.
  match goal with H : graph_or _ _ _ _ = (Ok ?g, _) |- _ => apply graph_or_ok in H as [E2 _];
    destruct (g_facts g !! ev_FactID e) as [identity|] end; minv H.
  { eapply topology_same, Ht; congruence. }
  match goal with H : prepareNoRevisionMutation _ _ _ _ = _ |- _ =>
    apply prepareNoRevisionMutation_ok in H as (-> & -> & _) end.
  match goal with H : updateNoRevisionRecordTx _ _ _ _ = _ |- _ =>
    eapply (merge_topology (st_db st)); [done|done|exact Hl|by rewrite E2|exact H|done|done] end.
Qed.

Lemma AdmitEvidence_topology binding e : Topo (AdmitEvidence binding e).
Proof.
  unfold AdmitEvidence. topo_prefix. intros env st b st' Hwf Ht H. minv H. kr_all.
  eapply admitEvidenceTx_topology; [| |exact H]; [by eapply tasks_wf_ext|by eapply topology_same].
Qed.

Lemma RegisterOperation_topology exec operation : Topo (RegisterOperation exec operation).
Proof.
  unfold RegisterOperation. topo_prefix. intros env st b st' Hwf Ht H. minv H. kr_all.
  match goal with H : loadIntentTaskTx _ _ _ _ = _ |- _ =>
    apply loadIntentTaskTx_ok in H as (E1 & _ & row & Hl); [|by eapply tasks_wf_ext] end.
  match goal with H : graph_or _ _ _ _ = (Ok ?g, _) |- _ => apply graph_or_ok in H as [E2 _];
    destruct (g_operations g !! _) as [identity|] end; minv H.
  { eapply topology_same, Ht; congruence. }
  match goal with H : prepareNoRevisionMutation _ _ _ _ = _ |- _ =>
    apply prepareNoRevisionMutation_ok in H as (-> & -> & _) end.
  match goal with H : updateNoRevisionRecordTx _ _ _ _ = _, E : db_wakes (st_db _) = db_wakes (st_db st) |- _ =>
    eapply (merge_topology_from _ _ _ _ _ _ st); [done|done| |exact E|by etrans|exact Hl|exact H|done|done]; done end.
Qed.

Lemma MarkOperationNotSent_topology b o t i a : Topo (MarkOperationNotSent b o t i a).
Proof.
  unfold MarkOperationNotSent. topo_prefix. intros env st u st' Hwf Ht H. minv H. kr_all.
  match goal with H : loadIntentTaskTx _ _ _ _ = (Ok ?t, _) |- _ =>
    apply loadIntentTaskTx_ok in H as (E1 & _ & row & Hl); [|by eapply tasks_wf_ext];
    destruct (findRecordOperation (st_record t) i) as [op|] eqn:Hop end; minv H.
  { eapply topology_same, Ht; congruence. }
  match goal with H : prepareNoRevisionMutation _ _ _ _ = _ |- _ =>
    apply prepareNoRevisionMutation_ok in H as (-> & -> & _) end.
  match goal with H : updateNoRevisionRecordTx _ _ _ _ = _, E : db_wakes (st_db _) = db_wakes (st_db st) |- _ =>
    eapply (merge_topology_from _ _ _ _ _ _ st); [done|done| |exact E|exact E1|exact Hl|exact H|done|done]; done end.
Qed.

Lemma RecordCleanup_topology b t c : Topo (RecordCleanup b t c).
Proof.
  unfold RecordCleanup. topo_prefix. intros env st u st' Hwf Ht H. minv H. kr_all.
  match goal with H : loadWorldTaskByIDTx _ _ _ _ = _ |- _ =>
    apply loadWorldTaskByIDTx_ok in H as (E1 & _ & _ & row & Hl); [|by eapply tasks_wf_ext] end.
  match goal with H : graph_or _ _ _ _ = (Ok ?g, _) |- _ => apply graph_or_ok in H as [E2 _] end.
  match goal with H : merge_cleanup _ _ = Ok ?m |- _ => destruct m as [l|] end; minv H; cycle 1.
  { eapply topology_same, Ht; congruence. }
  match goal with H : prepareCleanupMutation _ _ _ _ = _ |- _ =>
    apply prepareCleanupMutation_ok in H as (-> & -> & _) end.
  match goal with H : updateNoRevisionRecordTx _ _ _ _ = _, E : db_wakes (st_db _) = db_wakes (st_db st) |- _ =>
    eapply (merge_topology_from _ _ _ _ _ _ st); [done|done| |exact E|by etrans|exact Hl|exact H|done|done]; done end.
Qed.
