(* ===== verification/Delivery.v ===== *)
(** * Delivery of wakes: claims, their release, enqueueing and the start of a run

    What the wake operations leave behind, and that they keep tasks and wakes in
    agreement. *)

From S2P Require Export Topology.

Local Open Scope go_scope.

#[local] Opaque Record_Validate sha256Hex marshalRecord marshalTaskSpec marshalCreateResult
  marshalHistory cloneRecord modelProgressJSON validateTaskMutationCapacity Wake_Validate.

(** ** Statuses of a wake that waits for delivery *)
Definition deliverable (s : WakeStatus) : bool :=
  match s with wakeStatusPending | wakeStatusClaimed | wakeStatusEnqueued => true | _ => false end.

Lemma deliverable_fits r w w' :
  wake_fits r w -> deliverable (w_Status w) = true -> deliverable (w_Status w') = true ->
  wake_task w' = wake_task w -> w_DueTick w' = w_DueTick w -> w_ExpectedRevision w' = w_ExpectedRevision w ->
  wake_fits r w'.
Proof.
  intros (H1 & H2 & H3) D D' Et Ed Ee. unfold wake_fits. rewrite Et, Ed. split_and!; [done..|].
  unfold wake_waits_for in *. rewrite Ed, Ee.
  destruct (w_Status w), (w_Status w'); done.
Qed.
Lemma deliverable_executable s : deliverable s = true -> executableStatus s = true.
Proof. by destruct s. Qed.

Lemma loaded_paired db t row w :
  loaded db t row -> row_key (st_record t) = wake_task w ->
  db_tasks db !! wake_task w = Some row /\ co_recordJSON row = st_record t.
Proof. intros [H1 H2 _ _] He. by rewrite <- He. Qed.

(** One delivery step on a wake just found. *)
Lemma delivery_step st head id env st1 d updated u st2 :
  tasks_wf (st_db st) -> topology (st_db st) ->
  findStrictWorldWakeTx head id env st = (Ok d, st1) ->
  updateWakeCASTx d updated env st1 = (Ok u, st2) ->
  deliverable (w_Status (dw_wake d)) = true -> deliverable (w_Status updated) = true ->
  topology (st_db st2).
Proof.
  intros Hwf Ht Hf Hup D D'.
  apply findStrictWorldWakeTx_ok in Hf as (E & [_ Hfit]%relation_fits & Hk & (row & Hl) & _); [|done].
  destruct (loaded_paired _ _ _ _ Hl Hk) as [Hrow Hrec].
  pose proof Hup as Hup'. apply updateWakeCASTx_wakes in Hup' as (_ & _ & T & X & U & _).
  eapply (topology_wake_step (st_db st)); [done|by rewrite E..|exact Hup|exact Hrow| |].
  - rewrite Hrec. by eapply deliverable_fits.
  - intros _. by apply deliverable_executable.
Qed.

Lemma MarkEnqueued_topology b w c : Topo (MarkEnqueued b w c).
Proof.
  unfold MarkEnqueued, wake_world. topo_prefix. intros env st u st' Hwf Ht H. minv H. all: kr_all.
  { eapply topology_same, Ht; congruence. }
  eapply delivery_step; [| |eassumption|exact H| |done]; [by eapply tasks_wf_ext|by eapply topology_same|].
  boolp. match goal with H : w_Status _ = wakeStatusClaimed |- _ => by rewrite H end.
Qed.

Lemma ReleaseClaim_topology b w c t : Topo (ReleaseClaim b w c t).
Proof.
  unfold ReleaseClaim, wake_world. topo_prefix. intros env st u st' Hwf Ht H. minv H. kr_all.
  eapply delivery_step; [| |eassumption|exact H| |done]; [by eapply tasks_wf_ext|by eapply topology_same|].
  boolp. match goal with H : (w_Status _ = wakeStatusClaimed /\ _) /\ _ |- _ => by rewrite (proj1 (proj1 H)) end.
Qed.

(** ** Claims *)
Lemma scan_wake_rows_ok l s : scan_wake_rows l = Ok s ->
  s.*1 = l /\ forall c w, (c, w) ∈ s -> scanAdmissionWakeRow c = Ok w.
Proof.
  revert s. induction l as [|c l IH]; intros s H; cbn [scan_wake_rows] in H.
  { simplify_eq. split; [done|]. intros c w Hin. by apply not_elem_of_nil in Hin. }
  okinv H. destruct (IH _ Hv0) as [H1 H2]. split; [by rewrite fmap_cons, H1|].
  intros c' w' [[= -> ->]|Hin]%elem_of_cons; [done|eauto].
Qed.

Lemma graph_wakes_ok head g s l : graph_wakes head g s = Ok l ->
  dw_wake <$> l = s.*2 /\ forall d, d ∈ l -> validateDurableWakeRelation head d = Ok tt
    /\ g_tasks g !! wake_task (dw_wake d) = Some (dw_record d).
Proof.
  revert l. induction s as [|[c w] s IH]; intros l H; cbn [graph_wakes] in H.
  { simplify_eq. split; [done|]. intros d Hin. by apply not_elem_of_nil in Hin. }
  okinv H. destruct (IH _ Hv0) as [H1 H2]. unfold graph_wake in Hv. okinv Hv.
  split; [by rewrite !fmap_cons, H1|]. intros d [->|Hin]%elem_of_cons; [|eauto].
  split; [by eapply unit_ok|done].
Qed.

Lemma scanned_wakes (s : list (wakeRow * Wake)) :
  (forall c w, (c, w) ∈ s -> scanAdmissionWakeRow c = Ok w) -> s.*2 = wr_indexed <$> s.*1.
Proof.
  induction s as [|[c w] s IH]; intros H; [done|]. rewrite !fmap_cons. cbn [fst snd].
  destruct (scanAdmissionWakeRow_ok c w) as [-> _]; [by apply H; left|].
  f_equal. apply IH. intros. apply H. by right.
Qed.

(** The candidates of a claim are the due rows, in order, each paired with its task. *)
Lemma loadDueWakeCandidatesTx_ok head clock now limit env st l st' :
  tasks_wf (st_db st) -> loadDueWakeCandidatesTx head clock now limit env st = (Ok l, st') ->
  st_db st' = st_db st
  /\ dw_wake <$> l = wr_indexed <$> due_rows head clock now limit (st_db st)
  /\ forall d, d ∈ l -> validateDurableWakeRelation head d = Ok tt
     /\ row_key (st_record (dw_record d)) = wake_task (dw_wake d)
     /\ exists row, loaded (st_db st) (dw_record d) row.
Proof.
  intros Hwf H. pose proof (ro_dueWakes head clock now limit _ _ _ _ H) as Edb. split; [done|].
  unfold loadDueWakeCandidatesTx in H. minv H.
  { boolp. subst. split; [done|]. intros d Hd. by apply not_elem_of_nil in Hd. }
  match goal with H : loadWorldTaskGraphForWakeTx _ _ _ = _ |- _ => apply graph_or_ok in H as [E Hg] end.
  match goal with H : scan_wake_rows _ = Ok ?s |- _ => destruct (scan_wake_rows_ok _ _ H) as [S1 S2] end.
  rewrite E in *. apply graph_wakes_ok in H as [G1 G2]. split.
  - rewrite G1, scanned_wakes, S1; done.
  - intros d Hd. destruct (G2 d Hd) as [Hrel Ht]. split; [done|].
    by eapply graph_task_loaded in Ht.
Qed.

Lemma wakes_where_elem p less db c : c ∈ wakes_where p less db <-> p c = true /\ exists id, db_wakes db !! id = Some c.
Proof.
  unfold wakes_where. rewrite sort_slice_perm, elem_of_bfilter, list_elem_of_fmap. split.
  - intros (([k c'] & -> & Hin) & Hp). apply elem_of_map_to_list in Hin. eauto.
  - intros (Hp & k & Hk). split; [|done]. exists (k, c). split; [done|]. by apply elem_of_map_to_list.
Qed.
Lemma elem_of_take' {A} n (l : list A) x : x ∈ take n l -> x ∈ l.
Proof. rewrite <- (take_drop n l) at 2. rewrite elem_of_app. auto. Qed.

Lemma due_rows_due head clock now limit db c : c ∈ due_rows head clock now limit db ->
  is_due head clock now c = true /\ exists id, db_wakes db !! id = Some c.
Proof. unfold due_rows. intros H%elem_of_take'. by apply wakes_where_elem in H. Qed.

Lemma is_due_pending head clock now c : is_due head clock now c = true -> w_Status (wr_indexed c) = wakeStatusPending.
Proof. unfold is_due. intros H. boolp. tauto. Qed.

Lemma claim_each_topology claimant l ids db env st ws st' :
  topology (st_db st) -> db_tasks (st_db st) = db ->
  (forall d, d ∈ l -> w_Status (dw_wake d) = wakeStatusPending /\ exists row,
     db !! wake_task (dw_wake d) = Some row /\ wake_fits (co_recordJSON row) (dw_wake d)) ->
  claim_each claimant l ids env st = (Ok ws, st') -> topology (st_db st').
Proof.
  intros Ht Hdb Hl. revert ids st ws st' Ht Hdb. induction l as [|d l IH]; intros ids st ws st' Ht Hdb H.
  { cbn [claim_each] in H. minv H. done. }
  destruct ids as [|i ids]; cbn [claim_each] in H; minv H; [done|].
  destruct (Hl d ltac:(by left)) as (Hs & row & Hrow & Hfit).
  match goal with H : updateWakeCASTx _ _ _ _ = _ |- _ => rename H into Hup end.
  pose proof Hup as Hup'. apply updateWakeCASTx_wakes in Hup' as (_ & _ & T & X & U & E & _).
  eapply IH; [intros d' Hd'; apply Hl; by right| | |eassumption].
  - eapply (topology_wake_step (st_db st) _ _ _ _ _ _ row Ht eq_refl eq_refl Hup Hrow); [|done].
    eapply deliverable_fits; [exact Hfit|by rewrite Hs|done..].
  - by rewrite E.
Qed.

Lemma ClaimDue_topology b clock limit : Topo (ClaimDue b clock limit).
Proof.
  unfold ClaimDue, wake_world. topo_prefix. intros env st ws st' Hwf Ht H. minv H. all: kr_all.
  { eapply topology_same, Ht; congruence. }
  match goal with H : loadDueWakeCandidatesTx _ _ _ _ _ _ = _ |- _ =>
    apply loadDueWakeCandidatesTx_ok in H as (E & Hdue & Hd); [|by eapply tasks_wf_ext] end.
  refine (claim_each_topology _ _ _ _ _ _ _ _ _ eq_refl _ H); [eapply topology_same, Ht; congruence|].
  intros d Hin. destruct (Hd d Hin) as ([_ Hfit]%relation_fits & Hk & row & Hl). split.
  - assert (dw_wake d ∈ dw_wake <$> a9) as Hw by (by apply list_elem_of_fmap_2).
    rewrite Hdue in Hw. apply list_elem_of_fmap in Hw as (c & -> & Hc).
    apply due_rows_due in Hc as [Hc _]. by eapply is_due_pending.
  - destruct (loaded_paired _ _ _ _ Hl Hk) as [Hrow Hrec]. exists row. rewrite Hrec. split; [congruence|done].
Qed.
