(* ===== verification/Rewrites.v ===== *)
(** * Calls that rewrite a task together with its wakes

    [BeginWake], [FinishAttempt], [Reconcile], [ApplyIntent] and [Create] change a
    task row and then its wakes; in between the two disagree on that one task. *)

From S2P Require Export Delivery.

Local Open Scope go_scope.

#[local] Opaque Record_Validate sha256Hex marshalRecord marshalTaskSpec marshalCreateResult
  marshalHistory cloneRecord modelProgressJSON validateTaskMutationCapacity Wake_Validate.

(** ** Agreement on every task but one *)
Definition topo_but (k : AgentSessionKey * string) (db : DB) : Prop :=
  wakes_ok db /\ paired_on (fun j => j <> k) db.

Lemma topo_but_row db k row db' :
  topology db -> db_tasks db' = <[k := row]> (db_tasks db) -> db_wakes db' = db_wakes db -> topo_but k db'.
Proof.
  intros [Hw Hp] E1 E2. split; [by eapply wakes_ok_same|].
  eapply (paired_row_outside db); [|exact E1|exact E2|by intros []].
  by eapply paired_weaken, Hp.
Qed.

Lemma topo_but_row_again db k row db' :
  topo_but k db -> db_tasks db' = <[k := row]> (db_tasks db) -> db_wakes db' = db_wakes db -> topo_but k db'.
Proof.
  intros [Hw Hp] E1 E2. split; [by eapply wakes_ok_same|].
  eapply (paired_row_outside db); [exact Hp|exact E1|exact E2|by intros []].
Qed.

Lemma topo_but_same k db db' :
  db_tasks db' = db_tasks db -> db_wakes db' = db_wakes db -> topo_but k db -> topo_but k db'.
Proof. intros E1 E2 [Hw Hp]. split; [by eapply wakes_ok_same|by eapply paired_same]. Qed.

Lemma topo_but_wake k db db' id c :
  topo_but k db -> db_tasks db' = db_tasks db -> db_wakes db' = <[id := c]> (db_wakes db) ->
  wake_task (wr_indexed c) = k -> w_ID (wr_indexed c) = id -> wr_json c = wr_indexed c ->
  Wake_Validate (wr_indexed c) = Ok tt -> no_other id (wake_conflict c) (db_wakes db) = true ->
  (forall c0, db_wakes db !! id = Some c0 -> wake_task (wr_indexed c0) = k) -> topo_but k db'.
Proof.
  intros [Hw Hp] E1 E2 Ht Hid Hj Hv Hno Hold. split; [by eapply (wakes_ok_put db)|].
  eapply (paired_wake_outside db); [exact Hp|exact E1|exact E2|intros Hn; by apply Hn|].
  intros c0 Hc0. rewrite (Hold _ Hc0). done.
Qed.

(** The two sides agree again. *)
Lemma topo_but_close k db row :
  topo_but k db -> db_tasks db !! k = Some row ->
  (forall id c, db_wakes db !! id = Some c -> wake_task (wr_indexed c) = k ->
     wake_fits (co_recordJSON row) (wr_indexed c) /\ wr_clockID c = sp_ClockID (r_Spec (co_recordJSON row))) ->
  (r_State (co_recordJSON row) = StateWaiting -> has_wake (db_wakes db) k) ->
  topology db.
Proof.
  intros [Hw Hp] Hrow Hfit Hwait. split; [done|]. eapply paired_close; [exact Hp| |].
  - intros id c Hc Hk. exists row. rewrite Hk. split; [done|]. by eapply Hfit.
  - intros r Hr. assert (r = row) as -> by congruence. done.
Qed.

(** ** The other wakes of a task are spent *)
Lemma other_wakes_consumed db id c id' c' :
  topology db -> db_wakes db !! id = Some c -> executableStatus (w_Status (wr_indexed c)) = true ->
  db_wakes db !! id' = Some c' -> wake_task (wr_indexed c') = wake_task (wr_indexed c) -> id' <> id ->
  w_Status (wr_indexed c') = wakeStatusConsumed.
Proof.
  intros [Hw Hp] Hc He Hc' Ht Hne. destruct (pr_wakes _ _ Hp id' c' Hc' I) as (row & _ & (_ & _ & Hs) & _).
  destruct (w_Status (wr_indexed c')) eqn:E; try done.
  all: exfalso; apply Hne; eapply (wk_unique _ Hw); try done; by rewrite E.
Qed.

(** A spent wake fits every later version of its task. *)
Lemma consumed_fits r r' w w' :
  wake_fits r w -> same_identity r r' -> w_Status w' = wakeStatusConsumed ->
  wake_task w' = wake_task w -> w_DueTick w' = w_DueTick w -> wake_fits r' w'.
Proof.
  intros (H1 & H2 & _) [I1 I2 I3 I4 I5] Hs Ht Hd. unfold wake_fits, row_key in *.
  rewrite Hs, Ht, Hd, I1, I2, I3. done.
Qed.

(** A running wake fits the next revision of a task that still runs. *)
Lemma running_fits r r' w :
  wake_fits r w -> same_identity r r' -> (r_Revision r <= r_Revision r')%N -> w_Status w = wakeStatusRunning ->
  r_State r' = StateRunning -> r_Result r' = None -> r_NextWakeAt r' = None -> wake_fits r' w.
Proof.
  intros (H1 & H2 & H3) [I1 I2 I3 I4 I5] Hrev Hs S1 S2 S3. unfold wake_fits, row_key in *.
  rewrite Hs, I1, I2, I3 in *. split_and!; try done. unfold wake_runs in *.
  rewrite S1, S2, S3, !bool_decide_true by done. boolp. simpl. apply N.ltb_lt. lia.
Qed.

(** The row behind a paired wake. *)
Lemma paired_row db t row id c :
  topology db -> loaded db t row -> db_wakes db !! id = Some c -> wake_task (wr_indexed c) = row_key (st_record t) ->
  wake_fits (st_record t) (wr_indexed c) /\ wr_clockID c = sp_ClockID (r_Spec (st_record t)).
Proof.
  intros [_ Hp] [Hr Hrec _ _] Hc Ht. destruct (pr_wakes _ _ Hp id c Hc I) as (r0 & Hr0 & Hf & Hck).
  rewrite Ht in Hr0. assert (r0 = row) as -> by congruence. by rewrite <- Hrec.
Qed.

(** ** Starting a run *)
Lemma begin_step db d row guard p env st u st1 u' st2 :
  tasks_wf db -> topology db -> st_db st = db ->
  loaded db (dw_record d) row -> row_key (st_record (dw_record d)) = wake_task (dw_wake d) ->
  wake_fits (st_record (dw_record d)) (dw_wake d) -> w_Status (dw_wake d) = wakeStatusEnqueued ->
  update_row (st_record (dw_record d)) guard (set_row_state None p) env st = (Ok u, st1) ->
  updateWakeCASTx d (set_w_Status wakeStatusRunning (dw_wake d)) env st1 = (Ok u', st2) ->
  p = set_NextWakeAt None (set_Revision (r_Revision (st_record (dw_record d)) + 1)
           (set_State StateRunning (st_record (dw_record d)))) ->
  topology (st_db st2).
Proof.
  intros Hwf Ht Hdb Hl Hk Hfit Hs Hup Hcas Hp. subst db.
  destruct (update_row_ok _ _ _ _ _ _ _ (tasks_wf_keyed _ Hwf) Hup) as (c & Hc & _ & _ & _ & E1).
  assert (c = row) as -> by (destruct Hl; congruence).
  apply updateWakeCASTx_wakes in Hcas as (Hv & Hid & Htask & _ & _ & E2 & c & Hcw & Hci & Hno & E3).
  rewrite E1 in E2, E3, Hcw, Hno. cbn [with_tasks db_tasks db_wakes] in *. rewrite Hk in *. rewrite Hid in Hcw, Hno, E3.
  assert (topo_but (wake_task (dw_wake d)) (st_db st1)) as Hbut
    by (eapply (topo_but_row (st_db st)); [done|by rewrite E1..]).
  assert (topo_but (wake_task (dw_wake d)) (st_db st2)) as Hbut2.
  { eapply topo_but_wake; [exact Hbut|by rewrite E2, E1|by rewrite E3, E1|done..|by rewrite E1|].
    intros c0. rewrite E1. cbn [with_tasks db_wakes]. intros Hc0. assert (c0 = c) as -> by congruence. by rewrite Hci. }
  eapply topo_but_close; [exact Hbut2|by rewrite E2; apply lookup_insert_eq| |by subst p].
  intros id c0. rewrite E3. cbn [set_row_state co_recordJSON].
  assert (same_identity (st_record (dw_record d)) p) as Hsame by (subst p; done).
  rewrite (si_spec _ _ Hsame). destruct (decide (id = w_ID (dw_wake d))) as [->|Hne].
  - rewrite lookup_insert_eq. intros [= <-] _. cbn [wr_indexed wr_clockID].
    destruct (paired_row _ _ _ _ c Ht Hl Hcw) as [_ Hck]; [by rewrite Hci|]. split; [|done].
    assert (r_Result (st_record (dw_record d)) = None /\ r_Revision (st_record (dw_record d)) = w_ExpectedRevision (dw_wake d))
      as [Hres Hrev].
    { destruct Hfit as (_ & _ & Hf). rewrite Hs in Hf. unfold wake_waits_for in Hf. boolp.
      destruct Hf as [Hf He]. split; [tauto|by apply N.eqb_eq]. }
    subst p. destruct Hfit as (F1 & F2 & _). unfold wake_fits, wake_runs. simpl. rewrite Hres. split_and!; [done|done|].
    rewrite !bool_decide_true by done. simpl. apply N.ltb_lt. lia.
  - rewrite lookup_insert_ne by done. intros Hc0 Hk0.
    destruct (paired_row _ _ _ _ c0 Ht Hl Hc0) as [Hf Hck]; [by rewrite Hk0|]. split; [|done].
    eapply consumed_fits; [exact Hf|done| |done..].
    eapply (other_wakes_consumed _ (w_ID (dw_wake d)) c); try done; rewrite Hci; [by rewrite Hs|done].
Qed.

Lemma BeginWake_topology b w c : Topo (BeginWake b w c).
Proof.
  unfold BeginWake, wake_world. do 2 (apply topo_pre; [apply _|intros ?]).
  apply topo_post; [|intros [? ?]; apply _]. apply topo_tx.
  intros env st [x y] st' Hwf Ht H. minv H. kr_all.
  match goal with H : prepareBeginMutation _ _ _ = _ |- _ =>
    apply prepareBeginMutation_ok in H as (_ & -> & -> & _) end.
  match goal with H : findStrictWorldWakeTx _ _ _ _ = _ |- _ =>
    apply findStrictWorldWakeTx_ok in H as (E & [_ Hfit]%relation_fits & Hk & (row & Hl) & _);
    [|by eapply tasks_wf_ext] end.
  match goal with H : updateBeginRecordTx _ _ _ _ = _ |- _ => unfold updateBeginRecordTx, marshal_before in H; minv H end.
  match goal with H : update_row _ _ _ _ _ = _, C : updateWakeCASTx _ _ _ _ = _ |- _ =>
    refine (begin_step _ _ row _ _ _ _ _ _ _ _ _ _ E Hl Hk Hfit _ H C eq_refl) end.
  - by eapply tasks_wf_ext.
  - by eapply topology_same.
  - boolp. tauto.
Qed.

(** ** Ending an attempt *)
Lemma attempt_topology_count head d l n : attempt_topology head d l = Ok n -> n = length l.
Proof.
  revert n. induction l as [|c l IH]; intros n H; cbn [attempt_topology] in H; okinv H; [done|].
  simpl. f_equal. by apply IH.
Qed.

(** A consumed wake of a running task: no live wake is left. *)
Lemma requireAttemptWakeTopologyTx_none head d env st u st' id c :
  requireAttemptWakeTopologyTx head d env st = (Ok u, st') -> w_Status (dw_wake d) = wakeStatusConsumed ->
  db_wakes (st_db st) !! id = Some c -> wake_task (wr_indexed c) = wake_task (dw_wake d) ->
  executableStatus (w_Status (wr_indexed c)) = false.
Proof.
  intros H Hs Hc Ht. unfold requireAttemptWakeTopologyTx in H. rewrite Hs in H. minv H.
  match goal with H : attempt_topology _ _ _ = Ok _ |- _ => apply attempt_topology_count in H end.
  cbn [tick st_db] in *. apply negb_false_iff, Nat.eqb_eq in H. subst. 
  apply not_true_iff_false. intros He.
  assert (c ∈ wakes_where (fun c => (wake_task (wr_indexed c) == wake_task (dw_wake d))
                                    && executableStatus (w_Status (wr_indexed c))) by_wake_id (st_db st)) as Hin.
  { apply wakes_where_elem. unfold wake_task. rewrite He, andb_true_r, bool_decide_true by congruence. eauto. }
  unfold executable_wakes in *. destruct (wakes_where _ _ _); [by apply not_elem_of_nil in Hin|done].
Qed.

Lemma attempt_step db d row p pause env st u st1 :
  tasks_wf db -> topology db -> st_db st = db ->
  loaded db (dw_record d) row -> row_key (st_record (dw_record d)) = wake_task (dw_wake d) ->
  updateAttemptRecordTx (st_record (dw_record d)) p env st = (Ok u, st1) ->
  same_identity (st_record (dw_record d)) p -> (r_Revision (st_record (dw_record d)) <= r_Revision p)%N ->
  r_State (st_record (dw_record d)) = StateRunning ->
  r_State p = (if pause : bool then StatePaused else r_State (st_record (dw_record d))) ->
  r_Result p = None -> r_NextWakeAt p = None ->
  topo_but (row_key (st_record (dw_record d))) (st_db st1)
  /\ st_db st1 = with_tasks (<[row_key (st_record (dw_record d)) := set_row_state (r_NextWakeAt p) p row]> (db_tasks db)) db
  /\ forall id c, db_wakes db !! id = Some c -> wake_task (wr_indexed c) = wake_task (dw_wake d) ->
     wr_clockID c = sp_ClockID (r_Spec p) /\
     (w_Status (wr_indexed c) = wakeStatusConsumed \/ (w_Status (wr_indexed c) = wakeStatusRunning /\ pause = false) ->
       wake_fits p (wr_indexed c)).
Proof.
  intros Hwf Ht Hdb Hl Hk Hup Hid Hrev Hs Hsp Hres Hnext. subst db.
  unfold updateAttemptRecordTx, marshal_before in Hup. minv Hup.
  destruct (update_row_ok _ _ _ _ _ _ _ (tasks_wf_keyed _ Hwf) Hup) as (c & Hc & _ & _ & _ & E1).
  assert (c = row) as -> by (destruct Hl; congruence).
  split_and!; [by eapply (topo_but_row (st_db st)); [done|by rewrite E1..]|done|].
  intros id c0 Hc0 Hk0. destruct (paired_row _ _ _ _ c0 Ht Hl Hc0) as [Hf Hck]; [congruence|].
  rewrite (si_spec _ _ Hid). split; [done|]. intros [Hst|[Hst ->]].
  - by eapply consumed_fits.
  - eapply running_fits; try done. congruence.
Qed.

(** The statuses of a task's wakes, given the one that was found. *)
Lemma found_wake_statuses db id wrow id' c :
  topology db -> db_wakes db !! id = Some wrow -> executableStatus (w_Status (wr_indexed wrow)) = true ->
  db_wakes db !! id' = Some c -> wake_task (wr_indexed c) = wake_task (wr_indexed wrow) ->
  w_Status (wr_indexed c) = wakeStatusConsumed \/ c = wrow.
Proof.
  intros Ht Hw He Hc Hk. destruct (decide (id' = id)) as [->|Hne]; [right; congruence|left].
  by eapply (other_wakes_consumed _ id wrow).
Qed.

Lemma spent_wake_status db id c :
  topology db -> db_wakes db !! id = Some c -> executableStatus (w_Status (wr_indexed c)) = false ->
  w_Status (wr_indexed c) = wakeStatusConsumed.
Proof.
  intros [_ Hp] Hc He. destruct (pr_wakes _ _ Hp id c Hc I) as (row & _ & (_ & _ & Hs) & _).
  by destruct (w_Status (wr_indexed c)).
Qed.

(** The pause of an attempt spends the wake it ran under. *)
Lemma attempt_paused db d row p env st1 u st2 wrow :
  topology db -> loaded db (dw_record d) row -> row_key (st_record (dw_record d)) = wake_task (dw_wake d) ->
  db_wakes db !! w_ID (dw_wake d) = Some wrow -> wr_indexed wrow = dw_wake d ->
  w_Status (dw_wake d) = wakeStatusRunning -> same_identity (st_record (dw_record d)) p ->
  r_State p <> StateWaiting ->
  topo_but (row_key (st_record (dw_record d))) (st_db st1) ->
  st_db st1 = with_tasks (<[row_key (st_record (dw_record d)) := set_row_state (r_NextWakeAt p) p row]> (db_tasks db)) db ->
  updateWakeCASTx d (consumed_wake (dw_wake d)) env st1 = (Ok u, st2) ->
  topology (st_db st2).
Proof.
  intros Ht Hl Hk Hw Hwi Hs Hid Hns Hbut E1 Hcas.
  apply updateWakeCASTx_wakes in Hcas as (Hv & _ & Htask & _ & _ & E2 & c & Hcw & Hci & Hno & E3).
  change (w_ID (consumed_wake (dw_wake d))) with (w_ID (dw_wake d)) in *.
  assert (topo_but (row_key (st_record (dw_record d))) (st_db st2)) as Hbut2.
  { eapply topo_but_wake; [exact Hbut|exact E2|exact E3|by rewrite Hk|done..|exact Hno|].
    intros c0 Hc0. assert (c0 = c) as -> by congruence. by rewrite Hci. }
  rewrite E1 in E2, E3, Hcw. cbn [with_tasks db_tasks db_wakes] in E2, E3, Hcw.
  eapply topo_but_close; [exact Hbut2|by rewrite E2; apply lookup_insert_eq| |by intros Hc; destruct Hns].
  intros id c0. rewrite E3. cbn [set_row_state co_recordJSON]. rewrite (si_spec _ _ Hid).
  assert (c = wrow) as -> by congruence.
  destruct (decide (id = w_ID (dw_wake d))) as [->|Hne].
  - rewrite lookup_insert_eq. intros [= <-] _. cbn [wr_indexed wr_clockID].
    destruct (paired_row _ _ _ _ wrow Ht Hl Hw) as [Hf Hck]; [congruence|]. split; [|done].
    by eapply consumed_fits; [exact Hf|done|done|rewrite Hwi..].
  - rewrite lookup_insert_ne by done. intros Hc0 Hk0.
    destruct (paired_row _ _ _ _ c0 Ht Hl Hc0) as [Hf Hck]; [done|]. split; [|done].
    eapply consumed_fits; [exact Hf|done| |done..].
    eapply (other_wakes_consumed _ (w_ID (dw_wake d)) wrow); try done; rewrite Hwi; [by rewrite Hs|congruence].
Qed.

(** The rows after the record of an attempt was written, before and after the wake. *)
Lemma attempt_tail st0 head d wid env st a st1 p pause u st3 :
  tasks_wf (st_db st0) -> topology (st_db st0) ->
  findStrictWorldWakeTx head wid env st0 = (Ok d, st) ->
  requireAttemptWakeTopologyTx head d env st = (Ok a, st1) ->
  updateAttemptRecordTx (st_record (dw_record d)) p env st1 = (Ok u, st3) ->
  r_State (st_record (dw_record d)) = StateRunning -> r_Result (st_record (dw_record d)) = None ->
  r_NextWakeAt (st_record (dw_record d)) = None ->
  w_Status (dw_wake d) = wakeStatusRunning \/ w_Status (dw_wake d) = wakeStatusConsumed ->
  same_identity (st_record (dw_record d)) p ->
  r_Revision p = (r_Revision (st_record (dw_record d)) + 1)%N ->
  r_State p = (if pause : bool then StatePaused else r_State (st_record (dw_record d))) ->
  r_NextWakeAt p = r_NextWakeAt (st_record (dw_record d)) -> r_Result p = r_Result (st_record (dw_record d)) ->
  if pause && (w_Status (dw_wake d) == wakeStatusRunning)
  then forall u st4, updateWakeCASTx d (consumed_wake (dw_wake d)) env st3 = (Ok u, st4) -> topology (st_db st4)
  else topology (st_db st3).
Proof.
  intros Hwf0 Ht0 Hfind Hreq Hup S1 S2 S3 Hst Hid Hrev S4 K1 K5. pose proof (read_only _ _ _ _ Hreq) as E1.
  apply findStrictWorldWakeTx_ok in Hfind as (E & _ & Hk & (row & Hl) & wrow & Hw & Hscan); [|done].
  apply scanAdmissionWakeRow_ok in Hscan as (Hwi & _ & _).
  assert (w_ID (dw_wake d) = wid) as Hwid by (rewrite Hwi; apply (wk_row _ (tp_wakes _ Ht0) _ _ Hw)).
  rewrite <- Hwid in Hw.
  edestruct (attempt_step (st_db st0) d row p pause) as (Hbut & E3 & Hfits);
    [done|done|by etrans|done|done|exact Hup|done|lia|done|done|congruence|congruence|].
  destruct (pause && _) eqn:Hb.
  - intros u' st4 Hcas. boolp. destruct Hb as [-> Hrun].
    eapply (attempt_paused (st_db st0)); [done|exact Hl|done|exact Hw|done|done|exact Hid|by rewrite S4|exact Hbut|exact E3|exact Hcas].
  - eapply topo_but_close; [exact Hbut|by rewrite E3; apply lookup_insert_eq| |].
    + intros id c. rewrite E3. cbn [with_tasks db_wakes set_row_state co_recordJSON]. intros Hc Hkc.
      rewrite Hk in Hkc. destruct (Hfits id c Hc Hkc) as [Hck Hf]. split; [|done]. apply Hf.
      destruct Hst as [Hst|Hst].
      * destruct (found_wake_statuses _ _ wrow id c Ht0 Hw) as [Hs| ->]; [by rewrite <- Hwi, Hst|done|congruence|by left|].
        right. rewrite <- Hwi, Hst. split; [done|]. rewrite Hst, bool_decide_true, andb_true_r in Hb; done.
      * left. eapply spent_wake_status; [exact Ht0|exact Hc|].
        eapply requireAttemptWakeTopologyTx_none; [exact Hreq|done|by rewrite E|done].
    + simpl. rewrite S4, S1. by destruct pause.
Qed.

Lemma FinishAttempt_topology exec o : Topo (FinishAttempt exec o).
Proof.
  unfold FinishAttempt. topo_prefix. intros env st x st' Hwf Ht H. unfold finish_attempt_tx in H.
  apply M_bind_ok in H as (head & st0 & Hh & H). destruct (kr_loadHead _ _ _ _ _ Hh) as [Ert Erw].
  assert (tasks_wf (st_db st0)) as Hwf0 by (by eapply tasks_wf_ext).
  assert (topology (st_db st0)) as Ht0 by (by eapply topology_same).
  clear Ert Erw Hwf Ht Hh st. minv H.
  all: match goal with H : prepareReconcileMutation _ _ _ _ = _ |- _ =>
    apply prepareReconcileMutation_ok in H as (-> & -> & _) end.
  all: match goal with H : applyAttemptOutcome _ _ = Ok _ |- _ =>
    apply applyAttemptOutcome_shape in H as (_ & _ & Hid & Hnext & Hs & Hk) end.
  all: injection Hk as K1 K2 K3 K4 K5 K6.
  all: match goal with H : attempt_admissible _ _ _ = Ok _ |- _ => unfold attempt_admissible in H; okinv H end.
  all: match goal with F : findStrictWorldWakeTx _ _ _ _ = (Ok ?d, _), R : requireAttemptWakeTopologyTx _ _ _ _ = _,
      U : updateAttemptRecordTx _ _ _ _ = _, B : ?p && _ = _, W : tasks_wf _, T : topology _ |- _ =>
    let X := fresh in
    assert (w_Status (dw_wake d) = wakeStatusRunning \/ w_Status (dw_wake d) = wakeStatusConsumed) as X
      by (destruct (w_Status (dw_wake d)) eqn:?; boolp; naive_solver);
    boolp; destruct Hg3 as [[[S1 S2] S3] _];
    pose proof (attempt_tail _ _ _ _ _ _ _ _ _ p _ _ W T F R U S1 S2 S3 X Hid Hnext Hs K1 K5) as Htail;
    destruct (p && _) eqn:Hp; boolp end.
  1, 4: eauto.
  all: exfalso; naive_solver.
Qed.

(** ** Spending the wakes of a task *)
#[local] Transparent Wake_Validate.
Lemma Wake_Validate_status w : Wake_Validate w = Ok tt ->
  executableStatus (w_Status w) = true \/ w_Status w = wakeStatusConsumed.
Proof. unfold Wake_Validate. intros H. okinv H. destruct (w_Status w); auto; discriminate H. Qed.

Lemma Wake_Validate_consumed w : Wake_Validate w = Ok tt -> Wake_Validate (consumed_wake w) = Ok tt.
Proof.
  unfold Wake_Validate. intros H. okinv H. cbn [consumed_wake wake_with w_ID w_TaskID w_Reason w_ClaimID w_ClaimedBy
    w_Owner w_ExpectedRevision w_Generation w_DueTick w_Attempt w_RetryAfterUnixMS w_Status].
  rewrite Hg. cbn [fail_if mbind outcome_bind]. rewrite Hv, Hv0, Hv1. cbn [mbind outcome_bind].
  apply orb_false_iff in Hg0 as [Hg0 _]. rewrite Hg0. cbn [orb Z.ltb Z.compare fail_if mbind outcome_bind Z.eqb negb].
  rewrite orb_false_r. apply fail_if_ok, negb_false_iff, eqb_true_iff.
  by destruct (w_ClaimID w != ""), (w_ClaimedBy w != ""), (w_Status w).
Qed.
#[local] Opaque Wake_Validate.

Lemma consume_wake_ok w env st u st' c :
  consume_wake w env st = (Ok u, st') -> wakes_ok (st_db st) ->
  db_wakes (st_db st) !! w_ID w = Some c -> wr_indexed c = w ->
  let c' := {| wr_indexed := consumed_wake w; wr_clockID := wr_clockID c; wr_json := consumed_wake w |} in
  no_other (w_ID w) (wake_conflict c') (db_wakes (st_db st)) = true
  /\ db_tasks (st_db st') = db_tasks (st_db st)
  /\ db_wakes (st_db st') = <[w_ID w := c']> (db_wakes (st_db st)).
Proof.
  intros H Hw Hc <-. unfold consume_wake in H. minv H.
  match goal with H : update_wake _ _ _ _ _ = _ |- _ =>
    apply update_wake_one in H as (c0 & Hc0 & Hg & (_ & Hno & _ & Hdb)%put_wake_ok) end.
  assert (c0 = c) as -> by congruence. rewrite Hdb. done.
Qed.

Lemma unconsumed_single db k r : wakes_ok db -> row_key r = k ->
  match unconsumed_wakes r db with
  | [] => forall id c, db_wakes db !! id = Some c -> wake_task (wr_indexed c) = k ->
            w_Status (wr_indexed c) = wakeStatusConsumed
  | [c] => exists id, db_wakes db !! id = Some c /\ wake_task (wr_indexed c) = k
           /\ forall id' c', db_wakes db !! id' = Some c' -> wake_task (wr_indexed c') = k ->
                w_Status (wr_indexed c') = wakeStatusConsumed \/ id' = id
  | _ => False
  end.
Proof.
  intros Hw Hk. unfold unconsumed_wakes. set (p := fun c => _).
  assert (forall c, c ∈ wakes_where p by_wake_id db <-> (wake_task (wr_indexed c) = k
    /\ w_Status (wr_indexed c) <> wakeStatusConsumed) /\ exists id, db_wakes db !! id = Some c) as Hin.
  { intros c. rewrite wakes_where_elem. unfold p. rewrite andb_true_iff, negb_true_iff, bool_decide_eq_true,
      bool_decide_eq_false, Hk. done. }
  assert (forall id c, db_wakes db !! id = Some c -> w_Status (wr_indexed c) <> wakeStatusConsumed ->
    executableStatus (w_Status (wr_indexed c)) = true) as Hex.
  { intros id c Hc Hs. destruct (wk_row _ Hw id c Hc) as (_ & _ & Hv). by destruct (Wake_Validate_status _ Hv). }
  assert (NoDup (wakes_where p by_wake_id db)) as Hnd.
  { unfold wakes_where. rewrite sort_slice_perm. apply (NoDup_fmap_1 (fun c => w_ID (wr_indexed c))).
    apply NoDup_bfilter. rewrite <- list_fmap_compose.
    assert (((fun c => w_ID (wr_indexed c)) ∘ snd) <$> map_to_list (db_wakes db) = (map_to_list (db_wakes db)).*1) as ->;
      [|apply NoDup_fst_map_to_list].
    apply list_fmap_ext. intros i [id c] Hi. simpl.
    apply (wk_row _ Hw). apply elem_of_map_to_list. by eapply list_elem_of_lookup_2. }
  destruct (wakes_where p by_wake_id db) as [|c1 [|c2 l]] eqn:Hl; cbn [take firstn].
  - intros id c Hc Hkc. destruct (decide (w_Status (wr_indexed c) = wakeStatusConsumed)) as [|Hne]; [done|].
    exfalso. assert (c ∈ []) as Hn by (apply Hin; eauto). by apply not_elem_of_nil in Hn.
  - destruct (proj1 (Hin c1) ltac:(by left)) as ((Hk1 & Hs1) & id1 & Hid1). exists id1. split_and!; [done..|].
    intros id c Hc Hkc. destruct (decide (w_Status (wr_indexed c) = wakeStatusConsumed)) as [|Hne]; [by left|right].
    assert (c ∈ [c1]) as ->%list_elem_of_singleton by (apply Hin; eauto).
    eapply (wk_unique _ Hw); eauto.
  - destruct (proj1 (Hin c1) ltac:(by left)) as ((Hk1 & Hs1) & id1 & Hid1).
    destruct (proj1 (Hin c2) ltac:(by right; left)) as ((Hk2 & Hs2) & id2 & Hid2).
    assert (id1 = id2) as -> by (eapply (wk_unique _ Hw); eauto; congruence).
    apply NoDup_cons in Hnd as [Hnd _]. apply Hnd.
    assert (c1 = c2) as -> by congruence. by left.
Qed.

Lemma scan_task_wake_ok head r c w : scan_task_wake head r c = Ok w -> w = wr_indexed c.
Proof.
  unfold scan_task_wake, validateScannedWake, cloneWake. intros H. okinv H.
  case_match; [|done]. simplify_eq. boolp. done.
Qed.

(** What is left of a task's wakes: spent ones, and the one kept running. *)
Lemma consumeWakesTx_ok head r keep env st u st' k :
  row_key r = k -> topo_but k (st_db st) -> consumeWakesTx head r keep env st = (Ok u, st') ->
  topo_but k (st_db st') /\ db_tasks (st_db st') = db_tasks (st_db st)
  /\ forall id c', db_wakes (st_db st') !! id = Some c' -> wake_task (wr_indexed c') = k ->
     exists c, db_wakes (st_db st) !! id = Some c /\ wake_task (wr_indexed c) = k
     /\ w_DueTick (wr_indexed c') = w_DueTick (wr_indexed c) /\ wr_clockID c' = wr_clockID c
     /\ (w_Status (wr_indexed c') = wakeStatusConsumed \/ (c' = c /\ kept_running head keep (wr_indexed c) = true)).
Proof.
  intros <- Hbut H. unfold consumeWakesTx in H. minv H. cbn [tick st_db] in *.
  pose proof (unconsumed_single _ _ r (proj1 Hbut) eq_refl) as Hone.
  destruct (unconsumed_wakes r (st_db st)) as [|c1 [|]] eqn:Hl; [| |done].
  - injection Hr as <-. cbn [consume_all] in H. minv H. cbn [tick st_db]. split_and!; [done..|].
    intros id c Hc Hkc. exists c. split_and!; eauto.
  - cbn [scan_task_wakes] in Hr. apply bind_ok in Hr as (w & Hsc & Hr). injection Hr as <-.
    apply scan_task_wake_ok in Hsc as ->.
    destruct Hone as (id1 & Hid1 & Hk1 & Hothers). cbn [consume_all] in H. minv H; cbn [tick st_db] in *.
    + split_and!; [done..|]. intros id c Hc Hkc. exists c. split_and!; [done..|].
      destruct (Hothers id c Hc Hkc) as [| ->]; [by left|right]. split; [done|]. congruence.
    + destruct (wk_row _ (proj1 Hbut) _ _ Hid1) as (Hw1 & Hj1 & Hv1).
      match goal with H : consume_wake _ _ _ = _ |- _ =>
        apply (consume_wake_ok _ _ _ _ _ c1) in H as (Hno & E1 & E2); [|apply Hbut|by rewrite Hw1|done] end.
      rewrite Hw1 in *. split; [|split; [done|]].
      * eapply topo_but_wake; [exact Hbut|exact E1|exact E2|done|done|done|by apply Wake_Validate_consumed|exact Hno|].
        intros c0 Hc0. by assert (c0 = c1) as -> by congruence.
      * intros id c'. rewrite E2. destruct (decide (id = id1)) as [->|Hne].
        -- rewrite lookup_insert_eq. intros [= <-] _. exists c1. cbn [wr_indexed wr_clockID]. split_and!; try done. by left.
        -- rewrite lookup_insert_ne by done. intros Hc Hkc. exists c'. split_and!; [done..|].
           destruct (Hothers id c' Hc Hkc); [by left|done].
Qed.
