(* ===== verification/Renewal.v ===== *)
(** * Reconciling, intents and creation keep tasks and wakes in agreement *)

From S2P Require Export Rewrites.

Local Open Scope go_scope.

#[local] Opaque Record_Validate sha256Hex marshalRecord marshalTaskSpec marshalCreateResult
  marshalHistory cloneRecord modelProgressJSON validateTaskMutationCapacity Wake_Validate.

(** Every wake row of task [k] fits record [p]. *)
Definition all_fit (k : AgentSessionKey * string) (p : TaskRecord) (wakes : gmap string wakeRow) : Prop :=
  forall id c, wakes !! id = Some c -> wake_task (wr_indexed c) = k ->
    wake_fits p (wr_indexed c) /\ wr_clockID c = sp_ClockID (r_Spec p).

(** After the wakes of a rewritten task were spent, those left fit the new record. *)
Lemma spent_all_fit db t row p head keep st st1 env u :
  topology db -> loaded db t row -> same_identity (st_record t) p -> (r_Revision (st_record t) <= r_Revision p)%N ->
  (keep = true -> r_State p = StateRunning /\ r_Result p = None /\ r_NextWakeAt p = None) ->
  topo_but (row_key (st_record t)) (st_db st) -> db_wakes (st_db st) = db_wakes db ->
  consumeWakesTx head (st_record t) keep env st = (Ok u, st1) ->
  topo_but (row_key (st_record t)) (st_db st1) /\ db_tasks (st_db st1) = db_tasks (st_db st)
  /\ all_fit (row_key (st_record t)) p (db_wakes (st_db st1)).
Proof.
  intros Ht Hl Hid Hrev Hkeep Hbut Hwk H.
  apply (consumeWakesTx_ok _ _ _ _ _ _ _ _ eq_refl Hbut) in H as (H1 & H2 & H3). split_and!; [done..|].
  intros id c' Hc' Hk'. destruct (H3 id c' Hc' Hk') as (c & Hc & Hk & Hd & Hck & Hcase). rewrite Hwk in Hc.
  destruct (paired_row _ _ _ _ c Ht Hl Hc Hk) as [Hf Hck']. rewrite (si_spec _ _ Hid). split; [|congruence].
  destruct Hcase as [Hs|[-> Hkr]].
  - eapply consumed_fits; [exact Hf|done|done|congruence|done].
  - unfold kept_running in Hkr. boolp. destruct Hkr as [[[-> Hs] _] _]. destruct (Hkeep eq_refl) as (S1 & S2 & S3).
    by eapply running_fits.
Qed.

(** The wake a rewritten task waits for next. *)
Lemma insert_new_wake k p w st env u st' :
  topo_but k (st_db st) -> all_fit k p (db_wakes (st_db st)) -> insertWakeTx p w env st = (Ok u, st') ->
  wake_task w = k -> w_Status w = wakeStatusPending ->
  topo_but k (st_db st') /\ db_tasks (st_db st') = db_tasks (st_db st)
  /\ all_fit k p (db_wakes (st_db st')) /\ has_wake (db_wakes (st_db st')) k.
Proof.
  intros Hbut Hfit H Hk Hs. apply insertWakeTx_ok in H as (Hpair & Hnone & Hno & ->).
  apply validateTaskWakePair_ok in Hpair as (_ & Hv & Hpf). cbn [with_wakes db_tasks db_wakes].
  split_and!; [|done| |].
  - eapply topo_but_wake; [exact Hbut|done|reflexivity|done..|exact Hno|]. intros c0 Hc0. congruence.
  - intros id c. destruct (decide (id = w_ID w)) as [->|Hne].
    + rewrite lookup_insert_eq. intros [= <-] _. done.
    + rewrite lookup_insert_ne by done. apply Hfit.
  - exists (w_ID w). eexists. rewrite lookup_insert_eq. split_and!; [done|done|]. simpl. by rewrite Hs.
Qed.

Lemma same_task_key r p : same_identity r p -> (r_Owner p, r_ID p) = row_key r.
Proof. intros []. unfold row_key. congruence. Qed.

(** ** Reconciliation *)
Lemma reconciledRecord_waits r pending resultID r' :
  record_ok r -> reconciledRecord r pending resultID = Ok r' ->
  (r_State r' = StateRunning -> r_Result r' = None /\ r_NextWakeAt r' = None)
  /\ (r_State r' = StateWaiting -> is_Some (r_NextWakeAt r')).
Proof.
  intros _ (_ & s & next & p & res & -> & H)%reconciledRecord_shape. simpl.
  destruct (selectTerminalEvidence pending) as [e|].
  - destruct H as (-> & -> & -> & ->). unfold terminalResultState. by case_bool_decide.
  - destruct H as (-> & H & _). destruct (selectWaitEvidence pending) as [w|] eqn:Hw.
    + destruct H as [-> ->]. split; [done|]. intros _. apply (selectWaitEvidence_some pending w Hw).
    + destruct H as [-> ->]. done.
Qed.

Lemma reconcile_tx_topology exec resultID wakeID : TopoOk (reconcile_tx exec resultID wakeID).
Proof.
  intros env st x st' Hwf Ht H. unfold reconcile_tx in H.
  apply M_bind_ok in H as (head & st0 & Hh & H). destruct (kr_loadHead _ _ _ _ _ Hh) as [Ert Erw].
  assert (tasks_wf (st_db st0)) as Hwf0 by (by eapply tasks_wf_ext).
  assert (topology (st_db st0)) as Ht0 by (by eapply topology_same).
  clear Ert Erw Hwf Ht Hh st. minv H.
  { eapply topology_same, Ht0; kr_all; congruence. }
  match goal with H : loadIntentTaskTx _ _ _ _ = _ |- _ => apply loadIntentTaskTx_ok in H as (E1 & _ & row & Hl); [|done] end.
  match goal with H : graph_or _ _ _ _ = (Ok ?g, _) |- _ => apply graph_or_ok in H as [E2 _] end.
  match goal with H : prepareReconcileMutation _ _ _ _ = _ |- _ =>
    apply prepareReconcileMutation_ok in H as (-> & -> & Hv & Hm) end.
  match goal with H : reconciledRecord (st_record ?t) _ _ = Ok ?p, T : taskStateTerminal _ = false,
      U : updateReconcileRecordTx _ _ _ _ = _, C : consumeWakesTx _ _ _ _ _ = _ |- _ =>
    pose proof (reconciledRecord_evolves _ _ _ _ T H) as Hev;
    destruct (reconciledRecord_waits _ _ _ _ (loaded_ok _ _ _ Hl) H) as [Hrun Hwait];
    destruct (reconcile_row_effect _ _ _ _ _ _ _ _ _ Hwf0 Hl (eq_trans E2 E1) U T H Hv Hm) as [_ Hdb];
    edestruct (spent_all_fit (st_db st0) t row p) as (Hbut & E3 & Hfit); [done|exact Hl|apply Hev|apply Hev| | | |exact C|] end.
  - intros Hk. boolp. destruct Hk as [[Hk _] _]. destruct (Hrun Hk). done.
  - eapply (topo_but_row (st_db st0)); [done|by rewrite Hdb..].
  - by rewrite Hdb.
  - rewrite Hdb in E3. cbn [with_tasks db_tasks] in E3.
    match goal with |- topology (st_db ?s) => assert (topo_but (row_key (st_record a0)) (st_db s)
      /\ db_tasks (st_db s) = db_tasks (st_db st4) /\ all_fit (row_key (st_record a0)) a6 (db_wakes (st_db s))
      /\ (r_State a6 = StateWaiting -> has_wake (db_wakes (st_db s)) (row_key (st_record a0)))) as (B1 & B2 & B3 & B4) end.
    { destruct (r_State a6) eqn:Hs; try by (minv Hr11; split_and!).
      destruct (Hwait eq_refl) as [next Hnext]. rewrite Hnext in Hr11. minv Hr11. cbn [tick st_db] in *.
      match goal with H : insertWakeTx _ _ _ ?s = _ |- _ =>
        destruct (insert_new_wake _ _ _ s _ _ _ Hbut Hfit H (same_task_key _ _ (ev_identity _ _ Hev)) eq_refl)
          as (? & ? & ? & ?) end. done. }
    eapply topo_but_close; [exact B1|rewrite B2, E3; apply lookup_insert_eq|exact B3|exact B4].
Qed.

Lemma Reconcile_topology exec : Topo (Reconcile exec).
Proof. unfold Reconcile. topo_prefix. apply reconcile_tx_topology. Qed.

(** ** Intents *)
Lemma intent_effect_waits q r : intent_effect_related q r r = true ->
  match in_Kind (iq_Intent q) with
  | IntentWait => r_State r = StateWaiting /\ is_Some (r_NextWakeAt r)
  | _ => r_State r = StateCancelled
  end.
Proof.
  unfold intent_effect_related. destruct (in_Kind (iq_Intent q)); intros H; [| |done].
  - rewrite !andb_true_iff in H. boolp. rewrite <- not_eq_None_Some. tauto.
  - destruct (r_Result r); [|done]. rewrite !andb_true_iff in H. boolp. tauto.
Qed.

(** The three wake steps of an intent, from its first row write to its second. *)
Lemma intent_rows_fit db t row p head q st st1 st2 wakeID generation env u u' :
  topology db -> loaded db t row -> intent_applied q (st_record t) p ->
  topo_but (row_key (st_record t)) (st_db st) -> db_wakes (st_db st) = db_wakes db ->
  consumeWakesTx head (st_record t) false env st = (Ok u, st1) ->
  match in_Kind (iq_Intent q), r_NextWakeAt p with
  | IntentWait, Some next =>
    _ ← insertWakeTx p (new_wake wakeID (r_ID p) (r_Owner p) (r_Revision p) next wakeReasonIntentWait generation);
    ctx_err
  | _, _ => mret tt
  end env (tick st1) = (Ok u', st2) ->
  topo_but (row_key (st_record t)) (st_db st2) /\ db_tasks (st_db st2) = db_tasks (st_db st)
  /\ all_fit (row_key (st_record t)) p (db_wakes (st_db st2))
  /\ (r_State p = StateWaiting -> has_wake (db_wakes (st_db st2)) (row_key (st_record t))).
Proof.
  intros Ht Hl Hia Hbut Hwk Hc Hins. pose proof (ia_revision _ _ _ Hia).
  destruct (spent_all_fit db t row p head false _ _ _ _ Ht Hl (ia_identity _ _ _ Hia) ltac:(lia) ltac:(done) Hbut Hwk Hc)
    as (B1 & E1 & B2). pose proof (intent_effect_waits _ _ (ia_effect _ _ _ Hia)) as Hw.
  destruct (in_Kind (iq_Intent q)).
  - destruct Hw as [Hs [next Hnext]]. rewrite Hnext in Hins. minv Hins. cbn [tick st_db] in *.
    match goal with H : insertWakeTx _ _ _ ?s = _ |- _ =>
      destruct (insert_new_wake _ _ _ s _ _ _ B1 B2 H (same_task_key _ _ (ia_identity _ _ _ Hia)) eq_refl)
        as (C1 & C2 & C3 & C4) end.
    cbn [tick st_db] in C2. split_and!; [done|congruence|done|done].
  - minv Hins. cbn [tick st_db]. split_and!; [done..|intros; congruence].
  - minv Hins. cbn [tick st_db]. split_and!; [done..|intros; congruence].
Qed.

Lemma topo_newID {B} p (f : string -> M B) :
  (forall nano counter, Topo (f (idgen_New p nano counter))) -> Topo (newID p ≫= f).
Proof.
  intros Hf env st o st' Hwf Ht H. unfold mbind, M_bind, newID in H.
  exact (Hf _ _ env (tick st) o st' Hwf Ht H).
Qed.

Lemma ApplyIntent_topology exec intent : Topo (ApplyIntent exec intent).
Proof.
  unfold ApplyIntent. apply topo_pre; [apply _|intros ?]. apply topo_lift. intros [] Hin. apply topo_lift.
  intros request Hreq. apply prepareIntentRequest_ok in Hreq as (Hcq & Hvq & _).
  apply topo_newID. intros nano counter. topo_prefix.
  intros env st x st' Hwf Ht H. unfold apply_intent_tx in H.
  apply M_bind_ok in H as (head & st0 & Hh & H). destruct (kr_loadHead _ _ _ _ _ Hh) as [Ert Erw].
  assert (tasks_wf (st_db st0)) as Hwf0 by (by eapply tasks_wf_ext).
  assert (topology (st_db st0)) as Ht0 by (by eapply topology_same).
  clear Ert Erw Hwf Ht Hh st. minv H.
  match goal with H : loadExactIntentTx _ _ _ ?s = (Ok ?e, ?s') |- _ => 
    pose proof (read_only _ _ _ _ H) as E1; destruct e as [response|] end; minv H.
  { by rewrite E1. }
  match goal with H : loadIntentTaskTx _ _ _ _ = _ |- _ =>
    apply loadIntentTaskTx_ok in H as (E2 & _ & row & Hl); [|by rewrite E1] end.
  match goal with H : prepareIntentMutation _ _ _ _ _ _ = _ |- _ =>
    apply prepareIntentMutation_ok in H as (-> & Hv & text & Hm & ->) end.
  match goal with H : intent_record _ _ _ _ = Ok _ |- _ =>
    pose proof (intent_record_applied _ _ _ _ _ (result_id_prefix nano counter) (intentRequest_source _ Hvq) H) as Hia end.
  match goal with H : intent_admissible _ _ = Ok _ |- _ => unfold intent_admissible in H; okinv H end.
  rewrite E1 in Hl. match goal with U : updateIntentRecordTx _ _ _ _ = _ |- _ =>
    destruct (intent_row_effect _ a2 row (pi_request request) a4 _ _ _ _ Hwf0 Hl
      (eq_trans E2 E1) U) as [He Hdb]; [done|done|done|done|by eauto|] end.
  edestruct (intent_rows_fit (st_db st0) a2 row a4 head (pi_request request)) as (B1 & E3 & B2 & B3);
    [done|exact Hl|exact Hia| | |eassumption|eassumption|].
  - by eapply (topo_but_row (st_db st0)); [done|by rewrite Hdb..].
  - by rewrite Hdb.
  - match goal with S : storeIntentHistoryTx _ _ _ _ _ = _ |- _ => unfold storeIntentHistoryTx in S; minv S end.
    match goal with S : update_row _ _ _ _ ?s = _ |- _ =>
      assert (tasks_wf (st_db s)) as Hwf5 by (eapply tasks_wf_ext; [exact E3|apply He]);
      destruct (update_row_ok _ _ _ _ _ _ _ (tasks_wf_keyed _ Hwf5) S) as (c & Hc & _ & _ & _ & Hdb') end.
    rewrite E3, Hdb in Hc. cbn [with_tasks db_tasks] in Hc. rewrite lookup_insert_eq in Hc. injection Hc as <-.
    eapply topo_but_close.
    + eapply topo_but_row_again; [exact B1|by rewrite Hdb'..].
    + rewrite Hdb'. apply lookup_insert_eq.
    + rewrite Hdb'. exact B2.
    + rewrite Hdb'. exact B3.
Qed.

(** ** Creation *)
Lemma created_topology limit r w p created env st u st' :
  topology (st_db st) -> prepare_create limit r w = Ok (p, created) -> w_Status w = wakeStatusPending ->
  insertTaskAndWakeTx p env st = (Ok u, st') -> topology (st_db st').
Proof.
  intros Ht Hp Hs H. apply prepare_create_ok in Hp as (<- & <- & Hpair & _).
  apply insertTaskAndWakeTx_ok in H as (_ & Hn & _ & Hwn & Hwc & ->).
  apply validateTaskWakePair_ok in Hpair as (_ & Hv & Hfit). pose proof (proj1 Hfit) as Hk.
  set (k := task_key (create_columns p)) in *.
  assert (wake_task (pc_wake p) = k) as Hkw by (rewrite <- Hk; done).
  set (st1 := with_tasks (<[k := create_columns p]> (db_tasks (st_db st))) (st_db st)).
  assert (topo_but k st1) as Hbut by (eapply (topo_but_row (st_db st)); [exact Ht|reflexivity|reflexivity]).
  assert (forall id c, db_wakes (st_db st) !! id = Some c -> wake_task (wr_indexed c) <> k) as Hfree.
  { intros id c Hc He. destruct (pr_wakes _ _ (tp_paired _ Ht) id c Hc I) as (row & Hrow & _). congruence. }
  eapply (topo_but_close k).
  - eapply (topo_but_wake k st1); [exact Hbut|reflexivity|reflexivity|done|done|done|done|exact Hwc|].
    intros c0 Hc0. cbn [st1 with_tasks db_wakes] in Hc0. congruence.
  - cbn [with_wakes with_tasks db_tasks]. apply lookup_insert_eq.
  - intros id c. cbn [with_wakes with_tasks db_wakes]. destruct (decide (id = w_ID (pc_wake p))) as [->|Hne].
    + rewrite lookup_insert_eq. intros [= <-] _. done.
    + rewrite lookup_insert_ne by done. intros Hc He. by destruct (Hfree _ _ Hc).
  - intros _. exists (w_ID (pc_wake p)). eexists. cbn [with_wakes db_wakes]. rewrite lookup_insert_eq.
    split_and!; [done|exact Hkw|]. simpl. by rewrite Hs.
Qed.

Lemma Create_topology exec spec admission : Topo (Create exec spec admission).
Proof.
  unfold Create. apply topo_pre; [apply _|intros ?]. apply topo_lift. intros [] Hin. apply topo_lift.
  intros spec' Hs. topo_prefix.
  intros env st x st' Hwf Ht H. unfold create_tx in H. minv H. kr_all.
  match goal with H : match ?e with Some _ => _ | None => _ end _ _ = _ |- _ => destruct e end.
  { minv H. eapply topology_same, Ht; congruence. }
  minv H. kr_all.
  match goal with H : match ?e with Some _ => _ | None => _ end _ _ = _ |- _ => destruct e end.
  { minv H. eapply topology_same, Ht; congruence. }
  minv H. kr_all.
  eapply created_topology; [|eassumption|done|eassumption]. eapply topology_same, Ht; congruence.
Qed.
