(* ===== verification/Fencing.v ===== *)
(** * Fencing a working set: recovered tasks and rebound wakes

    Checkpoint preparation, the reactivation of a paused head and restart recovery
    rewrite every task of a world the same way: deliveries go back to [pending],
    running tasks go back to waiting with a new wake.  Each such step evolves the
    task table and keeps tasks and wakes in agreement. *)

From S2P Require Export Renewal.

Local Open Scope go_scope.

#[local] Opaque Record_Validate sha256Hex marshalRecord marshalTaskSpec marshalCreateResult
  marshalHistory cloneRecord modelProgressJSON validateTaskMutationCapacity Wake_Validate.

(** ** Sound computations *)
Definition intact (db : DB) : Prop := tasks_wf db /\ topology db.
Definition sound_step (db db' : DB) : Prop := tasks_evolve db db' /\ topology db'.
(** A callback that succeeds; any run of a call. *)
Definition SoundOk {A} (m : M A) : Prop := forall env st a st',
  intact (st_db st) -> m env st = (Ok a, st') -> sound_step (st_db st) (st_db st').
Definition Sound {A} (m : M A) : Prop := forall env st o st',
  intact (st_db st) -> m env st = (o, st') -> sound_step (st_db st) (st_db st').

Lemma sound_intact db db' : sound_step db db' -> intact db'.
Proof. intros [[Hw _] Ht]. done. Qed.
Lemma sound_refl db : intact db -> sound_step db db.
Proof. intros [Hw Ht]. split; [by apply tasks_evolve_same|done]. Qed.
Lemma sound_same db db' : intact db -> db_tasks db' = db_tasks db -> db_wakes db' = db_wakes db -> sound_step db db'.
Proof. intros [Hw Ht] E1 E2. split; [by apply tasks_evolve_same|by eapply topology_same]. Qed.
Lemma sound_trans db1 db2 db3 : sound_step db1 db2 -> sound_step db2 db3 -> sound_step db1 db3.
Proof. intros [H1 _] [H2 H3]. split; [by eapply tasks_evolve_trans|done]. Qed.

Lemma sound_of {A} (m : M A) : Evolves m -> Topo m -> Sound m.
Proof. intros He Ht env st o st' [Hw Hp] H. split; [by eapply He|by eapply Ht]. Qed.
Lemma soundOk_kr {A} (m : M A) `{KeepsRows A m} : SoundOk m.
Proof. intros env st a st' Hi Hr. destruct (H _ _ _ _ Hr). by apply sound_same. Qed.
Lemma soundOk_bind {A B} (m : M A) (f : A -> M B) : SoundOk m -> (forall a, SoundOk (f a)) -> SoundOk (m ≫= f).
Proof.
  intros Hm Hf env st b st' Hi H. apply M_bind_ok in H as (a & st1 & H1 & H2).
  pose proof (Hm _ _ _ _ Hi H1) as S1. eapply sound_trans; [exact S1|]. eapply Hf; [by eapply sound_intact|done].
Qed.
Lemma sound_tx {A} (cb : M A) : SoundOk cb -> Sound (withImmediateTransaction cb).
Proof.
  intros Hcb env st [a|e] st' Hi H.
  - apply tx_ok in H as (st1 & st2 & E1 & Hr & E2). rewrite E2, <- E1. eapply Hcb; [by rewrite E1|exact Hr].
  - apply tx_err in H. rewrite H. by apply sound_refl.
Qed.
Lemma sound_ro {A} (m : M A) `{ReadOnly A m} : Sound m.
Proof. intros env st o st' Hi Hr. rewrite (H _ _ _ _ Hr). by apply sound_refl. Qed.
Lemma sound_bind {A B} (m : M A) (f : A -> M B) : Sound m -> (forall a, Sound (f a)) -> Sound (m ≫= f).
Proof.
  intros Hm Hf env st o st' Hi H. unfold mbind, M_bind in H. destruct (m env st) as [[a|e] st1] eqn:H1.
  - pose proof (Hm _ _ _ _ Hi H1) as S1. eapply sound_trans; [exact S1|]. eapply Hf; [by eapply sound_intact|done].
  - simplify_eq. by eapply Hm.
Qed.
Lemma sound_lift {A B} (x : outcome error A) (f : A -> M B) :
  (forall a, x = Ok a -> Sound (f a)) -> Sound (lift x ≫= f).
Proof.
  intros Hf env st o st' Hi H. unfold mbind, M_bind, lift in H. destruct x as [a|e]; [by eapply Hf|].
  simplify_eq. by apply sound_refl.
Qed.

(** ** A wake rewritten in place *)
Record wake_written (d : durableWake) (w : Wake) (db db' : DB) : Prop := {
  ww_valid : Wake_Validate w = Ok tt;
  ww_id : w_ID w = w_ID (dw_wake d);
  ww_task : wake_task w = wake_task (dw_wake d);
  ww_tasks : db_tasks db' = db_tasks db;
  ww_row : exists c, db_wakes db !! w_ID w = Some c /\ wr_indexed c = dw_wake d
    /\ let c' := {| wr_indexed := w; wr_clockID := wr_clockID c; wr_json := w |} in
       no_other (w_ID w) (wake_conflict c') (db_wakes db) = true
       /\ db_wakes db' = <[w_ID w := c']> (db_wakes db)
}.

Lemma updateWakeCASTx_written d w env st u st' :
  updateWakeCASTx d w env st = (Ok u, st') -> wake_written d w (st_db st) (st_db st').
Proof. intros (H1 & H2 & H3 & _ & _ & H4 & H5)%updateWakeCASTx_wakes. by split. Qed.

Lemma updateCheckpointWakeTx_written d w env st u st' :
  w_ID w = w_ID (dw_wake d) -> w_TaskID w = w_TaskID (dw_wake d) -> w_Owner w = w_Owner (dw_wake d) ->
  updateCheckpointWakeTx d w env st = (Ok u, st') -> wake_written d w (st_db st) (st_db st').
Proof.
  intros E1 E2 E3 H. unfold updateCheckpointWakeTx in H. minv H. destruct a.
  match goal with H : update_wake _ _ _ _ _ = _ |- _ =>
    apply update_wake_one in H as (c & Hc & Hg & (_ & Hn & _ & Hdb)%put_wake_ok) end.
  boolp. destruct Hg as [[Hi _] _].
  assert (checkpoint_wake_columns w c = {| wr_indexed := w; wr_clockID := wr_clockID c; wr_json := w |}) as Hcol.
  { unfold checkpoint_wake_columns. rewrite Hi, <- E1, <- E2, <- E3. by destruct w. }
  rewrite Hcol in *. cbn [wr_indexed] in *. rewrite <- E1 in Hc. cbn [tick st_db]. rewrite Hdb.
  split; [done|done|unfold wake_task; congruence|done|]. exists c. done.
Qed.

(** A delivery changes while its task waits. *)
Lemma wake_written_rebound d w db db' :
  topology db -> wake_written d w db db' -> deliverable (w_Status (dw_wake d)) = true ->
  deliverable (w_Status w) = true -> w_DueTick w = w_DueTick (dw_wake d) ->
  w_ExpectedRevision w = w_ExpectedRevision (dw_wake d) -> topology db'.
Proof.
  intros [Hw [Hpw Hpt]] [Hv Hid Ht T1 (c & Hc & Hi & Hno & T2)] D D' Ed Ee. split.
  { eapply (wakes_ok_put db); [done|exact T2|done..]. }
  destruct (Hpw _ _ Hc I) as (row & Hrow & Hfit & Hck). rewrite Hi in Hrow, Hfit.
  split; rewrite T1, T2.
  - intros j x. destruct (decide (j = w_ID w)) as [->|Hne].
    + rewrite lookup_insert_eq. intros [= <-] _. exists row. cbn [wr_indexed wr_clockID]. rewrite Ht.
      split_and!; [done|by eapply deliverable_fits|done].
    + rewrite lookup_insert_ne by done. apply Hpw.
  - intros k r Hk _ Hs. destruct (Hpt k r Hk I Hs) as (j & x & Hj & Hx & He).
    destruct (decide (j = w_ID w)) as [->|Hne].
    + exists (w_ID w). eexists. rewrite lookup_insert_eq. split; [done|]. cbn [wr_indexed].
      assert (x = c) as -> by congruence. rewrite Hi in Hx. rewrite Ht. split; [done|by apply deliverable_executable].
    + exists j, x. by rewrite lookup_insert_ne.
Qed.

Lemma wake_written_sound d w db db' :
  intact db -> wake_written d w db db' -> deliverable (w_Status (dw_wake d)) = true ->
  deliverable (w_Status w) = true -> w_DueTick w = w_DueTick (dw_wake d) ->
  w_ExpectedRevision w = w_ExpectedRevision (dw_wake d) -> sound_step db db'.
Proof.
  intros [Hwf Ht] Hw D D' Ed Ee. split; [by apply tasks_evolve_same, Hw|by eapply wake_written_rebound].
Qed.

(** ** Recovered records *)
Lemma recoveredRunningRecord_shape r now p : recoveredRunningRecord r now = Ok p ->
  (r_Revision r < MaxInt64N)%N /\ same_identity r p /\ r_Revision p = (r_Revision r + 1)%N
  /\ r_State p = StateWaiting /\ r_NeedsReconcile p = true /\ r_PauseReason p = ""
  /\ r_NextWakeAt p = Some (Z.min now (sp_DeadlineAt (r_Spec r)))
  /\ r_Operations p = recovered_operation <$> r_Operations r
  /\ (r_Progress p, r_Evidence p, r_Result p, r_Cleanup p)
     = (r_Progress r, r_Evidence r, r_Result r, r_Cleanup r).
Proof.
  unfold recoveredRunningRecord. intros H. apply bind_ok in H as (n & [Hn ->]%NextDurableCounter_ok & H).
  simplify_eq. split_and!; try done. cbn. f_equal.
  destruct (Z.ltb_spec (sp_DeadlineAt (r_Spec r)) now); lia.
Qed.

Lemma recovered_operation_status o : recovered_operation o = set_op_Status (op_Status (recovered_operation o)) o
  /\ op_status_kept o (op_Status (recovered_operation o)).
Proof.
  unfold recovered_operation. case_bool_decide as H; [by split; [|right]|].
  split; [by rewrite set_op_Status_id|by left].
Qed.

Lemma recovered_evolves r now p :
  taskStateTerminal (r_State r) = false -> recoveredRunningRecord r now = Ok p -> evolves r p.
Proof.
  intros Ht (_ & Hi & Hrev & _ & _ & _ & _ & Ho & Heq)%recoveredRunningRecord_shape. injection Heq as E1 E2 E3 E4.
  split; try done; [lia|intros; lia|congruence| | |by rewrite E4].
  - intros e He. exists (ev_Applied e). by rewrite set_ev_Applied_id, E2.
  - intros o Hin. destruct (recovered_operation_status o) as [Hs Hk].
    exists (op_Status (recovered_operation o)). split; [|done]. rewrite <- Hs, Ho. by apply list_elem_of_fmap_2.
Qed.

Lemma recovered_canonical r now p : canonical r -> recoveredRunningRecord r now = Ok p -> canonical p.
Proof.
  intros [] (_ & Hi & _ & _ & _ & _ & _ & Ho & Heq)%recoveredRunningRecord_shape. injection Heq as E1 E2 E3 E4.
  split; rewrite ?(si_owner _ _ Hi), ?(si_spec _ _ Hi), ?E1, ?E2, ?E3, ?Ho; try done.
  rewrite Forall_fmap. eapply Forall_impl; [exact cn_operations|]. intros o Hc. unfold compose, recovered_operation.
  case_bool_decide; [|done]. destruct o. unfold cloneOperation in *. simpl in *. opt_inv Hc. repeat match goal with E : clone_raw _ = Some _ |- _ => rewrite E; clear E end. by simplify_eq.
Qed.

(** ** A running task goes back to waiting *)
Lemma recover_row_effect db t row now p env st u st1 :
  tasks_wf db -> loaded db t row -> st_db st = db -> taskStateTerminal (r_State (st_record t)) = false ->
  recoveredRunningRecord (st_record t) now = Ok p -> Record_Validate p = Ok tt -> is_Some (marshalRecord p) ->
  updateRestartRecordTx (st_record t) p env st = (Ok u, st1) ->
  tasks_evolve db (st_db st1)
  /\ st_db st1 = with_tasks (<[row_key (st_record t) := set_row_state (r_NextWakeAt p) p row]> (db_tasks db)) db.
Proof.
  intros Hwf Hl Hdb Ht Hr Hv Hm Hup. unfold updateRestartRecordTx, marshal_before in Hup. minv Hup.
  edestruct (state_effect _ t row _ _ p _ _ _ _ Hwf Hl eq_refl Hup) as (He & _ & Hdb'); try done.
  - by eapply recovered_evolves.
  - eapply recovered_canonical; [by eapply loaded_canonical|done].
Qed.

(** The wake that may have been spent in between. *)
Definition spent_or_same (k : AgentSessionKey * string) (db db' : DB) : Prop :=
  db' = db \/ exists d, wake_task (dw_wake d) = k /\ wake_written d (consumed_wake (dw_wake d)) db db'.

Lemma spent_or_same_rows k db db' : topo_but k db -> spent_or_same k db db' ->
  topo_but k db' /\ db_tasks db' = db_tasks db
  /\ forall id c', db_wakes db' !! id = Some c' -> wake_task (wr_indexed c') = k ->
     exists c, db_wakes db !! id = Some c /\ wake_task (wr_indexed c) = k
     /\ w_DueTick (wr_indexed c') = w_DueTick (wr_indexed c) /\ wr_clockID c' = wr_clockID c
     /\ (w_Status (wr_indexed c') = wakeStatusConsumed \/ c' = c).
Proof.
  intros Hbut [->|(d & Hk & [Hv Hid Ht T1 (c & Hc & Hi & Hno & T2)])].
  { split_and!; [done..|]. intros id c Hc Hkc. exists c. split_and!; auto. }
  split; [|split; [done|]].
  - eapply topo_but_wake; [exact Hbut|exact T1|exact T2|by cbn [wr_indexed]; rewrite Ht|done..|].
    intros c0 Hc0. assert (c0 = c) as -> by congruence. by rewrite Hi.
  - intros id c'. rewrite T2. destruct (decide (id = w_ID (consumed_wake (dw_wake d)))) as [->|Hne].
    + rewrite lookup_insert_eq. intros [= <-] _. exists c. cbn [wr_indexed wr_clockID].
      split_and!; [done|by rewrite Hi|by rewrite Hi|done|by left].
    + rewrite lookup_insert_ne by done. intros Hc' Hk'. exists c'. split_and!; auto.
Qed.

Lemma recovered_topology db t row p db1 id generation env st u st' :
  topology db -> loaded db t row -> same_identity (st_record t) p ->
  db1 = with_tasks (<[row_key (st_record t) := set_row_state (r_NextWakeAt p) p row]> (db_tasks db)) db ->
  spent_or_same (row_key (st_record t)) db1 (st_db st) ->
  insertWakeTx p (replacement_wake id p generation) env st = (Ok u, st') ->
  topology (st_db st') /\ db_tasks (st_db st') = db_tasks db1.
Proof.
  intros Ht Hl Hid -> Hsp Hins. set (k := row_key (st_record t)) in *.
  apply spent_or_same_rows in Hsp as (Hbut & E & Hrows); [|by eapply (topo_but_row db)].
  apply insertWakeTx_ok in Hins as (Hpair & Hnone & Hno & ->).
  apply validateTaskWakePair_ok in Hpair as (_ & Hv & Hfit). split; [|done].
  assert (wake_task (replacement_wake id p generation) = k) as Hk by (by apply same_task_key).
  eapply (topo_but_close k).
  - eapply topo_but_wake; [exact Hbut|done|reflexivity|exact Hk|done..|exact Hno|]. intros c0 Hc0. congruence.
  - cbn [with_wakes with_tasks db_tasks] in *. rewrite E. apply lookup_insert_eq.
  - intros j c. cbn [with_wakes db_wakes set_row_state co_recordJSON]. destruct (decide (j = id)) as [->|Hne].
    + rewrite lookup_insert_eq. intros [= <-] _. done.
    + rewrite lookup_insert_ne by done. intros Hc Hkc.
      destruct (Hrows j c Hc Hkc) as (c0 & Hc0 & Hk0 & Hd & Hck & Hcase). cbn [with_tasks db_wakes] in Hc0.
      destruct (paired_row _ _ _ _ c0 Ht Hl Hc0 Hk0) as [Hf0 Hck0].
      rewrite (si_spec _ _ Hid). split; [|congruence].
      eapply consumed_fits; [exact Hf0|done| |congruence|done]. destruct Hcase as [| ->]; [done|].
      destruct (executableStatus (w_Status (wr_indexed c0))) eqn:He; cycle 1.
      { destruct Hf0 as (_ & _ & Hs). by destruct (w_Status (wr_indexed c0)). }
      apply bool_decide_eq_true in Hno. rewrite map_Forall_lookup in Hno.
      pose proof (Hno j c0 Hc Hne) as Hcf. unfold wake_conflict in Hcf. cbn [wake_row wr_indexed] in Hcf.
      rewrite bool_decide_true, He, orb_true_r in Hcf; [done|congruence].
  - intros _. exists id. eexists. cbn [with_wakes db_wakes]. rewrite lookup_insert_eq. split_and!; [done|exact Hk|done].
Qed.

Lemma recover_sound db t row now p id generation env st u st1 st2 u' st3 :
  intact db -> loaded db t row -> st_db st = db -> r_State (st_record t) = StateRunning ->
  recoveredRunningRecord (st_record t) now = Ok p -> Record_Validate p = Ok tt -> is_Some (marshalRecord p) ->
  updateRestartRecordTx (st_record t) p env st = (Ok u, st1) ->
  spent_or_same (row_key (st_record t)) (st_db st1) (st_db st2) ->
  insertWakeTx p (replacement_wake id p generation) env st2 = (Ok u', st3) ->
  sound_step db (st_db st3)
  /\ forall j, j <> row_key (st_record t) -> db_tasks (st_db st3) !! j = db_tasks db !! j.
Proof.
  intros [Hwf Ht] Hl Hdb Hs Hr Hv Hm Hup Hsp Hins.
  destruct (recover_row_effect _ _ _ _ _ _ _ _ _ Hwf Hl Hdb ltac:(by rewrite Hs) Hr Hv Hm Hup) as [He E1].
  pose proof (recoveredRunningRecord_shape _ _ _ Hr) as (_ & Hid & _).
  edestruct (recovered_topology db t row p) as [Ht' E3]; [done|done|done|exact E1|exact Hsp|exact Hins|].
  split; [split; [|done]|].
  - eapply tasks_evolve_ext; [reflexivity|exact E3|exact He].
  - intros j Hj. rewrite E3, E1. cbn [with_tasks db_tasks]. by rewrite lookup_insert_ne.
Qed.

(** ** Every task of a working set *)
Lemma loaded_at db db' t row :
  loaded db t row -> db_tasks db' !! row_key (st_record t) = db_tasks db !! row_key (st_record t) -> loaded db' t row.
Proof. intros [] E. split; [congruence|done..]. Qed.

(** Tasks still to be rewritten, each as it was read. *)
Definition all_loaded (db : DB) (l : list ((AgentSessionKey * string) * storedIntentTask)) : Prop :=
  forall k t, (k, t) ∈ l -> row_key (st_record t) = k /\ exists row, loaded db t row.

Lemma all_loaded_tail db db' k t l :
  NoDup (k :: l.*1) -> all_loaded db ((k, t) :: l) ->
  (forall j, j <> k -> db_tasks db' !! j = db_tasks db !! j) -> all_loaded db' l.
Proof.
  intros Hnd Hl E j s Hin. destruct (Hl j s ltac:(by right)) as (Hj & row & Hrow). split; [done|].
  exists row. eapply loaded_at; [done|]. apply E. intros Hjk. apply NoDup_cons in Hnd as [Hn _]. apply Hn.
  rewrite <- Hjk, Hj. apply list_elem_of_fmap. by exists (j, s).
Qed.

Lemma executable_of_elem wakes k d : d ∈ executable_of wakes k ->
  executableStatus (w_Status (dw_wake d)) = true /\ wake_task (dw_wake d) = k.
Proof. unfold executable_of. rewrite elem_of_bfilter, andb_true_iff, bool_decide_eq_true. tauto. Qed.

Lemma identity_tasks_loaded db w g :
  tasks_wf db -> build_graph empty_graph (world_rows w db) = Ok g ->
  NoDup (sortedWorldTaskIdentities g).*1 /\ all_loaded db (sortedWorldTaskIdentities g).
Proof.
  intros Hwf Hg. unfold sortedWorldTaskIdentities. split.
  - rewrite sort_slice_perm. apply NoDup_fst_map_to_list.
  - intros k t Hin. rewrite sort_slice_perm in Hin. apply elem_of_map_to_list in Hin.
    by eapply graph_task_loaded.
Qed.

#[export] Instance ro_durableWakes h g : ReadOnly (loadWorldDurableWakesTx h g).
Proof. unfold loadWorldDurableWakesTx. apply _. Qed.

(** What may happen to the run of a recovered task. *)
Definition spent_wake_step (executable : list durableWake) : M unit :=
  match executable with
  | [d] => updateCheckpointWakeTx d (consumed_wake (dw_wake d))
  | _ => mret tt
  end.
Lemma spent_wake_step_ok wakes k env st u st' :
  spent_wake_step (executable_of wakes k) env st = (Ok u, st') -> spent_or_same k (st_db st) (st_db st').
Proof.
  unfold spent_wake_step. destruct (executable_of wakes k) as [|d [|]] eqn:He; intros H.
  1, 3: minv H; by left.
  right. exists d. split; [by apply (executable_of_elem wakes k); rewrite He; left|].
  by eapply updateCheckpointWakeTx_written in H.
Qed.

Lemma normalize_tasks_sound now generation wakes l ids env st u st' :
  intact (st_db st) -> NoDup l.*1 -> all_loaded (st_db st) l ->
  normalize_tasks now generation wakes ids l env st = (Ok u, st') -> sound_step (st_db st) (st_db st').
Proof.
  revert ids st. induction l as [|[k t] l IH]; intros ids st Hi Hnd Hl H; cbn [normalize_tasks] in H.
  { minv H. by apply sound_refl. }
  destruct (Hl k t ltac:(by left)) as (<- & row & Hrow). set (k := row_key (st_record t)) in *. rewrite fmap_cons in Hnd. cbn [fst] in Hnd.
  assert (forall ids db1 st1, sound_step (st_db st) db1 -> st_db st1 = db1 ->
    (forall j, j <> k -> db_tasks db1 !! j = db_tasks (st_db st) !! j) ->
    normalize_tasks now generation wakes ids l env st1 = (Ok u, st') -> sound_step (st_db st) (st_db st')) as Hnext.
  { intros ids1 db1 st1 Hs <- Hj Hrun. eapply sound_trans; [exact Hs|].
    apply (IH ids1 st1); [by eapply sound_intact|by apply NoDup_cons in Hnd as [_ ?]| |done].
    by eapply all_loaded_tail. }
  destruct (r_State (st_record t)) eqn:Hs; [| |destruct (executable_of wakes k)..]; try by minv H.
  3-6: eapply (Hnext _ _ st); [by apply sound_refl|done|done|exact H].
  - destruct (executable_of wakes k) as [|d [|]] eqn:He; [by minv H| |by minv H].
    destruct (executable_of_elem wakes k d ltac:(rewrite He; by left)) as [Hx _]. minv H. boolp.
    match goal with H : updateCheckpointWakeTx _ _ _ _ = _ |- _ =>
      apply updateCheckpointWakeTx_written in H as Hw; [|done..] end.
    eapply Hnext; [|reflexivity| |exact H].
    + eapply wake_written_sound; [done|exact Hw| |done..]. by destruct (w_Status (dw_wake d)).
    + intros j _. by rewrite (ww_tasks _ _ _ _ Hw).
  - minv H. destruct ids as [|id ids]; [by minv H|].
    minv H. match goal with H : prepareReconcileMutation _ _ _ _ = _ |- _ =>
      apply prepareReconcileMutation_ok in H as (-> & -> & Hv & Hm) end.
    match goal with H : match executable_of wakes _ with _ => _ end _ _ = _ |- _ =>
      apply spent_wake_step_ok in H as Hsp end.
    match goal with R : recoveredRunningRecord _ _ = Ok ?p, U : updateRestartRecordTx _ _ _ _ = _, I : insertWakeTx _ _ _ _ = _ |- _ =>
      destruct (recover_sound _ t row _ p _ _ _ _ _ _ _ _ _ Hi Hrow eq_refl Hs R Hv Hm U Hsp I) as [Hss Hj] end.
    by eapply Hnext.
Qed.

Lemma normalizeCheckpointWorkingSetTx_sound head generation ids :
  SoundOk (normalizeCheckpointWorkingSetTx head generation ids).
Proof.
  intros env st u st' Hi H. unfold normalizeCheckpointWorkingSetTx in H. minv H.
  match goal with H : graph_or _ _ _ _ = _ |- _ => apply graph_or_ok in H as [E1 Hg] end.
  match goal with H : loadWorldDurableWakesTx _ _ _ _ = _ |- _ => apply read_only in H as E2 end.
  destruct (identity_tasks_loaded _ _ _ (proj1 Hi) Hg) as [Hnd Hl].
  rewrite <- E1, <- E2 in Hl. rewrite <- E1, <- E2 in Hi |- *. by eapply normalize_tasks_sound.
Qed.

(** ** Preparing a checkpoint *)
#[export] Instance ro_loadCheckpointTx w i : ReadOnly (loadCheckpointTx w i). Proof. apply _. Qed.
#[export] Instance ro_capture h q : ReadOnly (captureCheckpointSnapshotTx h q).
Proof. unfold captureCheckpointSnapshotTx. apply _. Qed.
#[export] Instance ro_checkpointWakeIDs n seen : ReadOnly (checkpointWakeIDs n seen).
Proof. revert seen. induction n; intros seen; apply _. Qed.
#[export] Instance kr_insertCheckpoint row : KeepsRows (insertCheckpointTx row).
Proof.
  intros env st u st' H. unfold insertCheckpointTx, insert_checkpoint, maxSnapshotBytes in H. minv H.
  match goal with H : exec _ _ _ = _ |- _ => apply exec_ok in H; okinv H; destruct (_ && _); [|done] end.
  simplify_eq. cbn [tick st_db]. by repeat match goal with E : _ = st_db _ |- _ => rewrite <- E end.
Qed.

Lemma admitEvidenceTx_sound head e : cloneEvidence e = Some e -> SoundOk (admitEvidenceTx head e).
Proof.
  intros He env st b st' [Hw Ht] H. split; [by eapply admitEvidenceTx_effect|by eapply admitEvidenceTx_topology].
Qed.
Lemma admit_facts_sound head l : Forall (fun e => cloneEvidence e = Some e) l -> SoundOk (admit_facts head l).
Proof.
  induction l as [|e l IH]; intros Hl; cbn [admit_facts]; [apply soundOk_kr; apply _|].
  apply Forall_cons in Hl as [He Hl]. apply soundOk_bind; [by apply admitEvidenceTx_sound|intros _; by apply IH].
Qed.

Lemma check_request_facts_cloned b l l' : check_request_facts b l = Ok l' ->
  Forall (fun e => cloneEvidence e = Some e) l'.
Proof.
  revert l'. induction l as [|e l IH]; intros l' H; cbn [check_request_facts] in H; okinv H; [constructor|].
  constructor; [|by apply IH]. unfold check_request_evidence in Hv. okinv Hv. by eapply cloneEvidence_idem.
Qed.
Lemma merge_facts_subset last l l' : merge_facts last l = Ok l' -> forall e, e ∈ l' -> e ∈ l.
Proof.
  revert last l'. induction l as [|x l IH]; intros last l' H e He; cbn [merge_facts] in H; [by okinv H|].
  destruct last as [prior|]; [case_bool_decide|]; okinv H; [right; by eapply IH| |];
    (apply elem_of_cons in He as [->|He]; [by left|right; by eapply IH]).
Qed.
Lemma prepareCheckpointRequest_cloned b k s l q : prepareCheckpointRequest b k s l = Ok q ->
  Forall (fun e => cloneEvidence e = Some e) (pq_Evidence q).
Proof.
  unfold prepareCheckpointRequest. intros H. okinv H. cbn [pq_Evidence].
  match goal with C : check_request_facts _ _ = Ok _, M : merge_facts _ _ = Ok _ |- _ =>
    pose proof (check_request_facts_cloned _ _ _ C) as Hc; pose proof (merge_facts_subset _ _ _ M) as Hm end.
  rewrite Forall_forall in Hc |- *. intros e He. apply Hc. rewrite <- (sort_slice_perm by_fact_id). by apply Hm.
Qed.

Lemma prepare_checkpoint_tx_sound current b k s q i ids :
  Forall (fun e => cloneEvidence e = Some e) (pq_Evidence q) ->
  SoundOk (prepare_checkpoint_tx current b k s q i ids).
Proof.
  intros Hq. unfold prepare_checkpoint_tx. do 3 (apply soundOk_bind; [apply soundOk_kr; apply _|intros ?]).
  apply soundOk_bind; [by apply admit_facts_sound|intros _].
  apply soundOk_bind; [apply soundOk_kr; apply _|intros ?].
  apply soundOk_bind; [apply normalizeCheckpointWorkingSetTx_sound|intros _].
  apply soundOk_kr. unfold maxSnapshotBytes. apply _.
Qed.

Lemma PrepareCheckpoint_sound b k s l : Sound (PrepareCheckpoint b k s l).
Proof.
  unfold PrepareCheckpoint. apply sound_bind; [apply sound_ro; apply _|intros _]. apply sound_lift. intros q Hq.
  repeat (apply sound_bind; [apply sound_ro; unfold countWorldTasks; apply _|intros ?]).
  apply sound_tx. repeat (apply soundOk_bind; [apply soundOk_kr; apply _|intros ?]). case_match.
  - apply soundOk_kr; apply _.
  - apply prepare_checkpoint_tx_sound. by eapply prepareCheckpointRequest_cloned.
Qed.

(** ** Restart recovery *)

(** One running task of a plan and the entry of the working set it came from. *)
Record planned (wakes : list durableWake) (e : (AgentSessionKey * string) * storedIntentTask)
    (rt : restartRunningTask) : Prop := {
  pl_record : rt_record rt = e.2;
  pl_running : r_State (st_record e.2) = StateRunning;
  pl_wake : match rt_wake rt with Some d => d ∈ executable_of wakes e.1 | None => True end
}.
Definition planned_delivery (wakes : list durableWake) (d : durableWake) : Prop :=
  d ∈ wakes /\ deliverable (w_Status (dw_wake d)) = true.
Record plan_fits (wakes : list durableWake) (l : list ((AgentSessionKey * string) * storedIntentTask))
    (plan : restartRecoveryPlan) : Prop := {
  pf_deliveries : Forall (planned_delivery wakes) (rp_deliveries plan);
  pf_running : exists es, es `sublist_of` l /\ Forall2 (planned wakes) es (rp_running plan)
}.

Lemma executable_of_in wakes k d : d ∈ executable_of wakes k -> d ∈ wakes.
Proof. unfold executable_of. rewrite elem_of_bfilter. tauto. Qed.

Lemma plan_task_ok recover wakes l k t plan plan' :
  plan_fits wakes l plan -> plan_task recover t (executable_of wakes k) plan = Ok plan' ->
  plan_fits wakes (l ++ [(k, t)]) plan'.
Proof.
  intros [Hd (es & Hes & Hr)] H.
  assert (plan_fits wakes (l ++ [(k, t)]) plan) as Hkeep.
  { split; [done|]. exists es. split; [by apply sublist_inserts_r|done]. }
  assert (forall o, r_State (st_record t) = StateRunning ->
    match o with Some d => d ∈ executable_of wakes k | None => True end ->
    plan_fits wakes (l ++ [(k, t)]) {| rp_deliveries := rp_deliveries plan;
      rp_running := rp_running plan ++ [ {| rt_record := t; rt_wake := o |}] |}) as Hrun.
  { intros o Hs Ho. split; [done|]. exists (es ++ [(k, t)]). split; [by apply sublist_app|].
    apply Forall2_app; [done|]. constructor; [by split|constructor]. }
  unfold plan_task in H. destruct (r_State (st_record t)) eqn:Hs;
    destruct (executable_of wakes k) as [|d [|]] eqn:He; okinv H; destruct recover; try done.
  - split; [|by destruct Hkeep]. apply Forall_app. split; [done|]. constructor; [|constructor]. boolp.
    destruct (executable_of_elem wakes k d ltac:(rewrite He; by left)) as [Hx _].
    split; [apply (executable_of_in wakes k); rewrite He; by left|by destruct (w_Status (dw_wake d))].
  - by apply Hrun.
  - apply Hrun; [done|]. by left.
Qed.

Lemma plan_tasks_ok recover wakes l0 l plan plan' :
  plan_fits wakes l0 plan -> plan_tasks recover wakes l plan = Ok plan' -> plan_fits wakes (l0 ++ l) plan'.
Proof.
  revert l0 plan. induction l as [|[k t] l IH]; intros l0 plan Hp H; cbn [plan_tasks] in H.
  { okinv H. by rewrite app_nil_r. }
  apply bind_ok in H as (plan1 & H1 & H). replace (l0 ++ (k, t) :: l) with ((l0 ++ [(k, t)]) ++ l) by by rewrite <- app_assoc.
  eapply IH; [|exact H]. by eapply plan_task_ok.
Qed.

(** A running task of a plan, prepared for its recovery. *)
Record prepared_recovery (now : Z) (generation : N) (rt : restartRunningTask) (p : preparedRestartRecovery) : Prop := {
  ry_current : rr_current p = rt;
  ry_record : recoveredRunningRecord (st_record (rt_record rt)) now = Ok (rr_mutation p);
  ry_valid : Record_Validate (rr_mutation p) = Ok tt;
  ry_marshal : is_Some (marshalRecord (rr_mutation p));
  ry_wake : exists id, rr_replacement p = replacement_wake id (rr_mutation p) generation
}.
#[export] Instance ro_prepare_recoveries now generation l ids : ReadOnly (prepare_recoveries now generation l ids).
Proof.
  revert ids. induction l as [|x l IH]; intros [|i ids]; cbn [prepare_recoveries]; unfold prepareReconcileMutation, prepare_capacity; apply _.
Qed.
Lemma prepare_recoveries_ok now generation l ids env st ps st' :
  prepare_recoveries now generation l ids env st = (Ok ps, st') ->
  Forall2 (prepared_recovery now generation) l ps.
Proof.
  revert ids st ps st'. induction l as [|x l IH]; intros [|id ids] st ps st' H; cbn [prepare_recoveries] in H; try by minv H.
  minv H. match goal with H : prepareReconcileMutation _ _ _ _ = _ |- _ =>
    apply prepareReconcileMutation_ok in H as (-> & -> & Hv & Hm) end.
  constructor; [split; try done; by exists id|by eapply IH].
Qed.

Lemma reset_deliveries_sound wakes generation l env st u st' :
  intact (st_db st) -> Forall (planned_delivery wakes) l ->
  reset_deliveries generation l env st = (Ok u, st') ->
  sound_step (st_db st) (st_db st') /\ db_tasks (st_db st') = db_tasks (st_db st).
Proof.
  intros Hi Hl. revert st Hi. induction Hl as [|d l [_ Hd] _ IH]; intros st Hi H; cbn [reset_deliveries] in H.
  { minv H. split; [by apply sound_refl|done]. }
  minv H. match goal with H : updateWakeCASTx _ _ _ _ = _ |- _ => apply updateWakeCASTx_written in H as Hw end.
  assert (sound_step (st_db st) (st_db st0)) as S1 by by eapply wake_written_sound.
  destruct (IH st0) as [S2 E]; [by eapply sound_intact|done|].
  split; [by eapply sound_trans|]. by rewrite E, (ww_tasks _ _ _ _ Hw).
Qed.

Lemma recover_running_sound now generation wakes k rt row p env st u st' :
  intact (st_db st) -> loaded (st_db st) (rt_record rt) row -> row_key (st_record (rt_record rt)) = k ->
  r_State (st_record (rt_record rt)) = StateRunning ->
  match rt_wake rt with Some d => d ∈ executable_of wakes k | None => True end ->
  prepared_recovery now generation rt p -> recover_running p env st = (Ok u, st') ->
  sound_step (st_db st) (st_db st') /\ forall j, j <> k -> db_tasks (st_db st') !! j = db_tasks (st_db st) !! j.
Proof.
  intros Hi Hl <- Hs Hw [<- Hr Hv Hm (id & E)] H. unfold recover_running in H. rewrite E in H. minv H.
  match goal with R : updateRestartRecordTx _ _ _ ?s0 = _, I : insertWakeTx _ _ _ ?s1 = _, H : (match _ with _ => _ end) _ ?s2 = (_, ?s1) |- _ =>
    assert (spent_or_same (row_key (st_record (rt_record (rr_current p)))) (st_db s2) (st_db s1)) as Hsp;
    [|exact (recover_sound _ _ row _ _ _ _ _ _ _ _ _ _ _ Hi Hl eq_refl Hs Hr Hv Hm R Hsp I)];
    destruct (rt_wake (rr_current p)) as [d|]; [|minv H; by left] end.
  right. exists d. split; [by apply (executable_of_elem wakes)|].
  match goal with H : updateWakeCASTx _ _ _ _ = _ |- _ => by apply updateWakeCASTx_written in H end.
Qed.

Lemma recover_all_sound now generation wakes es rts ps env st u st' :
  intact (st_db st) -> NoDup es.*1 -> all_loaded (st_db st) es ->
  Forall2 (planned wakes) es rts -> Forall2 (prepared_recovery now generation) rts ps ->
  recover_all ps env st = (Ok u, st') -> sound_step (st_db st) (st_db st').
Proof.
  intros Hi Hnd Hl Hp. revert ps st Hi Hl. induction Hp as [|[k t] rt es rts [E Hs Hw] _ IH]; intros ps st Hi Hl Hps H.
  { apply Forall2_nil_inv_l in Hps as ->. cbn [recover_all] in H. minv H. by apply sound_refl. }
  apply Forall2_cons_inv_l in Hps as (p & ps' & Hp1 & Hps & ->). cbn [recover_all] in H. minv H. cbn [fst snd] in *.
  destruct (Hl k t ltac:(by left)) as (Hk & row & Hrow). rewrite <- E in Hrow, Hk, Hs.
  match goal with H : recover_running _ _ _ = _ |- _ =>
    destruct (recover_running_sound now generation wakes k rt row p _ _ _ _ Hi Hrow Hk Hs Hw Hp1 H) as [S1 Hj] end.
  eapply sound_trans; [exact S1|]. rewrite fmap_cons in Hnd. eapply IH; [by apply NoDup_cons in Hnd as [_ ?]|by eapply sound_intact| |done|done].
  by eapply all_loaded_tail.
Qed.

#[export] Instance ro_planRestart h c : ReadOnly (planRestartRecoveryTx h c).
Proof. unfold planRestartRecoveryTx. apply _. Qed.
Lemma planRestartRecoveryTx_ok head claimant env st plan st' :
  planRestartRecoveryTx head claimant env st = (Ok plan, st') ->
  exists g wakes, build_graph empty_graph (world_rows (bd_World (hd_Binding (wh_Head head))) (st_db st)) = Ok g
  /\ plan_fits wakes (sortedWorldTaskIdentities g) plan.
Proof.
  intros H. unfold planRestartRecoveryTx in H. minv H.
  match goal with H : graph_or _ _ _ _ = (Ok ?g, _), P : plan_tasks _ ?ws _ _ = _ |- _ =>
    apply graph_or_ok in H as [_ Hg]; exists g, ws; split; [done|];
    eapply (plan_tasks_ok _ ws [] _ _ _); [|exact P] end.
  split; [constructor|]. exists []. split; [done|constructor].
Qed.
Lemma updateWorldRestartHeadTx_ok before updated env st u st' :
  updateWorldRestartHeadTx before updated env st = (Ok u, st') ->
  worldHeadRow_validate updated = Ok tt /\ updated = restart_head updated before
  /\ exists c, db_heads (st_db st) !! bd_World (hd_Binding (wh_Head before)) = Some c
     /\ st_db st' = with_heads (<[bd_World (hd_Binding (wh_Head before)) := set_restart_columns updated c]>
                                  (db_heads (st_db st))) (st_db st).
Proof.
  intros H. unfold updateWorldRestartHeadTx in H. minv H. boolp. destruct a. split_and!; [done..|].
  match goal with H : update_head _ _ _ _ _ = _ |- _ => apply update_head_one in H as (c & Hc & _ & Hp%put_head_ok) end.
  exists c. split; [done|]. cbn [tick st_db]. by rewrite Hp.
Qed.
#[export] Instance kr_restartHead before updated : KeepsRows (updateWorldRestartHeadTx before updated).
Proof. intros env st x st' (_ & _ & c & _ & ->)%updateWorldRestartHeadTx_ok. done. Qed.

Lemma sublist_fmap {A B} (f : A -> B) l k : l `sublist_of` k -> f <$> l `sublist_of` f <$> k.
Proof. induction 1; rewrite ?fmap_cons; by constructor. Qed.

(** A plan is carried out on the tables it was made from. *)
Lemma applyRestartRecoveryTx_sound head plan ids clock claimant wakes es env st h st' :
  intact (st_db st) -> NoDup es.*1 -> all_loaded (st_db st) es -> plan_fits wakes es plan ->
  applyRestartRecoveryTx head plan ids clock claimant env st = (Ok h, st') -> sound_step (st_db st) (st_db st').
Proof.
  intros Hi Hnd Hl [Hd (rs & Hsub & Hrun)] H. unfold applyRestartRecoveryTx in H. minv H.
  match goal with H : validateRestartBarrierTx _ _ _ = _ |- _ => apply read_only in H as E1 end.
  match goal with H : prepare_recoveries _ _ _ _ _ _ = _ |- _ =>
    apply read_only in H as E2; apply prepare_recoveries_ok in H as Hps end.
  rewrite <- E1, <- E2 in Hi, Hl |- *.
  match goal with H : reset_deliveries _ _ _ _ = _ |- _ => eapply reset_deliveries_sound in H as [S1 E3]; [|done|exact Hd] end.
  eapply sound_trans; [exact S1|].
  match goal with H : recover_all _ _ ?s = (_, ?s'), K : updateWorldRestartHeadTx _ _ _ _ = _ |- _ =>
    assert (sound_step (st_db s) (st_db s')) as S2;
    [refine (recover_all_sound _ _ wakes rs _ _ _ _ _ _ _ _ _ Hrun Hps H)|] end.
  - by eapply sound_intact.
  - eapply sublist_NoDup; [exact Hnd|]. by apply sublist_fmap.
  - intros k t Hin. destruct (Hl k t) as (Hk & row & Hrow); [by eapply elem_of_sublist|]. split; [done|].
    exists row. eapply loaded_at; [exact Hrow|]. by rewrite E3.
  - eapply sound_trans; [exact S2|]. apply sound_intact in S2.
    match goal with K : updateWorldRestartHeadTx _ _ _ _ = _ |- _ => exact (soundOk_kr _ _ _ _ _ S2 K) end.
Qed.

Lemma activate_recovery_tx_sound world runID clock from ids :
  SoundOk (activate_recovery_tx world runID clock from ids).
Proof.
  intros env st h st' Hi H. unfold activate_recovery_tx in H.
  apply M_bind_ok in H as (current & st1 & H1 & H). pose proof (soundOk_kr _ _ _ _ _ Hi H1) as S1.
  eapply sound_trans; [exact S1|]. apply sound_intact in S1. clear Hi H1. minv H; [by apply sound_refl|].
  match goal with H : validateRestartBarrierTx _ _ _ = _ |- _ => apply read_only in H as E1 end.
  match goal with H : planRestartRecoveryTx _ _ _ _ = _ |- _ =>
    apply read_only in H as E2; apply planRestartRecoveryTx_ok in H as (g & wakes & Hg & Hp) end.
  rewrite E1 in Hg. rewrite <- E1, <- E2 in S1 |- *.
  destruct (identity_tasks_loaded (st_db st1) _ _ ltac:(rewrite <- E1, <- E2; apply S1) Hg) as [Hnd Hl].
  eapply applyRestartRecoveryTx_sound; [exact S1|exact Hnd|by rewrite E2, E1|exact Hp|eassumption].
Qed.

(** ** The operations of a world's activation that keep its working set *)
#[export] Instance kr_insertHead row : KeepsRows (insertWorldHeadTx row).
Proof.
  intros env st u st' H. unfold insertWorldHeadTx, insert_head in H. apply exec_ok in H. okinv H.
  match goal with H : put_head _ _ _ = Ok _ |- _ => apply put_head_ok in H as -> end. done.
Qed.
#[export] Instance kr_releaseBarrier h : KeepsRows (releaseExpiredCheckpointBarrierTx h).
Proof. unfold releaseExpiredCheckpointBarrierTx. apply _. Qed.
#[export] Instance kr_activateFirst w r k : KeepsRows (activate_first_tx w r k).
Proof. unfold activate_first_tx, find_head_for_mutation, worldHasDurableStateTx. apply _. Qed.
#[export] Instance ro_fresh_ids' n : ReadOnly (recoveryWakeIDs n).
Proof. unfold recoveryWakeIDs. apply _. Qed.

Lemma activate_run_sound w r k : Sound (activate_run w r k).
Proof.
  unfold activate_run. apply sound_bind; [apply sound_tx, soundOk_kr, _|]. intros [h [ [from n] |]]; [|apply sound_ro, _].
  apply sound_bind; [apply sound_ro, _|intros ids]. apply sound_tx, activate_recovery_tx_sound.
Qed.
Lemma activatePausedWorkingHead_sound w r k : Sound (activatePausedWorkingHead w r k).
Proof.
  unfold activatePausedWorkingHead, countWorldTasks. do 2 (apply sound_bind; [apply sound_ro, _|intros ?]).
  apply sound_tx. unfold activate_paused_tx. do 7 (apply soundOk_bind; [apply soundOk_kr, _|intros ?]).
  apply soundOk_bind; [apply normalizeCheckpointWorkingSetTx_sound|intros ?]. apply soundOk_kr, _.
Qed.
Lemma pauseWorldForCheckpointFailure_sound w r k e : Sound (pauseWorldForCheckpointFailure w r k e).
Proof.
  unfold pauseWorldForCheckpointFailure. case_match; [|apply sound_ro, _]. apply sound_tx, soundOk_kr.
  apply kr_bind; [apply _|intros [current|] ].
  - apply kr_if; [apply _|]. apply kr_if; [apply _|]. apply _.
  - apply kr_bind; [apply _|intros ?]. apply kr_bind; [apply _|intros ?]. apply kr_bind; [apply _|intros ?]. apply _.
Qed.

(** Instance search takes these calls as they are. *)
#[export] Hint Opaque captureCheckpointSnapshotTx checkpointWakeIDs insertCheckpointTx updateWorldRestartHeadTx
  insertWorldHeadTx releaseExpiredCheckpointBarrierTx activate_first_tx recoveryWakeIDs loadWorldDurableWakesTx
  planRestartRecoveryTx prepare_recoveries loadCheckpointTx updateWakeCASTx updateCheckpointWakeTx
  updateWorldHeadCASTx loadWorldHeadForMutationTx insertWakeTx insert_wake insert_task normalize_tasks
  normalizeCheckpointWorkingSetTx reset_deliveries recover_all recover_running applyRestartRecoveryTx
  updateRestartRecordTx : typeclass_instances.
