(* ===== verification/Restoring.v ===== *)
(** * Restoring a checkpoint

    A restored snapshot replaces the working set of its world and nothing else:
    afterwards the world's task rows are exactly the snapshot's, its wakes exactly
    the snapshot's with the deliveries bound to the new generation, and tasks and
    wakes agree again. *)

From S2P Require Export Fencing.

Local Open Scope go_scope.

#[local] Opaque Record_Validate sha256Hex marshalRecord marshalTaskSpec marshalCreateResult
  marshalHistory cloneRecord modelProgressJSON validateTaskMutationCapacity Wake_Validate.

(** ** What a snapshot holds *)
Definition task_entry (t : checkpointTaskSnapshot) : (AgentSessionKey * string) * taskRowColumns :=
  (row_key (ts_Record t), checkpointTaskColumns t).
Definition snapshot_rows (l : list checkpointTaskSnapshot) : gmap (AgentSessionKey * string) taskRowColumns :=
  list_to_map (task_entry <$> l).
Definition wake_entry (generation : N) (s : checkpointWakeSnapshot) : string * wakeRow :=
  (w_ID (ws_Wake s), wake_row (ws_ClockID s) (restored_wake generation (ws_Wake s))).
Definition snapshot_wakes (generation : N) (l : list checkpointWakeSnapshot) : gmap string wakeRow :=
  list_to_map (wake_entry generation <$> l).

Definition outside_tasks (w : WorldKey) (m : gmap (AgentSessionKey * string) taskRowColumns) :
    gmap (AgentSessionKey * string) taskRowColumns := filter (fun kc => in_world w (co_owner kc.2) = false) m.
Definition outside_wakes (w : WorldKey) (m : gmap string wakeRow) : gmap string wakeRow :=
  filter (fun kc => in_world w (w_Owner (wr_indexed kc.2)) = false) m.

Definition canonical_task (t : checkpointTaskSnapshot) : Prop :=
  canonical (ts_Record t) /\ Forall canonical_call (ts_IntentHistoryJSON t).
Lemma cloneTaskSnapshot_canonical t t' : cloneTaskSnapshot t = Some t' -> canonical_task t'.
Proof.
  unfold cloneTaskSnapshot. intros H. opt_inv H. split; cbn [ts_Record ts_IntentHistoryJSON].
  - by eapply cloneRecord_canonical_out.
  - match goal with H : mapM_opt cloneIntentCall _ = _ |- _ => revert H end.
    generalize (ts_IntentHistoryJSON t). intros l. revert x1. induction l as [|c l IH]; intros r H; simpl in H; opt_inv H; constructor.
    + by eapply cloneIntentCall_idem.
    + by apply IH.
Qed.
Lemma cloneSnapshot_canonical s s' : cloneSnapshot s = Some s' -> Forall canonical_task (sn_Tasks s').
Proof.
  unfold cloneSnapshot. intros H. opt_inv H. cbn [sn_Tasks].
  match goal with H : mapM_opt cloneTaskSnapshot _ = _ |- _ => revert H end.
  generalize (sn_Tasks s). intros l. revert x0. induction l as [|c l IH]; intros r H; simpl in H; opt_inv H; constructor.
  - by eapply cloneTaskSnapshot_canonical.
  - by apply IH.
Qed.

(** ** Emptying a world *)
Lemma delete_world_wakes_ok w env st u st' : delete_world_wakes w env st = (Ok u, st') ->
  st_db st' = with_wakes (outside_wakes w (db_wakes (st_db st))) (st_db st).
Proof. unfold delete_world_wakes. intros H%exec_ok. by simplify_eq. Qed.
Lemma delete_world_tasks_ok w env st u st' : delete_world_tasks w env st = (Ok u, st') ->
  st_db st' = mkDB (db_heads (st_db st)) (outside_tasks w (db_tasks (st_db st)))
                (outside_wakes w (db_wakes (st_db st))) (db_checkpoints (st_db st)).
Proof. unfold delete_world_tasks. intros H%exec_ok. by simplify_eq. Qed.

Lemma outside_wakes_lookup w m id c :
  outside_wakes w m !! id = Some c <-> m !! id = Some c /\ in_world w (w_Owner (wr_indexed c)) = false.
Proof. unfold outside_wakes. by rewrite map_lookup_filter_Some. Qed.
Lemma outside_tasks_lookup w m k c :
  outside_tasks w m !! k = Some c <-> m !! k = Some c /\ in_world w (co_owner c) = false.
Proof. unfold outside_tasks. by rewrite map_lookup_filter_Some. Qed.
Lemma outside_wakes_idem w m : outside_wakes w (outside_wakes w m) = outside_wakes w m.
Proof.
  apply map_eq. intros i. apply option_eq. intros c. rewrite !outside_wakes_lookup. tauto.
Qed.

(** ** Inserting the snapshot *)
Lemma insertCheckpointTaskTx_ok t env st u st' : insertCheckpointTaskTx t env st = (Ok u, st') ->
  (exists d, decodeTaskRowColumns (checkpointTaskColumns t) = Ok d)
  /\ db_tasks (st_db st) !! row_key (ts_Record t) = None
  /\ st_db st' = with_tasks (<[row_key (ts_Record t) := checkpointTaskColumns t]> (db_tasks (st_db st))) (st_db st).
Proof.
  unfold insertCheckpointTaskTx. intros H. minv H.
  match goal with H : insert_task _ _ _ = _ |- _ => apply insert_task_ok in H as (H1 & _ & _ & H2) end.
  split_and!; [by eexists|exact H1|exact H2].
Qed.
Lemma restore_tasks_ok l env st u st' : restore_tasks l env st = (Ok u, st') ->
  st_db st' = with_tasks (snapshot_rows l ∪ db_tasks (st_db st)) (st_db st)
  /\ (forall t, t ∈ l -> exists d, decodeTaskRowColumns (checkpointTaskColumns t) = Ok d)
  /\ (forall t, t ∈ l -> db_tasks (st_db st) !! row_key (ts_Record t) = None)
  /\ NoDup (row_key ∘ ts_Record <$> l).
Proof.
  revert st. induction l as [|t l IH]; intros st H; cbn [restore_tasks] in H.
  { minv H. unfold snapshot_rows. rewrite fmap_nil, list_to_map_nil, map_empty_union. split_and!; [by destruct (st_db st)|..].
    1, 2: by intros t ?%elem_of_nil. constructor. }
  minv H. match goal with H : insertCheckpointTaskTx _ _ _ = _ |- _ => apply insertCheckpointTaskTx_ok in H as (Hd & Hn & E) end.
  destruct (IH _ H) as (E1 & Hds & Hns & Hnd). rewrite E in E1, Hns. cbn [with_tasks db_tasks db_heads db_wakes db_checkpoints] in *.
  assert (row_key (ts_Record t) ∉ (row_key ∘ ts_Record <$> l)) as Hfresh.
  { intros (t' & E' & Hin)%list_elem_of_fmap. specialize (Hns t' Hin). cbn [compose] in E'. rewrite E', lookup_insert_eq in Hns. done. }
  split_and!.
  - rewrite E1. unfold with_tasks. cbn [db_heads db_wakes db_checkpoints]. f_equal.
    unfold snapshot_rows. rewrite fmap_cons. cbn [list_to_map task_entry foldr uncurry]. 
    rewrite <- insert_union_r; [by rewrite insert_union_l|].
    apply not_elem_of_list_to_map. by rewrite <- list_fmap_compose.
  - intros x [->|Hx]%elem_of_cons; [done|by apply Hds].
  - intros x [->|Hx]%elem_of_cons; [done|]. specialize (Hns x Hx). by apply lookup_insert_None in Hns as [? _].
  - rewrite fmap_cons. by constructor.
Qed.

Lemma restored_wake_identity g w :
  w_ID (restored_wake g w) = w_ID w /\ wake_task (restored_wake g w) = wake_task w
  /\ w_Status (restored_wake g w) = w_Status w.
Proof. unfold restored_wake. case_bool_decide as H; [|done]. by rewrite <- H. Qed.

(** A snapshot wake that was inserted, and the record it was checked against. *)
Record wake_restored (generation : N) (records : gmap (AgentSessionKey * string) TaskRecord)
    (s : checkpointWakeSnapshot) (r : TaskRecord) : Prop := {
  wz_record : records !! wake_task (ws_Wake s) = Some r;
  wz_clock : ws_ClockID s = sp_ClockID (r_Spec r);
  wz_pair : validateTaskWakePair r (restored_wake generation (ws_Wake s)) = Ok tt
}.
Lemma restore_wakes_ok generation records l env st u st' :
  restore_wakes generation records l env st = (Ok u, st') -> wakes_ok (st_db st) ->
  wakes_ok (st_db st')
  /\ st_db st' = with_wakes (snapshot_wakes generation l ∪ db_wakes (st_db st)) (st_db st)
  /\ (forall s, s ∈ l -> db_wakes (st_db st) !! w_ID (ws_Wake s) = None)
  /\ (forall s, s ∈ l -> exists r, wake_restored generation records s r)
  /\ NoDup (w_ID ∘ ws_Wake <$> l).
Proof.
  revert st. induction l as [|s l IH]; intros st H Hok; cbn [restore_wakes] in H.
  { minv H. unfold snapshot_wakes. rewrite fmap_nil, list_to_map_nil, map_empty_union.
    split_and!; [done|by destruct (st_db st)|..]. 1, 2: by intros t ?%elem_of_nil. constructor. }
  destruct (restored_wake_identity generation (ws_Wake s)) as (Hid & Htask & _). minv H.
  match goal with H : insertCheckpointWakeTx _ _ _ _ _ = _ |- _ => unfold insertCheckpointWakeTx in H; minv H end.
  match goal with H : insert_wake _ _ _ = _ |- _ => apply insert_wake_ok in H as (Hn & _ & Hno & _ & E) end.
  cbn [wake_row wr_indexed] in *. rewrite Hid in Hn, Hno, E. boolp.
  match goal with H : _ /\ is_ok (validateTaskWakePair _ _) = true |- _ => destruct H as [Hck ([] & Hp)%is_ok_true] end.
  match goal with H : restore_wakes _ _ _ _ ?s1 = _ |- _ => assert (wakes_ok (st_db s1)) as Hok1; [|destruct (IH _ H Hok1) as (Hok' & E1 & Hns & Hps & Hnd)] end.
  { pose proof Hp as (_ & Hv & _)%validateTaskWakePair_ok. cbn [tick st_db]. rewrite E.
    eapply (wakes_ok_put (st_db st)); [done|reflexivity|exact Hid|done|exact Hv|exact Hno]. }
  cbn [tick st_db] in *. rewrite E in E1, Hns. cbn [with_wakes db_tasks db_heads db_wakes db_checkpoints] in *.
  assert (w_ID (ws_Wake s) ∉ (w_ID ∘ ws_Wake <$> l)) as Hfresh.
  { intros (t' & E' & Hin)%list_elem_of_fmap. specialize (Hns t' Hin). cbn [compose] in E'. rewrite E', lookup_insert_eq in Hns. done. }
  split_and!.
  - done.
  - rewrite E1. unfold with_wakes. cbn [db_heads db_tasks db_checkpoints]. f_equal.
    unfold snapshot_wakes. rewrite fmap_cons. cbn [list_to_map wake_entry foldr uncurry].
    rewrite <- insert_union_r; [by rewrite insert_union_l|].
    apply not_elem_of_list_to_map. by rewrite <- list_fmap_compose.
  - intros x [->|Hx]%elem_of_cons; [done|]. specialize (Hns x Hx). by apply lookup_insert_None in Hns as [? _].
  - intros x [->|Hx]%elem_of_cons; [|by apply Hps]. eexists. split; [by rewrite <- Htask|done|done].
  - rewrite fmap_cons. by constructor.
Qed.

Lemma restored_records_ok l k r : restored_records l !! k = Some r ->
  exists t, t ∈ l /\ ts_Record t = r /\ row_key r = k.
Proof.
  unfold restored_records. assert (forall m : gmap (AgentSessionKey * string) TaskRecord, foldl (fun m item => <[row_key (ts_Record item) := ts_Record item]> m) m l !! k = Some r ->
    m !! k = Some r \/ exists t, t ∈ l /\ ts_Record t = r /\ row_key r = k) as H.
  { induction l as [|t l IH]; intros m H; cbn [foldl] in H; [by left|].
    destruct (IH _ H) as [Hm|(t' & Ht & ? & ?)]; [|right; exists t'; split_and!; [by right|done..]].
    destruct (decide (row_key (ts_Record t) = k)) as [<-|Hne].
    - rewrite lookup_insert_eq in Hm. injection Hm as <-. right. exists t. split_and!; [by left|done..].
    - rewrite lookup_insert_ne in Hm by done. by left. }
  intros [Hm|]%H; [|done]. by rewrite lookup_empty in Hm.
Qed.

Lemma snapshot_rows_some l k c : snapshot_rows l !! k = Some c ->
  exists t, t ∈ l /\ c = checkpointTaskColumns t /\ k = row_key (ts_Record t).
Proof.
  unfold snapshot_rows. intros (t & [= -> ->] & Ht)%elem_of_list_to_map_2%list_elem_of_fmap. by exists t.
Qed.
Lemma snapshot_rows_elem l t : NoDup (row_key ∘ ts_Record <$> l) -> t ∈ l ->
  snapshot_rows l !! row_key (ts_Record t) = Some (checkpointTaskColumns t).
Proof.
  intros Hnd Ht. apply elem_of_list_to_map_1; [by rewrite <- list_fmap_compose|].
  apply list_elem_of_fmap. by exists t.
Qed.
Lemma snapshot_wakes_some g l i c : snapshot_wakes g l !! i = Some c ->
  exists s, s ∈ l /\ c = wake_row (ws_ClockID s) (restored_wake g (ws_Wake s)) /\ i = w_ID (ws_Wake s).
Proof.
  unfold snapshot_wakes. intros (s & [= -> ->] & Hs)%elem_of_list_to_map_2%list_elem_of_fmap. by exists s.
Qed.
Lemma snapshot_wakes_elem g l s : NoDup (w_ID ∘ ws_Wake <$> l) -> s ∈ l ->
  snapshot_wakes g l !! w_ID (ws_Wake s) = Some (wake_row (ws_ClockID s) (restored_wake g (ws_Wake s))).
Proof.
  intros Hnd Hs. apply elem_of_list_to_map_1; [by rewrite <- list_fmap_compose|].
  apply list_elem_of_fmap. by exists s.
Qed.

(** ** What validation of a snapshot establishes *)
Lemma scan_task_ok world sc t sc' : canonical_task t -> scan_task world sc t = Some sc' ->
  (in_world world (r_Owner (ts_Record t)) = true /\ r_State (ts_Record t) <> StateRunning)
  /\ sc_taskMap sc !! row_key (ts_Record t) = None
  /\ sc_taskMap sc' = <[row_key (ts_Record t) := ts_Record t]> (sc_taskMap sc).
Proof.
  intros [Hc Hh] H. unfold scan_task in H. destruct (decodeTaskRowColumns _) as [d|e] eqn:Hd; [|done].
  apply decode_canonical in Hd as [E _ _ _ _ _ _ _]; [|exact Hc|exact Hh]. rewrite E in H.
  cbn [checkpointTaskColumns co_recordJSON] in H.
  destruct (! sameOwnerWorld _ _ || _) eqn:Hw; [done|]. destruct (normalizeCheckpointRecord _); [|done].
  destruct (! json_texts_equal _ _); [done|]. destruct (bool_decide _ || _) eqn:Hk; [done|].
  destruct (! requiredIdentity _ || _ || _); [done|].
  apply orb_false_iff in Hw as [Hw%negb_false_iff Hs%bool_decide_eq_false]. apply orb_false_iff in Hk as [Hk%bool_decide_eq_false _].
  split; [split; [exact Hw|exact Hs]|]. split; [by apply eq_None_not_Some|]. opt_inv H. done.
Qed.
Lemma scan_tasks_ok world l sc sc' : Forall canonical_task l -> scan_tasks world sc l = Some sc' ->
  (forall t, t ∈ l -> (in_world world (r_Owner (ts_Record t)) = true /\ r_State (ts_Record t) <> StateRunning)
                      /\ sc_taskMap sc' !! row_key (ts_Record t) = Some (ts_Record t))
  /\ forall k r, sc_taskMap sc !! k = Some r -> sc_taskMap sc' !! k = Some r.
Proof.
  intros Hl. revert sc. induction Hl as [|t l Ht _ IH]; intros sc H; cbn [scan_tasks] in H.
  { simplify_eq. split; [by intros t ?%elem_of_nil|done]. }
  opt_inv H. apply scan_task_ok in Hx as (Hw & Hn & E); [|done]. destruct (IH _ H) as [Hin Hkeep]. split.
  - intros y [->|Hy]%elem_of_cons; [|by apply Hin]. split; [done|]. apply Hkeep. rewrite E. apply lookup_insert_eq.
  - intros k r Hk. apply Hkeep. rewrite E, lookup_insert_ne; [done|congruence].
Qed.

(** A delivery of the snapshot, of the generation it was fenced under. *)
Definition snapshot_delivery (s : checkpointSnapshot) (l : list checkpointWakeSnapshot)
    (k : AgentSessionKey * string) : Prop :=
  exists w, w ∈ l /\ wake_task (ws_Wake w) = k /\ w_Status (ws_Wake w) = wakeStatusPending.
Lemma scan_wake_ok s m sw w sw' : scan_wake s m sw w = Some sw' ->
  in_world (sn_World s) (w_Owner (ws_Wake w)) = true
  /\ (w_Status (ws_Wake w) = wakeStatusPending
      /\ w_Generation (ws_Wake w) = bd_Generation (hd_Binding (sn_PreparedHead s))
      \/ w_Status (ws_Wake w) = wakeStatusConsumed)
  /\ forall k, default 0 (sw_active sw' !! k) <> default 0 (sw_active sw !! k) ->
       wake_task (ws_Wake w) = k /\ w_Status (ws_Wake w) = wakeStatusPending.
Proof.
  intros H. unfold scan_wake in H. destruct (! is_ok _ || _ || _) eqn:Hw; [done|].
  destruct ((_ != _) && _) eqn:Hs; [done|]. opt_inv H. destruct ((_ != _) || _); [done|]. opt_inv H.
  assert (in_world (sn_World s) (w_Owner (ws_Wake w)) = true) as Hin.
  { apply orb_false_iff in Hw as [_ Hw%negb_false_iff]. exact Hw. }
  split; [done|]. case_bool_decide as Hp; cycle 1.
  { cbn [negb andb] in Hs. apply negb_false_iff, bool_decide_eq_true in Hs. opt_inv H. split; [by right|done]. }
  destruct (negb (_ =? _)%N) eqn:Hg; [done|]. opt_inv H. apply negb_false_iff, N.eqb_eq in Hg. split; [by left|].
  intros k Hk. cbn [sw_active] in Hk. split; [|done]. apply dec_stable. intros Hne.
  by rewrite lookup_partial_alter_ne in Hk.
Qed.
Lemma scan_wakes_ok s m l sw sw' : scan_wakes s m sw l = Some sw' ->
  (forall w, w ∈ l -> in_world (sn_World s) (w_Owner (ws_Wake w)) = true
    /\ (w_Status (ws_Wake w) = wakeStatusPending
        /\ w_Generation (ws_Wake w) = bd_Generation (hd_Binding (sn_PreparedHead s))
        \/ w_Status (ws_Wake w) = wakeStatusConsumed))
  /\ forall k, default 0 (sw_active sw' !! k) <> default 0 (sw_active sw !! k) -> snapshot_delivery s l k.
Proof.
  revert sw. induction l as [|w l IH]; intros sw H; cbn [scan_wakes] in H.
  { simplify_eq. split; [by intros w ?%elem_of_nil|done]. }
  opt_inv H. apply scan_wake_ok in Hx as (Hw & Hs & Hact). destruct (IH _ H) as [Hin Hk]. split.
  - intros y [->|Hy]%elem_of_cons; [done|by apply Hin].
  - intros k Hne. destruct (decide (default 0 (sw_active x !! k) = default 0 (sw_active sw !! k))) as [E|E].
    + rewrite <- E in Hne. destruct (Hk k Hne) as (y & Hy & ?). exists y. split; [by right|done].
    + exists w. split; [by left|]. by apply Hact.
Qed.

Record snapshot_sound (s : checkpointSnapshot) : Prop := {
  ss_tasks : forall t, t ∈ sn_Tasks s -> in_world (sn_World s) (r_Owner (ts_Record t)) = true;
  ss_running : forall t, t ∈ sn_Tasks s -> r_State (ts_Record t) <> StateRunning;
  ss_wakes : forall w, w ∈ sn_Wakes s -> in_world (sn_World s) (w_Owner (ws_Wake w)) = true
    /\ (w_Status (ws_Wake w) = wakeStatusPending
        /\ w_Generation (ws_Wake w) = bd_Generation (hd_Binding (sn_PreparedHead s))
        \/ w_Status (ws_Wake w) = wakeStatusConsumed);
  ss_waiting : forall t, t ∈ sn_Tasks s -> r_State (ts_Record t) = StateWaiting ->
    snapshot_delivery s (sn_Wakes s) (row_key (ts_Record t))
}.
Lemma checkpointSnapshot_validate_sound s :
  Forall canonical_task (sn_Tasks s) -> checkpointSnapshot_validate s = Ok tt -> snapshot_sound s.
Proof.
  intros Hc H. unfold checkpointSnapshot_validate in H. okinv H.
  match goal with H : scan_tasks _ _ _ = Some _ |- _ => apply scan_tasks_ok in H as [Ht _]; [|done] end.
  match goal with H : scan_wakes _ _ _ _ = Some _ |- _ => apply scan_wakes_ok in H as [Hw Hact] end.
  split; [intros t Hin; by apply Ht|intros t Hin; by apply Ht|exact Hw|]. intros t Hin Hs. apply Hact. cbn [sw_active]. rewrite lookup_empty.
  match goal with H : (! active_wakes_match _ _) = false |- _ => apply negb_false_iff in H; rename H into Ha end.
  unfold active_wakes_match in Ha. rewrite forallb_forall in Ha.
  destruct (Ht t Hin) as [_ Hm]. specialize (Ha _ (proj1 (list_elem_of_In _ _) (proj2 (elem_of_map_to_list _ _ _) Hm))).
  cbn [fst snd] in Ha. rewrite Hs, bool_decide_true in Ha by done. apply Nat.eqb_eq in Ha. by rewrite Ha.
Qed.

(** ** The restored working set *)
Record restored_from (world : WorldKey) (generation : N) (s : checkpointSnapshot) (db db' : DB) : Prop := {
  rs_heads : db_heads db' = db_heads db;
  rs_tasks : db_tasks db' = snapshot_rows (sn_Tasks s) ∪ outside_tasks world (db_tasks db);
  rs_wakes : db_wakes db' = snapshot_wakes generation (sn_Wakes s) ∪ outside_wakes world (db_wakes db);
  rs_checkpoints : db_checkpoints db' = db_checkpoints db
}.

Section restored.
Context (world : WorldKey) (generation : N) (s : checkpointSnapshot) (db db' : DB).
Context (Hi : intact db) (Hcan : Forall canonical_task (sn_Tasks s)) (Hsound : snapshot_sound s).
Context (Hworld : sn_World s = world) (Hr : restored_from world generation s db db').
Context (Hdec : forall t, t ∈ sn_Tasks s -> exists d, decodeTaskRowColumns (checkpointTaskColumns t) = Ok d).

Lemma snapshot_row_in_world k c : snapshot_rows (sn_Tasks s) !! k = Some c -> in_world world k.1 = true.
Proof using Hsound Hworld. intros (t & Ht & -> & ->)%snapshot_rows_some. rewrite <- Hworld. by apply (ss_tasks _ Hsound). Qed.

Lemma restored_row k c : db_tasks db' !! k = Some c <->
  snapshot_rows (sn_Tasks s) !! k = Some c \/ db_tasks db !! k = Some c /\ in_world world k.1 = false.
Proof using Hi Hsound Hworld Hr.
  rewrite (rs_tasks _ _ _ _ _ Hr), lookup_union_Some_raw, outside_tasks_lookup.
  assert (forall d, db_tasks db !! k = Some d -> co_owner d = k.1) as Hk by (by intros d <-%(tasks_wf_keyed _ (proj1 Hi))).
  split; [intros [?|[_ [H1 H2] ]]|intros [?|[H1 H2] ]]; try by left.
  - right. rewrite <- (Hk _ H1). done.
  - right. rewrite (Hk _ H1). split; [|done]. destruct (snapshot_rows _ !! k) eqn:E; [|done].
    apply snapshot_row_in_world in E. congruence.
Qed.

Lemma restored_tasks_wf : tasks_wf db'.
Proof using Hi Hcan Hsound Hworld Hr Hdec.
  intros k c [ (t & Ht & -> & ->)%snapshot_rows_some|[Hc _] ]%restored_row; [|by apply Hi].
  rewrite Forall_forall in Hcan. destruct (Hcan t Ht). split; try done. by apply Hdec.
Qed.

Lemma restored_topology :
  wakes_ok db' -> NoDup (row_key ∘ ts_Record <$> sn_Tasks s) -> NoDup (w_ID ∘ ws_Wake <$> sn_Wakes s) ->
  (forall w, w ∈ sn_Wakes s -> outside_wakes world (db_wakes db) !! w_ID (ws_Wake w) = None) ->
  (forall w, w ∈ sn_Wakes s -> exists r, wake_restored generation (restored_records (sn_Tasks s)) w r) ->
  topology db'.
Proof using Hi Hsound Hworld Hr.
  intros Hok Hnt Hnw Hfree Hpair. destruct Hi as [Hwf [_ [Hpw Hpt] ] ]. split; [done|]. split.
  - intros id c Hc _. rewrite (rs_wakes _ _ _ _ _ Hr), lookup_union_Some_raw, outside_wakes_lookup in Hc.
    destruct Hc as [(w & Hw & -> & ->)%snapshot_wakes_some|(_ & Hc & Hout)].
    + destruct (Hpair w Hw) as (r & [(t & Ht & <- & Hk)%restored_records_ok Hck Hp]).
      apply validateTaskWakePair_ok in Hp as (_ & _ & Hfit). exists (checkpointTaskColumns t).
      split_and!; [|exact Hfit|exact Hck]. apply restored_row. left. cbn [wake_row wr_indexed].
      rewrite <- (proj1 Hfit). by apply snapshot_rows_elem.
    + destruct (Hpw id c Hc I) as (row & Hrow & Hfit). exists row. split; [|done]. apply restored_row. by right.
  - intros k row Hk _ Hs. apply restored_row in Hk as [(t & Ht & -> & ->)%snapshot_rows_some|[Hk Hout] ].
    + destruct (ss_waiting _ Hsound t Ht Hs) as (w & Hw & Hwk & Hst).
      destruct (restored_wake_identity generation (ws_Wake w)) as (_ & E & Est).
      exists (w_ID (ws_Wake w)). eexists. rewrite (rs_wakes _ _ _ _ _ Hr). split_and!.
      * apply lookup_union_Some_l. by apply snapshot_wakes_elem.
      * cbn [wake_row wr_indexed]. congruence.
      * cbn [wake_row wr_indexed]. by rewrite Est, Hst.
    + destruct (Hpt k row Hk I Hs) as (id & c & Hc & Hck & He). exists id, c. split; [|done].
      assert (outside_wakes world (db_wakes db) !! id = Some c) as Ho.
      { apply outside_wakes_lookup. split; [done|]. rewrite <- Hck in Hout. exact Hout. }
      rewrite (rs_wakes _ _ _ _ _ Hr). apply lookup_union_Some_raw. right. split; [|done].
      destruct (snapshot_wakes generation (sn_Wakes s) !! id) as [y|] eqn:E; [|done].
      apply snapshot_wakes_some in E as (w & Hw & -> & ->). rewrite Hfree in Ho; done.
Qed.
End restored.

Lemma outside_wakes_ok w db db' : wakes_ok db -> db_wakes db' = outside_wakes w (db_wakes db) -> wakes_ok db'.
Proof.
  intros [H1 H2] E. split; rewrite E.
  - intros id c [Hc _]%outside_wakes_lookup. by apply H1.
  - intros i j x y [Hc _]%outside_wakes_lookup [Hd _]%outside_wakes_lookup. by eapply H2.
Qed.

Lemma restore_working_set_ok world generation s env st u st' :
  intact (st_db st) -> Forall canonical_task (sn_Tasks s) -> snapshot_sound s -> sn_World s = world ->
  restore_working_set world generation s env st = (Ok u, st') ->
  restored_from world generation s (st_db st) (st_db st') /\ intact (st_db st').
Proof.
  intros Hi Hcan Hs <- H. unfold restore_working_set in H. minv H.
  match goal with H : delete_world_wakes _ _ _ = _ |- _ => apply delete_world_wakes_ok in H as E1 end.
  match goal with H : delete_world_tasks _ _ _ = _ |- _ => apply delete_world_tasks_ok in H as E2 end.
  match goal with H : restore_tasks _ _ _ = _ |- _ => apply restore_tasks_ok in H as (E3 & Hdec & _ & Hnt) end.
  cbn [tick st_db] in *. rewrite E2, E1 in E3. cbn [with_tasks with_wakes db_tasks db_wakes db_heads db_checkpoints] in E3.
  rewrite outside_wakes_idem in E3.
  apply restore_wakes_ok in H as (Hok & E4 & Hfree & Hpair & Hnw); cycle 1.
  { eapply outside_wakes_ok; [apply Hi|]. by rewrite E3. }
  assert (restored_from (sn_World s) generation s (st_db st) (st_db st')) as Hres by (by split; rewrite E4, E3).
  split; [done|]. rewrite E3 in Hfree. split; [by eapply restored_tasks_wf|by eapply restored_topology].
Qed.

(** ** Restoring as an operation *)
Lemma decodeCheckpointRow_ok row s : decodeCheckpointRow row = Ok s ->
  cloneSnapshot (cp_Snapshot row) = Some s /\ Forall canonical_task (sn_Tasks s) /\ snapshot_sound s
  /\ sn_World s = cp_World row.
Proof.
  intros H. unfold decodeCheckpointRow in H. okinv H.
  match goal with H : cloneSnapshot _ = Some _ |- _ => rename H into Hc; pose proof (cloneSnapshot_canonical _ _ Hc) as Hcan end.
  match goal with H : validateDecodedCheckpoint _ _ = Ok ?u |- _ => destruct u; unfold validateDecodedCheckpoint in H; okinv H; rename H into Hval end.
  split_and!; [done|done|by apply checkpointSnapshot_validate_sound|].
  match goal with H : (_ || _ || (cp_World row != _) || _ || _ || _ || _) = false |- _ => boolp end. symmetry. tauto.
Qed.

(** What a successful restore did. *)
Record restore_done (world : WorldKey) (runID : string) (ref : CheckpointRef) (head : Head) (db db' : DB) : Prop := {
  rd_binding : bd_World (hd_Binding head) = world /\ bd_RunID (hd_Binding head) = runID;
  rd_checkpoint : exists row s, db_checkpoints db !! rf_ID ref = Some row
    /\ cp_World row = world /\ cp_Checksum row = rf_Checksum ref /\ decodeCheckpointRow row = Ok s
    /\ (bd_Generation (hd_Binding (sn_PreparedHead s)) < bd_Generation (hd_Binding head))%N
    /\ restored_from world (bd_Generation (hd_Binding head)) s db (with_heads (db_heads db) db');
  rd_generation : forall c r, db_heads db !! world = Some c -> scanWorldHeadRow world c = Ok r ->
    (bd_Generation (hd_Binding (wh_Head r)) < bd_Generation (hd_Binding head))%N
    /\ bd_RunID (hd_Binding (wh_Head r)) <> runID;
  rd_head : exists claimant, db_heads db' = <[world := head_columns (fresh_head_row head claimant)]> (db_heads db)
}.

Lemma insertWorldHeadTx_ok row env st u st' : insertWorldHeadTx row env st = (Ok u, st') ->
  db_heads (st_db st) !! bd_World (hd_Binding (wh_Head row)) = None
  /\ st_db st' = with_heads (<[bd_World (hd_Binding (wh_Head row)) := head_columns row]> (db_heads (st_db st))) (st_db st).
Proof.
  unfold insertWorldHeadTx, insert_head. intros H%exec_ok. okinv H. boolp. split; [by apply eq_None_not_Some|].
  match goal with H : put_head _ _ _ = Ok _ |- _ => by apply put_head_ok in H end.
Qed.
Lemma loadCheckpointTx_ok w i env st o st' : loadCheckpointTx w i env st = (Ok o, st') ->
  st_db st' = st_db st /\ forall row, o = Some row -> db_checkpoints (st_db st) !! i = Some row /\ cp_World row = w.
Proof.
  intros H. unfold loadCheckpointTx in H. minv H. split; [done|]. intros row ->.
  destruct (db_checkpoints (st_db st) !! i) as [r|]; [|done]. case_bool_decide; [|done]. okinv H.
  unfold scanCheckpointRow in *. okinv Hv. done.
Qed.
Lemma base_generation_bound s current :
  (bd_Generation (hd_Binding (sn_PreparedHead s)) <= base_generation s current)%N
  /\ forall r, current = Some r -> (bd_Generation (hd_Binding (wh_Head r)) <= base_generation s current)%N.
Proof.
  unfold base_generation. destruct current as [r|]; [|done].
  destruct (N.ltb_spec (bd_Generation (hd_Binding (sn_PreparedHead s))) (bd_Generation (hd_Binding (wh_Head r)))).
  - split; [lia|intros ? [= <-]; lia].
  - split; [lia|intros ? [= <-]; lia].
Qed.

Lemma activate_checkpoint_tx_ok world runID clock ref env st h st' :
  intact (st_db st) -> activate_checkpoint_tx world runID clock ref env st = (Ok h, st') ->
  intact (st_db st') /\ restore_done world runID ref h (st_db st) (st_db st').
Proof.
  intros Hi H. unfold activate_checkpoint_tx in H. minv H.
  match goal with H : loadCheckpointTx _ _ _ _ = _ |- _ => apply loadCheckpointTx_ok in H as [E1 Hrow]; destruct (Hrow _ eq_refl) as [Hcp <-]; clear Hrow; rename a0 into row end.
  match goal with H : loadWorldHeadTx _ _ _ = (Ok ?o, _) |- _ => rename o into current; apply loadWorldHeadTx_ok in H as [E2 Hcur] end.
  match goal with H : decodeCheckpointRow _ = Ok ?sn |- _ => rename sn into snap, H into Hdec; destruct (decodeCheckpointRow_ok _ _ Hdec) as (_ & Hcan & Hs & Hw) end.
  match goal with H : restore_working_set _ _ _ _ ?s0 = _ |- _ =>
    rewrite E1 in E2, Hcur; rewrite <- E2 in Hi, Hcp, Hcur |- *;
    apply restore_working_set_ok in H as [Hres Hi1]; [|done..] end.
  match goal with H : NextDurableCounter _ = Ok _ |- _ => apply NextDurableCounter_ok in H as [_ ->] end.
  match goal with H : _ env ?s2 = (Ok _, ?s3), _ : intact (st_db ?s2) |- _ => rename H into Hwrite;
    assert (st_db s3 = with_heads (<[cp_World row := head_columns (fresh_head_row
      (activated_head (cp_World row) runID (base_generation snap current + 1) clock (cp_ID row)) (e_claimantID env))]>
      (db_heads (st_db s2))) (st_db s2)) as E3; [destruct current; minv Hwrite|] end.
  - match goal with H : updateWorldHeadCASTx _ _ _ _ = _ |- _ => apply updateWorldHeadCASTx_ok in H as (_ & _ & ->) end.
    by destruct Hcur as (c & _ & [-> _]%scanWorldHeadRow_ok).
  - match goal with H : insertWorldHeadTx _ _ _ = _ |- _ => apply insertWorldHeadTx_ok in H as [_ H]; exact H end.
  - destruct (base_generation_bound snap current) as [G1 G2]. split; [eapply sound_intact, sound_same; [exact Hi1|by rewrite E3..]|].
    split; [done|..].
    + exists row, snap. boolp. split_and!; [done|done|tauto|done|cbn [activated_head hd_Binding bd_Generation]; lia|]. destruct Hres. split; by rewrite ?E3.
    + intros c r Hc Hr. destruct current as [r0|]; [|congruence]. destruct Hcur as (c0 & Hc0 & Hr0).
      assert (r0 = r) as -> by congruence. specialize (G2 r eq_refl). split; [cbn [activated_head hd_Binding bd_Generation]; lia|]. by boolp.
    + eexists. rewrite E3. cbn [with_heads db_heads]. by rewrite (rs_heads _ _ _ _ _ Hres).
Qed.

(** ** Activation keeps tasks and wakes in agreement *)
Definition Keeps {A} (m : M A) : Prop := forall env st o st',
  intact (st_db st) -> m env st = (o, st') -> intact (st_db st').
Lemma keeps_sound {A} (m : M A) : Sound m -> Keeps m.
Proof. intros Hm env st o st' Hi H. by eapply sound_intact, Hm. Qed.
Lemma keeps_bind {A B} (m : M A) (f : A -> M B) : Keeps m -> (forall a, Keeps (f a)) -> Keeps (m ≫= f).
Proof.
  intros Hm Hf env st o st' Hi H. unfold mbind, M_bind in H. destruct (m env st) as [[a|e] st1] eqn:H1.
  - eapply Hf; [|exact H]. by eapply Hm.
  - simplify_eq. by eapply Hm.
Qed.
Lemma keeps_lift {A B} (x : outcome error A) (f : A -> M B) : (forall a, x = Ok a -> Keeps (f a)) -> Keeps (lift x ≫= f).
Proof.
  intros Hf env st o st' Hi H. unfold mbind, M_bind, lift in H. destruct x as [a|e]; [by eapply Hf|]. by simplify_eq.
Qed.
Lemma keeps_attempt {A} (m : M A) : Keeps m -> Keeps (attempt m).
Proof. intros Hm env st o st' Hi H. unfold attempt in H. destruct (m env st) eqn:H1. simplify_eq. by eapply Hm. Qed.
#[export] Instance ro_attempt {A} (m : M A) : ReadOnly m -> ReadOnly (attempt m).
Proof. intros Hm env st o st' H. unfold attempt in H. destruct (m env st) eqn:H1. simplify_eq. by eapply Hm. Qed.

Lemma activateCheckpoint_keeps w r k ref : Keeps (activateCheckpoint w r k ref).
Proof.
  intros env st [h|e] st' Hi H.
  - apply tx_ok in H as (st1 & st2 & E1 & H & ->). rewrite <- E1 in Hi. by apply activate_checkpoint_tx_ok in H as [? _].
  - apply tx_err in H. by rewrite H.
Qed.
Lemma pause_and_fail_sound w r k e : Sound (pause_and_fail w r k e).
Proof. unfold pause_and_fail. apply sound_bind; [apply pauseWorldForCheckpointFailure_sound|intros _]. apply sound_ro, _. Qed.
Lemma restore_or_pause_keeps w r k ref : Keeps (restore_or_pause w r k ref).
Proof.
  unfold restore_or_pause. apply keeps_bind; [by apply keeps_attempt, activateCheckpoint_keeps|].
  intros [h|e]; [apply keeps_sound, sound_ro, _|]. apply keeps_sound, pause_and_fail_sound.
Qed.

(** An activation that is not asked to restore leaves the restoring branches aside. *)
Section activate.
Context (w : WorldKey) (r : string) (k : Clock) (ref : CheckpointRef) (P : forall A, M A -> Prop).
Context (P_read : forall A (m : M A), ReadOnly m -> P A m).
Context (P_ro : forall A B (m : M A) (f : A -> M B), ReadOnly m -> (forall a, P B (f a)) -> P B (m ≫= f)).
Context (P_lift : forall A B (x : outcome error A) (f : A -> M B), (forall a, x = Ok a -> P B (f a)) -> P B (lift x ≫= f)).
Context (P_pause : forall e, P _ (pause_and_fail w r k e)) (P_paused : P _ (activatePausedWorkingHead w r k)).
Context (P_run : P _ (activate_run w r k)).
Context (P_restore : rf_Status ref = checkpointStatusConfirmed -> P _ (restore_or_pause w r k ref)).

Lemma ActivateWorld_cases : P _ (ActivateWorld w r k ref).
Proof using P_read P_ro P_lift P_pause P_paused P_run P_restore.
  unfold ActivateWorld. apply P_ro; [apply _|intros _]. apply P_lift. intros _ _.
  destruct (validateCheckpointReference w ref) as [u|e]; [|apply P_pause].
  apply P_ro; [apply _|]. intros [current|e].
  - destruct (wh_RecoveryRunID current != "").
    + apply P_lift. intros _ Hc%fail_if_ok. apply P_restore. by boolp.
    + destruct (_ && _); [apply P_paused|].
      destruct (bd_RunID _ != r); [|apply P_run].
      destruct (rf_Status ref != _) eqn:Hc; [apply P_pause|]. apply P_restore. by boolp.
  - case_match; [|apply P_read, _]. destruct (rf_Status ref == _) eqn:Hc; [|apply P_run].
    apply P_restore. by boolp.
Qed.
End activate.

Lemma ActivateWorld_keeps w r k ref : Keeps (ActivateWorld w r k ref).
Proof.
  apply (ActivateWorld_cases _ _ _ _ (@Keeps)).
  - intros A m Hm. by apply keeps_sound, sound_ro.
  - intros A B m f Hm. apply keeps_bind, keeps_sound. by apply sound_ro.
  - intros A B. apply keeps_lift.
  - intros e. apply keeps_sound, pause_and_fail_sound.
  - apply keeps_sound, activatePausedWorkingHead_sound.
  - apply keeps_sound, activate_run_sound.
  - intros _. apply restore_or_pause_keeps.
Qed.
Lemma ActivateWorld_sound w r k ref : rf_Status ref <> checkpointStatusConfirmed -> Sound (ActivateWorld w r k ref).
Proof.
  intros Hn. apply (ActivateWorld_cases _ _ _ _ (@Sound)).
  - intros A m. apply sound_ro.
  - intros A B m f Hm. apply sound_bind. by apply sound_ro.
  - intros A B. apply sound_lift.
  - apply pause_and_fail_sound.
  - apply activatePausedWorkingHead_sound.
  - apply activate_run_sound.
  - done.
Qed.
