(* ===== verification/Kernel.v ===== *)
(** * The kernel: runs of service calls

    A run is a sequence of calls of any kind in any order, by any runtime, each
    under its own driver-fault and cancellation schedule; transactions are
    immediate, so concurrent calls are serialised the same way. *)

From S2P Require Export Restoring.

Local Open Scope go_scope.

(** ** Calls *)
Inductive call :=
| CallReadHead (world : WorldKey)
| CallUpdateClock (binding : Binding) (clock : Clock)
| CallDeactivateWorld (binding : Binding) (reason : string)
| CallActivateWorld (world : WorldKey) (runID : string) (clock : Clock) (ref : CheckpointRef)
| CallPrepareCheckpoint (binding : Binding) (clock : Clock) (saveRequestID : string) (evidence : list Evidence)
| CallFinishCheckpoint (binding : Binding) (saveRequestID : string) (saved : bool)
| CallReadCheckpointBarrier (world : WorldKey)
| CallCreate (exec : ExecutionContext) (spec : TaskSpec) (admission : Admission)
| CallRead (owner : AgentSessionKey) (taskID : string)
| CallList (owner : AgentSessionKey) (limit : Z)
| CallListActive (owner : AgentSessionKey) (limit : Z)
| CallListRecentResults (owner : AgentSessionKey) (limit : Z)
| CallApplyIntent (exec : ExecutionContext) (intent : Intent)
| CallAdmitEvidence (binding : Binding) (evidence : Evidence)
| CallRegisterOperation (exec : ExecutionContext) (operation : Operation)
| CallMarkOperationNotSent (binding : Binding) (owner : AgentSessionKey) (taskID operationID actionID : string)
| CallRecordCleanup (binding : Binding) (taskID : string) (cleanup : Cleanup)
| CallReconcile (exec : ExecutionContext)
| CallFinishAttempt (exec : ExecutionContext) (outcome : AttemptOutcome)
| CallClaimDue (binding : Binding) (clock : Clock) (limit : Z)
| CallMarkEnqueued (binding : Binding) (wakeID claimID : string)
| CallReleaseClaim (binding : Binding) (wakeID claimID : string) (retryAt : Time)
| CallBeginWake (binding : Binding) (wakeID claimID : string)
| CallInspectWake (binding : Binding) (wakeID : string).

Definition discard {A} (m : M A) : M unit := _ ← m; mret tt.

(** Dispatch of a call, its answer dropped. *)
Definition perform (c : call) : M unit :=
  match c with
  | CallReadHead w => discard (ReadHead w)
  | CallUpdateClock b k => discard (UpdateClock b k)
  | CallDeactivateWorld b r => DeactivateWorld b r
  | CallActivateWorld w r k f => discard (ActivateWorld w r k f)
  | CallPrepareCheckpoint b k s l => discard (PrepareCheckpoint b k s l)
  | CallFinishCheckpoint b s v => FinishCheckpoint b s v
  | CallReadCheckpointBarrier w => discard (ReadCheckpointBarrier w)
  | CallCreate e s a => discard (Create e s a)
  | CallRead o t => discard (Read o t)
  | CallList o l => discard (ReadList o l)
  | CallListActive o l => discard (ListActive o l)
  | CallListRecentResults o l => discard (ListRecentResults o l)
  | CallApplyIntent e i => discard (ApplyIntent e i)
  | CallAdmitEvidence b e => discard (AdmitEvidence b e)
  | CallRegisterOperation e o => discard (RegisterOperation e o)
  | CallMarkOperationNotSent b o t i a => MarkOperationNotSent b o t i a
  | CallRecordCleanup b t c => RecordCleanup b t c
  | CallReconcile e => discard (Reconcile e)
  | CallFinishAttempt e o => discard (FinishAttempt e o)
  | CallClaimDue b k l => discard (ClaimDue b k l)
  | CallMarkEnqueued b w i => MarkEnqueued b w i
  | CallReleaseClaim b w i t => ReleaseClaim b w i t
  | CallBeginWake b w i => discard (BeginWake b w i)
  | CallInspectWake b w => discard (InspectWake b w)
  end.

(** One call, whatever its answer.  A reachable store is one that some sequence of
    calls makes out of an empty one. *)
Inductive step : DB -> DB -> Prop :=
| step_call c env n o st' db : perform c env (mkSt db n) = (o, st') -> step db (st_db st').
Definition reachable (db : DB) : Prop := rtc step empty_db db.

(** Calls that may not go back to a checkpoint, and runs of them: between two
    restores a world only moves forward. *)
Definition forward (c : call) : bool :=
  match c with
  | CallActivateWorld _ _ _ ref => rf_Status ref != checkpointStatusConfirmed
  | _ => true
  end.
Inductive forward_step : DB -> DB -> Prop :=
| forward_call c env n o st' db :
    forward c = true -> perform c env (mkSt db n) = (o, st') -> forward_step db (st_db st').
Definition run : DB -> DB -> Prop := rtc forward_step.

Lemma run_reachable db db' : reachable db -> run db db' -> reachable db'.
Proof.
  intros Hr H. induction H as [|db db1 db' [c env n o st' db0 _ Hp] _ IH]; [done|].
  apply IH. eapply rtc_r; [exact Hr|by eapply step_call].
Qed.

(** ** Every call is sound *)
Lemma sound_discard {A} (m : M A) : Sound m -> Sound (discard m).
Proof. intros Hm. apply sound_bind; [done|]. intros a. apply sound_ro, _. Qed.
Lemma keeps_discard {A} (m : M A) : Keeps m -> Keeps (discard m).
Proof. intros Hm. apply keeps_bind; [done|]. intros a. apply keeps_sound, sound_ro, _. Qed.

(** Read-only calls and calls that write to heads only. *)
Ltac sound_head := repeat first
  [ apply sound_discard | apply sound_ro; apply _ | apply sound_tx, soundOk_kr; apply _
  | apply sound_bind; [apply sound_ro; apply _|intros ?] ].
(** Calls that write to wakes, not to tasks. *)
Ltac evolves_wakes := repeat first
  [ apply evolves_tx, evolvesOk_kt; apply _ | apply evolves_bind; [apply evolves_ro; apply _|intros ?] ].

Lemma ClaimDue_sound b k l : Sound (ClaimDue b k l).
Proof. apply sound_of; [|apply ClaimDue_topology]. unfold ClaimDue, wake_world. evolves_wakes. Qed.
Lemma MarkEnqueued_sound b w i : Sound (MarkEnqueued b w i).
Proof. apply sound_of; [|apply MarkEnqueued_topology]. unfold MarkEnqueued, wake_world. evolves_wakes. Qed.
Lemma ReleaseClaim_sound b w i t : Sound (ReleaseClaim b w i t).
Proof. apply sound_of; [|apply ReleaseClaim_topology]. unfold ReleaseClaim, wake_world. evolves_wakes. Qed.

Lemma perform_sound c : forward c = true -> Sound (perform c).
Proof.
  intros Hf. destruct c; cbn [perform].
  - unfold ReadHead. sound_head.
  - unfold UpdateClock. sound_head.
  - unfold DeactivateWorld. sound_head.
  - apply sound_discard, ActivateWorld_sound. cbn [forward] in Hf. by boolp.
  - apply sound_discard, PrepareCheckpoint_sound.
  - unfold FinishCheckpoint. sound_head.
  - unfold ReadCheckpointBarrier. sound_head.
  - apply sound_discard, sound_of; [apply Create_effect|apply Create_topology].
  - unfold Read, loadTask, validateWorldTaskIdentityGraph. sound_head.
  - unfold ReadList, validateWorldTaskIdentityGraph, read_rows. sound_head.
  - unfold ListActive, validateWorldTaskIdentityGraph, read_rows. sound_head.
  - unfold ListRecentResults, validateWorldTaskIdentityGraph, read_rows. sound_head.
  - apply sound_discard, sound_of; [apply ApplyIntent_effect|apply ApplyIntent_topology].
  - apply sound_discard, sound_of; [apply AdmitEvidence_effect|apply AdmitEvidence_topology].
  - apply sound_discard, sound_of; [apply RegisterOperation_effect|apply RegisterOperation_topology].
  - apply sound_of; [apply MarkOperationNotSent_effect|apply MarkOperationNotSent_topology].
  - apply sound_of; [apply RecordCleanup_effect|apply RecordCleanup_topology].
  - apply sound_discard, sound_of; [apply Reconcile_effect|apply Reconcile_topology].
  - apply sound_discard, sound_of; [apply FinishAttempt_effect|apply FinishAttempt_topology].
  - apply sound_discard, ClaimDue_sound.
  - apply MarkEnqueued_sound.
  - apply ReleaseClaim_sound.
  - apply sound_discard, sound_of; [apply BeginWake_effect|apply BeginWake_topology].
  - unfold InspectWake. sound_head.
Qed.
Lemma perform_keeps c : Keeps (perform c).
Proof.
  destruct c; try by (apply keeps_sound, perform_sound). apply keeps_discard, ActivateWorld_keeps.
Qed.

(** ** Runs *)
Lemma empty_intact : intact empty_db.
Proof. split; [by intros k c|]. by split; split. Qed.
Lemma reachable_intact db : reachable db -> intact db.
Proof.
  unfold reachable. generalize empty_db, empty_intact. intros db0 Hi H. revert Hi.
  induction H as [|db db1 db' [c env n o st' db2 Hp] _ IH]; [done|]. intros Hi. apply IH.
  exact (perform_keeps c env (mkSt db2 n) o st' Hi Hp).
Qed.
Lemma reachable_tasks_wf db : reachable db -> tasks_wf db.
Proof. apply reachable_intact. Qed.
Lemma reachable_topology db : reachable db -> topology db.
Proof. apply reachable_intact. Qed.

Lemma run_evolves db db' : intact db -> run db db' -> tasks_evolve db db'.
Proof.
  intros Hi H. induction H as [db|db db1 db' [c env n o st' db2 Hf Hp] Hrest IH]; [by apply tasks_evolve_same; [apply Hi|]|].
  pose proof (perform_sound c Hf env (mkSt db2 n) o st' Hi Hp) as Hs.
  eapply tasks_evolve_trans; [apply Hs|apply IH]. by eapply sound_intact.
Qed.
