(* ===== verification/Demo.v ===== *)
(** * A concrete world

    One world, one runtime, one owner, and a run of the kernel in it: the world is
    activated, a task is created, its wake claimed, enqueued and begun, an operation
    registered, a fact admitted and reconciled; on another branch the running task is
    saved in a checkpoint and restored under a new run.  The witnesses of the
    development evaluate on it. *)

From S2P Require Export Kernel.

Local Open Scope go_scope.

Definition demo_world : WorldKey := {| wk_GameID := "game"; wk_WorldID := "world" |}.
Definition demo_binding : Binding := {| bd_World := demo_world; bd_RunID := "run"; bd_Generation := 1 |}.
Definition demo_clock : Clock := {| ck_ID := "clock"; ck_Tick := 10; ck_Sequence := 1 |}.
Definition demo_clock_later : Clock := {| ck_ID := "clock"; ck_Tick := 20; ck_Sequence := 2 |}.
Definition demo_clock_last : Clock := {| ck_ID := "clock"; ck_Tick := 30; ck_Sequence := 3 |}.
Definition demo_owner : AgentSessionKey :=
  {| GameID := "game"; WorldID := "world"; EntityID := "npc" |}.
Definition demo_options : StoreOptions :=
  {| MaxTaskBytes := 262144; MaxSnapshotBytes := 33554432; MaxTasksPerWorld := 1024;
     CheckpointBarrierTimeoutMS := 10000 |}.
(** No fault, no cancellation; a clock that advances with the steps. *)
Definition demo_env : Env :=
  {| e_ctx := fun _ => None; e_fault := fun _ => None; e_now := fun n => (1000 + Z.of_nat n)%Z;
     e_nano := fun n => (5000 + Z.of_nat n)%Z; e_counter := fun n => N.of_nat n;
     e_claimantID := "runtime"; e_options := demo_options |}.

Definition demo_source (turn call : string) : SourceRef :=
  {| src_Kind := SourceKindInteraction; src_EventID := "event"; src_TurnID := turn; src_CallID := call;
     src_GameTime := ""; src_Facts := "" |}.
Definition demo_exec (clock : Clock) (turn call : string) : ExecutionContext :=
  {| ex_Owner := demo_owner; ex_Binding := demo_binding; ex_Clock := clock; ex_Source := demo_source turn call;
     ex_TaskID := ""; ex_WakeID := ""; ex_WakeReason := ""; ex_WakeDueAt := 0; ex_ExpectedRevision := 0 |}.
Definition demo_spec : TaskSpec :=
  {| sp_Instruction := "bake bread"; sp_ClockID := "clock"; sp_WakeAt := 20; sp_DeadlineAt := 100;
     sp_ResultContract := ResultContractAuthoritativeEvidence; sp_Contract := "{}";
     sp_EquivalenceKey := "bread"; sp_Source := demo_source "turn" "call" |}.

(** Run a list of calls; the state after each success, [None] at the first failure. *)
Fixpoint run_calls (calls : list call) (st : St) : option St :=
  match calls with
  | [] => Some st
  | c :: t => match perform c demo_env st with
              | (Ok _, st') => run_calls t st'
              | (Err _, _) => None
              end
  end.

Lemma run_calls_run cs st st' : forallb forward cs = true -> run_calls cs st = Some st' -> run (st_db st) (st_db st').
Proof.
  revert st. induction cs as [|c cs IH]; intros st Hf H; cbn [run_calls forallb] in H, Hf.
  { injection H as <-. apply rtc_refl. }
  apply andb_true_iff in Hf as [Hc Hf]. destruct (perform c demo_env st) as [[u|e] st1] eqn:Hp; [|done].
  eapply rtc_l; [|by apply (IH st1)]. destruct st as [db n].
  exact (forward_call c demo_env n (Ok u) st1 db Hc Hp).
Qed.

(** ** The run

    Each state is the result of the calls of its step on the state before it. *)
Definition demo_run (st : St) (calls : list call) : St :=
  match run_calls calls st with Some st' => st' | None => mkSt empty_db 0 end.

Definition demo_task : string := "task_5001_1".
Definition demo_wake : string := "wake_5003_3".
Definition demo_claim : string := "claim_5025_25".
Definition demo_admission : Admission := {| MaxActivePerOwner := 4 |}.
Definition demo_create_exec : ExecutionContext := demo_exec demo_clock "turn" "call".
Definition demo_create : call := CallCreate demo_create_exec demo_spec demo_admission.
Definition demo_wake_exec (rev : N) : ExecutionContext :=
  {| ex_Owner := demo_owner; ex_Binding := demo_binding; ex_Clock := demo_clock_later;
     ex_Source := {| src_Kind := SourceKindTaskWake; src_EventID := ""; src_TurnID := ""; src_CallID := demo_wake;
                     src_GameTime := ""; src_Facts := "" |};
     ex_TaskID := demo_task; ex_WakeID := demo_wake; ex_WakeReason := "created"; ex_WakeDueAt := 20;
     ex_ExpectedRevision := rev |}.
Definition demo_operation : Operation :=
  {| op_ID := "op"; op_ActionID := "act"; op_CommandFingerprint := "fp"; op_StartRevision := 2;
     op_Binding := demo_binding; op_Status := OperationStatusRegistered; op_Receipt := "" |}.
Definition demo_fact : Evidence :=
  {| ev_FactID := "fact"; ev_TaskID := demo_task; ev_OperationID := "op"; ev_Binding := demo_binding;
     ev_StartRevision := 2; ev_OccurredAt := 20; ev_Kind := EvidenceKindSatisfied; ev_WaitUntil := None;
     ev_Details := "";
     ev_Source := {| src_Kind := SourceKindEnvironment; src_EventID := "world-event"; src_TurnID := "";
                     src_CallID := ""; src_GameTime := ""; src_Facts := "" |};
     ev_Applied := false; ev_RevalidatedIn := None |}.

Definition demo_no_ref : CheckpointRef :=
  {| rf_Status := checkpointStatusAbsent; rf_ID := ""; rf_Checksum := ""; rf_SchemaVersion := 0;
     rf_World := demo_world; rf_Reason := "" |}.
Definition demo_activate : call := CallActivateWorld demo_world "run" demo_clock demo_no_ref.

(** Activated, created, due, claimed, enqueued, running, with an operation, with a
    fact, settled. *)
Definition demo_st0 : St := Eval vm_compute in
  mkSt (st_db (demo_run (mkSt empty_db 0) [demo_activate])) 0.
Definition demo_st1 : St := Eval vm_compute in demo_run demo_st0 [demo_create].
Definition demo_st4 : St := Eval vm_compute in
  demo_run demo_st1 [CallUpdateClock demo_binding demo_clock_later; CallClaimDue demo_binding demo_clock_later 5;
                     CallMarkEnqueued demo_binding demo_wake demo_claim].
Definition demo_st5 : St := Eval vm_compute in demo_run demo_st4 [CallBeginWake demo_binding demo_wake demo_claim].
Definition demo_report : list call :=
  [CallRegisterOperation (demo_wake_exec 2) demo_operation; CallAdmitEvidence demo_binding demo_fact;
   CallReconcile (demo_wake_exec 2)].
Definition demo_st8 : St := Eval vm_compute in demo_run demo_st5 demo_report.
Definition demo_st9 : St := Eval vm_compute in demo_run demo_st8 [CallUpdateClock demo_binding demo_clock_last].

Lemma demo_start : step empty_db (st_db demo_st0).
Proof.
  pose (st' := mkSt (st_db demo_st0) (st_step (snd (perform demo_activate demo_env (mkSt empty_db 0))))).
  change (st_db demo_st0) with (st_db st').
  apply (step_call demo_activate demo_env 0 (Ok tt)).
  vm_cast_no_check (@eq_refl (outcome error unit * St) (Ok tt, st')).
Qed.
Lemma demo_run1 : run (st_db demo_st0) (st_db demo_st1).
Proof. apply (run_calls_run [demo_create]); [reflexivity|]. vm_cast_no_check (eq_refl (Some demo_st1)). Qed.
Lemma demo_run4 : run (st_db demo_st1) (st_db demo_st4).
Proof.
  apply (run_calls_run [CallUpdateClock demo_binding demo_clock_later; CallClaimDue demo_binding demo_clock_later 5;
                        CallMarkEnqueued demo_binding demo_wake demo_claim]); [reflexivity|].
  vm_cast_no_check (eq_refl (Some demo_st4)).
Qed.
Lemma demo_run5 : run (st_db demo_st4) (st_db demo_st5).
Proof.
  apply (run_calls_run [CallBeginWake demo_binding demo_wake demo_claim]); [reflexivity|].
  vm_cast_no_check (eq_refl (Some demo_st5)).
Qed.
Lemma demo_run8 : run (st_db demo_st5) (st_db demo_st8).
Proof. apply (run_calls_run demo_report); [reflexivity|]. vm_cast_no_check (eq_refl (Some demo_st8)). Qed.
Lemma demo_perform9 :
  perform (CallUpdateClock demo_binding demo_clock_last) demo_env demo_st8 = (Ok tt, demo_st9).
Proof. vm_cast_no_check (@eq_refl (outcome error unit * St) (Ok tt, demo_st9)). Qed.
Lemma demo_run9 : run (st_db demo_st8) (st_db demo_st9).
Proof.
  apply rtc_once. pose proof demo_perform9 as H. destruct demo_st8 as [db n].
  exact (forward_call (CallUpdateClock demo_binding demo_clock_last) demo_env n (Ok tt) demo_st9 db eq_refl H).
Qed.

Lemma demo_reachable1 : reachable (st_db demo_st1).
Proof. eapply run_reachable; [apply rtc_once, demo_start|apply demo_run1]. Qed.
Lemma demo_reachable4 : reachable (st_db demo_st4).
Proof. eapply run_reachable; [apply demo_reachable1|apply demo_run4]. Qed.
Lemma demo_reachable5 : reachable (st_db demo_st5).
Proof. eapply run_reachable; [apply demo_reachable4|apply demo_run5]. Qed.
Lemma demo_reachable8 : reachable (st_db demo_st8).
Proof. eapply run_reachable; [apply demo_reachable5|apply demo_run8]. Qed.

(** ** Saved and restored

    The running task is saved; the save is settled; a new run restores it. *)
Definition demo_save : M Prepared := PrepareCheckpoint demo_binding demo_clock_later "save" [].
(** The answer of a call, [d] if it failed, and the state after it. *)
Definition answer {A} (d : A) (r : outcome error A * St) : A := match r.1 with Ok a => a | Err _ => d end.
Definition no_head : Head :=
  {| hd_Binding := demo_binding; hd_Clock := demo_clock; hd_CheckpointID := ""; hd_Status := worldHeadStatusReady;
     hd_Reason := "" |}.
Definition demo_prepared : Prepared := Eval vm_compute in
  answer {| pp_Head := no_head; pp_Reference := demo_no_ref; pp_SaveRequestID := "" |} (demo_save demo_env demo_st5).
Definition demo_st6 : St := Eval vm_compute in (demo_save demo_env demo_st5).2.
Definition demo_restore : M Head :=
  ActivateWorld demo_world "run2" demo_clock_later (pp_Reference demo_prepared).
Definition demo_head7 : Head := Eval vm_compute in answer no_head (demo_restore demo_env demo_st6).
Definition demo_st7 : St := Eval vm_compute in (demo_restore demo_env demo_st6).2.

Lemma demo_perform6 : demo_save demo_env demo_st5 = (Ok demo_prepared, demo_st6).
Proof. vm_cast_no_check (@eq_refl (outcome error Prepared * St) (Ok demo_prepared, demo_st6)). Qed.
Lemma demo_perform7 : demo_restore demo_env demo_st6 = (Ok demo_head7, demo_st7).
Proof. vm_cast_no_check (@eq_refl (outcome error Head * St) (Ok demo_head7, demo_st7)). Qed.

(** Its one task and one wake, along the way. *)
Definition demo_key : AgentSessionKey * string := (demo_owner, demo_task).
Definition demo_show (st : St) : option (State * N) * option WakeStatus :=
  ((fun c => (r_State (co_recordJSON c), r_Revision (co_recordJSON c))) <$> db_tasks (st_db st) !! demo_key,
   (fun c => w_Status (wr_indexed c)) <$> db_wakes (st_db st) !! demo_wake).

Lemma demo_show1 : demo_show demo_st1 = (Some (StateWaiting, 1%N), Some wakeStatusPending).
Proof. vm_compute. reflexivity. Qed.
Lemma demo_show4 : demo_show demo_st4 = (Some (StateWaiting, 1%N), Some wakeStatusEnqueued).
Proof. vm_compute. reflexivity. Qed.
Lemma demo_show5 : demo_show demo_st5 = (Some (StateRunning, 2%N), Some wakeStatusRunning).
Proof. vm_compute. reflexivity. Qed.
Lemma demo_show8 : demo_show demo_st8 = (Some (StateSucceeded, 3%N), Some wakeStatusConsumed).
Proof. vm_compute. reflexivity. Qed.

Lemma demo_row st s n w : demo_show st = (Some (s, n), w) ->
  exists c, db_tasks (st_db st) !! demo_key = Some c
  /\ r_State (co_recordJSON c) = s /\ r_Revision (co_recordJSON c) = n.
Proof.
  unfold demo_show. destruct (db_tasks (st_db st) !! demo_key) as [c|]; [|done]. simpl. intros [= <- <- _]. by exists c.
Qed.
Lemma demo_wake_row st t s : demo_show st = (t, Some s) ->
  exists c, db_wakes (st_db st) !! demo_wake = Some c /\ w_Status (wr_indexed c) = s.
Proof.
  unfold demo_show. destruct (db_wakes (st_db st) !! demo_wake) as [c|]; [|done]. simpl. intros [= _ <-]. by exists c.
Qed.
Lemma demo_show6 : demo_show demo_st6 = (Some (StateWaiting, 3%N), Some wakeStatusConsumed).
Proof. vm_compute. reflexivity. Qed.
Lemma demo_show7 : demo_show demo_st7 = (Some (StateWaiting, 3%N), Some wakeStatusConsumed).
Proof. vm_compute. reflexivity. Qed.
