(* ===== verification/Working.v ===== *)
(** * Relations kept by every run of a computation

    A preorder [R] on databases that each primitive write respects is respected by
    whole service calls.  The rules follow the shape of the code: read-only steps,
    checks whose success is known afterwards, branches, the immediate transaction; and
    the rewriting of a working set, step by step: which tasks and wakes checkpoint
    preparation, reactivation and restart recovery touch, those of the head's world,
    each delivery moved to the next generation. *)

From S2P Require Export Kernel.

Local Open Scope go_scope.

(** Runs that end in a value; and all runs of a call, errors included. *)
Class Respects (R : relation DB) {A} (m : M A) : Prop :=
  respects : forall env st a st', m env st = (Ok a, st') -> R (st_db st) (st_db st').
Class Always (R : relation DB) {A} (m : M A) : Prop :=
  always : forall env st o st', m env st = (o, st') -> R (st_db st) (st_db st').

Section rules.
Context {R : relation DB} `{HR : !PreOrder R}.

Lemma respects_same {A} (m : M A) :
  (forall env st a st', m env st = (Ok a, st') -> st_db st' = st_db st) -> Respects R m.
Proof. intros H env st a st' Hm. by rewrite (H _ _ _ _ Hm). Qed.

#[export] Instance respects_ro {A} (m : M A) : ReadOnly m -> Respects R m | 10.
Proof. intros H env st a st' Hm. by rewrite (H _ _ _ _ Hm). Qed.
#[export] Instance respects_bind {A B} (m : M A) (f : A -> M B) :
  Respects R m -> (forall a, Respects R (f a)) -> Respects R (m ≫= f) | 5.
Proof.
  intros Hm Hf env st b st' H. apply M_bind_ok in H as (a & st1 & H1 & H2).
  etrans; [by eapply Hm|by eapply Hf].
Qed.
#[export] Instance respects_if {A} (b : bool) (m n : M A) :
  Respects R m -> Respects R n -> Respects R (if b then m else n).
Proof. by destruct b. Qed.

Lemma respects_if_true {A} (b : bool) (m n : M A) :
  (b = true -> Respects R m) -> Respects R n -> Respects R (if b then m else n).
Proof. destruct b; auto. Qed.

(** The continuation of a step may use what the step's success tells. *)
Lemma respects_after {A B} (Q : A -> Prop) (m : M A) (f : A -> M B) :
  (forall env st a st', m env st = (Ok a, st') -> Q a) ->
  Respects R m -> (forall a, Q a -> Respects R (f a)) -> Respects R (m ≫= f).
Proof.
  intros HQ Hm Hf env st b st' H. apply M_bind_ok in H as (a & st1 & H1 & H2).
  etrans; [by eapply Hm|]. eapply Hf; [by eapply HQ|done].
Qed.
Lemma respects_lift {A B} (x : outcome error A) (f : A -> M B) :
  (forall a, x = Ok a -> Respects R (f a)) -> Respects R (lift x ≫= f).
Proof.
  intros Hf. apply (respects_after (fun a => x = Ok a)); [|apply _|done].
  intros env st a st' H. by apply lift_ok in H as [-> _].
Qed.

#[export] Instance always_ro {A} (m : M A) : ReadOnly m -> Always R m | 10.
Proof. intros H env st o st' Hm. by rewrite (H _ _ _ _ Hm). Qed.
#[export] Instance always_tx {A} (cb : M A) : Respects R cb -> Always R (withImmediateTransaction cb).
Proof.
  intros Hcb env st [a|e] st' H.
  - apply tx_ok in H as (st1 & st2 & <- & Hr & ->). by eapply Hcb.
  - apply tx_err in H. by rewrite H.
Qed.
#[export] Instance always_bind {A B} (m : M A) (f : A -> M B) :
  Always R m -> (forall a, Always R (f a)) -> Always R (m ≫= f) | 5.
Proof.
  intros Hm Hf env st o st' H. unfold mbind, M_bind in H.
  destruct (m env st) as [[a|e] st1] eqn:H1.
  - etrans; [by eapply Hm|by eapply Hf].
  - simplify_eq. by eapply Hm.
Qed.
#[export] Instance always_if {A} (b : bool) (m n : M A) :
  Always R m -> Always R n -> Always R (if b then m else n).
Proof. by destruct b. Qed.
Lemma always_lift {A B} (x : outcome error A) (f : A -> M B) :
  (forall a, x = Ok a -> Always R (f a)) -> Always R (lift x ≫= f).
Proof.
  intros Hf env st o st' H. unfold mbind, M_bind, lift in H. destruct x as [a|e]; [by eapply Hf|].
  by simplify_eq.
Qed.
#[export] Instance always_discard {A} (m : M A) : Always R m -> Always R (discard m).
Proof. intros Hm. apply always_bind; [done|]. intros a. apply always_ro, _. Qed.
End rules.

(** A relation that holds of runs from databases with an invariant, and keeps it. *)
Definition guarded (Inv : DB -> Prop) (R : relation DB) : relation DB :=
  fun db db' => Inv db -> Inv db' /\ R db db'.
#[export] Instance guarded_preorder Inv (R : relation DB) : PreOrder R -> PreOrder (guarded Inv R).
Proof.
  intros HR. split; [by intros db Hk|]. intros db1 db2 db3 H12 H23 Hk.
  destruct (H12 Hk) as [Hk2 A12]. destruct (H23 Hk2) as [Hk3 A23]. split; [done|by etrans].
Qed.
(** [respects_after] where what a success tells depends on the invariant. *)
Lemma respects_after_inv Inv (R : relation DB) `{!PreOrder R} {A B} (Q : A -> Prop) (m : M A) (f : A -> M B) :
  (forall env st a st', Inv (st_db st) -> m env st = (Ok a, st') -> Q a) ->
  Respects (guarded Inv R) m -> (forall a, Q a -> Respects (guarded Inv R) (f a)) ->
  Respects (guarded Inv R) (m ≫= f).
Proof.
  intros HQ Hm Hf env st b st' H Hi. apply M_bind_ok in H as (a & st1 & H1 & H2).
  destruct (Hm _ _ _ _ H1 Hi) as [Hi1 R1]. destruct (Hf a (HQ _ _ _ _ Hi H1) _ _ _ _ H2 Hi1) as [Hi2 R2].
  split; [done|by etrans].
Qed.

#[export] Hint Extern 8 (Respects _ (match _ with _ => _ end)) => case_match : typeclass_instances.
#[export] Hint Extern 8 (Always _ (match _ with _ => _ end)) => case_match : typeclass_instances.
#[export] Hint Mode Respects ! - ! : typeclass_instances.

(** Open the binds of a transaction, keeping what each check established. *)
Ltac respects_open :=
  repeat lazymatch goal with
  | |- Respects _ (lift ?x ≫= _) =>
      apply respects_lift; let a := fresh "v" in let H := fresh "Hc" in intros a H; okinv H
  | |- Respects _ (_ ≫= _) => apply respects_bind; [apply _|intros ?]
  | |- Respects _ (if ?b then _ else _) => let E := fresh "Hb" in destruct b eqn:E
  | |- Respects _ (match _ with _ => _ end) => case_match
  end.
(** The read-only prefix of a call. *)
Ltac always_open :=
  repeat lazymatch goal with
  | |- Always _ (discard _) => apply always_discard
  | |- Always _ (lift ?x ≫= _) => apply always_lift; let a := fresh "v" in let H := fresh "Hc" in intros a H; okinv H
  | |- Always _ (withImmediateTransaction _) => apply always_tx
  | |- Always _ (_ ≫= _) => apply always_bind; [try apply _|intros ?]
  end.

(** Calls whose rules need no help: unfold them and let the instances do the rest. *)
Ltac always_calls := try apply _;
  unfold ReadHead, UpdateClock, DeactivateWorld, FinishCheckpoint, ReadCheckpointBarrier, Create, create_tx,
    insertTaskAndWakeTx, loadExactCreateTx, loadOwnerCallIdentityTx, loadEquivalentTaskTx, enforceAdmissionTx,
    Read, loadTask, validateWorldTaskIdentityGraph, ReadList, ListActive, ListRecentResults, read_rows,
    ApplyIntent, apply_intent_tx, loadExactIntentTx, AdmitEvidence, admitEvidenceTx, RegisterOperation,
    MarkOperationNotSent, RecordCleanup, Reconcile, reconcile_tx, InspectWake, prepareIntentMutation,
    prepareNoRevisionMutation, prepareReconcileMutation, prepareCleanupMutation, prepare_capacity;
  try apply _.

(** A run of calls keeps what every call keeps. *)
Lemma run_keep (R : relation DB) `{!PreOrder R} db db' :
  (forall c, forward c = true -> Always R (perform c)) -> run db db' -> R db db'.
Proof.
  intros Hp H. induction H as [db|db db1 db' [c env n o st' db2 Hf Hr] _ IH]; [done|].
  etrans; [exact (Hp c Hf env (mkSt db2 n) o st' Hr)|exact IH].
Qed.

(** ** Rewriting a working set *)
#[local] Opaque Record_Validate sha256Hex marshalRecord marshalTaskSpec marshalCreateResult
  marshalHistory cloneRecord modelProgressJSON validateTaskMutationCapacity Wake_Validate.

(** ** What was read belongs to the world *)
Lemma decode_owner c d : decodeTaskRowColumns c = Ok d ->
  r_Owner (dt_record d) = co_owner c /\ r_ID (dt_record d) = co_taskID c.
Proof.
  unfold decodeTaskRowColumns. intros H. okinv H. rewrite negb_false_iff in *.
  match goal with H : columns_agree _ _ _ = true |- _ => apply columns_agree_true in H as (A1 & A2 & _) end. done.
Qed.

Definition head_world (h : worldHeadRow) : WorldKey := bd_World (hd_Binding (wh_Head h)).
Definition head_generation (h : worldHeadRow) : N := bd_Generation (hd_Binding (wh_Head h)).
Definition task_bound (h : worldHeadRow) (r : TaskRecord) : Prop := in_world (head_world h) (r_Owner r) = true.
(** A wake of the world; one that can still run is of the head's generation. *)
Record wake_bound (h : worldHeadRow) (d : durableWake) : Prop := {
  wb_world : in_world (head_world h) (w_Owner (dw_wake d)) = true;
  wb_generation : executableStatus (w_Status (dw_wake d)) = true -> w_Generation (dw_wake d) = head_generation h
}.

Lemma relation_generation head d : validateDurableWakeRelation head d = Ok tt ->
  executableStatus (w_Status (dw_wake d)) = true -> w_Generation (dw_wake d) = head_generation head.
Proof.
  unfold validateDurableWakeRelation. intros [_ H]%fail_if_bind He. destruct (w_Status (dw_wake d)); try done;
    apply fail_if_ok in H; apply orb_false_iff in H as [H%negb_false_iff%N.eqb_eq _]; exact H.
Qed.
Lemma durable_wakes_bound head g env st l st' :
  loadWorldDurableWakesTx head g env st = (Ok l, st') -> Forall (wake_bound head) l.
Proof.
  intros H. unfold loadWorldDurableWakesTx in H. minv H.
  match goal with H : scan_wake_rows _ = Ok ?s |- _ => destruct (scan_wake_rows_ok _ _ H) as [S1 S2] end.
  apply graph_wakes_ok in H as [G Hrel]. apply Forall_forall. intros d Hd. split; [|by apply relation_generation, Hrel].
  assert (dw_wake d ∈ (dw_wake <$> l)) as Hin by by apply list_elem_of_fmap_2.
  rewrite G, scanned_wakes, S1 in Hin by done. apply list_elem_of_fmap in Hin as (c & -> & Hc).
  unfold world_wakes in Hc. by apply wakes_where_elem in Hc as [Hc _].
Qed.
Lemma graph_tasks_bound head env st g st' :
  graph_or ErrInvalidTaskSpec (head_world head) env st = (Ok g, st') ->
  Forall (fun e => task_bound head (st_record e.2)) (sortedWorldTaskIdentities g).
Proof.
  intros [_ Hg]%graph_or_ok. apply Forall_forall. intros [k t] Hin. unfold sortedWorldTaskIdentities in Hin.
  rewrite sort_slice_perm in Hin. apply elem_of_map_to_list in Hin.
  destruct (build_graph_tasks _ _ _ _ _ Hg Hin) as [Hl|(c & d & Hc & Hd & -> & _)].
  { unfold empty_graph in Hl. cbn [g_tasks] in Hl. by rewrite lookup_empty in Hl. }
  apply rows_where_elem in Hc as (Hw & _). apply decode_owner in Hd as [Ho _]. unfold task_bound.
  cbn [st_record snd]. by rewrite Ho.
Qed.
Lemma executable_bound head wakes k d : Forall (wake_bound head) wakes -> d ∈ executable_of wakes k ->
  wake_bound head d /\ executableStatus (w_Status (dw_wake d)) = true.
Proof.
  intros Hb Hd. rewrite Forall_forall in Hb. split.
  - eapply Hb, executable_of_in, Hd.
  - by apply executable_of_elem in Hd as [? _].
Qed.

(** A plan over what a head's world holds. *)
Definition plan_bound (h : worldHeadRow) (plan : restartRecoveryPlan) : Prop :=
  Forall (fun d => wake_bound h d /\ deliverable (w_Status (dw_wake d)) = true) (rp_deliveries plan)
  /\ Forall (fun rt => task_bound h (st_record (rt_record rt))
       /\ match rt_wake rt with
          | Some d => wake_bound h d /\ executableStatus (w_Status (dw_wake d)) = true
          | None => True
          end) (rp_running plan).
Lemma planRestartRecoveryTx_bound head claimant env st plan st' :
  planRestartRecoveryTx head claimant env st = (Ok plan, st') -> plan_bound head plan.
Proof.
  intros H. unfold planRestartRecoveryTx in H. minv H.
  match goal with H : graph_or _ _ _ _ = (Ok ?g, _) |- _ => apply graph_tasks_bound in H as Ht end.
  match goal with H : loadWorldDurableWakesTx _ _ _ _ = _ |- _ => apply durable_wakes_bound in H as Hw end.
  match goal with H : plan_tasks _ ?ws _ _ = _ |- _ => apply (plan_tasks_ok _ ws []) in H as [Hd (es & Hsub & Hrun)] end; cycle 1.
  { split; [constructor|]. exists []. split; [done|constructor]. }
  split.
  - eapply Forall_impl; [exact Hd|]. intros d [Hin Hs]. split; [|done]. rewrite Forall_forall in Hw. by apply Hw.
  - clear Hd. rewrite Forall_forall in Ht. assert (forall e, e ∈ es -> task_bound head (st_record e.2)) as Hes.
    { intros e He. apply Ht. by eapply elem_of_sublist. }
    clear Hsub Ht. induction Hrun as [|e rt es rts [E _ Hwk] _ IH]; constructor.
    + split; [rewrite E; apply Hes; by left|]. destruct (rt_wake rt); [|done]. by eapply executable_bound.
    + apply IH. intros e' He'. apply Hes. by right.
Qed.

(** ** Relations respected by the rewriting *)
Section working_set.
Context (R : relation DB) `{HR : !PreOrder R} (head : worldHeadRow).
Let generation : N := (head_generation head + 1)%N.
Context (R_rebound : forall d retry, wake_bound head d -> deliverable (w_Status (dw_wake d)) = true ->
  Respects R (updateCheckpointWakeTx d (rebound_wake generation retry (dw_wake d)))
  /\ Respects R (updateWakeCASTx d (rebound_wake generation retry (dw_wake d)))).
Context (R_spend : forall d, wake_bound head d -> executableStatus (w_Status (dw_wake d)) = true ->
  Respects R (updateCheckpointWakeTx d (consumed_wake (dw_wake d)))
  /\ Respects R (updateWakeCASTx d (consumed_wake (dw_wake d)))).
Context (R_record : forall b p, task_bound head b -> Respects R (updateRestartRecordTx b p)).
Context (R_insert : forall p id, task_bound head p -> Respects R (insertWakeTx p (replacement_wake id p generation))).

Lemma recovered_bound r now p : task_bound head r -> recoveredRunningRecord r now = Ok p -> task_bound head p.
Proof. unfold task_bound. intros Hr (_ & [_ -> _ _ _] & _)%recoveredRunningRecord_shape. done. Qed.

Lemma respects_normalize_tasks now wakes ids l :
  Forall (wake_bound head) wakes -> Forall (fun e => task_bound head (st_record e.2)) l ->
  Respects R (normalize_tasks now generation wakes ids l).
Proof using R_rebound R_spend R_record R_insert HR.
  intros Hw Hl. revert ids. induction Hl as [|[k t] l Ht _ IH]; intros ids; cbn [normalize_tasks]; [apply _|].
  cbn [snd] in Ht. destruct (r_State (st_record t)); [| |destruct (executable_of wakes k); first [apply IH|apply _]..].
  - destruct (executable_of wakes k) as [|d [|]] eqn:He; [apply _| |apply _].
    destruct (executable_bound head wakes k d Hw) as [Hb Hx]; [rewrite He; by left|].
    apply respects_lift. intros [] Hs%fail_if_ok. boolp.
    apply respects_bind; [|intros _; apply IH]. apply R_rebound; [done|]. by destruct (w_Status (dw_wake d)).
  - apply respects_bind; [apply _|intros _]. destruct ids as [|id ids]; [apply _|].
    apply respects_lift. intros p Hp. apply respects_bind; [unfold prepareReconcileMutation, prepare_capacity; apply _|intros q].
    apply respects_bind; [by apply R_record|intros _]. apply respects_bind.
    + destruct (executable_of wakes k) as [|d [|]] eqn:He; [apply _| |apply _].
      destruct (executable_bound head wakes k d Hw) as [Hb Hx]; [rewrite He; by left|]. by apply R_spend.
    + intros _. apply respects_bind; [|intros _; apply IH]. apply R_insert. by eapply recovered_bound.
Qed.

Lemma respects_normalize h ids : hd_Binding (wh_Head h) = hd_Binding (wh_Head head) ->
  Respects R (normalizeCheckpointWorkingSetTx h generation ids).
Proof using R_rebound R_spend R_record R_insert HR.
  intros E. assert (head_world h = head_world head) as Ew by (unfold head_world; congruence).
  assert (forall d, wake_bound h d -> wake_bound head d) as Hwb.
  { intros d []. split; unfold head_generation in *; rewrite <- ?E, <- ?Ew; done. }
  unfold normalizeCheckpointWorkingSetTx.
  apply (respects_after (fun g => Forall (fun e => task_bound head (st_record e.2)) (sortedWorldTaskIdentities g))); [|apply _|intros g Hg].
  { intros env st g st' H%graph_tasks_bound. unfold task_bound in *. by rewrite Ew in H. }
  apply (respects_after (Forall (wake_bound head))); [|apply _|intros ws Hws].
  { intros env st l st' H%durable_wakes_bound. eapply Forall_impl; [exact H|exact Hwb]. }
  apply respects_bind; [apply _|intros _]. by apply respects_normalize_tasks.
Qed.

Lemma respects_reset l :
  Forall (fun d => wake_bound head d /\ deliverable (w_Status (dw_wake d)) = true) l ->
  Respects R (reset_deliveries generation l).
Proof using R_rebound HR.
  induction 1 as [|d l [Hd Hs] _ IH]; cbn [reset_deliveries]; [apply _|].
  apply respects_bind; [by apply R_rebound|intros _; apply IH].
Qed.
Lemma respects_recover_all now rts ps :
  Forall (fun rt => task_bound head (st_record (rt_record rt))
    /\ match rt_wake rt with
       | Some d => wake_bound head d /\ executableStatus (w_Status (dw_wake d)) = true
       | None => True
       end) rts ->
  Forall2 (prepared_recovery now generation) rts ps -> Respects R (recover_all ps).
Proof using R_spend R_record R_insert HR.
  intros HF Hp. induction Hp as [|rt p rts ps [<- Hr _ _ (id & E)] _ IH]; cbn [recover_all]; [apply _|].
  apply Forall_cons in HF as [ [Ht Hw] HF]. apply respects_bind; [|intros _; by apply IH].
  unfold recover_running. apply respects_bind; [by apply R_record|intros _]. apply respects_bind.
  - destruct (rt_wake (rr_current p)) as [d|]; [|apply _]. destruct Hw. by apply R_spend.
  - intros _. apply respects_bind; [|apply _]. rewrite E. apply R_insert. by eapply recovered_bound.
Qed.

Lemma respects_apply_restart plan ids clock claimant :
  plan_bound head plan -> (forall u, Respects R (updateWorldRestartHeadTx head u)) ->
  Respects R (applyRestartRecoveryTx head plan ids clock claimant).
Proof using R_rebound R_spend R_record R_insert HR.
  intros [Hd Hrun] Hh. unfold applyRestartRecoveryTx. do 3 (apply respects_bind; [apply _|intros _]).
  apply respects_lift. intros n [_ ->]%NextDurableCounter_ok.
  apply (respects_after (Forall2 (prepared_recovery (ck_Tick clock) generation) (rp_running plan))); [|apply _|intros ps Hps].
  { intros env st ps st' H%prepare_recoveries_ok. exact H. }
  apply respects_bind; [by apply respects_reset|intros _]. apply respects_bind; [exact (respects_recover_all _ _ _ Hrun Hps)|intros _].
  apply respects_bind; [apply Hh|intros _; apply _].
Qed.
End working_set.

(** ** Activation *)
Lemma respects_find_head (R : relation DB) `{!PreOrder R} w :
  (forall r, bd_World (hd_Binding (wh_Head r)) = w -> Respects R (releaseExpiredCheckpointBarrierTx r)) ->
  Respects R (find_head_for_mutation w).
Proof.
  intros Hr. unfold find_head_for_mutation.
  apply (respects_after (fun o => forall r, o = Some r -> bd_World (hd_Binding (wh_Head r)) = w)); [|apply _|intros [r|] Hw; [|apply _] ].
  - intros env st o st' [_ Ho]%loadWorldHeadTx_ok r ->. by destruct Ho as (c & _ & [? _]%scanWorldHeadRow_ok).
  - apply respects_bind; [by apply Hr, Hw|intros ?; apply _].
Qed.
#[export] Instance always_attempt (R : relation DB) {A} (m : M A) : Always R m -> Always R (attempt m).
Proof. intros Hm env st o st' H. unfold attempt in H. destruct (m env st) eqn:H1. simplify_eq. by eapply Hm. Qed.
