(* ===== verification/Lifecycle.v ===== *)
(** * The life of a wake

    Over any run of calls a wake row keeps its identity and moves only along the
    delivery state machine: claimed, enqueued, running, consumed, with a released
    claim going back and consumption possible from every live status. *)

From S2P Require Export Working.

Local Open Scope go_scope.

(** ** The state machine *)
Inductive wake_step (w : Wake) : Wake -> Prop :=
| wake_claimed claimID claimantID :
    w_Status w = wakeStatusPending -> wake_step w (claimed_wake claimID claimantID w)
| wake_released retryAfter :
    w_Status w = wakeStatusClaimed ->
    wake_step w (wake_with w wakeStatusPending "" "" (w_Generation w) (w_Attempt w) retryAfter)
| wake_enqueued : w_Status w = wakeStatusClaimed -> wake_step w (set_w_Status wakeStatusEnqueued w)
| wake_begun : w_Status w = wakeStatusEnqueued -> wake_step w (set_w_Status wakeStatusRunning w)
| wake_rebound generation retryAfter :
    deliverable (w_Status w) = true -> (w_Generation w < generation)%N ->
    wake_step w (rebound_wake generation retryAfter w)
| wake_spent : executableStatus (w_Status w) = true -> wake_step w (consumed_wake w).

(** What no step touches. *)
Definition wake_identity (w : Wake) :=
  (w_ID w, wake_task w, w_ExpectedRevision w, w_DueTick w, w_Reason w).

Lemma wake_step_identity w w' : wake_step w w' -> wake_identity w' = wake_identity w /\ (w_Attempt w <= w_Attempt w')%Z
  /\ (w_Generation w <= w_Generation w')%N.
Proof. destruct 1; (split; [done|simpl; lia]). Qed.
Lemma wake_steps_identity w w' :
  rtc wake_step w w' -> wake_identity w' = wake_identity w /\ (w_Attempt w <= w_Attempt w')%Z
  /\ (w_Generation w <= w_Generation w')%N.
Proof.
  induction 1 as [|w w1 w' H _ [IH1 IH2]]; [done|]. apply wake_step_identity in H as [H1 H2].
  split; [congruence|lia].
Qed.

Definition spent (s : WakeStatus) : bool :=
  match s with wakeStatusConsumed | wakeStatusOther _ => true | _ => false end.
(** Running or over: the wake was begun, or will never be. *)
Definition begun (s : WakeStatus) : bool := spent s || (s == wakeStatusRunning).

Lemma wake_step_spent w w' : wake_step w w' -> spent (w_Status w) = false.
Proof. destruct 1 as [? ? H| ? H|H|H|? ? H _|H]; [by rewrite H..| |]; by destruct (w_Status w). Qed.
Lemma wake_steps_spent w w' : rtc wake_step w w' -> spent (w_Status w) = true -> w' = w.
Proof. intros H Hs. destruct H as [|w w1 w' H _]; [done|]. apply wake_step_spent in H. congruence. Qed.
Lemma wake_step_begun w w' : wake_step w w' -> begun (w_Status w) = true -> w_Status w' = wakeStatusConsumed.
Proof. unfold begun. destruct 1 as [? ? H| ? H|H|H|? ? H _|H]; try by rewrite H.
  - by destruct (w_Status w).
  - done. Qed.

(** ** Wake tables *)
Definition wakes_keyed (db : DB) : Prop := forall id c, db_wakes db !! id = Some c -> w_ID (wr_indexed c) = id.
Definition wakes_advance (m m' : gmap string wakeRow) : Prop := forall id c, m !! id = Some c ->
  exists c', m' !! id = Some c' /\ wr_clockID c' = wr_clockID c /\ rtc wake_step (wr_indexed c) (wr_indexed c').
Definition wakes_live (db db' : DB) : Prop :=
  wakes_keyed db -> wakes_keyed db' /\ wakes_advance (db_wakes db) (db_wakes db').

#[export] Instance wakes_advance_preorder : PreOrder wakes_advance.
Proof.
  split; [intros m id c Hc; by exists c|]. intros m1 m2 m3 H12 H23 id c Hc.
  destruct (H12 id c Hc) as (c2 & Hc2 & E2 & L2). destruct (H23 id c2 Hc2) as (c3 & Hc3 & E3 & L3).
  exists c3. split_and!; [done|congruence|by trans (wr_indexed c2)].
Qed.
#[export] Instance wakes_live_preorder : PreOrder wakes_live.
Proof.
  split; [by intros db Hk|]. intros db1 db2 db3 H12 H23 Hk.
  destruct (H12 Hk) as [Hk2 A12]. destruct (H23 Hk2) as [Hk3 A23]. split; [done|by etrans].
Qed.

Lemma wakes_live_same db db' : db_wakes db' = db_wakes db -> wakes_live db db'.
Proof. intros E Hk. unfold wakes_keyed. by rewrite E. Qed.
Lemma wakes_keyed_put db db' id c : wakes_keyed db -> w_ID (wr_indexed c) = id ->
  db_wakes db' = <[id := c]> (db_wakes db) -> wakes_keyed db'.
Proof.
  intros Hk Hc E j d. rewrite E. destruct (decide (j = id)) as [->|Hne].
  - rewrite lookup_insert_eq. by intros [= <-].
  - rewrite lookup_insert_ne by done. apply Hk.
Qed.
Lemma wakes_live_new db db' id c : db_wakes db !! id = None ->
  db_wakes db' = <[id := c]> (db_wakes db) -> w_ID (wr_indexed c) = id -> wakes_live db db'.
Proof.
  intros Hn E Hi Hk. split; [by eapply wakes_keyed_put|]. intros j d Hj. exists d.
  rewrite E, lookup_insert_ne; [done|congruence].
Qed.
Lemma wakes_live_put db db' id c c' : db_wakes db !! id = Some c ->
  db_wakes db' = <[id := c']> (db_wakes db) -> w_ID (wr_indexed c') = id -> wr_clockID c' = wr_clockID c ->
  wake_step (wr_indexed c) (wr_indexed c') -> wakes_live db db'.
Proof.
  intros Hc E Hi Hck Hs Hk. split; [by eapply wakes_keyed_put|]. intros j d Hj. rewrite E.
  destruct (decide (j = id)) as [->|Hne].
  - rewrite lookup_insert_eq. exists c'. assert (d = c) as -> by congruence. split_and!; [done..|]. by apply rtc_once.
  - rewrite lookup_insert_ne by done. by exists d.
Qed.

(** ** Writes *)
#[export] Instance live_insertWake r w : Respects wakes_live (insertWakeTx r w).
Proof. intros env st u st' H. apply insertWakeTx_ok in H as (_ & Hn & _ & ->). by eapply wakes_live_new. Qed.
#[export] Instance live_insert_wake w : Respects wakes_live (insert_wake w).
Proof. intros env st u st' H. apply insert_wake_ok in H as (Hn & _ & _ & _ & ->). by eapply wakes_live_new. Qed.
Lemma live_updateWake before updated :
  wake_step (dw_wake before) updated -> Respects wakes_live (updateWakeCASTx before updated).
Proof.
  intros Hs env st u st' H. apply updateWakeCASTx_ok in H as (_ & Hid & _ & _ & c & Hc & Hi & _ & ->).
  eapply wakes_live_put; [exact Hc|done|done|done|]. by rewrite Hi.
Qed.
#[export] Instance live_kr {A} (m : M A) : KeepsRows m -> Respects wakes_live m | 20.
Proof. intros Hm env st r st' H. apply wakes_live_same. by apply (keeps_rows _ _ _ _ H). Qed.
#[export] Instance live_updateRow b g s : Respects wakes_live (update_row b g s).
Proof.
  intros env st u st' H. unfold update_row in H. minv H. apply wakes_live_same.
  apply update_task_one in Hr as (c & _ & _ & (_ & _ & Hdb)%put_task_ok). cbn [tick st_db]. by rewrite Hdb.
Qed.
#[export] Instance live_insertTask c : Respects wakes_live (insert_task c).
Proof.
  intros env st u st' H. unfold insert_task in H. apply exec_ok in H. okinv H.
  apply put_task_ok in Hv as (_ & _ & E). apply wakes_live_same. by rewrite E.
Qed.
Lemma live_consume w : executableStatus (w_Status w) = true -> Respects wakes_live (consume_wake w).
Proof.
  intros He env st u st' H. unfold consume_wake in H. minv H.
  apply update_wake_one in Hr as (c & Hc & Hg & (_ & _ & _ & Hdb)%put_wake_ok). boolp. destruct Hg as [_ Hs].
  intros Hk. pose proof (Hk _ _ Hc) as Hid. revert Hk.
  eapply wakes_live_put; [exact Hc|by rewrite Hdb, <- Hid|exact Hid|done|].
  cbn [wr_indexed]. apply (wake_spent (wr_indexed c)). by rewrite Hs.
Qed.
Lemma live_consume_all head keep l :
  Forall (fun w => executableStatus (w_Status w) = true) l -> Respects wakes_live (consume_all head keep l).
Proof.
  induction 1 as [|w l Hw _ IH]; cbn [consume_all]; [apply _|]. apply respects_bind; [|done].
  apply respects_if; [apply _|by apply live_consume].
Qed.

Lemma scan_task_wakes_ok head r l ws : scan_task_wakes head r l = Ok ws -> ws = wr_indexed <$> l
  /\ Forall (fun w => Wake_Validate w = Ok tt) ws.
Proof.
  revert ws. induction l as [|c l IH]; intros ws H; cbn [scan_task_wakes] in H; [by okinv H|]. okinv H.
  destruct (IH _ Hv0) as [-> HF]. pose proof (scan_task_wake_ok _ _ _ _ Hv) as ->. split; [done|].
  constructor; [|done]. unfold scan_task_wake, validateScannedWake in Hv. okinv Hv. simplify_eq. boolp.
  by eapply unit_ok.
Qed.
#[export] Instance live_consumeWakes head r keep : Respects wakes_live (consumeWakesTx head r keep).
Proof.
  unfold consumeWakesTx.
  apply (respects_after (Forall (fun c => w_Status (wr_indexed c) <> wakeStatusConsumed))); [| apply _|intros rows Hrows].
  { intros env st rows st' H. minv H. apply Forall_forall. intros c Hc%elem_of_take'.
    apply wakes_where_elem in Hc as [Hc _]. boolp. tauto. }
  respects_open. apply scan_task_wakes_ok in Hc as [-> HF]. apply live_consume_all.
  apply Forall_fmap in HF. apply Forall_fmap. rewrite Forall_forall in Hrows, HF. apply Forall_forall.
  intros c Hc. simpl. by destruct (Wake_Validate_status _ (HF c Hc)) as [|Hs%(Hrows c Hc)].
Qed.
Lemma live_claim_each claimant l ids :
  Forall (fun d => w_Status (dw_wake d) = wakeStatusPending) l -> Respects wakes_live (claim_each claimant l ids).
Proof.
  intros HF. revert ids. induction HF as [|d l Hd _ IH]; intros [|i ids]; cbn [claim_each]; [apply _..|].
  respects_open. apply respects_bind; [by apply live_updateWake, wake_claimed|intros _].
  apply respects_bind; [apply IH|apply _].
Qed.

(** ** Calls *)
#[export] Instance live_updateNoRevision b p : Respects wakes_live (updateNoRevisionRecordTx b p).
Proof. unfold updateNoRevisionRecordTx, marshal_before. apply _. Qed.
#[export] Instance live_updateReconcile b p : Respects wakes_live (updateReconcileRecordTx b p).
Proof. unfold updateReconcileRecordTx, marshal_before. apply _. Qed.
#[export] Instance live_updateAttempt b p : Respects wakes_live (updateAttemptRecordTx b p).
Proof. unfold updateAttemptRecordTx, marshal_before. apply _. Qed.
#[export] Instance live_updateBegin b p : Respects wakes_live (updateBeginRecordTx b p).
Proof. unfold updateBeginRecordTx, marshal_before. apply _. Qed.
#[export] Instance live_updateIntent b p : Respects wakes_live (updateIntentRecordTx b p).
Proof. unfold updateIntentRecordTx. apply _. Qed.
#[export] Instance live_storeHistory b p h : Respects wakes_live (storeIntentHistoryTx b p h).
Proof. unfold storeIntentHistoryTx. apply _. Qed.

#[export] Instance live_ClaimDue b k l : Always wakes_live (ClaimDue b k l).
Proof.
  unfold ClaimDue, wake_world. always_open.
  do 3 (apply respects_bind; [apply _|intros ?]).
  eapply (respects_after (Forall (fun d => w_Status (dw_wake d) = wakeStatusPending))); [| apply _|intros ds Hds].
  - intros env st ds st' H. unfold loadDueWakeCandidatesTx in H. minv H; [done|].
    match goal with H : scan_wake_rows _ = Ok ?s |- _ => destruct (scan_wake_rows_ok _ _ H) as [S1 S2] end.
    apply graph_wakes_ok in H as [G _]. apply (Forall_fmap dw_wake (fun w => w_Status w = wakeStatusPending)).
    rewrite G, scanned_wakes, S1 by done. apply Forall_fmap, Forall_forall. intros c [Hdue _]%due_rows_due.
    by eapply is_due_pending.
  - apply respects_if; [apply _|by apply live_claim_each].
Qed.
#[export] Instance live_MarkEnqueued b w i : Always wakes_live (MarkEnqueued b w i).
Proof.
  unfold MarkEnqueued, wake_world. always_open. respects_open; [apply _|].
  boolp. by apply live_updateWake, wake_enqueued.
Qed.
#[export] Instance live_ReleaseClaim b w i t : Always wakes_live (ReleaseClaim b w i t).
Proof.
  unfold ReleaseClaim, wake_world. always_open. respects_open. boolp. apply live_updateWake, wake_released. tauto.
Qed.
#[export] Instance live_BeginWake b w i : Always wakes_live (BeginWake b w i).
Proof.
  unfold BeginWake, wake_world. apply always_bind; [|intros ?]. { apply _. }
  apply always_bind; [apply _|intros _]. apply always_bind; [|intros [? ?]; apply _]. always_open.
  respects_open. apply respects_bind; [apply live_updateWake, wake_begun; boolp; tauto|apply _].
Qed.
#[export] Instance live_FinishAttempt e o : Always wakes_live (FinishAttempt e o).
Proof.
  unfold FinishAttempt, finish_attempt_tx. apply always_bind; [apply _|intros _].
  apply always_bind; [apply _|intros _]. apply always_bind; [|intros ?; apply _]. apply always_tx.
  respects_open. apply respects_bind; [|intros ?; apply _].
  apply respects_if_true; [|apply _]. intros Hb. boolp. apply live_updateWake, wake_spent. by rewrite (proj2 Hb).
Qed.

(** ** Checkpoints and activation *)
Lemma live_written d w db db' : wake_written d w db db' -> wake_step (dw_wake d) w -> wakes_live db db'.
Proof.
  intros [_ _ _ _ (c & Hc & Hi & _ & E)] Hs. eapply wakes_live_put; [exact Hc|exact E|done|done|]. by rewrite Hi.
Qed.
Lemma live_checkpointWake d w : wake_step (dw_wake d) w -> Respects wakes_live (updateCheckpointWakeTx d w).
Proof.
  intros Hs env st u st' H. destruct (wake_step_identity _ _ Hs) as [Hid _]. unfold wake_identity, wake_task in Hid.
  injection Hid as E1 E2 E3 _ _ _. eapply live_written; [|exact Hs]. by eapply updateCheckpointWakeTx_written.
Qed.
#[export] Instance live_restartRecord b p : Respects wakes_live (updateRestartRecordTx b p).
Proof. unfold updateRestartRecordTx, marshal_before. apply _. Qed.

Section working_set.
Context (head : worldHeadRow).
Lemma live_rebound d retry : wake_bound head d -> deliverable (w_Status (dw_wake d)) = true ->
  let w := rebound_wake (head_generation head + 1)%N retry (dw_wake d) in
  Respects wakes_live (updateCheckpointWakeTx d w) /\ Respects wakes_live (updateWakeCASTx d w).
Proof.
  intros [_ Hg] Hs. assert (wake_step (dw_wake d) (rebound_wake (head_generation head + 1) retry (dw_wake d))).
  { apply wake_rebound; [done|]. rewrite Hg by (by apply deliverable_executable). lia. }
  split; [by apply live_checkpointWake|by apply live_updateWake].
Qed.
Lemma live_spend d : wake_bound head d -> executableStatus (w_Status (dw_wake d)) = true ->
  Respects wakes_live (updateCheckpointWakeTx d (consumed_wake (dw_wake d)))
  /\ Respects wakes_live (updateWakeCASTx d (consumed_wake (dw_wake d))).
Proof. intros _ Hs. split; [by apply live_checkpointWake, wake_spent|by apply live_updateWake, wake_spent]. Qed.

Lemma live_normalize h ids : hd_Binding (wh_Head h) = hd_Binding (wh_Head head) ->
  Respects wakes_live (normalizeCheckpointWorkingSetTx h (head_generation head + 1) ids).
Proof.
  intros E. apply (respects_normalize wakes_live head); [apply live_rebound|apply live_spend|intros; apply _..|done].
Qed.
Lemma live_apply_restart plan ids k c : plan_bound head plan ->
  Respects wakes_live (applyRestartRecoveryTx head plan ids k c).
Proof.
  intros Hp. apply (respects_apply_restart wakes_live head); [apply live_rebound|apply live_spend|intros; apply _..|done|intros; apply _].
Qed.
End working_set.

#[export] Instance live_admit_facts h l : Respects wakes_live (admit_facts h l).
Proof.
  induction l as [|e l IH]; cbn [admit_facts]; [apply _|].
  apply respects_bind; [unfold admitEvidenceTx, prepareNoRevisionMutation, prepare_capacity; apply _|intros _; apply IH].
Qed.
#[export] Instance live_PrepareCheckpoint b k s l : Always wakes_live (PrepareCheckpoint b k s l).
Proof.
  unfold PrepareCheckpoint, countWorldTasks. always_open. do 2 (apply respects_bind; [apply _|intros ?]).
  case_match; [apply _|]. unfold prepare_checkpoint_tx. do 4 (apply respects_bind; [apply _|intros ?]).
  apply respects_lift. intros n [_ ->]%NextDurableCounter_ok. apply respects_bind; [by apply live_normalize|intros _].
  unfold maxSnapshotBytes. apply _.
Qed.
#[export] Instance live_activateRun w r k : Always wakes_live (activate_run w r k).
Proof.
  unfold activate_run. apply always_bind; [apply always_tx, _|]. intros [h [ [from n]|] ]; [|apply _].
  apply always_bind; [apply _|intros ids]. apply always_tx. unfold activate_recovery_tx.
  do 2 (apply respects_bind; [apply _|intros ?]). apply respects_if; [apply _|].
  do 3 (apply respects_bind; [apply _|intros ?]).
  eapply respects_after; [apply planRestartRecoveryTx_bound|apply _|]. intros plan Hp.
  apply respects_bind; [apply _|intros _]. by apply live_apply_restart.
Qed.
#[export] Instance live_activatePaused w r k : Always wakes_live (activatePausedWorkingHead w r k).
Proof.
  unfold activatePausedWorkingHead, countWorldTasks, activate_paused_tx. always_open.
  do 6 (apply respects_bind; [apply _|intros ?]). apply respects_lift. intros n [_ ->]%NextDurableCounter_ok.
  apply respects_bind; [by apply live_normalize|intros _; apply _].
Qed.
#[export] Instance live_pause w r k e : Always wakes_live (pause_and_fail w r k e).
Proof.
  unfold pause_and_fail, pauseWorldForCheckpointFailure. apply always_bind; [|intros _; apply _].
  case_match; [|apply _]. apply always_tx. apply respects_bind; [apply _|intros [current|] ]; [|apply _].
  apply respects_if; [apply _|]. apply respects_if; [apply _|]. apply _.
Qed.
Lemma live_ActivateWorld w r k ref : rf_Status ref <> checkpointStatusConfirmed ->
  Always wakes_live (ActivateWorld w r k ref).
Proof.
  intros Hn. apply (ActivateWorld_cases _ _ _ _ (@Always wakes_live)); try done; intros; try apply _.
  - by apply always_lift.
Qed.

Lemma live_perform c : forward c = true -> Always wakes_live (perform c).
Proof.
  intros Hf. destruct c; cbn [perform].
  4: { apply always_discard, live_ActivateWorld. cbn [forward] in Hf. by boolp. }
  all: always_calls.
Qed.

Lemma wakes_ok_keyed db : wakes_ok db -> wakes_keyed db.
Proof. intros H id c Hc. by apply (wk_row _ H id c). Qed.

Lemma run_wakes db db' : reachable db -> run db db' -> wakes_advance (db_wakes db) (db_wakes db').
Proof.
  intros Hr Hs. apply (run_keep wakes_live db db' live_perform Hs).
  by apply wakes_ok_keyed, tp_wakes, reachable_topology.
Qed.
