(* ===== verification/Isolation.v ===== *)
(** * Worlds do not touch each other

    Every service call acts in one world.  Rows of other worlds and their heads are
    the same before and after it, whatever its answer; checkpoints are only added,
    in its own world. *)

From S2P Require Export Lifecycle.

Local Open Scope go_scope.

#[local] Opaque Record_Validate sha256Hex marshalRecord marshalTaskSpec marshalCreateResult
  marshalHistory cloneRecord modelProgressJSON validateTaskMutationCapacity Wake_Validate.

(** ** The relation *)
Definition row_in (w : WorldKey) (o : option wakeRow) : Prop :=
  match o with Some c => in_world w (w_Owner (wr_indexed c)) = true | None => True end.

Record confined_to (w : WorldKey) (db db' : DB) : Prop := {
  cf_heads : forall w', w' <> w -> db_heads db' !! w' = db_heads db !! w';
  cf_tasks : forall k, in_world w k.1 = false -> db_tasks db' !! k = db_tasks db !! k;
  cf_wakes : forall id, db_wakes db' !! id = db_wakes db !! id
    \/ (row_in w (db_wakes db !! id) /\ row_in w (db_wakes db' !! id));
  cf_checkpoints : forall id, db_checkpoints db' !! id = db_checkpoints db !! id
    \/ (db_checkpoints db !! id = None /\ exists row, db_checkpoints db' !! id = Some row /\ cp_World row = w)
}.
Definition store_keyed (db : DB) : Prop := keyed db /\ wakes_keyed db.
Definition confined (w : WorldKey) : relation DB := guarded store_keyed (confined_to w).

#[export] Instance confined_to_preorder w : PreOrder (confined_to w).
Proof.
  split; [intros db; by split; auto|]. intros db1 db2 db3 [H1 T1 W1 C1] [H2 T2 W2 C2]. split.
  - intros w' Hw. by rewrite H2, H1.
  - intros k Hk. by rewrite T2, T1.
  - intros id. destruct (W1 id) as [E1|[I1 I2]], (W2 id) as [E2|[J1 J2]].
    + left. by rewrite E2, E1.
    + right. by rewrite <- E1.
    + right. by rewrite E2.
    + by right.
  - intros id. destruct (C1 id) as [E1|[N1 (r1 & R1 & W1')]], (C2 id) as [E2|[N2 (r2 & R2 & W2')]].
    + left. by rewrite E2, E1.
    + right. rewrite <- E1. split; [done|]. by exists r2.
    + right. split; [done|]. exists r1. by rewrite E2.
    + congruence.
Qed.
#[export] Instance confined_preorder w : PreOrder (confined w).
Proof. apply _. Qed.

Lemma confined_tasks w db db' k c : in_world w k.1 = true -> task_key c = k ->
  db' = with_tasks (<[k := c]> (db_tasks db)) db -> confined w db db'.
Proof.
  intros Hk Hc -> [K1 K2]. split; [split; [|done]|split; cbn [with_tasks db_tasks db_wakes db_heads db_checkpoints]; auto].
  - intros j d. cbn [with_tasks db_tasks]. destruct (decide (j = k)) as [->|Hne].
    + rewrite lookup_insert_eq. by intros [= <-].
    + rewrite lookup_insert_ne by done. apply K1.
  - intros j Hj. rewrite lookup_insert_ne; [done|]. intros <-. congruence.
Qed.
Lemma confined_wakes w db db' c : row_in w (db_wakes db !! w_ID (wr_indexed c)) -> row_in w (Some c) ->
  db' = with_wakes (<[w_ID (wr_indexed c) := c]> (db_wakes db)) db -> confined w db db'.
Proof.
  intros Ho Hc -> [K1 K2]. split; [split; [done|]|split; cbn [with_wakes db_tasks db_wakes db_heads db_checkpoints]; auto].
  - by eapply wakes_keyed_put.
  - intros j. destruct (decide (j = w_ID (wr_indexed c))) as [->|Hne].
    + right. by rewrite lookup_insert_eq.
    + left. by rewrite lookup_insert_ne.
Qed.
Lemma confined_head w db db' c : db' = with_heads (<[w := c]> (db_heads db)) db -> confined w db db'.
Proof.
  intros -> [K1 K2]. split; [done|]. split; cbn [with_heads db_tasks db_wakes db_heads db_checkpoints]; auto.
  intros w' Hw. by rewrite lookup_insert_ne.
Qed.

(** ** Writes *)
#[export] Instance cf_loadHead w : Respects (confined w) (loadWorldHeadForMutationTx w).
Proof.
  intros env st r st' H.
  apply loadWorldHeadForMutationTx_ok in H as (_ & _ & c & r0 & _ & _ & [ [_ Hd]|(_ & _ & Hd)]); [by rewrite Hd|].
  by eapply confined_head.
Qed.
Lemma cf_headCAS w before updated :
  bd_World (hd_Binding (wh_Head before)) = w -> Respects (confined w) (updateWorldHeadCASTx before updated).
Proof. intros <- env st u st' H. apply updateWorldHeadCASTx_ok in H as (_ & _ & Hd). by eapply confined_head. Qed.
Lemma cf_updateRow w before g s `{KeepsKey s} :
  in_world w (r_Owner before) = true -> Respects (confined w) (update_row before g s).
Proof.
  intros Hw env st u st' Hr Hk.
  destruct (update_row_ok _ _ _ _ _ _ _ (proj1 Hk) Hr) as (c & Hc & _ & _ & _ & Hd).
  refine (confined_tasks w _ _ (row_key before) (s c) Hw _ Hd Hk).
  rewrite (keeps_key c). by apply Hk.
Qed.
Lemma cf_insertTask w c : in_world w (co_owner c) = true -> Respects (confined w) (insert_task c).
Proof.
  intros Hw env st u st' H. apply insert_task_ok in H as (_ & _ & _ & Hd). by apply (confined_tasks w _ _ (task_key c) c).
Qed.
Lemma cf_insert_wake w c : in_world w (w_Owner (wr_indexed c)) = true -> Respects (confined w) (insert_wake c).
Proof.
  intros Hw env st u st' H. apply insert_wake_ok in H as (Hn & _ & _ & _ & Hd).
  eapply confined_wakes; [|exact Hw|exact Hd]. by rewrite Hn.
Qed.
Lemma cf_insertWake w r k : in_world w (w_Owner k) = true -> Respects (confined w) (insertWakeTx r k).
Proof.
  intros Hw. unfold insertWakeTx. apply respects_bind; [apply _|intros _].
  apply respects_bind; [by apply cf_insert_wake|apply _].
Qed.
Lemma cf_updateWake w before updated :
  in_world w (w_Owner (dw_wake before)) = true -> Respects (confined w) (updateWakeCASTx before updated).
Proof.
  intros Hw env st u st' H. apply updateWakeCASTx_ok in H as (_ & Hid & _ & Ho & c & Hc & Hi & _ & Hd).
  eapply (confined_wakes _ _ _ {| wr_indexed := updated; wr_clockID := wr_clockID c; wr_json := updated |});
    cbn [wr_indexed row_in]; [|by rewrite Ho|by rewrite Hid].
  rewrite Hid, Hc. simpl. by rewrite Hi.
Qed.
Lemma cf_consume w k : in_world w (w_Owner k) = true -> Respects (confined w) (consume_wake k).
Proof.
  intros Hw env st u st' H Hk. unfold consume_wake in H. minv H.
  apply update_wake_one in Hr as (c & Hc & Hg & (_ & _ & _ & Hd)%put_wake_ok). boolp.
  destruct Hg as [Ht _]. injection Ht as Ho _. pose proof (proj2 Hk _ _ Hc) as Hid. revert Hk.
  eapply confined_wakes; [|  |exact Hd]; cbn [wr_indexed wake_with w_ID w_Owner row_in]; [|by rewrite Ho].
  rewrite Hid, Hc. simpl. by rewrite Ho.
Qed.
Lemma relation_owner head d : validateDurableWakeRelation head d = Ok tt ->
  r_Owner (st_record (dw_record d)) = w_Owner (dw_wake d).
Proof. intros [_ [Hk _] ]%relation_fits. by injection Hk. Qed.
Lemma cf_consume_all w head keep l :
  Forall (fun k => in_world w (w_Owner k) = true) l -> Respects (confined w) (consume_all head keep l).
Proof.
  induction 1 as [|k l Hk _ IH]; cbn [consume_all]; [apply _|]. apply respects_bind; [|done].
  apply respects_if; [apply _|by apply cf_consume].
Qed.
Lemma cf_consumeWakes w head r keep :
  in_world w (r_Owner r) = true -> Respects (confined w) (consumeWakesTx head r keep).
Proof.
  intros Hw. unfold consumeWakesTx. respects_open. apply cf_consume_all.
  match goal with H : scan_task_wakes _ _ ?l = Ok ?ws |- _ => rename H into Hs; revert Hs; generalize l; revert ws end.
  intros ws l. revert ws. induction l as [|c l IH]; intros ws Hs; cbn [scan_task_wakes] in Hs; okinv Hs; [constructor|].
  constructor; [|by apply IH]. unfold scan_task_wake in Hv. okinv Hv. 
  apply unit_ok, relation_owner in Hv2. cbn [dw_wake dw_record st_record] in Hv2. by rewrite <- Hv2.
Qed.
Lemma cf_claim_each w claimant l ids :
  Forall (fun d => in_world w (w_Owner (dw_wake d)) = true) l -> Respects (confined w) (claim_each claimant l ids).
Proof.
  intros HF. revert ids. induction HF as [|d l Hd _ IH]; intros [|i ids]; cbn [claim_each]; [apply _..|].
  respects_open. apply respects_bind; [by apply cf_updateWake|intros _].
  apply respects_bind; [apply IH|apply _].
Qed.

(** ** What was read belongs to the world *)
Lemma loadIntent_owner o t env st a st' :
  store_keyed (st_db st) -> loadIntentTaskTx o t env st = (Ok a, st') -> r_Owner (st_record a) = o.
Proof.
  intros [Hk _] H. unfold loadIntentTaskTx in H. minv H.
  destruct (db_tasks (st_db st) !! (o, t)) as [c|] eqn:Hc; [|done]. okinv H. cbn [st_record].
  apply decode_owner in Hv as [-> _]. apply Hk in Hc. by injection Hc.
Qed.
Lemma loadByID_world w t env st a st' :
  loadWorldTaskByIDTx w t env st = (Ok a, st') -> in_world w (r_Owner (st_record a)) = true.
Proof.
  intros H. unfold loadWorldTaskByIDTx in H. minv H.
  match goal with H : decode_rows _ = Ok ?l |- _ => destruct (decode_rows_ok _ _ H) as [_ Hd];
    destruct l as [|d [|]] end.
  all: try (exfalso; by apply fail_ok in H). apply ret_ok in H as [-> _]. destruct (Hd d ltac:(by left)) as (c & Hin & Hdec).
  apply rows_where_elem in Hin as (Hp & _). apply andb_true_iff in Hp as [Hw _].
  apply decode_owner in Hdec as [Ho _]. cbn [st_record]. by rewrite Ho.
Qed.
Lemma loadHead_world w env st a st' :
  loadWorldHeadForMutationTx w env st = (Ok a, st') -> bd_World (hd_Binding (wh_Head a)) = w.
Proof. intros H. by apply loadWorldHeadForMutationTx_ok in H as [? _]. Qed.
Lemma findWake_world head id env st d st' : findStrictWorldWakeTx head id env st = (Ok d, st') ->
  in_world (bd_World (hd_Binding (wh_Head head))) (w_Owner (dw_wake d)) = true
  /\ r_Owner (st_record (dw_record d)) = w_Owner (dw_wake d).
Proof.
  intros H. unfold findStrictWorldWakeTx in H. minv H. destruct (db_wakes (st_db st0) !! id) as [c|]; [|done].
  destruct (in_world _ _) eqn:Hw; [|done]. okinv Hr0. unfold graph_wake in H. okinv H. cbn [fst snd dw_wake dw_record] in *.
  apply unit_ok, relation_owner in Hv1. split; [|exact Hv1].
  match goal with H : scanAdmissionWakeRow _ = Ok _ |- _ => by apply scanAdmissionWakeRow_ok in H as [-> _] end.
Qed.
Lemma dueWakes_world head k now n env st l st' : loadDueWakeCandidatesTx head k now n env st = (Ok l, st') ->
  Forall (fun d => in_world (bd_World (hd_Binding (wh_Head head))) (w_Owner (dw_wake d)) = true) l.
Proof.
  intros H. unfold loadDueWakeCandidatesTx in H. minv H; [done|].
  match goal with H : scan_wake_rows _ = Ok ?s |- _ => destruct (scan_wake_rows_ok _ _ H) as [S1 S2] end.
  apply graph_wakes_ok in H as [G _].
  apply (Forall_fmap dw_wake (fun k => in_world (bd_World (hd_Binding (wh_Head head))) (w_Owner k) = true)).
  rewrite G, scanned_wakes, S1 by done. apply Forall_fmap, Forall_forall. intros c [Hdue _]%due_rows_due.
  unfold is_due in Hdue. boolp. simpl. tauto.
Qed.

(** ** Calls *)
Definition call_world (c : call) : WorldKey :=
  match c with
  | CallReadHead w | CallReadCheckpointBarrier w | CallActivateWorld w _ _ _ => w
  | CallUpdateClock b _ | CallDeactivateWorld b _ | CallPrepareCheckpoint b _ _ _
  | CallFinishCheckpoint b _ _ | CallAdmitEvidence b _
  | CallMarkOperationNotSent b _ _ _ _ | CallRecordCleanup b _ _ | CallClaimDue b _ _ | CallMarkEnqueued b _ _
  | CallReleaseClaim b _ _ _ | CallBeginWake b _ _ | CallInspectWake b _ => bd_World b
  | CallCreate e _ _ | CallApplyIntent e _ | CallRegisterOperation e _ | CallReconcile e
  | CallFinishAttempt e _ => bd_World (ex_Binding e)
  | CallRead o _ | CallList o _ | CallListActive o _ | CallListRecentResults o _ => owner_world o
  end.

Lemma exec_in_world e : ExecutionContext_Validate e = Ok tt -> in_world (bd_World (ex_Binding e)) (ex_Owner e) = true.
Proof.
  unfold ExecutionContext_Validate. intros H. okinv H. unfold in_world, sameOwnerWorld. boolp.
  destruct Hg as [-> ->]. by rewrite !bool_decide_true.
Qed.

(** Rows written by compare-and-swap on a task of the world. *)
Ltac cf_update := intros Hw; unfold updateNoRevisionRecordTx, updateReconcileRecordTx, updateAttemptRecordTx,
  updateBeginRecordTx, updateIntentRecordTx, storeIntentHistoryTx, marshal_before;
  first [ apply respects_bind; [apply _|intros ?]; apply cf_updateRow; [apply _|exact Hw]
        | apply cf_updateRow; [apply _|exact Hw] ].
Section updates.
Context (w : WorldKey) (b p : TaskRecord).
Lemma cf_updateNoRevision : in_world w (r_Owner b) = true -> Respects (confined w) (updateNoRevisionRecordTx b p).
Proof. cf_update. Qed.
Lemma cf_updateReconcile : in_world w (r_Owner b) = true -> Respects (confined w) (updateReconcileRecordTx b p).
Proof. cf_update. Qed.
Lemma cf_updateAttempt : in_world w (r_Owner b) = true -> Respects (confined w) (updateAttemptRecordTx b p).
Proof. cf_update. Qed.
Lemma cf_updateBegin : in_world w (r_Owner b) = true -> Respects (confined w) (updateBeginRecordTx b p).
Proof. cf_update. Qed.
Lemma cf_updateIntent : in_world w (r_Owner b) = true -> Respects (confined w) (updateIntentRecordTx b p).
Proof. cf_update. Qed.
Lemma cf_storeHistory h : in_world w (r_Owner b) = true -> Respects (confined w) (storeIntentHistoryTx b p h).
Proof. cf_update. Qed.
End updates.

#[export] Instance cf_wake_world b : Respects (confined (bd_World b)) (wake_world b).
Proof. unfold wake_world. apply _. Qed.
Lemma wake_world_binding b env st h st' : wake_world b env st = (Ok h, st') -> hd_Binding (wh_Head h) = b.
Proof.
  unfold wake_world. intros H. minv H.
  match goal with H : validateWakeWorldAuthority _ _ _ = _ |- _ => unfold validateWakeWorldAuthority in H; okinv H end.
  by boolp.
Qed.

Lemma prepareReconcile_owner c u env st p st' :
  prepareReconcileMutation c u env st = (Ok p, st') -> r_Owner u = r_Owner (st_record c).
Proof. intros H. unfold prepareReconcileMutation in H. minv H. boolp. symmetry. tauto. Qed.
Lemma intent_record_owner e q i r r' : intent_record e q i r = Ok r' -> r_Owner r' = r_Owner r.
Proof.
  unfold intent_record. intros H. okinv H. case_match; [case_match; [|done]| |done]; okinv H; [|done].
  by case_match; simplify_eq.
Qed.

(** Open a transaction, remembering the world of everything that was loaded. *)
Ltac cf_leaf := first
  [ apply cf_updateNoRevision | apply cf_updateReconcile | apply cf_updateAttempt | apply cf_updateBegin
  | apply cf_updateIntent | apply cf_storeHistory | apply cf_updateWake | apply cf_insertWake | apply cf_consumeWakes
  | apply cf_headCAS ];
  cbn [wh_Head with_head with_barrier hd_Binding head_with_clock head_paused new_wake w_Owner wake_with]; congruence.
Ltac cf_open :=
  repeat lazymatch goal with
  | |- Respects _ (lift (intent_record ?e ?q ?i ?r) ≫= _) =>
      apply respects_lift; let a := fresh "v" in let H := fresh "Hc" in intros a H; apply intent_record_owner in H
  | |- Respects _ (prepareReconcileMutation ?c ?u ≫= _) =>
      apply (respects_after (fun _ => r_Owner u = r_Owner (st_record c)));
        [apply prepareReconcile_owner|unfold prepareReconcileMutation, prepare_capacity; apply _|intros ? ?]
  | |- Respects _ (lift ?x ≫= _) =>
      apply respects_lift; let a := fresh "v" in let H := fresh "Hc" in intros a H; okinv H
  | |- Respects _ (loadIntentTaskTx ?o ?t ≫= _) =>
      apply (respects_after_inv _ _ (fun a => r_Owner (st_record a) = o)); [apply loadIntent_owner|apply _|intros ? ?]
  | |- Respects _ (loadWorldTaskByIDTx ?w ?t ≫= _) =>
      apply (respects_after (fun a => in_world w (r_Owner (st_record a)) = true)); [apply loadByID_world|apply _|intros ? ?]
  | |- Respects _ (catch (loadWorldTaskByIDTx ?w ?t) _ ≫= _) =>
      apply (respects_after (fun a => in_world w (r_Owner (st_record a)) = true));
        [intros ? ? ? ? ?%catch_fail_ok; by eapply loadByID_world|apply _|intros ? ?]
  | |- Respects _ (findStrictWorldWakeTx ?h ?i ≫= _) =>
      apply (respects_after (fun d => in_world (bd_World (hd_Binding (wh_Head h))) (w_Owner (dw_wake d)) = true
                                      /\ r_Owner (st_record (dw_record d)) = w_Owner (dw_wake d)));
        [apply findWake_world|apply _|intros ? [? ?]]
  | |- Respects _ (loadWorldHeadForMutationTx ?w ≫= _) =>
      apply (respects_after (fun a => bd_World (hd_Binding (wh_Head a)) = w)); [apply loadHead_world|apply _|intros ? ?]
  | |- Respects _ (wake_world ?b ≫= _) =>
      apply (respects_after (fun a => hd_Binding (wh_Head a) = b)); [apply wake_world_binding|apply _|intros ? ?]
  | |- Respects _ (_ ≫= _) => apply respects_bind; [first [cf_leaf|apply _|idtac]|intros ?]
  | |- Respects _ (if ?b then _ else _) => let E := fresh "Hb" in destruct b eqn:E
  | |- Respects _ (match _ with _ => _ end) => case_match
  end; try first [cf_leaf|apply _].

Lemma cf_UpdateClock b k : Always (confined (bd_World b)) (UpdateClock b k).
Proof. unfold UpdateClock. always_open. cf_open. Qed.
Lemma cf_DeactivateWorld b r : Always (confined (bd_World b)) (DeactivateWorld b r).
Proof. unfold DeactivateWorld. always_open. cf_open. Qed.
Lemma cf_FinishCheckpoint b s v : Always (confined (bd_World b)) (FinishCheckpoint b s v).
Proof. unfold FinishCheckpoint. always_open. cf_open. Qed.
Lemma cf_AdmitEvidence b e : Always (confined (bd_World b)) (AdmitEvidence b e).
Proof. unfold AdmitEvidence. always_open. unfold admitEvidenceTx, prepareNoRevisionMutation, prepare_capacity. cf_open. Qed.
Lemma cf_RecordCleanup b t c : Always (confined (bd_World b)) (RecordCleanup b t c).
Proof. unfold RecordCleanup. always_open. unfold prepareCleanupMutation, prepare_capacity. cf_open. Qed.
Lemma cf_MarkEnqueued b w i : Always (confined (bd_World b)) (MarkEnqueued b w i).
Proof. unfold MarkEnqueued. always_open. cf_open. Qed.
Lemma cf_ReleaseClaim b w i t : Always (confined (bd_World b)) (ReleaseClaim b w i t).
Proof. unfold ReleaseClaim. always_open. cf_open. Qed.
Lemma cf_BeginWake b w i : Always (confined (bd_World b)) (BeginWake b w i).
Proof.
  unfold BeginWake. do 2 (apply always_bind; [apply _|intros _]). apply always_bind; [|intros [? ?]; apply _].
  always_open. unfold prepareBeginMutation, prepare_capacity. cf_open.
Qed.
Lemma cf_ClaimDue b k l : Always (confined (bd_World b)) (ClaimDue b k l).
Proof.
  unfold ClaimDue. always_open.
  apply (respects_after (fun a => hd_Binding (wh_Head a) = b)); [apply wake_world_binding|apply _|intros head Hhead].
  do 2 (apply respects_bind; [apply _|intros ?]).
  eapply respects_after; [apply dueWakes_world|apply _|intros ds Hds]. rewrite Hhead in Hds.
  apply respects_if; [apply _|by apply cf_claim_each].
Qed.
Lemma cf_MarkOperationNotSent b o t i a : Always (confined (bd_World b)) (MarkOperationNotSent b o t i a).
Proof.
  unfold MarkOperationNotSent. always_open. unfold prepareNoRevisionMutation, prepare_capacity.
  assert (in_world (bd_World b) o = true) by (unfold in_world, sameOwnerWorld; boolp; rewrite !bool_decide_true; tauto).
  cf_open.
Qed.

(** Calls of an execution context: its owner is of its binding's world. *)
Section exec.
Context (e : ExecutionContext).
Local Notation W := (bd_World (ex_Binding e)).

Lemma cf_RegisterOperation o : Always (confined W) (RegisterOperation e o).
Proof.
  unfold RegisterOperation. apply always_bind; [apply _|intros _]. apply always_lift. intros v Hv.
  unfold validateOperationExecution in Hv. apply bind_ok in Hv as ([] & Hv%exec_in_world & _).
  always_open. unfold prepareNoRevisionMutation, prepare_capacity. cf_open.
Qed.
Lemma cf_Reconcile : Always (confined W) (Reconcile e).
Proof.
  unfold Reconcile. apply always_bind; [apply _|intros _]. apply always_lift. intros v Hv.
  unfold validateReconcileExecution in Hv. apply bind_ok in Hv as ([] & Hv%exec_in_world & _).
  always_open. unfold reconcile_tx. cf_open.
Qed.
Lemma cf_FinishAttempt o : Always (confined W) (FinishAttempt e o).
Proof.
  unfold FinishAttempt. apply always_bind; [apply _|intros _]. apply always_lift. intros v Hv.
  unfold validateFinishAttemptInput in Hv. apply bind_ok in Hv as ([] & Hv%exec_in_world & _).
  apply always_bind; [|intros ?; apply _]. apply always_tx. unfold finish_attempt_tx. cf_open.
Qed.
Lemma cf_ApplyIntent i : Always (confined W) (ApplyIntent e i).
Proof.
  unfold ApplyIntent. apply always_bind; [apply _|intros _]. apply always_lift. intros v Hv.
  unfold validateApplyIntentInput in Hv. apply bind_ok in Hv as ([] & Hv%exec_in_world & _).
  always_open. unfold apply_intent_tx, loadExactIntentTx, loadOwnerCallIdentityTx, prepareIntentMutation, prepare_capacity.
  cf_open. 
Qed.
Lemma cf_insertTaskAndWake p :
  in_world W (r_Owner (pc_record p)) = true -> in_world W (w_Owner (pc_wake p)) = true ->
  Respects (confined W) (insertTaskAndWakeTx p).
Proof.
  intros H1 H2. unfold insertTaskAndWakeTx. do 3 (apply respects_bind; [apply _|intros ?]).
  apply respects_bind; [by apply cf_insertTask|intros ?]. apply respects_bind; [apply _|intros ?].
  by apply cf_insert_wake.
Qed.
Lemma cf_Create s a : Always (confined W) (Create e s a).
Proof.
  unfold Create. apply always_bind; [apply _|intros _]. apply always_lift. intros v Hv.
  unfold validateCreateInput in Hv. apply bind_ok in Hv as ([] & Hv%exec_in_world & _).
  always_open. unfold create_tx, loadExactCreateTx, loadOwnerCallIdentityTx, loadEquivalentTaskTx, enforceAdmissionTx.
  cf_open.
  match goal with H : prepare_create _ _ _ = Ok (_, _) |- _ => apply prepare_create_ok in H as (Hr & Hw & _) end.
  apply cf_insertTaskAndWake; rewrite ?Hr, ?Hw; done.
Qed.
End exec.

(** ** Checkpoints and activation *)
Lemma cf_written w d k db db' : in_world w (w_Owner (dw_wake d)) = true -> wake_written d k db db' ->
  db_heads db' = db_heads db -> db_checkpoints db' = db_checkpoints db -> confined w db db'.
Proof.
  intros Hw [_ Hid Ht T (c & Hc & Hi & _ & E)] Eh Ec. unfold wake_task in Ht. injection Ht as Ho _.
  eapply (confined_wakes _ _ _ {| wr_indexed := k; wr_clockID := wr_clockID c; wr_json := k |}); cbn [wr_indexed row_in].
  - rewrite Hc. cbn [row_in]. by rewrite Hi.
  - by rewrite Ho.
  - destruct db' as [h1 t1 w1 c1], db as [h2 t2 w2 c2]. unfold with_wakes. cbn [db_heads db_tasks db_wakes db_checkpoints] in *. congruence.
Qed.
Lemma cf_checkpointWake w d k : in_world w (w_Owner (dw_wake d)) = true -> w_ID k = w_ID (dw_wake d) ->
  wake_task k = wake_task (dw_wake d) -> Respects (confined w) (updateCheckpointWakeTx d k).
Proof.
  intros Hw E1 E2 env st u st' H. unfold wake_task in E2. injection E2 as E2 E3.
  eapply cf_written; [exact Hw|by eapply updateCheckpointWakeTx_written|..]; unfold updateCheckpointWakeTx in H; minv H;
    match goal with H : update_wake _ _ _ _ _ = _ |- _ =>
      apply update_wake_one in H as (c & _ & _ & (_ & _ & _ & Hdb)%put_wake_ok) end; cbn [tick st_db]; by rewrite Hdb.
Qed.
Lemma cf_restartRecord w b p : in_world w (r_Owner b) = true -> Respects (confined w) (updateRestartRecordTx b p).
Proof. unfold updateRestartRecordTx. cf_update. Qed.
Lemma cf_restartHead w before u : bd_World (hd_Binding (wh_Head before)) = w ->
  Respects (confined w) (updateWorldRestartHeadTx before u).
Proof. intros <- env st x st' (_ & _ & c & _ & Hd)%updateWorldRestartHeadTx_ok. by eapply confined_head. Qed.
Lemma cf_insertHead w row : bd_World (hd_Binding (wh_Head row)) = w -> Respects (confined w) (insertWorldHeadTx row).
Proof. intros <- env st x st' [_ Hd]%insertWorldHeadTx_ok. by eapply confined_head. Qed.
Lemma cf_releaseBarrier w h : bd_World (hd_Binding (wh_Head h)) = w ->
  Respects (confined w) (releaseExpiredCheckpointBarrierTx h).
Proof.
  intros Hw. unfold releaseExpiredCheckpointBarrierTx. apply respects_bind; [apply _|intros ?].
  apply respects_if; [apply _|]. do 3 (apply respects_bind; [apply _|intros ?]). apply respects_if; [apply _|].
  apply respects_bind; [apply _|intros ?]. apply respects_bind; [by apply cf_headCAS|intros ?; apply _].
Qed.
Lemma cf_insertCheckpoint w row : cp_World row = w -> Respects (confined w) (insertCheckpointTx row).
Proof.
  intros Hw env st u st' H. unfold insertCheckpointTx, insert_checkpoint, maxSnapshotBytes in H. minv H.
  match goal with H : exec _ _ _ = _ |- _ => apply exec_ok in H; okinv H; destruct (_ && _); [|done] end. simplify_eq.
  cbn [tick st_db]. intros [K1 K2]. boolp. apply eq_None_not_Some in Hg.
  repeat match goal with E : _ = st_db _ |- _ => rewrite <- E end.
  split; [done|]. split; cbn [db_heads db_tasks db_wakes db_checkpoints]; auto. intros i.
  destruct (decide (i = cp_ID row)) as [->|Hne]; [right; split; [done|]; exists row; by rewrite lookup_insert_eq|].
  left. by rewrite lookup_insert_ne.
Qed.

Section working_set.
Context (head : worldHeadRow).
Local Notation W := (head_world head).
Lemma cf_working_rebound d retry : wake_bound head d -> deliverable (w_Status (dw_wake d)) = true ->
  let k := rebound_wake (head_generation head + 1)%N retry (dw_wake d) in
  Respects (confined W) (updateCheckpointWakeTx d k) /\ Respects (confined W) (updateWakeCASTx d k).
Proof. intros [Hw _] _. split; [by apply cf_checkpointWake|by apply cf_updateWake]. Qed.
Lemma cf_working_spend d : wake_bound head d -> executableStatus (w_Status (dw_wake d)) = true ->
  Respects (confined W) (updateCheckpointWakeTx d (consumed_wake (dw_wake d)))
  /\ Respects (confined W) (updateWakeCASTx d (consumed_wake (dw_wake d))).
Proof. intros [Hw _] _. split; [by apply cf_checkpointWake|by apply cf_updateWake]. Qed.
Lemma cf_normalize h ids : hd_Binding (wh_Head h) = hd_Binding (wh_Head head) ->
  Respects (confined W) (normalizeCheckpointWorkingSetTx h (head_generation head + 1) ids).
Proof.
  intros E. apply (respects_normalize (confined W) head); [apply cf_working_rebound|apply cf_working_spend|..|done].
  - intros b p Hb. by apply cf_restartRecord.
  - intros p id Hp. by apply cf_insertWake.
Qed.
Lemma cf_apply_restart plan ids k c : plan_bound head plan ->
  Respects (confined W) (applyRestartRecoveryTx head plan ids k c).
Proof.
  intros Hp. apply (respects_apply_restart (confined W) head); [apply cf_working_rebound|apply cf_working_spend|..|done|].
  - intros b p Hb. by apply cf_restartRecord.
  - intros p id Hp'. by apply cf_insertWake.
  - intros u. by apply cf_restartHead.
Qed.
End working_set.

Lemma cf_admit_facts w h l : bd_World (hd_Binding (wh_Head h)) = w -> Respects (confined w) (admit_facts h l).
Proof.
  intros Hw. induction l as [|e l IH]; cbn [admit_facts]; [apply _|]. apply respects_bind; [|intros _; apply IH].
  unfold admitEvidenceTx, prepareNoRevisionMutation, prepare_capacity. rewrite Hw. cf_open.
Qed.
Lemma cf_PrepareCheckpoint b k s l : Always (confined (bd_World b)) (PrepareCheckpoint b k s l).
Proof.
  unfold PrepareCheckpoint, countWorldTasks. always_open.
  apply (respects_after (fun h => head_world h = bd_World b)); [apply loadHead_world|apply _|intros current Hw].
  apply respects_bind; [apply _|intros prior]. case_match; [apply _|]. unfold prepare_checkpoint_tx.
  do 3 (apply respects_bind; [apply _|intros ?]). apply respects_bind; [by apply cf_admit_facts|intros _].
  apply respects_lift. intros n [_ ->]%NextDurableCounter_ok.
  apply respects_bind; [rewrite <- Hw; by apply cf_normalize|intros _]. unfold maxSnapshotBytes.
  apply respects_bind; [apply _|intros [snapshot text] ]. do 3 (apply respects_bind; [apply _|intros ?]).
  apply respects_bind; [by apply cf_insertCheckpoint|intros _]. do 2 (apply respects_bind; [apply _|intros ?]).
  apply respects_bind; [by apply cf_headCAS|intros _; apply _].
Qed.

#[export] Instance cf_deleteWakes w : Respects (confined w) (delete_world_wakes w).
Proof.
  intros env st u st' ->%delete_world_wakes_ok [K1 K2]. split; [split; [done|]|split; try done].
  - intros id c [Hc _]%outside_wakes_lookup. by apply K2.
  - intros id. cbn [with_wakes db_wakes]. destruct (outside_wakes w _ !! id) as [c|] eqn:E.
    + apply outside_wakes_lookup in E as [E _]. by left.
    + destruct (db_wakes (st_db st) !! id) as [c|] eqn:Hc; [|by left]. right. split; [|done]. cbn [row_in].
      destruct (in_world w (w_Owner (wr_indexed c))) eqn:Hw; [done|].
      assert (outside_wakes w (db_wakes (st_db st)) !! id = Some c) by by apply outside_wakes_lookup. congruence.
  - intros id. by left.
Qed.
#[export] Instance cf_deleteTasks w : Respects (confined w) (delete_world_tasks w).
Proof.
  intros env st u st' ->%delete_world_tasks_ok HK.
  assert (confined w (st_db st) (with_wakes (outside_wakes w (db_wakes (st_db st))) (st_db st))) as HD.
  { pose (env0 := {| e_ctx := fun _ => None; e_fault := fun _ => None; e_now := fun _ => 0%Z; e_nano := fun _ => 0%Z;
      e_counter := fun _ => 0%N; e_claimantID := ""; e_options := e_options env |}).
    exact (cf_deleteWakes w env0 st tt (mkSt _ (S (st_step st))) eq_refl). }
  destruct (HD HK) as [ [K1 K2] [H1 H2 H3 H4] ]. clear HD. split; [split; [|done]|split; try done].
  - intros k c [Hc _]%outside_tasks_lookup. by apply K1.
  - intros k Hk. cbn [db_tasks]. destruct (db_tasks (st_db st) !! k) as [c|] eqn:Hc.
    + apply outside_tasks_lookup. split; [done|]. pose proof (K1 k c Hc) as <-. exact Hk.
    + destruct (outside_tasks w _ !! k) eqn:E; [|done]. apply outside_tasks_lookup in E as [E _]. congruence.
Qed.
Lemma cf_restore_tasks w l : (forall t, t ∈ l -> in_world w (r_Owner (ts_Record t)) = true) ->
  Respects (confined w) (restore_tasks l).
Proof.
  induction l as [|t l IH]; intros Hl; cbn [restore_tasks]; [apply _|]. apply respects_bind.
  - unfold insertCheckpointTaskTx. apply respects_bind; [apply _|intros ?]. apply respects_bind; [|apply _].
    apply cf_insertTask. apply Hl. by left.
  - intros _. apply IH. intros x Hx. apply Hl. by right.
Qed.
Lemma cf_restore_wakes w g m l : (forall k, k ∈ l -> in_world w (w_Owner (ws_Wake k)) = true) ->
  Respects (confined w) (restore_wakes g m l).
Proof.
  induction l as [|k l IH]; intros Hl; cbn [restore_wakes]; [apply _|]. apply respects_bind; [apply _|intros r].
  apply respects_bind.
  - unfold insertCheckpointWakeTx. apply respects_bind; [apply _|intros ?]. apply respects_bind; [|apply _].
    apply cf_insert_wake. cbn [wake_row wr_indexed]. destruct (restored_wake_identity g (ws_Wake k)) as (_ & E & _).
    injection E as E _. rewrite E. apply Hl. by left.
  - intros _. apply IH. intros x Hx. apply Hl. by right.
Qed.
Lemma cf_activateCheckpoint w r k ref : Always (confined w) (activateCheckpoint w r k ref).
Proof.
  unfold activateCheckpoint. apply always_tx. unfold activate_checkpoint_tx.
  apply (respects_after (fun o => forall row, o = Some row -> cp_World row = w)); [|apply _|intros found Hf].
  { intros env st o st' [_ Ho]%loadCheckpointTx_ok row E. by apply Ho. }
  apply respects_lift. intros row Hrow%of_option_ok. specialize (Hf row Hrow). apply respects_bind; [apply _|intros _].
  apply respects_lift. intros s (_ & _ & Hs & Hw)%decodeCheckpointRow_ok.
  do 2 (apply respects_bind; [apply _|intros _]).
  apply (respects_after (fun o => forall h, o = Some h -> head_world h = w)); [|apply _|intros current Hc].
  { intros env st o st' [_ Ho]%loadWorldHeadTx_ok h ->. by destruct Ho as (c & _ & [? _]%scanWorldHeadRow_ok). }
  do 2 (apply respects_bind; [apply _|intros ?]). unfold restore_working_set. apply respects_bind.
  { do 3 (apply respects_bind; [apply _|intros _]).
    apply respects_bind; [apply cf_restore_tasks|intros _; apply cf_restore_wakes].
    - rewrite <- Hf, <- Hw. apply Hs.
    - intros x Hx. rewrite <- Hf, <- Hw. by apply (ss_wakes _ Hs). }
  intros _. apply respects_bind; [apply _|intros claimant]. apply respects_bind; [|intros _; apply _].
  destruct current as [before|]; [by apply cf_headCAS, Hc|]. apply respects_bind; [by apply cf_insertHead|apply _].
Qed.
Lemma cf_pause w r k e : Always (confined w) (pauseWorldForCheckpointFailure w r k e).
Proof.
  unfold pauseWorldForCheckpointFailure. case_match; [|apply _]. apply always_tx.
  apply (respects_after (fun o => forall h, o = Some h -> head_world h = w)); [|apply _|intros [current|] Hc].
  - intros env st o st' [_ Ho]%loadWorldHeadTx_ok h ->. by destruct Ho as (c' & _ & [? _]%scanWorldHeadRow_ok).
  - apply respects_if; [apply _|]. apply respects_if; [apply _|]. by apply cf_headCAS, Hc.
  - do 2 (apply respects_bind; [apply _|intros ?]). apply respects_bind; [by apply cf_insertHead|apply _].
Qed.
Lemma cf_pause_and_fail w r k e : Always (confined w) (pause_and_fail w r k e).
Proof. unfold pause_and_fail. apply always_bind; [apply cf_pause|intros _; apply _]. Qed.
Lemma cf_activateRun w r k : Always (confined w) (activate_run w r k).
Proof.
  unfold activate_run. apply always_bind.
  - apply always_tx. unfold activate_first_tx.
    apply respects_bind; [by apply (respects_find_head (confined w)), cf_releaseBarrier|intros found].
    apply respects_bind; [apply _|intros claimant]. destruct found; [apply _|].
    unfold worldHasDurableStateTx. do 2 (apply respects_bind; [apply _|intros ?]).
    apply respects_bind; [by apply cf_insertHead|intros _; apply _].
  - intros [h [ [from n]|] ]; [|apply _]. apply always_bind; [apply _|intros ids]. apply always_tx.
    unfold activate_recovery_tx.
    apply (respects_after (fun h => head_world h = w)); [apply loadHead_world|apply _|intros current Hw].
    apply respects_bind; [apply _|intros claimant]. apply respects_if; [apply _|].
    do 3 (apply respects_bind; [apply _|intros _]).
    eapply respects_after; [apply planRestartRecoveryTx_bound|apply _|intros plan Hp].
    apply respects_bind; [apply _|intros _]. rewrite <- Hw. by apply cf_apply_restart.
Qed.
Lemma cf_activatePaused w r k : Always (confined w) (activatePausedWorkingHead w r k).
Proof.
  unfold activatePausedWorkingHead, countWorldTasks, activate_paused_tx. always_open.
  apply (respects_after (fun h => head_world h = w)); [apply loadHead_world|apply _|intros current Hw].
  do 5 (apply respects_bind; [apply _|intros ?]). apply respects_lift. intros n [_ ->]%NextDurableCounter_ok.
  apply respects_bind; [rewrite <- Hw; by apply cf_normalize|intros _]. apply respects_bind; [apply _|intros claimant].
  apply respects_bind; [by apply cf_headCAS|intros _; apply _].
Qed.
Lemma cf_ActivateWorld w r k ref : Always (confined w) (ActivateWorld w r k ref).
Proof.
  apply (ActivateWorld_cases _ _ _ _ (@Always (confined w))); intros; try apply _.
  - by apply always_lift.
  - apply cf_pause_and_fail.
  - apply cf_activatePaused.
  - apply cf_activateRun.
  - unfold restore_or_pause. apply always_bind; [apply always_attempt, cf_activateCheckpoint|].
    intros [h|e]; [apply _|]. apply cf_pause_and_fail.
Qed.

Lemma cf_perform c : Always (confined (call_world c)) (perform c).
Proof.
  destruct c; cbn [perform call_world]; try apply always_discard;
  lazymatch goal with
  | |- Always _ (ActivateWorld _ _ _ _) => apply cf_ActivateWorld
  | |- Always _ (PrepareCheckpoint _ _ _ _) => apply cf_PrepareCheckpoint
  | |- Always _ (UpdateClock _ _) => apply cf_UpdateClock
  | |- Always _ (DeactivateWorld _ _) => apply cf_DeactivateWorld
  | |- Always _ (FinishCheckpoint _ _ _) => apply cf_FinishCheckpoint
  | |- Always _ (AdmitEvidence _ _) => apply cf_AdmitEvidence
  | |- Always _ (RecordCleanup _ _ _) => apply cf_RecordCleanup
  | |- Always _ (MarkEnqueued _ _ _) => apply cf_MarkEnqueued
  | |- Always _ (ReleaseClaim _ _ _ _) => apply cf_ReleaseClaim
  | |- Always _ (BeginWake _ _ _) => apply cf_BeginWake
  | |- Always _ (ClaimDue _ _ _) => apply cf_ClaimDue
  | |- Always _ (MarkOperationNotSent _ _ _ _ _) => apply cf_MarkOperationNotSent
  | |- Always _ (RegisterOperation _ _) => apply cf_RegisterOperation
  | |- Always _ (Reconcile _) => apply cf_Reconcile
  | |- Always _ (FinishAttempt _ _) => apply cf_FinishAttempt
  | |- Always _ (ApplyIntent _ _) => apply cf_ApplyIntent
  | |- Always _ (Create _ _ _) => apply cf_Create
  | _ => always_calls
  end.
Qed.

Lemma reachable_keyed db : reachable db -> store_keyed db.
Proof.
  intros H. split; [by apply tasks_wf_keyed, reachable_tasks_wf|].
  by apply wakes_ok_keyed, tp_wakes, reachable_topology.
Qed.
