(* ===== verification/HeadLife.v ===== *)
(** * The life of a world head

    The head of a world carries the fencing token of its runtime: the binding, with
    its generation, and the game clock.  Whatever calls are made, restores included,
    the generation never decreases, a new binding has a larger one, and within a
    binding the clock never goes back. *)

From S2P Require Export Isolation.

Local Open Scope go_scope.

#[local] Opaque Record_Validate sha256Hex marshalRecord marshalTaskSpec marshalCreateResult
  marshalHistory cloneRecord modelProgressJSON validateTaskMutationCapacity Wake_Validate.

(** ** Heads and their order *)
Definition head_row (db : DB) (w : WorldKey) : option worldHeadRow :=
  match db_heads db !! w with
  | Some c => match scanWorldHeadRow w c with Ok r => Some r | Err _ => None end
  | None => None
  end.
Lemma head_row_some db w r : head_row db w = Some r <->
  exists c, db_heads db !! w = Some c /\ scanWorldHeadRow w c = Ok r.
Proof.
  unfold head_row. split.
  - destruct (db_heads db !! w) as [c|]; [|done]. destruct (scanWorldHeadRow w c) eqn:E; [|done]. intros [= <-]. eauto.
  - by intros (c & -> & ->).
Qed.

Record clock_le (k k' : Clock) : Prop := {
  cl_id : ck_ID k' = ck_ID k;
  cl_tick : (ck_Tick k <= ck_Tick k')%Z;
  cl_sequence : (ck_Sequence k <= ck_Sequence k')%N;
  cl_same : ck_Sequence k' = ck_Sequence k -> k' = k
}.
Definition head_le (r r' : worldHeadRow) : Prop :=
  (head_generation r < head_generation r')%N
  \/ hd_Binding (wh_Head r') = hd_Binding (wh_Head r) /\ clock_le (hd_Clock (wh_Head r)) (hd_Clock (wh_Head r')).
Definition heads_forward (db db' : DB) : Prop := forall w r, head_row db w = Some r ->
  exists r', head_row db' w = Some r' /\ head_le r r'.

#[export] Instance clock_le_preorder : PreOrder clock_le.
Proof.
  split; [by split|]. intros k1 k2 k3 [] []. split; [congruence|lia|lia|]. intros E.
  assert (ck_Sequence k2 = ck_Sequence k1) as E' by lia. rewrite cl_same1 by lia. auto.
Qed.
#[export] Instance head_le_preorder : PreOrder head_le.
Proof.
  split; [by right|]. intros r1 r2 r3 [H1|[B1 C1] ] [H2|[B2 C2] ]; unfold head_le, head_generation in *.
  - left. lia.
  - left. by rewrite B2.
  - left. by rewrite <- B1.
  - right. split; [congruence|by etrans].
Qed.
#[export] Instance heads_forward_preorder : PreOrder heads_forward.
Proof.
  split; [intros db w r Hr; by exists r|]. intros db1 db2 db3 H12 H23 w r Hr.
  destruct (H12 w r Hr) as (r2 & Hr2 & L2). destruct (H23 w r2 Hr2) as (r3 & Hr3 & L3). exists r3. split; [done|by etrans].
Qed.

Lemma validateMonotonicClock_ok k k' : validateMonotonicClock k k' = Ok tt -> clock_le k k'.
Proof.
  unfold validateMonotonicClock. intros H. okinv H. revert H. boolp. intros H. split; [done|lia|lia|]. intros E.
  destruct (decide (k' = k)) as [|Hne]; [done|]. rewrite bool_decide_false in H by done. cbn [negb andb] in H.
  by apply N.eqb_neq in H.
Qed.

(** ** Writes that leave heads and checkpoints alone *)
Definition meta_same (db db' : DB) : Prop := db_heads db' = db_heads db /\ db_checkpoints db' = db_checkpoints db.
#[export] Instance meta_same_preorder : PreOrder meta_same.
Proof. split; [by intros db|]. intros db1 db2 db3 [] []. split; congruence. Qed.

#[export] Instance ms_updateRow b g s : Respects meta_same (update_row b g s).
Proof.
  intros env st u st' H. unfold update_row in H. minv H.
  apply update_task_one in Hr as (c & _ & _ & (_ & _ & Hdb)%put_task_ok). cbn [tick st_db]. by rewrite Hdb.
Qed.
#[export] Instance ms_insertTask c : Respects meta_same (insert_task c).
Proof. intros env st u st' (_ & _ & _ & ->)%insert_task_ok. done. Qed.
#[export] Instance ms_insert_wake c : Respects meta_same (insert_wake c).
Proof. intros env st u st' (_ & _ & _ & _ & ->)%insert_wake_ok. done. Qed.
#[export] Instance ms_insertWakeTx r w : Respects meta_same (insertWakeTx r w).
Proof. intros env st u st' (_ & _ & _ & ->)%insertWakeTx_ok. done. Qed.
#[export] Instance ms_updateWake d w : Respects meta_same (updateWakeCASTx d w).
Proof. intros env st u st' (_ & _ & _ & _ & c & _ & _ & _ & ->)%updateWakeCASTx_ok. done. Qed.
#[export] Instance ms_checkpointWake d w : Respects meta_same (updateCheckpointWakeTx d w).
Proof.
  intros env st u st' H. unfold updateCheckpointWakeTx in H. minv H.
  match goal with H : update_wake _ _ _ _ _ = _ |- _ => apply update_wake_one in H as (c & _ & _ & (_ & _ & _ & Hdb)%put_wake_ok) end.
  cbn [tick st_db]. by rewrite Hdb.
Qed.
#[export] Instance ms_consume w : Respects meta_same (consume_wake w).
Proof.
  intros env st u st' H. unfold consume_wake in H. minv H.
  apply update_wake_one in Hr as (c & _ & _ & (_ & _ & _ & Hdb)%put_wake_ok). cbn [tick st_db]. by rewrite Hdb.
Qed.
#[export] Instance ms_consume_all h k l : Respects meta_same (consume_all h k l).
Proof. induction l as [|w l IH]; cbn [consume_all]; apply _. Qed.
#[export] Instance ms_consumeWakes h r k : Respects meta_same (consumeWakesTx h r k).
Proof. unfold consumeWakesTx. apply _. Qed.
#[export] Instance ms_claim_each c l ids : Respects meta_same (claim_each c l ids).
Proof. revert ids. induction l as [|d l IH]; intros [|i ids]; cbn [claim_each]; apply _. Qed.
#[export] Instance ms_updateNoRevision b p : Respects meta_same (updateNoRevisionRecordTx b p).
Proof. unfold updateNoRevisionRecordTx, marshal_before. apply _. Qed.
#[export] Instance ms_updateReconcile b p : Respects meta_same (updateReconcileRecordTx b p).
Proof. unfold updateReconcileRecordTx, marshal_before. apply _. Qed.
#[export] Instance ms_updateAttempt b p : Respects meta_same (updateAttemptRecordTx b p).
Proof. unfold updateAttemptRecordTx, marshal_before. apply _. Qed.
#[export] Instance ms_updateBegin b p : Respects meta_same (updateBeginRecordTx b p).
Proof. unfold updateBeginRecordTx, marshal_before. apply _. Qed.
#[export] Instance ms_updateIntent b p : Respects meta_same (updateIntentRecordTx b p).
Proof. unfold updateIntentRecordTx. apply _. Qed.
#[export] Instance ms_restartRecord b p : Respects meta_same (updateRestartRecordTx b p).
Proof. unfold updateRestartRecordTx, marshal_before. apply _. Qed.
#[export] Instance ms_storeHistory b p h : Respects meta_same (storeIntentHistoryTx b p h).
Proof. unfold storeIntentHistoryTx. apply _. Qed.
#[export] Instance ms_admitEvidence h e : Respects meta_same (admitEvidenceTx h e).
Proof. unfold admitEvidenceTx, prepareNoRevisionMutation, prepare_capacity. apply _. Qed.
#[export] Instance ms_admit_facts h l : Respects meta_same (admit_facts h l).
Proof. induction l as [|e l IH]; cbn [admit_facts]; apply _. Qed.
#[export] Instance ms_deleteWakes w : Respects meta_same (delete_world_wakes w).
Proof. intros env st u st' ->%delete_world_wakes_ok. done. Qed.
#[export] Instance ms_deleteTasks w : Respects meta_same (delete_world_tasks w).
Proof. intros env st u st' ->%delete_world_tasks_ok. done. Qed.
#[export] Instance ms_restore_tasks l : Respects meta_same (restore_tasks l).
Proof. induction l as [|t l IH]; cbn [restore_tasks]; unfold insertCheckpointTaskTx; apply _. Qed.
#[export] Instance ms_restore_wakes g m l : Respects meta_same (restore_wakes g m l).
Proof. induction l as [|t l IH]; cbn [restore_wakes]; unfold insertCheckpointWakeTx; apply _. Qed.
#[export] Instance ms_restore w g s : Respects meta_same (restore_working_set w g s).
Proof. unfold restore_working_set. apply _. Qed.
#[export] Instance ms_normalize_tasks now g ws ids l : Respects meta_same (normalize_tasks now g ws ids l).
Proof.
  revert ids. induction l as [|[k t] l IH]; intros ids; cbn [normalize_tasks]; [apply _|].
  unfold prepareReconcileMutation, prepare_capacity.
  destruct (r_State (st_record t)), (executable_of ws k) as [|d [|]]; try apply IH; try apply _;
    (apply respects_bind; [apply _|intros _]; destruct ids; apply _).
Qed.
#[export] Instance ms_normalize h g ids : Respects meta_same (normalizeCheckpointWorkingSetTx h g ids).
Proof. unfold normalizeCheckpointWorkingSetTx. apply _. Qed.
#[export] Instance ms_reset g l : Respects meta_same (reset_deliveries g l).
Proof. induction l as [|d l IH]; cbn [reset_deliveries]; apply _. Qed.
#[export] Instance ms_recover_all l : Respects meta_same (recover_all l).
Proof. induction l as [|p l IH]; cbn [recover_all]; unfold recover_running; apply _. Qed.

Definition heads_same (db db' : DB) : Prop := db_heads db' = db_heads db.
#[export] Instance heads_same_preorder : PreOrder heads_same.
Proof. split; [by intros db|]. intros db1 db2 db3 E1 E2. unfold heads_same in *. congruence. Qed.
#[export] Instance hsame_meta {A} (m : M A) : Respects meta_same m -> Respects heads_same m | 20.
Proof. intros Hm env st a st' H. apply (Hm _ _ _ _ H). Qed.
#[export] Instance hsame_insertCheckpoint row : Respects heads_same (insertCheckpointTx row).
Proof.
  intros env st u st' H. unfold insertCheckpointTx, insert_checkpoint, maxSnapshotBytes in H. minv H.
  match goal with H : exec _ _ _ = _ |- _ => apply exec_ok in H; okinv H; destruct (_ && _); [|done] end.
  simplify_eq. unfold heads_same. cbn [tick st_db]. by repeat match goal with E : _ = st_db _ |- _ => rewrite <- E end.
Qed.

(** ** Steps on the loaded head *)
Section head_step.
Context (w : WorldKey) (r : worldHeadRow).

(** From a state whose head of [w] is [r], the head moves forward and other worlds' stay. *)
Class HeadStep {A} (m : M A) : Prop := head_step : forall env st a st',
  head_row (st_db st) w = Some r -> m env st = (Ok a, st') ->
  (exists r', head_row (st_db st') w = Some r' /\ head_le r r')
  /\ forall v, v <> w -> db_heads (st_db st') !! v = db_heads (st_db st) !! v.

#[export] Instance hs_meta {A} (m : M A) : Respects heads_same m -> HeadStep m | 10.
Proof.
  intros Hm env st a st' Hr H. pose proof (Hm _ _ _ _ H) as E; unfold heads_same in E. split; [|by rewrite E].
  exists r. split; [|done]. unfold head_row in *. by rewrite E.
Qed.
#[export] Instance hs_bind {A B} (m : M A) (f : A -> M B) :
  Respects heads_same m -> (forall a, HeadStep (f a)) -> HeadStep (m ≫= f) | 3.
Proof.
  intros Hm Hf env st b st' Hr H. apply M_bind_ok in H as (a & st1 & H1 & H2).
  pose proof (Hm _ _ _ _ H1) as E; unfold heads_same in E. rewrite <- E. eapply Hf; [|exact H2]. unfold head_row in *. by rewrite E.
Qed.
Lemma hs_post {A B} (m : M A) (f : A -> M B) :
  HeadStep m -> (forall a, Respects heads_same (f a)) -> HeadStep (m ≫= f).
Proof.
  intros Hm Hf env st b st' Hr H. apply M_bind_ok in H as (a & st1 & H1 & H2).
  pose proof (Hf _ _ _ _ _ H2) as E; unfold heads_same in E. unfold head_row. rewrite E. by eapply Hm.
Qed.
Lemma hs_lift {A B} (x : outcome error A) (f : A -> M B) :
  (forall a, x = Ok a -> HeadStep (f a)) -> HeadStep (lift x ≫= f).
Proof.
  intros Hf env st b st' Hr H. apply M_bind_ok in H as (a & st1 & [Ha ->]%lift_ok & H2). by eapply Hf.
Qed.
#[export] Instance hs_if {A} (b : bool) (m n : M A) : HeadStep m -> HeadStep n -> HeadStep (if b then m else n).
Proof. by destruct b. Qed.

Lemma head_written db db' u : bd_World (hd_Binding (wh_Head u)) = w -> worldHeadRow_validate u = Ok tt ->
  db_heads db' = <[w := head_columns u]> (db_heads db) -> head_le r u ->
  (exists r', head_row db' w = Some r' /\ head_le r r')
  /\ forall v, v <> w -> db_heads db' !! v = db_heads db !! v.
Proof.
  intros Hw Hv E Hle. split; [|intros v Hne; by rewrite E, lookup_insert_ne].
  exists u. split; [|done]. apply head_row_some. exists (head_columns u). rewrite E, lookup_insert_eq. split; [done|].
  rewrite <- Hw. by apply head_columns_scan.
Qed.
Lemma hs_cas u : head_le r u -> bd_World (hd_Binding (wh_Head r)) = w -> HeadStep (updateWorldHeadCASTx r u).
Proof.
  intros Hle Hw env st a st' Hr H. apply updateWorldHeadCASTx_ok in H as (Hv & Hwu & E).
  eapply head_written; [by rewrite Hwu|done|by rewrite E, Hw|done].
Qed.
Lemma hs_restart u : head_le r u -> bd_World (hd_Binding (wh_Head r)) = w -> HeadStep (updateWorldRestartHeadTx r u).
Proof.
  intros Hle Hw env st a st' Hr H. apply updateWorldRestartHeadTx_ok in H as (Hv & Hu & c & Hc & E).
  apply head_row_some in Hr as (c' & Hc' & Hs). rewrite Hw in Hc, E. assert (c' = c) as -> by congruence.
  assert (set_restart_columns u c = head_columns u) as Ecol.
  { unfold scanWorldHeadRow in Hs. okinv Hs. boolp. 
    match goal with H : hc_headJSON c = _ /\ _ |- _ => destruct H as [Hst _] end.
    unfold set_restart_columns. rewrite Hu. rewrite Hst. destruct c. reflexivity. }
  pose proof (f_equal (fun x => bd_World (hd_Binding (wh_Head x))) Hu) as Ew. cbn [restart_head wh_Head hd_Binding bd_World] in Ew.
  eapply (head_written _ _ u); [congruence|done|by rewrite E, Ecol|done].
Qed.
End head_step.

#[export] Hint Extern 8 (HeadStep _ _ (match _ with _ => _ end)) => case_match : typeclass_instances.

(** A transaction that loads the head first. *)
Lemma forward_of {A} w r r0 db0 (m : M A) env st a st' : HeadStep w r m ->
  head_row db0 w = Some r0 -> head_le r0 r -> head_row (st_db st) w = Some r ->
  (forall v, v <> w -> db_heads (st_db st) !! v = db_heads db0 !! v) ->
  m env st = (Ok a, st') -> heads_forward db0 (st_db st').
Proof.
  intros Hm H0 Hle Hr Hother H. destruct (Hm _ _ _ _ Hr H) as [(r' & Hr' & Hle') Hv].
  intros v s Hs. destruct (decide (v = w)) as [->|Hne].
  - assert (s = r0) as -> by congruence. exists r'. split; [done|by etrans].
  - exists s. split; [|done]. unfold head_row in *. by rewrite Hv, Hother.
Qed.
Lemma loaded_head w env st r st' : loadWorldHeadForMutationTx w env st = (Ok r, st') ->
  exists r0, head_row (st_db st) w = Some r0 /\ head_le r0 r /\ head_row (st_db st') w = Some r
  /\ (forall v, v <> w -> db_heads (st_db st') !! v = db_heads (st_db st) !! v)
  /\ bd_World (hd_Binding (wh_Head r)) = w.
Proof.
  intros (Hw & Hv & c & r0 & Hc & Hs & Hcase)%loadWorldHeadForMutationTx_ok. exists r0.
  assert (head_row (st_db st) w = Some r0) as H0 by (apply head_row_some; eauto).
  destruct Hcase as [ [-> E]|(-> & _ & E)]; rewrite E; [by split_and!|].
  split_and!; [done|by right|..|done].
  - apply head_row_some. eexists. cbn [with_heads db_heads]. rewrite lookup_insert_eq. split; [done|].
    rewrite <- Hw at 1. by apply head_columns_scan.
  - intros v Hne. cbn [with_heads db_heads]. by rewrite lookup_insert_ne.
Qed.
Lemma loaded_same_head w env st r st' : loadWorldHeadForMutationTx w env st = (Ok r, st') ->
  (exists r0, head_row (st_db st) w = Some r0 /\ wh_Head r = wh_Head r0)
  /\ db_tasks (st_db st') = db_tasks (st_db st) /\ db_wakes (st_db st') = db_wakes (st_db st)
  /\ db_checkpoints (st_db st') = db_checkpoints (st_db st).
Proof.
  intros (_ & _ & c & r0 & Hc & Hs & Hcase)%loadWorldHeadForMutationTx_ok.
  assert (head_row (st_db st) w = Some r0) as H0 by (apply head_row_some; eauto).
  destruct Hcase as [ [-> E]|(-> & _ & E)]; rewrite E; split; [|done| |done]; by exists r0.
Qed.
Lemma forward_load {A} w (f : worldHeadRow -> M A) :
  (forall r, bd_World (hd_Binding (wh_Head r)) = w -> HeadStep w r (f r)) ->
  Respects heads_forward (loadWorldHeadForMutationTx w ≫= f).
Proof.
  intros Hf env st a st' H. apply M_bind_ok in H as (r & st1 & H1 & H2).
  destruct (loaded_head _ _ _ _ _ H1) as (r0 & Hr0 & Hle & Hr & Hother & Hw).
  eapply forward_of; [by apply Hf|exact Hr0|exact Hle|exact Hr|exact Hother|exact H2].
Qed.
Lemma forward_wake_world {A} b (f : worldHeadRow -> M A) :
  (forall r, bd_World (hd_Binding (wh_Head r)) = bd_World b -> HeadStep (bd_World b) r (f r)) ->
  Respects heads_forward (wake_world b ≫= f).
Proof.
  intros Hf env st a st' H. apply M_bind_ok in H as (r & st1 & H1 & H2). unfold wake_world in H1. minv H1.
  match goal with H : loadWorldHeadForMutationTx _ _ _ = _ |- _ =>
    destruct (loaded_head _ _ _ _ _ H) as (s0 & Hs0 & Hle & Hs & Hother & Hw) end.
  eapply forward_of; [by apply Hf|exact Hs0|exact Hle|exact Hs|exact Hother|exact H2].
Qed.
#[export] Instance forward_meta {A} (m : M A) : Respects heads_same m -> Respects heads_forward m | 20.
Proof.
  intros Hm env st a st' H. pose proof (Hm _ _ _ _ H) as E; unfold heads_same in E. intros v s Hs. exists s. split; [|done].
  unfold head_row in *. by rewrite E.
Qed.

(** A world without a head gets one. *)
Section head_new.
Context (w : WorldKey).
Class HeadNew {A} (m : M A) : Prop := head_new : forall env st a st', m env st = (Ok a, st') ->
  forall v, v <> w -> db_heads (st_db st') !! v = db_heads (st_db st) !! v.
#[export] Instance hn_meta {A} (m : M A) : Respects heads_same m -> HeadNew m | 10.
Proof. intros Hm env st a st' H v Hv. pose proof (Hm _ _ _ _ H) as E; unfold heads_same in E. by rewrite E. Qed.
#[export] Instance hn_bind {A B} (m : M A) (f : A -> M B) : HeadNew m -> (forall a, HeadNew (f a)) -> HeadNew (m ≫= f) | 3.
Proof.
  intros Hm Hf env st b st' H v Hv. apply M_bind_ok in H as (a & st1 & H1 & H2).
  rewrite (Hf _ _ _ _ _ H2 v Hv). by eapply Hm.
Qed.
Lemma hn_insert row : bd_World (hd_Binding (wh_Head row)) = w -> HeadNew (insertWorldHeadTx row).
Proof. intros Hw env st a st' [_ E]%insertWorldHeadTx_ok v Hv. rewrite E, Hw. cbn [with_heads db_heads]. by rewrite lookup_insert_ne. Qed.
End head_new.

Lemma forward_new {A} w db0 (m : M A) env st a st' : HeadNew w m -> db_heads db0 !! w = None ->
  db_heads (st_db st) = db_heads db0 -> m env st = (Ok a, st') -> heads_forward db0 (st_db st').
Proof.
  intros Hm H0 E H v s Hs. destruct (decide (v = w)) as [->|Hne].
  - unfold head_row in Hs. by rewrite H0 in Hs.
  - exists s. split; [|done]. unfold head_row in *. by rewrite (Hm _ _ _ _ H v Hne), E.
Qed.
Lemma forward_find {A} w (f : option worldHeadRow -> M A) :
  (forall r, bd_World (hd_Binding (wh_Head r)) = w -> HeadStep w r (f (Some r))) -> HeadNew w (f None) ->
  Respects heads_forward (loadWorldHeadTx w ≫= f).
Proof.
  intros Hf Hn env st a st' H. apply M_bind_ok in H as (o & st1 & H1 & H2).
  apply loadWorldHeadTx_ok in H1 as [E Ho]. destruct o as [r|].
  - destruct Ho as (c & Hc & Hs). destruct (scanWorldHeadRow_ok _ _ _ Hs) as [Hw _].
    assert (head_row (st_db st) w = Some r) as Hr by (apply head_row_some; eauto).
    eapply forward_of; [by apply Hf|exact Hr|done|by rewrite E|by rewrite E|exact H2].
  - eapply forward_new; [exact Hn|exact Ho|by rewrite E|exact H2].
Qed.
Lemma forward_find_mutation {A} w (f : option worldHeadRow -> M A) :
  (forall r, bd_World (hd_Binding (wh_Head r)) = w -> HeadStep w r (f (Some r))) -> HeadNew w (f None) ->
  Respects heads_forward (find_head_for_mutation w ≫= f).
Proof.
  intros Hf Hn env st a st' H. apply M_bind_ok in H as (o & st1 & H1 & H2). unfold find_head_for_mutation in H1.
  apply M_bind_ok in H1 as (o0 & st0 & H0 & H1). destruct o0 as [r0|]; cycle 1.
  { apply ret_ok in H1 as [-> ->]. apply loadWorldHeadTx_ok in H0 as [E Ho].
    eapply forward_new; [exact Hn|exact Ho|by rewrite E|exact H2]. }
  apply M_bind_ok in H1 as (r & st2 & H1 & [-> ->]%ret_ok).
  assert (loadWorldHeadForMutationTx w env st = (Ok r, st2)) as Hload.
  { unfold loadWorldHeadForMutationTx, mbind, M_bind. by rewrite H0. }
  destruct (loaded_head _ _ _ _ _ Hload) as (s0 & Hs0 & Hle & Hs & Hother & Hw).
  eapply forward_of; [by apply Hf|exact Hs0|exact Hle|exact Hs|exact Hother|exact H2].
Qed.

Lemma intact_same db db' : db_tasks db' = db_tasks db -> db_wakes db' = db_wakes db -> intact db -> intact db'.
Proof. intros E1 E2 [Hw Ht]. split; [unfold tasks_wf in *; by rewrite E1|by eapply topology_same]. Qed.

(** ** Calls *)
Ltac fw_tx := always_open; first [apply forward_load|apply forward_wake_world]; intros ? ?; apply _.

Lemma fw_UpdateClock b k : Always heads_forward (UpdateClock b k).
Proof.
  unfold UpdateClock. always_open. apply forward_load. intros r Hw. do 3 (apply hs_bind; [apply _|intros ?]).
  apply hs_lift. intros [] Hk%validateMonotonicClock_ok. apply hs_if; [apply _|].
  apply hs_post; [|apply _]. apply hs_cas; [|done]. by right.
Qed.
Lemma fw_DeactivateWorld b r : Always heads_forward (DeactivateWorld b r).
Proof.
  unfold DeactivateWorld. always_open. apply forward_load. intros h Hw. do 4 (apply hs_bind; [apply _|intros ?]).
  apply hs_if; [apply _|]. apply hs_bind; [apply _|intros ?]. apply hs_cas; [|done]. by right.
Qed.
Lemma fw_FinishCheckpoint b s v : Always heads_forward (FinishCheckpoint b s v).
Proof.
  unfold FinishCheckpoint. always_open. apply forward_load. intros h Hw. do 6 (apply hs_bind; [apply _|intros ?]).
  apply hs_if; [apply _|]. apply hs_bind; [apply _|intros ?]. apply hs_cas; [|done]. by right.
Qed.
Lemma fw_PrepareCheckpoint b k s l : Always heads_forward (PrepareCheckpoint b k s l).
Proof.
  unfold PrepareCheckpoint, countWorldTasks. always_open. apply forward_load. intros h Hw.
  apply hs_bind; [apply _|intros prior]. case_match; [apply _|]. unfold prepare_checkpoint_tx.
  do 4 (apply hs_bind; [apply _|intros ?]). apply hs_lift. intros n [_ ->]%NextDurableCounter_ok.
  apply hs_bind; [apply _|intros _]. apply hs_bind; [apply _|intros [snapshot text] ].
  do 6 (apply hs_bind; [unfold maxSnapshotBytes; apply _|intros ?]).
  apply hs_post; [|apply _]. apply hs_cas; [|done]. left. unfold head_generation. cbn. lia.
Qed.

Lemma fw_activateCheckpoint w r k ref : Always heads_forward (activateCheckpoint w r k ref).
Proof.
  unfold activateCheckpoint. apply always_tx. unfold activate_checkpoint_tx.
  do 6 (apply respects_bind; [apply _|intros ?]). apply forward_find.
  - intros h Hw. do 1 (apply hs_bind; [apply _|intros ?]). apply hs_lift. intros n [_ ->]%NextDurableCounter_ok.
    do 2 (apply hs_bind; [apply _|intros ?]). apply hs_post; [|apply _]. apply hs_cas; [|done]. left.
    match goal with |- context [base_generation ?s ?o] => destruct (base_generation_bound s o) as [_ Hb]; specialize (Hb h eq_refl) end.
    unfold head_generation. cbn [fresh_head_row wh_Head activated_head hd_Binding bd_Generation]. lia.
  - do 4 (apply hn_bind; [apply _|intros ?]). apply hn_bind; [|intros ?; apply _].
    apply hn_bind; [by apply hn_insert|intros ?; apply _].
Qed.
Lemma fw_pause w r k e : Always heads_forward (pause_and_fail w r k e).
Proof.
  unfold pause_and_fail, pauseWorldForCheckpointFailure. apply always_bind; [|intros _; apply _].
  case_match; [|apply _]. apply always_tx, forward_find.
  - intros h Hw. apply hs_if; [apply _|]. apply hs_if; [apply _|]. apply hs_cas; [|done]. by right.
  - do 2 (apply hn_bind; [apply _|intros ?]). apply hn_bind; [by apply hn_insert|intros ?; apply _].
Qed.
Lemma fw_applyRestart w h plan ids k c : bd_World (hd_Binding (wh_Head h)) = w ->
  HeadStep w h (applyRestartRecoveryTx h plan ids k c).
Proof.
  intros Hw. unfold applyRestartRecoveryTx. do 3 (apply hs_bind; [apply _|intros ?]).
  apply hs_lift. intros n [_ ->]%NextDurableCounter_ok. do 3 (apply hs_bind; [apply _|intros ?]).
  apply hs_post; [|apply _]. apply hs_restart; [|done]. left. unfold head_generation. cbn. lia.
Qed.
Lemma fw_activateRun w r k : Always heads_forward (activate_run w r k).
Proof.
  unfold activate_run. apply always_bind.
  - apply always_tx. unfold activate_first_tx. apply forward_find_mutation.
    + intros h Hw. apply _.
    + unfold worldHasDurableStateTx. do 3 (apply hn_bind; [apply _|intros ?]).
      apply hn_bind; [by apply hn_insert|intros ?; apply _].
  - intros [h [ [from n]|] ]; [|apply _]. apply always_bind; [apply _|intros ids]. apply always_tx.
    unfold activate_recovery_tx. apply forward_load. intros h' Hw. apply hs_bind; [apply _|intros c].
    apply hs_if; [apply _|]. do 5 (apply hs_bind; [apply _|intros ?]). by apply fw_applyRestart.
Qed.
Lemma fw_activatePaused w r k : Always heads_forward (activatePausedWorkingHead w r k).
Proof.
  unfold activatePausedWorkingHead, countWorldTasks, activate_paused_tx. always_open. apply forward_load. intros h Hw.
  do 5 (apply hs_bind; [apply _|intros ?]). apply hs_lift. intros n [_ ->]%NextDurableCounter_ok.
  do 2 (apply hs_bind; [apply _|intros ?]). apply hs_post; [|apply _]. apply hs_cas; [|done].
  left. unfold head_generation. cbn. lia.
Qed.
Lemma fw_ActivateWorld w r k ref : Always heads_forward (ActivateWorld w r k ref).
Proof.
  apply (ActivateWorld_cases _ _ _ _ (@Always heads_forward)); intros; try apply _.
  - by apply always_lift.
  - apply fw_pause.
  - apply fw_activatePaused.
  - apply fw_activateRun.
  - unfold restore_or_pause. apply always_bind; [apply always_attempt, fw_activateCheckpoint|].
    intros [h|e]; [apply _|]. apply fw_pause.
Qed.

Lemma fw_perform c : Always heads_forward (perform c).
Proof.
  destruct c; cbn [perform];
  lazymatch goal with
  | |- context [UpdateClock] => apply always_discard, fw_UpdateClock
  | |- context [DeactivateWorld] => apply fw_DeactivateWorld
  | |- context [ActivateWorld] => apply always_discard, fw_ActivateWorld
  | |- context [PrepareCheckpoint] => apply always_discard, fw_PrepareCheckpoint
  | |- context [FinishCheckpoint] => apply fw_FinishCheckpoint
  | _ => idtac
  end.
  - always_calls.
  - unfold ReadCheckpointBarrier. fw_tx.
  - unfold Create, create_tx. fw_tx.
  - always_calls.
  - always_calls.
  - always_calls.
  - always_calls.
  - unfold ApplyIntent, apply_intent_tx, loadExactIntentTx. fw_tx.
  - unfold AdmitEvidence. fw_tx.
  - unfold RegisterOperation, prepareNoRevisionMutation, prepare_capacity. fw_tx.
  - unfold MarkOperationNotSent, prepareNoRevisionMutation, prepare_capacity. always_calls.
  - unfold RecordCleanup, prepareCleanupMutation, prepare_capacity. fw_tx.
  - unfold Reconcile, reconcile_tx. fw_tx.
  - apply always_discard. unfold FinishAttempt, finish_attempt_tx, prepareReconcileMutation, prepare_capacity.
    do 2 (apply always_bind; [apply _|intros _]). apply always_bind; [fw_tx|intros ?; apply _].
  - unfold ClaimDue. fw_tx.
  - unfold MarkEnqueued. fw_tx.
  - unfold ReleaseClaim. fw_tx.
  - apply always_discard. unfold BeginWake, prepareBeginMutation, prepare_capacity.
    do 2 (apply always_bind; [apply _|intros _]). apply always_bind; [fw_tx|intros [? ?]; apply _].
  - always_calls.
Qed.

(** Every call, restores included. *)
Lemma steps_keep (R : relation DB) `{!PreOrder R} db db' :
  (forall c, Always R (perform c)) -> rtc step db db' -> R db db'.
Proof.
  intros Hp H. induction H as [db|db db1 db' [c env n o st' db2 Hr] _ IH]; [done|].
  etrans; [exact (Hp c env (mkSt db2 n) o st' Hr)|exact IH].
Qed.
Lemma steps_heads db db' : rtc step db db' -> heads_forward db db'.
Proof. apply steps_keep; [apply _|apply fw_perform]. Qed.
