(* ===== verification/Saving.v ===== *)
(** * Saving a world and restoring it

    What [PrepareCheckpoint] stores is the working set of the world as the same
    transaction leaves it, up to the order of a record's lists; the working set it
    leaves is fenced under the next generation; and a restore of the checkpoint, at any
    later time, brings exactly that working set back. *)

From S2P Require Export HeadLife.

Local Open Scope go_scope.

#[local] Opaque Record_Validate sha256Hex marshalRecord marshalTaskSpec marshalCreateResult
  marshalHistory cloneRecord modelProgressJSON validateTaskMutationCapacity Wake_Validate.

(** ** Records up to the order of their lists *)
Record reordered (r r' : TaskRecord) : Prop := {
  ro_same_identity : same_identity r r';
  ro_same_scalars : (r_State r', r_Revision r', r_NextWakeAt r', r_PauseReason r', r_NeedsReconcile r', r_Progress r',
                     r_NoProgressAttempts r', r_ReconcileAttempts r')
                    = (r_State r, r_Revision r, r_NextWakeAt r, r_PauseReason r, r_NeedsReconcile r, r_Progress r,
                       r_NoProgressAttempts r, r_ReconcileAttempts r);
  ro_operations : r_Operations r' ≡ₚ r_Operations r;
  ro_evidence : r_Evidence r' ≡ₚ r_Evidence r;
  ro_cleanup : r_Cleanup r' ≡ₚ r_Cleanup r;
  ro_result : match r_Result r, r_Result r' with
              | Some x, Some y => (rs_ID y, rs_TaskID y, rs_Revision y, rs_State y, rs_Reason y, rs_OccurredAt y, rs_Source y)
                  = (rs_ID x, rs_TaskID x, rs_Revision x, rs_State x, rs_Reason x, rs_OccurredAt x, rs_Source x)
                  /\ option_Forall2 (≡ₚ) (rs_EvidenceRefs y) (rs_EvidenceRefs x)
              | None, None => True
              | _, _ => False
              end
}.
Lemma normalizeCheckpointRecord_ok r r' : canonical r -> normalizeCheckpointRecord r = Ok r' ->
  reordered r r' /\ canonical r'.
Proof.
  intros Hc H. unfold normalizeCheckpointRecord in H. okinv H. apply (canonical_clone _ _ Hc) in Hv as ->. clear Hv0. split.
  - split; simpl; try apply sort_slice_perm; try done. destruct (r_Result r) as [x|]; [|done]. simpl. split; [done|].
    destruct (rs_EvidenceRefs x); constructor. apply sort_slice_perm.
  - destruct Hc. split; simpl; rewrite ?sort_slice_perm; try done. intros y Hy. destruct (r_Result r) as [x|]; [|done].
    simpl in Hy. simplify_eq. specialize (cn_result x eq_refl). unfold cloneResultJSON in *. simpl in *.
    destruct (cloneSourceRef (rs_Source x)) as [src|]; [|done]. simpl in *. destruct x. simpl in *. by simplify_eq.
Qed.

(** ** What a snapshot of a world holds *)

(** A stored row and its entry in the snapshot. *)
Record captured (c : taskRowColumns) (t : checkpointTaskSnapshot) : Prop := {
  cp_record : reordered (co_recordJSON c) (ts_Record t);
  cp_canonical : canonical (ts_Record t);
  cp_create : (ts_CreateFingerprint t, ts_CreateResponseHash t, ts_IntentHistoryHash t)
    = (co_createFingerprint c, co_createResponseHash c, co_intentHistoryHash c);
  cp_history : ts_IntentHistoryJSON t = co_intentHistoryJSON c;
  cp_calls : Forall canonical_call (ts_IntentHistoryJSON t)
}.
Lemma snapshot_task_ok k c t : row_wf k c -> snapshot_task c = Ok t -> captured c t /\ row_key (ts_Record t) = k.
Proof.
  intros [Hk Hc Hh _] H. unfold snapshot_task in H. okinv H.
  pose proof (decode_canonical _ _ Hc Hh Hv) as [E _ _ _ _ _ _ _]. pose proof (decode_owner _ _ Hv) as [D1 D2].
  rewrite E in Hv0, D1, D2. apply normalizeCheckpointRecord_ok in Hv0 as [Hr Hcan]; [|done]. split; [by split|].
  destruct Hr as [ [I1 I2 _ _ _] _ _ _ _ _]. unfold row_key. cbn [ts_Record]. by rewrite I1, I2, D1, D2.
Qed.
Lemma snapshot_tasks_ok rows l : (forall c, c ∈ rows -> exists k, row_wf k c) -> snapshot_tasks rows = Ok l ->
  Forall2 (fun c t => captured c t /\ row_key (ts_Record t) = task_key c) rows l.
Proof.
  revert l. induction rows as [|c rows IH]; intros l Hw H; cbn [snapshot_tasks] in H; okinv H; constructor.
  - destruct (Hw c ltac:(by left)) as (k & Hk). pose proof (rw_key _ _ Hk) as ->.
    by eapply snapshot_task_ok.
  - apply IH; [|done]. intros x Hx. apply Hw. by right.
Qed.

(** The entry of a wake row in the snapshot. *)
Definition wake_snapshot (c : wakeRow) : checkpointWakeSnapshot :=
  {| ws_ClockID := wr_clockID c; ws_Wake := wr_indexed c |}.
(** A snapshot that is the working set of its world. *)
Record snapshot_of (w : WorldKey) (s : checkpointSnapshot) (db : DB) : Prop := {
  so_task : forall k c, db_tasks db !! k = Some c -> in_world w k.1 = true ->
    exists t, t ∈ sn_Tasks s /\ captured c t /\ row_key (ts_Record t) = k;
  so_only : forall t, t ∈ sn_Tasks s -> exists c, db_tasks db !! row_key (ts_Record t) = Some c /\ captured c t;
  so_wake : forall id c, db_wakes db !! id = Some c -> in_world w (w_Owner (wr_indexed c)) = true ->
    wake_snapshot c ∈ sn_Wakes s;
  so_only_wake : forall k, k ∈ sn_Wakes s ->
    db_wakes db !! w_ID (ws_Wake k) = Some (wake_row (ws_ClockID k) (ws_Wake k))
}.

Lemma snapshot_tasks_elem rows l : (forall c, c ∈ rows -> exists k, row_wf k c) -> snapshot_tasks rows = Ok l ->
  (forall c, c ∈ rows -> exists t, t ∈ l /\ captured c t /\ row_key (ts_Record t) = task_key c)
  /\ (forall t, t ∈ l -> exists c, c ∈ rows /\ captured c t /\ row_key (ts_Record t) = task_key c).
Proof.
  intros Hw H%snapshot_tasks_ok; [|done]. clear Hw. induction H as [|c t rows l [H1 H2] _ [IH1 IH2] ].
  { split; by intros ? ?%elem_of_nil. }
  split; intros x [->|Hx]%elem_of_cons.
  - exists t. split_and!; [by left|done..].
  - destruct (IH1 x Hx) as (y & Hy & ?). exists y. split; [by right|done].
  - exists c. split_and!; [by left|done..].
  - destruct (IH2 x Hx) as (y & Hy & ?). exists y. split; [by right|done].
Qed.

Lemma durable_wakes_ok head g env st l st' :
  loadWorldDurableWakesTx head g env st = (Ok l, st') ->
  (fun d => {| ws_ClockID := dw_clock d; ws_Wake := dw_wake d |}) <$> l
  = wake_snapshot <$> world_wakes (head_world head) (st_db st).
Proof.
  intros H. unfold loadWorldDurableWakesTx in H. minv H. unfold head_world.
  match goal with H : scan_wake_rows _ = Ok ?s |- _ => destruct (scan_wake_rows_ok _ _ H) as [<- S2]; rename s into scanned end.
  revert l H. clear - S2. revert S2. cbn [tick st_db]. induction scanned as [|[c w] scanned IH]; intros S2 l H; cbn [graph_wakes] in H; okinv H; [done|].
  rewrite !fmap_cons. cbn [fst]. f_equal.
  - unfold graph_wake in Hv. okinv Hv. destruct (scanAdmissionWakeRow_ok c w) as [-> _]; [by apply S2; left|done].
  - apply IH; [|done]. intros c' w' Hin. apply S2. by right.
Qed.

Lemma captureCheckpointSnapshotTx_ok head q env st s raw st' :
  intact (st_db st) -> captureCheckpointSnapshotTx head q env st = (Ok (s, raw), st') ->
  snapshot_of (bd_World (hd_Binding head)) s (st_db st) /\ checkpointSnapshot_validate s = Ok tt
  /\ sn_PreparedHead s = head /\ sn_World s = bd_World (hd_Binding head).
Proof.
  intros [Hwf [Htop _] ] H. unfold captureCheckpointSnapshotTx in H. minv H. simplify_eq.
  match goal with H : checkpointSnapshot_validate _ = Ok ?u |- _ => destruct u; split; [|done] end.
  match goal with H : snapshot_tasks _ = Ok _ |- _ => apply snapshot_tasks_elem in H as [T1 T2] end; cycle 1.
  { intros c (_ & k & Hk)%rows_where_elem. exists k. by apply Hwf. }
  match goal with H : graph_or _ _ _ _ = _ |- _ => apply graph_or_ok in H as [E1 _] end.
  match goal with H : loadWorldDurableWakesTx _ _ _ _ = (Ok ?l, _) |- _ => apply durable_wakes_ok in H as Hws; rename l into ws end.
  cbn [tick st_db] in E1. rewrite E1 in Hws. unfold head_world in Hws. cbn [wh_Head] in Hws. split; cbn [sn_Tasks sn_Wakes].
  - intros k c Hk Hw. destruct (T1 c) as (t & Ht & Hc & E); [|exists t; split_and!; [done..|by rewrite E; apply Hwf] ].
    unfold world_rows. apply rows_where_elem. split; [|by exists k]. pose proof (rw_key _ _ (Hwf _ _ Hk)) as <-. exact Hw.
  - intros t Ht. destruct (T2 t Ht) as (c & (_ & k & Hk)%rows_where_elem & Hc & E). exists c.
    rewrite E. by rewrite (rw_key _ _ (Hwf _ _ Hk)).
  - intros id c Hc Hw. assert (c ∈ world_wakes (bd_World (hd_Binding head)) (st_db st)) as Hin.
    { unfold world_wakes. apply wakes_where_elem. eauto. }
    rewrite Hws. by apply list_elem_of_fmap_2.
  - intros k. rewrite Hws. intros (c & -> & Hc)%list_elem_of_fmap. unfold world_wakes in Hc.
    apply wakes_where_elem in Hc as [_ (id & Hid)]. destruct (wk_row _ Htop id c Hid) as (E & Ej & _).
    cbn [wake_snapshot ws_Wake ws_ClockID]. rewrite E, Hid. destruct c as [w ck j]. cbn in *. by subst.
Qed.

(** ** Decoding the stored snapshot *)
Lemma cloneTaskSnapshot_captured c t t' : captured c t -> cloneTaskSnapshot t = Some t' ->
  captured c t' /\ ts_Record t' = ts_Record t.
Proof.
  intros [Hr Hc Hcr Hh Hl] H. unfold cloneTaskSnapshot in H. opt_inv H. cbn [ts_Record].
  match goal with H : cloneRecord _ = Some _ |- _ => apply (canonical_clone _ _ Hc) in H as -> end.
  match goal with H : mapM_opt cloneIntentCall _ = Some _ |- _ => rewrite (proj2 (mapM_opt_fixed _ _) Hl) in H; injection H as <- end.
  done.
Qed.
Lemma mapM_opt_elem {A B} (f : A -> option B) l l' : mapM_opt f l = Some l' ->
  (forall x, x ∈ l -> exists y, y ∈ l' /\ f x = Some y) /\ (forall y, y ∈ l' -> exists x, x ∈ l /\ f x = Some y).
Proof.
  revert l'. induction l as [|x l IH]; intros l' H; cbn [mapM_opt] in H; opt_inv H; [split; by intros ? ?%elem_of_nil|].
  destruct (IH _ Hx0) as [H1 H2]. split; intros z [->|Hz]%elem_of_cons.
  - eexists. split; [by left|done].
  - destruct (H1 z Hz) as (y & Hy & ?). exists y. split; [by right|done].
  - eexists. split; [by left|done].
  - destruct (H2 z Hz) as (y & Hy & ?). exists y. split; [by right|done].
Qed.
Lemma cloneWakeSnapshot_ok k k' : cloneWakeSnapshot k = Some k' -> k' = k.
Proof. unfold cloneWakeSnapshot, cloneWake. intros H. opt_inv H. case_match; simplify_eq. by destruct k. Qed.

Lemma cloneSnapshot_of w s s' db : snapshot_of w s db -> cloneSnapshot s = Some s' ->
  snapshot_of w s' db.
Proof.
  intros [H1 H2 H3 H4] H. unfold cloneSnapshot in H. opt_inv H.
  match goal with H : mapM_opt cloneTaskSnapshot _ = _ |- _ => apply mapM_opt_elem in H as [T1 T2] end.
  match goal with H : mapM_opt cloneWakeSnapshot _ = _ |- _ => apply mapM_opt_elem in H as [W1 W2] end.
  split; cbn [sn_Tasks sn_Wakes].
  - intros k c Hk Hw. destruct (H1 k c Hk Hw) as (t & Ht & Hc & E). destruct (T1 t Ht) as (t' & Ht' & Hcl).
    destruct (cloneTaskSnapshot_captured _ _ _ Hc Hcl) as [Hc' E']. exists t'. by rewrite E'.
  - intros t' Ht'. destruct (T2 t' Ht') as (t & Ht & Hcl). destruct (H2 t Ht) as (c & Hk & Hc).
    destruct (cloneTaskSnapshot_captured _ _ _ Hc Hcl) as [Hc' ->]. by exists c.
  - intros id c Hc Hw. destruct (W1 _ (H3 id c Hc Hw)) as (k & Hk & ->%cloneWakeSnapshot_ok). done.
  - intros k Hk. destruct (W2 k Hk) as (k0 & Hk0 & ->%cloneWakeSnapshot_ok). by apply H4.
Qed.

(** ** A fresh save *)

(** No checkpoint of this save request exists: the call is not a retry. *)
Definition no_save (w : WorldKey) (saveRequestID : string) (db : DB) : Prop :=
  forall id row, db_checkpoints db !! id = Some row -> cp_World row = w -> cp_SaveRequestID row <> saveRequestID.

Record saved (w : WorldKey) (saveRequestID : string) (p : Prepared) (db db' : DB) : Prop := {
  sv_request : pp_SaveRequestID p = saveRequestID;
  sv_row : exists row, db_checkpoints db !! rf_ID (pp_Reference p) = None
    /\ db_checkpoints db' = <[rf_ID (pp_Reference p) := row]> (db_checkpoints db)
    /\ cp_ID row = rf_ID (pp_Reference p) /\ cp_World row = w /\ cp_SaveRequestID row = saveRequestID
    /\ cp_Checksum row = rf_Checksum (pp_Reference p)
    /\ snapshot_of w (cp_Snapshot row) db' /\ snapshot_sound (cp_Snapshot row)
    /\ sn_World (cp_Snapshot row) = w /\ sn_PreparedHead (cp_Snapshot row) = pp_Head p;
  sv_head : exists r r', head_row db w = Some r /\ head_row db' w = Some r'
    /\ wh_Head r' = pp_Head p /\ head_generation r' = (head_generation r + 1)%N
    /\ bd_RunID (hd_Binding (wh_Head r')) = bd_RunID (hd_Binding (wh_Head r))
    /\ wh_SaveRequestID r' = saveRequestID /\ wh_BarrierStatus r' = checkpointBarrierPrepared
}.

Lemma find_none_save w s db : no_save w s db ->
  checkpoint_where (fun c => (cp_World c == w) && (cp_SaveRequestID c == s)) db = None.
Proof.
  intros Hn. unfold checkpoint_where. destruct (find _ _) as [row|] eqn:E; [|done].
  apply find_some in E as [Hin Hp]. apply list_elem_of_In, list_elem_of_fmap in Hin as ([id row'] & -> & Hin).
  apply elem_of_map_to_list in Hin. boolp. destruct Hp as [Hw Hs]. by destruct (Hn id row' Hin Hw).
Qed.
Lemma insertCheckpointTx_ok row env st u st' : insertCheckpointTx row env st = (Ok u, st') ->
  db_checkpoints (st_db st) !! cp_ID row = None
  /\ st_db st' = mkDB (db_heads (st_db st)) (db_tasks (st_db st)) (db_wakes (st_db st))
                   (<[cp_ID row := row]> (db_checkpoints (st_db st))).
Proof.
  intros H. unfold insertCheckpointTx, insert_checkpoint, maxSnapshotBytes in H. minv H.
  match goal with H : exec _ _ _ = _ |- _ => apply exec_ok in H; okinv H; destruct (_ && _); [|done] end.
  simplify_eq. cbn [tick st_db]. boolp. repeat match goal with E : _ = st_db _ |- _ => rewrite <- E end.
  split; [|done]. apply eq_None_not_Some.
  repeat match goal with E : _ = st_db _ |- _ => rewrite E end. done.
Qed.

Lemma snapshot_of_same w s db db' : db_tasks db' = db_tasks db -> db_wakes db' = db_wakes db ->
  snapshot_of w s db -> snapshot_of w s db'.
Proof. intros E1 E2 []. split; rewrite ?E1, ?E2; done. Qed.
Lemma snapshot_of_canonical w s db : snapshot_of w s db -> Forall canonical_task (sn_Tasks s).
Proof. intros [_ H _ _]. apply Forall_forall. intros t Ht. destruct (H t Ht) as (c & _ & []). by split. Qed.

Lemma prepare_checkpoint_tx_saved current b k sid q i ids env st p st' :
  intact (st_db st) -> Forall (fun e => cloneEvidence e = Some e) (pq_Evidence q) ->
  head_row (st_db st) (bd_World b) = Some current ->
  prepare_checkpoint_tx current b k sid q i ids env st = (Ok p, st') ->
  saved (bd_World b) sid p (st_db st) (st_db st').
Proof.
  intros Hi Hq Hcur H. unfold prepare_checkpoint_tx, maxSnapshotBytes in H. minv H.
  match goal with H : validateWakeWorldAuthority _ _ _ = _ |- _ => unfold validateWakeWorldAuthority in H; okinv H end.
  assert (hd_Binding (wh_Head current) = b) as Hb by (by boolp).
  match goal with H : NextDurableCounter _ = _ |- _ => apply NextDurableCounter_ok in H as [_ ->] end.
  match goal with A : admit_facts _ _ _ _ = _, N : normalizeCheckpointWorkingSetTx _ _ _ _ _ = _ |- _ =>
    assert (meta_same (st_db st) (st_db st1)) as [Mh Mc] by (etrans; [exact (ms_admit_facts _ _ _ _ _ _ A)|exact (ms_normalize _ _ _ _ _ _ _ N)]);
    apply (admit_facts_sound _ _ Hq _ _ _ _ Hi), sound_intact in A;
    apply (normalizeCheckpointWorkingSetTx_sound _ _ _ _ _ _ _ A), sound_intact in N as Hi1; clear A N end.
  match goal with H : captureCheckpointSnapshotTx _ _ _ _ = _ |- _ =>
    pose proof (read_only _ _ _ _ H) as E2; apply captureCheckpointSnapshotTx_ok in H as (Hof & Hval & Hhd & Hw); [|exact Hi1] end.
  match goal with H : insertCheckpointTx _ _ _ = _ |- _ => apply insertCheckpointTx_ok in H as [Hnew E3] end.
  match goal with H : updateWorldHeadCASTx _ _ _ _ = _ |- _ => apply updateWorldHeadCASTx_ok in H as (Hv & _ & E4) end.
  cbn [tick st_db cp_ID] in *. rewrite E2 in *. cbn [prepared_head hd_Binding bd_World] in Hof, Hw. rewrite Hb in *.
  unfold preparedFromCheckpoint. split; cbn [pp_SaveRequestID pp_Reference rf_ID rf_Checksum pp_Head]; [done|..].
  - eexists. rewrite E4. cbn [with_heads db_checkpoints]. rewrite E3. cbn [db_checkpoints]. try rewrite <- Mc.
    split_and!; try done.
    + eapply snapshot_of_same; [..|exact Hof]; done.
    + apply checkpointSnapshot_validate_sound; [by eapply snapshot_of_canonical|done].
  - rewrite Hhd. eexists _, _. split; [exact Hcur|]. split.
    + apply head_row_some. eexists. rewrite E4. cbn [with_heads db_heads]. rewrite lookup_insert_eq. split; [done|].
      apply head_columns_scan in Hv. cbn [with_barrier with_head wh_Head prepared_head hd_Binding bd_World] in Hv.
      rewrite Hb in Hv. exact Hv.
    + cbn. unfold head_generation. cbn. by rewrite Hb.
Qed.


(** A fresh save request: the transaction starts with the head of the world loaded. *)
Lemma fresh_prepare current b k sid q i ids w0 env st p st' :
  w0 = bd_World b -> no_save w0 sid (st_db st) ->
  intact (st_db st) -> Forall (fun e => cloneEvidence e = Some e) (pq_Evidence q) ->
  head_row (st_db st) w0 = Some current ->
  (prior ← loadCheckpointBySaveRequestTx w0 sid;
   match prior with
   | Some row => lift (prepareCheckpointRetry current row q)
   | None => prepare_checkpoint_tx current b k sid q i ids
   end) env st = (Ok p, st') ->
  saved w0 sid p (st_db st) (st_db st').
Proof.
  intros -> Hno Hi Hq Hcur H. apply M_bind_ok in H as (prior & st1 & H1 & H2).
  pose proof (read_only _ _ _ _ H1) as E. unfold loadCheckpointBySaveRequestTx in H1. minv H1.
  rewrite find_none_save in H1 by done. injection H1 as <-. by apply prepare_checkpoint_tx_saved in H2.
Qed.
Lemma saved_from w sid p db0 db db' r0 r :
  head_row db0 w = Some r0 -> head_row db w = Some r -> wh_Head r = wh_Head r0 ->
  db_checkpoints db = db_checkpoints db0 -> saved w sid p db db' -> saved w sid p db0 db'.
Proof.
  intros H0 H Eh Ec [Hs Hrow (s & r' & Hs' & Hr' & Hp & Hg & Hrun & Hx)]. rewrite H in Hs'. injection Hs' as <-.
  split; [done|by rewrite <- Ec|]. exists r0, r'. split_and!; try done; try tauto; unfold head_generation in *; congruence.
Qed.
Lemma PrepareCheckpoint_saved b k sid ev env st p st' :
  intact (st_db st) -> no_save (bd_World b) sid (st_db st) ->
  PrepareCheckpoint b k sid ev env st = (Ok p, st') -> saved (bd_World b) sid p (st_db st) (st_db st').
Proof.
  intros Hi Hno H. unfold PrepareCheckpoint, countWorldTasks in H. minv H.
  match goal with H : prepareCheckpointRequest _ _ _ _ = _ |- _ => apply prepareCheckpointRequest_cloned in H as Hq end.
  repeat match goal with H : ?m _ _ = (Ok _, _) |- _ => lazymatch m with withImmediateTransaction _ => fail | _ => apply read_only in H end end.
  cbn [tick st_db] in *. apply tx_ok in H as (st2 & st3 & E2 & H & ->).
  assert (st_db st2 = st_db st) as E by congruence. rewrite <- E in Hi, Hno |- *. clear - Hi Hno Hq H.
  apply M_bind_ok in H as (current & st1 & H1 & H2).
  destruct (loaded_head _ _ _ _ _ H1) as (r0 & Hr0 & _ & Hcur & _ & _).
  apply loaded_same_head in H1 as ((r & Hr & Eh) & Et & Ew & Ec). assert (r = r0) as -> by congruence.
  apply fresh_prepare in H2; [by eapply saved_from|done| |by eapply intact_same|done..].
  unfold no_save. by rewrite Ec.
Qed.

(** What a save leaves: no task of the world running, every wake that can still run
    pending under the new generation. *)
Record fenced (w : WorldKey) (generation : N) (db : DB) : Prop := {
  fe_tasks : forall k c, db_tasks db !! k = Some c -> in_world w k.1 = true ->
    r_State (co_recordJSON c) <> StateRunning;
  fe_wakes : forall id c, db_wakes db !! id = Some c -> in_world w (w_Owner (wr_indexed c)) = true ->
    executableStatus (w_Status (wr_indexed c)) = true ->
    w_Status (wr_indexed c) = wakeStatusPending /\ w_Generation (wr_indexed c) = generation
}.
Lemma captured_state c t : captured c t -> r_State (ts_Record t) = r_State (co_recordJSON c).
Proof. intros [ [_ E _ _ _ _] _ _ _ _]. by injection E. Qed.
Lemma saved_fenced w sid p db db' : saved w sid p db db' ->
  fenced w (bd_Generation (hd_Binding (pp_Head p))) db'.
Proof.
  intros [_ (row & _ & _ & _ & _ & _ & _ & Hof & Hs & _ & Hh) _]. split.
  - intros k c Hc Hw. destruct (so_task _ _ _ Hof k c Hc Hw) as (t & Ht & Hcap & _).
    rewrite <- (captured_state _ _ Hcap). by apply (ss_running _ Hs).
  - intros id c Hc Hw He. pose proof (so_wake _ _ _ Hof id c Hc Hw) as Hk.
    destruct (ss_wakes _ Hs _ Hk) as [_ [ [H1 H2]|H1] ]; cbn [wake_snapshot ws_Wake] in *.
    + by rewrite <- Hh.
    + by rewrite H1 in He.
Qed.

(** ** The checkpoint stays *)
Definition checkpoints_kept (db db' : DB) : Prop :=
  forall id row, db_checkpoints db !! id = Some row -> db_checkpoints db' !! id = Some row.
#[export] Instance checkpoints_kept_preorder : PreOrder checkpoints_kept.
Proof. split; [by intros db id row|]. intros db1 db2 db3 H1 H2 id row H. by apply H2, H1. Qed.
Lemma steps_checkpoints db db' : reachable db -> rtc step db db' -> checkpoints_kept db db'.
Proof.
  intros Hr%reachable_keyed H.
  apply (steps_keep (guarded store_keyed checkpoints_kept) db db') in H; [by apply H|].
  intros c env st o st' Hp Hk. destruct (cf_perform c env st o st' Hp Hk) as [Hk' Hc]. split; [done|].
  intros id row Hrow. destruct (cf_checkpoints _ _ _ Hc id) as [->|[E _] ]; congruence.
Qed.

(** ** The round trip *)

(** [db'] has the working set [db] had for [w], up to the order of a record's lists,
    its wakes moved to [generation]. *)
Record working_set_restored (w : WorldKey) (generation : N) (db db' : DB) : Prop := {
  wr_task : forall k c, db_tasks db !! k = Some c -> in_world w k.1 = true ->
    exists c', db_tasks db' !! k = Some c' /\ reordered (co_recordJSON c) (co_recordJSON c')
    /\ co_intentHistoryJSON c' = co_intentHistoryJSON c /\ co_createFingerprint c' = co_createFingerprint c
    /\ co_createResponseHash c' = co_createResponseHash c;
  wr_only_task : forall k c', db_tasks db' !! k = Some c' -> in_world w k.1 = true -> is_Some (db_tasks db !! k);
  wr_wake : forall id c, db_wakes db !! id = Some c -> in_world w (w_Owner (wr_indexed c)) = true ->
    db_wakes db' !! id = Some (wake_row (wr_clockID c) (restored_wake generation (wr_indexed c)));
  wr_only_wake : forall id c', db_wakes db' !! id = Some c' -> in_world w (w_Owner (wr_indexed c')) = true ->
    is_Some (db_wakes db !! id)
}.

Lemma list_to_map_in {V} `{Countable K} (l : list (K * V)) k : k ∈ l.*1 -> is_Some (list_to_map (M := gmap K V) l !! k).
Proof. intros Hin. apply not_eq_None_Some. rewrite <- not_elem_of_list_to_map. tauto. Qed.

Section round_trip.
Context (w : WorldKey) (g : N) (s : checkpointSnapshot) (db db2 db3 : DB).
Context (Hof : snapshot_of w s db) (Hs : snapshot_sound s) (Hw : sn_World s = w).
Context (Hi : intact db2) (Hres : restored_from w g s db2 db3).

Lemma restored_task_of k c : db_tasks db !! k = Some c -> in_world w k.1 = true ->
  exists t, captured c t /\ db_tasks db3 !! k = Some (checkpointTaskColumns t).
Proof using Hof Hs Hw Hi Hres.
  intros Hc Hk. destruct (so_task _ _ _ Hof k c Hc Hk) as (t & Ht & _ & E).
  destruct (list_to_map_in (task_entry <$> sn_Tasks s) k) as [x Hx].
  { rewrite <- E. apply list_elem_of_fmap. exists (task_entry t). split; [done|by apply list_elem_of_fmap_2]. }
  destruct (snapshot_rows_some _ _ _ Hx) as (t' & Ht' & -> & Ek).
  destruct (so_only _ _ _ Hof t' Ht') as (c' & Hc' & Hcap). exists t'.
  rewrite <- Ek in Hc'. assert (c' = c) as -> by congruence. split; [done|].
  eapply restored_row; [done..|by left].
Qed.
Lemma restored_wake_of id c : db_wakes db !! id = Some c -> in_world w (w_Owner (wr_indexed c)) = true ->
  wakes_keyed db -> db_wakes db3 !! id = Some (wake_row (wr_clockID c) (restored_wake g (wr_indexed c))).
Proof using Hof Hres.
  intros Hc Hk Hkey. pose proof (so_wake _ _ _ Hof id c Hc Hk) as Hin.
  rewrite (rs_wakes _ _ _ _ _ Hres). apply lookup_union_Some_l.
  destruct (list_to_map_in (wake_entry g <$> sn_Wakes s) id) as [x Hx].
  { rewrite <- (Hkey _ _ Hc). apply list_elem_of_fmap. exists (wake_entry g (wake_snapshot c)).
    split; [done|by apply list_elem_of_fmap_2]. }
  destruct (snapshot_wakes_some _ _ _ _ Hx) as (k & Hkin & -> & Ek).
  pose proof (so_only_wake _ _ _ Hof k Hkin) as Hc'. rewrite <- Ek, Hc in Hc'. injection Hc' as ->. exact Hx.
Qed.

Lemma round_trip : keyed db -> wakes_keyed db -> working_set_restored w g db db3.
Proof using Hof Hs Hw Hi Hres.
  intros Hkt Hkw. split.
  - intros k c Hc Hk. destruct (restored_task_of k c Hc Hk) as (t & Hcap & Ht). exists (checkpointTaskColumns t).
    destruct Hcap as [H1 _ [= H2 H3 H4] H5 _]. done.
  - intros k c' Hc' Hk. apply (restored_row w g s db2 db3 Hi Hs Hw Hres) in Hc' as [(t & Ht & _ & ->)%snapshot_rows_some|[_ Hout] ]; [|congruence].
    destruct (so_only _ _ _ Hof t Ht) as (c & Hc & _). eauto.
  - intros id c Hc Hk. by apply restored_wake_of.
  - intros id c' Hc' Hk. rewrite (rs_wakes _ _ _ _ _ Hres), lookup_union_Some_raw, outside_wakes_lookup in Hc'.
    destruct Hc' as [(k & Hkin & _ & ->)%snapshot_wakes_some|(_ & _ & Hout)]; [|congruence].
    rewrite (so_only_wake _ _ _ Hof k Hkin). eauto.
Qed.
End round_trip.

(** A checkpoint saved in one state and restored in a later one. *)
Lemma saved_restored w sid p db0 db1 db2 db3 run h :
  intact db1 -> intact db2 -> saved w sid p db0 db1 -> checkpoints_kept db1 db2 ->
  restore_done w run (pp_Reference p) h db2 db3 ->
  working_set_restored w (bd_Generation (hd_Binding h)) db1 db3.
Proof.
  intros Hi1 Hi2 [_ (row & _ & Hrow & _ & Hw & _ & _ & Hof & Hs & Hsw & _) _] Hkept [_ (row' & s & Hrow' & Hw' & _ & Hdec & _ & Hres) _ _].
  assert (db_checkpoints db1 !! rf_ID (pp_Reference p) = Some row) as H1 by (rewrite Hrow; apply lookup_insert_eq).
  apply Hkept in H1. assert (row' = row) as -> by congruence.
  destruct (decodeCheckpointRow_ok _ _ Hdec) as (Hcl & _ & Hss & Hws).
  assert (working_set_restored w (bd_Generation (hd_Binding h)) db1 (with_heads (db_heads db2) db3)) as [R1 R2 R3 R4].
  { eapply round_trip; [by eapply cloneSnapshot_of|exact Hss|congruence|exact Hi2|exact Hres|..].
    - apply tasks_wf_keyed, Hi1.
    - apply wakes_ok_keyed, tp_wakes, Hi1. }
  split; assumption.
Qed.
Lemma activateCheckpoint_done w run k ref env st h st' : intact (st_db st) ->
  activateCheckpoint w run k ref env st = (Ok h, st') ->
  intact (st_db st') /\ restore_done w run ref h (st_db st) (st_db st').
Proof.
  intros Hi (st1 & st2 & E & H & ->)%tx_ok. rewrite <- E in Hi |- *. by apply activate_checkpoint_tx_ok in H.
Qed.

(** ** Activating a new run

    The service restores when the world's head belongs to another run: it has no other
    way to answer with a head. *)
Lemma restore_or_pause_ok w r k ref env st h st' : restore_or_pause w r k ref env st = (Ok h, st') ->
  activateCheckpoint w r k ref env st = (Ok h, st').
Proof.
  unfold restore_or_pause, mbind, M_bind, attempt. destruct (activateCheckpoint w r k ref env st) as [ [h0|e] st1]; [done|].
  destruct (pauseWorldForCheckpointFailure w r k e env st1) as [ [|] ]; done.
Qed.
Lemma pause_and_fail_fails w r k e env st h st' : pause_and_fail w r k e env st <> (Ok h, st').
Proof. unfold pause_and_fail. intros (a & st1 & _ & H)%M_bind_ok. done. Qed.
Lemma find_head_same w env st o st' r : head_row (st_db st) w = Some r ->
  find_head_for_mutation w env st = (Ok o, st') -> exists r', o = Some r' /\ wh_Head r' = wh_Head r.
Proof.
  intros Hr (o1 & st1 & H1 & H2)%M_bind_ok. apply head_row_some in Hr as (c & Hc & Hs).
  pose proof (loadWorldHeadTx_ok _ _ _ _ _ H1) as [E Ho]. destruct o1 as [r1|]; [|congruence].
  destruct Ho as (c' & Hc' & Hs'). assert (r1 = r) as -> by congruence.
  apply M_bind_ok in H2 as (r' & st2 & H2 & [-> _]%ret_ok). exists r'. split; [done|].
  assert (loadWorldHeadForMutationTx w env st = (Ok r', st2)) as (Hh & _)%loaded_same_head.
  { unfold loadWorldHeadForMutationTx, mbind, M_bind. by rewrite H1. }
  destruct Hh as (r0 & Hr0 & ->). f_equal. assert (head_row (st_db st) w = Some r) by (apply head_row_some; eauto). congruence.
Qed.
Lemma activate_run_same_run w run k env st h st' r : head_row (st_db st) w = Some r ->
  activate_run w run k env st = (Ok h, st') -> bd_RunID (hd_Binding (wh_Head r)) = run.
Proof.
  intros Hr (x & st1 & (s1 & s2 & E & H & _)%tx_ok & _)%M_bind_ok. rewrite <- E in Hr. unfold activate_first_tx in H.
  apply M_bind_ok in H as (o & s3 & H1 & H2). destruct (find_head_same _ _ _ _ _ _ Hr H1) as (r' & -> & Eh).
  unfold validateRestartActivation, validateActivationRetry in H2. rewrite <- Eh.
  apply M_bind_ok in H2 as (cl & s4 & _ & H2). apply M_bind_ok in H2 as (u & s5 & H2 & _).
  destruct (wh_RuntimeInstanceID r' != cl); minv H2; by boolp.
Qed.
Lemma loadWorldHead_ok w env st r st' : loadWorldHead w env st = (Ok r, st') -> head_row (st_db st) w = Some r.
Proof.
  unfold loadWorldHead. intros (u & st1 & [_ ->]%lift_ok & H)%M_bind_ok. unfold catch in H.
  destruct (query _ env st) as [ [x|e] st2] eqn:Hq; [|destruct (Is_norows e); by minv H].
  injection H as -> ->. apply query_ok in Hq as [Hq _]. destruct (db_heads (st_db st) !! w) as [c|] eqn:Hc; [|done].
  apply head_row_some. eauto.
Qed.
Lemma ActivateWorld_other_run w run k ref env st h st' r : head_row (st_db st) w = Some r ->
  bd_RunID (hd_Binding (wh_Head r)) <> run -> ActivateWorld w run k ref env st = (Ok h, st') ->
  exists st1, st_db st1 = st_db st /\ activateCheckpoint w run k ref env st1 = (Ok h, st').
Proof.
  intros Hr Hrun H. unfold ActivateWorld in H.
  apply M_bind_ok in H as (u & st1 & E1%read_only & H). apply M_bind_ok in H as (u' & st2 & [_ ->]%lift_ok & H).
  destruct (validateCheckpointReference w ref); [|by apply pause_and_fail_fails in H].
  apply M_bind_ok in H as (o & st3 & H1 & H). pose proof (read_only _ _ _ _ H1) as E3. rewrite E1 in E3.
  assert (forall st, st_db st = st_db st3 -> activate_run w run k env st <> (Ok h, st')) as Hno.
  { intros s Es Ha. eapply activate_run_same_run in Ha; [|rewrite Es, E3; exact Hr]. done. }
  assert (restore_or_pause w run k ref env st3 = (Ok h, st') ->
    exists s, st_db s = st_db st /\ activateCheckpoint w run k ref env s = (Ok h, st')) as Hyes.
  { intros Ha%restore_or_pause_ok. by exists st3. }
  destruct o as [current|e].
  - assert (current = r) as ->.
    { unfold attempt in H1. destruct (loadWorldHead w env st1) as [ox sx] eqn:Hl. injection H1 as -> _.
      apply loadWorldHead_ok in Hl. rewrite E1 in Hl. congruence. }
    rewrite (bool_decide_false (bd_RunID _ = run)) in H by done. cbn [andb negb] in H.
    destruct (wh_RecoveryRunID r != ""); [by apply M_bind_ok in H as (? & ? & [_ ->]%lift_ok & H); apply Hyes|].
    destruct (rf_Status ref != _); [by apply pause_and_fail_fails in H|by apply Hyes].
  - destruct (Is_code e CodeTaskNotFound); [|by minv H]. destruct (rf_Status ref == _); [by apply Hyes|by apply Hno in H].
Qed.
