(* ===== verification/Fences.v ===== *)
(** * Fences

    A call writes rows only with the authority of a live binding: the world's head has
    to be ready and to carry exactly the binding of the call.  A call that fails leaves
    the rows as they were. *)

From S2P Require Export HeadLife.

Local Open Scope go_scope.

#[local] Opaque Record_Validate sha256Hex marshalRecord marshalTaskSpec marshalCreateResult
  marshalHistory cloneRecord modelProgressJSON validateTaskMutationCapacity Wake_Validate.

Definition rows_same (db db' : DB) : Prop :=
  db_tasks db' = db_tasks db /\ db_wakes db' = db_wakes db /\ db_checkpoints db' = db_checkpoints db.
#[export] Instance rows_same_preorder : PreOrder rows_same.
Proof. split; [by intros db|]. intros db1 db2 db3 (E1 & E2 & E3) (F1 & F2 & F3). split_and!; congruence. Qed.

(** ** Authority *)

(** The head [r] is ready and carries [b]. *)
Definition carries (r : worldHeadRow) (b : Binding) : Prop :=
  hd_Status (wh_Head r) = worldHeadStatusReady /\ hd_Binding (wh_Head r) = b.
Definition authority (b : Binding) (db : DB) : Prop :=
  exists r, head_row db (bd_World b) = Some r /\ carries r b.

(** Inside a transaction whose loaded head decides [Q]: nothing is written unless [Q]. *)
Definition unless (Q : Prop) (db db' : DB) : Prop := Q \/ db' = db.
#[export] Instance unless_preorder Q : PreOrder (unless Q).
Proof. split; [by right|]. intros db1 db2 db3 [?|E1] [?|E2]; [by left..|]. right. congruence. Qed.
Lemma unless_check {A B} (Q : Prop) (x : outcome error A) (f : A -> M B) :
  (forall a, x = Ok a -> Q) -> Respects (unless Q) (lift x ≫= f).
Proof. intros HQ env st b st' (a & st1 & [Ha _]%lift_ok & _)%M_bind_ok. left. by eapply HQ. Qed.

#[export] Instance un_create r e {B} (f : unit -> M B) :
  Respects (unless (carries r (ex_Binding e))) (lift (validateCreateAuthority r e) ≫= f) | 1.
Proof. apply unless_check. intros a H. unfold validateCreateAuthority in H. okinv H. by boolp. Qed.
#[export] Instance un_wake r b c {B} (f : unit -> M B) :
  Respects (unless (carries r b)) (lift (validateWakeWorldAuthority r b c) ≫= f) | 1.
Proof. apply unless_check. intros a H. unfold validateWakeWorldAuthority in H. okinv H. by boolp. Qed.
#[export] Instance un_evidence r b {B} (f : unit -> M B) :
  Respects (unless (carries r b)) (lift (validateEvidenceAuthority r b) ≫= f) | 1.
Proof. apply unless_check. intros a H. unfold validateEvidenceAuthority in H. okinv H. by boolp. Qed.

(** Between two databases: rows are the same, and no authority appears, unless there
    was authority to begin with. *)
Definition fences (b : Binding) (db db' : DB) : Prop :=
  authority b db \/ rows_same db db' /\ (authority b db' -> authority b db).
#[export] Instance fences_preorder b : PreOrder (fences b).
Proof.
  split; [by right|]. intros db1 db2 db3 [?|[E1 B1] ] [?|[E2 B2] ]; [by left..|left; by apply B1|].
  right. split; [by etrans|auto].
Qed.

Lemma fences_of {A} b r (m : M A) db0 env st a st' : Respects (unless (carries r b)) m ->
  (exists r0, head_row db0 (bd_World b) = Some r0 /\ wh_Head r = wh_Head r0) ->
  head_row (st_db st) (bd_World b) = Some r -> rows_same db0 (st_db st) ->
  m env st = (Ok a, st') -> fences b db0 (st_db st').
Proof.
  intros Hm (r0 & Hr0 & Eh) Hr Hs H.
  assert (carries r b -> authority b db0) as Hback.
  { intros [H1 H2]. exists r0. unfold carries. by rewrite <- Eh. }
  destruct (Hm _ _ _ _ H) as [HQ| -> ]; [left; by apply Hback|]. right. split; [done|].
  intros (r1 & Hr1 & Hc). apply Hback. by assert (r1 = r) as -> by congruence.
Qed.
Lemma fences_load {A} b (f : worldHeadRow -> M A) :
  (forall r, Respects (unless (carries r b)) (f r)) ->
  Respects (fences b) (loadWorldHeadForMutationTx (bd_World b) ≫= f).
Proof.
  intros Hf env st a st' (r & st1 & H1 & H2)%M_bind_ok. destruct (loaded_head _ _ _ _ _ H1) as (_ & _ & _ & Hr & _).
  apply loaded_same_head in H1 as (Hh & Et & Ew & Ec). by eapply fences_of.
Qed.
Lemma fences_wake_world {A} b (f : worldHeadRow -> M A) : Respects (fences b) (wake_world b ≫= f).
Proof.
  intros env st a st' (r & st1 & H1 & _)%M_bind_ok. left. pose proof (wake_world_binding _ _ _ _ _ H1) as Hb.
  unfold wake_world in H1. apply M_bind_ok in H1 as (r1 & st2 & ((r0 & Hr0 & Eh) & _)%loaded_same_head & H2). minv H2.
  match goal with H : validateWakeWorldAuthority _ _ _ = _ |- _ => unfold validateWakeWorldAuthority in H; okinv H end.
  exists r0. split; [done|]. unfold carries. rewrite <- Eh. by boolp.
Qed.

Lemma fences_find {A} b (f : option worldHeadRow -> M A) :
  (forall r, Respects (unless (carries r b)) (f (Some r))) -> (forall Q, Respects (unless Q) (f None)) ->
  Respects (fences b) (loadWorldHeadTx (bd_World b) ≫= f).
Proof.
  intros Hf Hn env st a st' (o & st1 & H1 & H2)%M_bind_ok. apply loadWorldHeadTx_ok in H1 as [E Ho].
  destruct o as [r|].
  - destruct Ho as (c & Hc & Hs).
    assert (head_row (st_db st) (bd_World b) = Some r) as Hr by (apply head_row_some; eauto).
    eapply fences_of; [apply Hf|by exists r|by rewrite E|by rewrite E|exact H2].
  - destruct (Hn False _ _ _ _ H2) as [ [] | -> ]. right. rewrite E. done.
Qed.

(** ** Calls *)
Definition call_binding (c : call) : option Binding :=
  match c with
  | CallUpdateClock b _ | CallDeactivateWorld b _ | CallPrepareCheckpoint b _ _ _ | CallFinishCheckpoint b _ _
  | CallAdmitEvidence b _ | CallMarkOperationNotSent b _ _ _ _ | CallRecordCleanup b _ _ | CallClaimDue b _ _
  | CallMarkEnqueued b _ _ | CallReleaseClaim b _ _ _ | CallBeginWake b _ _ | CallInspectWake b _ => Some b
  | CallCreate e _ _ | CallApplyIntent e _ | CallRegisterOperation e _ | CallReconcile e
  | CallFinishAttempt e _ => Some (ex_Binding e)
  | CallReadHead _ | CallActivateWorld _ _ _ _ | CallReadCheckpointBarrier _ | CallRead _ _ | CallList _ _
  | CallListActive _ _ | CallListRecentResults _ _ => None
  end.

(** Calls that write to heads only. *)
#[export] Instance rs_headCAS b u : Respects rows_same (updateWorldHeadCASTx b u).
Proof. intros env st a st' (_ & _ & ->)%updateWorldHeadCASTx_ok. done. Qed.
#[export] Instance rs_load w : Respects rows_same (loadWorldHeadForMutationTx w).
Proof. intros env st r st' (_ & E1 & E2 & E3)%loaded_same_head. done. Qed.

Ltac fence := always_open; first [apply fences_wake_world|apply fences_load; intros ?; apply _].
Lemma fences_perform c b : call_binding c = Some b ->
  Always (fences b) (perform c) \/ Always rows_same (perform c).
Proof.
  intros Hb. destruct c; simplify_eq/=.
  - right. unfold UpdateClock. apply _.
  - right. unfold DeactivateWorld. apply _.
  - left. unfold PrepareCheckpoint, countWorldTasks, prepare_checkpoint_tx. fence.
  - right. unfold FinishCheckpoint. apply _.
  - left. unfold Create, create_tx. fence.
  - left. unfold ApplyIntent, apply_intent_tx. fence.
  - left. unfold AdmitEvidence. fence.
  - left. unfold RegisterOperation. fence.
  - left. unfold MarkOperationNotSent. always_open. apply fences_find; intros ?; apply _.
  - left. unfold RecordCleanup. fence.
  - left. unfold Reconcile, reconcile_tx. fence.
  - left. apply always_discard. unfold FinishAttempt, finish_attempt_tx.
    do 2 (apply always_bind; [apply _|intros _]). apply always_bind; [fence|intros ?; apply _].
  - left. unfold ClaimDue. fence.
  - left. unfold MarkEnqueued. fence.
  - left. unfold ReleaseClaim. fence.
  - left. apply always_discard. unfold BeginWake.
    do 2 (apply always_bind; [apply _|intros _]). apply always_bind; [fence|intros [? ?]; apply _].
  - right. always_calls.
Qed.

(** ** Fencing for good *)

(** Once the head of the world has moved past the generation of a binding, no call
    under that binding ever writes a row. *)
Lemma head_le_generation r r' : head_le r r' -> (head_generation r <= head_generation r')%N.
Proof. unfold head_generation. intros [H|[-> _] ]; [by apply N.lt_le_incl|done]. Qed.
Lemma superseded db db' b r : rtc step db db' -> head_row db (bd_World b) = Some r ->
  (bd_Generation b < head_generation r)%N -> ~ authority b db'.
Proof.
  intros Hs Hr Hg (r' & Hr' & _ & Hb). destruct (steps_heads _ _ Hs _ _ Hr) as (r1 & Hr1 & Hle%head_le_generation).
  assert (r1 = r') as -> by congruence. unfold head_generation at 2 in Hle. rewrite Hb in Hle. lia.
Qed.
Lemma call_without_authority c b env st o st' : call_binding c = Some b -> ~ authority b (st_db st) ->
  perform c env st = (o, st') -> rows_same (st_db st) (st_db st').
Proof.
  intros Hc Ha H. destruct (fences_perform c b Hc) as [Hp|Hp]; [|by eapply Hp].
  by destruct (Hp _ _ _ _ H) as [?|[? _] ].
Qed.

(** ** Failed calls *)
Class Atomic {A} (m : M A) : Prop :=
  atomic : forall env st e st', m env st = (Err e, st') -> st_db st' = st_db st.
#[export] Instance atomic_ro {A} (m : M A) : ReadOnly m -> Atomic m | 10.
Proof. intros Hm env st e st' H. by eapply Hm. Qed.
#[export] Instance atomic_tx {A} (cb : M A) : Atomic (withImmediateTransaction cb) | 5.
Proof. intros env st e st' H. by eapply tx_err. Qed.
#[export] Instance atomic_bind {A B} (m : M A) (f : A -> M B) :
  ReadOnly m -> (forall a, Atomic (f a)) -> Atomic (m ≫= f) | 7.
Proof.
  intros Hm Hf env st e st' H. unfold mbind, M_bind in H. destruct (m env st) as [ [a|e'] st1] eqn:H1.
  - rewrite <- (Hm _ _ _ _ H1). by eapply Hf.
  - simplify_eq. by eapply Hm.
Qed.
#[export] Hint Extern 8 (Atomic (match _ with _ => _ end)) => case_match : typeclass_instances.

(** A step after the commit that cannot fail on what the transaction answers. *)
Lemma atomic_then {A B} (Q : A -> Prop) (m : M A) (f : A -> M B) :
  Atomic m -> (forall env st a st', m env st = (Ok a, st') -> Q a) ->
  (forall a env st e st', Q a -> f a env st <> (Err e, st')) -> Atomic (m ≫= f).
Proof.
  intros Hm HQ Hf env st e st' H. unfold mbind, M_bind in H. destruct (m env st) as [ [a|e'] st1] eqn:H1.
  - by eapply Hf in H; [|eapply HQ].
  - simplify_eq. by eapply Hm.
Qed.
Lemma atomic_discard {A} (m : M A) : Atomic m -> Atomic (discard m).
Proof. intros Hm. eapply (atomic_then (fun _ => True)); [done|done|]. by intros a env st e st' _. Qed.

(** What marshals can be cloned. *)
Lemma marshal_raw n raw f : raw_field n raw = Some f -> is_Some (clone_raw raw).
Proof. unfold raw_field, clone_raw. destruct (raw == ""); [eauto|]. intros H. opt_inv H. eauto. Qed.
Lemma marshal_source s x : marshalSourceRef s = Some x -> is_Some (cloneSourceRef s).
Proof.
  unfold marshalSourceRef, cloneSourceRef. intros H. opt_inv H.
  destruct (marshal_raw _ _ _ Hx) as [? ->], (marshal_raw _ _ _ Hx0) as [? ->]. cbn. eauto.
Qed.
Lemma mapM_opt_total {A B C} (f : A -> option B) (g : A -> option C) l y :
  (forall x b, f x = Some b -> is_Some (g x)) -> mapM_opt f l = Some y -> is_Some (mapM_opt g l).
Proof.
  intros Hfg. revert y. induction l as [|x l IH]; intros y H; cbn [mapM_opt] in *; [eauto|]. opt_inv H.
  destruct (Hfg _ _ Hx) as [? ->]. cbn. destruct (IH _ Hx0) as [? ->]. cbn. eauto.
Qed.
Lemma marshal_spec s x : marshalTaskSpec s = Some x -> is_Some (cloneTaskSpec s).
Proof.
  unfold cloneTaskSpec. intros H. with_strategy transparent [marshalTaskSpec] unfold marshalTaskSpec in H. opt_inv H.
  destruct (marshal_raw _ _ _ Hx) as [? ->], (marshal_source _ _ Hx0) as [? ->]. cbn. eauto.
Qed.
Lemma marshal_operation o x : marshalOperation o = Some x -> is_Some (cloneOperation o).
Proof. unfold marshalOperation, cloneOperation. intros H. opt_inv H. destruct (marshal_raw _ _ _ Hx) as [? ->]. cbn. eauto. Qed.
Lemma marshal_evidence e x : marshalEvidence e = Some x -> is_Some (cloneEvidence e).
Proof.
  unfold marshalEvidence, cloneEvidence. intros H. opt_inv H.
  destruct (marshal_raw _ _ _ Hx) as [? ->], (marshal_source _ _ Hx0) as [? ->]. cbn. eauto.
Qed.
Lemma marshal_result r x : marshalResult r = Some x -> is_Some (cloneResultJSON r).
Proof. unfold marshalResult, cloneResultJSON. intros H. opt_inv H. destruct (marshal_source _ _ Hx) as [? ->]. cbn. eauto. Qed.
Lemma marshal_record r x : marshalRecord r = Some x -> Record_Validate r = Ok tt -> is_Some (cloneRecord r).
Proof.
  intros H Hv. with_strategy transparent [marshalRecord] unfold marshalRecord in H.
  with_strategy transparent [cloneRecord] unfold cloneRecord. opt_inv H.
  destruct (marshal_spec _ _ Hx) as [? ->], (marshal_raw _ _ _ Hx0) as [? ->]. cbn.
  destruct (mapM_opt_total _ _ _ _ marshal_operation Hx1) as [? ->].
  destruct (mapM_opt_total _ _ _ _ marshal_evidence Hx2) as [? ->]. cbn.
  assert (is_ok (validateOwner (r_Owner r)) = true) as ->.
  { with_strategy transparent [Record_Validate] unfold Record_Validate in Hv. apply fail_if_bind in Hv as [_ Hv]. apply bind_ok in Hv as ([] & -> & _). done. }
  destruct (r_Result r) as [y|]; [|cbn; eauto]. opt_inv Hx3. destruct (marshal_result _ _ Hx4) as [? ->]. cbn. eauto.
Qed.

Definition clones (r : TaskRecord) : Prop := is_Some (cloneRecord r).
Lemma clones_ok r e : clones r -> forall env st err st', lift (of_option (cloneRecord r) e) env st <> (Err err, st').
Proof. intros [x Hx] env st err st'. by rewrite Hx. Qed.
Lemma FinishAttempt_atomic e o : Atomic (FinishAttempt e o).
Proof.
  unfold FinishAttempt. do 2 (apply atomic_bind; [apply _|intros _]).
  apply (atomic_then clones); [apply _| |intros a env st err st' Ha; by apply clones_ok].
  intros env st r st' (st1 & st2 & _ & H & _)%tx_ok. unfold finish_attempt_tx in H. minv H.
  all: match goal with H : prepareReconcileMutation _ _ _ _ = _ |- _ =>
    apply prepareReconcileMutation_ok in H as (-> & _ & Hv & x & Hx) end.
  all: by eapply marshal_record.
Qed.
Lemma BeginWake_atomic b w i : Atomic (BeginWake b w i).
Proof.
  unfold BeginWake. do 2 (apply atomic_bind; [apply _|intros _]).
  apply (atomic_then (fun x => clones x.2)); [apply _| |].
  - intros env st r st' (st1 & st2 & _ & H & _)%tx_ok. minv H.
    match goal with H : prepareBeginMutation _ _ _ = _ |- _ =>
      apply prepareBeginMutation_ok in H as (_ & _ & _ & Hv & x & Hx) end.
    by eapply marshal_record.
  - intros [ex r] env st err st' [x Hx] H. cbn [snd] in Hx. by rewrite Hx in H.
Qed.
Lemma perform_atomic c : match c with CallActivateWorld _ _ _ _ => True | _ => Atomic (perform c) end.
Proof.
  destruct c; cbn [perform]; try done; try apply atomic_discard;
    first [apply FinishAttempt_atomic|apply BeginWake_atomic|idtac];
    unfold ReadHead, UpdateClock, DeactivateWorld, PrepareCheckpoint, FinishCheckpoint, ReadCheckpointBarrier, Create,
      Read, ReadList, ListActive, ListRecentResults, read_rows, loadTask, validateWorldTaskIdentityGraph, ApplyIntent,
      AdmitEvidence, RegisterOperation, MarkOperationNotSent, RecordCleanup, Reconcile, ClaimDue, MarkEnqueued,
      ReleaseClaim, InspectWake, countWorldTasks; apply _.
Qed.

(** A failed activation may have paused the head or given the world one; it changes no
    row. *)
Class ErrSame {A} (m : M A) : Prop :=
  err_same : forall env st e st', m env st = (Err e, st') -> rows_same (st_db st) (st_db st').
#[export] Instance err_atomic {A} (m : M A) : Atomic m -> ErrSame m | 10.
Proof. intros Hm env st e st' H. by rewrite (Hm _ _ _ _ H). Qed.
Lemma err_always {A} (m : M A) : Always rows_same m -> ErrSame m.
Proof. intros Hm env st e st' H. by eapply Hm. Qed.
Lemma err_bind {A B} (m : M A) (f : A -> M B) :
  Always rows_same m -> (forall a, ErrSame (f a)) -> ErrSame (m ≫= f).
Proof.
  intros Hm Hf env st e st' H. unfold mbind, M_bind in H. destruct (m env st) as [ [a|e'] st1] eqn:H1.
  - etrans; [by eapply Hm|by eapply Hf].
  - simplify_eq. by eapply Hm.
Qed.
#[export] Instance rs_insertHead row : Respects rows_same (insertWorldHeadTx row).
Proof. intros env st u st' [_ ->]%insertWorldHeadTx_ok. done. Qed.
#[export] Instance rs_pause w r k e : Always rows_same (pause_and_fail w r k e).
Proof.
  unfold pause_and_fail, pauseWorldForCheckpointFailure. apply always_bind; [|intros _; apply _].
  case_match; [|apply _]. apply always_tx. apply respects_bind; [apply _|intros [current|] ]; apply _.
Qed.
#[export] Instance rs_findHead w : Respects rows_same (find_head_for_mutation w).
Proof.
  apply (respects_find_head rows_same). intros h _. unfold releaseExpiredCheckpointBarrierTx. apply _.
Qed.
Lemma activate_run_err w r k : ErrSame (activate_run w r k).
Proof.
  unfold activate_run. apply err_bind.
  - apply always_tx. unfold activate_first_tx, worldHasDurableStateTx. apply _.
  - intros [h [ [from n]|] ]; [|apply _]. apply err_atomic. apply _.
Qed.
Lemma restore_or_pause_err w r k ref : ErrSame (restore_or_pause w r k ref).
Proof.
  intros env st e st' H. unfold restore_or_pause, mbind, M_bind, attempt in H.
  destruct (activateCheckpoint w r k ref env st) as [ [h|e0] st1] eqn:H1; [done|].
  assert (st_db st1 = st_db st) as E. 
  { assert (Atomic (activateCheckpoint w r k ref)) as Ha by (unfold activateCheckpoint; apply _). by eapply Ha. }
  rewrite <- E. assert (pause_and_fail w r k e0 env st1 = (Err e, st')) as H2 by exact H. by eapply rs_pause.
Qed.
Lemma ActivateWorld_err w r k ref : ErrSame (ActivateWorld w r k ref).
Proof.
  apply (ActivateWorld_cases _ _ _ _ (@ErrSame)); intros; try apply _.
  - apply err_bind; [apply _|done].
  - intros env st e st' He. unfold mbind, M_bind, lift in He. destruct x as [a|e']; [by eapply (H a eq_refl)|by simplify_eq].
  - apply err_always, _.
  - apply activate_run_err.
  - apply restore_or_pause_err.
Qed.
Lemma perform_err c env st e st' : perform c env st = (Err e, st') -> rows_same (st_db st) (st_db st').
Proof.
  intros H. pose proof (perform_atomic c) as Hat. destruct c; try by rewrite (Hat _ _ _ _ H).
  clear Hat. cbn [perform] in H. unfold discard in H. unfold mbind, M_bind in H.
  destruct (ActivateWorld world runID clock ref env st) as [ [h|e0] st1] eqn:H1; [done|]. simplify_eq.
  by eapply ActivateWorld_err.
Qed.
