(* ===== verification/Guarantees.v ===== *)
(** * What the kernel guarantees over any run of calls

    The theorems about whole runs, each with an instance on the run of Demo.v. *)

From S2P Require Export Isolation.
From S2P Require Import Demo.

Local Open Scope go_scope.

(** A conjunction of hypotheses. *)
Ltac assumed := repeat lazymatch goal with |- _ /\ _ => split end; assumption.

#[local] Opaque Record_Validate sha256Hex marshalRecord marshalTaskSpec marshalCreateResult
  marshalHistory cloneRecord modelProgressJSON validateTaskMutationCapacity Wake_Validate.

(** ** Stored tasks *)

(** C11: in every reachable database every task row decodes: its columns, its record, its
    create response and its intent history agree, the record is valid, and the row
    is stored under the owner and id of its record. *)
Theorem reachable_rows_decode db k c :
  reachable db -> db_tasks db !! k = Some c ->
  exists d, decodeTaskRowColumns c = Ok d /\ dt_record d = co_recordJSON c
  /\ Record_Validate (dt_record d) = Ok tt /\ row_key (dt_record d) = k.
Proof.
  intros Hr Hc. pose proof (reachable_tasks_wf _ Hr _ _ Hc) as [Hk Hcan Hh [d Hd]].
  pose proof (decode_canonical c d Hcan Hh Hd) as [E _ Hv _ _ _ _ _]. exists d. rewrite E. split_and!; [done..|].
  apply decode_owner in Hd as [H1 H2]. rewrite E in H1, H2. unfold row_key. by rewrite H1, H2.
Qed.
Lemma reachable_rows_decode_witness :
  exists c d, db_tasks (st_db demo_st8) !! demo_key = Some c /\ decodeTaskRowColumns c = Ok d.
Proof.
  destruct (demo_row _ _ _ _ demo_show8) as (c & Hc & _). exists c.
  destruct (reachable_rows_decode _ _ _ demo_reachable8 Hc) as (d & Hd & _). exists d; assumed.
Defined.

(** In every reachable database every wake row decodes under its own id and fits
    the task it belongs to: the strict pairing check of the code accepts it. *)
Theorem reachable_wakes_pair db id c :
  reachable db -> db_wakes db !! id = Some c ->
  w_ID (wr_indexed c) = id /\ wr_json c = wr_indexed c
  /\ exists row, db_tasks db !! wake_task (wr_indexed c) = Some row
     /\ wr_clockID c = sp_ClockID (r_Spec (co_recordJSON row))
     /\ validateTaskWakePair (co_recordJSON row) (wr_indexed c) = Ok tt.
Proof.
  intros Hr Hc. destruct (reachable_topology _ Hr) as [[Hrow _] [Hw _]].
  destruct (Hrow id c Hc) as (Hid & Hj & Hv). destruct (Hw id c Hc I) as (row & Hrow' & Hfit & Hck).
  split_and!; [done..|]. exists row. split_and!; [done..|]. apply validateTaskWakePair_ok. split_and!; [|done..].
  pose proof (reachable_tasks_wf _ Hr _ _ Hrow') as [_ Hcan Hh [d Hd]]. by apply decode_canonical in Hd as [].
Qed.
Lemma reachable_wakes_pair_witness :
  exists c row, db_wakes (st_db demo_st5) !! demo_wake = Some c /\ w_Status (wr_indexed c) = wakeStatusRunning
  /\ validateTaskWakePair (co_recordJSON row) (wr_indexed c) = Ok tt.
Proof.
  destruct (demo_wake_row _ _ _ demo_show5) as (c & Hc & Hs).
  destruct (reachable_wakes_pair _ _ _ demo_reachable5 Hc) as (_ & _ & row & _ & _ & Hp). exists c, row; assumed.
Defined.

(** C1: in every reachable database a waiting task has exactly one wake that has not been
    consumed, and it is waiting for the revision and the tick the task stores: no
    task sleeps forever and none is woken twice. *)
Theorem reachable_waiting_task_wakes db k row :
  reachable db -> db_tasks db !! k = Some row -> r_State (co_recordJSON row) = StateWaiting ->
  exists id c, db_wakes db !! id = Some c /\ wake_task (wr_indexed c) = k
  /\ executableStatus (w_Status (wr_indexed c)) = true
  /\ r_NextWakeAt (co_recordJSON row) = Some (w_DueTick (wr_indexed c))
  /\ r_Revision (co_recordJSON row) = w_ExpectedRevision (wr_indexed c)
  /\ forall id' c', db_wakes db !! id' = Some c' -> wake_task (wr_indexed c') = k ->
       executableStatus (w_Status (wr_indexed c')) = true -> id' = id.
Proof.
  intros Hr Hk Hs. destruct (reachable_topology _ Hr) as [[_ Hun] [Hw Ht]].
  destruct (Ht k row Hk I Hs) as (id & c & Hc & Hck & He). exists id, c.
  destruct (Hw id c Hc I) as (row' & Hrow' & (_ & _ & Hfit) & _). rewrite Hck in Hrow'.
  assert (row' = row) as -> by congruence.
  assert (wake_waits_for (wr_indexed c) (co_recordJSON row) = true) as Hwait.
  { unfold wake_runs in Hfit. destruct (w_Status (wr_indexed c)); try done. boolp. destruct Hfit as [[[Hx _] _] _]. congruence. }
  unfold wake_waits_for in Hwait. boolp. destruct Hwait as [[_ Hn] Hrev]. apply N.eqb_eq in Hrev.
  split_and!; [done..|]. intros id' c' Hc' Hck' He'. eapply (Hun id' id); eauto. congruence.
Qed.
Lemma reachable_waiting_task_wakes_witness :
  exists id c, db_wakes (st_db demo_st4) !! id = Some c /\ wake_task (wr_indexed c) = demo_key.
Proof.
  destruct (demo_row _ _ _ _ demo_show4) as (row & Hrow & Hs & _).
  destruct (reachable_waiting_task_wakes _ _ _ demo_reachable4 Hrow Hs) as (id & c & Hc & Hk & _). exists id, c; assumed.
Defined.

(** Over any run that restores no checkpoint, a task row stays in the table with its identity, specification and
    creation times; its revision never decreases, and while the revision is the same
    so are state, next wake, progress and result. *)
Theorem run_task_persists db db' k c :
  reachable db -> run db db' -> db_tasks db !! k = Some c ->
  exists c', db_tasks db' !! k = Some c'
  /\ same_identity (co_recordJSON c) (co_recordJSON c')
  /\ (r_Revision (co_recordJSON c) <= r_Revision (co_recordJSON c'))%N
  /\ (r_Revision (co_recordJSON c') = r_Revision (co_recordJSON c) ->
      same_business (co_recordJSON c) (co_recordJSON c')).
Proof.
  intros Hr Hs Hc. destruct (run_evolves _ _ (reachable_intact _ Hr) Hs) as [_ Hrows].
  destruct (Hrows k c Hc) as (c' & Hc' & []). eauto 6.
Qed.
Lemma run_task_persists_witness :
  exists c c', db_tasks (st_db demo_st4) !! demo_key = Some c /\ db_tasks (st_db demo_st5) !! demo_key = Some c'
  /\ same_identity (co_recordJSON c) (co_recordJSON c').
Proof.
  destruct (demo_row _ _ _ _ demo_show4) as (c & Hc & _).
  destruct (run_task_persists _ _ _ _ demo_reachable4 demo_run5 Hc) as (c' & Hc' & Hi & _). exists c, c'; assumed.
Defined.

(** C10: a terminal task is final: over any run that restores no checkpoint, its state, revision, result and every
    other business field stay what they were, and no fact is added or changed. *)
Theorem run_terminal_task_is_final db db' k c :
  reachable db -> run db db' -> db_tasks db !! k = Some c ->
  taskStateTerminal (r_State (co_recordJSON c)) = true ->
  exists c', db_tasks db' !! k = Some c' /\ same_business (co_recordJSON c) (co_recordJSON c')
  /\ r_Evidence (co_recordJSON c') = r_Evidence (co_recordJSON c).
Proof.
  intros Hr Hs Hc Ht. destruct (run_evolves _ _ (reachable_intact _ Hr) Hs) as [_ Hrows].
  destruct (Hrows k c Hc) as (c' & Hc' & [_ _ _ Hf _ _ _]). destruct (Hf Ht) as [Hb He]. eauto.
Qed.
Lemma run_terminal_task_is_final_witness :
  exists c, db_tasks (st_db demo_st8) !! demo_key = Some c /\ r_State (co_recordJSON c) = StateSucceeded
  /\ exists c', db_tasks (st_db demo_st9) !! demo_key = Some c' /\ same_business (co_recordJSON c) (co_recordJSON c').
Proof.
  destruct (demo_row _ _ _ _ demo_show8) as (c & Hc & Hs & _). exists c. split; [exact Hc|]. split; [exact Hs|].
  destruct (run_terminal_task_is_final _ _ _ _ demo_reachable8 demo_run9 Hc) as (c' & Hc' & Hb & _);
    [by rewrite Hs|exists c'; split; assumption].
Defined.

(** C12: over any run that restores no checkpoint, no admitted fact is lost or altered, and one that was applied stays applied;
    a registered operation keeps everything but its status, which may only leave
    [registered]; a confirmed cleanup is kept as it is. *)
Theorem run_reports_are_kept db db' k c :
  reachable db -> run db db' -> db_tasks db !! k = Some c ->
  exists c', db_tasks db' !! k = Some c'
  /\ (forall e, e ∈ r_Evidence (co_recordJSON c) ->
       exists b, set_ev_Applied b e ∈ r_Evidence (co_recordJSON c') /\ (ev_Applied e = true -> b = true))
  /\ (forall o, o ∈ r_Operations (co_recordJSON c) ->
       exists s, set_op_Status s o ∈ r_Operations (co_recordJSON c')
                 /\ (s = op_Status o \/ op_Status o = OperationStatusRegistered))
  /\ (forall u, u ∈ r_Cleanup (co_recordJSON c) -> cl_Status u <> CleanupStatusUnconfirmed ->
       u ∈ r_Cleanup (co_recordJSON c')).
Proof.
  intros Hr Hs Hc. destruct (run_evolves _ _ (reachable_intact _ Hr) Hs) as [_ Hrows].
  destruct (Hrows k c Hc) as (c' & Hc' & []). exists c'. split_and!; auto.
Qed.
Lemma run_reports_are_kept_witness :
  exists c c', db_tasks (st_db demo_st5) !! demo_key = Some c /\ db_tasks (st_db demo_st8) !! demo_key = Some c'.
Proof.
  destruct (demo_row _ _ _ _ demo_show5) as (c & Hc & _).
  destruct (run_reports_are_kept _ _ _ _ demo_reachable5 demo_run8 Hc) as (c' & Hc' & _). exists c, c'; assumed.
Defined.

(** ** Wakes and worlds *)
(** C17: over any run that restores no checkpoint, a wake row stays in the table under its id with its
    clock and identity; its status, claim, attempt count and generation move only
    along the delivery state machine, and neither count ever decreases. *)
Theorem run_wake_lifecycle db db' id c :
  reachable db -> run db db' -> db_wakes db !! id = Some c ->
  exists c', db_wakes db' !! id = Some c' /\ wr_clockID c' = wr_clockID c
  /\ wake_identity (wr_indexed c') = wake_identity (wr_indexed c)
  /\ rtc wake_step (wr_indexed c) (wr_indexed c')
  /\ (w_Attempt (wr_indexed c) <= w_Attempt (wr_indexed c'))%Z
  /\ (w_Generation (wr_indexed c) <= w_Generation (wr_indexed c'))%N.
Proof.
  intros Hr Hs Hc. destruct (run_wakes db db' Hr Hs id c Hc) as (c' & Hc' & Hk & Hl).
  exists c'. destruct (wake_steps_identity _ _ Hl). done.
Qed.
Lemma run_wake_lifecycle_witness :
  exists c c', db_wakes (st_db demo_st5) !! demo_wake = Some c /\ db_wakes (st_db demo_st8) !! demo_wake = Some c'
  /\ rtc wake_step (wr_indexed c) (wr_indexed c').
Proof.
  destruct (demo_wake_row _ _ _ demo_show5) as (c & Hc & _).
  destruct (run_wake_lifecycle _ _ _ _ demo_reachable5 demo_run8 Hc) as (c' & Hc' & _ & _ & Hl & _). exists c, c'; assumed.
Defined.

(** C3: over any run that restores no checkpoint, a wake that was begun is never
    delivered again: it keeps running, or it is
    consumed and stays as it is. *)
Theorem run_wake_begins_once db db' id c :
  reachable db -> run db db' -> db_wakes db !! id = Some c -> begun (w_Status (wr_indexed c)) = true ->
  exists c', db_wakes db' !! id = Some c'
  /\ (wr_indexed c' = wr_indexed c \/ w_Status (wr_indexed c') = wakeStatusConsumed).
Proof.
  intros Hr Hs Hc Hb. destruct (run_wakes db db' Hr Hs id c Hc) as (c' & Hc' & _ & Hl).
  exists c'. split; [done|]. destruct Hl as [|w w1 w' H Hl]; [by left|right].
  pose proof (wake_step_begun _ _ H Hb) as H1. by rewrite (wake_steps_spent _ _ Hl); [|rewrite H1].
Qed.
Lemma run_wake_begins_once_witness :
  exists c c', db_wakes (st_db demo_st5) !! demo_wake = Some c /\ db_wakes (st_db demo_st8) !! demo_wake = Some c'
  /\ (wr_indexed c' = wr_indexed c \/ w_Status (wr_indexed c') = wakeStatusConsumed).
Proof.
  destruct (demo_wake_row _ _ _ demo_show5) as (c & Hc & Hs).
  destruct (run_wake_begins_once _ _ _ _ demo_reachable5 demo_run8 Hc) as (c' & Hc' & Hl);
    [by rewrite Hs|exists c, c'; assumed].
Defined.

(** C14: a call writes in one world only. Whatever it answers, the heads of
    other worlds, the tasks of owners of other worlds and the wakes of other worlds are
    the same after it, a stored checkpoint is never changed or removed, and it creates
    rows in its own world only. *)
Theorem call_stays_in_its_world c env st o st' :
  reachable (st_db st) -> perform c env st = (o, st') -> confined_to (call_world c) (st_db st) (st_db st').
Proof. intros Hr H. eapply cf_perform; [exact H|]. by apply reachable_keyed. Qed.
Lemma call_stays_in_its_world_witness :
  confined_to demo_world (st_db demo_st8) (st_db demo_st9).
Proof. exact (call_stays_in_its_world _ _ _ _ _ demo_reachable8 demo_perform9). Defined.
