(* ===== verification/Continuity.v ===== *)
(** * What saves, restores and fences guarantee

    The theorems about runs that restore checkpoints and hand a world from one runtime
    to the next, each with an instance on the saving branch of Demo.v. *)

From S2P Require Export Saving Fences.
From S2P Require Import Demo.

Local Open Scope go_scope.

#[local] Opaque Record_Validate sha256Hex marshalRecord marshalTaskSpec marshalCreateResult
  marshalHistory cloneRecord modelProgressJSON validateTaskMutationCapacity Wake_Validate.

Lemma step_discard {A} (m : M A) c env st a st' : perform c = discard m -> m env st = (Ok a, st') ->
  step (st_db st) (st_db st').
Proof.
  intros Hc H. destruct st as [db n]. apply (step_call c env n (Ok tt)). rewrite Hc.
  apply M_bind_ok. by exists a, st'.
Qed.
Lemma reachable_steps db db' : reachable db -> rtc step db db' -> reachable db'.
Proof. intros H1 H2. unfold reachable in *. by etrans. Qed.

(** ** Saves *)

(** C13: a fresh save fences the world: when [PrepareCheckpoint] answers, no task of
    the world is running, every wake that can still run is pending under the new
    generation, the head carries exactly the answered head, one generation on, under
    the barrier of the request, and the checkpoint of the answer is in the table. *)
Theorem save_fences_the_world b clock saveRequestID evidence env st p st' :
  reachable (st_db st) -> no_save (bd_World b) saveRequestID (st_db st) ->
  PrepareCheckpoint b clock saveRequestID evidence env st = (Ok p, st') ->
  fenced (bd_World b) (bd_Generation (hd_Binding (pp_Head p))) (st_db st')
  /\ (exists r r', head_row (st_db st) (bd_World b) = Some r /\ head_row (st_db st') (bd_World b) = Some r'
      /\ wh_Head r' = pp_Head p /\ head_generation r' = (head_generation r + 1)%N
      /\ wh_SaveRequestID r' = saveRequestID /\ wh_BarrierStatus r' = checkpointBarrierPrepared)
  /\ exists row, db_checkpoints (st_db st') !! rf_ID (pp_Reference p) = Some row
      /\ cp_Checksum row = rf_Checksum (pp_Reference p) /\ snapshot_of (bd_World b) (cp_Snapshot row) (st_db st').
Proof.
  intros Hr Hno H. apply PrepareCheckpoint_saved in H as Hs; [|by apply reachable_intact|done].
  split; [by eapply saved_fenced|]. destruct Hs as [_ (row & _ & E & _ & _ & _ & Ec & Hof & _) (r & r' & ?)].
  split; [exists r, r'; tauto|]. exists row. by rewrite E, lookup_insert_eq.
Qed.
Lemma demo_no_save : no_save demo_world "save" (st_db demo_st5).
Proof. intros id row H. by vm_compute in H. Qed.
Lemma save_fences_the_world_witness :
  exists r', head_row (st_db demo_st6) demo_world = Some r' /\ wh_Head r' = pp_Head demo_prepared
  /\ fenced demo_world (bd_Generation (hd_Binding (pp_Head demo_prepared))) (st_db demo_st6).
Proof.
  destruct (save_fences_the_world demo_binding _ _ _ _ _ _ _ demo_reachable5 demo_no_save demo_perform6)
    as (Hf & (r & r' & _ & H1 & H2 & _) & _).
  exists r'. split; [exact H1|]. split; [exact H2|exact Hf].
Defined.

(** C2: a save can be restored at any later time, whatever calls were made in between:
    when a new run activates the world from the answered reference, the world's tasks
    are exactly those of the saved state, each with its history and, up to the order of
    its lists, its record; its wakes are exactly those of the saved state, moved to the
    new generation, which is larger than the saved one and than the one it takes over
    from. *)
Theorem save_restore_round_trip b clock saveRequestID evidence env st p st1 run clock' env' st2 r h st3 :
  reachable (st_db st) -> no_save (bd_World b) saveRequestID (st_db st) ->
  PrepareCheckpoint b clock saveRequestID evidence env st = (Ok p, st1) ->
  rtc step (st_db st1) (st_db st2) ->
  head_row (st_db st2) (bd_World b) = Some r -> bd_RunID (hd_Binding (wh_Head r)) <> run ->
  ActivateWorld (bd_World b) run clock' (pp_Reference p) env' st2 = (Ok h, st3) ->
  working_set_restored (bd_World b) (bd_Generation (hd_Binding h)) (st_db st1) (st_db st3)
  /\ bd_World (hd_Binding h) = bd_World b /\ bd_RunID (hd_Binding h) = run
  /\ (bd_Generation (hd_Binding (pp_Head p)) <= head_generation r < bd_Generation (hd_Binding h))%N.
Proof.
  intros Hr Hno H1 H2 Hhead Hrun H3.
  assert (reachable (st_db st1)) as Hr1.
  { eapply rtc_r; [exact Hr|]. by eapply (step_discard _ (CallPrepareCheckpoint b clock saveRequestID evidence)). }
  pose proof (reachable_steps _ _ Hr1 H2) as Hr2.
  apply PrepareCheckpoint_saved in H1 as Hs; [|by apply reachable_intact|done].
  destruct (ActivateWorld_other_run _ _ _ _ _ _ _ _ _ Hhead Hrun H3) as (s & E & Ha). rewrite <- E in *.
  apply activateCheckpoint_done in Ha as [_ Hd]; [|by apply reachable_intact].
  split_and!; [|apply Hd..| |].
  - eapply saved_restored; [by apply reachable_intact..|exact Hs| |exact Hd]. by apply steps_checkpoints.
  - destruct Hs as [_ _ (r0 & r1 & _ & Hr0 & <- & _)].
    destruct (steps_heads _ _ H2 _ _ Hr0) as (r' & Hr' & Hle%head_le_generation).
    by assert (r' = r) as -> by congruence.
  - apply head_row_some in Hhead as (c & Hc & Hsc). by apply (rd_generation _ _ _ _ _ _ Hd c r).
Qed.
Lemma save_restore_round_trip_witness :
  exists r, head_row (st_db demo_st6) demo_world = Some r
  /\ working_set_restored demo_world (bd_Generation (hd_Binding demo_head7)) (st_db demo_st6) (st_db demo_st7).
Proof.
  destruct (save_fences_the_world demo_binding _ _ _ _ _ _ _ demo_reachable5 demo_no_save demo_perform6)
    as (_ & (r0 & r & _ & Hr & Hh & _) & _).
  assert (bd_RunID (hd_Binding (wh_Head r)) <> "run2") as Hrun by (rewrite Hh; vm_compute; discriminate).
  destruct (save_restore_round_trip demo_binding _ _ _ _ _ _ _ _ _ _ _ _ _ _ demo_reachable5 demo_no_save demo_perform6
    (rtc_refl _ _) Hr Hrun demo_perform7) as [Hw _].
  exists r. split; [exact Hr|exact Hw].
Defined.

(** ** Heads and fences *)

(** C16: a world's head never goes back, whatever calls are made, restores included: it
    stays in the table, its generation never decreases, a change of binding is to a
    larger generation, and while the binding is the same the clock keeps its id and
    moves only forward: tick and sequence never decrease, and the clock changes only
    together with its sequence. *)
Theorem heads_never_rewind db db' w r :
  rtc step db db' -> head_row db w = Some r ->
  exists r', head_row db' w = Some r' /\ (head_generation r <= head_generation r')%N
  /\ (hd_Binding (wh_Head r') <> hd_Binding (wh_Head r) -> (head_generation r < head_generation r')%N)
  /\ (hd_Binding (wh_Head r') = hd_Binding (wh_Head r) ->
      clock_le (hd_Clock (wh_Head r)) (hd_Clock (wh_Head r'))).
Proof.
  intros Hs Hr. destruct (steps_heads _ _ Hs _ _ Hr) as (r' & Hr' & Hle). exists r'. split; [done|].
  split; [by apply head_le_generation|]. destruct Hle as [Hlt|[Hb Hc] ]; split; [done| |done|done].
  intros Hb. unfold head_generation in Hlt. rewrite Hb in Hlt. lia.
Qed.
Lemma demo_step6 : rtc step (st_db demo_st5) (st_db demo_st6).
Proof.
  apply rtc_once. exact (step_discard _ (CallPrepareCheckpoint demo_binding demo_clock_later "save" []) _ _ _ _ eq_refl
    demo_perform6).
Qed.
Lemma demo_step7 : rtc step (st_db demo_st6) (st_db demo_st7).
Proof.
  apply rtc_once. exact (step_discard _ (CallActivateWorld demo_world "run2" demo_clock_later (pp_Reference demo_prepared))
    _ _ _ _ eq_refl demo_perform7).
Qed.
Lemma rtc_trans (R : relation DB) x y z : rtc R x y -> rtc R y z -> rtc R x z.
Proof. intros H1 H2. by etrans. Qed.
Lemma demo_head5 : exists r, head_row (st_db demo_st5) demo_world = Some r /\ hd_Binding (wh_Head r) = demo_binding.
Proof.
  destruct (head_row (st_db demo_st5) demo_world) as [r|] eqn:E; [|by vm_compute in E]. exists r. split; [done|].
  assert (hd_Binding ∘ wh_Head <$> head_row (st_db demo_st5) demo_world = Some demo_binding) as H by (vm_compute; reflexivity).
  rewrite E in H. by injection H.
Qed.
Lemma heads_never_rewind_witness :
  exists r r', head_row (st_db demo_st5) demo_world = Some r /\ head_row (st_db demo_st7) demo_world = Some r'
  /\ (head_generation r <= head_generation r')%N.
Proof.
  destruct demo_head5 as (r & Hr & _).
  destruct (heads_never_rewind _ _ _ _ (rtc_trans _ _ _ _ demo_step6 demo_step7) Hr) as (r' & Hr' & Hg & _).
  exists r, r'. split; [exact Hr|]. split; [exact Hr'|exact Hg].
Defined.

(** C4: a binding that was superseded writes nothing ever again: once the head of its
    world has a larger generation, no call under the binding changes a task, a wake or
    a checkpoint, however late it arrives, whatever it answers. *)
Theorem superseded_binding_writes_nothing c b db r env st o st' :
  call_binding c = Some b -> head_row db (bd_World b) = Some r -> (bd_Generation b < head_generation r)%N ->
  rtc step db (st_db st) -> perform c env st = (o, st') ->
  db_tasks (st_db st') = db_tasks (st_db st) /\ db_wakes (st_db st') = db_wakes (st_db st)
  /\ db_checkpoints (st_db st') = db_checkpoints (st_db st).
Proof. intros Hc Hr Hg Hs H. eapply call_without_authority; [exact Hc| |exact H]. by eapply superseded. Qed.
Lemma superseded_binding_writes_nothing_witness :
  exists r, head_row (st_db demo_st6) demo_world = Some r /\ (bd_Generation demo_binding < head_generation r)%N
  /\ db_tasks (st_db (perform (CallReconcile (demo_wake_exec 2)) demo_env demo_st7).2) = db_tasks (st_db demo_st7).
Proof.
  destruct (save_fences_the_world demo_binding _ _ _ _ _ _ _ demo_reachable5 demo_no_save demo_perform6)
    as (_ & (r0 & r & _ & Hr & Hh & _) & _).
  assert (bd_Generation demo_binding < head_generation r)%N as Hg by (unfold head_generation; rewrite Hh; vm_compute; reflexivity).
  destruct (perform (CallReconcile (demo_wake_exec 2)) demo_env demo_st7) as [o st'] eqn:E.
  destruct (superseded_binding_writes_nothing (CallReconcile (demo_wake_exec 2)) demo_binding _ _ _ _ _ _ eq_refl Hr Hg demo_step7 E)
    as [Ht _].
  exists r. split; [exact Hr|]. split; [exact Hg|exact Ht].
Defined.

(** C15: a call that fails changes nothing: whatever the driver or the context does to
    it, and wherever, a call that answers an error leaves tasks, wakes and checkpoints
    as they were, and every call but an activation leaves the heads as well. *)
Theorem failed_call_changes_nothing c env st e st' : perform c env st = (Err e, st') ->
  db_tasks (st_db st') = db_tasks (st_db st) /\ db_wakes (st_db st') = db_wakes (st_db st)
  /\ db_checkpoints (st_db st') = db_checkpoints (st_db st)
  /\ match c with CallActivateWorld _ _ _ _ => True | _ => st_db st' = st_db st end.
Proof.
  intros H. destruct (perform_err _ _ _ _ _ H) as (E1 & E2 & E3). split_and!; [done..|].
  pose proof (perform_atomic c) as Hat. destruct c; first [done|by eapply Hat].
Qed.
Lemma failed_call_changes_nothing_witness :
  exists e st', perform (CallReconcile (demo_wake_exec 2)) demo_env demo_st7 = (Err e, st') /\ st_db st' = st_db demo_st7.
Proof.
  destruct (perform (CallReconcile (demo_wake_exec 2)) demo_env demo_st7) as [ [u|e] st'] eqn:E.
  - assert (is_ok (perform (CallReconcile (demo_wake_exec 2)) demo_env demo_st7).1 = false) as H by (vm_compute; reflexivity).
    rewrite E in H. discriminate H.
  - exists e, st'. split; [reflexivity|]. apply (failed_call_changes_nothing _ _ _ _ _ E).
Defined.
