(* ===== verification/Replay.v ===== *)
(** * Answering a call twice

    The kernel keeps what it answered to a call with the row the call wrote.  A call
    that arrives again, under the same owner and call identity, gets the same answer
    and writes nothing. *)

From S2P Require Export Fences.

Local Open Scope go_scope.

#[local] Opaque Record_Validate sha256Hex marshalRecord marshalTaskSpec marshalCreateResult
  marshalHistory cloneRecord modelProgressJSON validateTaskMutationCapacity Wake_Validate.

(** ** The lookup by call identity *)
Definition create_key (r : TaskRecord) : intentCallKey := intentExactKey (sp_Source (r_Spec r)).

Lemma match_history_seen current target h seen found seen' found' :
  match_history current target h seen found = Ok (seen', found') ->
  seen ⊆ seen' /\ (target ∈ seen -> found' = found)
  /\ (forall res fp, found' = Some (MatchCreate res fp) -> found = Some (MatchCreate res fp)).
Proof.
  revert seen found. induction h as [|call h IH]; intros seen found H; cbn [match_history] in H; [by simplify_eq|].
  apply bind_ok in H as ([request response] & _ & H). apply fail_if_bind in H as [Hn H].
  apply IH in H as (H1 & H2 & H3). boolp. split_and!; [set_solver| |].
  - intros Ht. rewrite H2 by set_solver. by rewrite bool_decide_false by congruence.
  - intros res fp Hf. apply H3 in Hf. case_bool_decide; [done|done].
Qed.

Lemma match_rows_seen target rows seen found res : match_rows target rows seen found = Ok res ->
  target ∈ seen -> res = found.
Proof.
  revert seen found. induction rows as [|c rows IH]; intros seen found H Ht; cbn [match_rows] in H; [by simplify_eq|].
  apply bind_ok in H as (d & _ & H). apply fail_if_bind in H as [Hn H]. apply bind_ok in H as ([seen' found'] & Hh & H).
  boolp. apply match_history_seen in Hh as (H1 & H2 & _). apply IH in H; [|set_solver]. rewrite H, H2 by set_solver.
  by rewrite bool_decide_false by congruence.
Qed.
(** A created row under the key is the one the lookup answers with; and an answer comes
    from such a row. *)
Lemma match_rows_create target rows seen found res c d : match_rows target rows seen found = Ok res ->
  c ∈ rows -> decodeTaskRowColumns c = Ok d -> create_key (dt_record d) = target ->
  res = Some (MatchCreate (dt_create d) (dt_fingerprint d)).
Proof.
  revert seen found. induction rows as [|c' rows IH]; intros seen found H Hin Hd Hk; [by apply elem_of_nil in Hin|].
  cbn [match_rows] in H. apply bind_ok in H as (d' & Hd' & H). apply fail_if_bind in H as [Hn H].
  apply bind_ok in H as ([seen' found'] & Hh & H). apply elem_of_cons in Hin as [<-|Hin]; [|by eapply IH].
  assert (d' = d) as -> by congruence. apply match_history_seen in Hh as (H1 & H2 & _).
  unfold create_key in Hk. rewrite Hk in *. apply match_rows_seen in H; [|set_solver].
  rewrite H, H2 by set_solver. by rewrite bool_decide_true.
Qed.
Lemma match_rows_found target rows seen found r fp : match_rows target rows seen found = Ok (Some (MatchCreate r fp)) ->
  found = Some (MatchCreate r fp) \/ exists c d, c ∈ rows /\ decodeTaskRowColumns c = Ok d
    /\ create_key (dt_record d) = target /\ dt_create d = r /\ dt_fingerprint d = fp.
Proof.
  revert seen found. induction rows as [|c rows IH]; intros seen found H; cbn [match_rows] in H; [left; congruence|].
  apply bind_ok in H as (d & Hd & H). apply fail_if_bind in H as [Hn H].
  apply bind_ok in H as ([seen' found'] & Hh & H). apply IH in H as [->|(c' & d' & Hin & ?)].
  - apply match_history_seen in Hh as (_ & _ & H3). specialize (H3 r fp eq_refl). case_bool_decide as Hk; [|by left].
    injection H3 as <- <-. right. exists c, d. split; [by left|done].
  - right. exists c', d'. split; [by right|done].
Qed.

(** ** Creating twice *)
Lemma decodeCreateResponse_ok c r fp cr : decodeCreateResponse c r fp = Ok cr -> cr = initialCreateResult r.
Proof. unfold decodeCreateResponse. intros H. okinv H. done. Qed.

(** The task of [owner] created under the call [key], and what its creation answered. *)
Definition created_as (owner : AgentSessionKey) (key : intentCallKey) (res : CreateResult) (db : DB) : Prop :=
  exists c d, c ∈ owner_rows owner db /\ decodeTaskRowColumns c = Ok d
  /\ create_key (dt_record d) = key /\ dt_create d = res.
Lemma owner_row_decodes db owner c : intact db -> c ∈ owner_rows owner db ->
  exists k d, db_tasks db !! k = Some c /\ co_owner c = owner /\ decodeTaskRowColumns c = Ok d
  /\ dt_record d = co_recordJSON c /\ dt_create d = initialCreateResult (co_recordJSON c).
Proof.
  intros [Hwf _] (Ho & k & Hk)%rows_where_elem. boolp. destruct (Hwf _ _ Hk) as [_ Hcan Hh [d Hd] ].
  destruct (decode_canonical _ _ Hcan Hh Hd) as [E _ _ _ _ _ (cr & Hcr%decodeCreateResponse_ok & Ec) _].
  exists k, d. split_and!; try done. congruence.
Qed.
Lemma owner_rows_intro db k c : db_tasks db !! k = Some c -> c ∈ owner_rows (co_owner c) db.
Proof. intros H. apply rows_where_elem. split; [by rewrite bool_decide_true|eauto]. Qed.

Lemma initial_same r r' : same_identity r r' -> initialCreateResult r' = initialCreateResult r.
Proof. intros [E1 E2 E3 E4 E5]. unfold initialCreateResult. by rewrite E1, E2, E3, E4, E5. Qed.
Lemma created_as_run owner key res db db' : intact db -> tasks_evolve db db' -> intact db' ->
  created_as owner key res db -> created_as owner key res db'.
Proof.
  intros Hi [_ Hev] Hi' (c & d & Hin & Hd & Hk & Hr).
  destruct (owner_row_decodes _ _ _ Hi Hin) as (k & d0 & Hc & Ho & Hd0 & E1 & E2).
  assert (d0 = d) as -> by congruence. destruct (Hev _ _ Hc) as (c' & Hc' & [Hid _ _ _ _ _ _]).
  assert (co_owner c' = owner) as Ho'.
  { pose proof (tasks_wf_keyed _ (proj1 Hi) _ _ Hc) as K1. pose proof (tasks_wf_keyed _ (proj1 Hi') _ _ Hc') as K2.
    unfold task_key in *. congruence. }
  apply owner_rows_intro in Hc'. rewrite Ho' in Hc'.
  destruct (owner_row_decodes _ _ _ Hi' Hc') as (k' & d' & _ & _ & Hd' & E3 & E4). exists c', d'.
  split_and!; [done|done| |].
  - rewrite <- Hk. unfold create_key. by rewrite E3, E1, (si_spec _ _ Hid).
  - by rewrite <- Hr, E4, E2, (initial_same _ _ Hid).
Qed.

Lemma loadExactCreateTx_ok owner source fp env st o st' : loadExactCreateTx owner source fp env st = (Ok o, st') ->
  st_db st' = st_db st
  /\ (forall res, o = Some res -> created_as owner (intentExactKey source) res (st_db st))
  /\ (forall res, created_as owner (intentExactKey source) res (st_db st) -> o = Some res).
Proof.
  intros H. unfold loadExactCreateTx, loadOwnerCallIdentityTx in H. minv H.
  match goal with H : match_rows _ _ _ _ = Ok ?x |- _ => rename H into Hm; rename x into found end.
  assert (forall res, created_as owner (intentExactKey source) res (st_db st) ->
    exists fp, found = Some (MatchCreate res fp)) as Hc.
  { intros res (c & d & Hin & Hd & Hk & <-). exists (dt_fingerprint d). by eapply match_rows_create. }
  destruct found as [ [r stored|call response]|].
  - destruct (stored == fp); [|by minv H]. minv H. split_and!; [done| |].
    + intros res [= <-]. apply match_rows_found in Hm as [Hm|(c & d & ? & ? & ? & ? & _)]; [done|]. by exists c, d.
    + intros res [fp' Hfp]%Hc. congruence.
  - by minv H.
  - minv H. split_and!; [done..|]. intros res [fp' Hfp]%Hc. done.
Qed.

Lemma created_as_rows owner key res db db' : db_tasks db' = db_tasks db ->
  created_as owner key res db -> created_as owner key res db'.
Proof. intros E (c & d & Hin & ?). exists c, d. unfold owner_rows, rows_where in *. by rewrite E. Qed.

Lemma create_tx_replayed exec spec adm fp prepared res res' env st st' :
  created_as (ex_Owner exec) (intentExactKey (ex_Source exec)) res (st_db st) ->
  create_tx exec spec adm fp prepared env st = (Ok res', st') -> res' = res /\ rows_same (st_db st) (st_db st').
Proof.
  intros Hc H. unfold create_tx in H. apply M_bind_ok in H as (head & st1 & Hl & H).
  apply loaded_same_head in Hl as (_ & E1 & E2 & E3). apply M_bind_ok in H as (u & st2 & [_ ->]%lift_ok & H).
  apply M_bind_ok in H as (o & st3 & Hex & H). apply loadExactCreateTx_ok in Hex as (E & _ & Ho).
  rewrite (Ho res) in H by by eapply created_as_rows. minv H. split; [done|]. by rewrite E.
Qed.
Lemma prepared_created limit exec spec spec' now id w p created :
  cloneTaskSpec spec = Some spec' -> validateOwner (ex_Owner exec) = Ok tt ->
  prepare_create limit (new_record id exec spec' now) w = Ok (p, created) ->
  created = initialCreateResult (pc_record p) /\ pc_record p = new_record id exec spec' now.
Proof.
  intros Hs Ho (E & _ & _ & _ & _ & _ & Hb & Hcl)%prepare_create_ok. rewrite E. split; [|done].
  assert (cr_Task (initialCreateResult (new_record id exec spec' now)) = new_record id exec spec' now) as Et by done.
  rewrite Et in Hcl. apply canonical_clone in Hcl; [|by eapply new_record_canonical]. destruct created as [t b].
  cbn in *. by subst.
Qed.
Lemma create_tx_created exec spec spec' adm fp limit now id w res env st st' :
  intact (st_db st) -> intact (st_db st') -> cloneTaskSpec spec = Some spec' -> intentExactKey (sp_Source spec') = intentExactKey (ex_Source exec) ->
  validateOwner (ex_Owner exec) = Ok tt ->
  create_tx exec spec' adm fp (prepare_create limit (new_record id exec spec' now) w) env st = (Ok res, st') ->
  cr_Created res = true -> created_as (ex_Owner exec) (intentExactKey (ex_Source exec)) res (st_db st').
Proof.
  intros Hi Hi' Hs Hsrc Hown H Hb. unfold create_tx in H. apply M_bind_ok in H as (head & st1 & Hl & H).
  apply loaded_same_head in Hl as (_ & E1 & E2 & E3). apply M_bind_ok in H as (u & st2 & [_ ->]%lift_ok & H).
  apply M_bind_ok in H as (o & st3 & Hex & H). apply loadExactCreateTx_ok in Hex as (E & Ho & _). destruct o as [r|].
  { minv H. specialize (Ho r eq_refl). eapply created_as_rows, Ho. by rewrite E. }
  apply M_bind_ok in H as (o & st4 & He & H). apply read_only in He as Ee. destruct o as [task|]; [minv H; done|].
  minv H. match goal with H : prepare_create _ _ _ = Ok (?p, _) |- _ => rename p into p; destruct (prepared_created _ _ _ _ _ _ _ _ _ Hs Hown H) as [-> Ep] end.
  match goal with H : insertTaskAndWakeTx _ _ _ = _ |- _ => apply insertTaskAndWakeTx_ok in H as (_ & _ & _ & _ & _ & Hdb) end.
  lazymatch goal with |- created_as _ _ _ (st_db ?s) => rename s into st' end.
  assert (db_tasks (st_db st') !! task_key (create_columns p) = Some (create_columns p)) as Hrow.
  { rewrite Hdb. cbn [with_wakes with_tasks db_tasks]. by rewrite lookup_insert_eq. }
  apply owner_rows_intro in Hrow. cbn [create_columns co_owner] in Hrow. rewrite Ep in Hrow. cbn [new_record r_Owner] in Hrow.
  destruct (owner_row_decodes _ _ _ Hi' Hrow) as (k & d & _ & _ & Hd & D1 & D2). exists (create_columns p), d.
  split_and!; [done|done| |by rewrite D2]. unfold create_key. rewrite D1. cbn [create_columns co_recordJSON]. rewrite Ep.
  cbn [new_record r_Spec]. by rewrite Hsrc.
Qed.

Lemma clone_spec_key s s' : cloneTaskSpec s = Some s' -> intentExactKey (sp_Source s') = intentExactKey (sp_Source s).
Proof. unfold cloneTaskSpec. intros H. opt_inv H. unfold cloneSourceRef in *. opt_inv Hx0. done. Qed.

Lemma Create_created exec spec adm env st res st' :
  intact (st_db st) -> intentExactKey (sp_Source spec) = intentExactKey (ex_Source exec) ->
  Create exec spec adm env st = (Ok res, st') -> cr_Created res = true ->
  created_as (ex_Owner exec) (intentExactKey (ex_Source exec)) res (st_db st').
Proof.
  intros Hi Hsrc H Hb. assert (intact (st_db st')) as Hi'.
  { eapply sound_intact, (sound_of (Create exec spec adm)); [apply Create_effect|apply Create_topology|exact Hi|exact H]. }
  unfold Create, maxTaskBytes in H. minv H.
  match goal with H : validateService _ _ = _ |- _ => apply read_only in H as E0 end.
  match goal with H : validateCreateInput _ _ _ = Ok _ |- _ => rename H into Hin end.
  apply tx_ok in H as (s1 & s2 & E1 & H & E2). rewrite E2 in Hi' |- *. cbn [tick st_db] in E1.
  match goal with H : cloneTaskSpec _ = Some _ |- _ => rename H into Hcl; pose proof (clone_spec_key _ _ Hcl) as Hkey end.
  eapply create_tx_created; [by rewrite E1, E0|exact Hi'|exact Hcl|congruence| |exact H|done].
  unfold validateCreateInput, ExecutionContext_Validate in Hin. okinv Hin. by eapply unit_ok.
Qed.
Lemma Create_replayed exec spec adm res res' env st st' :
  created_as (ex_Owner exec) (intentExactKey (ex_Source exec)) res (st_db st) ->
  Create exec spec adm env st = (Ok res', st') -> res' = res /\ rows_same (st_db st) (st_db st').
Proof.
  intros Hc H. unfold Create, maxTaskBytes in H. minv H.
  match goal with H : validateService _ _ = _ |- _ => apply read_only in H as E0 end.
  apply tx_ok in H as (s1 & s2 & E1 & H & ->). cbn [tick st_db] in E1.
  assert (st_db s1 = st_db st) as E by congruence. rewrite <- E in Hc |- *.
  by eapply create_tx_replayed.
Qed.

Lemma run_intact db db' : intact db -> run db db' -> intact db'.
Proof.
  intros Hi H. induction H as [|db db1 db' [c env n o st' db0 Hf Hp] _ IH]; [done|].
  apply IH. exact (perform_keeps c env (mkSt db0 n) o st' Hi Hp).
Qed.
Lemma Create_intact exec spec adm env st o st' : intact (st_db st) -> Create exec spec adm env st = (o, st') -> intact (st_db st').
Proof. intros Hi H. eapply sound_intact, (sound_of (Create exec spec adm)); [apply Create_effect|apply Create_topology|exact Hi|exact H]. Qed.
