(* ===== verification/Claiming.v ===== *)
(** * What a claim claims

    [ClaimDue] takes the earliest due wakes of its world, as many as the batch allows,
    and turns each of them, and nothing else, into a claim of the caller. *)

From S2P Require Export Fences.

Local Open Scope go_scope.

#[local] Opaque Record_Validate sha256Hex marshalRecord marshalTaskSpec marshalCreateResult
  marshalHistory cloneRecord modelProgressJSON validateTaskMutationCapacity Wake_Validate.

Lemma fresh_ids_ok p n seen env st l st' : fresh_ids p n seen env st = (Ok l, st') ->
  length l = n /\ NoDup l /\ forall i, i ∈ l -> i ∉ seen.
Proof.
  revert seen st l st'. induction n as [|n IH]; intros seen st l st' H; cbn [fresh_ids] in H.
  { minv H. split_and!; [done|constructor|]. by intros i ?%elem_of_nil. }
  apply M_bind_ok in H as (id & st1 & _ & H). apply M_bind_ok in H as (u & st2 & _ & H).
  apply M_bind_ok in H as (u' & st3 & [Hs%fail_if_ok _]%lift_ok & H).
  apply M_bind_ok in H as (rest & st4 & Hr & [-> _]%ret_ok). apply IH in Hr as (H1 & H2 & H3). boolp.
  split_and!; [by cbn; rewrite H1|constructor; [|done]|].
  - intros Hin. apply (H3 _ Hin). set_solver.
  - intros i [->|Hi]%elem_of_cons; [done|]. specialize (H3 _ Hi). set_solver.
Qed.

(** One candidate and the claim it became. *)
Record claim_of (claimant : string) (db db' : DB) (d : durableWake) (w : Wake) : Prop := {
  co_claim : exists i, w = claimed_wake i claimant (dw_wake d);
  co_stored : exists c, db_wakes db !! w_ID (dw_wake d) = Some c /\ wr_indexed c = dw_wake d
    /\ db_wakes db' !! w_ID (dw_wake d) = Some (wake_row (wr_clockID c) w)
}.
Lemma claims_from claimant db db1 db' id x l ws : db_wakes db1 = <[id := x]> (db_wakes db) ->
  id ∉ (w_ID ∘ dw_wake <$> l) -> Forall2 (claim_of claimant db1 db') l ws -> Forall2 (claim_of claimant db db') l ws.
Proof.
  intros E Hid F. induction F as [|d w l ws [F1 (c & F2 & F3 & F4)] _ IH]; constructor.
  - split; [done|]. exists c. split_and!; [|done..]. rewrite E, lookup_insert_ne in F2; [done|].
    intros ->. apply Hid. rewrite fmap_cons. by left.
  - apply IH. intros Hin. apply Hid. rewrite fmap_cons. by right.
Qed.
Lemma claim_each_ok claimant l ids env st ws st' :
  NoDup (w_ID ∘ dw_wake <$> l) -> length l <= length ids -> claim_each claimant l ids env st = (Ok ws, st') ->
  Forall2 (claim_of claimant (st_db st) (st_db st')) l ws /\ w_ClaimID <$> ws = take (length l) ids
  /\ db_tasks (st_db st') = db_tasks (st_db st)
  /\ forall id, id ∉ (w_ID ∘ dw_wake <$> l) -> db_wakes (st_db st') !! id = db_wakes (st_db st) !! id.
Proof.
  revert ids st ws. induction l as [|d l IH]; intros ids st ws Hnd Hlen H; cbn [claim_each] in H.
  { minv H. by split_and!. }
  destruct ids as [|i ids]; [cbn in Hlen; lia|]. cbn [length] in Hlen. rewrite fmap_cons in Hnd. apply NoDup_cons in Hnd as [Hd Hnd].
  apply M_bind_ok in H as (u & st1 & [_ ->]%lift_ok & H). apply M_bind_ok in H as (u1 & st2 & Hup & H).
  apply M_bind_ok in H as (rest & st3 & Hr & [-> ->]%ret_ok).
  apply updateWakeCASTx_ok in Hup as (_ & _ & _ & _ & c & Hc & Hci & _ & E).
  apply IH in Hr as (F & Hids & Et & Hout); [|done|lia].
  split_and!.
  - constructor.
    + split; [by eexists|]. exists c. split_and!; [done|done|]. rewrite Hout by done. rewrite E. cbn [with_wakes db_wakes].
      by rewrite lookup_insert_eq.
    + eapply claims_from; [|exact Hd|exact F]. by rewrite E.
  - rewrite fmap_cons, Hids. done.
  - by rewrite Et, E.
  - intros id Hid. rewrite fmap_cons, elem_of_cons in Hid. rewrite Hout, E by tauto. cbn [with_wakes db_wakes].
    rewrite lookup_insert_ne; [done|]. intros Heq. apply Hid. by left.
Qed.

(** ** The order of claims *)
Lemma strict_total_on_then_key {A} (key : A -> string) less (l : list A) : strict_total_on less l ->
  strict_total_on (fun a b => if key a != key b then str_lt (key a) (key b) else less a b) l.
Proof.
  intros [H1 H2 H3]. split.
  - intros x Hx. rewrite bool_decide_true by done. by apply H1.
  - intros x y z Hx Hy Hz A1 A2. destruct (decide (key x = key y)) as [E1|N1], (decide (key y = key z)) as [E2|N2].
    + rewrite bool_decide_true in A1 |- * by congruence. rewrite bool_decide_true in A2 by congruence. by eapply (H2 x y z).
    + rewrite (bool_decide_false (key y = _)) in A2 by done. rewrite (bool_decide_false (key x = key z)) by congruence. cbn. by rewrite E1.
    + rewrite (bool_decide_false (key x = _)) in A1 by done. rewrite (bool_decide_false (key x = key z)) by congruence. cbn. by rewrite <- E2.
    + rewrite (bool_decide_false (key x = _)) in A1 by done. rewrite (bool_decide_false (key y = _)) in A2 by done. cbn in A1, A2.
      pose proof (str_lt_trans _ _ _ A1 A2) as A3. rewrite bool_decide_false; [done|].
      intros E. rewrite E in A3. by rewrite str_lt_irrefl in A3.
  - intros x y Hx Hy Hne. destruct (decide (key x = key y)) as [E|N].
    + rewrite !bool_decide_true by done. by apply H3.
    + rewrite !bool_decide_false by done. cbn. by apply str_lt_total.
Qed.
Lemma due_less_total (l : list wakeRow) : NoDup (w_ID ∘ wr_indexed <$> l) -> strict_total_on due_less l.
Proof.
  intros Hnd. unfold due_less. apply strict_total_on_then_by; [by left|].
  apply (strict_total_on_then_key (fun c => EntityID (w_Owner (wr_indexed c)))
    (fun a b => if w_TaskID (wr_indexed a) != w_TaskID (wr_indexed b)
                then str_lt (w_TaskID (wr_indexed a)) (w_TaskID (wr_indexed b))
                else str_lt (w_ID (wr_indexed a)) (w_ID (wr_indexed b)))).
  apply (strict_total_on_then_key (fun c => w_TaskID (wr_indexed c))
    (fun a b => str_lt (w_ID (wr_indexed a)) (w_ID (wr_indexed b)))).
  by apply (strict_total_on_key (fun c => w_ID (wr_indexed c))).
Qed.
Lemma due_less_tick a b : due_less a b = true -> (w_DueTick (wr_indexed a) <= w_DueTick (wr_indexed b))%Z.
Proof. unfold due_less. rewrite then_by_true by (by left). intros [H%Z.ltb_lt|[H _] ]; lia. Qed.

(** The rows of a table by id, filtered, have distinct ids. *)
Lemma wakes_where_ids p less db : wakes_keyed db -> NoDup (w_ID ∘ wr_indexed <$> wakes_where p less db).
Proof.
  intros Hk. unfold wakes_where. rewrite sort_slice_perm.
  assert (w_ID ∘ wr_indexed <$> (map_to_list (db_wakes db)).*2 = (map_to_list (db_wakes db)).*1) as E.
  { rewrite <- list_fmap_compose. apply list_fmap_ext. intros i [id c] Hin%list_elem_of_lookup_2%elem_of_map_to_list. by apply Hk. }
  pose proof (NoDup_fst_map_to_list (db_wakes db)) as Hnd. rewrite <- E in Hnd. revert Hnd.
  generalize ((map_to_list (db_wakes db)).*2). intros l Hnd. induction l as [|c l IH]; [constructor|].
  rewrite fmap_cons in Hnd. apply NoDup_cons in Hnd as [Hc Hnd]. simpl. destruct (p c); [|by apply IH].
  rewrite fmap_cons. constructor; [|by apply IH]. intros (x & Ex & Hx)%list_elem_of_fmap. apply elem_of_bfilter in Hx as [Hx _].
  apply Hc. rewrite Ex. by apply list_elem_of_fmap_2.
Qed.

(** What a claim of at most [limit] wakes does. *)
Record claims (head : worldHeadRow) (clock : Clock) (now : Z) (claimant : string) (batch : nat) (ws : list Wake)
    (db db' : DB) : Prop := {
  cs_claimed : forall w, w ∈ ws -> exists c i, db_wakes db !! w_ID w = Some c /\ is_due head clock now c = true
    /\ w = claimed_wake i claimant (wr_indexed c) /\ db_wakes db' !! w_ID w = Some (wake_row (wr_clockID c) w);
  cs_distinct : NoDup (w_ID <$> ws) /\ NoDup (w_ClaimID <$> ws) /\ length ws <= batch;
  cs_rest : forall id, id ∉ (w_ID <$> ws) -> db_wakes db' !! id = db_wakes db !! id;
  cs_tasks : db_tasks db' = db_tasks db;
  cs_earliest : forall id c, db_wakes db !! id = Some c -> is_due head clock now c = true -> id ∉ (w_ID <$> ws) ->
    length ws = batch /\ forall w, w ∈ ws -> (w_DueTick w <= w_DueTick (wr_indexed c))%Z
}.

Lemma strongly_sorted_take {A} (R : A -> A -> Prop) n l x y :
  StronglySorted R l -> x ∈ take n l -> y ∈ drop n l -> R x y.
Proof.
  revert n. induction l as [|z l IH]; intros n HS Hx Hy; [by destruct n; apply elem_of_nil in Hx|].
  destruct n as [|n]; [by apply elem_of_nil in Hx|]. cbn [take drop] in *. apply StronglySorted_inv in HS as [HS HF].
  apply elem_of_cons in Hx as [->|Hx]; [|by eapply IH]. rewrite Forall_forall in HF. apply HF.
  rewrite <- (take_drop n l), elem_of_app. by right.
Qed.

Section claims.
Context (head : worldHeadRow) (clock : Clock) (now : Z) (claimant : string) (batch : nat) (l : list durableWake).
Context (ws : list Wake) (db db' : DB).
Context (Hkeyed : wakes_keyed db).
Context (Hdue : dw_wake <$> l = wr_indexed <$> due_rows head clock now batch db).
Context (Hclaims : Forall2 (claim_of claimant db db') l ws).

Lemma due_length : length l = length (due_rows head clock now batch db).
Proof using Hdue. rewrite <- (length_fmap dw_wake), Hdue. apply length_fmap. Qed.
Lemma due_ids : w_ID ∘ dw_wake <$> l = w_ID ∘ wr_indexed <$> due_rows head clock now batch db.
Proof using Hdue. by rewrite !list_fmap_compose, Hdue. Qed.
Lemma due_ids_distinct : NoDup (w_ID ∘ dw_wake <$> l).
Proof using Hkeyed Hdue.
  rewrite due_ids. unfold due_rows. rewrite fmap_take.
  pose proof (wakes_where_ids (is_due head clock now) due_less db Hkeyed) as H.
  rewrite <- (take_drop batch (w_ID ∘ wr_indexed <$> _)) in H. by apply NoDup_app in H as [? _].
Qed.
Lemma claim_ids : w_ID <$> ws = w_ID ∘ dw_wake <$> l.
Proof using Hclaims.
  revert Hclaims. clear. induction 1 as [|d w l0 ws0 [ [i ->] _] _ IH]; [done|]. by rewrite !fmap_cons, IH.
Qed.
Lemma due_rows_split id c : db_wakes db !! id = Some c -> is_due head clock now c = true -> id ∉ (w_ID <$> ws) ->
  length l = batch /\ forall x, x ∈ due_rows head clock now batch db -> due_less x c = true.
Proof using Hkeyed Hdue Hclaims.
  intros Hc Hd Hn. rewrite due_length. unfold due_rows. set (all := wakes_where (is_due head clock now) due_less db).
  assert (c ∈ all) as Hin by (apply wakes_where_elem; eauto).
  rewrite <- (take_drop batch all), elem_of_app in Hin. destruct Hin as [Hin|Hin].
  - destruct Hn. rewrite claim_ids, due_ids. rewrite <- (Hkeyed _ _ Hc).
    exact (list_elem_of_fmap_2 (w_ID ∘ wr_indexed) _ _ Hin).
  - split.
    + rewrite length_take. destruct (decide (length all <= batch)) as [Hle|]; [|lia].
      rewrite drop_ge in Hin by lia. by apply elem_of_nil in Hin.
    + intros x Hx. eapply (strongly_sorted_take (fun a b => due_less a b = true)); [|exact Hx|exact Hin].
      subst all. unfold wakes_where. set (m := List.filter _ _).
      assert (NoDup (w_ID ∘ wr_indexed <$> m)) as Hm.
      { pose proof (wakes_where_ids (is_due head clock now) due_less db Hkeyed) as H. unfold wakes_where in H.
        by rewrite sort_slice_perm in H. }
      apply sort_slice_sorted; [by apply due_less_total|by eapply NoDup_fmap_1].
Qed.
Lemma claims_intro ids : w_ClaimID <$> ws = take (length l) ids -> NoDup ids -> db_tasks db' = db_tasks db ->
  (forall id, id ∉ (w_ID ∘ dw_wake <$> l) -> db_wakes db' !! id = db_wakes db !! id) ->
  claims head clock now claimant batch ws db db'.
Proof using Hkeyed Hdue Hclaims.
  intros Hids Hnd Ht Hrest. assert (length ws = length l) as Elen by (symmetry; by eapply Forall2_length).
  assert (forall w, w ∈ ws -> exists d, d ∈ l /\ claim_of claimant db db' d w) as Hof.
  { intros w [i Hi]%list_elem_of_lookup. destruct (Forall2_lookup_r _ _ _ _ _ Hclaims Hi) as (d & Hd & Hc).
    exists d. split; [by eapply list_elem_of_lookup_2|done]. }
  assert (forall d, d ∈ l -> exists c, c ∈ due_rows head clock now batch db /\ wr_indexed c = dw_wake d) as Hrow.
  { intros d Hd. apply (list_elem_of_fmap_2 dw_wake) in Hd. rewrite Hdue in Hd.
    apply list_elem_of_fmap in Hd as (c & -> & Hc). by exists c. }
  split; [..|by rewrite claim_ids|done|].
  - intros w Hw. destruct (Hof w Hw) as (d & Hd & [ [i ->] (c & Hc & Hci & Hc')]). exists c, i.
    destruct (Hrow d Hd) as (c' & Hc2 & Ei). apply due_rows_due in Hc2 as [Hisdue (id & Hid)].
    assert (id = w_ID (dw_wake d)) as -> by (rewrite <- Ei; symmetry; by apply Hkeyed).
    assert (c' = c) as -> by congruence. rewrite Hci. split_and!; done.
  - split_and!.
    + rewrite claim_ids. apply due_ids_distinct.
    + rewrite Hids. rewrite <- (take_drop (length l) ids) in Hnd. by apply NoDup_app in Hnd as [? _].
    + rewrite Elen, due_length. unfold due_rows. rewrite length_take. lia.
  - intros id c Hc Hd Hn. destruct (due_rows_split id c Hc Hd Hn) as [Hlen Hless]. split; [congruence|].
    intros w Hw. destruct (Hof w Hw) as (d & Hdl & [ [i ->] _]). destruct (Hrow d Hdl) as (x & Hx & Ex).
    apply Hless, due_less_tick in Hx. by rewrite Ex in Hx.
Qed.
End claims.

Lemma claims_head head head' clock now claimant batch ws db db' : wh_Head head = wh_Head head' ->
  claims head clock now claimant batch ws db db' -> claims head' clock now claimant batch ws db db'.
Proof.
  intros E. assert (is_due head' = is_due head) as Ed by (by destruct head, head'; simpl in E; subst).
  intros []. split; rewrite ?Ed; done.
Qed.
Lemma claims_from_same head clock now claimant batch ws db0 db db' :
  rows_same db0 db -> claims head clock now claimant batch ws db db' -> claims head clock now claimant batch ws db0 db'.
Proof. intros (E1 & E2 & _) []. split; rewrite <- ?E1, <- ?E2; done. Qed.

Lemma wake_world_ok b env st head st' : wake_world b env st = (Ok head, st') ->
  exists r, head_row (st_db st) (bd_World b) = Some r /\ wh_Head head = wh_Head r /\ carries r b
  /\ rows_same (st_db st) (st_db st').
Proof.
  intros H. unfold wake_world in H. minv H.
  match goal with H : loadWorldHeadForMutationTx _ _ _ = _ |- _ => apply loaded_same_head in H as ((r & Hr & E) & E1 & E2 & E3) end.
  exists r. split_and!; try done. unfold carries. rewrite <- E.
  match goal with H : validateWakeWorldAuthority _ _ _ = _ |- _ => unfold validateWakeWorldAuthority in H; okinv H end.
  by boolp.
Qed.
Lemma ClaimDue_claims b clock limit env st ws st' : intact (st_db st) ->
  ClaimDue b clock limit env st = (Ok ws, st') ->
  exists head now, head_row (st_db st) (bd_World b) = Some head /\ carries head b /\ hd_Clock (wh_Head head) = clock
  /\ claims head clock now (e_claimantID env) (Z.to_nat (Z.min limit (MaxTasksPerWorld (e_options env)))) ws
       (st_db st) (st_db st').
Proof.
  intros Hi H. unfold ClaimDue in H. minv H.
  match goal with H : validateService _ _ = _ |- _ => apply read_only in H as E0 end.
  match goal with H : fresh_ids _ _ _ _ _ = _ |- _ => apply fresh_ids_ok in H as F; destruct F as (Flen & Fnd & _); apply read_only in H as E1 end.
  apply tx_ok in H as (s1 & s2 & E2 & H & ->). cbn [tick st_db] in E2. assert (st_db s1 = st_db st) as E by congruence.
  rewrite <- E in Hi |- *. clear E E2 E1 E0. apply M_bind_ok in H as (head & s3 & Hw & H).
  apply wake_world_ok in Hw as (r & Hhd & Eh & Hcar & Hsame). exists r, (e_now env (st_step st1)).
  apply M_bind_ok in H as (cl & s4 & [-> ->]%ask_ok & H). apply M_bind_ok in H as (u & s5 & [Hk ->]%lift_ok & H).
  apply M_bind_ok in H as (ds & s6 & Hds & H). split; [done|]. split; [done|].
  assert (intact (st_db s3)) as Hi3 by (eapply intact_same, Hi; apply Hsame).
  apply loadDueWakeCandidatesTx_ok in Hds as (E & Hdue & _); [|apply Hi3]. rewrite <- E in Hdue. split.
  - unfold validateExactWakeClock in Hk. okinv Hk. rewrite <- Eh. by boolp.
  - eapply claims_from_same; [etrans; [exact Hsame|by rewrite <- E]|]. eapply claims_head; [exact Eh|].
    assert (wakes_keyed (st_db s6)) as Hkey by (rewrite E; apply wakes_ok_keyed, tp_wakes, Hi3).
    destruct (limit =? 0)%Z eqn:Hz.
    + apply ret_ok in H as [-> ->]. apply Z.eqb_eq in Hz as ->.
      assert (Z.to_nat (0 `min` MaxTasksPerWorld (e_options env)) = 0) as -> by lia.
      split; [by intros w ?%elem_of_nil| |done|done|].
      * split_and!; [constructor..|done].
      * intros id c _ _ _. split; [done|]. by intros w ?%elem_of_nil.
    + apply claim_each_ok in H as (F & Hids & Ht & Hrest).
      * by eapply claims_intro.
      * by eapply due_ids_distinct.
      * rewrite Flen, (due_length _ _ _ _ _ _ Hdue). unfold due_rows. rewrite length_take. lia.
Qed.

(** ** What a begin begins *)
Definition begins (b : Binding) (wakeID claimID claimant : string) (exec : ExecutionContext) (r : TaskRecord)
    (db db' : DB) : Prop :=
  exists head c row, head_row db (bd_World b) = Some head /\ carries head b
  /\ db_wakes db !! wakeID = Some c /\ db_tasks db !! wake_task (wr_indexed c) = Some row
  /\ w_Status (wr_indexed c) = wakeStatusEnqueued /\ w_ClaimID (wr_indexed c) = claimID
  /\ w_ClaimedBy (wr_indexed c) = claimant /\ (w_DueTick (wr_indexed c) <= ck_Tick (hd_Clock (wh_Head head)))%Z
  /\ r_State (co_recordJSON row) = StateWaiting
  /\ r_Revision (co_recordJSON row) = w_ExpectedRevision (wr_indexed c)
  /\ r = set_NextWakeAt None (set_Revision (r_Revision (co_recordJSON row) + 1)
           (set_State StateRunning (co_recordJSON row)))
  /\ exec = begin_context head r (wr_indexed c)
  /\ db_tasks db' = <[wake_task (wr_indexed c) := set_row_state None r row]> (db_tasks db)
  /\ db_wakes db' = <[wakeID := wake_row (wr_clockID c) (set_w_Status wakeStatusRunning (wr_indexed c))]> (db_wakes db).

(** The wake found under an id, its row and the row of its task. *)
Lemma found_wake head id env st d st' : intact (st_db st) -> findStrictWorldWakeTx head id env st = (Ok d, st') ->
  st_db st' = st_db st /\ exists c row, db_wakes (st_db st) !! id = Some c /\ wr_indexed c = dw_wake d
  /\ w_ID (dw_wake d) = id /\ db_tasks (st_db st) !! wake_task (dw_wake d) = Some row
  /\ co_recordJSON row = st_record (dw_record d) /\ loaded (st_db st) (dw_record d) row
  /\ row_key (st_record (dw_record d)) = wake_task (dw_wake d) /\ wake_fits (st_record (dw_record d)) (dw_wake d).
Proof.
  intros [Hwf Ht] H. apply findStrictWorldWakeTx_ok in H as (E & [_ Hfit]%relation_fits & Hk & (row & Hl) & c & Hc & Hs); [|done].
  split; [done|]. destruct (scanAdmissionWakeRow_ok c (dw_wake d) Hs) as [Ew _]. destruct (loaded_paired _ _ _ _ Hl Hk) as [Hrow Hrec].
  exists c, row. rewrite Ew in *. split_and!; try done. by apply (wakes_ok_keyed _ (tp_wakes _ Ht)).
Qed.
Lemma waiting_fits r w : wake_fits r w -> w_Status w = wakeStatusEnqueued ->
  r_State r = StateWaiting /\ r_Revision r = w_ExpectedRevision w.
Proof.
  intros (_ & _ & H) E. rewrite E in H. unfold wake_waits_for in H. boolp. destruct H as [H1 H2].
  split; [tauto|by apply N.eqb_eq].
Qed.

Lemma BeginWake_begins b wakeID claimID env st exec r st' : intact (st_db st) ->
  BeginWake b wakeID claimID env st = (Ok (exec, r), st') ->
  begins b wakeID claimID (e_claimantID env) exec r (st_db st) (st_db st').
Proof.
  intros Hi H. unfold BeginWake in H. apply M_bind_ok in H as (u & st1 & E0%read_only & H).
  apply M_bind_ok in H as (u1 & st2 & [_ ->]%lift_ok & H). apply M_bind_ok in H as ([exec0 r0] & st3 & H & H3).
  apply tx_ok in H as (s1 & s2 & E1 & H & E3). minv H3. rewrite <- E0, <- E1 in Hi |- *.
  apply M_bind_ok in H as (head & s3 & Hw & H). apply wake_world_ok in Hw as (hr & Hhd & Eh & Hcar & Hsame).
  minv H. simplify_eq. assert (intact (st_db s3)) as Hi3 by (eapply intact_same, Hi; apply Hsame).
  destruct Hsame as (Et & Ew & _).
  match goal with H : findStrictWorldWakeTx _ _ _ _ = (Ok ?x, _) |- _ => rename x into d;
    destruct (found_wake _ _ _ _ _ _ Hi3 H) as (E4 & c & row & Hc & Hci & Hid & Hrow & Hrec & Hl & Hk & Hfit) end.
  match goal with H : prepareBeginMutation _ _ _ = _ |- _ => apply prepareBeginMutation_ok in H as (_ & -> & -> & Hv & Hm) end.
  match goal with H : updateBeginRecordTx _ _ _ _ = _ |- _ => unfold updateBeginRecordTx, marshal_before in H; minv H end.
  assert (keyed (st_db st0)) as Hkey by (rewrite E4; apply tasks_wf_keyed, Hi3).
  match goal with H : update_row _ _ _ _ _ = _ |- _ =>
    destruct (update_row_ok _ _ _ _ _ _ _ Hkey H) as (row' & Hrow' & _ & _ & _ & E5) end.
  match goal with H : updateWakeCASTx _ _ _ _ = _ |- _ => apply updateWakeCASTx_ok in H as (_ & _ & _ & _ & c' & Hc' & _ & _ & E6) end.
  rewrite E3, E6, E5, E4 in *. cbn [with_tasks with_wakes db_tasks db_wakes] in *.
  assert (c' = c) as -> by congruence. rewrite Hk in *. assert (row' = row) as -> by congruence. boolp.
  exists hr, c, row. rewrite Hci, <- ?Et, <- ?Ew, Hrec.
  destruct (waiting_fits _ _ Hfit) as [W1 W2]; [tauto|].
  match goal with H : cloneRecord _ = Some _ |- _ => apply canonical_clone in H as -> end; cycle 1.
  { destruct (loaded_canonical _ _ _ Hl). by split. }
  cbn [with_tasks with_wakes db_tasks db_wakes]. 
  split_and!; try done; try tauto; [by rewrite <- Eh|]. unfold begin_context. by rewrite Eh.
Qed.
