(* ===== verification/Behaviour.v ===== *)
(** * What single calls do

    Functional specifications of creation, claiming and beginning, on every reachable
    store, each with an instance on the calls of Demo.v. *)

From S2P Require Export Replay Claiming.
From S2P Require Import Demo.

Local Open Scope go_scope.

#[local] Opaque Record_Validate sha256Hex marshalRecord marshalTaskSpec marshalCreateResult
  marshalHistory cloneRecord modelProgressJSON validateTaskMutationCapacity Wake_Validate.

(** ** Creation *)

(** A creation happens once: when [Create] has answered that it created a task, a
    later [Create] of the same owner under the same call identity, at any point of a run
    that restores no checkpoint and whatever specification, admission or binding it
    comes with, answers exactly the same, or an error, and writes no row. *)
Theorem create_happens_once exec spec admission env st res st1 exec' spec' admission' env' st2 res' st3 :
  reachable (st_db st) -> intentExactKey (sp_Source spec) = intentExactKey (ex_Source exec) ->
  Create exec spec admission env st = (Ok res, st1) -> cr_Created res = true ->
  run (st_db st1) (st_db st2) ->
  ex_Owner exec' = ex_Owner exec -> intentExactKey (ex_Source exec') = intentExactKey (ex_Source exec) ->
  Create exec' spec' admission' env' st2 = (Ok res', st3) ->
  res' = res /\ rows_same (st_db st2) (st_db st3).
Proof.
  intros Hr%reachable_intact Hkey H1 Hc Hrun Ho Hk H2. pose proof (Create_created _ _ _ _ _ _ _ Hr Hkey H1 Hc) as Has.
  pose proof (Create_intact _ _ _ _ _ _ _ Hr H1) as Hi1.
  eapply created_as_run in Has; [|exact Hi1|by apply run_evolves|by eapply run_intact].
  rewrite <- Ho, <- Hk in Has. by eapply Create_replayed.
Qed.
Definition no_result : CreateResult :=
  {| cr_Task := new_record "" demo_create_exec demo_spec 0; cr_Created := false |}.
Definition demo_creation : M CreateResult := Create demo_create_exec demo_spec demo_admission.
Definition demo_created : CreateResult := Eval vm_compute in answer no_result (demo_creation demo_env demo_st0).
Definition demo_created_st : St := Eval vm_compute in (demo_creation demo_env demo_st0).2.
Definition demo_again_st : St := Eval vm_compute in (demo_creation demo_env demo_created_st).2.
Lemma demo_creates : demo_creation demo_env demo_st0 = (Ok demo_created, demo_created_st).
Proof. vm_cast_no_check (@eq_refl (outcome error CreateResult * St) (Ok demo_created, demo_created_st)). Qed.
Lemma demo_creates_again : demo_creation demo_env demo_created_st = (Ok demo_created, demo_again_st).
Proof. vm_cast_no_check (@eq_refl (outcome error CreateResult * St) (Ok demo_created, demo_again_st)). Qed.
Lemma demo_reachable0 : reachable (st_db demo_st0).
Proof. apply rtc_once, demo_start. Qed.
Lemma create_happens_once_witness :
  cr_Created demo_created = true /\ rows_same (st_db demo_created_st) (st_db demo_again_st).
Proof.
  split; [reflexivity|].
  exact (proj2 (create_happens_once demo_create_exec demo_spec demo_admission _ _ _ _ demo_create_exec demo_spec demo_admission
    _ _ _ _ demo_reachable0 eq_refl demo_creates eq_refl (rtc_refl _ _) eq_refl eq_refl demo_creates_again)).
Defined.

(** ** Delivery *)

(** C19: a claim takes the earliest due wakes and nothing else: [ClaimDue] needs a ready
    head carrying the binding and exactly the given clock; it answers at most
    [min limit MaxTasksPerWorld] distinct wakes under distinct claim ids, each a wake that was
    due and is stored as claimed by the caller, its attempt counted; every other row is
    as it was; and a due wake is left out only when the batch is full of wakes due no
    later. *)
Theorem claim_takes_the_earliest_due b clock limit env st ws st' :
  reachable (st_db st) -> ClaimDue b clock limit env st = (Ok ws, st') ->
  exists head now, head_row (st_db st) (bd_World b) = Some head /\ carries head b /\ hd_Clock (wh_Head head) = clock
  /\ claims head clock now (e_claimantID env) (Z.to_nat (Z.min limit (MaxTasksPerWorld (e_options env)))) ws
       (st_db st) (st_db st').
Proof. intros Hr. by apply ClaimDue_claims, reachable_intact. Qed.
Definition demo_due_st : St := Eval vm_compute in demo_run demo_st1 [CallUpdateClock demo_binding demo_clock_later].
Lemma demo_due_reachable : reachable (st_db demo_due_st).
Proof.
  eapply run_reachable; [exact demo_reachable1|].
  apply (run_calls_run [CallUpdateClock demo_binding demo_clock_later]); [reflexivity|]. vm_cast_no_check (eq_refl (Some demo_due_st)).
Qed.
Definition demo_claim_due : M (list Wake) := ClaimDue demo_binding demo_clock_later 5.
Definition demo_claimed : list Wake := Eval vm_compute in answer [] (demo_claim_due demo_env demo_due_st).
Definition demo_claimed_st : St := Eval vm_compute in (demo_claim_due demo_env demo_due_st).2.
Lemma demo_claims : demo_claim_due demo_env demo_due_st = (Ok demo_claimed, demo_claimed_st).
Proof. vm_cast_no_check (@eq_refl (outcome error (list Wake) * St) (Ok demo_claimed, demo_claimed_st)). Qed.
Lemma claim_takes_the_earliest_due_witness :
  w_ID <$> demo_claimed = [demo_wake]
  /\ exists head now, claims head demo_clock_later now "runtime" 5 demo_claimed (st_db demo_due_st) (st_db demo_claimed_st).
Proof.
  split; [reflexivity|].
  destruct (claim_takes_the_earliest_due demo_binding demo_clock_later 5 _ _ _ _ demo_due_reachable demo_claims)
    as (head & now & _ & _ & _ & H).
  exists head, now. exact H.
Defined.

(** A begin starts exactly one run: [BeginWake] succeeds only on an enqueued, due
    wake of the caller's own claim, whose task waits at the revision the wake expects;
    the task then runs at the next revision with nothing else of its record changed,
    the wake runs, the context answered is that of the run, and no other row changes. *)
Theorem begin_starts_one_run b wakeID claimID env st exec r st' :
  reachable (st_db st) -> BeginWake b wakeID claimID env st = (Ok (exec, r), st') ->
  begins b wakeID claimID (e_claimantID env) exec r (st_db st) (st_db st').
Proof. intros Hr. by apply BeginWake_begins, reachable_intact. Qed.
Definition demo_begin : M (ExecutionContext * TaskRecord) := BeginWake demo_binding demo_wake demo_claim.
Definition demo_begun : ExecutionContext * TaskRecord := Eval vm_compute in
  answer (demo_create_exec, cr_Task no_result) (demo_begin demo_env demo_st4).
Definition demo_begun_st : St := Eval vm_compute in (demo_begin demo_env demo_st4).2.
Lemma demo_begins : demo_begin demo_env demo_st4 = (Ok demo_begun, demo_begun_st).
Proof. vm_cast_no_check (@eq_refl (outcome error (ExecutionContext * TaskRecord) * St) (Ok demo_begun, demo_begun_st)). Qed.
Lemma begin_starts_one_run_witness :
  r_State demo_begun.2 = StateRunning
  /\ begins demo_binding demo_wake demo_claim "runtime" demo_begun.1 demo_begun.2 (st_db demo_st4) (st_db demo_begun_st).
Proof.
  split; [reflexivity|].
  exact (begin_starts_one_run demo_binding demo_wake demo_claim _ _ _ _ _ demo_reachable4 demo_begins).
Defined.
