(* ===== verification/Lane.v ===== *)
(** * Execution lanes: [runtime/internal/session/lane.go]

    One lane per agent session runs the tasks of that session one at a time.  Player
    tasks queue in a bounded channel; one maintenance task may be pending besides.  The
    lane's mutex makes [Enqueue], [EnqueueMaintenance], [Close], [closeAdmission] and
    [dequeue] atomic with respect to each other, and the queue is read under the mutex
    only, so each of them is one step; the worker's other channel operations and its
    context checks are steps of their own.  The environment may cancel the context and
    close an [Admitted] channel at any time; a worker that selected a task waits in
    [waitAdmitted] until the task's channel is closed or the context cancelled.  The
    callbacks of a task return: a running task can finish. *)

From S2P Require Export Errors.

Local Open Scope go_scope.

Definition DefaultQueueSize : Z := 1.
Definition ErrLaneClosed : error := Opaque "execution lane is closed" None.
Definition ErrLaneFull : error := Opaque "execution lane queue is full" None.

Inductive AbortReason := AbortReasonConnectionClosed.

(** A task: its id and the name of its [Admitted] channel, [None] for a nil one.  The
    callbacks are the events [LStart] and [LAbort] of the trace; a nil callback is one
    that does nothing. *)
Record Task := { lt_ID : string; lt_Admitted : option nat }.
#[export] Instance Task_eq_dec : EqDecision Task.
Proof. solve_decision. Defined.

(** Where the worker goroutine stands. *)
Inductive worker :=
| WTop                  (** at the head of the loop, before [ctx.Err()] *)
| WDequeue              (** before [dequeue] *)
| WIdle                 (** in the select on [ctx.Done()] and [ready] *)
| WSelected (t : Task)  (** in [waitAdmitted] *)
| WAdmitted (t : Task)  (** before the second [ctx.Err()] *)
| WReady (t : Task)     (** before [task.run] *)
| WRunning (t : Task)
| WDropped (t : Task)   (** before [task.abort] and the return *)
| WClosing              (** before [closeAdmission] *)
| WDrain                (** before [dequeue] in [drainQueued] *)
| WDrained (t : Task)   (** before [task.abort] in [drainQueued] *)
| WDone.
#[export] Instance worker_eq_dec : EqDecision worker.
Proof. solve_decision. Defined.

Record ExecutionLane := mkLane {
  ln_cancelled : bool; ln_queueSize : Z; ln_queue : list Task; ln_ready : bool; ln_closed : bool;
  ln_maintenance : option Task; ln_activeMaintenance : bool; ln_worker : worker
}.

Definition NewExecutionLane (parent_cancelled : bool) (queueSize : Z) : outcome error ExecutionLane :=
  _ ← fail_if (queueSize <=? 0)%Z (Opaque "queue size must be positive" None);
  Ok (mkLane parent_cancelled queueSize [] false false None false WTop).

Definition ln_capacity (l : ExecutionLane) : Z := ln_queueSize l + 1.

(** [Enqueue].  [None] would be a send that blocks with the mutex held. *)
Definition Enqueue (t : Task) (l : ExecutionLane) : option (outcome error unit * ExecutionLane) :=
  if ln_closed l || ln_cancelled l then Some (Err ErrLaneClosed, l) else
  let limit := (if ln_activeMaintenance l then ln_queueSize l + 1 else ln_queueSize l)%Z in
  if (limit <=? Z.of_nat (length (ln_queue l)))%Z then Some (Err ErrLaneFull, l) else
  if (ln_capacity l <=? Z.of_nat (length (ln_queue l)))%Z then None else
  Some (Ok tt, mkLane (ln_cancelled l) (ln_queueSize l) (ln_queue l ++ [t]) true (ln_closed l)
                 (ln_maintenance l) (ln_activeMaintenance l) (ln_worker l)).

Definition EnqueueMaintenance (t : Task) (l : ExecutionLane) : outcome error unit * ExecutionLane :=
  if ln_closed l || ln_cancelled l then (Err ErrLaneClosed, l) else
  (Ok tt, mkLane (ln_cancelled l) (ln_queueSize l) (ln_queue l) true (ln_closed l) (Some t)
            (ln_activeMaintenance l) (ln_worker l)).

Definition Close (l : ExecutionLane) : ExecutionLane :=
  if ln_closed l then l else
  mkLane true (ln_queueSize l) (ln_queue l) (ln_ready l) true (ln_maintenance l) (ln_activeMaintenance l) (ln_worker l).

(** [closeAdmission], the worker then drains. *)
Definition closeAdmission (l : ExecutionLane) : ExecutionLane :=
  mkLane (ln_cancelled l) (ln_queueSize l) (ln_queue l) (ln_ready l) true (ln_maintenance l)
    (ln_activeMaintenance l) WDrain.

Definition dequeue (l : ExecutionLane) : option Task * ExecutionLane :=
  match ln_queue l with
  | t :: q => (Some t, mkLane (ln_cancelled l) (ln_queueSize l) q (ln_ready l) (ln_closed l) (ln_maintenance l) false (ln_worker l))
  | [] =>
    match ln_maintenance l with
    | Some t => (Some t, mkLane (ln_cancelled l) (ln_queueSize l) [] (ln_ready l) (ln_closed l) None true (ln_worker l))
    | None => (None, mkLane (ln_cancelled l) (ln_queueSize l) [] (ln_ready l) (ln_closed l) None false (ln_worker l))
    end
  end.

Definition at_worker (w : worker) (l : ExecutionLane) : ExecutionLane :=
  mkLane (ln_cancelled l) (ln_queueSize l) (ln_queue l) (ln_ready l) (ln_closed l) (ln_maintenance l)
    (ln_activeMaintenance l) w.
Definition cancel (l : ExecutionLane) : ExecutionLane :=
  mkLane true (ln_queueSize l) (ln_queue l) (ln_ready l) (ln_closed l) (ln_maintenance l)
    (ln_activeMaintenance l) (ln_worker l).
Definition take_ready (l : ExecutionLane) : ExecutionLane :=
  mkLane (ln_cancelled l) (ln_queueSize l) (ln_queue l) false (ln_closed l) (ln_maintenance l)
    (ln_activeMaintenance l) WTop.

(** What can be observed of a step; the flag of a start or an abort tells maintenance
    tasks from player tasks, and [LAdmit c] is the closing of the channel [c]. *)
Inductive label :=
| LEnqueue (t : Task) | LMaintenance (t : Task) | LRejected (t : Task) (e : error) | LClose | LCancel | LAdmit (c : nat)
| LStart (t : Task) (maintenance : bool) | LFinish (t : Task)
| LAbort (t : Task) (maintenance : bool) (reason : AbortReason) | LTau.

(** The channels closed along a trace. *)
Definition closed_of (a : label) : option nat := match a with LAdmit c => Some c | _ => None end.
Definition closed_channels (tr : list label) : list nat := omap closed_of tr.
(** Whether a receive from the task's [Admitted] channel is ready, or the channel nil. *)
Definition task_admitted (closed : list nat) (t : Task) : Prop :=
  match lt_Admitted t with None => True | Some c => c ∈ closed end.
#[export] Instance task_admitted_dec closed t : Decision (task_admitted closed t).
Proof. unfold task_admitted. destruct (lt_Admitted t); apply _. Defined.

(** One step of the worker goroutine ([run], [waitAdmitted], [drainQueued]), given the channels closed so far. *)
Inductive worker_step (closed : list nat) (l : ExecutionLane) : label -> ExecutionLane -> Prop :=
| step_top_return : ln_worker l = WTop -> ln_cancelled l = true -> worker_step closed l LTau (at_worker WClosing l)
| step_top : ln_worker l = WTop -> ln_cancelled l = false -> worker_step closed l LTau (at_worker WDequeue l)
| step_dequeue t l' : ln_worker l = WDequeue -> dequeue l = (Some t, l') ->
    worker_step closed l LTau (at_worker (WSelected t) l')
| step_empty l' : ln_worker l = WDequeue -> dequeue l = (None, l') -> worker_step closed l LTau (at_worker WIdle l')
| step_idle_return : ln_worker l = WIdle -> ln_cancelled l = true -> worker_step closed l LTau (at_worker WClosing l)
| step_wakeup : ln_worker l = WIdle -> ln_ready l = true -> worker_step closed l LTau (take_ready l)
| step_admitted t : ln_worker l = WSelected t -> task_admitted closed t -> worker_step closed l LTau (at_worker (WAdmitted t) l)
| step_not_admitted t : ln_worker l = WSelected t -> lt_Admitted t <> None -> ln_cancelled l = true ->
    worker_step closed l LTau (at_worker (WDropped t) l)
| step_admitted_late t : ln_worker l = WAdmitted t -> ln_cancelled l = true -> worker_step closed l LTau (at_worker (WDropped t) l)
| step_check t : ln_worker l = WAdmitted t -> ln_cancelled l = false -> worker_step closed l LTau (at_worker (WReady t) l)
| step_start t : ln_worker l = WReady t -> worker_step closed l (LStart t (ln_activeMaintenance l)) (at_worker (WRunning t) l)
| step_finish t : ln_worker l = WRunning t -> worker_step closed l (LFinish t) (at_worker WTop l)
| step_drop t : ln_worker l = WDropped t ->
    worker_step closed l (LAbort t (ln_activeMaintenance l) AbortReasonConnectionClosed) (at_worker WClosing l)
| step_close_admission : ln_worker l = WClosing -> worker_step closed l LTau (closeAdmission l)
| step_drain t l' : ln_worker l = WDrain -> dequeue l = (Some t, l') -> worker_step closed l LTau (at_worker (WDrained t) l')
| step_drain_abort t : ln_worker l = WDrained t ->
    worker_step closed l (LAbort t (ln_activeMaintenance l) AbortReasonConnectionClosed) (at_worker WDrain l)
| step_drain_end l' : ln_worker l = WDrain -> dequeue l = (None, l') -> worker_step closed l LTau (at_worker WDone l').

(** One step of a client, of the context, or of who closes a task's [Admitted] channel. *)
Inductive client_step (l : ExecutionLane) : label -> ExecutionLane -> Prop :=
| step_enqueue t l' : Enqueue t l = Some (Ok tt, l') -> client_step l (LEnqueue t) l'
| step_enqueue_fails t e l' : Enqueue t l = Some (Err e, l') -> client_step l (LRejected t e) l'
| step_maintenance t l' : EnqueueMaintenance t l = (Ok tt, l') -> client_step l (LMaintenance t) l'
| step_maintenance_fails t e l' : EnqueueMaintenance t l = (Err e, l') -> client_step l (LRejected t e) l'
| step_close : client_step l LClose (Close l)
| step_cancel : client_step l LCancel (cancel l)
| step_admit c : client_step l (LAdmit c) l.

Definition lane_step (closed : list nat) (l : ExecutionLane) (a : label) (l' : ExecutionLane) : Prop :=
  worker_step closed l a l' \/ client_step l a l'.

(** The states and traces of a lane, from its creation. *)
Inductive lane_run (queueSize : Z) : list label -> ExecutionLane -> Prop :=
| run_new parent l : NewExecutionLane parent queueSize = Ok l -> lane_run queueSize [] l
| run_step tr l a l' : lane_run queueSize tr l -> lane_step (closed_channels tr) l a l' -> lane_run queueSize (tr ++ [a]) l'.

(** ** The lanes of a connection

    The store holds the lanes by session; a lane is named by the order of its creation. *)
Record LaneStore := mkStore {
  sl_queueSize : Z; sl_cancelled : bool; sl_lanes : gmap AgentSessionKey nat; sl_next : nat; sl_closed : bool
}.
Definition NewLaneStore (parent_cancelled : bool) (queueSize : Z) : outcome error LaneStore :=
  _ ← fail_if (queueSize <=? 0)%Z (Opaque "queue size must be positive" None);
  Ok (mkStore queueSize parent_cancelled ∅ 0 false).
(** [GetOrCreate] answers the lane and, when it made one, its initial state. *)
Definition GetOrCreate (key : AgentSessionKey) (s : LaneStore) :
    outcome error (nat * option ExecutionLane) * LaneStore :=
  if sl_closed s then (Err ErrLaneClosed, s) else
  match sl_lanes s !! key with
  | Some lane => (Ok (lane, None), s)
  | None =>
    match NewExecutionLane (sl_cancelled s) (sl_queueSize s) with
    | Err e => (Err e, s)
    | Ok lane => (Ok (sl_next s, Some lane),
                  mkStore (sl_queueSize s) (sl_cancelled s) (<[key := sl_next s]> (sl_lanes s)) (S (sl_next s)) false)
    end
  end.
(** [LaneStore.Close]: the lanes to close, each then closed by [Close]. *)
Definition CloseStore (s : LaneStore) : list nat * LaneStore :=
  if sl_closed s then ([], s) else
  ((map_to_list (sl_lanes s)).*2, mkStore (sl_queueSize s) (sl_cancelled s) (sl_lanes s) (sl_next s) true).

(** The answers to a sequence of requests for lanes. *)
Fixpoint get_lanes (keys : list AgentSessionKey) (s : LaneStore) :
    list (outcome error (nat * option ExecutionLane)) * LaneStore :=
  match keys with
  | [] => ([], s)
  | key :: keys =>
    let '(r, s1) := GetOrCreate key s in let '(rs, s2) := get_lanes keys s1 in (r :: rs, s2)
  end.
