(* ===== verification/LaneFacts.v ===== *)
(** * What an execution lane guarantees

    Whatever the clients do, whenever the context is cancelled and whenever the admission
    channels are closed: player tasks run in the order they were accepted until the lane
    is cancelled and are aborted from then on, each handled exactly once; the queue stays
    within its bound and a send under the mutex never blocks; a wakeup is never lost; and
    a cancelled lane drains and ends. *)

From S2P Require Export Lane.

Local Open Scope go_scope.

(** ** What a trace says *)
Definition accepted_of (a : label) : option Task := match a with LEnqueue t => Some t | _ => None end.
Definition started_of (a : label) : option Task := match a with LStart t false => Some t | _ => None end.
Definition aborted_of (a : label) : option Task := match a with LAbort t false _ => Some t | _ => None end.
Definition maintained_of (a : label) : option Task := match a with LMaintenance t => Some t | _ => None end.
Definition maintenance_handled_of (a : label) : option Task :=
  match a with LStart t true | LAbort t true _ => Some t | _ => None end.
Definition accepted (tr : list label) : list Task := omap accepted_of tr.
Definition started_players (tr : list label) : list Task := omap started_of tr.
Definition aborted_players (tr : list label) : list Task := omap aborted_of tr.
Definition maintained (tr : list label) : list Task := omap maintained_of tr.
Definition maintenance_handled (tr : list label) : list Task := omap maintenance_handled_of tr.

(** The task the worker took and has neither started nor aborted. *)
Definition held (l : ExecutionLane) : list Task :=
  match ln_worker l with
  | WSelected t | WAdmitted t | WReady t | WDropped t | WDrained t => [t]
  | _ => []
  end.
Definition held_player (l : ExecutionLane) : list Task := if ln_activeMaintenance l then [] else held l.
Definition held_maintenance (l : ExecutionLane) : list Task := if ln_activeMaintenance l then held l else [].

(** The worker has left its loop; it has, or is about to abort a task it selected. *)
Definition leaving_loop (w : worker) : bool := match w with WClosing | WDrain | WDrained _ | WDone => true | _ => false end.
Definition quitting (w : worker) : bool := match w with WDropped _ => true | _ => leaving_loop w end.
(** The worker has closed admission. *)
Definition ended (w : worker) : bool := match w with WDrain | WDrained _ | WDone => true | _ => false end.

(** ** Invariants *)
Record lane_ok (queueSize : Z) (tr : list label) (l : ExecutionLane) : Prop := {
  lk_size : ln_queueSize l = queueSize /\ (0 < queueSize)%Z;
  lk_order : accepted tr = started_players tr ++ aborted_players tr ++ held_player l ++ ln_queue l;
  lk_aborts : leaving_loop (ln_worker l) = false -> aborted_players tr = [];
  lk_quits : quitting (ln_worker l) = true -> ln_cancelled l = true;
  lk_bound : (Z.of_nat (length (ln_queue l)) <= if ln_activeMaintenance l then queueSize + 1 else queueSize)%Z;
  lk_wakeup : ln_worker l = WIdle -> ln_queue l <> [] \/ is_Some (ln_maintenance l) -> ln_ready l = true;
  lk_closed : ended (ln_worker l) = true -> ln_closed l = true;
  lk_done : ln_worker l = WDone -> ln_queue l = [] /\ ln_maintenance l = None;
  lk_maintenance : maintenance_handled tr ++ held_maintenance l ++ option_list (ln_maintenance l)
    `sublist_of` maintained tr;
  lk_latest : last (maintained tr) = last (maintenance_handled tr ++ held_maintenance l ++ option_list (ln_maintenance l))
}.

Lemma omap_snoc {A B} (f : A -> option B) l a : omap f (l ++ [a]) = omap f l ++ option_list (f a).
Proof. rewrite omap_app. simpl. by destruct (f a). Qed.

(** What [dequeue] takes: the first player, or else the pending maintenance task. *)
Lemma dequeue_ok l o l' : dequeue l = (o, l') ->
  ln_cancelled l' = ln_cancelled l /\ ln_queueSize l' = ln_queueSize l /\ ln_ready l' = ln_ready l
  /\ ln_closed l' = ln_closed l /\ ln_worker l' = ln_worker l
  /\ match o with
     | Some t => (ln_queue l = t :: ln_queue l' /\ ln_activeMaintenance l' = false /\ ln_maintenance l' = ln_maintenance l)
         \/ (ln_queue l = [] /\ ln_queue l' = [] /\ ln_maintenance l = Some t /\ ln_maintenance l' = None
             /\ ln_activeMaintenance l' = true)
     | None => ln_queue l = [] /\ ln_maintenance l = None /\ ln_queue l' = [] /\ ln_maintenance l' = None
               /\ ln_activeMaintenance l' = false
     end.
Proof.
  unfold dequeue. destruct (ln_queue l) as [|t q] eqn:Hq; [destruct (ln_maintenance l) eqn:Hm|];
    intros [= <- <-]; cbn; split_and!; try done; [right|left]; done.
Qed.
Lemma Enqueue_ok t l l' : Enqueue t l = Some (Ok tt, l') ->
  ln_closed l = false /\ ln_cancelled l = false
  /\ (Z.of_nat (length (ln_queue l)) < if ln_activeMaintenance l then ln_queueSize l + 1 else ln_queueSize l)%Z
  /\ l' = mkLane false (ln_queueSize l) (ln_queue l ++ [t]) true false (ln_maintenance l) (ln_activeMaintenance l) (ln_worker l).
Proof.
  unfold Enqueue. destruct (ln_closed l) eqn:Hc, (ln_cancelled l) eqn:Hx; cbn [orb]; try done.
  cbv zeta. intros H. case_match eqn:Hl; [done|]. case_match; [done|]. injection H as <-. by apply Z.leb_gt in Hl.
Qed.
Lemma EnqueueMaintenance_ok t l l' : EnqueueMaintenance t l = (Ok tt, l') ->
  ln_closed l = false /\ ln_cancelled l = false
  /\ l' = mkLane false (ln_queueSize l) (ln_queue l) true false (Some t) (ln_activeMaintenance l) (ln_worker l).
Proof.
  unfold EnqueueMaintenance. destruct (ln_closed l) eqn:Hc, (ln_cancelled l) eqn:Hx; cbn [orb]; try done.
  intros [= <-]. done.
Qed.
(** A refusal changes nothing. *)
Lemma Enqueue_fails t l e l' : Enqueue t l = Some (Err e, l') -> l' = l.
Proof. unfold Enqueue. repeat (case_match; [|]); intros [=]; by subst. Qed.
Lemma EnqueueMaintenance_fails t l e l' : EnqueueMaintenance t l = (Err e, l') -> l' = l.
Proof. unfold EnqueueMaintenance. case_match; intros [=]; by subst. Qed.

Ltac snoc_traces :=
  unfold accepted, started_players, aborted_players, maintained, maintenance_handled in *; rewrite ?omap_snoc; cbn [accepted_of started_of
    aborted_of maintained_of maintenance_handled_of option_list app]; unfold option_list; cbn [option_rect]; rewrite ?app_nil_r.

Lemma lane_ok_new qs parent l : NewExecutionLane parent qs = Ok l -> lane_ok qs [] l.
Proof.
  unfold NewExecutionLane, fail_if. destruct (qs <=? 0)%Z eqn:Hq; [done|]. intros [= <-]. apply Z.leb_gt in Hq.
  split; cbn; try done; lia.
Qed.

(** Extending the trace by something no trace function looks at. *)
Lemma lane_ok_silent qs tr l a : accepted_of a = None -> started_of a = None -> aborted_of a = None -> maintained_of a = None ->
  maintenance_handled_of a = None -> lane_ok qs tr l -> lane_ok qs (tr ++ [a]) l.
Proof.
  intros Ha Hs Hb Hm Hn []. split; snoc_traces; rewrite ?Ha, ?Hs, ?Hb, ?Hm, ?Hn; cbn [option_list]; rewrite ?app_nil_r; done.
Qed.
(** Cancelling and closing touch neither the tasks nor the worker. *)
Lemma lane_ok_close qs tr l c : (ln_closed l = true -> c = true) -> lane_ok qs tr l ->
  lane_ok qs tr (mkLane true (ln_queueSize l) (ln_queue l) (ln_ready l) c (ln_maintenance l) (ln_activeMaintenance l) (ln_worker l)).
Proof. intros Hc []. split; cbn; auto. Qed.

Lemma last_app_some {A} (l k : list A) : k <> [] -> last (l ++ k) = last k.
Proof. intros Hk. rewrite last_app. destruct (last k) eqn:E; [done|]. by apply last_None in E. Qed.

Lemma lane_ok_enqueue qs tr l l' t : lane_ok qs tr l -> Enqueue t l = Some (Ok tt, l') -> lane_ok qs (tr ++ [LEnqueue t]) l'.
Proof.
  intros [[Hs Hp] Ho Hab Hqu Hb Hw Hc Hd Hm Hl] H. apply Enqueue_ok in H as (Hcl & Hx & Hlt & ->). split; cbn; snoc_traces; try done.
  - rewrite Ho. by rewrite <- !app_assoc.
  - intros Hq. by rewrite (Hqu Hq) in Hx.
  - rewrite length_app. cbn. rewrite Hs in Hlt. destruct (ln_activeMaintenance l); lia.
  - intros He. rewrite Hc in Hcl; done.
  - intros He. rewrite Hc in Hcl; [done|]. by rewrite He.
Qed.
Lemma lane_ok_maintenance qs tr l l' t : lane_ok qs tr l -> EnqueueMaintenance t l = (Ok tt, l') ->
  lane_ok qs (tr ++ [LMaintenance t]) l'.
Proof.
  intros [[Hs Hp] Ho Hab Hqu Hb Hw Hc Hd Hm Hl] H. apply EnqueueMaintenance_ok in H as (Hcl & Hx & ->).
  split; cbn; snoc_traces; try done.
  - intros Hq. by rewrite (Hqu Hq) in Hx.
  - intros He. rewrite Hc in Hcl; done.
  - intros He. rewrite Hc in Hcl; [done|]. by rewrite He.
  - rewrite app_assoc. apply sublist_app; [|done]. etrans; [|exact Hm].
    rewrite app_assoc. by apply sublist_inserts_r.
  - rewrite app_assoc. by rewrite !last_snoc.
Qed.
Lemma lane_ok_client qs tr l a l' : lane_ok qs tr l -> client_step l a l' -> lane_ok qs (tr ++ [a]) l'.
Proof.
  intros Hok Hstep. destruct Hstep as [t l' H|t e l' H|t l' H|t e l' H| | |c].
  - by eapply lane_ok_enqueue.
  - apply Enqueue_fails in H as ->. by apply lane_ok_silent.
  - by eapply lane_ok_maintenance.
  - apply EnqueueMaintenance_fails in H as ->. by apply lane_ok_silent.
  - apply lane_ok_silent; try done. unfold Close. destruct (ln_closed l); [done|]. by apply lane_ok_close.
  - apply lane_ok_silent; try done. by apply lane_ok_close.
  - by apply lane_ok_silent.
Qed.

(** A step of the worker that moves no task. *)
Definition task_held (w : worker) : list Task :=
  match w with WSelected t | WAdmitted t | WReady t | WDropped t | WDrained t => [t] | _ => [] end.
Lemma lane_ok_move qs tr l w r c : task_held w = held l -> w <> WIdle -> w <> WDone ->
  (leaving_loop w = false -> leaving_loop (ln_worker l) = false) -> (quitting w = true -> ln_cancelled l = true) ->
  (ended w = true -> c = true) -> (ln_closed l = true -> c = true) -> lane_ok qs tr l ->
  lane_ok qs tr (mkLane (ln_cancelled l) (ln_queueSize l) (ln_queue l) r c (ln_maintenance l) (ln_activeMaintenance l) w).
Proof.
  intros Hh Hi Hd Hlv Hqt He Hcl [Hs Ho Hab Hqu Hb Hw Hc Hdn Hm Hl].
  assert (Hp : held_player (mkLane (ln_cancelled l) (ln_queueSize l) (ln_queue l) r c (ln_maintenance l) (ln_activeMaintenance l) w) = held_player l)
    by (unfold held_player, held at 1; cbn; fold (task_held w); by rewrite Hh).
  assert (Hpm : held_maintenance (mkLane (ln_cancelled l) (ln_queueSize l) (ln_queue l) r c (ln_maintenance l) (ln_activeMaintenance l) w) = held_maintenance l)
    by (unfold held_maintenance, held at 1; cbn; fold (task_held w); by rewrite Hh).
  split; rewrite ?Hp, ?Hpm; cbn; auto; done.
Qed.
(** The task in the worker's hands is handled: started, or aborted. *)
Lemma lane_ok_handle qs tr l t w a : held l = [t] -> task_held w = [] -> w <> WIdle -> w <> WDone ->
  (ended w = true -> ended (ln_worker l) = true) ->
  a = LStart t (ln_activeMaintenance l) /\ leaving_loop (ln_worker l) = false /\ quitting w = false
  \/ a = LAbort t (ln_activeMaintenance l) AbortReasonConnectionClosed /\ leaving_loop w = true /\ quitting (ln_worker l) = true ->
  lane_ok qs tr l -> lane_ok qs (tr ++ [a]) (at_worker w l).
Proof.
  intros Hh Hw0 Hi Hdn0 He Ha [Hs Ho Hab Hqu Hb Hw Hc Hdn Hm Hl].
  unfold held_player, held_maintenance in *. rewrite Hh in *.
  assert (Hn : held (at_worker w l) = []) by done.
  split; cbn; unfold held_player, held_maintenance; rewrite ?Hn; cbn; auto; try done;
    snoc_traces; destruct Ha as [(-> & Hl1 & Hl2)|(-> & Hl1 & Hl2)]; try (fold (aborted_players tr) in *; rewrite (Hab Hl1) in * );
    destruct (ln_activeMaintenance l); cbn; rewrite ?app_nil_r, <- ?app_assoc; cbn in *; auto; try congruence.
Qed.
(** The worker takes a task from under the mutex, or finds none. *)
Lemma lane_ok_dequeue qs tr l o l' w : dequeue l = (o, l') -> held l = [] -> task_held w = option_list o ->
  ended w = ended (ln_worker l) -> leaving_loop w = leaving_loop (ln_worker l) -> quitting w = quitting (ln_worker l) ->
  (w = WDone -> o = None) -> (w = WIdle -> o = None) ->
  lane_ok qs tr l -> lane_ok qs (tr ++ [LTau]) (at_worker w l').
Proof.
  intros Hq Hh Hw0 He Hlv Hqt Hdn0 Hi0 [Hs Ho Hab Hqu Hb Hw Hc Hdn Hm Hl]. apply lane_ok_silent; try done.
  apply dequeue_ok in Hq as (Hx & Hq1 & Hq2 & Hq3 & _ & Hq).
  unfold held_player, held_maintenance in *. rewrite Hh in Ho, Hm, Hl.
  assert (Ho' : accepted tr = started_players tr ++ aborted_players tr ++ ln_queue l) by (rewrite Ho; by destruct (ln_activeMaintenance l)).
  assert (Hm' : maintenance_handled tr ++ option_list (ln_maintenance l) `sublist_of` maintained tr)
    by (revert Hm; by destruct (ln_activeMaintenance l)).
  assert (Hl' : last (maintained tr) = last (maintenance_handled tr ++ option_list (ln_maintenance l)))
    by (revert Hl; by destruct (ln_activeMaintenance l)).
  split; unfold at_worker, held_player, held_maintenance, held; cbn; fold (task_held w);
    rewrite ?Hw0, ?Hq1, ?Hq2, ?Hq3, ?He, ?Hlv, ?Hqt, ?Hx; cbn; try done.
  - rewrite Ho'. destruct o as [t|]; [destruct Hq as [(-> & -> & _)|(-> & -> & _ & _ & ->)]|destruct Hq as (-> & _ & -> & _ & ->)]; done.
  - destruct o as [t|]; [destruct Hq as [(Hl1 & -> & _)|(_ & -> & _ & _ & ->)]|destruct Hq as (_ & _ & -> & _ & ->)]; cbn; [|lia..].
    rewrite Hl1 in *. cbn in *. destruct (ln_activeMaintenance l); lia.
  - intros Hwi [Hne|[x Hx']]; rewrite (Hi0 Hwi) in Hq; destruct Hq as (_ & _ & Hn1 & Hn2 & _); [done|]. by rewrite Hn2 in Hx'.
  - intros Hwd. rewrite (Hdn0 Hwd) in Hq. by destruct Hq as (_ & _ & -> & -> & _).
  - destruct o as [t|]; [destruct Hq as [(_ & -> & ->)|(_ & _ & Hx' & -> & ->)]|destruct Hq as (_ & Hx' & _ & -> & ->)];
      cbn; rewrite ?Hx' in Hm'; done.
  - rewrite Hl'. destruct o as [t|]; [destruct Hq as [(_ & -> & ->)|(_ & _ & -> & -> & ->)]|destruct Hq as (_ & -> & _ & -> & ->)]; done.
Qed.

Lemma lane_ok_worker qs tr l a l' ch : lane_ok qs tr l -> worker_step ch l a l' -> lane_ok qs (tr ++ [a]) l'.
Proof.
  intros Hok Hstep. destruct Hstep as
    [Hw Hx|Hw Hx|t l' Hw Hq|l' Hw Hq|Hw Hx|Hw Hx|t Hw Ha|t Hw Ha Hx|t Hw Hx|t Hw Hx|t Hw|t Hw|t Hw|Hw|t l' Hw Hq|t Hw|l' Hw Hq].
  all: assert (Hh : held l = task_held (ln_worker l)) by done; rewrite Hw in Hh; cbn in Hh.
  all: try (eapply lane_ok_dequeue; try done; rewrite ?Hw; done).
  all: try (eapply lane_ok_handle; try done; rewrite ?Hw; eauto; done).
  all: apply lane_ok_silent; try done; apply lane_ok_move; try done.
  all: rewrite ?Hw; try done; intros; first [apply (lk_closed _ _ _ Hok); by rewrite Hw|apply (lk_quits _ _ _ Hok); by rewrite Hw].
Qed.

Lemma lane_run_ok qs tr l : lane_run qs tr l -> lane_ok qs tr l.
Proof. induction 1 as [|? ? ? ? ? ? []]; eauto using lane_ok_new, lane_ok_worker, lane_ok_client. Qed.

(** ** One task at a time

    The task a trace leaves running; [None] when a task starts, or is aborted by the
    worker, while another runs, or one finishes that was not running. *)
Definition serial_step (s : option (option Task)) (a : label) : option (option Task) :=
  match s, a with
  | Some None, LStart t _ => Some (Some t)
  | Some (Some t), LFinish t' => if decide (t = t') then Some None else None
  | Some None, LAbort _ _ _ => Some None
  | Some r, (LEnqueue _ | LMaintenance _ | LRejected _ _ | LClose | LCancel | LAdmit _ | LTau) => Some r
  | _, _ => None
  end.
Definition running (tr : list label) : option (option Task) := fold_left serial_step tr (Some None).
Definition worker_runs (l : ExecutionLane) : option Task := match ln_worker l with WRunning t => Some t | _ => None end.

Lemma client_worker l a l' : client_step l a l' ->
  ln_worker l' = ln_worker l /\ ln_activeMaintenance l' = ln_activeMaintenance l /\ (ln_cancelled l = true -> ln_cancelled l' = true
    /\ ln_queue l' = ln_queue l /\ ln_maintenance l' = ln_maintenance l).
Proof.
  intros Hs. destruct Hs as [t l' H|t e l' H|t l' H|t e l' H| | |c].
  - apply Enqueue_ok in H as (_ & Hx & _ & ->). cbn. rewrite Hx. done.
  - by apply Enqueue_fails in H as ->.
  - apply EnqueueMaintenance_ok in H as (_ & Hx & ->). cbn. rewrite Hx. done.
  - by apply EnqueueMaintenance_fails in H as ->.
  - unfold Close. by destruct (ln_closed l).
  - done.
  - done.
Qed.

Lemma lane_run_serial qs tr l : lane_run qs tr l -> running tr = Some (worker_runs l).
Proof.
  induction 1 as [p l Hn|tr l a l' Hr IH Hs].
  - unfold NewExecutionLane in Hn. okinv Hn. done.
  - unfold running in *. rewrite fold_left_app, IH. cbn. unfold worker_runs. destruct Hs as [Hs|Hs].
    + destruct Hs; cbn; repeat match goal with H : ln_worker l = _ |- _ => rewrite H; clear H end; try done.
      by rewrite decide_True.
    + destruct (client_worker _ _ _ Hs) as (-> & _). destruct Hs; destruct (ln_worker l); done.
Qed.

(** ** Progress and termination *)



(** The worker waits: in its select, with nothing to wake it; or for the admission of the task it selected. *)
Definition idles (l : ExecutionLane) : Prop := ln_worker l = WIdle /\ ln_ready l = false /\ ln_cancelled l = false.
Definition awaits (ch : list nat) (l : ExecutionLane) (t : Task) (c : nat) : Prop :=
  ln_worker l = WSelected t /\ lt_Admitted t = Some c /\ c ∉ ch /\ ln_cancelled l = false.
(** A worker that has not ended can move, unless it waits. *)
Lemma worker_enabled ch l : ln_worker l <> WDone -> ~ idles l -> (forall t c, ~ awaits ch l t c) ->
  exists a l', worker_step ch l a l'.
Proof.
  unfold idles, awaits. intros Hd Hi Ha. destruct (ln_worker l) as [| | |t|t|t|t|t| | |t|] eqn:Hw; [| | | | | ..|done].
  2,10: destruct (dequeue l) as [[t'|] l'] eqn:Hq.
  all: try (do 2 eexists; by econstructor).
  all: destruct (ln_cancelled l) eqn:Hc; try (do 2 eexists; by econstructor).
  - destruct (ln_ready l) eqn:Hr; [do 2 eexists; by econstructor|]. by destruct Hi.
  - destruct (lt_Admitted t) as [c|] eqn:Ht; do 2 eexists; [apply (step_not_admitted _ _ t)|apply (step_admitted _ _ t)]; try done.
    + by rewrite Ht.
    + unfold task_admitted. by rewrite Ht.
  - destruct (decide (task_admitted ch t)) as [H|H]; [do 2 eexists; by apply (step_admitted _ _ t)|].
    unfold task_admitted in H. destruct (lt_Admitted t) as [c|] eqn:Ht; [|done]. by destruct (Ha t c).
Qed.


(** ** The store of lanes *)
Record store_ok (s : LaneStore) : Prop := {
  so_open : sl_closed s = false;
  so_size : (0 < sl_queueSize s)%Z;
  so_below : forall k n, sl_lanes s !! k = Some n -> n < sl_next s;
  so_inj : forall k k' n, sl_lanes s !! k = Some n -> sl_lanes s !! k' = Some n -> k = k'
}.
Lemma GetOrCreate_ok key s r s' : store_ok s -> GetOrCreate key s = (r, s') ->
  store_ok s' /\ sl_lanes s ⊆ sl_lanes s' /\ sl_cancelled s' = sl_cancelled s /\ sl_queueSize s' = sl_queueSize s
  /\ exists n o, r = Ok (n, o) /\ sl_lanes s' !! key = Some n
      /\ (forall k, is_Some (sl_lanes s' !! k) <-> k = key \/ is_Some (sl_lanes s !! k))
      /\ o = (if sl_lanes s !! key then None else
              Some (mkLane (sl_cancelled s) (sl_queueSize s) [] false false None false WTop)).
Proof.
  intros [Ho Hz Hb Hi]. unfold GetOrCreate. rewrite Ho. destruct (sl_lanes s !! key) as [n|] eqn:Hk.
  - intros [= <- <-]. split_and!; try done. do 2 eexists. split_and!; try done.
    intros k. split; [by right|]. by intros [->|].
  - unfold NewExecutionLane. destruct (Z.leb_spec (sl_queueSize s) 0); [lia|]. intros [= <- <-]. cbn.
    split_and!; try done; [split; cbn; try done| |].
    + intros k n. rewrite lookup_insert_Some. intros [[-> <-]|[_ Hn]]; [lia|]. apply Hb in Hn. lia.
    + intros k k' n. rewrite !lookup_insert_Some. intros [[-> <-]|[_ Hn]] [[-> Hn']|[_ Hn']]; try done; subst.
      * apply Hb in Hn'. lia.
      * apply Hb in Hn. lia.
      * by eapply Hi.
    + by apply insert_subseteq.
    + do 2 eexists. split_and!; try done; [by rewrite lookup_insert_eq|].
      intros k. destruct (decide (k = key)) as [->|Hne]; [rewrite lookup_insert_eq|rewrite lookup_insert_ne; [|done]]; naive_solver.
Qed.
Lemma get_lanes_ok keys s rs s' : store_ok s -> get_lanes keys s = (rs, s') ->
  store_ok s' /\ sl_lanes s ⊆ sl_lanes s'
  /\ Forall2 (fun key r => exists n o, r = Ok (n, o) /\ sl_lanes s' !! key = Some n) keys rs
  /\ (forall k, is_Some (sl_lanes s' !! k) <-> k ∈ keys \/ is_Some (sl_lanes s !! k)).
Proof.
  revert s rs. induction keys as [|key keys IH]; intros s rs Hs; cbn.
  - intros [= <- <-]. split_and!; try done. intros k. set_solver.
  - destruct (GetOrCreate key s) as [r s1] eqn:Hg, (get_lanes keys s1) as [rs1 s2] eqn:Hgs. intros [= <- <-].
    destruct (GetOrCreate_ok _ _ _ _ Hs Hg) as (Hs1 & Hsub & _ & _ & n & o & -> & Hn & Hk & _).
    destruct (IH _ _ Hs1 Hgs) as (Hs2 & Hsub2 & Hall & Hk2). split_and!; try done.
    + by etrans.
    + constructor; [|done]. exists n, o. split; [done|]. by eapply lookup_weaken.
    + intros k. rewrite Hk2, Hk, elem_of_cons. tauto.
Qed.
Lemma NewLaneStore_ok parent qs s : NewLaneStore parent qs = Ok s -> store_ok s /\ sl_lanes s = ∅.
Proof.
  unfold NewLaneStore, fail_if. destruct (Z.leb_spec qs 0); [done|]. intros [= <-]. by split; [split; cbn|].
Qed.

(** ** What the invariant gives *)
Lemma not_cancelled_aborts_none qs tr l : lane_ok qs tr l -> ln_cancelled l = false -> aborted_players tr = [].
Proof.
  intros Hok Hc. apply (lk_aborts _ _ _ Hok). apply not_true_iff_false. intros Hl.
  assert (Hq : quitting (ln_worker l) = true) by (by destruct (ln_worker l)).
  by rewrite (lk_quits _ _ _ Hok Hq) in Hc.
Qed.
Lemma nothing_held_order qs tr l : lane_ok qs tr l -> held l = [] -> ln_queue l = [] ->
  accepted tr = started_players tr ++ aborted_players tr.
Proof.
  intros Hok Hh Hq. rewrite (lk_order _ _ _ Hok), Hq. unfold held_player. rewrite Hh.
  by destruct (ln_activeMaintenance l); rewrite !app_nil_r.
Qed.
Lemma done_order qs tr l : lane_ok qs tr l -> ln_worker l = WDone -> accepted tr = started_players tr ++ aborted_players tr.
Proof.
  intros Hok Hd. destruct (lk_done _ _ _ Hok Hd) as [Hq _]. apply (nothing_held_order _ _ _ Hok); [|done].
  unfold held. by rewrite Hd.
Qed.
Lemma idle_is_empty qs tr l : lane_ok qs tr l -> idles l ->
  ln_queue l = [] /\ ln_maintenance l = None /\ accepted tr = started_players tr.
Proof.
  intros Hok (Hi & Hrd & Hc). pose proof (lk_wakeup _ _ _ Hok Hi) as Hw.
  assert (Hq : ln_queue l = []) by (destruct (ln_queue l) eqn:Hq; [done|]; rewrite Hw in Hrd; [done|by left]).
  split_and!; [done| |].
  - destruct (ln_maintenance l) eqn:Hm; [|done]. rewrite Hw in Hrd; [done|by right].
  - rewrite (nothing_held_order _ _ _ Hok); [|unfold held; by rewrite Hi|done].
    by rewrite (not_cancelled_aborts_none _ _ _ Hok Hc), app_nil_r.
Qed.
Lemma idles_dec l : {idles l} + {~ idles l}.
Proof. unfold idles. apply decide. apply _. Qed.
Lemma awaits_dec ch l : (exists t c, awaits ch l t c) \/ ~ (exists t c, awaits ch l t c).
Proof.
  unfold awaits. destruct (ln_worker l) as [| | |t| | | | | | | |] eqn:Hw; try (right; intros (? & ? & ? & _); done).
  destruct (lt_Admitted t) as [c|] eqn:Ht; [|right; intros (? & ? & [= <-] & ? & _); congruence].
  destruct (decide (c ∉ ch /\ ln_cancelled l = false)) as [[? ?]|Hn]; [left; by exists t, c|].
  right. intros (t' & c' & [= <-] & Hc' & ? & ?). rewrite Ht in Hc'. injection Hc' as <-. by apply Hn.
Qed.
Lemma awaits_goes_on tr l t c : awaits (closed_channels tr) l t c ->
  worker_step (closed_channels (tr ++ [LAdmit c])) l LTau (at_worker (WAdmitted t) l)
  /\ worker_step (closed_channels (tr ++ [LCancel])) (cancel l) LTau (at_worker (WDropped t) (cancel l)).
Proof.
  intros (Hw & Ht & Hc & Hx). split.
  - apply (step_admitted _ _ t); [done|]. unfold task_admitted, closed_channels. rewrite Ht, omap_app, elem_of_app. right. by left.
  - apply (step_not_admitted _ _ t); [done| |done]. by rewrite Ht.
Qed.

(** ** Properties *)

(** C36: an execution lane serves its session's player tasks one at a time and in the order their [Enqueue] was
    answered without error.  Whatever the clients, the context and the worker did so far, the accepted tasks are the
    ones started, then the ones aborted, then the one the worker holds, then the queue, each once and in this order; a
    lane that was not cancelled has aborted none, so that what left the queue was started; no task starts, and none is
    aborted by the worker, while another runs; and once the lane is done, each accepted task was started or aborted. *)
Theorem lane_serves_in_order qs tr l : lane_run qs tr l ->
  accepted tr = started_players tr ++ aborted_players tr ++ held_player l ++ ln_queue l
  /\ (ln_cancelled l = false -> aborted_players tr = [])
  /\ running tr = Some (worker_runs l)
  /\ (ln_worker l = WDone -> accepted tr = started_players tr ++ aborted_players tr).
Proof.
  intros Hr. pose proof (lane_run_serial _ _ _ Hr). apply lane_run_ok in Hr. split_and!; try done.
  - apply Hr.
  - intros Hc. by apply (not_cancelled_aborts_none _ _ _ Hr).
  - by apply (done_order _ _ _ Hr).
Qed.

(** [Enqueue] never blocks with the lane's mutex held: the queue always has room for a task that passes its checks.
    A lane that is open and not cancelled accepts a task while fewer than [queueSize] wait, and while a maintenance
    task is selected it keeps one more slot; a full lane answers [ErrLaneFull] and a closed one [ErrLaneClosed], unchanged. *)
Theorem enqueue_never_blocks qs tr l t : lane_run qs tr l ->
  let waiting := Z.of_nat (length (ln_queue l)) in
  let limit := if ln_activeMaintenance l then (qs + 1)%Z else qs in
  (waiting <= limit)%Z /\ ln_capacity l = (qs + 1)%Z
  /\ if ln_closed l || ln_cancelled l then Enqueue t l = Some (Err ErrLaneClosed, l)
     else if (waiting <? limit)%Z then
       exists l', Enqueue t l = Some (Ok tt, l') /\ ln_queue l' = ln_queue l ++ [t] /\ ln_ready l' = true
     else Enqueue t l = Some (Err ErrLaneFull, l).
Proof.
  intros Hr. apply lane_run_ok in Hr as [[Hs Hp] _ _ _ Hb _ _ _ _ _]. cbv zeta. split_and!; [done|by unfold ln_capacity; rewrite Hs|].
  unfold Enqueue, ln_capacity. rewrite Hs. destruct (_ || _); [done|]. cbv zeta.
  destruct (Z.ltb_spec (Z.of_nat (length (ln_queue l))) (if ln_activeMaintenance l then qs + 1 else qs)) as [Hlt|Hge].
  - destruct (Z.leb_spec (if ln_activeMaintenance l then qs + 1 else qs) (Z.of_nat (length (ln_queue l)))); [lia|].
    destruct (Z.leb_spec (qs + 1) (Z.of_nat (length (ln_queue l)))); [destruct (ln_activeMaintenance l); lia|]. by eexists.
  - by destruct (Z.leb_spec (if ln_activeMaintenance l then qs + 1 else qs) (Z.of_nat (length (ln_queue l)))); [|lia].
Qed.

(** C38: no wakeup is lost: the worker of a lane is without a step only in three states.  It is done; or it waits for
    work with a live context, and then no task is pending and every accepted player task was started; or it waits for
    the admission of the task it selected, with a live context and the task's channel still open, and then closing
    that channel lets it go on with the task and cancelling the context lets it drop the task. *)
Theorem no_lost_wakeup qs tr l : lane_run qs tr l -> (forall a l', ~ worker_step (closed_channels tr) l a l') ->
  ln_worker l = WDone
  \/ (idles l /\ ln_queue l = [] /\ ln_maintenance l = None /\ accepted tr = started_players tr)
  \/ (exists t c, awaits (closed_channels tr) l t c
      /\ worker_step (closed_channels (tr ++ [LAdmit c])) l LTau (at_worker (WAdmitted t) l)
      /\ worker_step (closed_channels (tr ++ [LCancel])) (cancel l) LTau (at_worker (WDropped t) (cancel l))).
Proof.
  intros Hr Hst. apply lane_run_ok in Hr.
  destruct (decide (ln_worker l = WDone)) as [|Hd]; [by left|right].
  destruct (idles_dec l) as [Hi|Hi]; [left|right].
  - split; [done|]. by apply (idle_is_empty _ _ _ Hr).
  - destruct (awaits_dec (closed_channels tr) l) as [(t & c & Ha)|Ha].
    + exists t, c. split; [done|]. by apply awaits_goes_on.
    + destruct (worker_enabled (closed_channels tr) l Hd Hi) as (a & l' & Hs); [|by destruct (Hst a l')].
      intros t c Hw. apply Ha. by exists t, c.
Qed.


(** Maintenance tasks never delay or outlive their replacement: the pending one is the latest accepted, the ones
    started or aborted were accepted in that order and each at most once, and the worker takes one only when no
    player task waits. *)
Theorem maintenance_keeps_the_latest qs tr l : lane_run qs tr l ->
  (forall t, ln_maintenance l = Some t -> last (maintained tr) = Some t)
  /\ maintenance_handled tr ++ held_maintenance l ++ option_list (ln_maintenance l) `sublist_of` maintained tr
  /\ (forall ch t a l', worker_step ch l a l' -> ln_worker l' = WSelected t -> ln_activeMaintenance l' = true -> ln_queue l = []).
Proof.
  intros Hr. apply lane_run_ok in Hr as [_ _ _ _ _ _ _ _ Hm Hl]. split_and!.
  { intros t Ht. rewrite Hl, Ht, app_assoc. unfold option_list. cbn [option_rect]. by rewrite last_snoc. }
  { done. }
  intros ch t a l' Hs Hw Ha. destruct Hs as [| |? ? ? Hq|? ? Hq| | | | | | | | | | |? ? ? Hq| |? ? Hq]; try done.
  apply dequeue_ok in Hq as (_ & _ & _ & _ & _ & Hq). cbn in Ha. destruct Hq as [(_ & Hq & _)|(Hq & _)]; [congruence|done].
Qed.

(** A lane store gives each session one lane: of any sequence of requests every one is answered, two requests get
    the same lane exactly when they name the same session, and closing the store closes the lanes that were handed out,
    each once, after which every request is refused. *)
Theorem one_lane_per_session parent qs s keys rs s' : NewLaneStore parent qs = Ok s -> get_lanes keys s = (rs, s') ->
  length rs = length keys /\ Forall is_ok rs
  /\ (forall i j ki kj ni oi nj oj, keys !! i = Some ki -> keys !! j = Some kj ->
      rs !! i = Some (Ok (ni, oi)) -> rs !! j = Some (Ok (nj, oj)) -> ni = nj <-> ki = kj)
  /\ (forall lanes s'', CloseStore s' = (lanes, s'') ->
      NoDup lanes /\ (forall n, n ∈ lanes <-> exists o, Ok (n, o) ∈ rs)
      /\ (forall key, GetOrCreate key s'' = (Err ErrLaneClosed, s''))).
Proof.
  intros Hnew Hgs. apply NewLaneStore_ok in Hnew as [Hs He].
  destruct (get_lanes_ok _ _ _ _ Hs Hgs) as ([Ho _ _ Hi] & _ & Hall & Hk). split_and!.
  - symmetry. by eapply Forall2_length.
  - apply Forall_lookup. intros i r Hr. destruct (Forall2_lookup_r _ _ _ _ _ Hall Hr) as (k & _ & n & o & -> & _). done.
  - intros i j ki kj ni oi nj oj Hki Hkj Hri Hrj.
    destruct (Forall2_lookup_lr _ _ _ _ _ _ Hall Hki Hri) as (? & ? & [= <- <-] & Hni).
    destruct (Forall2_lookup_lr _ _ _ _ _ _ Hall Hkj Hrj) as (? & ? & [= <- <-] & Hnj).
    split; [intros ->; by eapply Hi|]. intros ->. congruence.
  - intros lanes s''. unfold CloseStore. rewrite Ho. intros [= <- <-]. split_and!; [..|done].
    + apply NoDup_fmap_2_strong; [|apply NoDup_map_to_list].
      intros [k n] [k' n']. rewrite !elem_of_map_to_list. cbn. intros H1 H2 <-. by rewrite (Hi _ _ _ H1 H2).
    + intros n. rewrite list_elem_of_fmap. setoid_rewrite list_elem_of_lookup. split.
      * intros ([k n'] & -> & Hin). apply list_elem_of_lookup, elem_of_map_to_list in Hin. cbn.
        assert (Hkk : k ∈ keys). { destruct (proj1 (Hk k)) as [|[? Hx]]; [by eexists|done|]. by rewrite He in Hx. }
        apply list_elem_of_lookup in Hkk as [i Hik].
        destruct (Forall2_lookup_l _ _ _ _ _ Hall Hik) as (r & Hr & m & o & -> & Hm).
        exists o, i. cbn in *. congruence.
      * intros (o & i & Hr). destruct (Forall2_lookup_r _ _ _ _ _ Hall Hr) as (k & _ & m & o' & [= <- <-] & Hm).
        exists (k, n). split; [done|]. by apply list_elem_of_lookup, elem_of_map_to_list.
Qed.

(** ** A concrete lane: it idles, then a player task and a maintenance task arrive, the worker wakes and selects the
    player, and the context is cancelled before the task starts. *)
Definition demo_player : Task := {| lt_ID := "player"; lt_Admitted := Some 7 |}.
Definition demo_upkeep : Task := {| lt_ID := "upkeep"; lt_Admitted := None |}.
Definition demo_idle : ExecutionLane := mkLane false 1 [] false false None false WIdle.
Definition demo_selected : ExecutionLane := mkLane false 1 [] false false (Some demo_upkeep) false (WSelected demo_player).
Definition demo_trace : list label := [LTau; LTau; LEnqueue demo_player; LMaintenance demo_upkeep; LTau; LTau; LTau].

Lemma demo_idles : lane_run 1 [LTau; LTau] demo_idle.
Proof.
  apply (run_step 1 [LTau] (mkLane false 1 [] false false None false WDequeue)).
  - apply (run_step 1 [] (mkLane false 1 [] false false None false WTop)); [by apply (run_new 1 false)|].
    left. by apply step_top.
  - left. by apply (step_empty _ _ (mkLane false 1 [] false false None false WDequeue)).
Qed.
Lemma demo_selects : lane_run 1 demo_trace demo_selected.
Proof.
  assert (H1 : lane_run 1 [LTau; LTau; LEnqueue demo_player] (mkLane false 1 [demo_player] true false None false WIdle)).
  { apply (run_step 1 [LTau; LTau] demo_idle _ _ demo_idles). right. by apply step_enqueue. }
  assert (H2 : lane_run 1 [LTau; LTau; LEnqueue demo_player; LMaintenance demo_upkeep]
                 (mkLane false 1 [demo_player] true false (Some demo_upkeep) false WIdle)).
  { apply (run_step 1 _ _ _ _ H1). right. by apply step_maintenance. }
  assert (H3 : lane_run 1 [LTau; LTau; LEnqueue demo_player; LMaintenance demo_upkeep; LTau]
                 (mkLane false 1 [demo_player] false false (Some demo_upkeep) false WTop)).
  { apply (run_step 1 _ _ _ _ H2). left. by apply step_wakeup. }
  assert (H4 : lane_run 1 [LTau; LTau; LEnqueue demo_player; LMaintenance demo_upkeep; LTau; LTau]
                 (mkLane false 1 [demo_player] false false (Some demo_upkeep) false WDequeue)).
  { apply (run_step 1 _ _ _ _ H3). left. by apply step_top. }
  apply (run_step 1 _ _ _ _ H4). left.
  by apply (step_dequeue _ _ demo_player (mkLane false 1 [] false false (Some demo_upkeep) false WDequeue)).
Qed.

Definition demo_keys : list AgentSessionKey :=
  [ {| GameID := "g"; WorldID := "w"; EntityID := "a" |}; {| GameID := "g"; WorldID := "w"; EntityID := "b" |};
    {| GameID := "g"; WorldID := "w"; EntityID := "a" |} ].

Lemma lane_serves_in_order_witness :
  exists tr l, lane_run 1 tr l /\ accepted tr = [demo_player] /\ ln_cancelled l = false
  /\ (accepted tr = started_players tr ++ aborted_players tr ++ held_player l ++ ln_queue l
      /\ (ln_cancelled l = false -> aborted_players tr = [])
      /\ running tr = Some (worker_runs l)
      /\ (ln_worker l = WDone -> accepted tr = started_players tr ++ aborted_players tr)).
Proof.
  exists demo_trace, demo_selected. split; [exact demo_selects|]. split; [reflexivity|]. split; [reflexivity|].
  exact (lane_serves_in_order 1 demo_trace demo_selected demo_selects).
Defined.
Lemma enqueue_never_blocks_witness :
  exists tr l t, lane_run 1 tr l /\ ln_closed l || ln_cancelled l = false
  /\ exists l', Enqueue t l = Some (Ok tt, l') /\ ln_queue l' = ln_queue l ++ [t] /\ ln_ready l' = true.
Proof.
  exists demo_trace, demo_selected, demo_upkeep. split; [exact demo_selects|]. split; [reflexivity|].
  exact (proj2 (proj2 (enqueue_never_blocks 1 demo_trace demo_selected demo_upkeep demo_selects))).
Defined.
(** With the player's channel open and the context live, the worker that selected it is stuck. *)
Lemma demo_selected_stuck a l' : ~ worker_step (closed_channels demo_trace) demo_selected a l'.
Proof.
  intros Hs. inversion Hs as [| | | | | |t Hw Ha|t Hw Ha Hc| | | | | | | | |]; subst; try done.
  injection Hw as <-. apply elem_of_nil in Ha. done.
Qed.
Lemma no_lost_wakeup_witness :
  exists tr l, lane_run 1 tr l /\ (forall a l', ~ worker_step (closed_channels tr) l a l')
  /\ (ln_worker l = WDone
      \/ (idles l /\ ln_queue l = [] /\ ln_maintenance l = None /\ accepted tr = started_players tr)
      \/ (exists t c, awaits (closed_channels tr) l t c
          /\ worker_step (closed_channels (tr ++ [LAdmit c])) l LTau (at_worker (WAdmitted t) l)
          /\ worker_step (closed_channels (tr ++ [LCancel])) (cancel l) LTau (at_worker (WDropped t) (cancel l)))).
Proof.
  exists demo_trace, demo_selected. split; [exact demo_selects|]. split; [exact demo_selected_stuck|].
  exact (no_lost_wakeup 1 demo_trace demo_selected demo_selects demo_selected_stuck).
Defined.
Lemma maintenance_keeps_the_latest_witness :
  exists tr l, lane_run 1 tr l /\ ln_maintenance l = Some demo_upkeep /\ last (maintained tr) = Some demo_upkeep.
Proof.
  exists demo_trace, demo_selected. split; [exact demo_selects|]. split; [reflexivity|].
  exact (proj1 (maintenance_keeps_the_latest 1 demo_trace demo_selected demo_selects) demo_upkeep eq_refl).
Defined.
Lemma one_lane_per_session_witness :
  exists s rs s', NewLaneStore false 1 = Ok s /\ get_lanes demo_keys s = (rs, s') /\ length rs = 3 /\ Forall is_ok rs.
Proof.
  destruct (get_lanes demo_keys (mkStore 1 false ∅ 0 false)) as [rs s'] eqn:Hg.
  exists (mkStore 1 false ∅ 0 false), rs, s'. split; [reflexivity|]. split; [exact Hg|].
  destruct (one_lane_per_session false 1 (mkStore 1 false ∅ 0 false) demo_keys rs s' eq_refl Hg) as (Hl & Hok & _).
  split; [exact Hl|exact Hok].
Defined.
