(* ===== verification/Dispatch.v ===== *)
(** * The dispatcher: [runtime/internal/task/dispatcher.go]

    One goroutine scans the ready worlds: it claims the due wakes of each under the
    world's guard, retries a technical failure at most twice with a growing delay, and
    hands every claimed wake to admission.  What the callbacks and the service do, and
    when the context is cancelled, is the class [Outside]; the definitions record what
    the scan asks of it.  The loop around the scan is the step relation
    [dispatcher_step]: scans are started by the ticker, by [Notify] and by updates. *)

From S2P Require Export Wakes.

Local Open Scope go_scope.

(** Durations are nanoseconds in an [int64]. *)
Record DispatcherConfig := { ScanInterval : Z; BatchSize : Z; RetryMin : Z; RetryMax : Z }.

(** The check of [NewDispatcher]; [present]: neither the parent context, the service nor
    a required callback is nil. *)
Definition NewDispatcher (present : bool) (c : DispatcherConfig) : outcome error unit :=
  fail_if (! present || (ScanInterval c <=? 0)%Z || (BatchSize c <=? 0)%Z || (RetryMin c <=? 0)%Z
           || (RetryMax c <? RetryMin c)%Z) ErrInvalidTaskSpec.

(** [RetryDelay]: the loop, [n] iterations at most, then the clamp. *)
Fixpoint retry_doubled (c : DispatcherConfig) (n : nat) (delay : Z) : Z :=
  match n with
  | S n =>
    if (delay <? RetryMax c)%Z then
      if (Z.quot (RetryMax c) 2 <? delay)%Z then RetryMax c
      else retry_doubled c n (wrap_i64 (delay * 2))
    else delay
  | O => delay
  end.
Definition RetryDelay (c : DispatcherConfig) (failures : Z) : Z :=
  let delay := retry_doubled c (Z.to_nat (failures - 1)) (RetryMin c) in
  if (RetryMax c <? delay)%Z then RetryMax c else delay.

(** ** What the scan calls *)

(** [guard] runs its callback with state of the caller's closure, of any type. *)
Class Outside (E : Type) := {
  ctxErr : E -> bool * E;
  ReadyWorlds : E -> list Head * E;
  Guard : forall {X}, Binding -> (Head -> E * X -> outcome error unit * (E * X)) -> E * X -> outcome error unit * (E * X);
  claimDue : Binding -> Clock -> Z -> E -> outcome error (list Wake) * E;
  waitDelay : Z -> E -> bool * E;
  EnqueueWake : Binding -> Wake -> E -> outcome error unit * E;
  PauseWorld : Binding -> option Wake -> error -> E -> E
}.
(** A guard runs its callback at most once, on a head of the binding asked for, and
    answers what the callback answered, or an error of its own without having run it. *)
Class GuardLaws (E : Type) `{Outside E} := {
  guard_once : forall X b (fn : Head -> E * X -> outcome error unit * (E * X)) s x r s' x',
    Guard b fn (s, x) = (r, (s', x')) ->
    (exists e, r = Err e /\ x' = x)
    \/ (exists current s1 s2, hd_Binding current = b /\ fn current (s1, x) = (r, (s2, x')))
}.

Inductive event :=
| EvClaim (b : Binding) (answer : outcome error (list Wake))
| EvRetry (delay : Z)
| EvEnqueue (b : Binding) (w : Wake)
| EvPause (b : Binding) (w : option Wake) (e : error).

Section Scan.
Context {E : Type} `{Outside E}.
Variable c : DispatcherConfig.

(** A scan step: [None] is a [return] from the scan. *)
Definition Scan (A : Type) : Type := E -> option A * list event * E.
#[export] Instance Scan_ret : MRet Scan := fun A a s => (Some a, [], s).
#[export] Instance Scan_bind : MBind Scan := fun A B f m s =>
  match m s with
  | (Some a, tr, s1) => let '(o, tr', s2) := f a s1 in (o, tr ++ tr', s2)
  | (None, tr, s1) => (None, tr, s1)
  end.

(** [if ctx.Err() != nil { return }] *)
Definition stop_if_cancelled : Scan unit := fun s =>
  let '(cancelled, s1) := ctxErr s in (if cancelled then None else Some tt, [], s1).
(** [WaitTechnicalRetry] *)
Definition WaitTechnicalRetry (failures : Z) : Scan unit := fun s =>
  let '(fired, s1) := waitDelay (RetryDelay c failures) s in
  (if fired then Some tt else None, [EvRetry (RetryDelay c failures)], s1).

(** The callback given to the guard: it assigns the scan's [wakes]. *)
Definition claim_callback (current : Head) (st : E * (list Wake * list event)) :
    outcome error unit * (E * (list Wake * list event)) :=
  let '(s, (_, tr)) := st in
  let '(answer, s1) := claimDue (hd_Binding current) (hd_Clock current) (BatchSize c) s in
  match answer with
  | Ok wakes => (Ok tt, (s1, (wakes, tr ++ [EvClaim (hd_Binding current) answer])))
  | Err e => (Err e, (s1, ([], tr ++ [EvClaim (hd_Binding current) answer])))
  end.
Definition claim_guarded (head : Head) (wakes : list Wake) : Scan (outcome error unit * list Wake) := fun s =>
  let '(err, (s1, (wakes1, tr))) := Guard (hd_Binding head) claim_callback (s, (wakes, [])) in
  (Some (err, wakes1), tr, s1).
(** The retry loop; [more] is [3 - failures]. *)
Fixpoint claim_world (head : Head) (more : nat) (failures : Z) (wakes : list Wake) :
    Scan (outcome error unit * list Wake) :=
  '(err, wakes) ← claim_guarded head wakes;
  match err, more with
  | Err e, S more =>
    if TechnicalFailure e then
      _ ← WaitTechnicalRetry failures;
      claim_world head more (failures + 1) wakes
    else mret (err, wakes)
  | _, _ => mret (err, wakes)
  end.

Definition pause_unless_recovering (b : Binding) (w : option Wake) (e : error) : Scan unit := fun s =>
  if BindingRecoveryError e then (Some tt, [], s) else (Some tt, [EvPause b w e], PauseWorld b w e s).
Definition enqueue_wake (head : Head) (w : Wake) : Scan unit :=
  _ ← stop_if_cancelled;
  err ← (fun s => let '(err, s1) := EnqueueWake (hd_Binding head) w s in (Some err, [EvEnqueue (hd_Binding head) w], s1));
  _ ← stop_if_cancelled;
  match err with Err e => pause_unless_recovering (hd_Binding head) (Some w) e | Ok _ => mret tt end.
Fixpoint enqueue_wakes (head : Head) (wakes : list Wake) : Scan unit :=
  match wakes with
  | [] => mret tt
  | w :: wakes => _ ← enqueue_wake head w; enqueue_wakes head wakes
  end.
Definition scan_world (head : Head) : Scan unit :=
  _ ← stop_if_cancelled;
  '(err, wakes) ← claim_world head 2 1 [];
  _ ← stop_if_cancelled;
  match err with
  | Err e => pause_unless_recovering (hd_Binding head) None e
  | Ok _ => enqueue_wakes head wakes
  end.
Fixpoint scan_worlds (heads : list Head) : Scan unit :=
  match heads with
  | [] => mret tt
  | head :: heads => _ ← scan_world head; scan_worlds heads
  end.
Definition scan : Scan unit :=
  heads ← (fun s => let '(heads, s1) := ReadyWorlds s in (Some heads, [], s1));
  scan_worlds heads.
End Scan.

(** ** The loop

    The goroutine scans, or waits in its select; [d_notify] is the buffered channel of
    [Notify], [d_updates] that of the registry's updates, both of capacity one. *)
Inductive dispatcher_at := DScanning | DWaiting | DDone.
Record Dispatcher := mkDispatcher { d_cancelled : bool; d_at : dispatcher_at; d_notify : bool; d_updates : bool }.

Inductive dispatcher_label := DNotify | DUpdate | DStop | DTick | DScanStart | DScanEnd | DEnd.

(** [Dispatcher.Notify]: nothing once the goroutine is done. *)
Definition Notify (d : Dispatcher) : Dispatcher :=
  match d_at d with DDone => d | _ => mkDispatcher (d_cancelled d) (d_at d) true (d_updates d) end.

Inductive dispatcher_step (d : Dispatcher) : dispatcher_label -> Dispatcher -> Prop :=
| d_step_notify : dispatcher_step d DNotify (Notify d)
| d_step_update : dispatcher_step d DUpdate (mkDispatcher (d_cancelled d) (d_at d) (d_notify d) true)
| d_step_stop : dispatcher_step d DStop (mkDispatcher true (d_at d) (d_notify d) (d_updates d))
| d_step_scan_end : d_at d = DScanning ->
    dispatcher_step d DScanEnd (mkDispatcher (d_cancelled d) DWaiting (d_notify d) (d_updates d))
| d_step_tick : d_at d = DWaiting ->
    dispatcher_step d DScanStart (mkDispatcher (d_cancelled d) DScanning (d_notify d) (d_updates d))
| d_step_notified : d_at d = DWaiting -> d_notify d = true ->
    dispatcher_step d DScanStart (mkDispatcher (d_cancelled d) DScanning false (d_updates d))
| d_step_updated : d_at d = DWaiting -> d_updates d = true ->
    dispatcher_step d DScanStart (mkDispatcher (d_cancelled d) DScanning (d_notify d) false)
| d_step_end : d_at d = DWaiting -> d_cancelled d = true ->
    dispatcher_step d DEnd (mkDispatcher true DDone (d_notify d) (d_updates d)).
Inductive dispatcher_run : list dispatcher_label -> Dispatcher -> Prop :=
| d_run_new cancelled updates : dispatcher_run [DScanStart] (mkDispatcher cancelled DScanning false updates)
| d_run_step tr d l d' : dispatcher_run tr d -> dispatcher_step d l d' -> dispatcher_run (tr ++ [l]) d'.
