(* ===== verification/Dispatching.v ===== *)
(** * What the dispatcher guarantees

    Every claimed wake is handed to admission, in order; a world is claimed at most
    three times a scan and only technical failures are retried; the retry delay is the
    capped power of two, computed without overflow; a notification starts a scan. *)

From S2P Require Export Dispatch.
From S2P Require Import Demo Behaviour.

Local Open Scope go_scope.

(** ** Reading a trace *)
Definition claimed_of (ev : event) : list (Binding * Wake) :=
  match ev with EvClaim b (Ok wakes) => pair b <$> wakes | _ => [] end.
Definition enqueued_of (ev : event) : list (Binding * Wake) := match ev with EvEnqueue b w => [(b, w)] | _ => [] end.
Definition answer_of (ev : event) : list (outcome error (list Wake)) := match ev with EvClaim _ a => [a] | _ => [] end.
Definition delay_of (ev : event) : list Z := match ev with EvRetry d => [d] | _ => [] end.
Definition claimed (tr : list event) := tr ≫= claimed_of.
Definition enqueued (tr : list event) := tr ≫= enqueued_of.
Definition answers (tr : list event) := tr ≫= answer_of.
Definition delays (tr : list event) := tr ≫= delay_of.
(** A claim that is followed by another failed technically. *)
Definition retried (l : list (outcome error (list Wake))) : Prop :=
  forall l1 a l2, l = l1 ++ a :: l2 -> l2 <> [] -> exists e, a = Err e /\ TechnicalFailure e = true.
(** No world is paused for an error that only says its binding is being replaced or saved. *)
Definition paused_for_cause (tr : list event) : Prop :=
  forall b w e, EvPause b w e ∈ tr -> BindingRecoveryError e = false.

(** ** The delay *)
Lemma retry_doubled_min c n d : (0 < d)%Z -> (RetryMax c < 2 ^ 63)%Z ->
  Z.min (retry_doubled c n d) (RetryMax c) = Z.min (d * 2 ^ Z.of_nat n) (RetryMax c).
Proof.
  intros Hd HM. revert d Hd. induction n as [|n IH]; intros d Hd; cbn [retry_doubled]; [by rewrite Z.mul_1_r|].
  assert (Hpow : (d * 2 ^ Z.of_nat (S n) = d * 2 * 2 ^ Z.of_nat n)%Z) by (rewrite Nat2Z.inj_succ, Z.pow_succ_r; lia).
  assert (1 <= 2 ^ Z.of_nat n)%Z by (pose proof (Z.pow_pos_nonneg 2 (Z.of_nat n)); lia).
  rewrite Hpow. destruct (Z.ltb_spec d (RetryMax c)) as [Hlt|Hge]; [|nia].
  rewrite Z.quot_div_nonneg by lia. destruct (Z.ltb_spec (RetryMax c / 2) d) as [Hhalf|Hhalf].
  - rewrite Z.min_id. assert (RetryMax c < d * 2)%Z by (pose proof (Z.mul_succ_div_gt (RetryMax c) 2); lia). nia.
  - assert (d * 2 <= RetryMax c)%Z by (pose proof (Z.mul_div_le (RetryMax c) 2); lia).
    rewrite wrap_i64_id by (unfold int64_range; lia). apply IH. lia.
Qed.

(** ** The scan *)
Lemma scan_bind {E A B} (m : Scan A) (f : A -> Scan B) (s : E) o tr s' : (m ≫= f) s = (o, tr, s') ->
  exists o1 tr1 s1, m s = (o1, tr1, s1)
  /\ match o1 with
     | Some a => exists tr2, f a s1 = (o, tr2, s') /\ tr = tr1 ++ tr2
     | None => o = None /\ tr = tr1 /\ s' = s1
     end.
Proof.
  unfold mbind at 1, Scan_bind. destruct (m s) as [[[a|] tr1] s1]; [destruct (f a s1) as [[o2 tr2] s2] eqn:Hf|];
    intros [= <- <- <-]; do 3 eexists; (split; [reflexivity|]); [by exists tr2|done].
Qed.
Section Scanning.
Implicit Types (tr : list event).
Context {E : Type} `{GuardLaws E}.
Variable c : DispatcherConfig.

(** What one guarded claim leaves: nothing when the guard refused, else the claim. *)
Inductive one_claim (b : Binding) (wakes : list Wake) : outcome error unit -> list Wake -> list event -> Prop :=
| claim_refused e : one_claim b wakes (Err e) wakes []
| claim_made ws : one_claim b wakes (Ok tt) ws [EvClaim b (Ok ws)]
| claim_failed e : one_claim b wakes (Err e) [] [EvClaim b (Err e)].
Lemma claim_guarded_ok head wakes (s : E) o tr s' : claim_guarded c head wakes s = (o, tr, s') ->
  exists err ws, o = Some (err, ws) /\ one_claim (hd_Binding head) wakes err ws tr.
Proof.
  unfold claim_guarded. destruct (Guard _ _ _) as [r [s1 [ws1 tr1]]] eqn:Hg. intros [= <- <- <-].
  do 2 eexists. split; [done|].
  destruct (guard_once _ _ _ _ _ _ _ _ Hg) as [(e & -> & [= -> ->])|(cur & s0 & s2 & Hb & Hc)]; [constructor|].
  unfold claim_callback in Hc. rewrite Hb in Hc.
  destruct (claimDue _ _ _ _) as [[ws|e] s3]; injection Hc; intros; subst; constructor.
Qed.

Lemma retried_nil : retried [].
Proof. intros [] ? ?; done. Qed.
Lemma retried_one a : retried [a].
Proof. intros [|? []] ? ?; cbn; intros [=]; subst; done. Qed.
Lemma retried_cons e l : TechnicalFailure e = true -> retried l -> retried (Err e :: l).
Proof. intros He Hl [|x l1] a l2; cbn; intros [=]; subst; [eauto|]. by eapply Hl. Qed.

Record claimed_so (head : Head) (more : nat) (failures : Z) (wakes : list Wake) (o : option (outcome error unit * list Wake))
    (tr : list event) : Prop := {
  cs_claimed : claimed tr = match o with Some (Ok _, ws) => pair (hd_Binding head) <$> ws | _ => [] end;
  cs_enqueued : enqueued tr = [];
  cs_paused : paused_for_cause tr;
  cs_count : length (answers tr) <= S more;
  cs_retried : retried (answers tr);
  cs_delays : delays tr `prefix_of` (RetryDelay c <$> seqZ failures (Z.of_nat more))
}.
Lemma claim_world_last head more failures wakes err ws tr : one_claim (hd_Binding head) wakes err ws tr ->
  claimed_so head more failures wakes (Some (err, ws)) tr.
Proof.
  destruct 1; split; cbn; rewrite ?app_nil_r; try done; try apply prefix_nil; try apply retried_nil; try apply retried_one; try lia.
  all: intros b w e' Hin; set_solver.
Qed.
Lemma claim_world_again head more failures wakes e ws o tr1 tr2 : TechnicalFailure e = true ->
  one_claim (hd_Binding head) wakes (Err e) ws tr1 -> claimed_so head more (failures + 1) ws o tr2 ->
  claimed_so head (S more) failures wakes o (tr1 ++ EvRetry (RetryDelay c failures) :: tr2).
Proof.
  intros He H1 [H2c H2e H2p H2n H2r H2d].
  assert (Hd : delays (EvRetry (RetryDelay c failures) :: tr2) `prefix_of` (RetryDelay c <$> seqZ failures (Z.of_nat (S more)))).
  { rewrite seqZ_cons by lia. cbn. apply prefix_cons. rewrite Nat2Z.inj_succ, Z.pred_succ, <- Z.add_1_r. exact H2d. }
  unfold answers in H2n. inversion H1; subst; split; cbn; try done; try lia; try (by apply retried_cons).
  all: intros b w e' Hin; apply (H2p b w e'); set_solver.
Qed.
Lemma claim_world_ok head more failures wakes (s : E) o tr s' :
  claim_world c head more failures wakes s = (o, tr, s') -> claimed_so head more failures wakes o tr.
Proof.
  revert failures wakes s o tr s'. induction more as [|more IH]; intros failures wakes s o tr s' Hc; cbn [claim_world] in Hc;
    apply scan_bind in Hc as (o1 & tr1 & s1 & H1 & Hc); apply claim_guarded_ok in H1 as (err & ws & -> & H1);
    destruct Hc as (tr2 & Hc & ->).
  - assert (Hx : (Some (err, ws), [], s1) = (o, tr2, s')) by (destruct err; exact Hc).
    injection Hx as <- <- <-. rewrite app_nil_r. by apply claim_world_last.
  - destruct err as [[]|e]; [injection Hc as <- <- <-; rewrite app_nil_r; by apply claim_world_last|].
    destruct (TechnicalFailure e) eqn:He; [|injection Hc as <- <- <-; rewrite app_nil_r; by apply claim_world_last].
    apply scan_bind in Hc as (o2 & tr3 & s2 & H2 & Hc). unfold WaitTechnicalRetry in H2.
    destruct (waitDelay _ _) as [[] s3]; injection H2 as <- <- <-.
    + destruct Hc as (tr4 & Hc & ->). eapply claim_world_again; eauto.
    + destruct Hc as (-> & -> & _). eapply claim_world_again; eauto.
      split; cbn; try done; try lia; try apply prefix_nil; try apply retried_nil. intros b w e' Hin; set_solver.
Qed.

Lemma stop_if_cancelled_ok (s : E) o tr s' : stop_if_cancelled s = (o, tr, s') -> tr = [].
Proof. unfold stop_if_cancelled. destruct (ctxErr s). by intros [= _ <- _]. Qed.

(** A part of a scan that claims nothing. *)
Record quiet (tr : list event) : Prop := {
  q_claimed : claimed tr = []; q_answers : answers tr = []; q_delays : delays tr = []; q_paused : paused_for_cause tr
}.
Lemma quiet_nil : quiet [].
Proof. split; try done. intros b w e Hin. set_solver. Qed.
Lemma quiet_app tr1 tr2 : quiet tr1 -> quiet tr2 -> quiet (tr1 ++ tr2).
Proof.
  intros [C1 A1 D1 P1] [C2 A2 D2 P2]. split; unfold claimed, answers, delays in *; rewrite ?bind_app, ?C1, ?C2, ?A1, ?A2, ?D1, ?D2; try done.
  intros b w e [Hin|Hin]%elem_of_app; eauto.
Qed.
Lemma pause_unless_recovering_ok b w e (s : E) o tr s' : pause_unless_recovering b w e s = (o, tr, s') ->
  o = Some tt /\ quiet tr /\ enqueued tr = [].
Proof.
  unfold pause_unless_recovering. destruct (BindingRecoveryError e) eqn:He; intros [= <- <- _]; split_and!; try done; [apply quiet_nil|].
  split; try done. intros b' w' e' [= <- <- <-]%list_elem_of_singleton. done.
Qed.
Lemma enqueue_wake_ok head w (s : E) o tr s' : enqueue_wake head w s = (o, tr, s') ->
  quiet tr /\ exists rest, [(hd_Binding head, w)] = enqueued tr ++ rest /\ (is_Some o -> rest = []).
Proof.
  intros Hs. unfold enqueue_wake in Hs. apply scan_bind in Hs as (o1 & tr1 & s1 & H1 & Hs).
  apply stop_if_cancelled_ok in H1 as ->. destruct o1 as [[]|]; [destruct Hs as (tr2 & Hs & ->)|destruct Hs as (-> & -> & _)].
  2: { split; [apply quiet_nil|]. exists [(hd_Binding head, w)]. by split; [|intros [? ?]]. }
  apply scan_bind in Hs as (o2 & tr3 & s2 & H2 & Hs). destruct (EnqueueWake _ _ _) as [err s3]. injection H2 as <- <- <-.
  destruct Hs as (tr4 & Hs & ->).
  assert (Hq : quiet [EvEnqueue (hd_Binding head) w]) by (split; try done; intros ? ? ?; set_solver).
  apply scan_bind in Hs as (o3 & tr5 & s4 & H3 & Hs). apply stop_if_cancelled_ok in H3 as ->.
  assert (Hd : quiet tr4 /\ enqueued tr4 = []).
  { destruct o3 as [[]|]; [destruct Hs as (tr6 & Hs & ->)|destruct Hs as (_ & -> & _)]; [|by split; [apply quiet_nil|]].
    destruct err as [[]|e]; [injection Hs as _ <- _; by split; [apply quiet_nil|]|].
    by apply pause_unless_recovering_ok in Hs as (_ & ? & ?). }
  destruct Hd as [Hq4 He4]. cbn [app]. split; [by apply (quiet_app [_])|]. exists []. split; [|done].
  unfold enqueued in *. cbn. by rewrite He4.
Qed.
Lemma enqueue_wakes_ok head ws (s : E) o tr s' : enqueue_wakes head ws s = (o, tr, s') ->
  quiet tr /\ exists rest, pair (hd_Binding head) <$> ws = enqueued tr ++ rest /\ (is_Some o -> rest = []).
Proof.
  revert s o tr s'. induction ws as [|w ws IH]; intros s o tr s' Hs; cbn [enqueue_wakes] in Hs.
  { injection Hs as <- <- _. split; [apply quiet_nil|]. by exists []. }
  apply scan_bind in Hs as (o1 & tr1 & s1 & H1 & Hs). apply enqueue_wake_ok in H1 as (Hq1 & r1 & Hr1 & Hn1).
  destruct o1 as [[]|]; [destruct Hs as (tr2 & Hs & ->)|destruct Hs as (-> & -> & _)].
  - rewrite Hn1, app_nil_r in Hr1 by done. apply IH in Hs as (Hq2 & r2 & Hr2 & Hn2). split; [by apply quiet_app|].
    exists r2. split; [|done]. unfold enqueued in *. rewrite bind_app, <- Hr1, <- app_assoc, <- Hr2. done.
  - split; [done|]. exists (r1 ++ (pair (hd_Binding head) <$> ws)). split; [|by intros [? ?]].
    rewrite app_assoc, <- Hr1. done.
Qed.

(** What a scan of worlds hands on: all it claims, in order, unless it was stopped. *)
Definition delivers (o : option unit) (tr : list event) : Prop :=
  exists rest, claimed tr = enqueued tr ++ rest /\ (is_Some o -> rest = []).
Lemma scan_world_ok head (s : E) o tr s' : scan_world c head s = (o, tr, s') ->
  delivers o tr /\ paused_for_cause tr /\ length (answers tr) <= 3 /\ retried (answers tr)
  /\ delays tr `prefix_of` [RetryDelay c 1; RetryDelay c 2].
Proof.
  intros Hs. unfold scan_world in Hs. apply scan_bind in Hs as (o1 & tr1 & s1 & H1 & Hs).
  apply stop_if_cancelled_ok in H1 as ->. destruct o1 as [[]|]; [destruct Hs as (tr2 & Hs & ->)|destruct Hs as (-> & -> & _)].
  2: { split_and!; cbn; try lia; try apply prefix_nil; try apply retried_nil; [by exists []|apply quiet_nil]. }
  apply scan_bind in Hs as (o2 & tr3 & s2 & H2 & Hs). apply claim_world_ok in H2 as [Hc He Hp Hn Hr Hd]. cbn [app].
  assert (Htail : exists tr4, tr2 = tr3 ++ tr4 /\ quiet tr4 /\ exists rest,
    match o2 with Some (Ok _, ws) => pair (hd_Binding head) <$> ws | _ => [] end = enqueued tr4 ++ rest /\ (is_Some o -> rest = [])).
  { destruct o2 as [[err ws]|]; [destruct Hs as (tr4 & Hs & ->); exists tr4|destruct Hs as (-> & -> & _); exists []; rewrite app_nil_r].
    2: { split; [done|]. split; [apply quiet_nil|]. by exists []. }
    split; [done|]. apply scan_bind in Hs as (o3 & tr5 & s3 & H3 & Hs). apply stop_if_cancelled_ok in H3 as ->.
    destruct o3 as [[]|]; [destruct Hs as (tr6 & Hs & ->)|destruct Hs as (-> & -> & _)].
    2: { split; [apply quiet_nil|]. eexists. split; [reflexivity|]. by intros [? ?]. }
    cbn [app]. destruct err as [[]|e]; [by apply enqueue_wakes_ok in Hs|].
    apply pause_unless_recovering_ok in Hs as (-> & Hq & ->). split; [done|]. by exists []. }
  destruct Htail as (tr4 & -> & [C4 A4 D4 P4] & rest & Hrest & Hdone).
  unfold delivers, claimed, enqueued, answers, delays in *. rewrite !bind_app, C4, A4, D4, Hc, He, !app_nil_r. split_and!; try done.
  - by exists rest.
  - intros b w e [Hin|Hin]%elem_of_app; eauto.
Qed.
Lemma delivers_app o o' tr1 tr2 : is_Some o -> delivers o tr1 -> delivers o' tr2 -> delivers o' (tr1 ++ tr2).
Proof.
  intros Ho (r1 & H1 & Hn1) (r2 & H2 & Hn2). rewrite Hn1, app_nil_r in H1 by done. exists r2. split; [|done].
  unfold claimed, enqueued in *. by rewrite !bind_app, H1, H2, app_assoc.
Qed.
Lemma scan_worlds_ok heads (s : E) o tr s' : scan_worlds c heads s = (o, tr, s') -> delivers o tr /\ paused_for_cause tr.
Proof.
  revert s o tr s'. induction heads as [|head heads IH]; intros s o tr s' Hs; cbn [scan_worlds] in Hs.
  { injection Hs as <- <- _. split; [by exists []|apply quiet_nil]. }
  apply scan_bind in Hs as (o1 & tr1 & s1 & H1 & Hs). apply scan_world_ok in H1 as (Hd1 & Hp1 & _).
  destruct o1 as [[]|]; [destruct Hs as (tr2 & Hs & ->)|by destruct Hs as (-> & -> & _)].
  apply IH in Hs as (Hd2 & Hp2). split; [by eapply delivers_app|]. intros b w e [Hin|Hin]%elem_of_app; eauto.
Qed.
End Scanning.

(** ** The loop: what is owed

    A token sent and not yet followed by the start of a scan. *)
Definition owed_step (token : dispatcher_label -> bool) (owed : bool) (l : dispatcher_label) : bool :=
  match l with DScanStart => false | _ => owed || token l end.
Definition owed (token : dispatcher_label -> bool) (tr : list dispatcher_label) : bool := fold_left (owed_step token) tr false.
Definition is_notify (l : dispatcher_label) : bool := match l with DNotify => true | _ => false end.
Definition is_update (l : dispatcher_label) : bool := match l with DUpdate => true | _ => false end.

Lemma owed_snoc token tr l : owed token (tr ++ [l]) = owed_step token (owed token tr) l.
Proof. unfold owed. by rewrite fold_left_app. Qed.
Lemma dispatcher_owes tr d : dispatcher_run tr d ->
  (owed is_notify tr = true -> d_notify d = true \/ d_at d = DDone)
  /\ (owed is_update tr = true -> d_updates d = true \/ d_at d = DDone).
Proof.
  induction 1 as [cancelled updates|tr d l d' Hr [IHn IHu] Hs]; [by split|]. rewrite !owed_snoc.
  destruct Hs as [| | |Hd|Hd|Hd Ht|Hd Ht|Hd Hc]; unfold Notify, owed_step; cbn [is_notify is_update orb];
    rewrite ?orb_true_r, ?orb_false_r; try (rewrite Hd in IHn, IHu); cbn [d_notify d_updates d_at]; auto.
  all: destruct (d_at d) eqn:Hat; cbn [d_notify d_updates d_at]; rewrite ?Hat in *; auto;
    split; intros Ho; try done; first [destruct (IHn Ho)|destruct (IHu Ho)]; auto; done.
Qed.

(** ** Properties *)

(** [RetryDelay] is the capped power of two: after the [n]-th failure the delay is [RetryMin * 2^(n-1)], but at most
    [RetryMax]; the doubling never overflows, whatever the number of failures, and the delay stays between the bounds. *)
Theorem retry_delay_is_capped c failures : NewDispatcher true c = Ok tt -> int64_range (RetryMax c) -> (1 <= failures)%Z ->
  RetryDelay c failures = Z.min (RetryMin c * 2 ^ (failures - 1)) (RetryMax c)
  /\ (RetryMin c <= RetryDelay c failures <= RetryMax c)%Z.
Proof.
  unfold NewDispatcher, int64_range. rewrite fail_if_ok, !orb_false_iff, !Z.leb_gt, Z.ltb_ge.
  intros ((((_ & _) & _) & Hmin) & Hmax) [_ HM] Hf.
  assert (Heq : RetryDelay c failures = Z.min (RetryMin c * 2 ^ (failures - 1)) (RetryMax c)).
  { pose proof (retry_doubled_min c (Z.to_nat (failures - 1)) (RetryMin c) Hmin HM) as Hd.
    rewrite Z2Nat.id in Hd by lia. rewrite <- Hd. unfold RetryDelay.
    destruct (Z.ltb_spec (RetryMax c) (retry_doubled c (Z.to_nat (failures - 1)) (RetryMin c))); lia. }
  split; [done|]. rewrite Heq. assert (1 <= 2 ^ (failures - 1))%Z by (pose proof (Z.pow_pos_nonneg 2 (failures - 1)); lia). nia.
Qed.

(** A scan hands on what it claims: the wakes given to [EnqueueWake] are, in order and with their bindings, those the
    guarded claims answered, none twice and none invented; only the scan's cancellation leaves claimed wakes behind.
    And no world is paused for an error that only says its binding is stale, not ready or being saved. *)
Theorem scan_hands_on_every_claim {E} `{GuardLaws E} c (s : E) o tr s' : scan c s = (o, tr, s') ->
  (exists rest, claimed tr = enqueued tr ++ rest /\ (is_Some o -> rest = [])) /\ paused_for_cause tr.
Proof.
  intros Hs. unfold scan in Hs. apply scan_bind in Hs as (o1 & tr1 & s1 & H1 & Hs).
  destruct (ReadyWorlds s) as [heads s2]. injection H1 as <- <- <-. destruct Hs as (tr2 & Hs & ->). by eapply scan_worlds_ok.
Qed.

(** A scan claims a world at most three times: a claim is repeated only after a technical failure, and the delays
    waited in between are those of [RetryDelay] for the first and the second failure. *)
Theorem scan_retries_technical_failures {E} `{GuardLaws E} c head (s : E) o tr s' : scan_world c head s = (o, tr, s') ->
  length (answers tr) <= 3 /\ retried (answers tr) /\ delays tr `prefix_of` [RetryDelay c 1; RetryDelay c 2].
Proof. intros Hs. by apply scan_world_ok in Hs as (_ & _ & ? & ? & ?). Qed.

(** No notification is lost: from a [Notify] or an update on until the next scan starts, its token stays in its
    channel, so that a waiting dispatcher scans at once, unless the goroutine has ended. *)
Theorem notified_scan_starts tr d : dispatcher_run tr d -> d_at d <> DDone ->
  (owed is_notify tr = true -> d_notify d = true) /\ (owed is_update tr = true -> d_updates d = true).
Proof. intros Hr Hd. apply dispatcher_owes in Hr as [Hn Hu]. split; intros Ho; [destruct (Hn Ho)|destruct (Hu Ho)]; done. Qed.

(** ** Instances: the scan over the kernel on the store of Demo.v, for one ready world whose guard lets every claim
    pass; admission accepts every wake. *)
Definition demo_ready (b : Binding) : Head :=
  {| hd_Binding := b; hd_Clock := demo_clock_later; hd_CheckpointID := ""; hd_Status := worldHeadStatusReady; hd_Reason := "" |}.
#[local] Instance demo_outside : Outside St := {|
  ctxErr := fun st => (false, st);
  ReadyWorlds := fun st => ([demo_ready demo_binding], st);
  Guard := fun X b fn s => fn (demo_ready b) s;
  claimDue := fun b clock limit st => ClaimDue b clock limit demo_env st;
  waitDelay := fun _ st => (true, st);
  EnqueueWake := fun b w st => (Ok tt, st);
  PauseWorld := fun b w e st => st
|}.
#[local] Instance demo_guard_laws : GuardLaws St.
Proof. constructor. intros X b fn s x r s' x' Hg. right. by exists (demo_ready b), s, s'. Qed.
Definition demo_config : DispatcherConfig := {| ScanInterval := 1000; BatchSize := 5; RetryMin := 10; RetryMax := 100 |}.
Definition demo_scan : option unit * list event * St := Eval vm_compute in scan demo_config demo_due_st.
Lemma demo_scans : scan demo_config demo_due_st = demo_scan.
Proof. vm_cast_no_check (@eq_refl (option unit * list event * St) demo_scan). Qed.
Definition demo_scan1 : option unit * list event * St := Eval vm_compute in scan_world demo_config (demo_ready demo_binding) demo_due_st.
Lemma demo_scans1 : scan_world demo_config (demo_ready demo_binding) demo_due_st = demo_scan1.
Proof. vm_cast_no_check (@eq_refl (option unit * list event * St) demo_scan1). Qed.

Lemma retry_delay_is_capped_witness : RetryDelay demo_config 3 = 40%Z /\ RetryDelay demo_config 1000 = 100%Z
  /\ RetryDelay demo_config 3 = Z.min (10 * 2 ^ 2) 100.
Proof.
  split; [reflexivity|]. split; [reflexivity|].
  exact (proj1 (retry_delay_is_capped demo_config 3 eq_refl ltac:(unfold int64_range; cbn; lia) ltac:(lia))).
Defined.
Lemma scan_hands_on_every_claim_witness :
  (fun ev => w_ID ev.2) <$> claimed demo_scan.1.2 = [demo_wake] /\ claimed demo_scan.1.2 = enqueued demo_scan.1.2.
Proof.
  split; [reflexivity|].
  destruct (scan_hands_on_every_claim demo_config demo_due_st (Some tt) demo_scan.1.2 demo_scan.2 demo_scans)
    as [(rest & Hrest & Hnil) _].
  rewrite Hrest, Hnil by eauto. apply app_nil_r.
Defined.
Lemma scan_retries_technical_failures_witness : length (answers demo_scan1.1.2) = 1 /\ length (answers demo_scan1.1.2) <= 3.
Proof.
  split; [reflexivity|].
  exact (proj1 (scan_retries_technical_failures demo_config (demo_ready demo_binding) demo_due_st (Some tt)
    demo_scan1.1.2 demo_scan1.2 demo_scans1)).
Defined.
Lemma demo_notified : dispatcher_run [DScanStart; DNotify; DScanEnd] (mkDispatcher false DWaiting true false).
Proof.
  apply (d_run_step [DScanStart; DNotify] (mkDispatcher false DScanning true false)); [|by apply d_step_scan_end].
  apply (d_run_step [DScanStart] (mkDispatcher false DScanning false false)); [constructor|].
  exact (d_step_notify (mkDispatcher false DScanning false false)).
Qed.
Lemma notified_scan_starts_witness :
  exists tr d, dispatcher_run tr d /\ d_at d = DWaiting /\ owed is_notify tr = true /\ d_notify d = true.
Proof.
  exists [DScanStart; DNotify; DScanEnd], (mkDispatcher false DWaiting true false).
  split; [exact demo_notified|]. split; [reflexivity|]. split; [reflexivity|].
  exact (proj1 (notified_scan_starts _ _ demo_notified ltac:(discriminate)) eq_refl).
Defined.
