(* ===== verification/Registry.v ===== *)
(** * Worlds and connections: [runtime/internal/gateway/world_registry.go]

    The registry gives every world to at most one connection and decides which calls
    reach the kernel: a slot per world caches the head the kernel answered, whether the
    world is ready, whether a save is under way, and an epoch that moves whenever
    authority does.  Also the parts of [task_checkpoint.go], [task_tools_authority.go]
    and [task_dispatch.go] that change a slot.

    A slot's mutex makes each critical section one step; between them other goroutines
    run.  [bind] and [disconnect] release the mutex in between, so they are sequences of
    stages under the two lifecycle locks: a connection's (the stage it is at) and a
    world's ([wr_lifecycle]).  The kernel is called at the store the registry carries. *)

From S2P Require Export Kernel Lane.

Local Open Scope go_scope.

(** ** State

    Connections, environments, transports and lane stores are handles; a world's slot is
    named by the world.  The catalogue of a connection never changes and is left out. *)
Record EntityRef := { EntityId : string; EntityType : string; DefinitionId : string; DisplayName : string }.
#[export] Instance EntityRef_eq_dec : EqDecision EntityRef. Proof. solve_decision. Defined.

Record taskWorldBinding := {
  tb_Binding : Binding; tb_Clock : Clock; tb_Entities : list EntityRef; tb_Checkpoint : option CheckpointRef
}.

Record worldSlot := mkSlot {
  ws_owner : option nat; ws_head : Head; ws_entities : gmap string EntityRef; ws_ready : bool; ws_saving : bool;
  ws_saveRequestID : string; ws_saveReobserve : bool; ws_failed : bool; ws_authorityEpoch : N
}.
Definition zeroHead : Head :=
  {| hd_Binding := {| bd_World := {| wk_GameID := ""; wk_WorldID := "" |}; bd_RunID := ""; bd_Generation := 0 |};
     hd_Clock := {| ck_ID := ""; ck_Tick := 0; ck_Sequence := 0 |}; hd_CheckpointID := "";
     hd_Status := HeadStatusOther ""; hd_Reason := "" |}.
(** [&worldSlot{}] *)
Definition newSlot : worldSlot := mkSlot None zeroHead ∅ false false "" false false 0.

(** What a bind or a disconnect still has to do, with the locals it carries. *)
Record bind_plan := {
  bp_value : taskWorldBinding; bp_entities : gmap string EntityRef; bp_ref : CheckpointRef; bp_rebinding : bool
}.
Definition bp_world (p : bind_plan) : WorldKey := bd_World (tb_Binding (bp_value p)).
Inductive stage :=
| BindUnready (request : outcome error taskWorldBinding)
| BindValidate (request : outcome error taskWorldBinding)
| BindAcquire (p : bind_plan)
| BindCloseSelf (e : error)
| BindCloseOld (p : bind_plan) (oldHead : Head) (oldOwner : nat)
| BindDeactivate (p : bind_plan) (oldHead : Head)
| BindFailed (p : bind_plan) (e : error)
| BindRenew (p : bind_plan)
| BindStopped (p : bind_plan)
| BindActivate (p : bind_plan)
| BindInstall (p : bind_plan) (head : Head)
| LeaveTransport (reason : string)
| LeaveAcquire (w : WorldKey) (reason : string)
| LeaveCloseSelf
| LeaveClose (w : WorldKey) (head : Head) (reason : string)
| LeaveDeactivate (w : WorldKey) (head : Head) (reason : string)
| LeaveFinish (w : WorldKey) (reason : string) (result : outcome error unit).

(** [cn_busy]: the stage of the goroutine that holds the connection's lifecycle lock.
    [cn_bound]: the receive loop has a bind's answer and not yet called [markReady].
    [cn_over]: the receive loop has returned. *)
Record worldConnection := mkConn {
  cn_gameID : string; cn_env : nat; cn_transport : nat; cn_lanes : nat; cn_world : option WorldKey;
  cn_busy : option stage; cn_bound : option Head; cn_over : bool
}.

(** [wr_closed]: the environments, transports and lane stores that were closed. *)
Record WorldRegistry := mkRegistry {
  wr_worlds : gmap WorldKey worldSlot; wr_conns : gmap nat worldConnection; wr_lifecycle : gmap WorldKey nat;
  wr_stopped : bool; wr_updates : bool; wr_closed : gset nat; wr_next : nat; wr_store : St
}.

(** ** Field assignments *)
Definition set_slot (w : WorldKey) (s : worldSlot) (r : WorldRegistry) : WorldRegistry :=
  mkRegistry (<[w := s]> (wr_worlds r)) (wr_conns r) (wr_lifecycle r) (wr_stopped r) (wr_updates r) (wr_closed r)
    (wr_next r) (wr_store r).
Definition set_conn (c : nat) (k : worldConnection) (r : WorldRegistry) : WorldRegistry :=
  mkRegistry (wr_worlds r) (<[c := k]> (wr_conns r)) (wr_lifecycle r) (wr_stopped r) (wr_updates r) (wr_closed r)
    (wr_next r) (wr_store r).
Definition set_lifecycle (l : gmap WorldKey nat) (r : WorldRegistry) : WorldRegistry :=
  mkRegistry (wr_worlds r) (wr_conns r) l (wr_stopped r) (wr_updates r) (wr_closed r) (wr_next r) (wr_store r).
Definition set_stopped (r : WorldRegistry) : WorldRegistry :=
  mkRegistry (wr_worlds r) (wr_conns r) (wr_lifecycle r) true (wr_updates r) (wr_closed r) (wr_next r) (wr_store r).
(** [notify] *)
Definition notify (r : WorldRegistry) : WorldRegistry :=
  mkRegistry (wr_worlds r) (wr_conns r) (wr_lifecycle r) (wr_stopped r) true (wr_closed r) (wr_next r) (wr_store r).
Definition close_handles (l : list nat) (r : WorldRegistry) : WorldRegistry :=
  mkRegistry (wr_worlds r) (wr_conns r) (wr_lifecycle r) (wr_stopped r) (wr_updates r) (list_to_set l ∪ wr_closed r)
    (wr_next r) (wr_store r).
Definition set_store (st : St) (r : WorldRegistry) : WorldRegistry :=
  mkRegistry (wr_worlds r) (wr_conns r) (wr_lifecycle r) (wr_stopped r) (wr_updates r) (wr_closed r) (wr_next r) st.
Definition with_ready (ready : bool) (s : worldSlot) : worldSlot :=
  mkSlot (ws_owner s) (ws_head s) (ws_entities s) ready (ws_saving s) (ws_saveRequestID s) (ws_saveReobserve s)
    (ws_failed s) (ws_authorityEpoch s).
Definition with_slot_head (h : Head) (s : worldSlot) : worldSlot :=
  mkSlot (ws_owner s) h (ws_entities s) (ws_ready s) (ws_saving s) (ws_saveRequestID s) (ws_saveReobserve s)
    (ws_failed s) (ws_authorityEpoch s).
Definition with_failed (failed : bool) (s : worldSlot) : worldSlot :=
  mkSlot (ws_owner s) (ws_head s) (ws_entities s) (ws_ready s) (ws_saving s) (ws_saveRequestID s) (ws_saveReobserve s)
    failed (ws_authorityEpoch s).
Definition with_saving (saving : bool) (id : string) (s : worldSlot) : worldSlot :=
  mkSlot (ws_owner s) (ws_head s) (ws_entities s) (ws_ready s) saving id (ws_saveReobserve s) (ws_failed s)
    (ws_authorityEpoch s).
Definition with_reobserve (pending : bool) (s : worldSlot) : worldSlot :=
  mkSlot (ws_owner s) (ws_head s) (ws_entities s) (ws_ready s) (ws_saving s) (ws_saveRequestID s) pending (ws_failed s)
    (ws_authorityEpoch s).
Definition with_owner (owner : option nat) (s : worldSlot) : worldSlot :=
  mkSlot owner (ws_head s) (ws_entities s) (ws_ready s) (ws_saving s) (ws_saveRequestID s) (ws_saveReobserve s)
    (ws_failed s) (ws_authorityEpoch s).
Definition with_entities (l : gmap string EntityRef) (s : worldSlot) : worldSlot :=
  mkSlot (ws_owner s) (ws_head s) l (ws_ready s) (ws_saving s) (ws_saveRequestID s) (ws_saveReobserve s) (ws_failed s)
    (ws_authorityEpoch s).
(** [slot.authorityEpoch++] *)
Definition next_epoch (s : worldSlot) : worldSlot :=
  mkSlot (ws_owner s) (ws_head s) (ws_entities s) (ws_ready s) (ws_saving s) (ws_saveRequestID s) (ws_saveReobserve s)
    (ws_failed s) (wrap_u64 (ws_authorityEpoch s + 1)).
Definition with_busy (busy : option stage) (k : worldConnection) : worldConnection :=
  mkConn (cn_gameID k) (cn_env k) (cn_transport k) (cn_lanes k) (cn_world k) busy (cn_bound k) (cn_over k).
Definition with_bound (bound : option Head) (k : worldConnection) : worldConnection :=
  mkConn (cn_gameID k) (cn_env k) (cn_transport k) (cn_lanes k) (cn_world k) (cn_busy k) bound (cn_over k).
Definition with_over (k : worldConnection) : worldConnection :=
  mkConn (cn_gameID k) (cn_env k) (cn_transport k) (cn_lanes k) (cn_world k) (cn_busy k) (cn_bound k) true.
Definition with_world (w : WorldKey) (k : worldConnection) : worldConnection :=
  mkConn (cn_gameID k) (cn_env k) (cn_transport k) (cn_lanes k) (Some w) (cn_busy k) (cn_bound k) (cn_over k).
Definition renewed (env lanes : nat) (k : worldConnection) : worldConnection :=
  mkConn (cn_gameID k) env (cn_transport k) lanes (cn_world k) (cn_busy k) (cn_bound k) (cn_over k).

(** ** The kernel at the registry's store *)
Definition kernel {A} (m : M A) (env : Env) (r : WorldRegistry) : outcome error A * WorldRegistry :=
  let '(o, st) := m env (wr_store r) in (o, set_store st r).

(** ** Slots *)
Definition registry_slot (w : WorldKey) (create : bool) (r : WorldRegistry) : option worldSlot * WorldRegistry :=
  match wr_worlds r !! w with
  | Some s => (Some s, r)
  | None => if create && ! wr_stopped r then (Some newSlot, set_slot w newSlot r) else (None, r)
  end.

Record WorldEntry := {
  we_Head : Head; we_AuthorityEpoch : N; we_ConnectionID : nat; we_Entities : gmap string EntityRef;
  we_Environment : nat; we_Lanes : nat
}.
(** [snapshot], of a slot with an owner. *)
Definition slot_snapshot (r : WorldRegistry) (s : worldSlot) : option WorldEntry :=
  c ← ws_owner s; k ← wr_conns r !! c;
  Some {| we_Head := ws_head s; we_AuthorityEpoch := ws_authorityEpoch s; we_ConnectionID := c;
          we_Entities := ws_entities s; we_Environment := cn_env k; we_Lanes := cn_lanes k |}.
(** [slot.owner.env]; [None] without an owner. *)
Definition owner_env (r : WorldRegistry) (s : worldSlot) : option nat :=
  c ← ws_owner s; cn_env <$> wr_conns r !! c.

Definition registry_Current (w : WorldKey) (r : WorldRegistry) : option WorldEntry :=
  s ← wr_worlds r !! w;
  if ! ws_ready s || ws_saving s then None else slot_snapshot r s.

Definition world_less (a b : Head) : bool :=
  let '(x, y) := (bd_World (hd_Binding a), bd_World (hd_Binding b)) in
  if wk_GameID x != wk_GameID y then str_lt (wk_GameID x) (wk_GameID y) else str_lt (wk_WorldID x) (wk_WorldID y).
Definition registry_ReadyWorlds (r : WorldRegistry) : list Head :=
  sort_slice world_less
    (ws_head <$> List.filter (fun s => ws_ready s && ! ws_saving s) ((map_to_list (wr_worlds r)).*2)).

Definition slot_check (r : WorldRegistry) (env : nat) (binding : Binding) (s : worldSlot) : outcome error unit :=
  _ ← fail_if ((owner_env r s != Some env) || (hd_Binding (ws_head s) != binding)) ErrGenerationStale;
  _ ← fail_if (ws_saving s) ErrSaveInProgress;
  fail_if (! ws_ready s) ErrWorldNotReady.

(** The entry a guard runs its callback on. *)
Definition guard_entry (env : nat) (binding : Binding) (r : WorldRegistry) : outcome error WorldEntry :=
  s ← of_option (wr_worlds r !! bd_World binding) ErrWorldNotReady;
  _ ← slot_check r env binding s;
  of_option (slot_snapshot r s) ErrWorldNotReady.
(** [Guard]; its callback, under the slot's mutex, calls the kernel and not the registry. *)
Definition registry_Guard {A} (env : nat) (binding : Binding) (fn : WorldEntry -> M A) (e : Env) (r : WorldRegistry) :
    outcome error A * WorldRegistry :=
  match guard_entry env binding r with Err err => (Err err, r) | Ok entry => kernel (fn entry) e r end.

(** [worldTaskAuthority]: the authority of an environment in one world. *)
Definition authority_Current (env : nat) (world : WorldKey) (r : WorldRegistry) : option (Head * N) :=
  s ← wr_worlds r !! world;
  if ! ws_ready s || ws_saving s || (owner_env r s != Some env) then None else Some (ws_head s, ws_authorityEpoch s).
Definition guardEntry {A} (env : nat) (world : WorldKey) (binding : Binding) (epoch : N) (fn : WorldEntry -> M A)
    (e : Env) (r : WorldRegistry) : outcome error A * WorldRegistry :=
  if bd_World binding != world then (Err ErrWorldMismatch, r) else
  registry_Guard env binding (fun entry =>
    if we_AuthorityEpoch entry != epoch then fail ErrGenerationStale else fn entry) e r.
Definition GuardOwner {A} (env : nat) (world : WorldKey) (binding : Binding) (epoch : N) (entityID : string)
    (fn : Head -> M A) : Env -> WorldRegistry -> outcome error A * WorldRegistry :=
  guardEntry env world binding epoch (fun entry =>
    match we_Entities entry !! entityID with None => fail ErrSourceInvalid | Some _ => fn (we_Head entry) end).

Definition SetSaveBarrier (env : nat) (binding : Binding) (saving : bool) (r : WorldRegistry) :
    outcome error unit * WorldRegistry :=
  match wr_worlds r !! bd_World binding with
  | None => (Err ErrWorldNotReady, r)
  | Some s =>
    if (owner_env r s != Some env) || (hd_Binding (ws_head s) != binding) then (Err ErrGenerationStale, r) else
    if ! ws_ready s then (Err ErrWorldNotReady, r) else
    let s := if saving && ! ws_saving s then next_epoch s else s in
    (Ok tt, set_slot (bd_World binding) (with_saving saving (ws_saveRequestID s) s) r)
  end.

(** ** The directory of a binding *)
Definition trimmed (id : string) : bool := (id != "") && (TrimSpace id == id).
Fixpoint directory_of (l : list EntityRef) (result : gmap string EntityRef) : outcome error (gmap string EntityRef) :=
  match l with
  | [] => Ok result
  | e :: l =>
    _ ← fail_if (! trimmed (EntityId e) || ! trimmed (EntityType e) || ! trimmed (DefinitionId e)) ErrInvalidTaskSpec;
    _ ← fail_if (bool_decide (is_Some (result !! EntityId e))) ErrInvalidTaskSpec;
    directory_of l (<[EntityId e := e]> result)
  end.
Definition validateWorldDirectory (value : taskWorldBinding) : outcome error (gmap string EntityRef) :=
  _ ← fail_if (tb_Entities value == []) ErrInvalidTaskSpec;
  directory_of (tb_Entities value) ∅.

(** An event's target joins the directory of the current world ([RegisterEventTarget]);
    the answers that are no task error carry their protocol code. *)
Definition RegisterEventTarget (env : nat) (world : WorldKey) (eventWorldID : string)
    (source : option (outcome error Binding)) (target : EntityRef) (r : WorldRegistry) :
    outcome error unit * WorldRegistry :=
  match wr_worlds r !! world with
  | None => (Ok tt, r)
  | Some s =>
    if owner_env r s != Some env then (Err ErrGenerationStale, r) else
    if ! ws_ready s || ws_saving s then (Ok tt, r) else
    if eventWorldID != wk_WorldID world then (Err ErrWorldMismatch, r) else
    if match source with
       | None => false
       | Some (Ok b) => b != hd_Binding (ws_head s)
       | Some (Err _) => true
       end then (Err ErrSourceInvalid, r) else
    if (EntityId target == "") || (EntityType target == "") || (DefinitionId target == "")
    then (Err (Opaque "target_entity_invalid" None), r) else
    if match ws_entities s !! EntityId target with
       | Some prior => (EntityType prior != EntityType target) || (DefinitionId prior != DefinitionId target)
       | None => false
       end then (Err (Opaque "target_entity_conflict" None), r) else
    (Ok tt, set_slot world (with_entities (<[EntityId target := target]> (ws_entities s)) s) r)
  end.

(** ** Clock *)
Definition taskDispatchCode (err : option error) : string :=
  match err with
  | None => "ok"
  | Some e => match As_task e with Some (c, _, _) => Code_string c | None => Code_string CodeTaskConflict end
  end.
Definition errors_of {A} (o : outcome error A) : list error := match o with Ok _ => [] | Err e => [e] end.
(** The slot is fenced before the kernel is told; [errors.Join] is the list of both. *)
Definition pauseClockViolation (w : WorldKey) (s : worldSlot) (cause : error) (env : Env) (r : WorldRegistry) :
    outcome (list error) unit * WorldRegistry :=
  let s := with_slot_head (head_paused (taskDispatchCode (Some cause)) (ws_head s)) (with_ready false (next_epoch s)) in
  let '(o, r) := kernel (DeactivateWorld (hd_Binding (ws_head s)) (hd_Reason (ws_head s))) env (set_slot w s r) in
  (Err (cause :: errors_of o), r).

(** Does the environment own a slot of another world? *)
Definition owns_elsewhere (env : nat) (w : WorldKey) (r : WorldRegistry) : bool :=
  existsb (fun s => (owner_env r s == Some env) && (bd_World (hd_Binding (ws_head s)) != w))
    ((map_to_list (wr_worlds r)).*2).
Definition registry_UpdateClock (envID : nat) (scope : outcome error Binding) (sample : outcome error Clock)
    (env : Env) (r : WorldRegistry) : outcome (list error) unit * WorldRegistry :=
  match scope, sample with
  | Err e, _ | Ok _, Err e => (Err [e], r)
  | Ok binding, Ok clock =>
    if owns_elsewhere envID (bd_World binding) r then (Err [ErrWorldMismatch], r) else
    match wr_worlds r !! bd_World binding with
    | None => (Err [ErrWorldNotReady], r)
    | Some s =>
      match slot_check r envID binding s with
      | Err e => (Err [e], r)
      | Ok _ =>
        let current := hd_Clock (ws_head s) in
        if ck_ID clock != ck_ID current then (Err [ErrClockMismatch], r) else
        if (ck_Sequence clock == ck_Sequence current) && (clock != current)
        then pauseClockViolation (bd_World binding) s ErrClockMismatch env r else
        if (ck_Sequence clock <? ck_Sequence current)%N || (ck_Tick clock <? ck_Tick current)%Z
        then pauseClockViolation (bd_World binding) s ErrClockRewound env r else
        match kernel (UpdateClock binding clock) env r with
        | (Err e, r) => (Err [e], r)
        | (Ok head, r) => (Ok tt, notify (set_slot (bd_World binding) (with_slot_head head s) r))
        end
      end
    end
  end.

(** ** Saves *)
Definition releasePrepareBarrier (s : worldSlot) : worldSlot := next_epoch (with_ready false (with_saving false "" s)).
Definition registry_PrepareCheckpoint (envID : nat) (binding : Binding) (clock : Clock) (saveRequestID : string)
    (finalEvidence : outcome error (list Evidence)) (env : Env) (r : WorldRegistry) :
    outcome error Prepared * WorldRegistry :=
  let w := bd_World binding in
  match wr_worlds r !! w with
  | None => (Err ErrWorldNotReady, r)
  | Some s =>
    if ws_saving s then
      if (owner_env r s != Some envID) || (ws_saveRequestID s != saveRequestID) then (Err ErrSaveInProgress, r) else
      match finalEvidence with
      | Err e => (Err e, r)
      | Ok evidence => kernel (PrepareCheckpoint binding clock saveRequestID evidence) env r
      end
    else
    match slot_check r envID binding s with
    | Err e => (Err e, r)
    | Ok _ =>
      let s := next_epoch (with_reobserve true (with_saving true saveRequestID s)) in
      match finalEvidence with
      | Err e => (Err e, set_slot w (releasePrepareBarrier s) r)
      | Ok evidence =>
        match kernel (UpdateClock binding clock) env r with
        | (Err e, r) => (Err e, set_slot w (releasePrepareBarrier s) r)
        | (Ok _, r) =>
          match kernel (PrepareCheckpoint binding clock saveRequestID evidence) env r with
          | (Err e, r) => (Err e, set_slot w (releasePrepareBarrier s) r)
          | (Ok prepared, r) => (Ok prepared, set_slot w (with_ready false (with_slot_head (pp_Head prepared) s)) r)
          end
        end
      end
    end
  end.
Definition registry_FinishCheckpoint (binding : Binding) (saveRequestID : string) (saved : bool) (env : Env)
    (r : WorldRegistry) : outcome error unit * WorldRegistry :=
  match wr_worlds r !! bd_World binding with
  | None => (Err ErrWorldNotReady, r)
  | Some s =>
    if ws_owner s == None then (Err ErrGenerationStale, r) else
    match kernel (FinishCheckpoint binding saveRequestID saved) env r with
    | (Err e, r) => (Err e, r)
    | (Ok _, r) =>
      (Ok tt, if ws_saving s && (ws_saveRequestID s == saveRequestID)
              then set_slot (bd_World binding) (with_saving false "" s) r else r)
    end
  end.
Definition releaseExpiredSaveBarrier (w : WorldKey) (env : Env) (r : WorldRegistry) : outcome error unit * WorldRegistry :=
  let '(o, r) := kernel (ReadCheckpointBarrier w) env r in
  (barrier ← o; fail_if (cb_Held barrier) ErrSaveInProgress, r).
Definition takeSaveReobserve (w : WorldKey) (r : WorldRegistry) : bool * WorldRegistry :=
  match wr_worlds r !! w with
  | None => (false, r)
  | Some s => (ws_saveReobserve s, set_slot w (with_reobserve false s) r)
  end.

(** [taskDispatch.PauseWorld]: the fence; [DeactivateWorld] follows outside the mutex,
    with the reason answered. *)
Definition PauseWorld_fence (binding : Binding) (err : error) (r : WorldRegistry) : option string * WorldRegistry :=
  match wr_worlds r !! bd_World binding with
  | None => (None, r)
  | Some s =>
    if (hd_Binding (ws_head s) != binding) || (ws_owner s == None) then (None, r) else
    let reason := ("task_dispatch_" ++ taskDispatchCode (Some err))%string in
    (Some reason,
     set_slot (bd_World binding) (with_slot_head (head_paused reason (ws_head s)) (next_epoch (with_ready false s))) r)
  end.

(** ** Admission *)
Definition markReady (c : nat) (head : Head) (r : WorldRegistry) : outcome error unit * WorldRegistry :=
  match wr_worlds r !! bd_World (hd_Binding head) with
  | None => (Err ErrWorldNotReady, r)
  | Some s =>
    if wr_stopped r || (ws_owner s != Some c) || (ws_head s != head) || ws_failed s then (Err ErrWorldNotReady, r)
    else (Ok tt, notify (set_slot (bd_World (hd_Binding head)) (with_ready true s) r))
  end.
(** [StopAdmission] stops the registry, then closes the slots one by one. *)
Definition stop_slot (w : WorldKey) (r : WorldRegistry) : WorldRegistry :=
  match wr_worlds r !! w with None => r | Some s => set_slot w (with_ready false s) r end.
Definition StopAdmission (r : WorldRegistry) : WorldRegistry :=
  foldl (fun r w => stop_slot w r) (set_stopped r) ((map_to_list (wr_worlds r)).*1).

(** ** [bind] and [disconnect], stage by stage

    A stage ends in the next one, in the answer of the bind, or in the answer of the
    disconnect; with an answer both lifecycle locks are released. *)
Inductive progress :=
| Next (s : stage)
| Bound (answer : outcome error Head)
| Left (answer : outcome error unit).

Definition update_slot (w : WorldKey) (f : worldSlot -> worldSlot) (r : WorldRegistry) : WorldRegistry :=
  match wr_worlds r !! w with None => r | Some s => set_slot w (f s) r end.
Definition update_conn (c : nat) (f : worldConnection -> worldConnection) (r : WorldRegistry) : WorldRegistry :=
  match wr_conns r !! c with None => r | Some k => set_conn c (f k) r end.
Definition take_lifecycle (w : WorldKey) (c : nat) (r : WorldRegistry) : WorldRegistry :=
  set_lifecycle (<[w := c]> (wr_lifecycle r)) r.

(** A connection that binds again is closed to new calls first. *)
Definition bind_unready (c : nat) (k : worldConnection) (r : WorldRegistry) : WorldRegistry :=
  match cn_world k with
  | None => r
  | Some w => update_slot w (fun s => if ws_owner s == Some c then with_ready false s else s) r
  end.
Definition checkpoint_of (value : taskWorldBinding) : CheckpointRef :=
  match tb_Checkpoint value with
  | Some ref => ref
  | None => {| rf_Status := checkpointStatusAbsent; rf_ID := ""; rf_Checksum := ""; rf_SchemaVersion := 0;
               rf_World := bd_World (tb_Binding value); rf_Reason := "" |}
  end.
Definition bind_validate (k : worldConnection) (request : outcome error taskWorldBinding) : outcome error bind_plan :=
  value ← request;
  let w := bd_World (tb_Binding value) in
  _ ← fail_if (wk_GameID w != cn_gameID k) ErrWorldMismatch;
  entities ← validateWorldDirectory value;
  _ ← fail_if (rf_World (checkpoint_of value) != w) ErrCheckpointInvalid;
  _ ← fail_if (match cn_world k with Some w' => w' != w | None => false end) ErrWorldMismatch;
  Ok {| bp_value := value; bp_entities := entities; bp_ref := checkpoint_of value; bp_rebinding := false |}.

(** The first critical section of a bind, under the slot's mutex. *)
Definition bind_acquire (c : nat) (p : bind_plan) (env : Env) (r : WorldRegistry) : progress * WorldRegistry :=
  let w := bp_world p in
  let b := tb_Binding (bp_value p) in
  match wr_worlds r !! w with
  | None => (Bound (Err ErrWorldNotReady), r)
  | Some s =>
    if ws_failed s then (Bound (Err ErrWorldNotReady), r) else
    let rebinding := ws_owner s == Some c in
    let '(persisted, r) := kernel (ReadHead w) env r in
    let head_err := match persisted with
                    | Err e => if Is_code e CodeTaskNotFound then None else Some e
                    | Ok _ => None
                    end in
    match head_err with
    | Some e =>
      if rebinding then (Next (BindCloseSelf e), set_slot w (next_epoch (with_failed true s)) r) else (Bound (Err e), r)
    | None =>
      if (bd_Generation b != 0%N)
         && match persisted with
            | Err _ => true
            | Ok h => (bd_Generation b != bd_Generation (hd_Binding h)) || (bd_RunID b != bd_RunID (hd_Binding h))
            end
      then (Bound (Err ErrGenerationStale), r) else
      if (ws_owner s != None) && ! rebinding && (bd_Generation b == 0%N) then (Bound (Err ErrWorldNotReady), r) else
      if rebinding && (bd_RunID b != bd_RunID (hd_Binding (ws_head s))) then (Bound (Err ErrGenerationStale), r) else
      let '(released, r) := if ws_saving s then releaseExpiredSaveBarrier w env r else (Ok tt, r) in
      match released with
      | Err e => (Bound (Err e), r)
      | Ok _ =>
        let s := if ws_saving s then with_failed false (with_saving false "" s) else s in
        let p := {| bp_value := bp_value p; bp_entities := bp_entities p; bp_ref := bp_ref p; bp_rebinding := rebinding |} in
        (Next (match ws_owner s with Some old => BindCloseOld p (ws_head s) old | None => BindStopped p end),
         set_slot w (with_ready false (next_epoch s)) r)
      end
    end
  end.

Definition pause_reason (h : Head) (reason : string) : string :=
  if (hd_Status h == worldHeadStatusPaused) && (hd_Reason h != "") then hd_Reason h else reason.
Definition bind_install (c : nat) (p : bind_plan) (head : Head) (r : WorldRegistry) : WorldRegistry :=
  update_conn c (with_world (bp_world p))
    (update_slot (bp_world p) (fun s =>
       with_saving false "" (with_entities (bp_entities p) (with_slot_head head (with_owner (Some c) s)))) r).

Definition leave_acquire (c : nat) (w : WorldKey) (reason : string) (r : WorldRegistry) : progress * WorldRegistry :=
  match wr_worlds r !! w with
  | None => (Left (Ok tt), r)
  | Some s =>
    if ws_owner s != Some c then (Next LeaveCloseSelf, r) else
    (Next (LeaveClose w (ws_head s) reason), set_slot w (next_epoch (with_ready false s)) r)
  end.
Definition leave_finish (w : WorldKey) (reason : string) (result : outcome error unit) (s : worldSlot) : worldSlot :=
  match result with
  | Err e => if Is_code e CodeSaveInProgress then s else with_failed true s
  | Ok _ => with_slot_head (head_paused reason (ws_head s)) (with_saving false "" (with_owner None s))
  end.

(** One stage of the goroutine that holds connection [c]'s lifecycle lock. *)
Definition stage_step (c : nat) (k : worldConnection) (st : stage) (env : Env) (r : WorldRegistry) : progress * WorldRegistry :=
  match st with
  | BindUnready request => (Next (BindValidate request), bind_unready c k r)
  | BindValidate request =>
    match bind_validate k request with
    | Err e => (Bound (Err e), r)
    | Ok p => match registry_slot (bp_world p) true r with
              | (None, r) => (Bound (Err ErrWorldNotReady), r)
              | (Some _, r) => (Next (BindAcquire p), r)
              end
    end
  | BindAcquire p => bind_acquire c p env (take_lifecycle (bp_world p) c r)
  | BindCloseSelf e => (Bound (Err e), close_handles [cn_env k; cn_lanes k] r)
  | BindCloseOld p oldHead old =>
    (Next (BindDeactivate p oldHead),
     match wr_conns r !! old with
     | None => r
     | Some o => close_handles (if old == c then [cn_env o; cn_lanes o] else [cn_env o; cn_transport o; cn_lanes o]) r
     end)
  | BindDeactivate p oldHead =>
    match kernel (DeactivateWorld (hd_Binding oldHead) (pause_reason oldHead "world_rebind")) env r with
    | (Err e, r) => (Next (BindFailed p e), r)
    | (Ok _, r) => (Next (if bp_rebinding p then BindRenew p else BindStopped p), r)
    end
  | BindFailed p e => (Bound (Err e), update_slot (bp_world p) (with_failed true) r)
  | BindRenew p =>
    (Next (BindStopped p),
     update_conn c (renewed (wr_next r) (S (wr_next r)))
       (mkRegistry (wr_worlds r) (wr_conns r) (wr_lifecycle r) (wr_stopped r) (wr_updates r) (wr_closed r)
          (S (S (wr_next r))) (wr_store r)))
  | BindStopped p => if wr_stopped r then (Bound (Err ErrWorldNotReady), r) else (Next (BindActivate p), r)
  | BindActivate p =>
    let b := tb_Binding (bp_value p) in
    match kernel (ActivateWorld (bd_World b) (bd_RunID b) (tb_Clock (bp_value p)) (bp_ref p)) env r with
    | (Err e, r) => (Bound (Err e), r)
    | (Ok head, r) =>
      if hd_Status head != worldHeadStatusReady then (Bound (Err ErrWorldNotReady), r) else (Next (BindInstall p head), r)
    end
  | BindInstall p head => (Bound (Ok head), bind_install c p head r)
  | LeaveTransport reason =>
    (match cn_world k with
     | None => Next LeaveCloseSelf
     | Some w => match wr_worlds r !! w with Some _ => Next (LeaveAcquire w reason) | None => Left (Ok tt) end
     end, close_handles [cn_transport k] r)
  | LeaveAcquire w reason => leave_acquire c w reason (take_lifecycle w c r)
  | LeaveCloseSelf => (Left (Ok tt), close_handles [cn_env k; cn_lanes k] r)
  | LeaveClose w head reason =>
    (Next (LeaveDeactivate w head (pause_reason head reason)), close_handles [cn_env k; cn_lanes k] r)
  | LeaveDeactivate w head reason =>
    let '(o, r) := kernel (DeactivateWorld (hd_Binding head) reason) env r in (Next (LeaveFinish w reason o), r)
  | LeaveFinish w reason result => (Left result, update_slot w (leave_finish w reason result) r)
  end.
(** The stages that start by taking a world's lifecycle lock wait for it. *)
Definition awaits (st : stage) : option WorldKey :=
  match st with BindAcquire p => Some (bp_world p) | LeaveAcquire w _ => Some w | _ => None end.
Definition release_lifecycle (c : nat) (r : WorldRegistry) : WorldRegistry :=
  set_lifecycle (filter (fun kv => kv.2 <> c) (wr_lifecycle r)) r.
(** The step of connection [c]'s holder, the locks released at its end; a bind that
    succeeded leaves its head to the receive loop. *)
Definition progress_step (c : nat) (k : worldConnection) (st : stage) (env : Env) (r : WorldRegistry) : WorldRegistry :=
  match stage_step c k st env r with
  | (Next st', r') => update_conn c (with_busy (Some st')) r'
  | (Bound (Ok head), r') => update_conn c (fun k => with_bound (Some head) (with_busy None k)) (release_lifecycle c r')
  | (Bound (Err _), r') | (Left _, r') => update_conn c (with_busy None) (release_lifecycle c r')
  end.

(** ** Runs of the registry *)
Definition connect (gameID : string) (r : WorldRegistry) : WorldRegistry :=
  let n := wr_next r in
  set_conn n (mkConn gameID n (n + 1) (n + 2) None None None false)
    (mkRegistry (wr_worlds r) (wr_conns r) (wr_lifecycle r) (wr_stopped r) (wr_updates r) (wr_closed r) (n + 3) (wr_store r)).
Definition is_bind (st : stage) : bool :=
  match st with
  | LeaveTransport _ | LeaveAcquire _ _ | LeaveCloseSelf | LeaveClose _ _ _ | LeaveDeactivate _ _ _ | LeaveFinish _ _ _ => false
  | _ => true
  end.
(** The receive loop is between two messages. *)
Definition in_loop (k : worldConnection) : bool :=
  negb (cn_over k) && match cn_bound k with Some _ => false | None => true end
  && match cn_busy k with Some st => negb (is_bind st) | None => true end.
(** The receive loop has returned, with no answer of a bind pending. *)
Definition loop_left (k : worldConnection) : bool := cn_over k && match cn_bound k with Some _ => false | None => true end.
Definition installs (st : stage) : option WorldKey := match st with BindInstall p _ => Some (bp_world p) | _ => None end.

(** One step of any goroutine; the label is the world a bind is installed in.  Guarded
    kernel calls and calls from elsewhere are arbitrary. *)
Inductive registry_step (r : WorldRegistry) : option WorldKey -> WorldRegistry -> Prop :=
| rs_connect gameID : registry_step r None (connect gameID r)
| rs_request c k request : wr_conns r !! c = Some k -> in_loop k = true -> cn_busy k = None ->
    registry_step r None (update_conn c (with_busy (Some (BindUnready request))) r)
| rs_progress c k st env : wr_conns r !! c = Some k -> cn_busy k = Some st ->
    (forall w, awaits st = Some w -> wr_lifecycle r !! w = None) ->
    registry_step r (installs st) (progress_step c k st env r)
| rs_mark_ready c k h r' : wr_conns r !! c = Some k -> cn_bound k = Some h -> markReady c h r = (Ok tt, r') ->
    registry_step r None (update_conn c (with_bound None) r')
| rs_not_ready c k h e r' : wr_conns r !! c = Some k -> cn_bound k = Some h -> markReady c h r = (Err e, r') ->
    registry_step r None (update_conn c (fun k => with_over (with_bound None k)) r')
| rs_send_failed c k h : wr_conns r !! c = Some k -> cn_bound k = Some h ->
    registry_step r None (update_conn c (fun k => with_over (with_bound None k)) r)
| rs_end c k : wr_conns r !! c = Some k -> in_loop k = true -> registry_step r None (update_conn c with_over r)
| rs_disconnect c k reason : wr_conns r !! c = Some k -> cn_busy k = None -> loop_left k || wr_stopped r = true ->
    registry_step r None (update_conn c (with_busy (Some (LeaveTransport reason))) r)
| rs_clock c k scope sample env : wr_conns r !! c = Some k -> in_loop k = true ->
    registry_step r None (registry_UpdateClock (cn_env k) scope sample env r).2
| rs_prepare c k b clock id evidence env : wr_conns r !! c = Some k -> in_loop k = true ->
    registry_step r None (registry_PrepareCheckpoint (cn_env k) b clock id evidence env r).2
| rs_finish b id saved env : registry_step r None (registry_FinishCheckpoint b id saved env r).2
| rs_event envID w ew source target : registry_step r None (RegisterEventTarget envID w ew source target r).2
| rs_guard envID b (c : call) env : registry_step r None (registry_Guard envID b (fun _ => perform c) env r).2
| rs_pause b err : registry_step r None (PauseWorld_fence b err r).2
| rs_reobserve w : registry_step r None (takeSaveReobserve w r).2
| rs_stop : registry_step r None (set_stopped r)
| rs_stop_slot w : wr_stopped r = true -> registry_step r None (stop_slot w r)
| rs_call (c : call) env : registry_step r None (kernel (perform c) env r).2.
Inductive registry_run (r : WorldRegistry) : list WorldKey -> WorldRegistry -> Prop :=
| registry_run_nil : registry_run r [] r
| registry_run_step l r1 w r2 : registry_run r l r1 -> registry_step r1 w r2 -> registry_run r (l ++ option_list w) r2.
(** [NewWorldRegistry] *)
Definition NewWorldRegistry (st : St) : WorldRegistry := mkRegistry ∅ ∅ ∅ false false ∅ 0 st.
