(* ===== verification/RegistryFacts.v ===== *)
(** * What the world registry keeps

    Invariants of the registry over every interleaving of its connections, the guarded
    calls and the kernel. *)

From S2P Require Export Registry.

Local Open Scope go_scope.

#[local] Opaque ReadHead ReadCheckpointBarrier DeactivateWorld ActivateWorld UpdateClock PrepareCheckpoint
  FinishCheckpoint perform.

(** ** Invariant *)
Definition slot_ready (h : Head) : Prop := hd_Status h = worldHeadStatusReady.
(** A connection's plan names the world it already has, if any. *)
Definition bind_fits (k : worldConnection) (p : bind_plan) : Prop :=
  match cn_world k with Some w => w = bp_world p | None => True end.
(** No [markReady] of this connection can succeed any more. *)
Definition retired (r : WorldRegistry) (k : worldConnection) : Prop := cn_bound k = None \/ wr_stopped r = true.
Definition leaving (r : WorldRegistry) (c : nat) (k : worldConnection) (w : WorldKey) : Prop :=
  retired r k /\ wr_lifecycle r !! w = Some c
  /\ exists s, wr_worlds r !! w = Some s /\ ws_owner s = Some c /\ ws_ready s = false.
Definition stage_ok (r : WorldRegistry) (c : nat) (k : worldConnection) (st : stage) : Prop :=
  match st with
  | BindAcquire p => bind_fits k p
  | BindCloseOld p _ _ | BindDeactivate p _ | BindRenew p | BindStopped p | BindActivate p =>
      bind_fits k p /\ wr_lifecycle r !! bp_world p = Some c
  | BindInstall p h => bind_fits k p /\ wr_lifecycle r !! bp_world p = Some c /\ slot_ready h
  | LeaveTransport _ | LeaveAcquire _ _ => retired r k
  | LeaveClose w _ _ | LeaveDeactivate w _ _ | LeaveFinish w _ _ => leaving r c k w
  | BindUnready _ | BindValidate _ | BindCloseSelf _ | BindFailed _ _ | LeaveCloseSelf => True
  end.
Record registry_ok (r : WorldRegistry) : Prop := {
  ro_next : forall c k, wr_conns r !! c = Some k -> c < wr_next r /\ cn_env k < wr_next r;
  ro_env : forall c c' k k', wr_conns r !! c = Some k -> wr_conns r !! c' = Some k' -> cn_env k = cn_env k' -> c = c';
  ro_owner : forall w s c, wr_worlds r !! w = Some s -> ws_owner s = Some c ->
    exists k, wr_conns r !! c = Some k /\ cn_world k = Some w;
  ro_ready : forall w s, wr_worlds r !! w = Some s -> ws_ready s = true -> is_Some (ws_owner s) /\ slot_ready (ws_head s);
  ro_bound : forall c k h, wr_conns r !! c = Some k -> cn_bound k = Some h -> slot_ready h;
  ro_stage : forall c k st, wr_conns r !! c = Some k -> cn_busy k = Some st -> stage_ok r c k st
}.

(** ** Steps that neither admit nor give away a world *)
Definition calm_slot (s s' : worldSlot) : Prop :=
  ws_owner s' = ws_owner s /\ (ws_ready s' = true -> ws_ready s = true /\ (slot_ready (ws_head s) -> slot_ready (ws_head s'))).
Definition idle_slot (s : worldSlot) : Prop := ws_owner s = None /\ ws_ready s = false.
Definition calm_worlds (m m' : gmap WorldKey worldSlot) : Prop :=
  (forall w s', m' !! w = Some s' -> (m !! w = None /\ idle_slot s') \/ exists s, m !! w = Some s /\ calm_slot s s')
  /\ (forall w s, m !! w = Some s -> is_Some (m' !! w)).
Lemma calm_slot_refl s : calm_slot s s.
Proof. by split. Qed.
Lemma calm_worlds_refl m : calm_worlds m m.
Proof. split; [intros w s' H; right; exists s'; by split; [|apply calm_slot_refl]|intros w s H; by eexists]. Qed.
Lemma calm_worlds_insert m w s s' : m !! w = Some s -> calm_slot s s' -> calm_worlds m (<[w := s']> m).
Proof.
  intros Hs Hc. split.
  - intros w' s'' [[<- <-]|[Hne H]]%lookup_insert_Some; right; [by exists s|exists s''; by split; [|apply calm_slot_refl]].
  - intros w' s'' H. rewrite lookup_insert_is_Some. destruct (decide (w = w')); [by left|right]. split; [done|by eexists].
Qed.
Lemma calm_worlds_new m w : m !! w = None -> calm_worlds m (<[w := newSlot]> m).
Proof.
  intros Hs. split.
  - intros w' s'' [[<- <-]|[Hne H]]%lookup_insert_Some; [by left|right; exists s''; by split; [|apply calm_slot_refl]].
  - intros w' s'' H. rewrite lookup_insert_is_Some. destruct (decide (w = w')); [by left|right]. split; [done|by eexists].
Qed.

(** What a step may do to the rest: locks of others stay, stopping is for good. *)
Record calm (c0 : option nat) (r r' : WorldRegistry) : Prop := {
  ca_worlds : calm_worlds (wr_worlds r) (wr_worlds r');
  ca_conns : wr_conns r' = wr_conns r;
  ca_lock : forall w c, c0 <> Some c -> wr_lifecycle r !! w = Some c -> wr_lifecycle r' !! w = Some c;
  ca_stopped : wr_stopped r = true -> wr_stopped r' = true;
  ca_next : wr_next r <= wr_next r'
}.
Lemma calm_same c0 r r' : wr_worlds r' = wr_worlds r -> wr_conns r' = wr_conns r -> wr_lifecycle r' = wr_lifecycle r ->
  wr_stopped r' = wr_stopped r -> wr_next r' = wr_next r -> calm c0 r r'.
Proof. intros H1 H2 H3 H4 H5. split; rewrite ?H1, ?H2, ?H3, ?H4, ?H5; auto using calm_worlds_refl. Qed.
Lemma calm_set_slot c0 w s s' r : wr_worlds r !! w = Some s -> calm_slot s s' -> calm c0 r (set_slot w s' r).
Proof. intros Hs Hc. split; cbn; auto. by eapply calm_worlds_insert. Qed.

Lemma leaving_calm c0 c k w r r' : c0 <> Some c -> calm c0 r r' -> leaving r c k w -> leaving r' c k w.
Proof.
  intros Hne [[Hw Hp] _ Hl Hst _] (Hr & Hlk & s & Hs & Ho & Hrd). split; [destruct Hr; [by left|right; auto]|].
  split; [auto|]. destruct (Hp _ _ Hs) as [s' Hs']. exists s'. split; [done|].
  destruct (Hw _ _ Hs') as [[Hn _]|(s0 & Hs0 & Ho' & Hrd')]; [congruence|]. rewrite Hs in Hs0. injection Hs0 as <-.
  split; [congruence|]. destruct (ws_ready s') eqn:E; [|done]. by destruct (Hrd' eq_refl) as [? _]; congruence.
Qed.
Lemma stage_ok_calm c0 c k st r r' : c0 <> Some c -> calm c0 r r' -> stage_ok r c k st -> stage_ok r' c k st.
Proof.
  intros Hne Hc Hs. pose proof (ca_lock _ _ _ Hc) as Hl. pose proof (ca_stopped _ _ _ Hc) as Hst.
  destruct st; cbn in *; unfold retired in *; try done; try (by eapply leaving_calm); naive_solver.
Qed.
Lemma registry_ok_calm r r' : calm None r r' -> registry_ok r -> registry_ok r'.
Proof.
  intros Hc [Hn He Ho Hr Hb Hs]. pose proof Hc as [[Hw Hp] Hk _ _ Hx]. split; rewrite ?Hk; eauto.
  - intros c k Hck. destruct (Hn _ _ Hck). lia.
  - intros w s c H1 H2. destruct (Hw _ _ H1) as [[_ [? ?]]|(s0 & H0 & Ho' & _)]; [congruence|]. rewrite Ho' in H2. eauto.
  - intros w s H1 H2. destruct (Hw _ _ H1) as [[_ [? ?]]|(s0 & H0 & Ho' & Hr')]; [congruence|].
    destruct (Hr' H2) as [Hr0 Hh]. destruct (Hr _ _ H0 Hr0). rewrite Ho'. auto.
  - intros c k st H1 H2. eapply (stage_ok_calm None); eauto.
Qed.

(** A connection changes while the worlds change calmly. *)
Lemma registry_ok_conn c k k' r r' : wr_conns r !! c = Some k -> calm (Some c) r r' ->
  cn_env k' = cn_env k \/ (wr_next r <= cn_env k' < wr_next r') ->
  (forall w, cn_world k = Some w -> cn_world k' = Some w) -> (forall h, cn_bound k' = Some h -> slot_ready h) ->
  (forall st, cn_busy k' = Some st -> stage_ok r' c k' st) -> registry_ok r -> registry_ok (set_conn c k' r').
Proof.
  intros Hk Hc Henv Hworld Hbound Hbusy [Hn He Ho Hr Hb Hs]. pose proof Hc as [[Hw Hp] Hkk _ _ Hx].
  destruct (Hn _ _ Hk) as [Hn1 Hn2]. split; cbn; rewrite ?Hkk.
  - intros c' k'' [[<- <-]|[_ H]]%lookup_insert_Some; [lia|]. destruct (Hn _ _ H). lia.
  - intros c1 c2 k1 k2 [[<- <-]|[Hne1 H1]]%lookup_insert_Some [[<- <-]|[Hne2 H2]]%lookup_insert_Some Heq; eauto.
    + destruct Henv as [Henv|Henv]; [eapply He; eauto; congruence|]. destruct (Hn _ _ H2). lia.
    + destruct Henv as [Henv|Henv]; [eapply He; eauto; congruence|]. destruct (Hn _ _ H1). lia.
  - intros w s c' H1 H2. destruct (Hw _ _ H1) as [[_ [? ?]]|(s0 & H0 & Ho' & _)]; [congruence|]. rewrite Ho' in H2.
    destruct (Ho _ _ _ H0 H2) as (k0 & Hk0 & Hwk). destruct (decide (c = c')) as [<-|Hne].
    + rewrite lookup_insert_eq. exists k'. split; [done|]. apply Hworld. congruence.
    + rewrite lookup_insert_ne by done. eauto.
  - intros w s H1 H2. destruct (Hw _ _ H1) as [[_ [? ?]]|(s0 & H0 & Ho' & Hr')]; [congruence|].
    destruct (Hr' H2) as [Hr0 Hh]. destruct (Hr _ _ H0 Hr0). rewrite Ho'. auto.
  - intros c' k'' h [[<- <-]|[_ H]]%lookup_insert_Some; eauto.
  - intros c' k'' st [[<- <-]|[Hne H]]%lookup_insert_Some Hst; [by apply Hbusy|].
    specialize (Hs _ _ _ H Hst). eapply (stage_ok_calm (Some c)) in Hs; [|congruence|exact Hc]. exact Hs.
Qed.
Lemma update_conn_at c k f r : wr_conns r !! c = Some k -> update_conn c f r = set_conn c (f k) r.
Proof. intros Hk. unfold update_conn. by rewrite Hk. Qed.
Lemma calm_release c r r' : calm (Some c) r r' -> calm (Some c) r (release_lifecycle c r').
Proof.
  intros [H1 H2 H3 H4 H5]. split; cbn; auto. intros w c' Hne Hl. apply map_lookup_filter_Some. split; [auto|]. cbn. congruence.
Qed.
Lemma calm_take w c r : wr_lifecycle r !! w = None -> calm (Some c) r (take_lifecycle w c r).
Proof.
  intros Hn. split; cbn; auto using calm_worlds_refl. intros w' c' Hne Hl. rewrite lookup_insert_ne; [done|congruence].
Qed.
Lemma calm_trans c0 r1 r2 r3 : calm c0 r1 r2 -> calm c0 r2 r3 -> calm c0 r1 r3.
Proof.
  intros [[W1 P1] C1 L1 S1 N1] [[W2 P2] C2 L2 S2 N2]. split; [split| | | |]; try congruence; eauto; [..|lia].
  - intros w s3 H3. destruct (W2 _ _ H3) as [[Hn Hi]|(s2 & H2 & Ho2 & Hr2)].
    + destruct (wr_worlds r1 !! w) as [s1|] eqn:H1; [|by left]. destruct (P1 _ _ H1) as [? ?]. congruence.
    + destruct (W1 _ _ H2) as [[Hn [Hi1 Hi2]]|(s1 & H1 & Ho1 & Hr1)].
      * left. split; [done|]. split; [congruence|]. destruct (ws_ready s3); [|done]. by destruct (Hr2 eq_refl); congruence.
      * right. exists s1. split; [done|]. split; [congruence|]. intros Hr3. destruct (Hr2 Hr3) as [Hr2' ?].
        destruct (Hr1 Hr2'). auto.
  - intros w s1 H1. destruct (P1 _ _ H1) as [s2 H2]. eauto.
Qed.

(** ** The critical sections are calm *)
Lemma UpdateClock_answer b k env st h st' : UpdateClock b k env st = (Ok h, st') -> slot_ready h /\ hd_Binding h = b.
Proof.
  Transparent UpdateClock. unfold UpdateClock, slot_ready. Opaque UpdateClock. intros H. minv H.
  apply tx_ok in H as (st1 & st2 & _ & H & _). minv H.
  all: match goal with H : validateWakeWorldAuthority _ _ _ = _ |- _ => unfold validateWakeWorldAuthority in H; okinv H end.
  all: by boolp.
Qed.
Lemma kernel_calm {A} c0 (m : M A) env r o r' : kernel m env r = (o, r') -> calm c0 r r'.
Proof. unfold kernel. destruct (m env (wr_store r)). intros [= _ <-]. by apply calm_same. Qed.
Lemma kernel_same {A} (m : M A) env r o r' : kernel m env r = (o, r') ->
  wr_worlds r' = wr_worlds r /\ wr_conns r' = wr_conns r /\ wr_lifecycle r' = wr_lifecycle r /\ wr_stopped r' = wr_stopped r
  /\ wr_next r' = wr_next r.
Proof. unfold kernel. destruct (m env (wr_store r)). by intros [= _ <-]. Qed.
Lemma calm_via c0 r r1 r2 : calm c0 r r1 ->
  wr_worlds r2 = wr_worlds r1 -> wr_conns r2 = wr_conns r1 -> wr_lifecycle r2 = wr_lifecycle r1 ->
  wr_stopped r2 = wr_stopped r1 -> wr_next r2 = wr_next r1 -> calm c0 r r2.
Proof. intros Hc H1 H2 H3 H4 H5. eapply calm_trans; [exact Hc|]. by apply calm_same. Qed.
Lemma calm_set_after c0 r r1 w s s' : calm c0 r r1 -> wr_worlds r1 !! w = Some s -> calm_slot s s' -> calm c0 r (set_slot w s' r1).
Proof. intros H1 H2 H3. eapply calm_trans; [exact H1|]. by eapply calm_set_slot. Qed.
Lemma calm_unready s s' : ws_owner s' = ws_owner s -> ws_ready s' = false -> calm_slot s s'.
Proof. intros Ho Hr. split; [done|congruence]. Qed.
Lemma calm_update_slot c0 w f r : (forall s, calm_slot s (f s)) -> calm c0 r (update_slot w f r).
Proof. intros Hf. unfold update_slot. destruct (wr_worlds r !! w) eqn:Hs; [by eapply calm_set_slot|by apply calm_same]. Qed.
#[local] Hint Resolve calm_slot_refl : core.

Lemma pauseClockViolation_calm c0 w s e env r : wr_worlds r !! w = Some s -> calm c0 r (pauseClockViolation w s e env r).2.
Proof.
  intros Hs. unfold pauseClockViolation. destruct (kernel _ _ _) as [o r1] eqn:Hk. cbn.
  eapply calm_trans; [eapply calm_set_slot|by eapply kernel_calm]; [exact Hs|by apply calm_unready].
Qed.
Lemma registry_UpdateClock_calm c0 e scope sample env r : calm c0 r (registry_UpdateClock e scope sample env r).2.
Proof.
  unfold registry_UpdateClock. destruct scope as [b|]; [destruct sample as [clock|]|]; try by apply calm_same.
  destruct (owns_elsewhere _ _ _); [by apply calm_same|]. destruct (wr_worlds r !! _) as [s|] eqn:Hs; [|by apply calm_same].
  destruct (slot_check _ _ _ _); [|by apply calm_same]. cbv zeta.
  destruct (ck_ID clock != _); [by apply calm_same|]. destruct (_ && _); [by apply pauseClockViolation_calm|].
  destruct (_ || _); [by apply pauseClockViolation_calm|].
  destruct (kernel _ _ _) as [[h|err] r1] eqn:Hk; [|by eapply kernel_calm].
  eapply (calm_via _ _ (set_slot (bd_World b) (with_slot_head h s) r1)); try done.
  destruct (kernel_same _ _ _ _ _ Hk) as (Hw & _). eapply calm_set_after; [by eapply kernel_calm|by rewrite Hw|].
  split; [done|]. cbn. intros Hr. split; [done|]. intros _.
  unfold kernel in Hk. destruct (UpdateClock _ _ _ _) as [o st] eqn:Hu. injection Hk as -> _. by eapply UpdateClock_answer.
Qed.
Lemma registry_PrepareCheckpoint_calm c0 e b clock id ev env r :
  calm c0 r (registry_PrepareCheckpoint e b clock id ev env r).2.
Proof.
  unfold registry_PrepareCheckpoint. destruct (wr_worlds r !! _) as [s|] eqn:Hs; [|by apply calm_same].
  destruct (ws_saving s).
  { destruct (_ || _); [by apply calm_same|]. destruct ev as [l|]; [|by apply calm_same].
    destruct (kernel _ _ _) as [o r1] eqn:Hk. by eapply kernel_calm. }
  destruct (slot_check _ _ _ _); [|by apply calm_same]. cbv zeta. destruct ev as [l|].
  2: { eapply calm_set_slot; [exact Hs|by apply calm_unready]. }
  destruct (kernel (UpdateClock _ _) _ _) as [[h|err] r1] eqn:Hk; destruct (kernel_same _ _ _ _ _ Hk) as (Hw & _).
  2: { eapply calm_set_after; [by eapply kernel_calm|by rewrite Hw|by apply calm_unready]. }
  destruct (kernel (PrepareCheckpoint _ _ _ _) _ _) as [[p|err] r2] eqn:Hk2; destruct (kernel_same _ _ _ _ _ Hk2) as (Hw2 & _);
    (eapply calm_set_after; [eapply calm_trans; by eapply kernel_calm|by rewrite Hw2, Hw|by apply calm_unready]).
Qed.
Lemma registry_FinishCheckpoint_calm c0 b id saved env r : calm c0 r (registry_FinishCheckpoint b id saved env r).2.
Proof.
  unfold registry_FinishCheckpoint. destruct (wr_worlds r !! _) as [s|] eqn:Hs; [|by apply calm_same].
  destruct (ws_owner s == None); [by apply calm_same|]. destruct (kernel _ _ _) as [[[]|err] r1] eqn:Hk; [|by eapply kernel_calm].
  cbn. destruct (_ && _); [|by eapply kernel_calm]. destruct (kernel_same _ _ _ _ _ Hk) as (Hw & _).
  eapply calm_set_after; [by eapply kernel_calm|by rewrite Hw|done].
Qed.
Lemma RegisterEventTarget_calm c0 e w ew src t r : calm c0 r (RegisterEventTarget e w ew src t r).2.
Proof.
  unfold RegisterEventTarget. destruct (wr_worlds r !! w) as [s|] eqn:Hs; [|by apply calm_same].
  repeat match goal with |- calm _ _ (if ?b then _ else _).2 => destruct b; [by apply calm_same|] end. by eapply calm_set_slot.
Qed.
Lemma registry_Guard_calm {A} c0 e b (fn : WorldEntry -> M A) env r : calm c0 r (registry_Guard e b fn env r).2.
Proof.
  unfold registry_Guard. destruct (guard_entry e b r); [|by apply calm_same].
  destruct (kernel _ _ _) as [o r1] eqn:Hk. by eapply kernel_calm.
Qed.
Lemma PauseWorld_fence_calm c0 b err r : calm c0 r (PauseWorld_fence b err r).2.
Proof.
  unfold PauseWorld_fence. destruct (wr_worlds r !! _) as [s|] eqn:Hs; [|by apply calm_same].
  destruct (_ || _); [by apply calm_same|]. eapply calm_set_slot; [exact Hs|by apply calm_unready].
Qed.
Lemma takeSaveReobserve_calm c0 w r : calm c0 r (takeSaveReobserve w r).2.
Proof. unfold takeSaveReobserve. destruct (wr_worlds r !! w) eqn:Hs; [by eapply calm_set_slot|by apply calm_same]. Qed.
Lemma stop_slot_calm c0 w r : calm c0 r (stop_slot w r).
Proof. unfold stop_slot. destruct (wr_worlds r !! w) eqn:Hs; [eapply calm_set_slot; [exact Hs|by apply calm_unready]|by apply calm_same]. Qed.
Lemma set_stopped_calm c0 r : calm c0 r (set_stopped r).
Proof. split; cbn; auto using calm_worlds_refl. Qed.
Lemma registry_slot_calm c0 w create r o r' : registry_slot w create r = (o, r') -> calm c0 r r' /\ (is_Some o -> is_Some (wr_worlds r' !! w)).
Proof.
  unfold registry_slot. destruct (wr_worlds r !! w) eqn:Hs; [intros [= <- <-]; split; [by apply calm_same|by rewrite Hs]|].
  destruct (create && _); intros [= <- <-]; [|split; [by apply calm_same|by intros [? ?]]].
  split; [split; cbn; auto using calm_worlds_new|]. intros _. cbn. rewrite lookup_insert_eq. by eexists.
Qed.

(** ** The stages *)
Lemma progress_calm c k st env r pr r1 : registry_ok r -> wr_conns r !! c = Some k ->
  stage_step c k st env r = (pr, r1) -> calm (Some c) r r1 ->
  match pr with Next st' => stage_ok r1 c k st' | Bound (Ok _) => False | _ => True end ->
  registry_ok (progress_step c k st env r).
Proof.
  intros Hok Hk Hst Hc Hpr. unfold progress_step. rewrite Hst. pose proof (ca_conns _ _ _ Hc) as Hcc.
  assert (Hb : forall h, cn_bound k = Some h -> slot_ready h) by (intros h; by apply (ro_bound _ Hok c k)).
  destruct pr as [st'|[h|e]|o]; [|done| |]; (rewrite (update_conn_at c k); [|cbn; congruence]).
  - eapply registry_ok_conn; try done; [by left|]. intros st0 [= <-]. by destruct st'.
  - eapply registry_ok_conn; try done; [by apply calm_release|by left].
  - eapply registry_ok_conn; try done; [by apply calm_release|by left].
Qed.

Lemma bind_validate_fits k req p : bind_validate k req = Ok p -> bind_fits k p.
Proof.
  unfold bind_validate, bind_fits. intros H. okinv H. destruct (cn_world k) as [w|]; [|done]. cbn. by boolp.
Qed.
Lemma bind_acquire_calm c p k env r0 r pr r1 : registry_ok r0 -> wr_lifecycle r !! bp_world p = Some c -> bind_fits k p ->
  bind_acquire c p env r = (pr, r1) ->
  calm (Some c) r r1 /\ match pr with Next st' => stage_ok r1 c k st' | Bound (Ok _) => False | _ => True end.
Proof.
  intros Hok Hl Hp. unfold bind_acquire. destruct (wr_worlds r !! bp_world p) as [s|] eqn:Hs.
  2: { intros [= <- <-]. by split; [apply calm_same|]. }
  destruct (ws_failed s); [intros [= <- <-]; by split; [apply calm_same|]|]. cbv zeta.
  destruct (kernel (ReadHead _) _ _) as [persisted r2] eqn:Hk. pose proof (kernel_calm (Some c) _ _ _ _ _ Hk) as Hc2.
  destruct (kernel_same _ _ _ _ _ Hk) as (Hw2 & _ & Hl2 & _).
  assert (Hunready : forall s' r3, calm (Some c) r r3 -> wr_worlds r3 = wr_worlds r -> ws_owner s' = ws_owner s ->
    ws_ready s' = false -> calm (Some c) r (set_slot (bp_world p) s' r3)).
  { intros s' r3 H3 Hw3 Ho' Hr'. eapply calm_set_after; [done|by rewrite Hw3|by apply calm_unready]. }
  destruct (match persisted with Ok _ => None | Err e => _ end) as [e|].
  { destruct (ws_owner s == Some c); intros [= <- <-]; (split; [|done]); [|done].
    eapply calm_set_after; [done|by rewrite Hw2|by split]. }
  destruct (_ && match persisted with Ok _ => _ | Err _ => _ end); [intros [= <- <-]; by split|].
  destruct (_ && _ && _); [intros [= <- <-]; by split|]. destruct (_ && _); [intros [= <- <-]; by split|].
  destruct (if ws_saving s then releaseExpiredSaveBarrier _ _ _ else _) as [rel r3] eqn:Hrel.
  assert (calm (Some c) r r3 /\ wr_worlds r3 = wr_worlds r /\ wr_lifecycle r3 = wr_lifecycle r) as (Hc3 & Hw3 & Hl3).
  { destruct (ws_saving s); [|injection Hrel as _ <-; split_and!; congruence].
    unfold releaseExpiredSaveBarrier in Hrel. destruct (kernel (ReadCheckpointBarrier _) _ _) as [o r4] eqn:Hk4. injection Hrel as _ <-.
    destruct (kernel_same _ _ _ _ _ Hk4) as (Hw4 & _ & Hl4 & _). split_and!; [|congruence..].
    eapply calm_trans; [done|by eapply kernel_calm]. }
  destruct rel as [[]|e]; [|intros [= <- <-]; by split]. intros [= <- <-]. split; [by apply Hunready; destruct (ws_saving s)|].
  destruct (ws_saving s); cbn; destruct (ws_owner s); cbn; rewrite Hl3; by split.
Qed.
Lemma leave_acquire_calm c k w reason r pr r1 : wr_lifecycle r !! w = Some c -> retired r k ->
  leave_acquire c w reason r = (pr, r1) ->
  calm (Some c) r r1 /\ match pr with Next st' => stage_ok r1 c k st' | Bound (Ok _) => False | _ => True end.
Proof.
  intros Hl Hq. unfold leave_acquire. destruct (wr_worlds r !! w) as [s|] eqn:Hs.
  2: { intros [= <- <-]. by split; [apply calm_same|]. }
  destruct (ws_owner s != Some c) eqn:Ho; intros [= <- <-]; [by split; [apply calm_same|]|].
  split; [eapply calm_set_slot; [done|by apply calm_unready]|]. split; [done|]. split; [done|]. cbn.
  rewrite lookup_insert_eq. eexists. split; [done|]. cbn. boolp. by split.
Qed.
Lemma bind_unready_calm c k r : calm (Some c) r (bind_unready c k r).
Proof.
  unfold bind_unready. destruct (cn_world k); [|by apply calm_same]. apply calm_update_slot. intros s.
  destruct (ws_owner s == Some c); [by apply calm_unready|done].
Qed.

Definition settles (st : stage) : bool := match st with BindInstall _ _ | LeaveFinish _ _ (Ok _) | BindRenew _ => true | _ => false end.
(** What a stage leaves for the next one. *)
Definition hands_over (c : nat) (k : worldConnection) (r : WorldRegistry) (out : progress * WorldRegistry) : Prop :=
  calm (Some c) r out.2 /\ match out.1 with Next st' => stage_ok out.2 c k st' | Bound (Ok _) => False | _ => True end.
Lemma kernel_hands {A} c k r (m : M A) env (f : outcome error A -> progress) :
  (forall o r1, calm (Some c) r r1 -> wr_lifecycle r1 = wr_lifecycle r -> wr_worlds r1 = wr_worlds r ->
    wr_stopped r1 = wr_stopped r ->
    match f o with Next st' => stage_ok r1 c k st' | Bound (Ok _) => False | _ => True end) ->
  forall out, out = (let '(o, r1) := kernel m env r in (f o, r1)) -> hands_over c k r out.
Proof.
  intros Hf out ->. destruct (kernel m env r) as [o r1] eqn:Hk. pose proof (kernel_calm (Some c) _ _ _ _ _ Hk).
  destruct (kernel_same _ _ _ _ _ Hk) as (? & _ & ? & ? & _). split; [done|]. cbn. by apply Hf.
Qed.
Lemma stage_hands_over c k st env r : registry_ok r -> wr_conns r !! c = Some k -> cn_busy k = Some st ->
  (forall w, awaits st = Some w -> wr_lifecycle r !! w = None) -> settles st = false ->
  hands_over c k r (stage_step c k st env r).
Proof.
  intros Hok Hk Hb Hw Hset. pose proof (ro_stage _ Hok _ _ _ Hk Hb) as Hst.
  destruct st as [req|req|p|e|p h old|p h|p e|p|p|p|p h|reason|w reason| |w h reason|w h reason|w reason res]; try done;
    cbn [stage_step].
  - split; [apply bind_unready_calm|done].
  - destruct (bind_validate k req) as [p|e] eqn:Hv; [|by split; [apply calm_same|]].
    destruct (registry_slot _ _ _) as [o r1] eqn:Hs. apply (registry_slot_calm (Some c)) in Hs as [Hc _].
    destruct o; split; try done. by eapply bind_validate_fits.
  - destruct (bind_acquire _ _ _ _) as [pr r1] eqn:Ha.
    eapply bind_acquire_calm in Ha as [Hc Hn]; [|done|apply lookup_insert_eq|done].
    split; [|done]. eapply calm_trans; [by apply calm_take, Hw|done].
  - by split; [apply calm_same|].
  - split; [|by destruct (wr_conns r !! old)]. cbn. by destruct (wr_conns r !! old); apply calm_same.
  - eapply (kernel_hands _ _ _ (DeactivateWorld (hd_Binding h) (pause_reason h "world_rebind")) env
      (fun o => Next match o with Ok _ => if bp_rebinding p then BindRenew p else BindStopped p | Err e => BindFailed p e end)).
    + intros [[]|e] r1 _ Hl _ _; cbn; [|done]. destruct (bp_rebinding p); cbn; by rewrite Hl.
    + by destruct (kernel _ _ _) as [[[]|e] r1].
  - split; [apply calm_update_slot; by intros|done].
  - destruct (wr_stopped r); by split; [apply calm_same|].
  - set (b := tb_Binding (bp_value p)).
    eapply (kernel_hands _ _ _ (ActivateWorld (bd_World b) (bd_RunID b) (tb_Clock (bp_value p)) (bp_ref p)) env
      (fun o => match o with
                | Ok h => if hd_Status h != worldHeadStatusReady then Bound (Err ErrWorldNotReady) else Next (BindInstall p h)
                | Err e => Bound (Err e) end)).
    + intros [h|e] r1 _ Hl _ _; [|done]. destruct (hd_Status h != _) eqn:Hh; [done|]. boolp. cbn. rewrite Hl.
      destruct Hst. by split_and!.
    + destruct (kernel _ _ _) as [[h|e] r1]; [|done]. by destruct (hd_Status h != _).
  - split; [by apply calm_same|]. cbn. destruct (cn_world k) as [w|]; [|done]. by destruct (wr_worlds r !! w).
  - destruct (leave_acquire _ _ _ _) as [pr r1] eqn:Ha. eapply leave_acquire_calm in Ha as [Hc Hn]; [|apply lookup_insert_eq|done].
    split; [|done]. eapply calm_trans; [by apply calm_take, Hw|done].
  - by split; [apply calm_same|].
  - split; [by apply calm_same|]. by destruct Hst as (? & ? & ?).
  - eapply (kernel_hands _ _ _ (DeactivateWorld (hd_Binding h) reason) env (fun o => Next (LeaveFinish w reason o))); [|by destruct (kernel _ _ _)].
    intros o r1 Hc Hl Hws Hstp. cbn. unfold leaving, retired in *. by rewrite Hl, Hws, Hstp.
  - destruct res as [[]|e]; [done|]. split; [|done]. apply calm_update_slot. intros s. cbn. by destruct (Is_code e _).
Qed.
Lemma progress_ok_calm c k st env r : registry_ok r -> wr_conns r !! c = Some k -> cn_busy k = Some st ->
  (forall w, awaits st = Some w -> wr_lifecycle r !! w = None) -> settles st = false ->
  registry_ok (progress_step c k st env r).
Proof.
  intros Hok Hk Hb Hw Hset. destruct (stage_hands_over c k st env r Hok Hk Hb Hw Hset) as [Hc Hn].
  destruct (stage_step c k st env r) as [pr r1] eqn:Hs. by eapply progress_calm.
Qed.

(** A connection that renews its handles. *)
Lemma set_conn_twice c k k' r : set_conn c k' (set_conn c k r) = set_conn c k' r.
Proof. unfold set_conn. cbn. by rewrite insert_insert_eq. Qed.
Lemma progress_renew c k p env r : registry_ok r -> wr_conns r !! c = Some k -> cn_busy k = Some (BindRenew p) ->
  registry_ok (progress_step c k (BindRenew p) env r).
Proof.
  intros Hok Hk Hb. destruct (ro_stage _ Hok _ _ _ Hk Hb) as [Hp Hl]. unfold progress_step. cbn [stage_step].
  rewrite (update_conn_at c k (renewed _ _)) by done. rewrite (update_conn_at c (renewed (wr_next r) (S (wr_next r)) k)) by apply lookup_insert_eq.
  rewrite set_conn_twice. eapply (registry_ok_conn c k _ r); [done| | |done|intros h; apply (ro_bound _ Hok c k h Hk)| |done].
  - split; cbn; auto using calm_worlds_refl.
  - right. cbn. lia.
  - intros st [= <-]. by split.
Qed.

(** The worlds change at one point, the connection with it. *)
Lemma registry_ok_settle c k k' w s s' r l : registry_ok r -> wr_conns r !! c = Some k -> wr_worlds r !! w = Some s ->
  cn_env k' = cn_env k -> cn_busy k' = None -> (forall h, cn_bound k' = Some h -> slot_ready h) ->
  (forall w', cn_world k = Some w' -> cn_world k' = Some w') ->
  (forall c', ws_owner s' = Some c' -> c' = c /\ cn_world k' = Some w) ->
  (ws_ready s' = true -> is_Some (ws_owner s') /\ slot_ready (ws_head s')) ->
  (forall w' c', c <> c' -> wr_lifecycle r !! w' = Some c' -> w' <> w /\ l !! w' = Some c') ->
  registry_ok (set_conn c k' (set_lifecycle l (set_slot w s' r))).
Proof.
  intros Hok Hk Hs He Hbs Hb Hw Ho Hr Hl. destruct (ro_next _ Hok _ _ Hk) as [Hn1 Hn2]. split; cbn.
  - intros c' k'' [[<- <-]|[_ H]]%lookup_insert_Some; [lia|]. by apply (ro_next _ Hok).
  - intros c1 c2 k1 k2 [[<- <-]|[Hne1 H1]]%lookup_insert_Some [[<- <-]|[Hne2 H2]]%lookup_insert_Some Heq; [done|..].
    all: eapply (ro_env _ Hok); eauto; congruence.
  - intros w' s'' c' [[<- <-]|[Hne H1]]%lookup_insert_Some H2.
    + destruct (Ho _ H2) as [-> Hk']. rewrite lookup_insert_eq. eauto.
    + destruct (ro_owner _ Hok _ _ _ H1 H2) as (k0 & Hk0 & Hw0). destruct (decide (c = c')) as [<-|Hc].
      * rewrite lookup_insert_eq. exists k'. split; [done|]. apply Hw. congruence.
      * rewrite lookup_insert_ne by done. eauto.
  - intros w' s'' [[<- <-]|[Hne H1]]%lookup_insert_Some H2; [auto|]. by eapply (ro_ready _ Hok).
  - intros c' k'' h [[<- <-]|[_ H]]%lookup_insert_Some Hh; [auto|]. by eapply (ro_bound _ Hok).
  - intros c' k'' st [[<- <-]|[Hne H]]%lookup_insert_Some Hst; [congruence|].
    pose proof (ro_stage _ Hok _ _ _ H Hst) as Hso.
    destruct st; cbn in *; try exact Hso;
      try (destruct Hso as (H1 & H2); destruct (Hl _ _ Hne H2); by split);
      try (destruct Hso as (H1 & H2 & H3); destruct (Hl _ _ Hne H2); by split_and!).
    all: destruct Hso as (H1 & H2 & s0 & H3 & H4); destruct (Hl _ _ Hne H2) as [Hnw H5]; split; [done|]; split; [done|];
      exists s0; cbn; rewrite lookup_insert_ne by done; done.
Qed.
Lemma held_elsewhere c w r : wr_lifecycle r !! w = Some c ->
  forall w' c', c <> c' -> wr_lifecycle r !! w' = Some c' -> w' <> w /\ filter (fun kv => kv.2 <> c) (wr_lifecycle r) !! w' = Some c'.
Proof. intros Hl w' c' Hne Hl'. split; [congruence|]. apply map_lookup_filter_Some. by split. Qed.

Lemma release_update c k f g r : wr_conns r !! c = Some k ->
  update_conn c f (release_lifecycle c (update_conn c g r))
  = set_conn c (f (g k)) (set_lifecycle (filter (fun kv => kv.2 <> c) (wr_lifecycle r)) r).
Proof.
  intros Hk. rewrite (update_conn_at c k g r Hk). rewrite (update_conn_at c (g k)) by apply lookup_insert_eq.
  unfold release_lifecycle, set_conn, set_lifecycle. cbn. by rewrite insert_insert_eq.
Qed.

Lemma progress_install c k p h env r : registry_ok r -> wr_conns r !! c = Some k -> cn_busy k = Some (BindInstall p h) ->
  registry_ok (progress_step c k (BindInstall p h) env r).
Proof.
  intros Hok Hk Hb. destruct (ro_stage _ Hok _ _ _ Hk Hb) as (Hp & Hl & Hh). unfold progress_step. cbn [stage_step].
  unfold bind_install, update_slot. destruct (wr_worlds r !! bp_world p) as [s|] eqn:Hs.
  - rewrite (release_update c k) by exact Hk. eapply (registry_ok_settle c k _ (bp_world p) s _ r); [exact Hok|exact Hk|exact Hs|done|done| | | | | ].
    + cbn. intros h' [= <-]. exact Hh.
    + cbn. intros w' Hw'. unfold bind_fits in Hp. rewrite Hw' in Hp. congruence.
    + cbn. intros c' Hc'. simplify_eq. done.
    + cbn. intros Hrd. by split.
    + exact (held_elsewhere _ _ _ Hl).
  - rewrite (release_update c k) by exact Hk. eapply (registry_ok_conn c k _ r); [exact Hk| |by left| | |done|exact Hok].
    + apply (calm_release c r r). by apply calm_same.
    + cbn. intros w' Hw'. unfold bind_fits in Hp. rewrite Hw' in Hp. congruence.
    + cbn. intros h' [= <-]. exact Hh.
Qed.
Lemma progress_finish c k w reason u env r : registry_ok r -> wr_conns r !! c = Some k ->
  cn_busy k = Some (LeaveFinish w reason (Ok u)) -> registry_ok (progress_step c k (LeaveFinish w reason (Ok u)) env r).
Proof.
  intros Hok Hk Hb. destruct (ro_stage _ Hok _ _ _ Hk Hb) as (Hq & Hl & s & Hs & Ho & Hr). unfold progress_step. cbn [stage_step].
  unfold update_slot. rewrite Hs. rewrite (update_conn_at c k) by exact Hk. unfold release_lifecycle.
  eapply (registry_ok_settle c k _ w s _ r); [exact Hok|exact Hk|exact Hs|done|done| | | | | ]; cbn; try done.
  - intros h. by apply (ro_bound _ Hok c k).
  - by rewrite Hr.
  - exact (held_elsewhere _ _ _ Hl).
Qed.
Lemma progress_ok c k st env r : registry_ok r -> wr_conns r !! c = Some k -> cn_busy k = Some st ->
  (forall w, awaits st = Some w -> wr_lifecycle r !! w = None) -> registry_ok (progress_step c k st env r).
Proof.
  intros Hok Hk Hb Hw. destruct (settles st) eqn:Hset; [|by apply progress_ok_calm].
  destruct st as [| | | | | | |p| | |p h| | | | | |w reason []]; try done;
    [by apply progress_renew|by apply progress_install|by apply progress_finish].
Qed.

(** ** Admission *)
Lemma markReady_ok c k h r r' : registry_ok r -> wr_conns r !! c = Some k -> cn_bound k = Some h ->
  markReady c h r = (Ok tt, r') -> registry_ok (set_conn c (with_bound None k) r').
Proof.
  intros Hok Hk Hb. unfold markReady. destruct (wr_worlds r !! _) as [s|] eqn:Hs; [|done].
  destruct (_ || ws_failed s) eqn:Hg; [done|]. boolp. destruct Hg as [[[Hst Ho] Hh] _]. intros [= <-].
  set (r1 := set_slot (bd_World (hd_Binding h)) (with_ready true s) r).
  assert (Hok1 : registry_ok r1).
  { split; cbn; try apply Hok.
    - intros w s' c' [[<- <-]|[Hne H]]%lookup_insert_Some H2; eapply (ro_owner _ Hok); eauto.
    - intros w s' [[<- <-]|[Hne H]]%lookup_insert_Some H2; [|by eapply (ro_ready _ Hok)]. cbn. rewrite Ho, Hh.
      split; [by eexists|by eapply (ro_bound _ Hok)].
    - intros c' k' st Hk' Hst'. pose proof (ro_stage _ Hok _ _ _ Hk' Hst') as Hso. destruct st; cbn in *; try exact Hso.
      all: destruct Hso as (H1 & H2 & s0 & H3 & H4 & H5); split; [done|]; split; [done|]; exists s0; cbn;
        rewrite lookup_insert_ne; [done|]; intros Heq; subst w; rewrite Hs in H3; injection H3 as <-;
        assert (c' = c) as -> by congruence; rewrite Hk in Hk'; injection Hk' as <-; destruct H1; congruence. }
  eapply (registry_ok_conn c k _ r1); [exact Hk|by apply calm_same|by left|done|done| |exact Hok1].
  cbn. intros st Hst'. pose proof (ro_stage _ Hok1 _ _ _ Hk Hst') as Hso. destruct st; cbn in *; try exact Hso.
  all: unfold retired in *; cbn in *; try (by left). all: destruct Hso as (H1 & H2); split; [by left|exact H2].
Qed.

(** ** Every run keeps the invariant *)
Lemma new_registry_ok st : registry_ok (NewWorldRegistry st).
Proof. split; cbn; intros *; rewrite ?lookup_empty; done. Qed.
Lemma conn_calm c k f r : registry_ok r -> wr_conns r !! c = Some k -> cn_env (f k) = cn_env k -> cn_world (f k) = cn_world k ->
  (cn_bound (f k) = cn_bound k \/ cn_bound (f k) = None) ->
  (forall st, cn_busy (f k) = Some st -> cn_busy k = Some st \/ stage_ok r c (f k) st) -> registry_ok (update_conn c f r).
Proof.
  intros Hok Hk He Hw Hb Hst. rewrite (update_conn_at c k) by exact Hk.
  eapply (registry_ok_conn c k _ r); [exact Hk|by apply calm_same|by left|congruence| | |exact Hok].
  - intros h Hh. destruct Hb as [Hb|Hb]; [|congruence]. apply (ro_bound _ Hok c k); congruence.
  - intros st Hs. destruct (Hst _ Hs) as [H|H]; [|exact H]. pose proof (ro_stage _ Hok _ _ _ Hk H) as Hso.
    unfold stage_ok, bind_fits, leaving, retired in *. rewrite Hw. destruct st; try exact Hso; intuition congruence.
Qed.
Lemma connect_ok g r : registry_ok r -> registry_ok (connect g r).
Proof.
  intros Hok. assert (Hf : wr_conns r !! wr_next r = None).
  { destruct (wr_conns r !! wr_next r) eqn:H; [|done]. destruct (ro_next _ Hok _ _ H). lia. }
  split; cbn.
  - intros c k [[<- <-]|[_ H]]%lookup_insert_Some; cbn; [lia|]. destruct (ro_next _ Hok _ _ H). lia.
  - intros c c' k k' [[<- <-]|[_ H]]%lookup_insert_Some [[<- <-]|[_ H']]%lookup_insert_Some; cbn; try done; [..|by apply (ro_env _ Hok)];
      intros Heq; [destruct (ro_next _ Hok _ _ H')|destruct (ro_next _ Hok _ _ H)]; lia.
  - intros w s c Hs Ho. destruct (ro_owner _ Hok _ _ _ Hs Ho) as (k & Hk & Hw). rewrite lookup_insert_ne by congruence. eauto.
  - apply Hok.
  - intros c k h [[<- <-]|[_ H]]%lookup_insert_Some; [done|by eapply (ro_bound _ Hok)].
  - intros c k st [[<- <-]|[Hne H]]%lookup_insert_Some; [done|]. intros Hst. pose proof (ro_stage _ Hok _ _ _ H Hst) as Hso.
    by destruct st.
Qed.
Lemma markReady_same c h r o r' : markReady c h r = (o, r') ->
  wr_conns r' = wr_conns r /\ match o with Ok _ => True | Err _ => r' = r end.
Proof. unfold markReady. destruct (wr_worlds r !! _); [destruct (_ || _)|]; by intros [= <- <-]. Qed.
Lemma registry_step_ok r l r' : registry_ok r -> registry_step r l r' -> registry_ok r'.
Proof.
  intros Hok Hs.
  destruct Hs as [g|c k req Hk Hl Hb|c k st env Hk Hb Hw|c k h r1 Hk Hb Hm|c k h e r1 Hk Hb Hm|c k h Hk Hb|c k Hk Hl|c k reason Hk Hb Hov
    |c k scope sample env Hk Hl|c k b clock id ev env Hk Hl|b id saved env|e w ew src t|e b c env|b err|w| |w Hst|c env].
  3: by apply progress_ok.
  8: apply (registry_ok_calm r); [apply registry_UpdateClock_calm|done].
  8: apply (registry_ok_calm r); [apply registry_PrepareCheckpoint_calm|done].
  8: apply (registry_ok_calm r); [apply registry_FinishCheckpoint_calm|done].
  8: apply (registry_ok_calm r); [apply RegisterEventTarget_calm|done].
  8: apply (registry_ok_calm r); [apply registry_Guard_calm|done].
  8: apply (registry_ok_calm r); [apply PauseWorld_fence_calm|done].
  8: apply (registry_ok_calm r); [apply takeSaveReobserve_calm|done].
  8: apply (registry_ok_calm r); [apply set_stopped_calm|done].
  8: apply (registry_ok_calm r); [apply stop_slot_calm|done].
  8: apply (registry_ok_calm r); [destruct (kernel _ _ _) eqn:Hk; by eapply kernel_calm|done].
  - by apply connect_ok.
  - eapply conn_calm; [done|done|done|done|by left|]. intros st [= <-]. by right.
  - destruct (markReady_same _ _ _ _ _ Hm) as [Hc _]. rewrite (update_conn_at c k) by congruence. by eapply markReady_ok.
  - destruct (markReady_same _ _ _ _ _ Hm) as [_ ->]. eapply conn_calm; [done|done|done|done|by right|]. by left.
  - eapply conn_calm; [done|done|done|done|by right|]. by left.
  - eapply conn_calm; [done|done|done|done|by left|]. by left.
  - eapply conn_calm; [done|done|done|done|by left|]. intros st [= <-]. right. unfold loop_left in Hov. cbn. unfold retired. cbn.
    destruct (cn_bound k); [|by left]. rewrite andb_false_r in Hov. by right.
Qed.
Lemma registry_run_ok r l r' : registry_ok r -> registry_run r l r' -> registry_ok r'.
Proof. intros Hok. induction 1; eauto using registry_step_ok. Qed.
