(* ===== verification/Authority.v ===== *)
(** * Who may act in a world

    Properties of the world registry over every interleaving: authority is exclusive, a
    world closed by a save stays closed until a bind is installed in it, and the
    registry's guard is what the dispatcher asks for. *)

From S2P Require Export RegistryFacts Dispatch.
From S2P Require Import Demo.

Local Open Scope go_scope.

(** ** Guards *)
Lemma guard_entry_ok e b r entry : guard_entry e b r = Ok entry ->
  exists s c k, wr_worlds r !! bd_World b = Some s /\ ws_owner s = Some c /\ wr_conns r !! c = Some k /\ cn_env k = e
  /\ hd_Binding (ws_head s) = b /\ ws_saving s = false /\ ws_ready s = true
  /\ entry = {| we_Head := ws_head s; we_AuthorityEpoch := ws_authorityEpoch s; we_ConnectionID := c;
                we_Entities := ws_entities s; we_Environment := cn_env k; we_Lanes := cn_lanes k |}.
Proof.
  unfold guard_entry, slot_check. intros H. okinv H. unfold owner_env, slot_snapshot in *.
  destruct (ws_owner v) as [c|] eqn:Ho; [|done]. cbn in *. destruct (wr_conns r !! c) as [k|] eqn:Hk; [|done]. cbn in *.
  boolp. exists v, c, k. split_and!; try done; naive_solver.
Qed.

(** ** Closed worlds *)

(** The world admits nothing, and no [markReady] of its owner is pending. *)
Definition closed (w : WorldKey) (r : WorldRegistry) : Prop := forall s, wr_worlds r !! w = Some s ->
  ws_ready s = false /\ forall c k, ws_owner s = Some c -> wr_conns r !! c = Some k -> cn_bound k = None.

Lemma closed_calm c0 w r r' : calm c0 r r' -> closed w r -> closed w r'.
Proof.
  intros [[Hw _] Hc _ _ _] Hcl s' Hs'. rewrite Hc. destruct (Hw _ _ Hs') as [[_ [Ho Hr]]|(s & Hs & Ho & Hr)].
  - split; [done|]. rewrite Ho. done.
  - destruct (Hcl _ Hs) as [Hr0 Hb]. split; [|by rewrite Ho]. destruct (ws_ready s'); [|done]. by destruct (Hr eq_refl); congruence.
Qed.
Lemma closed_conn w c k f r : wr_conns r !! c = Some k -> cn_bound (f k) = cn_bound k \/ cn_bound (f k) = None ->
  closed w r -> closed w (update_conn c f r).
Proof.
  intros Hk Hf Hcl s Hs. rewrite (update_conn_at c k) in * by exact Hk. destruct (Hcl s Hs) as [Hr Hb]. split; [done|].
  intros c' k' Ho H. cbn in H. apply lookup_insert_Some in H as [[<- <-]|[_ H]]; [|by eapply Hb]. destruct Hf as [->| ->]; [by eapply Hb|done].
Qed.
Lemma closed_release w c r : closed w r -> closed w (release_lifecycle c r).
Proof. done. Qed.
Lemma closed_progress w c k st env r : registry_ok r -> wr_conns r !! c = Some k -> cn_busy k = Some st ->
  (forall w', awaits st = Some w' -> wr_lifecycle r !! w' = None) -> installs st <> Some w ->
  closed w r -> closed w (progress_step c k st env r).
Proof.
  intros Hok Hk Hb Hw Hi Hcl. destruct (settles st) eqn:Hset.
  2: { destruct (stage_hands_over c k st env r Hok Hk Hb Hw Hset) as [Hc Hn]. unfold progress_step.
       pose proof (closed_calm _ w _ _ Hc Hcl) as Hcl1. pose proof (ca_conns _ _ _ Hc) as Hcc.
       destruct (stage_step c k st env r) as [[st'|[h|e]|o] r1]; cbn in *; [|done| |];
       (eapply (closed_conn w c k); [cbn; congruence|by left|by try apply closed_release]). }
  destruct st as [| | | | | | |p| | |p h| | | | | |w' reason [[]|]]; try done; unfold progress_step; cbn [stage_step].
  - rewrite (update_conn_at c k (renewed _ _)) by done.
    rewrite (update_conn_at c (renewed (wr_next r) (S (wr_next r)) k)) by apply lookup_insert_eq. rewrite set_conn_twice.
    intros s Hs. destruct (Hcl s Hs) as [Hr Hbd]. split; [done|].
    intros c' k' Ho H. cbn in H. apply lookup_insert_Some in H as [[<- <-]|[_ H]]; [|by eapply Hbd]. cbn. by eapply Hbd.
  - destruct (ro_stage _ Hok _ _ _ Hk Hb) as (Hp & _ & _). unfold bind_install. cbn in Hi.
    assert (Hne : bp_world p <> w) by congruence.
    set (r1 := update_slot _ _ r). assert (Hr1 : wr_conns r1 = wr_conns r /\ wr_worlds r1 !! w = wr_worlds r !! w).
    { unfold r1, update_slot. destruct (wr_worlds r !! bp_world p); [|done]. cbn. by rewrite lookup_insert_ne. }
    destruct Hr1 as [Hc1 Hw1]. rewrite (release_update c k) by congruence. intros s Hs. cbn in Hs. rewrite Hw1 in Hs.
    destruct (Hcl s Hs) as [Hr Hbd]. split; [done|]. intros c' k' Ho H. cbn in H. rewrite Hc1 in H.
    apply lookup_insert_Some in H as [[<- <-]|[_ H]]; [|by eapply Hbd].
    destruct (ro_owner _ Hok _ _ _ Hs Ho) as (k0 & Hk0 & Hw0). assert (k0 = k) as -> by congruence.
    unfold bind_fits in Hp. rewrite Hw0 in Hp. congruence.
  - destruct (ro_stage _ Hok _ _ _ Hk Hb) as (_ & _ & s0 & Hs0 & _ & Hr0). unfold update_slot. rewrite Hs0.
    eapply (closed_conn w c k); [done|by left|]. apply closed_release. intros s Hs. cbn in Hs.
    apply lookup_insert_Some in Hs as [[<- <-]|[_ Hs]]; [by split|]. by apply Hcl.
Qed.
Lemma closed_mark w c k h f r r' : wr_conns r !! c = Some k -> cn_bound k = Some h -> markReady c h r = (Ok tt, r') ->
  cn_bound (f k) = None -> closed w r -> closed w (update_conn c f r').
Proof.
  intros Hk Hb Hm Hf Hcl. destruct (markReady_same _ _ _ _ _ Hm) as [Hc _].
  eapply (closed_conn w c k); [congruence|by right|]. unfold markReady in Hm.
  destruct (wr_worlds r !! _) as [s|] eqn:Hs; [|done]. destruct (_ || ws_failed s) eqn:Hg; [done|]. boolp.
  destruct Hg as [[[_ Ho] _] _]. injection Hm as <-. intros s' Hs'. cbn in Hs'.
  apply lookup_insert_Some in Hs' as [[<- <-]|[_ Hs']]; [|by apply Hcl].
  destruct (Hcl _ Hs) as [_ Hbd]. specialize (Hbd _ _ Ho Hk). congruence.
Qed.
Lemma closed_step w r l r' : registry_ok r -> registry_step r l r' -> l <> Some w -> closed w r -> closed w r'.
Proof.
  intros Hok Hs Hl Hcl.
  destruct Hs as [g|c k req Hk _ Hb|c k st env Hk Hb Hw|c k h r1 Hk Hb Hm|c k h e r1 Hk Hb Hm|c k h Hk Hb|c k Hk _|c k reason Hk Hb Hov
    |c k scope sample env Hk _|c k b clock id ev env Hk _|b id saved env|e w' ew src t|e b c env|b err|w'| |w' Hst|c env].
  - intros s Hs. destruct (Hcl s Hs) as [Hr Hbd]. split; [done|]. intros c' k' Ho H. cbn in H.
    apply lookup_insert_Some in H as [[<- <-]|[_ H]]; [done|]. by eapply Hbd.
  - eapply closed_conn; [done|by left|done].
  - by apply closed_progress.
  - by eapply closed_mark.
  - destruct (markReady_same _ _ _ _ _ Hm) as [_ ->]. eapply closed_conn; [done|by right|done].
  - eapply closed_conn; [done|by right|done].
  - eapply closed_conn; [done|by left|done].
  - eapply closed_conn; [done|by left|done].
  - eapply (closed_calm None); [apply registry_UpdateClock_calm|done].
  - eapply (closed_calm None); [apply registry_PrepareCheckpoint_calm|done].
  - eapply (closed_calm None); [apply registry_FinishCheckpoint_calm|done].
  - eapply (closed_calm None); [apply RegisterEventTarget_calm|done].
  - eapply (closed_calm None); [apply registry_Guard_calm|done].
  - eapply (closed_calm None); [apply PauseWorld_fence_calm|done].
  - eapply (closed_calm None); [apply takeSaveReobserve_calm|done].
  - eapply (closed_calm None); [apply set_stopped_calm|done].
  - eapply (closed_calm None); [apply stop_slot_calm|done].
  - eapply (closed_calm None); [|done]. destruct (kernel _ _ _) eqn:E. by eapply kernel_calm.
Qed.
Lemma closed_run w r l r' : registry_ok r -> registry_run r l r' -> w ∉ l -> closed w r -> closed w r'.
Proof.
  intros Hok Hr. induction Hr as [|l r1 o r2 Hr IH Hs]; [done|]. intros Hl Hcl. rewrite elem_of_app in Hl.
  eapply closed_step; [by eapply registry_run_ok|done| |apply IH; tauto]. intros ->. apply Hl. right. by apply list_elem_of_singleton.
Qed.
Lemma closed_guard w r e b : closed w r -> bd_World b = w -> exists err, guard_entry e b r = Err err.
Proof.
  intros Hcl Hw. destruct (guard_entry e b r) as [entry|err] eqn:H; [|by exists err].
  apply guard_entry_ok in H as (s & c & k & Hs & _ & _ & _ & _ & _ & Hr & _). rewrite Hw in Hs.
  destruct (Hcl _ Hs). congruence.
Qed.

(** A save that was accepted closes its world. *)
Lemma prepare_closes r c k b clock id ev env p r1 s : registry_ok r -> wr_conns r !! c = Some k -> in_loop k = true ->
  wr_worlds r !! bd_World b = Some s -> ws_saving s = false ->
  registry_PrepareCheckpoint (cn_env k) b clock id ev env r = (Ok p, r1) -> closed (bd_World b) r1.
Proof.
  intros Hok Hk Hin Hs Hsv. unfold registry_PrepareCheckpoint. rewrite Hs, Hsv.
  destruct (slot_check r (cn_env k) b s) as [[]|] eqn:Hg; [|done]. cbv zeta. destruct ev as [evidence|]; [|done].
  destruct (kernel (UpdateClock b clock) env r) as [[h|e] r2] eqn:Hk2; [|done].
  destruct (kernel (PrepareCheckpoint _ _ _ _) env r2) as [[p'|e] r3] eqn:Hk3; [|done]. intros [= _ <-].
  destruct (kernel_same _ _ _ _ _ Hk2) as (_ & Hc2 & _). destruct (kernel_same _ _ _ _ _ Hk3) as (_ & Hc3 & _).
  intros s' Hs'. cbn in Hs'. rewrite lookup_insert_eq in Hs'. injection Hs' as <-. split; [done|].
  intros c' k' Ho H. cbn in Ho, H. rewrite Hc3, Hc2 in H.
  unfold slot_check in Hg. okinv Hg. boolp. destruct Hg0 as [He _]. unfold owner_env in He. rewrite Ho in He. cbn in He.
  rewrite H in He. cbn in He. injection He as He. assert (c' = c) as -> by (by eapply (ro_env _ Hok)).
  assert (k' = k) as -> by congruence. unfold in_loop in Hin. destruct (cn_bound k); [|done].
  rewrite andb_false_r in Hin. done.
Qed.

(** ** Properties *)

(** C8: authority is exclusive: in every state the registry can reach, by any interleaving of connections, binds,
    disconnects, saves and guarded calls, two guards that pass name the same world exactly when they come from the same
    environment, and then they carry the same binding and see the same entry. *)
Theorem authority_is_exclusive st l r e e' b b' entry entry' : registry_run (NewWorldRegistry st) l r ->
  guard_entry e b r = Ok entry -> guard_entry e' b' r = Ok entry' ->
  (bd_World b = bd_World b' <-> e = e') /\ (e = e' -> b = b' /\ entry = entry').
Proof.
  intros Hr H1 H2. assert (Hok : registry_ok r) by (eapply registry_run_ok; [apply new_registry_ok|exact Hr]).
  apply guard_entry_ok in H1 as (s & c & k & Hs & Ho & Hk & <- & Hb & _ & _ & ->).
  apply guard_entry_ok in H2 as (s' & c' & k' & Hs' & Ho' & Hk' & <- & Hb' & _ & _ & ->).
  assert (Hw : bd_World b = bd_World b' -> s = s' /\ c = c' /\ k = k').
  { intros Hw. rewrite Hw in Hs. assert (s = s') as <- by congruence. assert (c = c') as <- by congruence. by assert (k = k') as <- by congruence. }
  assert (He : cn_env k = cn_env k' -> bd_World b = bd_World b').
  { intros He. assert (c = c') as <- by (by eapply (ro_env _ Hok)).
    destruct (ro_owner _ Hok _ _ _ Hs Ho) as (k1 & Hk1 & Hw1). destruct (ro_owner _ Hok _ _ _ Hs' Ho') as (k2 & Hk2 & Hw2). congruence. }
  split; [split; [|exact He]|]; intros Heq; [by destruct (Hw Heq) as (_ & _ & ->)|].
  destruct (Hw (He Heq)) as (-> & -> & ->). split; [congruence|done].
Qed.

(** C9: a saved world stays closed until a bind is installed in it: once a connection's [PrepareCheckpoint] is accepted,
    no guard passes in that world and no environment has authority there, whatever the connections, the dispatcher and
    the kernel do, as long as no bind reaches its installation. *)
Theorem saved_world_stays_closed st l r c k b clock id ev env s p r1 l' r2 :
  registry_run (NewWorldRegistry st) l r -> wr_conns r !! c = Some k -> in_loop k = true ->
  wr_worlds r !! bd_World b = Some s -> ws_saving s = false ->
  registry_PrepareCheckpoint (cn_env k) b clock id ev env r = (Ok p, r1) ->
  registry_run r1 l' r2 -> bd_World b ∉ l' ->
  (forall e b', bd_World b' = bd_World b -> exists err, guard_entry e b' r2 = Err err)
  /\ (forall e, authority_Current e (bd_World b) r2 = None) /\ registry_Current (bd_World b) r2 = None.
Proof.
  intros Hr Hk Hin Hs Hsv Hp Hr2 Hl. assert (Hok : registry_ok r) by (eapply registry_run_ok; [apply new_registry_ok|exact Hr]).
  assert (Hok1 : registry_ok r1).
  { pose proof (registry_PrepareCheckpoint_calm None (cn_env k) b clock id ev env r) as Hc. rewrite Hp in Hc. by eapply registry_ok_calm. }
  assert (Hcl : closed (bd_World b) r2).
  { eapply closed_run; [exact Hok1|exact Hr2|exact Hl|]. eapply prepare_closes; [exact Hok|exact Hk|exact Hin|exact Hs|exact Hsv|exact Hp]. }
  split_and!.
  - intros e b' Hw. by eapply closed_guard.
  - intros e. unfold authority_Current. destruct (wr_worlds r2 !! bd_World b) as [s2|] eqn:H2; [|done]. cbn.
    by destruct (Hcl _ H2) as [-> _].
  - unfold registry_Current. destruct (wr_worlds r2 !! bd_World b) as [s2|] eqn:H2; [|done]. cbn. by destruct (Hcl _ H2) as [-> _].
Qed.
