(* ===== verification/Serving.v ===== *)
(** * The registry at work

    Runs of the registry on the kernel as lists of actions, the dispatcher over the
    registry's guard, and concrete instances: two connections take a world in turn. *)

From S2P Require Export Authority Dispatching.
From S2P Require Import Demo.

Local Open Scope go_scope.

(** ** Executable runs *)
Inductive action :=
| AConnect (gameID : string)
| ARequest (c : nat) (request : outcome error taskWorldBinding)
| AProgress (c : nat)
| AMarkReady (c : nat)
| APrepare (c : nat) (b : Binding) (clock : Clock) (id : string) (evidence : list Evidence)
| APause (b : Binding) (e : error)
| AClock (c : nat) (b : Binding) (clock : Clock)
| ACall (c : call).
Definition act (env : Env) (a : action) (r : WorldRegistry) : option (option WorldKey * WorldRegistry) :=
  match a with
  | AConnect g => Some (None, connect g r)
  | ARequest c request =>
    k ← wr_conns r !! c;
    if in_loop k && match cn_busy k with None => true | _ => false end
    then Some (None, update_conn c (with_busy (Some (BindUnready request))) r) else None
  | AProgress c =>
    k ← wr_conns r !! c; st ← cn_busy k;
    if match awaits st with Some w => match wr_lifecycle r !! w with None => true | _ => false end | None => true end
    then Some (installs st, progress_step c k st env r) else None
  | AMarkReady c =>
    k ← wr_conns r !! c; h ← cn_bound k;
    match markReady c h r with (Ok _, r') => Some (None, update_conn c (with_bound None) r') | (Err _, _) => None end
  | APrepare c b clock id evidence =>
    k ← wr_conns r !! c;
    if in_loop k then Some (None, (registry_PrepareCheckpoint (cn_env k) b clock id (Ok evidence) env r).2) else None
  | APause b e => Some (None, (PauseWorld_fence b e r).2)
  | AClock c b clock =>
    k ← wr_conns r !! c;
    if in_loop k then Some (None, (registry_UpdateClock (cn_env k) (Ok b) (Ok clock) env r).2) else None
  | ACall c => Some (None, (kernel (perform c) env r).2)
  end.
Fixpoint acts (env : Env) (l : list action) (r : WorldRegistry) : option (list WorldKey * WorldRegistry) :=
  match l with
  | [] => Some ([], r)
  | a :: l => '(o, r1) ← act env a r; '(ws, r2) ← acts env l r1; Some (option_list o ++ ws, r2)
  end.

Lemma act_step env a r o r' : act env a r = Some (o, r') -> registry_step r o r'.
Proof.
  destruct a as [g|c request|c|c|c b clock id l|b e|c b clock|c]; cbn; intros H.
  - injection H as <- <-. constructor.
  - apply bind_Some in H as (k & Hk & H). destruct (in_loop k) eqn:Hin; [|done]. destruct (cn_busy k) eqn:Hb; [done|].
    injection H as <- <-. by eapply rs_request.
  - apply bind_Some in H as (k & Hk & H). apply bind_Some in H as (st & Hst & H).
    destruct (match awaits st with Some _ => _ | None => _ end) eqn:Hw; [|done]. injection H as <- <-.
    eapply rs_progress; [done|done|]. intros w Hw'. rewrite Hw' in Hw. by destruct (wr_lifecycle r !! w).
  - apply bind_Some in H as (k & Hk & H). apply bind_Some in H as (h & Hh & H).
    destruct (markReady c h r) as [[[]|] r1] eqn:Hm; [|done]. injection H as <- <-. by eapply rs_mark_ready.
  - apply bind_Some in H as (k & Hk & H). destruct (in_loop k) eqn:Hin; [|done]. injection H as <- <-. by eapply rs_prepare.
  - injection H as <- <-. constructor.
  - apply bind_Some in H as (k & Hk & H). destruct (in_loop k) eqn:Hin; [|done]. injection H as <- <-. exact (rs_clock r c k (Ok b) (Ok clock) env Hk Hin).
  - injection H as <- <-. constructor.
Qed.
Lemma registry_run_cons r o r1 l r2 : registry_step r o r1 -> registry_run r1 l r2 -> registry_run r (option_list o ++ l) r2.
Proof.
  intros Hs Hr. induction Hr as [|l r2 w r3 Hr IH Hs'].
  - rewrite app_nil_r. change (option_list o) with ([] ++ option_list o). by eapply registry_run_step; [constructor|].
  - rewrite app_assoc. by eapply registry_run_step.
Qed.
Lemma acts_run env l r ws r' : acts env l r = Some (ws, r') -> registry_run r ws r'.
Proof.
  revert r ws. induction l as [|a l IH]; intros r ws; cbn; [intros [= <- <-]; constructor|]. intros H.
  apply bind_Some in H as ([o r1] & Ha & H). apply bind_Some in H as ([ws1 r2] & Hl & H). injection H as <- <-.
  eapply registry_run_cons; [by eapply act_step|by apply IH].
Qed.

(** ** A world and two connections *)
Definition serving_entity : EntityRef :=
  {| EntityId := "npc"; EntityType := "npc"; DefinitionId := "baker"; DisplayName := "Baker" |}.
Definition serving_request (generation : N) : outcome error taskWorldBinding :=
  Ok {| tb_Binding := {| bd_World := demo_world; bd_RunID := "run"; bd_Generation := generation |};
        tb_Clock := demo_clock; tb_Entities := [serving_entity]; tb_Checkpoint := None |}.
Definition serving_start : WorldRegistry := NewWorldRegistry (mkSt empty_db 0).
(** Connection 0 binds the world; its answer is sent, [markReady] is not yet called. *)
Definition run_of (l : list action) (r : WorldRegistry) : list WorldKey * WorldRegistry :=
  match acts demo_env l r with Some x => x | None => ([], r) end.
Definition serving_bind : list action := [AConnect "game"; ARequest 0 (serving_request 0)] ++ repeat (AProgress 0) 6.
Definition serving_bound : list WorldKey * WorldRegistry := Eval vm_compute in run_of serving_bind serving_start.
Definition serving_ready : list WorldKey * WorldRegistry := Eval vm_compute in run_of [AMarkReady 0] serving_bound.2.
(** A second connection takes the world over while the first has still to call
    [markReady], and is installed. *)
Definition serving_takeover : list action :=
  [AConnect "game"; ARequest 3 (serving_request 1)] ++ repeat (AProgress 3) 3 ++ [AMarkReady 0] ++ repeat (AProgress 3) 5.
Definition serving_taken : list WorldKey * WorldRegistry := Eval vm_compute in run_of serving_takeover serving_bound.2.
Lemma registry_run_app r l r1 l' r2 : registry_run r l r1 -> registry_run r1 l' r2 -> registry_run r (l ++ l') r2.
Proof.
  intros H1 H2. induction H2 as [|l' r2 w r3 H2 IH Hs]; [by rewrite app_nil_r|]. rewrite app_assoc. by eapply registry_run_step.
Qed.
Lemma run_to l r x : acts demo_env l r = Some x -> registry_run r x.1 x.2.
Proof. destruct x. by apply acts_run. Qed.
Lemma serving_binds : registry_run serving_start serving_bound.1 serving_bound.2.
Proof. apply (run_to serving_bind). vm_cast_no_check (@eq_refl (option (list WorldKey * WorldRegistry)) (Some serving_bound)). Qed.
Lemma serving_readies : registry_run serving_start (serving_bound.1 ++ serving_ready.1) serving_ready.2.
Proof.
  eapply registry_run_app; [exact serving_binds|]. apply (run_to [AMarkReady 0]).
  vm_cast_no_check (@eq_refl (option (list WorldKey * WorldRegistry)) (Some serving_ready)).
Qed.
Lemma serving_takes : registry_run serving_start (serving_bound.1 ++ serving_taken.1) serving_taken.2.
Proof.
  eapply registry_run_app; [exact serving_binds|]. apply (run_to serving_takeover).
  vm_cast_no_check (@eq_refl (option (list WorldKey * WorldRegistry)) (Some serving_taken)).
Qed.

(** A [markReady] that the previous owner still owes opens the world in the middle of
    the takeover, after the taking bind has fenced it, and the installation leaves it
    open: the new owner's world admits calls before its own [markReady]. *)
Theorem late_mark_ready_opens_the_world : exists l r s k h,
  registry_run serving_start l r /\ wr_worlds r !! demo_world = Some s /\ ws_ready s = true /\ ws_owner s = Some 3
  /\ wr_conns r !! 3 = Some k /\ cn_bound k = Some h.
Proof.
  assert (Hx : match wr_worlds serving_taken.2 !! demo_world, wr_conns serving_taken.2 !! 3 with
               | Some s, Some k => ws_ready s = true /\ ws_owner s = Some 3 /\ is_Some (cn_bound k)
               | _, _ => False end) by (vm_compute; repeat split; by eexists).
  destruct (wr_worlds serving_taken.2 !! demo_world) as [s|] eqn:Hs; [|done].
  destruct (wr_conns serving_taken.2 !! 3) as [k|] eqn:Hk; [|done]. destruct Hx as (Hr & Ho & h & Hh).
  eexists _, _, s, k, h. split; [exact serving_takes|]. by split_and!.
Qed.

(** ** Instances of the properties of Authority.v *)
Definition serving_entry : WorldEntry := Eval vm_compute in
  match guard_entry 0 demo_binding serving_ready.2 with
  | Ok entry => entry
  | Err _ => {| we_Head := zeroHead; we_AuthorityEpoch := 0; we_ConnectionID := 0; we_Entities := ∅; we_Environment := 0; we_Lanes := 0 |}
  end.
Lemma serving_guard : guard_entry 0 demo_binding serving_ready.2 = Ok serving_entry.
Proof. vm_cast_no_check (@eq_refl (outcome error WorldEntry) (Ok serving_entry)). Qed.
Lemma authority_is_exclusive_witness :
  exists l r entry, registry_run (NewWorldRegistry (mkSt empty_db 0)) l r /\ guard_entry 0 demo_binding r = Ok entry
  /\ (bd_World demo_binding = bd_World demo_binding <-> 0 = 0) /\ we_Environment entry = 0.
Proof.
  exists (serving_bound.1 ++ serving_ready.1), serving_ready.2, serving_entry.
  split; [exact serving_readies|]. split; [exact serving_guard|]. split; [|reflexivity].
  exact (proj1 (authority_is_exclusive (mkSt empty_db 0) _ _ 0 0 demo_binding demo_binding serving_entry serving_entry
    serving_readies serving_guard serving_guard)).
Defined.
Definition serving_conn : worldConnection := Eval vm_compute in
  match wr_conns serving_ready.2 !! 0 with Some k => k | None => mkConn "" 0 0 0 None None None false end.
Definition serving_slot : worldSlot := Eval vm_compute in
  match wr_worlds serving_ready.2 !! demo_world with Some s => s | None => newSlot end.
Definition serving_save : outcome error Prepared * WorldRegistry := Eval vm_compute in
  registry_PrepareCheckpoint (cn_env serving_conn) demo_binding demo_clock_later "save" (Ok []) demo_env serving_ready.2.
Definition serving_prepared : option Prepared := match serving_save.1 with Ok p => Some p | Err _ => None end.
Lemma serving_saves p : serving_prepared = Some p ->
  registry_PrepareCheckpoint (cn_env serving_conn) demo_binding demo_clock_later "save" (Ok []) demo_env serving_ready.2
  = (Ok p, serving_save.2).
Proof.
  unfold serving_prepared. intros Hp. transitivity serving_save.
  - vm_cast_no_check (@eq_refl (outcome error Prepared * WorldRegistry) serving_save).
  - destruct serving_save as [[p'|] r']; cbn in *; [by injection Hp as ->|done].
Qed.
Lemma saved_world_stays_closed_witness :
  exists p, serving_prepared = Some p /\ registry_Current demo_world serving_save.2 = None.
Proof.
  destruct serving_prepared as [p|] eqn:Hp; [|vm_compute in Hp; discriminate Hp]. exists p. split; [reflexivity|].
  exact (proj2 (proj2 (saved_world_stays_closed (mkSt empty_db 0) _ _ 0 serving_conn demo_binding demo_clock_later "save" (Ok [])
    demo_env serving_slot p serving_save.2 [] serving_save.2 serving_readies eq_refl eq_refl eq_refl eq_refl
    (serving_saves p Hp) (registry_run_nil _) (not_elem_of_nil _)))).
Defined.

(** ** The dispatcher over the registry

    The dispatcher's outside is the registry with the kernel behind it: ready worlds,
    the guard of [StartTaskDispatcher] and [ClaimDue].  The context, the clock of the
    environment, admission and [PauseWorld]'s second half are parameters. *)
Section Dispatching.
Variable ctx : nat -> bool.
Variable envs : nat -> Env.
Variable waits : Z -> nat -> bool.
Variable admission : Binding -> Wake -> nat -> WorldRegistry -> outcome error unit * WorldRegistry.
Record Runtime := mkRuntime { rt_clock : nat; rt_registry : WorldRegistry }.
Definition tick_rt (s : Runtime) : Runtime := mkRuntime (S (rt_clock s)) (rt_registry s).

(** The guard given to [NewDispatcher]: the world's current environment, then its guard. *)
Definition dispatch_guard {X} (b : Binding) (fn : Head -> Runtime * X -> outcome error unit * (Runtime * X)) (st : Runtime * X) :
    outcome error unit * (Runtime * X) :=
  match registry_Current (bd_World b) (rt_registry st.1) with
  | None => (Err ErrWorldNotReady, st)
  | Some entry =>
    match guard_entry (we_Environment entry) b (rt_registry st.1) with
    | Err e => (Err e, st)
    | Ok current => fn (we_Head current) st
    end
  end.
#[export] Instance registry_outside : Outside Runtime := {|
  ctxErr := fun s => (ctx (rt_clock s), tick_rt s);
  ReadyWorlds := fun s => (registry_ReadyWorlds (rt_registry s), s);
  Guard := fun X b fn st => dispatch_guard b fn st;
  claimDue := fun b clock limit s =>
    let '(o, r) := kernel (ClaimDue b clock limit) (envs (rt_clock s)) (rt_registry s) in
    (o, mkRuntime (S (rt_clock s)) r);
  waitDelay := fun d s => (waits d (rt_clock s), tick_rt s);
  EnqueueWake := fun b w s =>
    let '(o, r) := admission b w (rt_clock s) (rt_registry s) in (o, mkRuntime (S (rt_clock s)) r);
  PauseWorld := fun b w e s =>
    let '(reason, r) := PauseWorld_fence b e (rt_registry s) in
    mkRuntime (S (rt_clock s)) (match reason with
                                | None => r
                                | Some reason => (kernel (DeactivateWorld b reason) (envs (rt_clock s)) r).2
                                end)
|}.
#[export] Instance registry_guard_laws : GuardLaws Runtime.
Proof.
  constructor. intros X b fn s x r s' x' Hg. cbn in Hg. unfold dispatch_guard in Hg. cbn in Hg.
  destruct (registry_Current _ _) as [entry|]; [|injection Hg as <- _ <-; left; eauto].
  destruct (guard_entry _ _ _) as [current|e] eqn:He; [|injection Hg as <- _ <-; left; eauto].
  right. exists (we_Head current), s, s'. split; [|exact Hg].
  by apply guard_entry_ok in He as (? & ? & ? & _ & _ & _ & _ & Hb & _ & _ & ->).
Qed.

(** *** Every claim is made under the world's current authority

    Admission is a client of the registry like any other: what it does is a run. *)
Hypothesis admission_runs : forall b w n r o r', admission b w n r = (o, r') -> exists l, registry_run r l r'.
Definition leads (s s' : Runtime) : Prop := exists l, registry_run (rt_registry s) l (rt_registry s').
Lemma leads_refl s : leads s s.
Proof. exists []. constructor. Qed.
Lemma leads_trans s1 s2 s3 : leads s1 s2 -> leads s2 s3 -> leads s1 s3.
Proof. intros [l1 H1] [l2 H2]. exists (l1 ++ l2). by eapply registry_run_app. Qed.
Lemma leads_step s s' : registry_step (rt_registry s) None (rt_registry s') -> leads s s'.
Proof. intros H. exists ([] ++ option_list None). by eapply registry_run_step; [constructor|]. Qed.
Lemma leads_kernel c n e r r' (m : M unit) : m = perform c -> (kernel m e r).2 = r' -> leads (mkRuntime n r) (mkRuntime (S n) r').
Proof. intros -> <-. apply leads_step. apply rs_call. Qed.
#[local] Hint Resolve leads_refl : core.

(** A claim of the trace was answered by the kernel at a state of the run in which the
    binding's guard passes, on the clock of the guarded entry. *)
Definition authorized (limit : Z) (s : Runtime) (ev : event) : Prop :=
  match ev with
  | EvClaim b answer => exists e entry, guard_entry e b (rt_registry s) = Ok entry
      /\ answer = (kernel (ClaimDue b (hd_Clock (we_Head entry)) limit) (envs (rt_clock s)) (rt_registry s)).1
  | _ => True
  end.
Definition served {A} (limit : Z) (m : Scan A) : Prop := forall s o tr s', m s = (o, tr, s') ->
  leads s s' /\ forall ev, ev ∈ tr -> exists s1, leads s s1 /\ authorized limit s1 ev.
Lemma served_bind {A B} limit (m : Scan A) (f : A -> Scan B) : served limit m -> (forall a, served limit (f a)) ->
  served limit (m ≫= f).
Proof.
  intros Hm Hf s o tr s' (o1 & tr1 & s1 & H1 & H2)%scan_bind. destruct (Hm _ _ _ _ H1) as [L1 E1].
  destruct o1 as [a|]; [|destruct H2 as (-> & -> & ->); done]. destruct H2 as (tr2 & H2 & ->).
  destruct (Hf a _ _ _ _ H2) as [L2 E2]. split; [by eapply leads_trans|].
  intros ev [Hin|Hin]%elem_of_app; [eauto|]. destruct (E2 _ Hin) as (s2 & L & Ha). exists s2. split; [by eapply leads_trans|done].
Qed.
Lemma served_ret {A} limit (a : A) : served limit (mret a).
Proof. intros s o tr s' [= <- <- <-]. split; [done|]. intros ev Hin. set_solver. Qed.
Lemma leads_same s s' : rt_registry s' = rt_registry s -> leads s s'.
Proof. intros E. unfold leads. rewrite E. exists []. constructor. Qed.
Lemma kernel_discard {A} (m : M A) e r : (kernel m e r).2 = (kernel (discard m) e r).2.
Proof. unfold kernel, discard, mbind, M_bind. by destruct (m e (wr_store r)) as [[a|err] st]. Qed.
Lemma served_quiet {A} limit (m : Scan A) : (forall s o tr s', m s = (o, tr, s') ->
  leads s s' /\ forall b answer, EvClaim b answer ∉ tr) -> served limit m.
Proof.
  intros Hm s o tr s' H. destruct (Hm _ _ _ _ H) as [L Hn]. split; [done|]. intros ev Hin. exists s. split; [done|].
  destruct ev; try done. by destruct (Hn _ _ Hin).
Qed.
Lemma served_stop limit : served limit stop_if_cancelled.
Proof. apply served_quiet. intros s o tr s' [= <- <- <-]. split; [by apply leads_same|]. intros b a Hin. set_solver. Qed.
Lemma served_wait limit c failures : served limit (WaitTechnicalRetry c failures).
Proof. apply served_quiet. intros s o tr s' [= <- <- <-]. split; [by apply leads_same|]. intros b a Hin. set_solver. Qed.
Lemma served_pause limit b w e : served limit (pause_unless_recovering b w e).
Proof.
  apply served_quiet. intros s o tr s'. unfold pause_unless_recovering.
  destruct (BindingRecoveryError e); intros [= <- <- <-]; (split; [|intros b' a Hin; set_solver]); [done|]. cbn.
  pose proof (rs_pause (rt_registry s) b e) as Hp. destruct (PauseWorld_fence b e (rt_registry s)) as [[reason|] r] eqn:Hf; cbn in *.
  - eapply leads_trans; [by apply (leads_step s (mkRuntime 0 r))|]. apply leads_step. cbn.
    exact (rs_call r (CallDeactivateWorld b reason) (envs (rt_clock s))).
  - by apply leads_step.
Qed.
Lemma served_enqueue limit head w :
  served limit (fun s => let '(err, s1) := EnqueueWake (hd_Binding head) w s in (Some err, [EvEnqueue (hd_Binding head) w], s1)).
Proof.
  apply served_quiet. intros s o tr s'. cbn. destruct (admission _ _ _ _) as [err r] eqn:Ha. intros [= <- <- <-].
  split; [|intros b a Hin; set_solver]. destruct (admission_runs _ _ _ _ _ _ Ha) as [l Hl]. by exists l.
Qed.
Lemma served_claim c head wakes : served (BatchSize c) (claim_guarded c head wakes).
Proof.
  intros s o tr s'. unfold claim_guarded. cbn. unfold dispatch_guard. cbn.
  destruct (registry_Current _ _) as [entry|]; [|intros [= <- <- <-]; split; [done|intros ev Hin; set_solver]].
  destruct (guard_entry _ _ _) as [current|e] eqn:Hg; [|intros [= <- <- <-]; split; [done|intros ev Hin; set_solver]].
  unfold claim_callback. cbn. assert (Hb : hd_Binding (we_Head current) = hd_Binding head)
    by (apply guard_entry_ok in Hg as (? & ? & ? & _ & _ & _ & _ & Hb & _ & _ & ->); exact Hb). rewrite Hb.
  destruct (kernel _ _ _) as [answer r] eqn:Hk.
  assert (Hl : leads s (mkRuntime (S (rt_clock s)) r)).
  { apply leads_step. cbn. pose proof (rs_call (rt_registry s)
      (CallClaimDue (hd_Binding head) (hd_Clock (we_Head current)) (BatchSize c)) (envs (rt_clock s))) as H.
    cbn [perform] in H. rewrite <- kernel_discard, Hk in H. exact H. }
  assert (He : forall ev, ev ∈ [EvClaim (hd_Binding head) answer] -> exists s1, leads s s1 /\ authorized (BatchSize c) s1 ev).
  { intros ev ->%list_elem_of_singleton. exists s. split; [done|]. exists (we_Environment entry), current. by rewrite Hk. }
  destruct answer as [ws|e]; intros [= <- <- <-]; by split.
Qed.
Lemma served_claim_world c head more failures wakes : served (BatchSize c) (claim_world c head more failures wakes).
Proof.
  revert failures wakes. induction more as [|more IH]; intros failures wakes; cbn [claim_world];
    (apply served_bind; [apply served_claim|]); intros [[[]|e] ws]; try apply served_ret.
  destruct (TechnicalFailure e); [|apply served_ret]. apply served_bind; [apply served_wait|]. intros _. apply IH.
Qed.
Lemma served_enqueue_wakes limit head ws : served limit (enqueue_wakes head ws).
Proof.
  induction ws as [|w ws IH]; cbn [enqueue_wakes]; [apply served_ret|]. apply served_bind; [|intros _; apply IH].
  unfold enqueue_wake. apply served_bind; [apply served_stop|intros _]. apply served_bind; [apply served_enqueue|intros err].
  apply served_bind; [apply served_stop|intros _]. destruct err; [apply served_ret|apply served_pause].
Qed.
Lemma served_scan c : served (BatchSize c) (scan c).
Proof.
  unfold scan. apply served_bind.
  { apply served_quiet. intros s o tr s' [= <- <- <-]. split; [done|]. intros b a Hin. set_solver. }
  intros heads. induction heads as [|head heads IH]; cbn [scan_worlds]; [apply served_ret|].
  apply served_bind; [|intros _; apply IH]. unfold scan_world. apply served_bind; [apply served_stop|intros _].
  apply served_bind; [apply served_claim_world|]. intros [[[]|e] ws]; (apply served_bind; [apply served_stop|intros _]);
    [apply served_enqueue_wakes|apply served_pause].
Qed.

(** C39: the dispatcher over the registry is one of its clients, and claims only under current authority: a scan is a run
    of the registry, and every claim in it was answered by [ClaimDue] at a state of that run in which the registry's
    guard passed for exactly the claimed binding, on the clock of the guarded entry: never for a world that is being
    saved, is not ready, or has been taken over. *)
Theorem dispatcher_claims_under_authority c s o tr s' : scan c s = (o, tr, s') ->
  leads s s' /\ forall ev, ev ∈ tr -> exists s1, leads s s1 /\ authorized (BatchSize c) s1 ev.
Proof. apply served_scan. Qed.
End Dispatching.

Definition serving_due : list WorldKey * WorldRegistry := Eval vm_compute in
  run_of [ACall demo_create; AClock 0 demo_binding demo_clock_later] serving_ready.2.
Definition serving_outside : Outside Runtime :=
  registry_outside (fun _ => false) (fun _ => demo_env) (fun _ _ => true) (fun _ _ _ r => (Ok tt, r)).
Definition serving_scan : option unit * list event * Runtime := Eval vm_compute in
  @scan Runtime serving_outside demo_config (mkRuntime 0 serving_due.2).
Lemma serving_scans : @scan Runtime serving_outside demo_config (mkRuntime 0 serving_due.2) = serving_scan.
Proof. vm_cast_no_check (@eq_refl (option unit * list event * Runtime) serving_scan). Qed.
Lemma dispatcher_claims_under_authority_witness :
  w_TaskID <$> (snd <$> claimed serving_scan.1.2) = ["task_5012_12"%string]
  /\ forall ev, ev ∈ serving_scan.1.2 -> exists s1, leads (mkRuntime 0 serving_due.2) s1 /\ authorized (fun _ => demo_env) 5 s1 ev.
Proof.
  split; [reflexivity|].
  exact (proj2 (dispatcher_claims_under_authority (fun _ => false) (fun _ => demo_env) (fun _ _ => true) (fun _ _ _ r => (Ok tt, r))
    ltac:(intros b w n r o r' [= _ <-]; exists []; constructor) demo_config (mkRuntime 0 serving_due.2) (Some tt)
    serving_scan.1.2 serving_scan.2 serving_scans)).
Defined.
