(* ===== verification/Handover.v ===== *)
(** * The delivery of a wake: [runtime/internal/gateway/task_dispatch.go]

    [EnqueueWake] puts a claimed wake into the lane of its owner and marks it enqueued;
    the lane later calls the delivery's [run] or [abort].  A delivery is one record
    under its own mutex, which each of these holds from beginning to end, so they are
    functions of the delivery; the registry and the kernel are those of Registry.v, and
    between any two of a delivery's calls the other goroutines take steps of their own
    ([others]).  The trace records what the delivery did. *)

From S2P Require Export Serving.

Local Open Scope go_scope.

Inductive delivery_event :=
| DvMarked | DvReleased | DvPaused (e : error)
| DvHandle (exec : ExecutionContext) (r : TaskRecord)
| DvReconcile (exec : ExecutionContext) (r : TaskRecord).

(** The lane handle is that of the entry.  [wd_admitted]: the channel is closed. *)
Record wakeDelivery := mkDelivery {
  wd_binding : Binding; wd_wake : Wake; wd_entry : WorldEntry; wd_admitted : bool; wd_eligible : bool; wd_ended : bool;
  wd_failures : Z; wd_observedRunning : option WakeInspection
}.
(** [w.barrier.Do(func() { close(w.admitted) })] *)
Definition open_barrier (d : wakeDelivery) : wakeDelivery :=
  mkDelivery (wd_binding d) (wd_wake d) (wd_entry d) true (wd_eligible d) (wd_ended d) (wd_failures d) (wd_observedRunning d).
Definition with_failures (n : Z) (d : wakeDelivery) : wakeDelivery :=
  mkDelivery (wd_binding d) (wd_wake d) (wd_entry d) (wd_admitted d) (wd_eligible d) (wd_ended d) n (wd_observedRunning d).
Definition not_eligible (d : wakeDelivery) : wakeDelivery :=
  mkDelivery (wd_binding d) (wd_wake d) (wd_entry d) (wd_admitted d) false (wd_ended d) (wd_failures d) (wd_observedRunning d).
Definition observe_running (i : WakeInspection) (d : wakeDelivery) : wakeDelivery :=
  mkDelivery (wd_binding d) (wd_wake d) (wd_entry d) (wd_admitted d) (wd_eligible d) (wd_ended d) (wd_failures d) (Some i).
Definition finish (d : wakeDelivery) : wakeDelivery :=
  mkDelivery (wd_binding d) (wd_wake d) (wd_entry d) true false true (wd_failures d) (wd_observedRunning d).

(** [time.Time.Add] *)
Definition Time_Add (t : Time) (d : Z) : Time :=
  let n := (t_Nanosecond t + d)%Z in {| t_Unix := t_Unix t + n / 1000000000; t_Nanosecond := n mod 1000000000 |}.
Definition same_entry (entry e : WorldEntry) : bool :=
  (we_AuthorityEpoch e == we_AuthorityEpoch entry) && (we_Lanes e == we_Lanes entry).
(** The context of a wake that is already running. *)
Definition running_context (i : WakeInspection) : ExecutionContext :=
  {| ex_Owner := r_Owner (wi_Task i); ex_Binding := hd_Binding (wi_Head i); ex_Clock := hd_Clock (wi_Head i);
     ex_Source := {| src_Kind := SourceKindTaskWake; src_EventID := ""; src_TurnID := ""; src_CallID := w_ID (wi_Wake i);
                     src_GameTime := ""; src_Facts := "" |};
     ex_TaskID := r_ID (wi_Task i); ex_WakeID := w_ID (wi_Wake i); ex_WakeReason := ""; ex_WakeDueAt := 0;
     ex_ExpectedRevision := r_Revision (wi_Task i) |}.

Section Delivery.
(** When the context is cancelled, the kernel's environments, whether a retry's timer
    fires, the wall clock, what the other goroutines do; the states of the lane stores
    and of their lanes; the two handlers, by what they answer. *)
Variable config : DispatcherConfig.
Variable ctx : nat -> bool.
Variable envs : nat -> Env.
Variable waits : Z -> nat -> bool.
Variable now : nat -> Time.
Variable others : nat -> WorldRegistry -> WorldRegistry.
Variable stores : nat -> nat -> LaneStore.
Variable lanes : nat -> nat -> nat -> ExecutionLane.
Variable handle reconcile : option (ExecutionContext -> TaskRecord -> nat -> outcome error unit).

(** A computation over the runtime; no answer is one that does not return (out of fuel,
    or blocked). *)
Definition P (A : Type) : Type := Runtime -> option A * list delivery_event * Runtime.
#[export] Instance P_ret : MRet P := fun A a s => (Some a, [], s).
#[export] Instance P_bind : MBind P := fun A B f m s =>
  match m s with
  | (Some a, tr, s1) => let '(o, tr', s2) := f a s1 in (o, tr ++ tr', s2)
  | (None, tr, s1) => (None, tr, s1)
  end.
Definition stuck {A} : P A := fun s => (None, [], s).
Definition emit (ev : delivery_event) : P unit := fun s => (Some tt, [ev], s).
Definition opt_P {A} (o : option A) : P A := fun s => (o, [], s).
(** An action at one moment, after the steps of the others. *)
Definition meanwhile (s : Runtime) : Runtime := mkRuntime (S (rt_clock s)) (others (rt_clock s) (rt_registry s)).
Definition moment {A} (f : nat -> WorldRegistry -> A * WorldRegistry) : P A := fun s =>
  let s := meanwhile s in let '(a, r) := f (rt_clock s) (rt_registry s) in (Some a, [], mkRuntime (rt_clock s) r).
Definition observe {A} (f : nat -> WorldRegistry -> A) : P A := moment (fun n r => (f n r, r)).
Definition kernel_call {A} (m : M A) : P (outcome error A) := moment (fun n r => kernel m (envs n) r).

Definition dispatch_PauseWorld (b : Binding) (e : error) : P unit :=
  reason ← moment (fun _ r => PauseWorld_fence b e r);
  match reason with
  | None => mret tt
  | Some reason => _ ← emit (DvPaused e); _ ← kernel_call (DeactivateWorld b reason); mret tt
  end.

Definition valid (d : wakeDelivery) : P bool := observe (fun _ r =>
  match registry_Current (bd_World (wd_binding d)) r with
  | None => false
  | Some e => (hd_Binding (we_Head e) == wd_binding d) && same_entry (wd_entry d) e
  end).
Definition delivery_guard {A} (d : wakeDelivery) (fn : nat -> M A) : P (outcome error A) := moment (fun n r =>
  registry_Guard (we_Environment (wd_entry d)) (wd_binding d) (fun e =>
    if ! same_entry (wd_entry d) e then fail ErrGenerationStale else fn n) (envs n) r).
Definition pause (d : wakeDelivery) (e : error) : P wakeDelivery :=
  let d := finish d in _ ← dispatch_PauseWorld (wd_binding d) e; mret d.
Definition invalidate (d : wakeDelivery) : P wakeDelivery :=
  let d := finish d in
  v ← valid d;
  _ ← (if (v : bool) then dispatch_PauseWorld (wd_binding d) ErrWorldNotReady else mret tt);
  mret d.
Definition cancelled : P bool := observe (fun n _ => ctx n).
(** [ctx.Err() == nil && w.valid()] *)
Definition live (d : wakeDelivery) : P bool :=
  stop ← cancelled; if (stop : bool) then mret false else valid d.

(** Shall a failed call be tried again? *)
Definition failed (e : error) (d : wakeDelivery) : P (bool * wakeDelivery) :=
  stop ← cancelled;
  if (stop : bool) then d ← invalidate d; mret (false, d) else
  if BindingRecoveryError e then mret (false, finish d) else
  let d := with_failures (wd_failures d + 1) d in
  if (3 <=? wd_failures d)%Z then d ← pause d e; mret (false, d) else
  fired ← observe (fun n _ => waits (RetryDelay config (wd_failures d)) n);
  if (fired : bool) then mret (true, d) else d ← invalidate d; mret (false, d).

(** [inspect] answers the inspection when the delivery goes on. *)
Fixpoint inspect_loop (fuel : nat) (d : wakeDelivery) : P (option WakeInspection * wakeDelivery) :=
  match fuel with
  | O => stuck
  | S fuel =>
    answer ← kernel_call (InspectWake (wd_binding d) (w_ID (wd_wake d)));
    match answer with
    | Err e => '(again, d) ← failed e d; if (again : bool) then inspect_loop fuel d else mret (None, d)
    | Ok i =>
      v ← (if hd_Status (wi_Head i) != worldHeadStatusReady then mret false else valid d);
      if ! v then mret (None, finish d) else
      if (w_Status (wi_Wake i) == wakeStatusPending) || (w_Status (wi_Wake i) == wakeStatusConsumed)
      then mret (None, finish d) else
      if (w_ClaimID (wi_Wake i) != w_ClaimID (wd_wake d)) || (w_ClaimedBy (wi_Wake i) != w_ClaimedBy (wd_wake d))
      then mret (None, finish d) else
      mret (Some i, d)
    end
  end.
Definition attempts : nat := 3.
Definition inspect : wakeDelivery -> P (option WakeInspection * wakeDelivery) := inspect_loop attempts.

Fixpoint release_loop (fuel : nat) (d : wakeDelivery) : P wakeDelivery :=
  match fuel with
  | O => stuck
  | S fuel =>
    if wd_ended d then mret d else
    err ← delivery_guard d (fun n => ReleaseClaim (wd_binding d) (w_ID (wd_wake d)) (w_ClaimID (wd_wake d))
                              (Time_Add (now n) (RetryDelay config 1)));
    match err with
    | Ok _ => _ ← emit DvReleased; mret (finish d)
    | Err e =>
      '(again, d) ← failed e d;
      if ! again then mret d else
      '(found, d) ← inspect d;
      match found with
      | None => mret d
      | Some i => if w_Status (wi_Wake i) != wakeStatusClaimed then pause d ErrWorldNotReady else release_loop fuel d
      end
    end
  end.
Definition release : wakeDelivery -> P wakeDelivery := release_loop attempts.

Fixpoint mark_loop (fuel : nat) (d : wakeDelivery) : P wakeDelivery :=
  match fuel with
  | O => stuck
  | S fuel =>
    if wd_ended d then mret d else
    err ← delivery_guard d (fun _ => MarkEnqueued (wd_binding d) (w_ID (wd_wake d)) (w_ClaimID (wd_wake d)));
    match err with
    | Ok _ => _ ← emit DvMarked; mret (open_barrier (with_failures 0 d))
    | Err e =>
      stop ← (if BindingRecoveryError e then mret true else cancelled);
      if (stop : bool) then mret (finish d) else
      if ! TechnicalFailure e then release (open_barrier (not_eligible d)) else
      '(again, d) ← failed e d;
      if ! again then mret d else
      '(found, d) ← inspect d;
      match found with
      | None => mret d
      | Some i =>
        if w_Status (wi_Wake i) == wakeStatusClaimed then mark_loop fuel d else
        if (w_Status (wi_Wake i) == wakeStatusEnqueued) || (w_Status (wi_Wake i) == wakeStatusRunning) then
          mret (open_barrier (with_failures 0
                  (if w_Status (wi_Wake i) == wakeStatusRunning then observe_running i d else d)))
        else pause d ErrInvalidTaskSpec
      end
    end
  end.
Definition mark : wakeDelivery -> P wakeDelivery := mark_loop attempts.

(** The handler that gets the task, and the pause when it answers an error. *)
Definition hand_over (d : wakeDelivery) (h : ExecutionContext -> TaskRecord -> nat -> outcome error unit)
    (exec : ExecutionContext) (r : TaskRecord) : P wakeDelivery :=
  err ← observe (fun n _ => h exec r n);
  _ ← match err with Ok _ => mret tt | Err e => dispatch_PauseWorld (wd_binding d) e end;
  mret d.
Definition recoverRunning (i : WakeInspection) (d : wakeDelivery) : P wakeDelivery :=
  let d := finish d in
  v ← live d;
  if ! v then mret d else
  match reconcile with
  | None => _ ← dispatch_PauseWorld (wd_binding d) ErrTaskConflict; mret d
  | Some h => _ ← emit (DvReconcile (running_context i) (wi_Task i)); hand_over d h (running_context i) (wi_Task i)
  end.
Fixpoint run_loop (fuel : nat) (d : wakeDelivery) : P wakeDelivery :=
  match fuel with
  | O => stuck
  | S fuel =>
    if wd_ended d then mret d else
    v ← live d;
    if ! v then invalidate d else
    match wd_observedRunning d with
    | Some i => recoverRunning i d
    | None =>
      begun ← delivery_guard d (fun _ => BeginWake (wd_binding d) (w_ID (wd_wake d)) (w_ClaimID (wd_wake d)));
      match begun with
      | Ok (exec, r) =>
        let d := finish d in
        v ← live d;
        if ! v then invalidate d else
        match handle with
        | None => mret d
        | Some h => _ ← emit (DvHandle exec r); hand_over d h exec r
        end
      | Err e =>
        '(again, d) ← failed e d;
        if ! again then mret d else
        '(found, d) ← inspect d;
        match found with
        | None => mret d
        | Some i =>
          if w_Status (wi_Wake i) == wakeStatusEnqueued then run_loop fuel d else
          if w_Status (wi_Wake i) == wakeStatusRunning then recoverRunning i d else mret (finish d)
        end
      end
    end
  end.
Definition run_delivery (d : wakeDelivery) : P wakeDelivery :=
  if wd_ended d || ! wd_eligible d then mret d else
  match handle, wd_observedRunning d with
  | None, None => pause d ErrTaskConflict
  | _, _ => run_loop attempts d
  end.
Definition abort (d : wakeDelivery) : P wakeDelivery :=
  if wd_ended d then mret d else
  let d := finish d in
  v ← valid d;
  _ ← (if (v : bool) then dispatch_PauseWorld (wd_binding d) ErrWorldNotReady else mret tt);
  mret d.

(** The lane of the owner, then its queue. *)
Definition lane_admits (handle : nat) (key : AgentSessionKey) (id : string) : P (outcome error unit) :=
  found ← observe (fun n _ => (GetOrCreate key (stores n handle)).1);
  match found with
  | Err e => mret (Err e)
  | Ok (lane, _) =>
    answer ← observe (fun n _ => fst <$> Enqueue {| lt_ID := id; lt_Admitted := Some n |} (lanes n handle lane));
    opt_P answer
  end.
Definition dispatch_EnqueueWake (b : Binding) (w : Wake) : P (outcome error (option wakeDelivery)) :=
  current ← observe (fun _ r => registry_Current (bd_World b) r);
  match current with
  | None => mret (Err ErrWorldNotReady)
  | Some entry =>
    if hd_Binding (we_Head entry) != b then mret (Err ErrGenerationStale) else
    if (GameID (w_Owner w) != wk_GameID (bd_World b)) || (WorldID (w_Owner w) != wk_WorldID (bd_World b))
       || (we_Entities entry !! EntityID (w_Owner w) == None) || (w_Generation w != bd_Generation b)
       || (w_Status w != wakeStatusClaimed) || ! is_ok (Wake_Validate w)
    then _ ← dispatch_PauseWorld b ErrInvalidTaskSpec; mret (Ok None) else
    let d := mkDelivery b w entry false true false 0 None in
    err ← lane_admits (we_Lanes entry) (w_Owner w) (w_ID w);
    match err with
    | Err _ => d ← release (not_eligible d); mret (Ok (Some d))
    | Ok _ => d ← mark d; mret (Ok (Some d))
    end
  end.

(** The life of a delivery: [EnqueueWake], then whatever callbacks the lane calls. *)
Inductive lane_callback := LaneRun | LaneAbort.
Fixpoint callbacks (l : list lane_callback) (d : wakeDelivery) : P wakeDelivery :=
  match l with
  | [] => mret d
  | c :: l => d ← match c with LaneRun => run_delivery d | LaneAbort => abort d end; callbacks l d
  end.
Definition delivery_life (b : Binding) (w : Wake) (l : list lane_callback) : P (outcome error (option wakeDelivery)) :=
  o ← dispatch_EnqueueWake b w;
  match o with
  | Ok (Some d) => d ← callbacks l d; mret (Ok (Some d))
  | _ => mret o
  end.
End Delivery.
