(* ===== verification/Handing.v ===== *)
(** * What the delivery of a wake guarantees

    Every computation of Handover.v returns; what it does to the registry is a run of
    it; and [wp] says what it leaves behind. *)

From S2P Require Export Handover.
From S2P Require Import Demo.

Local Open Scope go_scope.

Definition is_handled (ev : delivery_event) : bool := match ev with DvHandle _ _ | DvReconcile _ _ => true | _ => false end.
Definition silent (tr : list delivery_event) : Prop := Forall (fun ev => is_handled ev = false) tr.
Lemma silent_app tr tr' : silent tr -> silent tr' -> silent (tr ++ tr').
Proof. apply Forall_app_2. Qed.
Lemma silent_nil : silent [].
Proof. constructor. Qed.
Lemma silent_one ev : is_handled ev = false -> silent [ev].
Proof. by repeat constructor. Qed.
#[export] Hint Resolve silent_app silent_nil silent_one leads_refl : handover.

(** Follow the steps from one state to another. *)
Ltac chain := solve [ assumption | apply leads_refl
  | match goal with H : leads ?a ?b |- leads ?a ?c => apply (leads_trans a b c H); clear H; chain end ].

(** ** Computations that return *)
Definition wp {A} (m : P A) (Q : A -> list delivery_event -> Runtime -> Prop) (s : Runtime) : Prop :=
  match m s with (Some a, tr, s') => leads s s' /\ Q a tr s' | (None, _, _) => False end.
Lemma wp_use {A} (m : P A) Q s o tr s' : wp m Q s -> m s = (o, tr, s') -> leads s s' /\ exists a, o = Some a /\ Q a tr s'.
Proof. unfold wp. intros H E. rewrite E in H. destruct o; [|done]. destruct H. eauto. Qed.
Lemma wp_ret {A} (a : A) (Q : A -> list delivery_event -> Runtime -> Prop) s : Q a [] s -> wp (mret a) Q s.
Proof. intros H. split; [apply leads_refl|done]. Qed.
Lemma wp_mono {A} (m : P A) (Q Q' : A -> list delivery_event -> Runtime -> Prop) s : wp m Q s ->
  (forall a tr s', leads s s' -> Q a tr s' -> Q' a tr s') -> wp m Q' s.
Proof. unfold wp. destruct (m s) as [[[a|] tr] s']; [|done]. intros [Hl H] Hm. split; [done|by apply Hm]. Qed.
Lemma wp_bind {A B} (m : P A) (f : A -> P B) Q s :
  wp m (fun a tr s1 => wp (f a) (fun b tr' s2 => leads s s2 -> Q b (tr ++ tr') s2) s1) s -> wp (m ≫= f) Q s.
Proof.
  unfold wp, mbind, P_bind. destruct (m s) as [[[a|] tr] s1]; [|done]. intros [Hl H].
  destruct (f a s1) as [[[b|] tr'] s2]; [|done]. destruct H as [Hl2 H]. assert (leads s s2) by chain. by split; [|apply H].
Qed.
Lemma wp_emit ev (Q : unit -> list delivery_event -> Runtime -> Prop) s : Q tt [ev] s -> wp (emit ev) Q s.
Proof. intros H. split; [apply leads_refl|done]. Qed.

Section Facts.
Variable config : DispatcherConfig.
Variable ctx : nat -> bool.
Variable envs : nat -> Env.
Variable waits : Z -> nat -> bool.
Variable now : nat -> Time.
Variable others : nat -> WorldRegistry -> WorldRegistry.
Variable stores : nat -> nat -> LaneStore.
Variable lanes : nat -> nat -> nat -> ExecutionLane.
Variable handle reconcile : option (ExecutionContext -> TaskRecord -> nat -> outcome error unit).
(** The other goroutines take steps of the registry. *)
Hypothesis others_run : forall n r, exists l, registry_run r l (others n r).

Lemma leads_meanwhile s : leads s (meanwhile others s).
Proof. apply others_run. Qed.
(** An action is one step of the registry at a later moment. *)
Lemma wp_action {A} (f : nat -> WorldRegistry -> A * WorldRegistry) (Q : A -> list delivery_event -> Runtime -> Prop) s :
  (forall n r, registry_step r None (f n r).2 \/ (f n r).2 = r) ->
  (forall s1 s2, leads s s1 -> leads s1 s2 -> Q (f (rt_clock s1) (rt_registry s1)).1 [] s2) ->
  wp (moment others f) Q s.
Proof.
  intros Hf HQ. unfold wp, moment. pose proof (leads_meanwhile s) as Hi. set (s1 := meanwhile others s) in *.
  specialize (Hf (rt_clock s1) (rt_registry s1)). specialize (HQ s1). destruct (f _ _) as [a r]. cbn in *.
  assert (Hs : leads s1 (mkRuntime (rt_clock s1) r)).
  { destruct Hf as [Hf| ->]; [by apply leads_step|apply leads_same; done]. }
  split; [chain|by apply HQ].
Qed.
Lemma wp_observe {A} (f : nat -> WorldRegistry -> A) (Q : A -> list delivery_event -> Runtime -> Prop) s :
  (forall s1 s2, leads s s1 -> leads s1 s2 -> Q (f (rt_clock s1) (rt_registry s1)) [] s2) -> wp (observe others f) Q s.
Proof. intros H. apply wp_action; [by right|done]. Qed.
(** A kernel operation does what one of the service's calls does. *)
Definition performs {A} (m : M A) : Prop := exists c, forall e r, (kernel m e r).2 = (kernel (perform c) e r).2.
Lemma performs_discard {A} (m : M A) c : discard m = perform c -> performs m.
Proof. intros H. exists c. intros e r. by rewrite kernel_discard, H. Qed.
Lemma performs_call m c : m = perform c -> performs m.
Proof. intros ->. by exists c. Qed.
Lemma wp_call {A} (m : M A) (Q : outcome error A -> list delivery_event -> Runtime -> Prop) s : performs m ->
  (forall s1 s2, leads s s1 -> leads s1 s2 -> Q (kernel m (envs (rt_clock s1)) (rt_registry s1)).1 [] s2) ->
  wp (kernel_call envs others m) Q s.
Proof. intros [c Hm] HQ. apply wp_action; [|done]. intros n r. left. rewrite Hm. apply rs_call. Qed.

(** ** The guard *)
Definition guarded {A} (d : wakeDelivery) (m : nat -> M A) (a : A) (s : Runtime) : Prop := exists entry,
  guard_entry (we_Environment (wd_entry d)) (wd_binding d) (rt_registry s) = Ok entry
  /\ same_entry (wd_entry d) entry = true
  /\ (kernel (m (rt_clock s)) (envs (rt_clock s)) (rt_registry s)).1 = Ok a.
Lemma wp_guard {A} (d : wakeDelivery) (m : nat -> M A) (Q : outcome error A -> list delivery_event -> Runtime -> Prop) s :
  (forall n, performs (m n)) ->
  (forall s1 s2 a, leads s s1 -> leads s1 s2 -> guarded d m a s1 -> Q (Ok a) [] s2) ->
  (forall s2 e, leads s s2 -> Q (Err e) [] s2) -> wp (delivery_guard envs others d m) Q s.
Proof.
  intros Hm HQ HE. apply wp_action.
  - intros n r. unfold registry_Guard. destruct (guard_entry _ _ _) as [entry|]; [|by right].
    destruct (same_entry _ entry); cbn [negb]; [left; destruct (Hm n) as [c ->]; apply rs_call|right].
    cbn. unfold set_store. by destruct r.
  - intros s1 s2 H1 H2. assert (leads s s2) by chain. unfold registry_Guard.
    destruct (guard_entry _ _ _) as [entry|] eqn:He; [|by apply HE].
    destruct (same_entry _ entry) eqn:Hs; cbn [negb]; [|by apply HE].
    destruct (kernel (m _) _ _) as [[a|e] r] eqn:Hk; [|by apply HE].
    eapply HQ; [exact H1|exact H2|]. exists entry. rewrite Hk. done.
Qed.

(** ** What each method leaves behind *)
Lemma wp_pause b e (Q : unit -> list delivery_event -> Runtime -> Prop) s :
  (forall tr s2, leads s s2 -> silent tr -> Q tt tr s2) -> wp (dispatch_PauseWorld envs others b e) Q s.
Proof.
  intros HQ. apply wp_bind, wp_action; [intros n r; left; apply rs_pause|]. intros s1 s2 H1 H2.
  destruct (PauseWorld_fence b e _).1 as [reason|]; [|apply wp_ret; auto with handover].
  apply wp_bind, wp_emit, wp_bind, wp_call; [by eapply (performs_call _ (CallDeactivateWorld b reason))|].
  intros s3 s4 H3 H4. apply wp_ret. intros _ _ H. apply HQ; auto with handover.
Qed.
Lemma wp_valid d (Q : bool -> list delivery_event -> Runtime -> Prop) s :
  (forall b s2, leads s s2 -> Q b [] s2) -> wp (valid others d) Q s.
Proof. intros HQ. apply wp_observe. intros s1 s2 H1 H2. apply HQ. chain. Qed.
Lemma wp_cancelled (Q : bool -> list delivery_event -> Runtime -> Prop) s :
  (forall b s2, leads s s2 -> Q b [] s2) -> wp (cancelled ctx others) Q s.
Proof. intros HQ. apply wp_observe. intros s1 s2 H1 H2. apply HQ. chain. Qed.
Lemma wp_live d (Q : bool -> list delivery_event -> Runtime -> Prop) s :
  (forall b s2, leads s s2 -> Q b [] s2) -> wp (live ctx others d) Q s.
Proof.
  intros HQ. apply wp_bind, wp_cancelled. intros [] s2 H2; [apply wp_ret; auto|]. apply wp_valid. intros b s3 H3 H. by apply HQ.
Qed.
Lemma wp_invalidate d (Q : wakeDelivery -> list delivery_event -> Runtime -> Prop) s :
  (forall tr s2, leads s s2 -> silent tr -> Q (finish d) tr s2) -> wp (invalidate envs others d) Q s.
Proof.
  intros HQ. apply wp_bind, wp_valid. intros b s2 H2. apply wp_bind.
  destruct b; [apply wp_pause; intros tr s3 H3 Ht|apply wp_ret]; apply wp_ret; intros; apply HQ; auto with handover.
Qed.
Lemma wp_pause_delivery d e (Q : wakeDelivery -> list delivery_event -> Runtime -> Prop) s :
  (forall tr s2, leads s s2 -> silent tr -> Q (finish d) tr s2) -> wp (pause envs others d e) Q s.
Proof. intros HQ. apply wp_bind, wp_pause. intros tr s2 H2 Ht. apply wp_ret. intros H. apply HQ; auto with handover. Qed.

(** Another failure is tolerated, or the delivery is over. *)
Lemma wp_failed e d (Q : bool * wakeDelivery -> list delivery_event -> Runtime -> Prop) s :
  (forall tr s2, leads s s2 -> silent tr -> (wd_failures d + 1 < 3)%Z -> Q (true, with_failures (wd_failures d + 1) d) tr s2) ->
  (forall tr s2 n, leads s s2 -> silent tr -> Q (false, finish (with_failures n d)) tr s2) ->
  wp (failed config ctx envs waits others e d) Q s.
Proof.
  intros HT HF. unfold failed. apply wp_bind, wp_cancelled. intros stop s2 H2.
  assert (Hd : d = with_failures (wd_failures d) d) by by destruct d.
  destruct stop.
  { apply wp_bind, wp_invalidate. intros tr s3 H3 Ht. apply wp_ret. intros _ H. rewrite Hd. apply HF; auto with handover. }
  destruct (BindingRecoveryError e); [apply wp_ret; intros H; rewrite Hd; apply HF; auto with handover|].
  cbn zeta. destruct (Z.leb_spec 3 (wd_failures (with_failures (wd_failures d + 1) d))) as [Hn|Hn].
  { apply wp_bind, wp_pause_delivery. intros tr s3 H3 Ht. apply wp_ret. intros _ H. apply HF; auto with handover. }
  apply wp_bind, wp_observe. intros s3 s4 H3 H4. destruct (waits _ _).
  { apply wp_ret. intros _ H. apply HT; auto with handover. }
  apply wp_bind, wp_invalidate. intros tr s5 H5 Ht. apply wp_ret. intros _ _ H. apply HF; auto with handover.
Qed.
(** An inspection that lets the delivery go on. *)
Definition inspected (d : wakeDelivery) (i : WakeInspection) (s : Runtime) : Prop :=
  (kernel (InspectWake (wd_binding d) (w_ID (wd_wake d))) (envs (rt_clock s)) (rt_registry s)).1 = Ok i
  /\ hd_Status (wi_Head i) = worldHeadStatusReady
  /\ w_ClaimID (wi_Wake i) = w_ClaimID (wd_wake d) /\ w_ClaimedBy (wi_Wake i) = w_ClaimedBy (wd_wake d).
Lemma wp_inspect_loop fuel d (Q : option WakeInspection * wakeDelivery -> list delivery_event -> Runtime -> Prop) s :
  (wd_failures d < 3)%Z -> (3 <= wd_failures d + Z.of_nat fuel)%Z ->
  (forall tr s1 s2 i n, leads s s1 -> leads s1 s2 -> silent tr -> inspected d i s1 -> (wd_failures d <= n < 3)%Z ->
    Q (Some i, with_failures n d) tr s2) ->
  (forall tr s2 n, leads s s2 -> silent tr -> Q (None, finish (with_failures n d)) tr s2) ->
  wp (inspect_loop config ctx envs waits others fuel d) Q s.
Proof.
  revert d s Q. induction fuel as [|fuel IH]; intros d s Q Hlt Hf HI HN; [lia|].
  assert (Hd : d = with_failures (wd_failures d) d) by by destruct d.
  cbn [inspect_loop]. apply wp_bind, wp_call; [by apply (performs_discard _ (CallInspectWake (wd_binding d) (w_ID (wd_wake d))))|].
  intros s1 s2 H1 H2. destruct (kernel _ _ _).1 as [i|e] eqn:Hk.
  - apply wp_bind. assert (Hv : forall v s3, leads s2 s3 -> (v = true -> hd_Status (wi_Head i) = worldHeadStatusReady) ->
      wp (if ! v then mret (None, finish d) else
          if (w_Status (wi_Wake i) == wakeStatusPending) || (w_Status (wi_Wake i) == wakeStatusConsumed)
          then mret (None, finish d) else
          if (w_ClaimID (wi_Wake i) != w_ClaimID (wd_wake d)) || (w_ClaimedBy (wi_Wake i) != w_ClaimedBy (wd_wake d))
          then mret (None, finish d) else mret (Some i, d))
        (fun a tr s4 => leads s2 s4 -> leads s s4 -> Q a ([] ++ [] ++ tr) s4) s3).
    { intros v s3 H3 Hr. destruct v; cbn [negb]; [|apply wp_ret; intros _ H; rewrite Hd; apply HN; auto with handover].
      destruct (_ || _); [apply wp_ret; intros _ H; rewrite Hd; apply HN; auto with handover|].
      destruct ((w_ClaimID (wi_Wake i) != _) || _) eqn:Hc; [apply wp_ret; intros _ H; rewrite Hd; apply HN; auto with handover|].
      apply wp_ret. intros H2' H. boolp. rewrite Hd at 1. eapply HI; [exact H1|chain|constructor| |cbn; lia].
      split_and!; [done|by apply Hr|tauto|tauto]. }
    destruct (hd_Status (wi_Head i) != worldHeadStatusReady) eqn:Hs; [apply wp_ret; apply Hv; [apply leads_refl|done]|].
    apply wp_valid. intros v s3 H3. apply Hv; [done|]. intros _. by boolp.
  - apply wp_bind, wp_failed.
    + intros tr s3 H3 Ht Hn. apply IH; [cbn; lia|cbn; lia| |].
      * intros tr' s4 s5 i n H4 H5 Ht' Hi Hn' H2' H'. cbn in Hn'.
        apply (HI _ s4 s5 i n); [|exact H5|auto with handover|exact Hi|lia].
        chain.
      * intros tr' s4 n H4 Ht' H2' H'. apply (HN _ _ n); auto with handover.
    + intros tr s3 n H3 Ht. apply wp_ret. intros H2' H'. apply HN; auto with handover.
Qed.
Lemma wp_inspect d (Q : option WakeInspection * wakeDelivery -> list delivery_event -> Runtime -> Prop) s :
  (0 <= wd_failures d < 3)%Z ->
  (forall tr s1 s2 i n, leads s s1 -> leads s1 s2 -> silent tr -> inspected d i s1 -> (wd_failures d <= n < 3)%Z ->
    Q (Some i, with_failures n d) tr s2) ->
  (forall tr s2 n, leads s s2 -> silent tr -> Q (None, finish (with_failures n d)) tr s2) ->
  wp (inspect config ctx envs waits others d) Q s.
Proof. intros Hf. apply wp_inspect_loop; [lia|unfold attempts; lia]. Qed.

Lemma wp_release_loop fuel d (Q : wakeDelivery -> list delivery_event -> Runtime -> Prop) s :
  (0 <= wd_failures d)%Z -> 0 < fuel -> (3 <= wd_failures d + Z.of_nat fuel)%Z -> wd_ended d = false ->
  (forall tr s2 n, leads s s2 -> silent tr -> Q (finish (with_failures n d)) tr s2) ->
  wp (release_loop config ctx envs waits now others fuel d) Q s.
Proof.
  revert d s Q. induction fuel as [|fuel IH]; intros d s Q Hf0 H0 Hf He HQ; [lia|].
  assert (Hd : d = with_failures (wd_failures d) d) by by destruct d.
  cbn [release_loop]. rewrite He. apply wp_bind, wp_guard.
  { intros n. by eapply (performs_call _ (CallReleaseClaim _ _ _ _)). }
  - intros s1 s2 [] H1 H2 _. apply wp_bind, wp_emit, wp_ret. intros _ H. rewrite Hd. apply HQ; auto with handover.
  - intros s2 e H2. apply wp_bind, wp_failed.
    2: { intros tr s3 n H3 Ht. apply wp_ret. intros _ H. apply HQ; auto with handover. }
    intros tr s3 H3 Ht Hn. cbn [negb]. apply wp_bind, wp_inspect; [cbn; lia| |].
    2: { intros tr' s4 n H4 Ht'. apply wp_ret. intros _ _ H. apply (HQ _ _ n); auto with handover. }
    intros tr' s4 s5 i n H4 H5 Ht' _ Hn'. destruct (_ != _).
    + apply wp_pause_delivery. intros tr2 s6 H6 Ht2 _ _ H. apply (HQ _ _ n); auto with handover.
    + cbn in Hn'. apply IH; [cbn; lia|lia|cbn; lia|done|]. intros tr2 s6 n' H6 Ht2 _ _ H. apply (HQ _ _ n'); auto with handover.
Qed.
Lemma wp_mark_loop fuel d (Q : wakeDelivery -> list delivery_event -> Runtime -> Prop) s :
  (0 <= wd_failures d < 3)%Z -> (3 <= wd_failures d + Z.of_nat fuel)%Z -> wd_ended d = false ->
  (forall tr s2, leads s s2 -> silent tr -> Q (open_barrier (with_failures 0 d)) tr s2) ->
  (forall tr s1 s2 i, leads s s1 -> leads s1 s2 -> silent tr -> inspected d i s1 -> w_Status (wi_Wake i) = wakeStatusRunning ->
    Q (open_barrier (with_failures 0 (observe_running i d))) tr s2) ->
  (forall tr s2 n, leads s s2 -> silent tr -> Q (finish (with_failures n d)) tr s2) ->
  wp (mark_loop config ctx envs waits now others fuel d) Q s.
Proof.
  revert d s Q. induction fuel as [|fuel IH]; intros d s Q Hf0 Hf He HM HR HQ; [lia|].
  assert (Hd : d = with_failures (wd_failures d) d) by by destruct d.
  cbn [mark_loop]. rewrite He. apply wp_bind, wp_guard.
  { intros n. by eapply (performs_call _ (CallMarkEnqueued _ _ _)). }
  { intros s1 s2 [] H1 H2 _. apply wp_bind, wp_emit, wp_ret. intros _ H. apply HM; auto with handover. }
  intros s2 e H2. apply wp_bind. assert (Hgo : forall stop s3, leads s2 s3 -> wp (if (stop : bool) then mret (finish d) else
      if ! TechnicalFailure e then release config ctx envs waits now others (open_barrier (not_eligible d)) else
      '(again, d) ← failed config ctx envs waits others e d;
      if ! again then mret d else
      '(found, d) ← inspect config ctx envs waits others d;
      match found with
      | None => mret d
      | Some i =>
        if w_Status (wi_Wake i) == wakeStatusClaimed then mark_loop config ctx envs waits now others fuel d else
        if (w_Status (wi_Wake i) == wakeStatusEnqueued) || (w_Status (wi_Wake i) == wakeStatusRunning) then
          mret (open_barrier (with_failures 0
                  (if w_Status (wi_Wake i) == wakeStatusRunning then observe_running i d else d)))
        else pause envs others d ErrInvalidTaskSpec
      end) (fun a tr s4 => leads s2 s4 -> leads s s4 -> Q a ([] ++ [] ++ tr) s4) s3).
  2: { destruct (BindingRecoveryError e); [apply wp_ret; by apply (Hgo true), leads_refl|].
       apply wp_cancelled. intros stop s3 H3. by apply Hgo. }
  intros stop s3 H3. destruct stop; [apply wp_ret; intros _ H; rewrite Hd; apply HQ; auto with handover|].
  destruct (TechnicalFailure e); cbn [negb].
  2: { apply wp_release_loop; [cbn; lia|unfold attempts; lia|unfold attempts; cbn; lia|done|].
       intros tr s4 n H4 Ht _ H. apply (HQ _ _ n); auto with handover. }
  apply wp_bind, wp_failed.
  2: { intros tr s4 n H4 Ht. apply wp_ret. intros _ _ H. apply (HQ _ _ n); auto with handover. }
  intros tr s4 H4 Ht Hn. cbn [negb]. apply wp_bind, wp_inspect; [cbn; lia| |].
  2: { intros tr' s5 n H5 Ht'. apply wp_ret. intros _ _ _ H. apply (HQ _ _ n); auto with handover. }
  intros tr' s5 s6 i n H5 H6 Ht' Hi Hn'. cbn in Hn'.
  assert (H15 : leads s s5).
  { chain. }
  destruct (w_Status (wi_Wake i) == wakeStatusClaimed).
  - apply IH; [cbn; lia|cbn; lia|done| | |].
    + intros tr2 s7 H7 Ht2 _ _ _ H. apply HM; auto with handover.
    + intros tr2 s7 s8 i' H7 H8 Ht2 Hi' Hs' _ _ _ H. apply (HR _ s7 s8 i'); auto with handover.
      chain.
    + intros tr2 s7 n' H7 Ht2 _ _ _ H. apply (HQ _ _ n'); auto with handover.
  - destruct (_ || _); [apply wp_ret|apply wp_pause_delivery; intros tr2 s7 H7 Ht2 _ _ _ H; apply (HQ _ _ n); auto with handover].
    intros _ _ _ H. destruct (w_Status (wi_Wake i) == wakeStatusRunning) eqn:Hs.
    + apply (HR _ s5 s6 i); auto with handover. by apply bool_decide_eq_true in Hs.
    + apply HM; auto with handover.
Qed.

(** *** The task is handed over at most once *)

(** What an event of the trace rests on. *)
Definition grounded (d : wakeDelivery) (ev : delivery_event) (s : Runtime) : Prop :=
  match ev with
  | DvHandle exec r => guarded d (fun _ => BeginWake (wd_binding d) (w_ID (wd_wake d)) (w_ClaimID (wd_wake d))) (exec, r) s
  | DvReconcile exec r => exists i, inspected d i s /\ w_Status (wi_Wake i) = wakeStatusRunning
      /\ exec = running_context i /\ r = wi_Task i
  | _ => True
  end.
Definition handed (d : wakeDelivery) (s s' : Runtime) (tr : list delivery_event) : Prop := silent tr \/
  exists tr1 ev tr2 s1, tr = tr1 ++ ev :: tr2 /\ silent tr1 /\ silent tr2 /\ leads s s1 /\ leads s1 s' /\ grounded d ev s1.
Lemma handed_app d s s' s2 tr1 tr tr2 : silent tr1 -> handed d s s' tr -> silent tr2 -> leads s' s2 -> handed d s s2 (tr1 ++ tr ++ tr2).
Proof.
  intros H1 [H|(t1 & ev & t2 & s1 & -> & Ht1 & Ht2 & Hl & Hr & Hg)] H2 Hs; [left; auto with handover|right].
  exists (tr1 ++ t1), ev, (t2 ++ tr2), s1. rewrite <- !app_assoc. split_and!; auto with handover. chain.
Qed.

Definition running_seen (d : wakeDelivery) (i : WakeInspection) (s0 s : Runtime) : Prop := exists s1,
  leads s0 s1 /\ leads s1 s /\ inspected d i s1 /\ w_Status (wi_Wake i) = wakeStatusRunning.
Lemma wp_hand_over d h exec r (Q : wakeDelivery -> list delivery_event -> Runtime -> Prop) s :
  (forall tr s2, leads s s2 -> silent tr -> Q d tr s2) -> wp (hand_over envs others d h exec r) Q s.
Proof.
  intros HQ. apply wp_bind, wp_observe. intros s1 s2 H1 H2. apply wp_bind.
  destruct (h _ _ _); [apply wp_ret, wp_ret|apply wp_pause; intros tr s3 H3 Ht; apply wp_ret]; intros; apply HQ; auto with handover.
Qed.
Lemma wp_recoverRunning i d (Q : wakeDelivery -> list delivery_event -> Runtime -> Prop) s0 s : running_seen d i s0 s ->
  (forall tr s2, leads s s2 -> handed d s0 s2 tr -> Q (finish d) tr s2) ->
  wp (recoverRunning ctx envs others reconcile i d) Q s.
Proof.
  intros (s1 & H01 & H1 & Hi & Hs) HQ. unfold recoverRunning. cbn zeta. apply wp_bind, wp_live. intros v s2 H2.
  destruct v; cbn [negb]; [|apply wp_ret; intros H; apply HQ; [done|left; constructor]]. destruct reconcile as [h|].
  - apply wp_bind, wp_emit, wp_hand_over. intros tr s3 H3 Ht H23 H. apply HQ; [done|]. right.
    exists [], (DvReconcile (running_context i) (wi_Task i)), tr, s1. split_and!; auto with handover; [chain|].
    by exists i.
  - apply wp_bind, wp_pause. intros tr s3 H3 Ht. apply wp_ret. intros _ H. apply HQ; [done|]. left. auto with handover.
Qed.
Lemma wp_run_loop fuel d (Q : wakeDelivery -> list delivery_event -> Runtime -> Prop) s0 s :
  (0 <= wd_failures d < 3)%Z -> (3 <= wd_failures d + Z.of_nat fuel)%Z -> wd_ended d = false -> leads s0 s ->
  (forall i, wd_observedRunning d = Some i -> running_seen d i s0 s) ->
  (forall tr s2 n, leads s s2 -> handed d s0 s2 tr -> Q (finish (with_failures n d)) tr s2) ->
  wp (run_loop config ctx envs waits others handle reconcile fuel d) Q s.
Proof.
  revert d s Q. induction fuel as [|fuel IH]; intros d s Q Hf0 Hf He H0 Ho HQ; [lia|].
  assert (Hd : d = with_failures (wd_failures d) d) by by destruct d.
  assert (HQ0 : forall tr s2, leads s s2 -> handed d s0 s2 tr -> Q (finish d) tr s2).
  { intros tr s2. rewrite Hd at 2. apply HQ. }
  cbn [run_loop]. rewrite He. apply wp_bind, wp_live. intros v s2 H2. destruct v; cbn [negb].
  2: { apply wp_invalidate. intros tr s3 H3 Ht H. apply HQ0; [done|by left]. }
  destruct (wd_observedRunning d) as [i|] eqn:Hi.
  { destruct (Ho i eq_refl) as (s1 & H01 & H1 & Hins). eapply (wp_recoverRunning _ _ _ s0).
    - exists s1. split_and!; [done|chain|apply Hins|apply Hins].
    - intros tr s3 H3 Ht H. by apply HQ0. }
  assert (Hseen : forall i n s3 s4, leads s2 s3 -> leads s3 s4 -> inspected d i s3 -> w_Status (wi_Wake i) = wakeStatusRunning ->
    running_seen (with_failures n d) i s0 s4).
  { intros i n s3 s4 H3 H4 Hins Hs. exists s3. split_and!; try done. chain. }
  apply wp_bind, wp_guard.
  { intros n. by eapply (performs_discard _ (CallBeginWake _ _ _)). }
  - intros s3 s4 [exec r] H3 H4 Hg. cbn zeta. apply wp_bind, wp_live. intros v s5 H5.
    destruct v; cbn [negb].
    2: { apply wp_invalidate. intros tr s6 H6 Ht _ _ H. apply HQ0; [done|by left]. }
    destruct handle as [h|]; [|apply wp_ret; intros _ _ H; apply HQ0; [done|by left; constructor]].
    apply wp_bind, wp_emit, wp_hand_over. intros tr s6 H6 Ht H56 H46 H26 H. apply HQ0; [done|right].
    exists [], (DvHandle exec r), tr, s3. split_and!; auto with handover.
    + chain.
    + eapply leads_trans; [exact H4|done].
  - intros s4 e H4. apply wp_bind, wp_failed.
    2: { intros tr s5 n H5 Ht. apply wp_ret. intros _ _ H. apply (HQ _ _ n); [done|left; auto with handover]. }
    intros tr s5 H5 Ht Hn. cbn [negb]. apply wp_bind, wp_inspect; [cbn; lia| |].
    2: { intros tr' s6 n H6 Ht'. apply wp_ret. intros _ _ _ H. apply (HQ _ _ n); [done|left; auto with handover]. }
    intros tr' s6 s7 i n H6 H7 Ht' Hins Hn'. cbn in Hn'.
    assert (H26 : leads s2 s6) by by chain.
    assert (Hfin : forall tr2 s8, handed d s0 s8 tr2 -> handed d s0 s8 ([] ++ [] ++ tr ++ tr' ++ tr2)).
    { intros tr2 s8 Hh. rewrite !app_nil_l, <- (app_nil_r tr2), app_assoc.
      apply (handed_app d s0 s8); auto with handover. }
    destruct (w_Status (wi_Wake i) == wakeStatusEnqueued).
    { apply IH; [cbn; lia|cbn; lia|done| | |].
      - chain.
      - intros i'. cbn. rewrite Hi. done.
      - intros tr2 s8 n' H8 Hh _ _ _ H. apply (HQ _ _ n'); [done|]. by apply Hfin. }
    destruct (w_Status (wi_Wake i) == wakeStatusRunning) eqn:Hs.
    + eapply (wp_recoverRunning _ _ _ s0); [eapply (Hseen i n s6 s7); try done; by apply bool_decide_eq_true in Hs|].
      intros tr2 s8 H8 Hh _ _ _ H. apply (HQ _ _ n); [done|]. by apply Hfin.
    + apply wp_ret. intros _ _ _ H. apply (HQ _ _ n); [done|]. left. auto with handover.
Qed.

(** A delivery that the lane may run or abort, or that is over. *)
Definition pending (d : wakeDelivery) (s0 s : Runtime) : Prop :=
  wd_ended d = false /\ wd_eligible d = true /\ (0 <= wd_failures d < 3)%Z
  /\ (forall i, wd_observedRunning d = Some i -> running_seen d i s0 s).
Lemma wp_run_delivery d (Q : wakeDelivery -> list delivery_event -> Runtime -> Prop) s0 s : leads s0 s -> pending d s0 s ->
  (forall tr s2 n, leads s s2 -> handed d s0 s2 tr -> Q (finish (with_failures n d)) tr s2) ->
  wp (run_delivery config ctx envs waits others handle reconcile d) Q s.
Proof.
  intros H0 (He & Hel & Hf & Ho) HQ. unfold run_delivery. rewrite He, Hel. cbn [orb negb].
  assert (Hd : d = with_failures (wd_failures d) d) by by destruct d.
  assert (Hrun : wp (run_loop config ctx envs waits others handle reconcile attempts d) Q s).
  { apply (wp_run_loop _ _ _ s0); try done. unfold attempts. lia. }
  destruct handle; [done|]. destruct (wd_observedRunning d); [done|]. apply wp_pause_delivery.
  intros tr s2 H2 Ht. rewrite Hd. apply HQ; [done|by left].
Qed.
Lemma wp_abort d (Q : wakeDelivery -> list delivery_event -> Runtime -> Prop) s : wd_ended d = false ->
  (forall tr s2, leads s s2 -> silent tr -> Q (finish d) tr s2) -> wp (abort envs others d) Q s.
Proof.
  intros He HQ. unfold abort. rewrite He. apply wp_bind, wp_valid. intros v s2 H2. apply wp_bind.
  destruct v; [apply wp_pause; intros tr s3 H3 Ht|apply wp_ret]; apply wp_ret; intros; apply HQ; auto with handover.
Qed.
Lemma callbacks_ended l d : wd_ended d = true ->
  callbacks config ctx envs waits others handle reconcile l d = mret d.
Proof.
  intros He. induction l as [|c l IH]; [done|]. cbn [callbacks].
  assert (Hc : match c with LaneRun => run_delivery config ctx envs waits others handle reconcile d
                          | LaneAbort => abort envs others d end = mret d).
  { destruct c; unfold run_delivery, abort; by rewrite He. }
  rewrite Hc. unfold mbind, P_bind. cbn. by rewrite IH.
Qed.

(** ** The life of a delivery *)
Lemma Enqueue_answers t l : exists x, Enqueue t l = Some x.
Proof.
  unfold Enqueue. destruct (_ || _); [by eexists|]. cbv zeta.
  destruct (Z.leb_spec (if ln_activeMaintenance l then ln_queueSize l + 1 else ln_queueSize l) (Z.of_nat (length (ln_queue l)))); [by eexists|].
  destruct (Z.leb_spec (ln_capacity l) (Z.of_nat (length (ln_queue l)))); [|by eexists].
  unfold ln_capacity in *. destruct (ln_activeMaintenance l); lia.
Qed.
Lemma wp_lane_admits h key id (Q : outcome error unit -> list delivery_event -> Runtime -> Prop) s :
  (forall a s2, leads s s2 -> Q a [] s2) -> wp (lane_admits others stores lanes h key id) Q s.
Proof.
  intros HQ. apply wp_bind, wp_observe. intros s1 s2 H1 H2. destruct (GetOrCreate _ _).1 as [[lane o]|e]; [|apply wp_ret; auto].
  apply wp_bind, wp_observe. intros s3 s4 H3 H4. destruct (Enqueue_answers {| lt_ID := id; lt_Admitted := Some (rt_clock s3) |} (lanes (rt_clock s3) h lane)) as [x ->].
  split; [apply leads_refl|]. intros _ H. by apply HQ.
Qed.
(** A delivery as [EnqueueWake] makes it. *)
Definition new_delivery (b : Binding) (w : Wake) (entry : WorldEntry) : wakeDelivery := mkDelivery b w entry false true false 0 None.
(** What is the same for a delivery through its life. *)
Definition same_delivery (d d' : wakeDelivery) : Prop :=
  wd_binding d' = wd_binding d /\ wd_wake d' = wd_wake d /\ wd_entry d' = wd_entry d.
Lemma wp_EnqueueWake b w (Q : outcome error (option wakeDelivery) -> list delivery_event -> Runtime -> Prop) s :
  (forall tr s2 o, leads s s2 -> silent tr -> match o with Ok (Some _) => False | _ => True end -> Q o tr s2) ->
  (forall tr s1 s2 entry d, leads s s1 -> leads s1 s2 -> silent tr -> registry_Current (bd_World b) (rt_registry s1) = Some entry ->
    hd_Binding (we_Head entry) = b -> same_delivery (new_delivery b w entry) d -> wd_admitted d = true ->
    wd_ended d = true \/ pending d s s2 -> Q (Ok (Some d)) tr s2) ->
  wp (dispatch_EnqueueWake config ctx envs waits now others stores lanes b w) Q s.
Proof.
  intros HN HD. unfold dispatch_EnqueueWake. apply wp_bind, wp_observe. intros s1 s2 H1 H2.
  destruct (registry_Current _ _) as [entry|] eqn:Hc; [|apply wp_ret; intros H; by apply HN; [|constructor|]].
  destruct (hd_Binding (we_Head entry) != b) eqn:Hb; [apply wp_ret; intros H; by apply HN; [|constructor|]|].
  apply negb_false_iff, bool_decide_eq_true in Hb. case_match eqn:Hg; clear Hg.
  { apply wp_bind, wp_pause. intros tr s3 H3 Ht. apply wp_ret. intros _ H. apply HN; auto with handover. }
  cbv zeta. fold (new_delivery b w entry). apply wp_bind, wp_lane_admits. intros [[]|e] s3 H3; apply wp_bind.
  - apply wp_mark_loop; [done|unfold attempts; done|done| | |].
    + intros tr s4 H4 Ht. apply wp_ret. intros _ _ H. apply (HD _ s1 _ entry); [chain|chain|auto with handover|done..|].
      right. done.
    + intros tr s4 s5 i H4 H5 Ht Hi Hs. apply wp_ret. intros _ _ H. apply (HD _ s1 _ entry); [chain|chain|auto with handover|done..|].
      right. split_and!; try done. intros i' [= <-]. exists s4. split; [chain|]. split; [chain|]. by split.
    + intros tr s4 n H4 Ht. apply wp_ret. intros _ _ H. apply (HD _ s1 _ entry); [chain|chain|auto with handover|done..|by left].
  - apply wp_release_loop; [done|unfold attempts; lia|unfold attempts; done|done|].
    intros tr s4 n H4 Ht. apply wp_ret. intros _ _ H. apply (HD _ s1 _ entry); [chain|chain|auto with handover|done..|by left].
Qed.

(** What a life leaves behind: a delivery whose lane is not kept waiting, over once the
    lane has called back, and whose task was handed over at most once. *)
Definition lived (b : Binding) (w : Wake) (l : list lane_callback) (s : Runtime) (o : outcome error (option wakeDelivery))
    (tr : list delivery_event) (s' : Runtime) : Prop :=
  match o with
  | Ok (Some d) => wd_admitted d = true /\ (l <> [] -> wd_ended d = true) /\ (wd_eligible d = false -> wd_ended d = true)
      /\ exists entry s1, leads s s1 /\ leads s1 s' /\ registry_Current (bd_World b) (rt_registry s1) = Some entry
          /\ hd_Binding (we_Head entry) = b /\ same_delivery (new_delivery b w entry) d /\ handed d s s' tr
  | _ => silent tr
  end.
Lemma wp_life b w l s :
  wp (delivery_life config ctx envs waits now others stores lanes handle reconcile b w l) (fun o tr s' => lived b w l s o tr s') s.
Proof.
  unfold delivery_life. apply wp_bind, wp_EnqueueWake.
  { intros tr s2 o H2 Ht Ho. destruct o as [[d|]|e]; [done| |]; apply wp_ret; intros _; cbn; by rewrite app_nil_r. }
  intros tr s1 s2 entry d H1 H2 Ht Hc Hb Hsame Ha Hd. apply wp_bind.
  assert (H02 : leads s s2) by chain.
  assert (Hend : forall d' tr' s3 s4, leads s2 s3 -> leads s3 s4 -> wd_ended d' = true -> wd_admitted d' = true ->
    same_delivery (new_delivery b w entry) d' -> handed d' s s3 tr' -> lived b w l s (Ok (Some d')) (tr ++ tr' ++ []) s4).
  { intros d' tr' s3 s4 H3 H4 He Hadm Hs Hh. cbn. split_and!; try done. exists entry, s1. split_and!; try done; try apply Hs; try chain.
    apply (handed_app _ _ s3); auto with handover. }
  destruct l as [|c l].
  { apply wp_ret, wp_ret. intros _ _. cbn. rewrite app_nil_r. split_and!; try done.
    - destruct Hd as [Hd|(_ & Hel & _)]; [done|congruence].
    - exists entry, s1. split_and!; try done; try apply Hsame. by left. }
  destruct Hd as [Hd|Hp].
  { rewrite callbacks_ended by done. apply wp_ret, wp_ret. intros _ _. apply (Hend d [] s2 s2); auto with handover. left. constructor. }
  cbn [callbacks]. apply wp_bind. assert (He : forall d' s3 tr', leads s2 s3 -> wd_ended d' = true -> wd_admitted d' = true ->
      same_delivery (new_delivery b w entry) d' -> handed d' s s3 tr' ->
      wp (callbacks config ctx envs waits others handle reconcile l d') (fun a tr2 s4 => leads s2 s4 ->
        wp (mret (Ok (Some a))) (fun o tr3 s5 => leads s2 s5 -> leads s s5 -> lived b w (c :: l) s o (tr ++ (tr' ++ tr2) ++ tr3) s5) s4) s3).
  { intros d' s3 tr' H3 Hed Had Hs Hh. rewrite callbacks_ended by done. apply wp_ret. intros _. apply wp_ret. intros _ _.
    rewrite app_nil_r. apply (Hend d' tr' s3 s3); auto with handover. }
  destruct c.
  - apply (wp_run_delivery _ _ s); [done|done|]. intros tr' s3 n H3 Hh. apply He; auto.
  - apply wp_abort; [apply Hp|]. intros tr' s3 H3 Ht'. apply He; auto. by left.
Qed.

(** C7: a wake is handed over at most once, and only when it runs: over the whole life of a delivery, whatever the lane
    calls back and however often, whatever the other goroutines do between its steps and whenever the context is
    cancelled, at most one handler is called; it is called with the task that [BeginWake] answered at a moment at which
    the registry's guard passed for the delivery's binding under the authority the delivery was made with, or with the
    task of an inspection that saw the wake already running under the delivery's own claim.  What the delivery does to
    the registry and the kernel is a run of them. *)
Theorem wake_handed_over_once b w l s o tr s' : delivery_life config ctx envs waits now others stores lanes handle reconcile b w l s = (o, tr, s') ->
  leads s s' /\ (silent tr \/ exists d tr1 ev tr2 entry s0 s1,
    o = Some (Ok (Some d)) /\ tr = tr1 ++ ev :: tr2 /\ silent tr1 /\ silent tr2
    /\ leads s s0 /\ registry_Current (bd_World b) (rt_registry s0) = Some entry /\ same_delivery (new_delivery b w entry) d
    /\ leads s s1 /\ leads s1 s' /\ grounded d ev s1).
Proof.
  intros H. destruct (wp_use _ _ _ _ _ _ (wp_life b w l s) H) as (Hl & a & -> & Ha). split; [done|].
  destruct a as [[d|]|e]; [|by left|by left]. destruct Ha as (_ & _ & _ & entry & s0 & H0 & _ & Hc & _ & Hs & [Ht|Hh]); [by left|].
  destruct Hh as (tr1 & ev & tr2 & s1 & -> & H1 & H2 & H3 & H4 & Hg). right. exists d, tr1, ev, tr2, entry, s0, s1. by split_and!.
Qed.

(** C40: a delivery always comes back and never keeps its lane waiting: [EnqueueWake] and the callbacks return whatever
    the kernel answers, every retry loop ending after at most three attempts; when [EnqueueWake] has returned with a
    delivery, the admission barrier is open; a delivery whose enqueueing failed is over already, and every delivery is
    over once its lane has run or aborted it. *)
Theorem delivery_always_returns b w l s : exists o tr s',
  delivery_life config ctx envs waits now others stores lanes handle reconcile b w l s = (Some o, tr, s')
  /\ match o with
     | Ok (Some d) => wd_admitted d = true /\ (l <> [] -> wd_ended d = true) /\ (wd_eligible d = false -> wd_ended d = true)
     | _ => silent tr
     end.
Proof.
  destruct (delivery_life config ctx envs waits now others stores lanes handle reconcile b w l s) as [[o tr] s'] eqn:H.
  destruct (wp_use _ _ _ _ _ _ (wp_life b w l s) H) as (_ & a & -> & Ha). exists a, tr, s'. split; [done|].
  destruct a as [[d|]|e]; [|done|done]. by destruct Ha as (H1 & H2 & H3 & _).
Qed.

(** ** The dispatcher's admission *)
Definition dispatch_admission (b : Binding) (w : Wake) (n : nat) (r : WorldRegistry) : outcome error unit * WorldRegistry :=
  let '(o, _, s') := dispatch_EnqueueWake config ctx envs waits now others stores lanes b w (mkRuntime n r) in
  (match o with Some (Err e) => Err e | _ => Ok tt end, rt_registry s').
(** [EnqueueWake] is what the dispatcher over the registry asks of admission. *)
Lemma dispatch_admission_runs b w n r o r' : dispatch_admission b w n r = (o, r') -> exists l, registry_run r l r'.
Proof.
  unfold dispatch_admission. destruct (dispatch_EnqueueWake _ _ _ _ _ _ _ _ b w _) as [[x tr] s'] eqn:H. intros [= _ <-].
  exact (proj1 (wp_use _ (fun _ _ _ => True) _ _ _ _ (wp_EnqueueWake b w _ _ (fun _ _ _ _ _ _ => I) (fun _ _ _ _ _ _ _ _ _ _ _ _ _ => I)) H)).
Qed.
End Facts.

(** ** A wake's life

    The wake that the scan of Serving.v claimed goes to an idle lane, which runs it. *)
Definition handing_wake : Wake := Eval vm_compute in
  match claimed serving_scan.1.2 with
  | (_, w) :: _ => w
  | [] => {| w_ID := ""; w_TaskID := ""; w_Owner := {| GameID := ""; WorldID := ""; EntityID := "" |}; w_ExpectedRevision := 0;
             w_DueTick := 0; w_Reason := ""; w_Status := wakeStatusPending; w_ClaimID := ""; w_ClaimedBy := "";
             w_Generation := 0; w_Attempt := 0; w_RetryAfterUnixMS := 0 |}
  end.
Definition handing_lane : ExecutionLane := mkLane false 1 [] false false None false WTop.
Definition handing_life (l : list lane_callback) : P (outcome error (option wakeDelivery)) :=
  delivery_life demo_config (fun _ => false) (fun _ => demo_env) (fun _ _ => true) (fun _ => {| t_Unix := 5; t_Nanosecond := 0 |})
    (fun _ r => r) (fun _ _ => mkStore 1 false ∅ 0 false) (fun _ _ _ => handing_lane) (Some (fun _ _ _ => Ok tt)) None
    demo_binding handing_wake l.
Definition handing_result : option (outcome error (option wakeDelivery)) * list delivery_event * Runtime :=
  Eval vm_compute in handing_life [LaneRun; LaneAbort; LaneRun] serving_scan.2.
Lemma handing_runs : handing_life [LaneRun; LaneAbort; LaneRun] serving_scan.2 = handing_result.
Proof. vm_cast_no_check (@eq_refl (option (outcome error (option wakeDelivery)) * list delivery_event * Runtime) handing_result). Qed.
Lemma handing_others (n : nat) (r : WorldRegistry) : exists l, registry_run r l r.
Proof. exists []. constructor. Qed.

Lemma wake_handed_over_once_witness :
  is_handled <$> handing_result.1.2 = [false; true] /\ leads serving_scan.2 handing_result.2.
Proof.
  split; [reflexivity|].
  exact (proj1 (wake_handed_over_once _ _ _ _ _ _ _ _ _ _ handing_others _ _ _ _ handing_result.1.1 handing_result.1.2 handing_result.2
    handing_runs)).
Defined.
Lemma delivery_always_returns_witness : exists o tr s', handing_life [LaneRun] serving_scan.2 = (Some o, tr, s')
  /\ match o with
     | Ok (Some d) => wd_admitted d = true /\ ([LaneRun] <> [] -> wd_ended d = true) /\ (wd_eligible d = false -> wd_ended d = true)
     | _ => silent tr
     end.
Proof.
  exact (delivery_always_returns demo_config (fun _ => false) (fun _ => demo_env) (fun _ _ => true)
    (fun _ => {| t_Unix := 5; t_Nanosecond := 0 |}) (fun _ r => r) (fun _ _ => mkStore 1 false ∅ 0 false) (fun _ _ _ => handing_lane)
    (Some (fun _ _ _ => Ok tt)) None handing_others demo_binding handing_wake [LaneRun] serving_scan.2).
Defined.
