(* ===== verification/Batch.v ===== *)
(** * A batch of tool calls: [runtime/internal/agent/scheduler.go]

    The calls of one model response are checked together, then run in order; neighbours
    that are parallel-safe run side by side.  A call that fails skips what comes after
    its group, a technical error ends the batch, and the history gets one entry per call.

    What a runtime tool, the environment and the callback before an action answer is a
    function of the planned call, since a batch runs a call once; in which order the
    calls of a group finish is [pick].  JSON objects are values of the type [Value],
    which the code only copies and passes on.  Building a request out of arguments
    ([structpb.NewStruct]), checking them against a schema ([tool.ValidateArguments]),
    the text of quoted names and fresh action ids are parameters. *)

From S2P Require Export Errors GoText.

Local Open Scope go_scope.

(** ** Data of the packages [tool], [model] and [memory] *)
Inductive Kind := KindEnvironment | KindRuntime | KindOther (text : string).
Inductive ConcurrencyMode := ConcurrencySequential | ConcurrencyParallelSafe.
Inductive ExecutionMode := ExecutionSync | ExecutionAsync.
#[export] Instance Kind_eq_dec : EqDecision Kind. Proof. solve_decision. Defined.
#[export] Instance ConcurrencyMode_eq_dec : EqDecision ConcurrencyMode. Proof. solve_decision. Defined.
#[export] Instance ExecutionMode_eq_dec : EqDecision ExecutionMode. Proof. solve_decision. Defined.
Record ToolPolicy := { ExclusivePerStep : bool; SettleAfterSuccess : bool }.
(** The executor of a runtime tool: the task tools or another one. *)
Inductive executor := TaskTools | OtherExecutor.
#[export] Instance executor_eq_dec : EqDecision executor. Proof. solve_decision. Defined.
Record Entry := {
  en_InputSchema : string; en_Kind : Kind; en_Concurrency : ConcurrencyMode; en_Execution : ExecutionMode;
  en_Policy : ToolPolicy; en_Executor : option executor
}.

Inductive ActionStatus :=
| ACTION_STATUS_SUCCEEDED | ACTION_STATUS_REJECTED | ACTION_STATUS_FAILED | ACTION_STATUS_CANCELLED
| ACTION_STATUS_INTERRUPTED | ACTION_STATUS_OTHER (name : string).

Definition toolResultStatusSucceeded : string := "succeeded".
Definition toolResultStatusInvalid : string := "invalid".
Definition toolResultStatusSkipped : string := "skipped".
Definition toolResultStatusRejected : string := "rejected".
Definition toolResultStatusFailed : string := "failed".
Definition toolResultStatusCancelled : string := "cancelled".
Definition toolResultStatusInterrupted : string := "interrupted".

(** ** Text *)

(** [string(r)] of a decoded rune: a broken byte becomes U+FFFD. *)
Definition rune_text (r : N * list ascii) : list ascii :=
  if (r.1 =? RuneError)%N then byte_of <$> [0xEF; 0xBF; 0xBD]%N else r.2.
Definition truncateMessage (message : string) (maxRunes : Z) : string :=
  let message := TrimSpace message in
  if (maxRunes <=? 0)%Z || (Z.of_nat (length (runes message)) <=? maxRunes)%Z then message else
  text_of (concat (rune_text <$> take (Z.to_nat maxRunes) (runes message))).

Section Batch.
Context {Value : Type}.

Record ToolCall := mkCall {
  tc_ID : string; tc_Name : string; tc_Arguments : option Value; tc_RawArguments : string; tc_ArgumentsError : string
}.
Record ToolResult := mkResult {
  tr_ToolCallID : string; tr_Name : string; tr_Status : string; tr_Code : string; tr_Message : string; tr_Output : option Value
}.
Definition zeroResult : ToolResult := mkResult "" "" "" "" "" None.
Record ActionRequest := {
  aq_ActionId : string; aq_EntityId : string; aq_Capability : string; aq_Arguments : Value; aq_WorldId : string;
  aq_SourceEventId : string; aq_SourceTurnId : string
}.
Record ActionResult := {
  ar_Status : ActionStatus; ar_ErrorCode : string; ar_ErrorMessage : string; ar_Output : option Value
}.
Record HistoryExecution := mkExecution {
  he_Call : ToolCall; he_ActionID : string; he_Started : bool; he_ActionResult : option ActionResult;
  he_RuntimeResult : option ToolResult; he_RuntimeError : string
}.
Definition new_execution (call : ToolCall) : HistoryExecution := mkExecution call "" false None None "".

Record plannedToolCall := mkPlanned { pc_index : nat; pc_call : ToolCall; pc_entry : Entry; pc_request : option ActionRequest }.
Definition pc_ActionId (item : plannedToolCall) : string := match pc_request item with Some q => aq_ActionId q | None => "" end.
Record completedToolAction := { ca_ToolCall : ToolCall; ca_ActionResult : option ActionResult; ca_Policy : ToolPolicy }.
Record toolBatchOutcome := mkOutcome {
  bo_Results : list ToolResult; bo_SuccessfulActions : list completedToolAction; bo_Executions : list HistoryExecution;
  bo_HasModelVisibleFailure : bool; bo_SettleAfterSuccess : bool; bo_AsyncActionStarted : bool
}.
Record toolExecutionResult := mkExecuted {
  xr_result : ToolResult; xr_actionResult : option ActionResult; xr_execution : HistoryExecution; xr_err : option error
}.

(** ** The scheduler *)
Record toolBatchScheduler := {
  bs_view : string -> option Entry; bs_taskHistoryOwner : bool; bs_maxParallelToolCalls : Z; bs_asyncActionLimitFull : bool;
  bs_sourceEventID : string; bs_sourceTurnID : string
}.
(** The library functions, and what is outside answers; [bx_env] is whether there is an
    environment. *)
Record batchLibrary := {
  quote : string -> string; ValidateArguments : string -> Value -> option error; NewStruct : Value -> outcome error Value;
  newActionID : nat -> string
}.
Record batchOutside := {
  bx_env : bool;
  beforeEnvironmentAction : option (plannedToolCall -> option error);
  ExecuteRuntime : plannedToolCall -> ToolResult * option error;
  SubmitAction : plannedToolCall -> option ActionResult * option error;
  StartAction : plannedToolCall -> (bool * option ActionResult) * option error;
  WaitActionResult : plannedToolCall -> option ActionResult * option error
}.
Variable s : toolBatchScheduler.
Variable lib : batchLibrary.
Variable out : batchOutside.
(** Of the running calls (in the order of their launch) with those still to launch, the
    one that finishes next, counted around. *)
Variable pick : list plannedToolCall -> list plannedToolCall -> nat.

Definition invalidToolResult (call : ToolCall) (code message : string) : ToolResult :=
  mkResult (tc_ID call) (tc_Name call) toolResultStatusInvalid code (truncateMessage message 120) None.
Definition skippedToolResult (call : ToolCall) (code message : string) : ToolResult :=
  mkResult (tc_ID call) (tc_Name call) toolResultStatusSkipped code (truncateMessage message 120) None.

(** *** Preflight *)
Definition duplicateToolCallIDs (calls : list ToolCall) (id : string) : bool :=
  (id != "") && (2 <=? length (List.filter (fun c => TrimSpace (tc_ID c) == id) calls))%nat.
Definition BuildActionRequest (worldID entityID : string) (i : nat) (call : ToolCall) : outcome error ActionRequest :=
  _ ← fail_if (worldID == "") (Opaque "world is empty" None);
  _ ← fail_if (entityID == "") (Opaque "entity is empty" None);
  arguments ← of_option (tc_Arguments call) (Opaque "tool arguments are missing" None);
  arguments ← match NewStruct lib arguments with
              | Ok v => Ok v
              | Err e => Err (Opaque ("convert tool arguments: " ++ Error_text e) (Some e))
              end;
  Ok {| aq_ActionId := newActionID lib i; aq_EntityId := entityID; aq_Capability := tc_Name call; aq_Arguments := arguments;
        aq_WorldId := worldID; aq_SourceEventId := bs_sourceEventID s; aq_SourceTurnId := bs_sourceTurnID s |}.
(** One call of a batch: planned, or refused with a code and a message. *)
Definition preflight_one (worldID entityID : string) (calls : list ToolCall) (i : nat) (call : ToolCall) :
    outcome (string * string) plannedToolCall :=
  _ ← fail_if (duplicateToolCallIDs calls (TrimSpace (tc_ID call))) ("duplicate_tool_call_id", "duplicate tool call id");
  entry ← of_option (bs_view s (tc_Name call)) ("tool_not_registered", "tool " ++ quote lib (tc_Name call) ++ " is not registered")%string;
  _ ← fail_if (ExclusivePerStep (en_Policy entry) && (1 <? length calls)%nat)
        ("exclusive_tool_must_be_only_tool_call",
         "tool with exclusive_per_step policy must be the only tool call in the model response");
  _ ← fail_if ((en_Execution entry == ExecutionAsync) && (1 <? length calls)%nat)
        ("async_batch_unsupported", "async tool must be the only tool call in the model response");
  _ ← fail_if (tc_ArgumentsError call != "")
        ("tool_arguments_invalid_json",
         "Tool arguments must be a valid JSON object. This call was not executed. Correct the arguments using the tool schema.");
  arguments ← of_option (tc_Arguments call) ("tool_arguments_missing", "tool arguments are missing");
  _ ← match ValidateArguments lib (en_InputSchema entry) arguments with
      | Some e => Err ("tool_arguments_invalid", Error_text e)
      | None => Ok tt
      end;
  request ← match en_Kind entry with
            | KindRuntime => Ok None
            | KindEnvironment =>
              match BuildActionRequest worldID entityID i call with
              | Ok q => Ok (Some q)
              | Err e => Err ("action_request_invalid", Error_text e)
              end
            | KindOther k => Err ("action_request_invalid", "unsupported tool kind " ++ quote lib k)
            end%string;
  _ ← fail_if ((en_Execution entry == ExecutionAsync) && bs_asyncActionLimitFull s)
        ("async_action_limit_exceeded", "async action limit exceeded for this turn");
  Ok (mkPlanned i call entry request).
Definition preflight_result (call : ToolCall) (o : outcome (string * string) plannedToolCall) : ToolResult :=
  match o with
  | Err (code, message) => invalidToolResult call code message
  | Ok _ => skippedToolResult call "batch_validation_failed" "batch validation failed"
  end.
(** The plan, or the results when a call is refused. *)
Definition preflight (worldID entityID : string) (calls : list ToolCall) : outcome (list ToolResult) (list plannedToolCall) :=
  let checked := imap (preflight_one worldID entityID calls) calls in
  if forallb is_ok checked then Ok (omap (fun o => match o with Ok p => Some p | Err _ => None end) checked)
  else Err (zip_with preflight_result calls checked).

(** *** One call *)
Definition captureHistory (r : toolExecutionResult) : toolExecutionResult :=
  let e := xr_execution r in
  let message := match xr_err r with None => "" | Some err => truncateMessage (Error_text err) 512 end in
  mkExecuted (xr_result r) (xr_actionResult r)
    (mkExecution (he_Call e) (he_ActionID e) (he_Started e) (xr_actionResult r)
       (if tr_Status (xr_result r) != "" then Some (xr_result r) else he_RuntimeResult e)
       (match xr_err r with
        | None => he_RuntimeError e
        | Some _ => if message == "" then "action execution failed" else message
        end))
    (xr_err r).

Definition terminalActionToolResult (call : ToolCall) (a : ActionResult) (status : string) : ToolResult :=
  let code := TrimSpace (ar_ErrorCode a) in
  mkResult (tc_ID call) (tc_Name call) status (if code == "" then "action_" ++ status else code)%string
    (truncateMessage (ar_ErrorMessage a) 120) (ar_Output a).
Definition toolResultFromActionResult (call : ToolCall) (a : ActionResult) : ToolResult * option error :=
  match ar_Status a with
  | ACTION_STATUS_SUCCEEDED =>
    (mkResult (tc_ID call) (tc_Name call) toolResultStatusSucceeded "action_succeeded" "" (ar_Output a), None)
  | ACTION_STATUS_REJECTED => (terminalActionToolResult call a toolResultStatusRejected, None)
  | ACTION_STATUS_FAILED => (terminalActionToolResult call a toolResultStatusFailed, None)
  | ACTION_STATUS_CANCELLED => (terminalActionToolResult call a toolResultStatusCancelled, None)
  | ACTION_STATUS_INTERRUPTED => (terminalActionToolResult call a toolResultStatusInterrupted, None)
  | ACTION_STATUS_OTHER name => (zeroResult, Some (Opaque ("non_terminal_action_status: " ++ name) None))
  end.
Definition with_code (code : string) (r : ToolResult) : ToolResult :=
  mkResult (tr_ToolCallID r) (tr_Name r) (tr_Status r) code (tr_Message r) (tr_Output r).
Definition toolResultFromActionResultWithDefaultRejectedCode (call : ToolCall) (a : ActionResult) (code : string) :
    ToolResult * option error :=
  match ar_Status a with
  | ACTION_STATUS_REJECTED =>
    if TrimSpace (ar_ErrorCode a) != "" then toolResultFromActionResult call a else
    match toolResultFromActionResult call a with
    | (r, Some e) => (zeroResult, Some e)
    | (r, None) => (with_code code r, None)
    end
  | _ => toolResultFromActionResult call a
  end.

(** What a call asks of the outside, in order. *)
Inductive call_event :=
| XRuntime (call : ToolCall)
| XSubmitting (actionID : string)
| XSubmit (request : option ActionRequest)
| XStart (request : option ActionRequest)
| XUpdate (actionID : string)
| XWait (actionID : string)
| XResult (a : ActionResult).

Definition prepareEnvironmentAction (item : plannedToolCall) : option error * list call_event :=
  match match beforeEnvironmentAction out with Some f => f item | None => None end with
  | Some e => (Some e, [])
  | None => (None, [XSubmitting (pc_ActionId item)])
  end.
Definition failed_call (e : HistoryExecution) (a : option ActionResult) (err : error) : toolExecutionResult :=
  captureHistory (mkExecuted zeroResult a e (Some err)).
Definition started (item : plannedToolCall) (id : string) : HistoryExecution := mkExecution (pc_call item) id true None None "".
Definition errEnvironmentNil : error := Opaque "environment is nil" None.
Definition errActionResultNil : error := Opaque "action result is nil" None.
(** The end of an action whose result arrived. *)
Definition concluded (item : plannedToolCall) (a : ActionResult) (answer : ToolResult * option error) : toolExecutionResult :=
  captureHistory (mkExecuted answer.1 (Some a) (started item (pc_ActionId item)) answer.2).

Definition runOne (item : plannedToolCall) : toolExecutionResult * list call_event :=
  let call := pc_call item in
  if bool_decide (en_Kind (pc_entry item) = KindRuntime) then
    let '(r, err) := ExecuteRuntime out item in
    (captureHistory (mkExecuted (mkResult (tc_ID call) (tc_Name call) (tr_Status r) (tr_Code r) (tr_Message r) (tr_Output r))
                       None (started item "") err), [XRuntime call])
  else if ! bx_env out then (failed_call (new_execution call) None errEnvironmentNil, []) else
  match prepareEnvironmentAction item with
  | (Some e, tr) => (failed_call (new_execution call) None e, tr)
  | (None, tr) =>
    match SubmitAction out item with
    | (a, Some e) => (failed_call (started item (pc_ActionId item)) a e, tr ++ [XSubmit (pc_request item)])
    | (None, None) => (failed_call (started item (pc_ActionId item)) None errActionResultNil, tr ++ [XSubmit (pc_request item)])
    | (Some a, None) => (concluded item a (toolResultFromActionResult call a), tr ++ [XSubmit (pc_request item); XResult a])
    end
  end.
Definition runAsyncOne (item : plannedToolCall) : toolExecutionResult * list call_event :=
  let call := pc_call item in
  if ! bx_env out then (failed_call (new_execution call) None errEnvironmentNil, []) else
  match prepareEnvironmentAction item with
  | (Some e, tr) => (failed_call (new_execution call) None e, tr)
  | (None, tr) =>
    let begun := started item (pc_ActionId item) in
    let tr := tr ++ [XStart (pc_request item)] in
    match StartAction out item with
    | ((_, a), Some e) => (failed_call begun a e, tr)
    | ((_, Some a), None) =>
      (concluded item a (toolResultFromActionResultWithDefaultRejectedCode call a "action_start_rejected"), tr ++ [XResult a])
    | ((false, None), None) =>
      (failed_call begun None (Opaque "action start is missing status update or terminal result" None), tr)
    | ((true, None), None) =>
      let tr := tr ++ [XUpdate (pc_ActionId item); XWait (pc_ActionId item)] in
      match WaitActionResult out item with
      | (a, Some e) => (failed_call begun a e, tr)
      | (None, None) => (failed_call begun None errActionResultNil, tr)
      | (Some a, None) => (concluded item a (toolResultFromActionResult call a), tr ++ [XResult a])
      end
    end
  end.

(** *** A parallel group *)
Definition preferTechnicalError (current : option error) (candidate : error) : option error :=
  match current with
  | None => Some candidate
  | Some c => if Is_canceled c && ! Is_canceled candidate then Some candidate else Some c
  end.
Inductive run_event := RLaunch (item : plannedToolCall) | RDone (item : plannedToolCall) (did : list call_event).
Definition succeeded (r : ToolResult) : bool := tr_Status r == toolResultStatusSucceeded.
Definition completed_action (item : plannedToolCall) (x : toolExecutionResult) : completedToolAction :=
  {| ca_ToolCall := pc_call item; ca_ActionResult := xr_actionResult x; ca_Policy := en_Policy (pc_entry item) |}.

Record group_state := mkGroup {
  gs_active : list plannedToolCall; gs_rest : list plannedToolCall; gs_stopped : bool; gs_firstErr : option error;
  gs_failure : bool; gs_actions : gmap nat completedToolAction; gs_results : list ToolResult; gs_executions : list HistoryExecution;
  gs_trace : list run_event
}.
Definition parallel_limit : nat := Z.to_nat (if bs_maxParallelToolCalls s <=? 0 then 1 else bs_maxParallelToolCalls s)%Z.
(** [for active < limit && next < len(group) { launch }] *)
Definition launch (g : group_state) : group_state :=
  if gs_stopped g then g else
  let n := (parallel_limit - length (gs_active g))%nat in
  mkGroup (gs_active g ++ take n (gs_rest g)) (drop n (gs_rest g)) (gs_stopped g) (gs_firstErr g) (gs_failure g) (gs_actions g)
    (gs_results g) (gs_executions g) (gs_trace g ++ (RLaunch <$> take n (gs_rest g))).
(** A call of the group has finished; [active] are the others. *)
Definition collect_result (active : list plannedToolCall) (item : plannedToolCall) (g : group_state) : group_state :=
  let '(x, did) := runOne item in
  let executions := <[pc_index item := xr_execution x]> (gs_executions g) in
  let tr := gs_trace g ++ [RDone item did] in
  match xr_err x with
  | Some e => mkGroup active (gs_rest g) true (preferTechnicalError (gs_firstErr g) e) (gs_failure g) (gs_actions g)
                (gs_results g) executions tr
  | None =>
    let results := <[pc_index item := xr_result x]> (gs_results g) in
    if ! succeeded (xr_result x) then
      mkGroup active (gs_rest g) (gs_stopped g) (gs_firstErr g) true (gs_actions g) results executions tr
    else
      mkGroup active (gs_rest g) (gs_stopped g) (gs_firstErr g) (gs_failure g)
        (if bool_decide (en_Kind (pc_entry item) = KindEnvironment)
         then <[pc_index item := completed_action item x]> (gs_actions g) else gs_actions g)
        results executions tr
  end.
(** [for active > 0]; every round ends a call, so the length of the group is enough fuel. *)
Fixpoint group_loop (fuel : nat) (g : group_state) : group_state :=
  match fuel with
  | O => g
  | S fuel =>
    match gs_active g with
    | [] => g
    | _ =>
      let j := (pick (gs_active g) (gs_rest g) mod length (gs_active g))%nat in
      match gs_active g !! j with
      | None => g
      | Some item => group_loop fuel (launch (collect_result (delete j (gs_active g)) item g))
      end
    end
  end.
Definition runParallelGroup (group : list plannedToolCall) (results : list ToolResult) (executions : list HistoryExecution) : group_state :=
  group_loop (length group) (launch (mkGroup [] group false None false ∅ results executions [])).
Definition successfulActionsFromParallelGroup (group : list plannedToolCall) (actions : gmap nat completedToolAction) :
    list completedToolAction := omap (fun item => actions !! pc_index item) group.

(** *** The batch *)
Definition fillPriorGroupSkipped (plan : list plannedToolCall) (results : list ToolResult) : list ToolResult :=
  foldl (fun results item => <[pc_index item := skippedToolResult (pc_call item) "prior_group_failed" "prior group failed"]> results)
    results plan.
Definition parallel_safe (item : plannedToolCall) : bool := en_Concurrency (pc_entry item) == ConcurrencyParallelSafe.
(** [end]: the parallel-safe calls from here on, and the rest. *)
Fixpoint split_group (plan : list plannedToolCall) : list plannedToolCall * list plannedToolCall :=
  match plan with
  | item :: plan' => if parallel_safe item then let '(group, rest) := split_group plan' in (item :: group, rest) else ([], plan)
  | [] => ([], [])
  end.
Definition settles_group (group : list plannedToolCall) (results : list ToolResult) : bool :=
  existsb (fun item => match results !! pc_index item with
                       | Some r => succeeded r && SettleAfterSuccess (en_Policy (pc_entry item))
                       | None => false
                       end) group.
Definition with_failure (results : list ToolResult) (o : toolBatchOutcome) : toolBatchOutcome :=
  mkOutcome results (bo_SuccessfulActions o) (bo_Executions o) true (bo_SettleAfterSuccess o) (bo_AsyncActionStarted o).
Definition after_group (group : list plannedToolCall) (g : group_state) (o : toolBatchOutcome) : toolBatchOutcome :=
  mkOutcome (gs_results g) (bo_SuccessfulActions o ++ successfulActionsFromParallelGroup group (gs_actions g)) (gs_executions g)
    (bo_HasModelVisibleFailure o) (bo_SettleAfterSuccess o || settles_group group (gs_results g)) (bo_AsyncActionStarted o).
Definition after_one (item : plannedToolCall) (x : toolExecutionResult) (o : toolBatchOutcome) : toolBatchOutcome :=
  mkOutcome (<[pc_index item := xr_result x]> (bo_Results o))
    (if bool_decide (en_Kind (pc_entry item) = KindEnvironment) then bo_SuccessfulActions o ++ [completed_action item x]
     else bo_SuccessfulActions o)
    (bo_Executions o) (bo_HasModelVisibleFailure o)
    (bo_SettleAfterSuccess o || SettleAfterSuccess (en_Policy (pc_entry item))) (bo_AsyncActionStarted o).
Definition with_execution (item : plannedToolCall) (e : HistoryExecution) (o : toolBatchOutcome) : toolBatchOutcome :=
  mkOutcome (bo_Results o) (bo_SuccessfulActions o) (<[pc_index item := e]> (bo_Executions o)) (bo_HasModelVisibleFailure o)
    (bo_SettleAfterSuccess o) (bo_AsyncActionStarted o).

(** The loop over the plan, a group or a call at a time; the length of the plan is
    enough fuel. *)
Fixpoint run_plan (fuel : nat) (plan : list plannedToolCall) (o : toolBatchOutcome) :
    toolBatchOutcome * option error * list run_event :=
  match fuel, plan with
  | S fuel, item :: rest =>
    if parallel_safe item then
      let '(group, rest) := split_group plan in
      let g := runParallelGroup group (bo_Results o) (bo_Executions o) in
      let o := after_group group g o in
      match gs_firstErr g with
      | Some e => (o, Some e, gs_trace g)
      | None =>
        if gs_failure g then (with_failure (fillPriorGroupSkipped rest (bo_Results o)) o, None, gs_trace g) else
        let '(r, tr) := run_plan fuel rest o in (r, gs_trace g ++ tr)
      end
    else
      let '(x, did) := runOne item in
      let tr := [RLaunch item; RDone item did] in
      let o := with_execution item (xr_execution x) o in
      match xr_err x with
      | Some e => (o, Some e, tr)
      | None =>
        if ! succeeded (xr_result x) then
          (with_failure (fillPriorGroupSkipped rest (<[pc_index item := xr_result x]> (bo_Results o))) o, None, tr)
        else let '(r, tr') := run_plan fuel rest (after_one item x o) in (r, tr ++ tr')
      end
  | _, _ => (o, None, [])
  end.

(** The deferred function: every execution gets a result, and what the task tools were
    asked stays out of the history. *)
Definition isTaskHistoryCall (name : string) : bool :=
  match bs_view s name with
  | Some entry => en_Executor entry == Some TaskTools
  | None => bs_taskHistoryOwner s && ((name == "create_task") || (name == "update_task"))
  end.
Definition with_RuntimeResult (r : option ToolResult) (e : HistoryExecution) : HistoryExecution :=
  mkExecution (he_Call e) (he_ActionID e) (he_Started e) (he_ActionResult e) r (he_RuntimeError e).
Definition settle_execution (results : list ToolResult) (runErr : option error) (i : nat) (e : HistoryExecution) : HistoryExecution :=
  match he_RuntimeResult e with
  | Some _ => e
  | None =>
    if he_RuntimeError e != "" then e else
    match results !! i with
    | Some r =>
      if tr_Status r != "" then with_RuntimeResult (Some r) e else
      match runErr with
      | Some _ => if he_Started e then e else
                  with_RuntimeResult (Some (skippedToolResult (he_Call e) "batch_aborted" "batch stopped after technical error")) e
      | None => e
      end
    | None =>
      match runErr with
      | Some _ => if he_Started e then e else
                  with_RuntimeResult (Some (skippedToolResult (he_Call e) "batch_aborted" "batch stopped after technical error")) e
      | None => e
      end
    end
  end.
Definition code_only (r : ToolResult) : ToolResult :=
  if tr_Status r == toolResultStatusInvalid
  then mkResult (tr_ToolCallID r) (tr_Name r) (tr_Status r) (tr_Code r) (tr_Code r) (tr_Output r) else r.
Definition redact_execution (e : HistoryExecution) : HistoryExecution :=
  if ! isTaskHistoryCall (tc_Name (he_Call e)) then e else
  mkExecution (mkCall (tc_ID (he_Call e)) (tc_Name (he_Call e)) None "" (tc_ArgumentsError (he_Call e)))
    (he_ActionID e) (he_Started e) (he_ActionResult e) (code_only <$> he_RuntimeResult e) (he_RuntimeError e).
Definition redact_result (executions : list HistoryExecution) (i : nat) (r : ToolResult) : ToolResult :=
  match executions !! i with
  | Some e => if isTaskHistoryCall (tc_Name (he_Call e)) then code_only r else r
  | None => r
  end.
Definition finalize (o : toolBatchOutcome) (runErr : option error) : toolBatchOutcome :=
  let executions := imap (settle_execution (bo_Results o) runErr) (bo_Executions o) in
  mkOutcome (imap (redact_result executions) (bo_Results o)) (bo_SuccessfulActions o) (redact_execution <$> executions)
    (bo_HasModelVisibleFailure o) (bo_SettleAfterSuccess o) (bo_AsyncActionStarted o).

Definition new_outcome (results : list ToolResult) (calls : list ToolCall) : toolBatchOutcome :=
  mkOutcome results [] (new_execution <$> calls) false false false.
Definition run_async (item : plannedToolCall) (calls : list ToolCall) : toolBatchOutcome * option error * list run_event :=
  let '(x, did) := runAsyncOne item in
  let o := new_outcome [] calls in
  let executions := <[0%nat := xr_execution x]> (bo_Executions o) in
  let tr := [RLaunch item; RDone item did] in
  match xr_err x with
  | Some e => (mkOutcome [] [] executions false false false, Some e, tr)
  | None =>
    if succeeded (xr_result x)
    then (mkOutcome [xr_result x] [completed_action item x] executions false (SettleAfterSuccess (en_Policy (pc_entry item))) true, None, tr)
    else (mkOutcome [xr_result x] [] executions true false true, None, tr)
  end.
(** [Run] *)
Definition run_batch (worldID entityID : string) (calls : list ToolCall) : toolBatchOutcome * option error * list run_event :=
  match preflight worldID entityID calls with
  | Err results =>
    let o := new_outcome results calls in
    (mkOutcome (bo_Results o) [] (bo_Executions o) true false false, None, [])
  | Ok plan =>
    match plan with
    | [item] =>
      if bool_decide (en_Execution (pc_entry item) = ExecutionAsync) then run_async item calls
      else run_plan (length plan) plan (new_outcome (replicate (length calls) zeroResult) calls)
    | _ => run_plan (length plan) plan (new_outcome (replicate (length calls) zeroResult) calls)
    end
  end.
Definition Run (worldID entityID : string) (calls : list ToolCall) : toolBatchOutcome * option error * list run_event :=
  let '(o, err, tr) := run_batch worldID entityID calls in (finalize o err, err, tr).

(** What the loop asks of the results. *)
Definition hasToolArgumentFailure (results : list ToolResult) : bool :=
  existsb (fun r => (tr_Status r == toolResultStatusInvalid)
                    && ((tr_Code r == "tool_arguments_invalid_json") || (tr_Code r == "tool_arguments_missing")
                        || (tr_Code r == "tool_arguments_invalid"))) results.
Definition hasInvalidToolResult (results : list ToolResult) : bool :=
  existsb (fun r => tr_Status r == toolResultStatusInvalid) results.
End Batch.
