(* ===== verification/Batching.v ===== *)
(** * What a batch of tool calls guarantees

    Whatever the calls answer and in whatever order the calls of a group finish. *)

From S2P Require Export Batch.

Local Open Scope go_scope.

(** ** Lists updated by index *)
Section Inserts.
Context {A B : Type} (index : A -> nat) (f : A -> B).
Definition insert_all (l : list A) (r : list B) : list B := foldl (fun r a => <[index a := f a]> r) r l.
Lemma insert_all_cons a l r : insert_all (a :: l) r = insert_all l (<[index a := f a]> r).
Proof. done. Qed.
Lemma insert_all_length l r : length (insert_all l r) = length r.
Proof. revert r. induction l as [|a l IH]; intros r; [done|]. rewrite insert_all_cons, IH. apply length_insert. Qed.
Lemma insert_all_other l r i : i ∉ index <$> l -> insert_all l r !! i = r !! i.
Proof.
  revert r. induction l as [|a l IH]; intros r Hi; [done|]. rewrite fmap_cons in Hi. apply not_elem_of_cons in Hi as [Ha Hi].
  rewrite insert_all_cons, IH by done. by apply list_lookup_insert_ne.
Qed.
Lemma insert_all_at l r a : NoDup (index <$> l) -> a ∈ l -> index a < length r -> insert_all l r !! index a = Some (f a).
Proof.
  revert r. induction l as [|b l IH]; intros r Hnd Ha Hlt; [by apply elem_of_nil in Ha|]. rewrite fmap_cons in Hnd. apply NoDup_cons in Hnd as [Hb Hnd].
  rewrite insert_all_cons. apply elem_of_cons in Ha as [->|Ha].
  - rewrite insert_all_other by done. by apply list_lookup_insert_eq.
  - apply IH; [done|done|by rewrite length_insert].
Qed.
Lemma insert_all_cases l r i : insert_all l r !! i = r !! i \/ exists a, a ∈ l /\ index a = i /\ insert_all l r !! i = Some (f a).
Proof.
  revert r. induction l as [|b l IH]; intros r; [by left|]. rewrite insert_all_cons.
  destruct (IH (<[index b := f b]> r)) as [H|(a & Ha & Hi & H)]; [|right; exists a; split_and!; [by apply elem_of_cons; right|done|done]].
  rewrite H. destruct (decide (index b = i)) as [<-|Hne]; [|left; by apply list_lookup_insert_ne].
  destruct (decide (index b < length r)) as [Hlt|Hge].
  - right. exists b. split_and!; [apply elem_of_cons; by left|done|by apply list_lookup_insert_eq].
  - left. by rewrite list_insert_ge by lia.
Qed.
End Inserts.

(** Folds of operations that commute do not see the order. *)
Lemma foldl_perm {A B} (op : B -> A -> B) (key : A -> nat) l l' b :
  (forall b x y, key x <> key y -> op (op b x) y = op (op b y) x) -> NoDup (key <$> l) -> l ≡ₚ l' -> foldl op b l = foldl op b l'.
Proof.
  intros Hop Hnd Hp. revert b Hnd. induction Hp as [|x l l' Hp IH|x y l|l l' l'' Hp1 IH1 Hp2 IH2]; intros b Hnd; cbn in *.
  - done.
  - apply NoDup_cons in Hnd as [_ Hnd]. by apply IH.
  - rewrite Hop; [done|]. apply NoDup_cons in Hnd as [Hn _]. intros E. apply Hn. rewrite E. apply elem_of_cons. by left.
  - rewrite IH1 by done. apply IH2. by rewrite <- Hp1.
Qed.

(** ** Traces *)
Section Facts.
Context {Value : Type}.
Notation Call := (ToolCall (Value := Value)).
Notation Result := (ToolResult (Value := Value)).
Notation Item := (plannedToolCall (Value := Value)).
Notation Trace := (list (run_event (Value := Value))).
Notation Execution := (HistoryExecution (Value := Value)).
Variable s : toolBatchScheduler.
Variable lib : batchLibrary (Value := Value).
Variable out : batchOutside (Value := Value).

Definition launches (tr : Trace) : list Item :=
  omap (fun ev => match ev with RLaunch item => Some item | RDone _ _ => None end) tr.
Definition dones (tr : Trace) : list Item :=
  omap (fun ev => match ev with RDone item _ => Some item | RLaunch _ => None end) tr.
Lemma launches_app tr tr' : launches (tr ++ tr') = launches tr ++ launches tr'.
Proof. apply omap_app. Qed.
Lemma dones_app tr tr' : dones (tr ++ tr') = dones tr ++ dones tr'.
Proof. apply omap_app. Qed.
Lemma launches_launch l : launches (RLaunch <$> l) = l.
Proof. induction l as [|a l IH]; [done|]. unfold launches in *. cbn. by rewrite IH. Qed.
Lemma dones_launch l : dones (RLaunch <$> l) = [].
Proof. induction l as [|a l IH]; [done|]. unfold dones in *. cbn. by rewrite IH. Qed.

(** At no point of the trace more than [limit] calls run, [k] of them from before. *)
Fixpoint within (limit k : nat) (tr : Trace) : Prop :=
  match tr with
  | [] => True
  | RLaunch _ :: tr => S k <= limit /\ within limit (S k) tr
  | RDone _ _ :: tr => within limit (k - 1) tr
  end.
Fixpoint running (k : nat) (tr : Trace) : nat :=
  match tr with [] => k | RLaunch _ :: tr => running (S k) tr | RDone _ _ :: tr => running (k - 1) tr end.
Lemma within_app limit k tr tr' : within limit k (tr ++ tr') <-> within limit k tr /\ within limit (running k tr) tr'.
Proof. revert k. induction tr as [|[] tr IH]; intros k; cbn; rewrite ?IH; tauto. Qed.
Lemma running_app k tr tr' : running k (tr ++ tr') = running (running k tr) tr'.
Proof. revert k. by induction tr as [|[] tr IH]; intros k; cbn. Qed.
Lemma within_launch limit k l : k + length l <= limit -> within limit k (RLaunch <$> l) /\ running k (RLaunch <$> l) = k + length l.
Proof.
  revert k. induction l as [|a l IH]; intros k Hk; cbn in *; [split; [done|lia]|]. destruct (IH (S k)) as [H1 H2]; [lia|].
  split; [split; [lia|done]|lia].
Qed.

(** ** One call *)
Notation one item := (runOne out item).1.
Definition no_error (item : Item) : bool := match xr_err (one item) with None => true | Some _ => false end.
(** The result names the call it answers. *)
Definition answers (r : Result) (call : Call) : Prop := tr_ToolCallID r = tc_ID call /\ tr_Name r = tc_Name call.
Lemma action_answers (call : Call) a r : toolResultFromActionResult call a = (r, None) ->
  answers r call /\ tr_Status r <> "".
Proof. unfold toolResultFromActionResult. destruct (ar_Status a); intros [= <-]; done. Qed.
(** The runtime tools say how a call that did not fail ended. *)
Definition executors_answer : Prop := forall item r, ExecuteRuntime out item = (r, None) -> tr_Status r <> "".
(** A call's end, captured for the history. *)
Definition captured (item : Item) (x : toolExecutionResult) : Prop := exists y, x = captureHistory y
  /\ he_Call (xr_execution y) = pc_call item
  /\ (xr_err y = None -> answers (xr_result y) (pc_call item) /\ (executors_answer -> tr_Status (xr_result y) <> "")).
Lemma concluded_captured (item : Item) a answer : (forall r, answer = (r, None) -> answers r (pc_call item) /\ tr_Status r <> "") ->
  captured item (concluded item a answer).
Proof. intros H. eexists. split; [reflexivity|]. split; [done|]. cbn. intros He. destruct answer as [r []]; [done|]. split; [by apply H|intros _; by apply H]. Qed.
Lemma failed_captured (item : Item) e a err : he_Call e = pc_call item -> captured item (failed_call e a err).
Proof. intros He. by eexists. Qed.
Lemma runOne_captured (item : Item) : captured item (one item).
Proof.
  unfold runOne. destruct (bool_decide _).
  { destruct (ExecuteRuntime out item) as [r e] eqn:Hx. eexists. split; [reflexivity|]. split; [done|]. cbn. intros ->.
    split; [done|]. intros Hex. by apply Hex in Hx. }
  destruct (bx_env out); cbn [negb]; [|by apply failed_captured].
  destruct (prepareEnvironmentAction out item) as [[e|] tr]; [by apply failed_captured|].
  destruct (SubmitAction out item) as [[a|] [e|]]; try by apply failed_captured.
  apply concluded_captured. intros r. apply action_answers.
Qed.
Lemma runAsyncOne_captured (item : Item) : captured item (runAsyncOne out item).1.
Proof.
  unfold runAsyncOne. destruct (bx_env out); cbn [negb]; [|by apply failed_captured].
  destruct (prepareEnvironmentAction out item) as [[e|] tr]; [by apply failed_captured|].
  assert (Hst : forall a, captured item (concluded item a
    (toolResultFromActionResultWithDefaultRejectedCode (pc_call item) a "action_start_rejected"))).
  { intros a. apply concluded_captured. intros r. unfold toolResultFromActionResultWithDefaultRejectedCode.
    destruct (ar_Status a) eqn:Hs; try apply action_answers. destruct (TrimSpace _ != ""); [apply action_answers|].
    destruct (toolResultFromActionResult _ a) as [r' [e|]] eqn:Hr; [done|]. intros [= <-]. by apply action_answers in Hr. }
  destruct (StartAction out item) as [[[] [a|]] [e|]]; try (by apply failed_captured); try apply Hst.
  destruct (WaitActionResult out item) as [[a|] [e|]]; try by apply failed_captured.
  apply concluded_captured. intros r. apply action_answers.
Qed.
Lemma captured_answers item x : captured item x -> xr_err x = None -> answers (xr_result x) (pc_call item).
Proof. intros (y & -> & _ & H) He. by apply H. Qed.

(** The history knows how the call ended. *)
Definition recorded (e : Execution) : Prop := is_Some (he_RuntimeResult e) \/ he_RuntimeError e <> "".
Lemma captured_recorded item x : executors_answer -> captured item x -> recorded (xr_execution x) /\ he_Call (xr_execution x) = pc_call item.
Proof.
  intros Hex (y & -> & Hc & H). split; [|done]. unfold recorded, captureHistory. cbn. destruct (xr_err y) as [err|].
  - right. case_bool_decide; done.
  - left. destruct (H eq_refl) as [_ Hs]. rewrite bool_decide_eq_false_2 by auto. by eexists.
Qed.

(** ** A parallel group *)
Definition put (r : list Result) (item : Item) : list Result :=
  match xr_err (one item) with None => <[pc_index item := xr_result (one item)]> r | Some _ => r end.
Definition put_execution (e : list Execution) (item : Item) : list Execution := <[pc_index item := xr_execution (one item)]> e.
Definition put_action (m : gmap nat completedToolAction) (item : Item) : gmap nat completedToolAction :=
  match xr_err (one item) with
  | None => if succeeded (xr_result (one item)) && bool_decide (en_Kind (pc_entry item) = KindEnvironment)
            then <[pc_index item := completed_action item (one item)]> m else m
  | Some _ => m
  end.
Definition visibly_failed (item : Item) : bool := no_error item && ! succeeded (xr_result (one item)).

(** The loop with [done] of the group's calls finished. *)
Record group_ok (group : list Item) (r0 : list Result) (e0 : list Execution) (done : list Item) (g : group_state) : Prop := {
  gk_rest : exists l, group = l ++ gs_rest g /\ gs_active g ++ done ≡ₚ l /\ launches (gs_trace g) = l;
  gk_dones : dones (gs_trace g) = done;
  gk_limit : length (gs_active g) <= parallel_limit s /\ within (parallel_limit s) 0 (gs_trace g)
    /\ running 0 (gs_trace g) = length (gs_active g);
  gk_results : gs_results g = foldl put r0 done;
  gk_executions : gs_executions g = foldl put_execution e0 done;
  gk_actions : gs_actions g = foldl put_action ∅ done;
  gk_failure : gs_failure g = existsb visibly_failed done;
  gk_stopped : gs_stopped g = negb (forallb no_error done);
  gk_err : gs_firstErr g = None <-> gs_stopped g = false
}.
Lemma parallel_limit_pos : 0 < parallel_limit s.
Proof. unfold parallel_limit. destruct (Z.leb_spec (bs_maxParallelToolCalls s) 0); lia. Qed.

Lemma launch_ok group r0 e0 done g : group_ok group r0 e0 done g -> group_ok group r0 e0 done (launch s g)
  /\ (gs_stopped (launch s g) = false -> gs_active (launch s g) = [] -> gs_rest (launch s g) = [])
  /\ length (gs_active (launch s g)) + length (gs_rest (launch s g)) = length (gs_active g) + length (gs_rest g).
Proof.
  intros [(l & Hg & Hp & Hl) Hd (Hlim & Hw & Hrun) Hr He Ha Hf Hs Herr]. unfold launch. destruct (gs_stopped g) eqn:Hst.
  { split; [|split; [congruence|done]]. split; rewrite ?Hst; try done. by exists l. }
  cbn. pose proof parallel_limit_pos. remember (parallel_limit s - length (gs_active g)) as n eqn:Hndef.
  pose proof (length_take (gs_rest g) n). pose proof (length_drop (gs_rest g) n).
  assert (Hn : length (take n (gs_rest g)) <= n) by lia. split; [split; cbn; rewrite ?Hst; try done|split].
  - exists (l ++ take n (gs_rest g)). split_and!.
    + by rewrite <- app_assoc, take_drop.
    + rewrite <- app_assoc, (Permutation_app_comm (take n _)), app_assoc. by rewrite Hp.
    + by rewrite launches_app, launches_launch, Hl.
  - by rewrite dones_app, dones_launch, app_nil_r.
  - destruct (within_launch (parallel_limit s) (length (gs_active g)) (take n (gs_rest g))) as [Hi1 Hi2]; [lia|].
    rewrite within_app, running_app, Hrun, Hi2, length_app. split_and!; try done. lia.
  - intros _ Hnil. apply app_eq_nil in Hnil as [Hnil Ht]. apply length_zero_iff_nil.
    apply (f_equal length) in Ht, Hnil. cbn in Ht, Hnil. lia.
  - rewrite length_app. lia.
Qed.
Lemma collect_result_ok group r0 e0 done g active item : group_ok group r0 e0 done g -> gs_active g ≡ₚ item :: active ->
  group_ok group r0 e0 (done ++ [item]) (collect_result out active item g).
Proof.
  intros [(l & Hg & Hp & Hl) Hd (Hlim & Hw & Hrun) Hr He Ha Hf Hs Herr] Hact.
  assert (Hlen : length (gs_active g) = S (length active)) by by rewrite Hact.
  assert (Hx : exists did, runOne out item = (one item, did)) by (destruct (runOne out item); by eexists). destruct Hx as [did Hx].
  assert (Hperm : active ++ done ++ [item] ≡ₚ l).
  { rewrite <- Hp, Hact, app_assoc. symmetry. apply Permutation_cons_append. }
  assert (Htr : forall ds, dones (gs_trace g ++ [RDone item ds]) = done ++ [item] /\ launches (gs_trace g ++ [RDone item ds]) = l
    /\ within (parallel_limit s) 0 (gs_trace g ++ [RDone item ds]) /\ running 0 (gs_trace g ++ [RDone item ds]) = length active).
  { intros ds. rewrite dones_app, launches_app, within_app, running_app, Hd, Hl, Hrun. cbn. split_and!; try done; [apply app_nil_r|lia]. }
  destruct (Htr did) as (Hd' & Hl' & Hw' & Hr').
  assert (Hvis : forall b, visibly_failed item = b -> existsb visibly_failed (done ++ [item]) = existsb visibly_failed done || b).
  { intros b <-. rewrite existsb_app. cbn. by rewrite orb_false_r. }
  assert (Herrs : forallb no_error (done ++ [item]) = forallb no_error done && no_error item).
  { rewrite forallb_app. cbn. by rewrite andb_true_r. }
  unfold collect_result. rewrite Hx. destruct (xr_err (one item)) as [e|] eqn:Hxe.
  - assert (Hne : no_error item = false) by (unfold no_error; by rewrite Hxe).
    split; cbn; rewrite ?foldl_app; cbn; try done.
    + by exists l.
    + split_and!; try done. lia.
    + unfold put. rewrite Hxe. done.
    + by rewrite He.
    + unfold put_action. by rewrite Hxe.
    + rewrite (Hvis false), orb_false_r; [done|]. unfold visibly_failed. by rewrite Hne.
    + by rewrite Herrs, Hne, andb_false_r.
    + split; [|done]. unfold preferTechnicalError. destruct (gs_firstErr g); [case_match|]; done.
  - assert (Hne : no_error item = true) by (unfold no_error; by rewrite Hxe).
    assert (Hvf : visibly_failed item = negb (succeeded (xr_result (one item)))) by (unfold visibly_failed; by rewrite Hne).
    destruct (succeeded (xr_result (one item))) eqn:Hsu; cbn [negb].
    all: split; cbn; rewrite ?foldl_app, ?Herrs, ?Hne, ?andb_true_r; cbn; try done.
    all: try by exists l.
    all: try (split_and!; [lia|done|done]).
    all: try (unfold put; rewrite Hxe; by rewrite Hr).
    all: try by rewrite He.
    all: try (unfold put_action; rewrite Hxe, Hsu; cbn; by rewrite Ha).
    + by rewrite (Hvis _ eq_refl), Hvf, orb_false_r.
    + by rewrite (Hvis _ eq_refl), Hvf, orb_true_r.
Qed.
Notation schedule := (list Item -> list Item -> nat).
Lemma group_loop_ok (pick : schedule) group r0 e0 fuel g done : group_ok group r0 e0 done g ->
  (gs_stopped g = false -> gs_active g = [] -> gs_rest g = []) -> length (gs_active g) + length (gs_rest g) <= fuel ->
  exists done', group_ok group r0 e0 done' (group_loop s out pick fuel g) /\ gs_active (group_loop s out pick fuel g) = []
  /\ (gs_stopped (group_loop s out pick fuel g) = false -> gs_rest (group_loop s out pick fuel g) = []).
Proof.
  revert g done. induction fuel as [|fuel IH]; intros g done Hok Hend Hlen.
  { exists done. cbn. assert (Ha : gs_active g = []) by (apply length_zero_iff_nil; lia). split_and!; auto. }
  cbn [group_loop]. destruct (gs_active g) as [|a0 l0] eqn:Ha; [exists done; split_and!; auto|]. rewrite <- Ha in *.
  assert (Hne : length (gs_active g) <> 0) by (rewrite Ha; done).
  pose proof (Nat.mod_upper_bound (pick (gs_active g) (gs_rest g)) (length (gs_active g)) Hne) as Hj.
  apply lookup_lt_is_Some in Hj as [item Hj]. rewrite Hj.
  pose proof (delete_Permutation _ _ _ Hj) as Hp. pose proof (collect_result_ok _ _ _ _ _ _ _ Hok Hp) as Hok'.
  set (g1 := collect_result out _ item g) in *. destruct (launch_ok _ _ _ _ _ Hok') as (Hok'' & Hend' & Hlen').
  assert (Hg1 : gs_active g1 = delete (pick (gs_active g) (gs_rest g) mod length (gs_active g)) (gs_active g) /\ gs_rest g1 = gs_rest g).
  { unfold g1, collect_result. destruct (runOne out item) as [x did]. destruct (xr_err x); [done|]. by destruct (succeeded _). }
  destruct Hg1 as [Hg1 Hg2]. apply IH with (done := done ++ [item]); [done|done|]. rewrite Hlen', Hg1, Hg2.
  apply Permutation_length in Hp. cbn in Hp. lia.
Qed.

Lemma put_commutes r x y : pc_index x <> pc_index y -> put (put r x) y = put (put r y) x.
Proof. intros H. unfold put. destruct (xr_err (one x)), (xr_err (one y)); try done. by apply list_insert_insert_ne. Qed.
Lemma put_execution_commutes e x y : pc_index x <> pc_index y ->
  put_execution (put_execution e x) y = put_execution (put_execution e y) x.
Proof. intros H. unfold put_execution. by apply list_insert_insert_ne. Qed.
Lemma put_action_commutes m x y : pc_index x <> pc_index y -> put_action (put_action m x) y = put_action (put_action m y) x.
Proof.
  intros H. unfold put_action. destruct (xr_err (one x)), (xr_err (one y)); try done.
  repeat case_match; try done. by apply insert_insert_ne.
Qed.
Lemma existsb_perm {A} (p : A -> bool) l l' : l ≡ₚ l' -> existsb p l = existsb p l'.
Proof. induction 1; cbn; try congruence. by rewrite !orb_assoc, (orb_comm (p y)). Qed.
Lemma forallb_perm {A} (p : A -> bool) l l' : l ≡ₚ l' -> forallb p l = forallb p l'.
Proof. induction 1; cbn; try congruence. by rewrite !andb_assoc, (andb_comm (p y)). Qed.

(** What a group leaves: whatever the schedule, the calls that finished are the ones that
    were launched; without an error these are all, and the group is as if they had run
    one after the other. *)
Record group_done (group : list Item) (r0 : list Result) (e0 : list Execution) (g : group_state) : Prop := {
  gd_launches : launches (gs_trace g) `prefix_of` group /\ dones (gs_trace g) ≡ₚ launches (gs_trace g);
  gd_within : within (parallel_limit s) 0 (gs_trace g) /\ running 0 (gs_trace g) = 0;
  gd_executions : gs_executions g = foldl put_execution e0 (dones (gs_trace g));
  gd_results : gs_results g = foldl put r0 (dones (gs_trace g));
  gd_err : gs_firstErr g = None <-> forallb no_error group = true;
  gd_all : gs_firstErr g = None -> dones (gs_trace g) ≡ₚ group /\ gs_results g = insert_all pc_index (fun item => xr_result (one item)) group r0
    /\ gs_executions g = foldl put_execution e0 group /\ gs_actions g = foldl put_action ∅ group
    /\ gs_failure g = existsb visibly_failed group
}.
Lemma runParallelGroup_ok (pick : schedule) group r0 e0 : NoDup (pc_index <$> group) ->
  group_done group r0 e0 (runParallelGroup s out pick group r0 e0).
Proof.
  intros Hnd. unfold runParallelGroup. set (g0 := mkGroup [] group false None false ∅ r0 e0 []).
  assert (H0 : group_ok group r0 e0 [] g0). { split; try done. { by exists []. } cbn. split_and!; try done. lia. }
  destruct (launch_ok _ _ _ _ _ H0) as (H1 & Hend & Hlen).
  destruct (group_loop_ok pick group r0 e0 (length group) _ _ H1 Hend) as (done' & [(l & Hg & Hp & Hl) Hd (_ & Hw & Hrun) Hr He Ha Hf Hs Herr] & Hact & Hrest).
  { rewrite Hlen. cbn. lia. }
  set (g := group_loop s out pick (length group) _) in *. rewrite Hact in Hp, Hrun. cbn in Hp, Hrun. subst done'.
  assert (Hall : gs_firstErr g = None -> dones (gs_trace g) ≡ₚ group).
  { intros Hne. apply Herr in Hne. rewrite (Hrest Hne), app_nil_r in Hg. by rewrite Hg. }
  split; try done.
  - split; [exists (gs_rest g); by rewrite Hl|by rewrite Hl].
  - split; intros Hne.
    + rewrite <- (forallb_perm _ _ _ (Hall Hne)). apply Herr in Hne. rewrite Hs in Hne. by destruct (forallb _ _).
    + apply Herr. rewrite Hs. assert (Hsub : forallb no_error (dones (gs_trace g)) = true); [|by rewrite Hsub].
      rewrite (forallb_perm _ _ _ Hp). rewrite Hg, forallb_app in Hne. by apply andb_true_iff in Hne as [? _].
  - intros Hne. specialize (Hall Hne). assert (Hnd' : NoDup (pc_index <$> dones (gs_trace g))) by by rewrite Hall.
    split_and!; [done| | | |].
    + rewrite Hr, (foldl_perm put pc_index _ group) by (try done; apply put_commutes).
      assert (Hno : forallb no_error group = true).
      { rewrite <- (forallb_perm _ _ _ Hall). apply Herr in Hne. rewrite Hs in Hne. by destruct (forallb _ _). }
      clear -Hno. revert r0. induction group as [|item group IH]; intros r0; [done|]. cbn in Hno. apply andb_true_iff in Hno as [Hi Hno].
      rewrite insert_all_cons. cbn. rewrite <- (IH Hno). unfold no_error in Hi. f_equal. unfold put. by destruct (xr_err (one item)).
    + rewrite He. apply (foldl_perm put_execution pc_index); [apply put_execution_commutes|done|done].
    + rewrite Ha. apply (foldl_perm put_action pc_index); [apply put_action_commutes|done|done].
    + rewrite Hf. by apply existsb_perm.
Qed.

(** ** The plan, a segment at a time *)
Definition placed (n : nat) (plan : list Item) : Prop := forall i item, plan !! i = Some item -> pc_index item = n + i.
Lemma placed_app n l l' : placed n (l ++ l') -> placed n l /\ placed (n + length l) l'.
Proof.
  intros H. split; intros i item Hi.
  - apply H. by apply lookup_app_l_Some.
  - rewrite (H (length l + i) item); [lia|]. rewrite lookup_app_r by lia. by replace (length l + i - length l) with i by lia.
Qed.
Lemma placed_index n plan item : placed n plan -> item ∈ plan -> n <= pc_index item < n + length plan.
Proof. intros H Hi. apply list_elem_of_lookup in Hi as [i Hi]. rewrite (H i item Hi). apply lookup_lt_Some in Hi. lia. Qed.
Lemma placed_nodup n plan : placed n plan -> NoDup (pc_index <$> plan).
Proof.
  revert n. induction plan as [|item plan IH]; intros n H; [constructor|]. change (item :: plan) with ([item] ++ plan) in H.
  apply placed_app in H as [H1 H2]. rewrite fmap_cons. apply NoDup_cons. split; [|by eapply IH].
  intros Hin. apply list_elem_of_fmap in Hin as (b & Hb & Hin). apply (placed_index _ _ _ H2) in Hin. cbn in Hin.
  rewrite <- Hb, (H1 0 item eq_refl) in Hin. lia.
Qed.

Definition first_segment (plan : list Item) : list Item * list Item :=
  match plan with
  | item :: rest => if parallel_safe item then split_group plan else ([item], rest)
  | [] => ([], [])
  end.
Lemma split_group_ok (plan : list Item) : plan = (split_group plan).1 ++ (split_group plan).2 /\ Forall (fun item => parallel_safe item = true) (split_group plan).1.
Proof.
  induction plan as [|item plan IH]; [by split|]. cbn. destruct (parallel_safe item) eqn:Hs; [|by split].
  destruct (split_group plan) as [group rest]. cbn in *. destruct IH as [-> IH]. split; [done|by constructor].
Qed.
Definition segment (seg : list Item) : Prop := seg <> [] /\ (Forall (fun item => parallel_safe item = true) seg \/ length seg = 1).
Lemma first_segment_ok plan : plan <> [] -> plan = (first_segment plan).1 ++ (first_segment plan).2 /\ segment (first_segment plan).1.
Proof.
  intros Hne. destruct plan as [|item rest]; [done|]. unfold first_segment. destruct (parallel_safe item) eqn:Hs.
  - destruct (split_group_ok (item :: rest)) as [H1 H2]. split; [done|]. split; [|by left]. cbn. rewrite Hs.
    by destruct (split_group rest).
  - split; [done|]. split; [done|by right].
Qed.

(** The outcome after a segment without an error, whether a group or a single call. *)
Definition after_segment (seg : list Item) (o : toolBatchOutcome) : toolBatchOutcome :=
  let results := insert_all pc_index (fun item => xr_result (one item)) seg (bo_Results o) in
  mkOutcome results (bo_SuccessfulActions o ++ successfulActionsFromParallelGroup seg (foldl put_action ∅ seg))
    (foldl put_execution (bo_Executions o) seg) (bo_HasModelVisibleFailure o)
    (bo_SettleAfterSuccess o || settles_group seg results) (bo_AsyncActionStarted o).
Notation run pick := (run_plan s out pick).
Record segment_trace (seg : list Item) (tr : Trace) : Prop := {
  st_launches : launches tr `prefix_of` seg /\ dones tr ≡ₚ launches tr;
  st_within : within (parallel_limit s) 0 tr /\ running 0 tr = 0
}.
Lemma run_plan_step (pick : schedule) fuel plan n o : placed n plan -> n + length plan <= length (bo_Results o) -> plan <> [] ->
  exists tr, segment_trace (first_segment plan).1 tr /\
  if forallb no_error (first_segment plan).1 then
    let o1 := after_segment (first_segment plan).1 o in
    dones tr ≡ₚ (first_segment plan).1 /\
    run pick (S fuel) plan o =
      if existsb visibly_failed (first_segment plan).1
      then (with_failure (fillPriorGroupSkipped (first_segment plan).2 (bo_Results o1)) o1, None, tr)
      else let '(r, tr') := run pick fuel (first_segment plan).2 o1 in (r, tr ++ tr')
  else exists o1 e, run pick (S fuel) plan o = (o1, Some e, tr) /\ bo_Executions o1 = foldl put_execution (bo_Executions o) (dones tr).
Proof.
  intros Hp Hlen Hne. destruct plan as [|item rest]; [done|]. unfold first_segment. cbn [run_plan]. destruct (parallel_safe item) eqn:Hs.
  - assert (Hnd : NoDup (pc_index <$> (split_group (item :: rest)).1)).
    { destruct (split_group_ok (item :: rest)) as [He _]. rewrite He in Hp. apply placed_app in Hp as [Hp _]. by eapply placed_nodup. }
    destruct (split_group (item :: rest)) as [group rest']. cbn in Hnd |- *.
    pose proof (runParallelGroup_ok pick group (bo_Results o) (bo_Executions o) Hnd) as [Hl [Hw Hrun] He _ Herr Hall].
    set (g := runParallelGroup s out pick group _ _) in *. exists (gs_trace g). split.
    { by split. }
    destruct (gs_firstErr g) as [e|] eqn:Hg.
    + destruct (forallb no_error group); [by discriminate (proj2 Herr eq_refl)|]. by exists (after_group group g o), e.
    + rewrite (proj1 Herr eq_refl). destruct (Hall eq_refl) as (Hd & Hres & Hexe & Hact & Hf). split; [done|]. rewrite Hf.
      assert (Ho : after_group group g o = after_segment group o).
      { unfold after_group, after_segment. by rewrite Hres, Hexe, Hact. }
      rewrite Ho. destruct (existsb visibly_failed group); [by rewrite Hres|]. by destruct (run_plan _ _ _ _ _ _).
  - cbn. assert (Hx : exists did, runOne out item = (one item, did)) by (destruct (runOne out item); by eexists). destruct Hx as [did Hx].
    assert (Hidx : pc_index item < length (bo_Results o)).
    { cbn in Hlen. rewrite (Hp 0 item eq_refl). lia. }
    rewrite Hx. exists [RLaunch item; RDone item did]. split.
    { split; [split; [apply prefix_cons, prefix_nil|done]|split; [|done]]. cbn. pose proof parallel_limit_pos. split; [lia|done]. }
    rewrite !andb_true_r, !orb_false_r. unfold visibly_failed, no_error. destruct (xr_err (one item)) as [e|] eqn:Hxe; [by eexists _, e|].
    cbn [andb]. split; [done|]. destruct (succeeded (xr_result (one item))) eqn:Hsu; cbn [negb].
    + assert (Ho : after_one item (one item) (with_execution item (xr_execution (one item)) o) = after_segment [item] o).
      { unfold after_one, after_segment, with_execution. cbn. unfold put_action, put_execution. rewrite Hxe, Hsu.
        rewrite list_lookup_insert_eq by done. rewrite Hsu. cbn. rewrite !orb_false_r. f_equal.
        case_bool_decide; [by rewrite lookup_insert_eq|by rewrite lookup_empty, app_nil_r]. }
      rewrite Ho. by destruct (run_plan _ _ _ _ _ _).
    + unfold with_failure, after_segment, with_execution. cbn. unfold put_action, put_execution. rewrite Hxe, Hsu. cbn.
      rewrite list_lookup_insert_eq by done. rewrite Hsu, lookup_empty. cbn. by rewrite app_nil_r, !orb_false_r.
Qed.

(** ** Runs of the plan *)
Lemma after_segment_length seg o : length (bo_Results (after_segment seg o)) = length (bo_Results o).
Proof. apply insert_all_length. Qed.
Lemma first_segment_placed n plan : placed n plan -> plan <> [] ->
  placed n (first_segment plan).1 /\ placed (n + length (first_segment plan).1) (first_segment plan).2.
Proof. intros Hp Hne. destruct (first_segment_ok plan Hne) as [He _]. rewrite He in Hp. by apply placed_app. Qed.
Lemma first_segment_shorter plan : plan <> [] -> length plan = length (first_segment plan).1 + length (first_segment plan).2
  /\ length (first_segment plan).2 < length plan.
Proof.
  intros Hne. destruct (first_segment_ok plan Hne) as [He [Hs _]]. apply (f_equal length) in He. rewrite length_app in He.
  destruct (first_segment plan).1; [done|]. cbn in *. lia.
Qed.

(** The rule by which a property of runs is proved. *)
Lemma run_plan_ind (pick : schedule) (Pr : list Item -> toolBatchOutcome -> toolBatchOutcome * option error * Trace -> Prop) :
  (forall o, Pr [] o (o, None, [])) ->
  (forall n plan o tr o1 e, placed n plan -> n + length plan <= length (bo_Results o) -> plan <> [] ->
    segment_trace (first_segment plan).1 tr -> bo_Executions o1 = foldl put_execution (bo_Executions o) (dones tr) ->
    Pr plan o (o1, Some e, tr)) ->
  (forall n plan o tr, placed n plan -> n + length plan <= length (bo_Results o) -> plan <> [] ->
    segment_trace (first_segment plan).1 tr -> forallb no_error (first_segment plan).1 = true -> dones tr ≡ₚ (first_segment plan).1 ->
    let o1 := after_segment (first_segment plan).1 o in
    Pr plan o (with_failure (fillPriorGroupSkipped (first_segment plan).2 (bo_Results o1)) o1, None, tr)) ->
  (forall n plan o tr r tr', placed n plan -> n + length plan <= length (bo_Results o) -> plan <> [] ->
    segment_trace (first_segment plan).1 tr -> forallb no_error (first_segment plan).1 = true ->
    existsb visibly_failed (first_segment plan).1 = false -> dones tr ≡ₚ (first_segment plan).1 ->
    Pr (first_segment plan).2 (after_segment (first_segment plan).1 o) (r, tr') -> Pr plan o (r, tr ++ tr')) ->
  forall fuel n plan o, length plan <= fuel -> placed n plan -> n + length plan <= length (bo_Results o) ->
    Pr plan o (run pick fuel plan o).
Proof.
  intros H0 He Hf Hs. induction fuel as [|fuel IH]; intros n plan o Hfuel Hp Hlen.
  { destruct plan; [apply H0|cbn in Hfuel; lia]. }
  destruct (decide (plan = [])) as [->|Hne]; [apply H0|].
  destruct (run_plan_step pick fuel plan n o Hp Hlen Hne) as (tr & Ht & Hstep).
  destruct (forallb no_error (first_segment plan).1) eqn:Hno; [|destruct Hstep as (o1 & e & -> & Hx); by eapply He].
  destruct Hstep as [Hd ->]. destruct (existsb visibly_failed (first_segment plan).1) eqn:Hv; [by eapply Hf|].
  destruct (first_segment_shorter plan Hne) as [Hl1 Hl2]. destruct (first_segment_placed n plan Hp Hne) as [_ Hp2].
  assert (HI := IH (n + length (first_segment plan).1) (first_segment plan).2 (after_segment (first_segment plan).1 o)).
  rewrite after_segment_length in HI. specialize (HI ltac:(lia) Hp2 ltac:(lia)).
  destruct (run pick fuel _ _) as [r tr']. by eapply Hs.
Qed.

Lemma prefix_all (seg : list Item) tr : segment_trace seg tr -> dones tr ≡ₚ seg -> launches tr = seg.
Proof.
  intros [[[k Hk] Hp] _] Hd. apply Permutation_length in Hp, Hd. pose proof (f_equal length Hk) as Hl. rewrite length_app in Hl.
  rewrite (proj1 (length_zero_iff_nil k)), app_nil_r in Hk by lia. done.
Qed.

(** *** Launches *)
Definition orderly (plan : list Item) (tr : Trace) : Prop := launches tr `prefix_of` plan /\ dones tr ≡ₚ launches tr
  /\ within (parallel_limit s) 0 tr /\ running 0 tr = 0.
Lemma segment_orderly plan tr : plan <> [] -> segment_trace (first_segment plan).1 tr -> orderly plan tr.
Proof.
  intros Hne [[Hl Hd] [Hw Hr]]. destruct (first_segment_ok plan Hne) as [He _]. split_and!; try done.
  rewrite He. by apply prefix_app_r.
Qed.
Lemma run_plan_orderly (pick : schedule) fuel n plan o : length plan <= fuel -> placed n plan ->
  n + length plan <= length (bo_Results o) -> orderly plan (run pick fuel plan o).2.
Proof.
  revert fuel n plan o. apply (run_plan_ind pick (fun plan _ r => orderly plan r.2)).
  - intros o. by split.
  - intros n plan o tr o1 e _ _ Hne Ht _. by apply segment_orderly.
  - intros n plan o tr _ _ Hne Ht _ _. by apply segment_orderly.
  - intros n plan o tr r tr' _ _ Hne Ht _ _ Hd (Hl & Hp & Hw & Hr). pose proof (prefix_all _ _ Ht Hd) as Ha.
    destruct Ht as [[_ Hd'] [Hw' Hr']]. destruct (first_segment_ok plan Hne) as [He _]. cbn. split_and!.
    + rewrite He at 1. rewrite launches_app, Ha. by apply prefix_app.
    + rewrite dones_app, launches_app. by rewrite Hp, Hd'.
    + apply within_app. by rewrite Hr'.
    + by rewrite running_app, Hr'.
Qed.

(** *** Results *)
Definition result_of (item : Item) (r : Result) : Prop :=
  (xr_err (one item) = None /\ r = xr_result (one item)) \/ r = skippedToolResult (pc_call item) "prior_group_failed" "prior group failed".
Definition results_ok (n : nat) (plan : list Item) (r r' : list Result) : Prop := length r' = length r
  /\ (forall i, i < n -> r' !! i = r !! i) /\ forall item, item ∈ plan -> exists x, r' !! pc_index item = Some x /\ result_of item x.
Lemma segment_results n seg rest o : placed n (seg ++ rest) -> n + length (seg ++ rest) <= length (bo_Results o) ->
  forallb no_error seg = true -> results_ok n seg (bo_Results o) (bo_Results (after_segment seg o)).
Proof.
  intros Hp Hlen Hno. rewrite length_app in Hlen. apply placed_app in Hp as [Hp _]. split_and!; [apply after_segment_length| |].
  - intros i Hi. apply insert_all_other. intros Hin. apply list_elem_of_fmap in Hin as (b & -> & Hin).
    apply (placed_index _ _ _ Hp) in Hin. lia.
  - intros item Hin. exists (xr_result (one item)). split.
    + apply (insert_all_at pc_index (fun item => xr_result (one item))); [by eapply placed_nodup|done|].
      apply (placed_index _ _ _ Hp) in Hin. lia.
    + left. split; [|done]. rewrite forallb_forall in Hno. specialize (Hno item). rewrite <- list_elem_of_In in Hno. specialize (Hno Hin).
      unfold no_error in Hno. by destruct (xr_err (one item)).
Qed.
Lemma results_ok_app n l l' r r1 r2 : results_ok n l r r1 -> results_ok (n + length l) l' r1 r2 -> placed n l ->
  results_ok n (l ++ l') r r2.
Proof.
  intros (H1 & H2 & H3) (K1 & K2 & K3) Hp. split_and!; [congruence| |].
  - intros i Hi. rewrite K2, H2; [done|lia|lia].
  - intros item Hin. apply elem_of_app in Hin as [Hin|Hin]; [|by apply K3]. destruct (H3 item Hin) as (x & Hx & Hr).
    exists x. split; [|done]. rewrite K2; [done|]. apply (placed_index _ _ _ Hp) in Hin. lia.
Qed.
Lemma skipped_results n plan r : placed n plan -> n + length plan <= length r -> results_ok n plan r (fillPriorGroupSkipped plan r).
Proof.
  intros Hp Hlen. change (fillPriorGroupSkipped plan r) with
    (insert_all pc_index (fun item : Item => skippedToolResult (pc_call item) "prior_group_failed" "prior group failed") plan r).
  split_and!; [apply insert_all_length| |].
  - intros i Hi. apply insert_all_other. intros Hin. apply list_elem_of_fmap in Hin as (b & -> & Hin).
    apply (placed_index _ _ _ Hp) in Hin. lia.
  - intros item Hin. eexists. split; [|by right]. apply (insert_all_at pc_index (fun item => skippedToolResult (pc_call item) _ _)); [by eapply placed_nodup|done|].
    apply (placed_index _ _ _ Hp) in Hin. lia.
Qed.
Lemma run_plan_results (pick : schedule) fuel n plan o : length plan <= fuel -> placed n plan -> n + length plan <= length (bo_Results o) ->
  forall o' tr, run pick fuel plan o = (o', None, tr) -> results_ok n plan (bo_Results o) (bo_Results o').
Proof.
  intros Hf Hp Hlen o' tr Hrun.
  assert (HI := fun H0 He Hk Hs => run_plan_ind pick (fun plan o r => forall n, placed n plan -> n + length plan <= length (bo_Results o) ->
    match r.1.2 with None => results_ok n plan (bo_Results o) (bo_Results r.1.1) | Some _ => True end) H0 He Hk Hs fuel n plan o Hf Hp Hlen).
  rewrite Hrun in HI. apply HI; [..|exact Hp|exact Hlen]; clear; cbn [fst snd]; try done.
  - intros o n _ _. split_and!; try done. intros item Hin. by apply elem_of_nil in Hin.
  - intros _ plan o tr _ _ Hne Ht Hno _ n Hp Hlen. destruct (first_segment_ok plan Hne) as [He _].
    destruct (first_segment_placed n plan Hp Hne) as [Hp1 Hp2]. rewrite He at 1. rewrite He in Hp, Hlen.
    eapply results_ok_app; [by eapply segment_results|apply skipped_results; [done|]|done].
    rewrite length_app in Hlen. rewrite after_segment_length. lia.
  - intros _ plan o tr [o' err] tr' _ _ Hne Ht Hno _ _ HP n Hp Hlen. destruct (first_segment_ok plan Hne) as [He _].
    destruct (first_segment_placed n plan Hp Hne) as [Hp1 Hp2]. cbn [fst snd] in *. destruct (first_segment_shorter plan Hne) as [Hl _].
    specialize (HP _ Hp2). rewrite after_segment_length in HP. specialize (HP ltac:(lia)). destruct err; [done|]. rewrite He at 1.
    eapply results_ok_app; [|exact HP|done]. rewrite He in Hp, Hlen. by eapply segment_results.
Qed.

(** *** Executions *)
Lemma with_failure_executions r (o : toolBatchOutcome (Value := Value)) : bo_Executions (with_failure r o) = bo_Executions o.
Proof. done. Qed.
Definition executions_ok (tr : Trace) (e e' : list Execution) : Prop := length e' = length e
  /\ forall i, e' !! i = e !! i \/ exists item, item ∈ dones tr /\ pc_index item = i /\ e' !! i = Some (xr_execution (one item)).
Lemma put_executions l tr e : (forall item, item ∈ l -> item ∈ dones tr) -> executions_ok tr e (foldl put_execution e l).
Proof.
  intros Hl. change (foldl put_execution e l) with (insert_all pc_index (fun item => xr_execution (one item)) l e).
  split; [apply insert_all_length|]. intros i.
  destruct (insert_all_cases pc_index (fun item => xr_execution (one item)) l e i) as [H|(item & Hin & Hi & H)]; [by left|right].
  exists item. split_and!; [by apply Hl|done|done].
Qed.
Lemma executions_ok_app tr tr' e e1 e2 : executions_ok tr e e1 -> executions_ok tr' e1 e2 -> executions_ok (tr ++ tr') e e2.
Proof.
  intros [L1 H1] [L2 H2]. split; [congruence|]. intros i. destruct (H2 i) as [->|(item & Hin & Hi & H)].
  - destruct (H1 i) as [->|(item & Hin & Hi & H)]; [by left|right]. exists item. rewrite dones_app, elem_of_app. auto.
  - right. exists item. rewrite dones_app, elem_of_app. auto.
Qed.
Lemma run_plan_executions (pick : schedule) fuel n plan o : length plan <= fuel -> placed n plan ->
  n + length plan <= length (bo_Results o) -> executions_ok (run pick fuel plan o).2 (bo_Executions o) (bo_Executions (run pick fuel plan o).1.1).
Proof.
  revert fuel n plan o. apply (run_plan_ind pick (fun plan o r => executions_ok r.2 (bo_Executions o) (bo_Executions r.1.1))); cbn [fst snd].
  - intros o. split; [done|]. intros i. by left.
  - intros n plan o tr o1 e _ _ _ _ ->. by apply put_executions.
  - intros n plan o tr _ _ _ _ _ Hd. apply put_executions. intros item Hin. by rewrite Hd.
  - intros n plan o tr r tr' _ _ _ _ _ _ Hd HP. eapply executions_ok_app; [|exact HP]. apply put_executions. intros item Hin. by rewrite Hd.
Qed.

(** *** The order of segments *)
Definition success (item : Item) : Prop := xr_err (one item) = None /\ succeeded (xr_result (one item)) = true.
(** Neighbours of one parallel group. *)
Definition together (plan : list Item) (a b : Item) : Prop := forall c, c ∈ plan -> pc_index a <= pc_index c <= pc_index b -> parallel_safe c = true.
Definition in_order (plan : list Item) (tr : Trace) : Prop := forall tr1 b tr2, tr = tr1 ++ RLaunch b :: tr2 ->
  b ∈ plan /\ forall a, a ∈ plan -> pc_index a < pc_index b -> together plan a b \/ (a ∈ dones tr1 /\ success a).
Lemma launched_in tr tr1 b tr2 : tr = tr1 ++ RLaunch b :: tr2 -> b ∈ launches tr.
Proof. intros ->. rewrite launches_app. apply elem_of_app. right. apply elem_of_cons. by left. Qed.
Lemma segment_in_order n plan tr : placed n plan -> plan <> [] -> segment_trace (first_segment plan).1 tr -> in_order plan tr.
Proof.
  intros Hp Hne [[Hl _] _] tr1 b tr2 Htr. destruct (first_segment_ok plan Hne) as [He [_ Hseg]].
  assert (Hb : b ∈ (first_segment plan).1).
  { destruct Hl as [k Hk]. rewrite Hk. apply elem_of_app. left. by eapply launched_in. }
  destruct (first_segment_placed n plan Hp Hne) as [Hp1 Hp2]. split; [rewrite He; apply elem_of_app; by left|].
  intros a Ha Hab. left. intros c Hc Hin. apply (placed_index _ _ _ Hp1) in Hb.
  assert (Hlow : forall x, x ∈ plan -> pc_index x < n + length (first_segment plan).1 -> x ∈ (first_segment plan).1).
  { intros x Hx Hlt. rewrite He in Hx. apply elem_of_app in Hx as [Hx|Hx]; [done|]. apply (placed_index _ _ _ Hp2) in Hx. lia. }
  assert (Hc1 := Hlow c Hc ltac:(lia)). assert (Ha1 := Hlow a Ha ltac:(lia)). destruct Hseg as [Hseg|Hseg].
  - by eapply Forall_forall in Hseg.
  - apply (placed_index _ _ _ Hp1) in Ha1. lia.
Qed.
Lemma no_failure_success seg item : forallb no_error seg = true -> existsb visibly_failed seg = false -> item ∈ seg -> success item.
Proof.
  intros Hno Hv Hin. apply list_elem_of_In in Hin. rewrite forallb_forall in Hno. specialize (Hno item Hin).
  assert (Hf : visibly_failed item = false).
  { destruct (visibly_failed item) eqn:E; [|done]. rewrite <- Hv. symmetry. apply existsb_exists. by exists item. }
  unfold visibly_failed in Hf. rewrite Hno in Hf. unfold success, no_error in *. destruct (xr_err (one item)); [done|].
  by destruct (succeeded _).
Qed.
Lemma split_launch (tr tr' tr1 : Trace) b tr2 : tr ++ tr' = tr1 ++ RLaunch b :: tr2 ->
  (exists k, tr = tr1 ++ RLaunch b :: k) \/ (exists k, tr1 = tr ++ k /\ tr' = k ++ RLaunch b :: tr2).
Proof.
  intros H. apply app_eq_inv in H as [(k & -> & H)|(k & -> & H)]; [|right; by exists k].
  destruct k as [|ev k]; [right; exists []; rewrite !app_nil_r in *; by split|]. injection H as <- _. left. by exists k.
Qed.
Lemma run_plan_in_order (pick : schedule) fuel n plan o : length plan <= fuel -> placed n plan ->
  n + length plan <= length (bo_Results o) -> in_order plan (run pick fuel plan o).2.
Proof.
  revert fuel n plan o. apply (run_plan_ind pick (fun plan _ r => in_order plan r.2)); cbn [fst snd].
  - intros o tr1 b tr2 H. by apply app_cons_not_nil in H.
  - intros n plan o tr o1 e Hp _ Hne Ht _. by eapply segment_in_order.
  - intros n plan o tr Hp _ Hne Ht _ _. by eapply segment_in_order.
  - intros n plan o tr r tr' Hp _ Hne Ht Hno Hv Hd HP tr1 b tr2 Htr. destruct (first_segment_ok plan Hne) as [He _].
    destruct (first_segment_placed n plan Hp Hne) as [Hp1 Hp2].
    apply split_launch in Htr as [[k Hk]|(k & -> & Hk)].
    { destruct (segment_in_order n plan tr Hp Hne Ht _ _ _ Hk) as [Hb H]. by split. }
    destruct (HP _ _ _ Hk) as [Hb H]. split; [rewrite He; apply elem_of_app; by right|]. intros a Ha Hab. rewrite He in Ha.
    apply elem_of_app in Ha as [Ha|Ha].
    + right. split; [|by eapply no_failure_success]. rewrite dones_app. apply elem_of_app. left. by rewrite Hd.
    + destruct (H a Ha Hab) as [Htog|[Hin Hs]]; [left|right].
      * intros c Hc Hin. rewrite He in Hc. apply elem_of_app in Hc as [Hc|Hc]; [|by apply Htog].
        apply (placed_index _ _ _ Hp1) in Hc. apply (placed_index _ _ _ Hp2) in Ha. lia.
      * split; [|done]. rewrite dones_app. apply elem_of_app. by right.
Qed.

(** *** Schedules *)
Lemma run_plan_schedule (pick pick' : schedule) fuel n plan o : length plan <= fuel -> placed n plan ->
  n + length plan <= length (bo_Results o) -> forall o' tr, run pick fuel plan o = (o', None, tr) ->
  exists tr', run pick' fuel plan o = (o', None, tr') /\ launches tr' ≡ₚ launches tr /\ dones tr' ≡ₚ dones tr.
Proof.
  revert n plan o. induction fuel as [|fuel IH]; intros n plan o Hf Hp Hlen o' tr Hrun.
  { cbn in Hrun. injection Hrun as <- <-. by exists []. }
  destruct (decide (plan = [])) as [->|Hne]; [cbn in Hrun; injection Hrun as <- <-; by exists []|].
  destruct (run_plan_step pick fuel plan n o Hp Hlen Hne) as (tr1 & Ht & Hs).
  destruct (run_plan_step pick' fuel plan n o Hp Hlen Hne) as (tr1' & Ht' & Hs').
  destruct (forallb no_error (first_segment plan).1) eqn:Hno.
  2: { destruct Hs as (o1 & e & Hs & _). rewrite Hs in Hrun. done. }
  destruct Hs as [Hd Hs], Hs' as [Hd' Hs']. rewrite Hs in Hrun. rewrite Hs'. cbv zeta in *.
  assert (Hdd : dones tr1' ≡ₚ dones tr1) by by rewrite Hd, Hd'.
  assert (Hll : launches tr1' ≡ₚ launches tr1) by by rewrite (prefix_all _ _ Ht Hd), (prefix_all _ _ Ht' Hd').
  destruct (existsb visibly_failed _); [injection Hrun as <- <-; by exists tr1'|].
  destruct (first_segment_shorter plan Hne) as [Hl1 Hl2]. destruct (first_segment_placed n plan Hp Hne) as [_ Hp2].
  destruct (run pick fuel _ _) as [[o2 err] tr2] eqn:Hrec. injection Hrun as <- -> <-.
  destruct (IH (n + length (first_segment plan).1) (first_segment plan).2 (after_segment (first_segment plan).1 o))
    with (o' := o2) (tr := tr2) as (tr2' & -> & Hla & Hdo); [lia|done|rewrite after_segment_length; lia|done|].
  exists (tr1' ++ tr2'). split; [done|]. rewrite !launches_app, !dones_app, Hla, Hll, Hdd, Hdo. done.
Qed.

(** ** Preflight *)
Lemma all_ok {E A} (l : list (outcome E A)) : forallb is_ok l = true ->
  length (omap (fun o => match o with Ok p => Some p | Err _ => None end) l) = length l
  /\ forall i p, omap (fun o => match o with Ok p => Some p | Err _ => None end) l !! i = Some p -> l !! i = Some (Ok p).
Proof.
  induction l as [|[p|e] l IH]; cbn; [done| |done]. intros H. destruct (IH H) as [H1 H2]. split; [by rewrite <- H1|].
  intros [|i] q; cbn; [by intros [= ->]|apply H2].
Qed.
Lemma preflight_one_ok w e calls i call p : preflight_one s lib w e calls i call = Ok p -> pc_index p = i /\ pc_call p = call.
Proof. unfold preflight_one. intros H. okinv H. done. Qed.
Definition planned (calls : list Call) (plan : list Item) : Prop := placed 0 plan /\ length plan = length calls
  /\ forall item, item ∈ plan -> calls !! pc_index item = Some (pc_call item).
Lemma preflight_plans w e calls plan : preflight s lib w e calls = Ok plan -> planned calls plan.
Proof.
  unfold preflight. destruct (forallb is_ok _) eqn:Hok; [|done]. intros [= <-]. destruct (all_ok _ Hok) as [Hl Hat].
  assert (Hi : forall i p, omap (fun o => match o with Ok p => Some p | Err _ => None end) (imap (preflight_one s lib w e calls) calls) !! i = Some p ->
    pc_index p = i /\ calls !! i = Some (pc_call p)).
  { intros i p Hp. apply Hat in Hp. rewrite list_lookup_imap in Hp. destruct (calls !! i) as [call|]; [|done]. cbn in Hp.
    injection Hp as Hp. apply preflight_one_ok in Hp as [-> ->]. done. }
  split_and!.
  - intros i p Hp. by apply Hi in Hp as [-> _].
  - by rewrite Hl, length_imap.
  - intros item Hin. apply list_elem_of_lookup in Hin as [i Hp]. by apply Hi in Hp as [-> ?].
Qed.
Lemma preflight_refuses w e calls results : preflight s lib w e calls = Err results -> length results = length calls
  /\ forall i call, calls !! i = Some call -> results !! i = Some (preflight_result call (preflight_one s lib w e calls i call)).
Proof.
  unfold preflight. destruct (forallb is_ok _); [done|]. intros [= <-]. split.
  - rewrite length_zip_with, length_imap. lia.
  - intros i call Hc. by rewrite lookup_zip_with, list_lookup_imap, Hc.
Qed.
Lemma preflight_some_refused w e calls i call c : calls !! i = Some call -> preflight_one s lib w e calls i call = Err c ->
  exists results, preflight s lib w e calls = Err results.
Proof.
  intros Hc Hp. unfold preflight. destruct (forallb is_ok _) eqn:Hok; [|by eexists]. rewrite forallb_forall in Hok.
  specialize (Hok (Err c)). rewrite <- list_elem_of_In in Hok. exfalso. assert (Hin : Err c ∈ imap (preflight_one s lib w e calls) calls).
  { apply list_elem_of_lookup. exists i. by rewrite list_lookup_imap, Hc, <- Hp. }
  by specialize (Hok Hin).
Qed.

(** ** Batches *)
Notation Batch pick w e calls := (run_batch s lib out pick w e calls).
Lemma run_batch_cases (pick : schedule) w e calls :
  (exists results, preflight s lib w e calls = Err results
    /\ Batch pick w e calls = (mkOutcome results [] (new_execution <$> calls) true false false, None, []))
  \/ exists plan, preflight s lib w e calls = Ok plan /\ planned calls plan
    /\ ((exists item, plan = [item] /\ Batch pick w e calls = run_async out item calls)
       \/ Batch pick w e calls = run pick (length plan) plan (new_outcome (replicate (length calls) zeroResult) calls)).
Proof.
  unfold run_batch. destruct (preflight s lib w e calls) as [plan|results] eqn:Hp; [right|left; by exists results].
  exists plan. split; [done|]. split; [by eapply preflight_plans|].
  destruct plan as [|item [|item' rest]]; [by right| |by right]. case_bool_decide; [left; by exists item|by right].
Qed.
(** The trace of a lone asynchronous call. *)
Lemma run_async_trace item calls : exists did, (run_async out item calls).2 = [RLaunch item; RDone item did].
Proof.
  unfold run_async. destruct (runAsyncOne out item) as [x did]. exists did. destruct (xr_err x); [done|]. by destruct (succeeded _).
Qed.
Lemma async_orderly item calls : orderly [item] (run_async out item calls).2.
Proof.
  destruct (run_async_trace item calls) as [did ->]. pose proof parallel_limit_pos. split_and!; try done; cbn; lia.
Qed.
Lemma run_room calls plan : planned calls plan ->
  0 + length plan <= length (bo_Results (new_outcome (Value := Value) (replicate (length calls) zeroResult) calls)).
Proof. intros (_ & Hl & _). cbn. rewrite length_replicate. lia. Qed.
Lemma run_batch_orderly (pick : schedule) w e calls : (exists results, preflight s lib w e calls = Err results /\ (Batch pick w e calls).2 = [])
  \/ exists plan, preflight s lib w e calls = Ok plan /\ orderly plan (Batch pick w e calls).2 /\ in_order plan (Batch pick w e calls).2.
Proof.
  destruct (run_batch_cases pick w e calls) as [(results & Hp & Hb)|(plan & Hp & Hpl & [(item & He & Hb)|Hb])]; rewrite Hb.
  - left. exists results. by split.
  - subst plan. right. exists [item]. split; [done|]. split; [apply async_orderly|]. destruct (run_async_trace item calls) as [did ->].
    intros tr1 b tr2 H. destruct tr1 as [|ev [|ev' tr1]]; cbn in H; [|done|].
    + injection H as <- _. split; [by apply elem_of_cons; left|]. intros a Ha Hab. apply list_elem_of_singleton in Ha as ->. lia.
    + injection H as _ _ H. by apply app_cons_not_nil in H.
  - right. pose proof (proj1 Hpl) as Hpl0. exists plan. split; [done|].
    split; [eapply run_plan_orderly|eapply run_plan_in_order]; try done; by apply run_room.
Qed.

Lemma run_batch_results (pick : schedule) w e calls o tr : Batch pick w e calls = (o, None, tr) ->
  length (bo_Results o) = length calls /\ forall i call, calls !! i = Some call -> exists r, bo_Results o !! i = Some r
    /\ answers r call /\ (executors_answer -> tr_Status r <> "").
Proof.
  intros H. destruct (run_batch_cases pick w e calls) as [(results & Hp & Hr)|(plan & _ & (Hpl & Hl & Hc) & [(item & -> & Hr)|Hr])]; rewrite Hr in H.
  - injection H as <- <-. cbn. apply preflight_refuses in Hp as [Hl Hat]. split; [done|]. intros i call Hc. eexists. split; [by apply Hat|].
    by destruct (preflight_one _ _ _ _ _ _ _) as [p|[c m]].
  - unfold run_async in H. pose proof (runAsyncOne_captured item) as Hcap. destruct (runAsyncOne out item) as [x did]. cbn in Hcap.
    assert (Hx : xr_err x = None -> answers (xr_result x) (pc_call item) /\ (executors_answer -> tr_Status (xr_result x) <> "")).
    { destruct Hcap as (y & -> & _ & Hy). exact Hy. }
    destruct (xr_err x); [done|]. assert (Ho : bo_Results o = [xr_result x]) by (destruct (succeeded _); by injection H as <- _).
    rewrite Ho. split; [done|]. intros [|i] call Hi; cbn; [|destruct calls as [|? [|]]; try done].
    eexists. split; [done|]. pose proof (Hpl 0 item eq_refl) as H0. cbn in H0. rewrite <- H0, (Hc item) in Hi by (apply elem_of_cons; by left).
    injection Hi as <-. by apply Hx.
  - apply (run_plan_results _ _ 0) in H as (Hlen & _ & Hres); [|done|done|by apply run_room].
    cbn in Hlen. rewrite length_replicate in Hlen. split; [done|]. intros i call Hi.
    assert (Hlt : i < length plan) by (rewrite Hl; by eapply lookup_lt_Some). apply lookup_lt_is_Some in Hlt as [item Hit].
    pose proof (Hpl i item Hit) as Hidx. cbn in Hidx. assert (Hin : item ∈ plan) by by eapply list_elem_of_lookup_2.
    destruct (Hres item Hin) as (r & Hr' & Hx). rewrite Hidx in Hr'. exists r. split; [done|]. specialize (Hc item Hin).
    rewrite Hidx, Hi in Hc. injection Hc as ->. destruct Hx as [[Hx ->]| ->]; [|done].
    destruct (runOne_captured item) as (y & Hy & _ & Ha). rewrite Hy in *. by apply Ha.
Qed.

Definition done_execution (tr : Trace) (i : nat) (call : Call) (e : Execution) : Prop := he_Call e = call
  /\ (e = new_execution call \/ (executors_answer -> recorded e) /\ exists item, item ∈ dones tr /\ pc_index item = i).
Lemma run_batch_executions (pick : schedule) w e calls o err tr : Batch pick w e calls = (o, err, tr) ->
  length (bo_Executions o) = length calls
  /\ forall i call, calls !! i = Some call -> exists x, bo_Executions o !! i = Some x /\ done_execution tr i call x.
Proof.
  intros H. assert (Hnew : forall tr i call, calls !! i = Some call -> exists x, (new_execution <$> calls) !! i = Some x /\ done_execution tr i call x).
  { intros tr' i call Hc. exists (new_execution call). rewrite list_lookup_fmap, Hc. split; [done|]. split; [done|by left]. }
  destruct (run_batch_cases pick w e calls) as [(results & Hp & Hr)|(plan & _ & (Hpl & Hl & Hc) & [(item & -> & Hr)|Hr])]; rewrite Hr in H.
  - injection H as <- <- <-. cbn. split; [apply length_fmap|]. intros i call. apply Hnew.
  - pose proof (runAsyncOne_captured item) as Hcap. unfold run_async in H. destruct (runAsyncOne out item) as [x did]. cbn in Hcap.
    assert (Ho : bo_Executions o = <[0:=xr_execution x]> (new_execution <$> calls) /\ tr = [RLaunch item; RDone item did]).
    { destruct (xr_err x); [|destruct (succeeded _)]; by injection H as <- _ <-. }
    destruct Ho as [-> ->]. destruct calls as [|call0 [|]]; try done. split; [done|]. intros [|i] call Hi; [|done]. injection Hi as <-.
    cbn. eexists. split; [done|]. pose proof (Hpl 0 item eq_refl) as H0. cbn in H0.
    specialize (Hc item ltac:(by apply elem_of_cons; left)). rewrite H0 in Hc. injection Hc as ->. split.
    + destruct Hcap as (y & -> & Hy & _). done.
    + right. split; [intros Hex; by apply (captured_recorded item)|]. exists item. split; [by apply elem_of_cons; left|done].
  - pose proof (run_plan_executions pick (length plan) 0 plan _ (le_n _) Hpl (run_room calls plan (conj Hpl (conj Hl Hc)))) as [Hlen Hx].
    rewrite H in Hlen, Hx. cbn in Hlen, Hx. rewrite length_fmap in Hlen. split; [done|]. intros i call Hi.
    destruct (Hx i) as [->|(item & Hin & Hidx & ->)]; [by apply Hnew|]. eexists. split; [done|].
    pose proof (run_plan_orderly pick (length plan) 0 plan _ (le_n _) Hpl (run_room calls plan (conj Hpl (conj Hl Hc)))) as (Hpre & Hperm & _).
    rewrite H in Hpre, Hperm. cbn in Hpre, Hperm. assert (Hit : item ∈ plan).
    { destruct Hpre as [k ->]. apply elem_of_app. left. by rewrite <- Hperm. }
    specialize (Hc item Hit). rewrite Hidx, Hi in Hc. injection Hc as ->. pose proof (runOne_captured item) as Hcap. split.
    + destruct Hcap as (y & Hy & Hcall & _). by rewrite Hy.
    + right. split; [intros Hex; by apply (captured_recorded item)|by exists item].
Qed.

(** *** The deferred function *)
Lemma settle_recorded results err i e : recorded e \/ (exists r, results !! i = Some r /\ tr_Status r <> "") \/ (is_Some err /\ he_Started e = false) ->
  recorded (settle_execution (Value := Value) results err i e).
Proof.
  intros H. unfold settle_execution, recorded in *. destruct (he_RuntimeResult e) as [r|] eqn:Hr; [left; by rewrite Hr|].
  case_bool_decide as He; cbn [negb].
  2: { right. exact He. }
  destruct H as [[[? ?]|?]|[(r & Hl & Hs)|[[e' ->] Hst]]]; [done|done| |].
  - rewrite Hl. rewrite bool_decide_eq_false_2 by done. left. by eexists.
  - rewrite Hst. destruct (results !! i) as [r|]; [case_bool_decide|]; left; by eexists.
Qed.
Lemma settle_call results err i e : he_Call (settle_execution (Value := Value) results err i e) = he_Call e
  /\ he_Started (settle_execution results err i e) = he_Started e.
Proof. unfold settle_execution. repeat case_match; done. Qed.
Lemma redact_recorded e : recorded e -> recorded (redact_execution s e).
Proof. unfold redact_execution, recorded. destruct (isTaskHistoryCall _ _); [|done]. cbn. intros [[r ->]|H]; [left; by eexists|by right]. Qed.
Lemma code_only_answers (r : Result) call : answers r call -> answers (code_only r) call.
Proof. unfold code_only. by case_bool_decide. Qed.

(** ** What a batch launches *)
Definition asynchronous (item : Item) : bool := en_Execution (pc_entry item) == ExecutionAsync.
Lemma preflight_one_async w e calls i call p : preflight_one s lib w e calls i call = Ok p -> asynchronous p = true ->
  length calls <= 1 /\ bs_asyncActionLimitFull s = false.
Proof.
  unfold preflight_one, asynchronous. intros H. okinv H. cbn. intros Ha. rewrite Ha, andb_true_l in *. boolp. split; [lia|done].
Qed.
Lemma planned_calls calls plan : planned calls plan -> pc_call <$> plan = calls.
Proof.
  intros (Hp & Hl & Hc). apply list_eq. intros i. rewrite list_lookup_fmap. destruct (plan !! i) as [item|] eqn:Hi; cbn.
  - pose proof (Hp i item Hi) as Hx. specialize (Hc item). rewrite Hx in Hc. symmetry. apply Hc. by eapply list_elem_of_lookup_2.
  - symmetry. apply lookup_ge_None in Hi. apply lookup_ge_None. lia.
Qed.
Lemma Run_launches pick w e calls o err tr : Run s lib out pick w e calls = (o, err, tr) -> (pc_call <$> launches tr) `prefix_of` calls.
Proof.
  unfold Run. destruct (run_batch s lib out pick w e calls) as [[o1 err1] tr1] eqn:Hb. intros [= <- <- <-].
  destruct (run_batch_orderly pick w e calls) as [(r & _ & Ht)|(plan & Hp & (Hl & _) & _)]; rewrite Hb in *; cbn in *.
  - rewrite Ht. apply prefix_nil.
  - apply preflight_plans, planned_calls in Hp. rewrite <- Hp. destruct Hl as [k ->]. exists (pc_call <$> k). apply fmap_app.
Qed.
(** An asynchronous call is alone in its batch, within the limit, and shows in the outcome. *)
Lemma Run_async pick w e calls o err tr item : Run s lib out pick w e calls = (o, err, tr) -> item ∈ launches tr -> asynchronous item = true ->
  length (launches tr) <= 1 /\ bs_asyncActionLimitFull s = false /\ (err = None -> bo_AsyncActionStarted o = true).
Proof.
  intros Hrun Hin Ha. pose proof (Run_launches _ _ _ _ _ _ _ Hrun) as Hpre. revert Hrun.
  unfold Run. destruct (run_batch s lib out pick w e calls) as [[o1 err1] tr1] eqn:Hb. intros [= <- <- <-].
  destruct (run_batch_orderly pick w e calls) as [(r & _ & Ht)|(plan & Hp & (Hl & _) & _)]; rewrite Hb in *; cbn in *.
  { rewrite Ht in Hin. by apply elem_of_nil in Hin. }
  assert (Hl' : launches tr1 `prefix_of` plan) by exact Hl. clear Hl. rename Hl' into Hl.
  pose proof (preflight_plans _ _ _ _ Hp) as Hpl.
  assert (Hone : length calls <= 1 /\ bs_asyncActionLimitFull s = false).
  { revert Hp. unfold preflight. destruct (forallb is_ok _) eqn:Hok; [|done]. intros [= Hp]. destruct (all_ok _ Hok) as [Hlen Hat].
    destruct Hl as [k Hk]. apply list_elem_of_lookup in Hin as [i Hi]. assert (Hpi : plan !! i = Some item).
    { rewrite Hk. by apply lookup_app_l_Some. }
    rewrite <- Hp in Hpi. apply Hat in Hpi. rewrite list_lookup_imap in Hpi. destruct (calls !! i) as [call|]; [|done]. cbn in Hpi.
    injection Hpi as Hpi. by apply (preflight_one_async _ _ _ _ _ _ Hpi). }
  destruct Hone as [Hone Hlim]. split_and!; [|done|].
  { apply prefix_length in Hpre. rewrite length_fmap in Hpre. lia. }
  intros ->. destruct Hpl as (_ & Hplen & _). revert Hb. unfold run_batch. rewrite Hp.
  destruct Hl as [k Hk]. destruct plan as [|p1 [|p2 rest]]; [|destruct (launches tr1) as [|q l]; [by apply elem_of_nil in Hin|]|cbn in *; lia].
  { destruct (launches tr1); [by apply elem_of_nil in Hin|done]. }
  assert (p1 = item) as ->.
  { cbn in Hk. injection Hk as -> Hk. symmetry in Hk. apply app_nil in Hk as [-> _]. by apply list_elem_of_singleton in Hin. }
  unfold asynchronous in Ha. apply bool_decide_eq_true in Ha. rewrite bool_decide_eq_true_2 by done. unfold run_async.
  destruct (runAsyncOne _ _) as [x did]. destruct (xr_err x); [done|]. destruct (succeeded _); by intros [= <- _].
Qed.

(** ** Properties *)
Section Properties.
Variable pick : schedule.
Variables worldID entityID : string.
Variable calls : list Call.
Notation Batched := (Run s lib out pick worldID entityID calls).

(** Without a technical error the model gets one result per call, in the order of the calls, each naming the call it
    answers, whichever calls failed or were skipped and in whatever order parallel calls finished. *)
Theorem Run_answers o tr : Batched = (o, None, tr) ->
  length (bo_Results o) = length calls /\ length (bo_Executions o) = length calls
  /\ forall i call, calls !! i = Some call -> exists r, bo_Results o !! i = Some r /\ answers r call.
Proof.
  unfold Run. destruct (run_batch s lib out pick worldID entityID calls) as [[o1 err] tr1] eqn:Hb. intros [= <- -> ->].
  destruct (run_batch_results _ _ _ _ _ _ Hb) as [Hl Hr]. destruct (run_batch_executions _ _ _ _ _ _ _ Hb) as [Hx _].
  unfold finalize. cbn. rewrite length_imap, length_fmap, length_imap. split_and!; [done|done|]. intros i call Hc.
  destruct (Hr i call Hc) as (r & Hat & Ha & _). rewrite list_lookup_imap, Hat. eexists. split; [done|]. unfold redact_result.
  destruct (imap _ _ !! i); [|done]. destruct (isTaskHistoryCall _ _); [by apply code_only_answers|done].
Qed.

(** A batch with a call that does not pass preflight runs nothing: every refused call gets its own refusal, every
    other one is skipped, and no tool, environment or callback is asked anything. *)
Theorem refused_batch_runs_nothing i call c : calls !! i = Some call -> preflight_one s lib worldID entityID calls i call = Err c ->
  exists o, Batched = (o, None, []) /\ bo_HasModelVisibleFailure o = true /\ bo_SuccessfulActions o = []
  /\ forall j call', calls !! j = Some call' -> exists r, bo_Results o !! j = Some r /\ answers r call'
      /\ match preflight_one s lib worldID entityID calls j call' with
         | Err (code, _) => tr_Status r = toolResultStatusInvalid /\ tr_Code r = code
         | Ok _ => tr_Status r = toolResultStatusSkipped
         end.
Proof.
  intros Hc Hp. destruct (preflight_some_refused _ _ _ _ _ _ Hc Hp) as [results Hpre]. unfold Run, run_batch. rewrite Hpre.
  eexists. split; [done|]. split_and!; [done|done|]. intros j call' Hj. apply preflight_refuses in Hpre as [_ Hat].
  specialize (Hat j call' Hj). unfold finalize. cbn. rewrite list_lookup_imap, Hat. eexists. split; [done|].
  assert (Hred : forall es (r : Result), redact_result s es j r = r \/ redact_result s es j r = code_only r).
  { intros es r. unfold redact_result. destruct (es !! j); [|by left]. destruct (isTaskHistoryCall _ _); [by right|by left]. }
  destruct (preflight_one _ _ _ _ _ j call') as [p|[code m]]; cbn; match goal with |- context [redact_result s ?es j ?r] => destruct (Hred es r) as [->| ->] end;
    done.
Qed.

(** C35: parallel groups are barriers: calls are launched in the order of the response, each at most once, and when a call
    is launched every earlier one belongs to the same stretch of parallel-safe calls or has finished with success; every
    launched call has finished when the batch returns. *)
Theorem batch_runs_in_order o err tr plan : Batched = (o, err, tr) -> preflight s lib worldID entityID calls = Ok plan ->
  launches tr `prefix_of` plan /\ dones tr ≡ₚ launches tr
  /\ forall tr1 b tr2, tr = tr1 ++ RLaunch b :: tr2 -> b ∈ plan
      /\ forall a, a ∈ plan -> pc_index a < pc_index b -> together plan a b \/ (a ∈ dones tr1 /\ success a).
Proof.
  unfold Run. destruct (run_batch s lib out pick worldID entityID calls) as [[o1 err1] tr1] eqn:Hb. intros [= <- <- <-] Hp.
  destruct (run_batch_orderly pick worldID entityID calls) as [(r & Hp' & _)|(plan' & Hp' & (H1 & H2 & _) & H3)]; [congruence|].
  rewrite Hb in *. cbn in *. assert (plan' = plan) as -> by congruence. by split_and!.
Qed.

(** No more than the configured number of calls (at least one) run at any time, and none is left running. *)
Theorem batch_parallelism_is_bounded o err tr : Batched = (o, err, tr) ->
  within (Z.to_nat (Z.max 1 (bs_maxParallelToolCalls s))) 0 tr /\ running 0 tr = 0.
Proof.
  unfold Run. destruct (run_batch s lib out pick worldID entityID calls) as [[o1 err1] tr1] eqn:Hb. intros [= <- <- <-].
  assert (Hlim : Z.to_nat (Z.max 1 (bs_maxParallelToolCalls s)) = parallel_limit s).
  { unfold parallel_limit. destruct (Z.leb_spec (bs_maxParallelToolCalls s) 0); lia. }
  rewrite Hlim. destruct (run_batch_orderly pick worldID entityID calls) as [(r & _ & Ht)|(plan' & _ & (_ & _ & H1 & H2) & _)]; rewrite Hb in *; cbn in *;
    [by rewrite Ht|done].
Qed.

(** A batch accounts for its calls one by one. *)
Lemma Run_accounts o err tr : executors_answer -> Batched = (o, err, tr) ->
  length (bo_Executions o) = length calls
  /\ forall i call, calls !! i = Some call -> exists e, bo_Executions o !! i = Some e
      /\ tc_ID (he_Call e) = tc_ID call /\ tc_Name (he_Call e) = tc_Name call
      /\ (is_Some (he_RuntimeResult e) \/ he_RuntimeError e <> "")
      /\ (he_Started e = true -> exists item, item ∈ dones tr /\ pc_index item = i)
      /\ (isTaskHistoryCall s (tc_Name call) = true -> tc_Arguments (he_Call e) = None /\ tc_RawArguments (he_Call e) = "").
Proof.
  unfold Run. intros Hex. destruct (run_batch s lib out pick worldID entityID calls) as [[o1 err1] tr1] eqn:Hb. intros [= <- <- <-].
  destruct (run_batch_executions _ _ _ _ _ _ _ Hb) as [Hl Hx]. unfold finalize. cbn. rewrite length_fmap, length_imap. split; [done|].
  intros i call Hc. destruct (Hx i call Hc) as (x & Hat & Hcall & Hd). rewrite list_lookup_fmap, list_lookup_imap, Hat. cbn.
  eexists. split; [done|]. destruct (settle_call (bo_Results o1) err1 i x) as [Hsc Hss].
  assert (Hrec : recorded (settle_execution (bo_Results o1) err1 i x)).
  { apply settle_recorded. destruct Hd as [->|[Hr _]]; [right|left; by apply Hr]. destruct err1 as [e|]; [right; split; [by eexists|done]|left].
    destruct (run_batch_results _ _ _ _ _ _ Hb) as [_ Hres]. destruct (Hres i call Hc) as (r & Hr & _ & Hs). exists r. auto. }
  pose proof (redact_recorded _ Hrec) as Hrec'. set (y := settle_execution _ _ _ _) in *.
  assert (Hy : he_Call y = call) by congruence.
  assert (Hst : he_Started y = true -> exists item, item ∈ dones tr1 /\ pc_index item = i).
  { rewrite Hss. destruct Hd as [->|[_ Hd]]; [done|by intros _]. }
  unfold redact_execution in *. rewrite Hy in *. destruct (isTaskHistoryCall s (tc_Name call)); cbn in *; split_and!; try done; by rewrite Hy.
Qed.
(** The history accounts for every call of a batch, also of one that a technical error ended: each has an
    execution with a result or an error, an execution that started belongs to a call that was run, and of the calls of
    the task tools the history keeps no arguments.  Runtime tools are assumed to give a call that did not fail a status. *)
Theorem history_accounts_for_every_call o err tr : executors_answer -> Batched = (o, err, tr) ->
  length (bo_Executions o) = length calls
  /\ forall i call, calls !! i = Some call -> exists e, bo_Executions o !! i = Some e
      /\ tc_ID (he_Call e) = tc_ID call /\ tc_Name (he_Call e) = tc_Name call
      /\ (is_Some (he_RuntimeResult e) \/ he_RuntimeError e <> "")
      /\ (he_Started e = true -> exists item, item ∈ dones tr /\ pc_index item = i)
      /\ (isTaskHistoryCall s (tc_Name call) = true -> tc_Arguments (he_Call e) = None /\ tc_RawArguments (he_Call e) = "").
Proof. apply Run_accounts. Qed.
End Properties.

(** C34: the order in which parallel calls finish does not show: when a batch ends without a technical error, under any
    other schedule it ends without one and with the same results, actions, executions and flags, after the same calls. *)
Theorem batch_schedule_does_not_show (pick pick' : schedule) worldID entityID calls o tr :
  Run s lib out pick worldID entityID calls = (o, None, tr) ->
  exists tr', Run s lib out pick' worldID entityID calls = (o, None, tr') /\ launches tr' ≡ₚ launches tr /\ dones tr' ≡ₚ dones tr.
Proof.
  unfold Run. destruct (run_batch s lib out pick worldID entityID calls) as [[o1 err1] tr1] eqn:Hb. intros [= <- -> ->].
  destruct (run_batch_cases pick worldID entityID calls) as [(results & Hp & Hr)|(plan & Hp & Hpl & Hr)].
  { unfold run_batch in Hb |- *. rewrite Hp in *. injection Hb as <- <-. by exists []. }
  unfold run_batch in *. rewrite Hp in *.
  assert (Hrun : forall o1 tr1, run pick (length plan) plan (new_outcome (replicate (length calls) zeroResult) calls) = (o1, None, tr1) ->
    exists tr', run pick' (length plan) plan (new_outcome (replicate (length calls) zeroResult) calls) = (o1, None, tr')
      /\ launches tr' ≡ₚ launches tr1 /\ dones tr' ≡ₚ dones tr1).
  { intros o2 tr2. apply (run_plan_schedule pick pick' _ 0); [done|apply Hpl|by apply run_room]. }
  destruct plan as [|item [|item2 rest]]; [|case_bool_decide; [by rewrite Hb; exists tr|]|];
    destruct (Hrun _ _ Hb) as (tr' & -> & H1 & H2); by exists tr'.
Qed.
End Facts.

(** ** A batch of three calls: two looks side by side, then a word *)
Definition batch_entry (parallel : bool) (k : Kind) : Entry :=
  {| en_InputSchema := "{}"; en_Kind := k; en_Concurrency := if parallel then ConcurrencyParallelSafe else ConcurrencySequential;
     en_Execution := ExecutionSync; en_Policy := {| ExclusivePerStep := false; SettleAfterSuccess := negb parallel |};
     en_Executor := match k with KindRuntime => Some TaskTools | _ => None end |}.
Definition batch_scheduler : toolBatchScheduler :=
  {| bs_view := fun name => if bool_decide (name = "look") then Some (batch_entry true KindEnvironment)
                            else if bool_decide (name = "create_task") then Some (batch_entry true KindRuntime)
                            else if bool_decide (name = "say") then Some (batch_entry false KindEnvironment) else None;
     bs_taskHistoryOwner := false; bs_maxParallelToolCalls := 2; bs_asyncActionLimitFull := false; bs_sourceEventID := "event";
     bs_sourceTurnID := "turn" |}.
Definition batch_library : batchLibrary (Value := string) :=
  {| quote := fun t => t; ValidateArguments := fun _ _ => None; NewStruct := fun v => Ok v; newActionID := fun i => FormatUint (N.of_nat i) |}.
Definition batch_result (status : string) : ToolResult (Value := string) := mkResult "" "" status "" "" None.
Definition batch_outside (status : string) : batchOutside (Value := string) :=
  {| bx_env := true; beforeEnvironmentAction := None; ExecuteRuntime := fun _ => (batch_result status, None);
     SubmitAction := fun item => (Some {| ar_Status := ACTION_STATUS_SUCCEEDED; ar_ErrorCode := ""; ar_ErrorMessage := "";
                                          ar_Output := Some (pc_ActionId item) |}, None);
     StartAction := fun _ => ((false, None), None); WaitActionResult := fun _ => (None, None) |}.
Definition batch_call (id name : string) : ToolCall (Value := string) := mkCall id name (Some "{}") "" "".
Definition batch_calls : list (ToolCall (Value := string)) := [batch_call "a" "look"; batch_call "b" "create_task"; batch_call "c" "say"].
Definition batch_first (active rest : list (plannedToolCall (Value := string))) : nat := 0.
Definition batch_last (active rest : list (plannedToolCall (Value := string))) : nat := length active - 1.
Definition batch_run (pick : list (plannedToolCall (Value := string)) -> list (plannedToolCall (Value := string)) -> nat) status calls :=
  Run batch_scheduler batch_library (batch_outside status) pick "world" "npc" calls.
Definition batch_ran : toolBatchOutcome (Value := string) * option error * list (run_event (Value := string)) := Eval vm_compute in batch_run batch_first "succeeded" batch_calls.
Lemma batch_runs : Run batch_scheduler batch_library (batch_outside "succeeded") batch_first "world" "npc" batch_calls
  = (batch_ran.1.1, None, batch_ran.2).
Proof. vm_cast_no_check (@eq_refl (toolBatchOutcome (Value := string) * option error * list (run_event (Value := string))) batch_ran). Qed.
Definition batch_plan : list (plannedToolCall (Value := string)) := Eval vm_compute in
  match preflight batch_scheduler batch_library "world" "npc" batch_calls with Ok plan => plan | Err _ => [] end.
Lemma batch_plans : preflight batch_scheduler batch_library "world" "npc" batch_calls = Ok batch_plan.
Proof. vm_cast_no_check (@eq_refl (outcome (list (ToolResult (Value := string))) (list (plannedToolCall (Value := string)))) (Ok batch_plan)). Qed.

Lemma refused_batch_runs_nothing_witness : exists o, batch_run batch_first "succeeded" [batch_call "a" "look"; batch_call "b" "unknown"] = (o, None, [])
  /\ bo_HasModelVisibleFailure o = true.
Proof.
  destruct (refused_batch_runs_nothing batch_scheduler batch_library (batch_outside "succeeded") batch_first "world" "npc"
    [batch_call "a" "look"; batch_call "b" "unknown"] 1 (batch_call "b" "unknown") _ eq_refl eq_refl) as (o & H & Hf & _).
  exists o. split; [exact H|exact Hf].
Defined.
Lemma batch_runs_in_order_witness : launches batch_ran.2 = batch_plan /\ launches batch_ran.2 `prefix_of` batch_plan.
Proof.
  split; [reflexivity|].
  exact (proj1 (batch_runs_in_order batch_scheduler batch_library (batch_outside "succeeded") batch_first "world" "npc" batch_calls
    batch_ran.1.1 None batch_ran.2 batch_plan batch_runs batch_plans)).
Defined.
Lemma batch_parallelism_is_bounded_witness : within 2 0 batch_ran.2 /\ ~ within 1 0 batch_ran.2.
Proof.
  split; [|cbn; lia].
  exact (proj1 (batch_parallelism_is_bounded batch_scheduler batch_library (batch_outside "succeeded") batch_first "world" "npc" batch_calls
    batch_ran.1.1 None batch_ran.2 batch_runs)).
Defined.
Lemma history_accounts_for_every_call_witness : length (bo_Executions batch_ran.1.1) = 3
  /\ (tc_Arguments ∘ he_Call) <$> bo_Executions batch_ran.1.1 = [Some "{}"; None; Some "{}"]%string.
Proof.
  split; [|reflexivity].
  exact (proj1 (history_accounts_for_every_call batch_scheduler batch_library (batch_outside "succeeded") batch_first "world" "npc" batch_calls
    batch_ran.1.1 None batch_ran.2 ltac:(intros item r [= <-]; done) batch_runs)).
Defined.
Lemma batch_schedule_does_not_show_witness : exists tr', batch_run batch_last "succeeded" batch_calls = (batch_ran.1.1, None, tr')
  /\ pc_index <$> dones batch_ran.2 = [0; 1; 2] /\ dones tr' ≡ₚ dones batch_ran.2.
Proof.
  destruct (batch_schedule_does_not_show batch_scheduler batch_library (batch_outside "succeeded") batch_first batch_last "world" "npc"
    batch_calls batch_ran.1.1 batch_ran.2 batch_runs) as (tr' & H & _ & Hd).
  exists tr'. split; [exact H|]. split; [reflexivity|exact Hd].
Defined.
