(* ===== verification/Turn.v ===== *)
(** * A turn of the agent: [runtime/internal/agent/loop.go]

    [handleTurn] observes, and [runBoundedSteps] then alternates model calls and tool
    batches until the model settles, something fails or a bound is reached; the
    collector of [turn_history.go] records the turn and [history_terminal.go] stores it.

    A turn is a program over its local variables that writes a trace of what it asks of
    its outside and may return early.  What is outside at a step answers as [at_step]
    says; so do the parts of the runtime that are not modelled (the prompt builder, the
    task context's snapshot and its check whether the task stopped, memory). *)

From S2P Require Export Batch.

Local Open Scope go_scope.

(** ** Data of the packages [protocol], [model], [memory] *)
Record GameTime := {
  gt_Year : option Z; gt_Season : option Z; gt_Day : option Z; gt_Hour : option Z; gt_Minute : option Z; gt_Tick : option Z
}.
Record GameTimeSnapshot := {
  gs_Year : Z; gs_Season : Z; gs_Day : Z; gs_Hour : Z; gs_Minute : Z; gs_Tick : Z; gs_PresentFields : Z
}.
Definition SnapshotGameTime (value : option GameTime) : option GameTimeSnapshot :=
  match value with
  | None => None
  | Some t =>
    let present := [gt_Year t; gt_Season t; gt_Day t; gt_Hour t; gt_Minute t; gt_Tick t] in
    let fields := foldl Z.lor 0%Z (imap (fun i field => match field with Some _ => Z.shiftl 1 (Z.of_nat i) | None => 0%Z end) present) in
    if fields == 0%Z then None else
    let get := default 0%Z in
    Some {| gs_Year := get (gt_Year t); gs_Season := get (gt_Season t); gs_Day := get (gt_Day t); gs_Hour := get (gt_Hour t);
            gs_Minute := get (gt_Minute t); gs_Tick := get (gt_Tick t); gs_PresentFields := fields |}
  end.

Inductive ControlKind := ControlContinue | ControlSettle | ControlOther (text : string).
#[export] Instance ControlKind_eq_dec : EqDecision ControlKind. Proof. solve_decision. Defined.
Inductive ProjectionKind := ProjectionKindSettledTurn | ProjectionKindPriorSuccessfulActions.
#[export] Instance ProjectionKind_eq_dec : EqDecision ProjectionKind. Proof. solve_decision. Defined.
Inductive TurnCompletionStatus := TURN_COMPLETION_STATUS_COMPLETED | TURN_COMPLETION_STATUS_FAILED.
Record TurnCompletion := {
  cp_TurnId : string; cp_EventId : string; cp_WorldId : string; cp_EntityId : string; cp_Status : TurnCompletionStatus;
  cp_Error : option (string * string)
}.
Record HistoryTerminal := { ht_Status : string; ht_Stage : string; ht_Reason : string; ht_Error : string }.
Record HistoryObservation := { ho_Step : Z; ho_Revision : N; ho_GameTime : option GameTimeSnapshot }.

(** [strings.Contains] *)
Fixpoint Contains_at (fuel : nat) (t sub : string) : bool :=
  String.prefix sub t || match fuel, t with S fuel, String _ t => Contains_at fuel t sub | _, _ => false end.
Definition Contains (t sub : string) : bool := Contains_at (String.length t) t sub.

(** [tool.SanitizeTaskError]: a closed code and no payload.  [As_execution] is [errors.As] for
    an error that was sanitized before. *)
Definition SanitizeTaskError (As_execution : error -> option error) (err : error) : error :=
  if Is_canceled err then Opaque "task_cancelled" (Some Canceled)
  else if Is_deadline err then Opaque "task_timeout" (Some DeadlineExceeded)
  else match As_task err with
       | Some (code, _, _) => if Code_Valid code then Opaque (Code_string code) None
                              else default (Opaque "task_execution_failed" None) (As_execution err)
       | None => default (Opaque "task_execution_failed" None) (As_execution err)
       end.

(** The turn's configuration. *)
Record turnConfig := {
  MaxSteps : Z; MaxToolCallsPerStep : Z; MaxToolCallsPerTurn : Z; MaxAsyncActionsPerTurn : Z; MaxParallelToolCalls : Z;
  MemoryEnabled : bool; has_historyStore : bool; has_memory : bool; KnowledgeEnabled : bool; has_knowledge : bool
}.

Section Turn.
Context {Value : Type} {Request : Type}.
Notation ToolCall := (ToolCall (Value := Value)).
Notation ToolResult := (ToolResult (Value := Value)).
Notation HistoryExecution := (HistoryExecution (Value := Value)).
Notation completedToolAction := (completedToolAction (Value := Value)).
Notation toolBatchOutcome := (toolBatchOutcome (Value := Value)).

Record ContextFact := {
  cf_Kind : string; cf_ActorEntityId : string; cf_TargetEntityId : string; cf_ScopeId : string; cf_Text : string; cf_Label : string;
  cf_Attributes : option Value
}.
(** Fields of a nil event are zero. *)
Record GameEvent := {
  ge_EventId : string; ge_EventType : string; ge_Sequence : N; ge_GameTime : option GameTime; ge_ContextFacts : list (option ContextFact)
}.
Definition nil_event : GameEvent :=
  {| ge_EventId := ""; ge_EventType := ""; ge_Sequence := 0; ge_GameTime := None; ge_ContextFacts := [] |}.
Record Observation := { ob_Revision : N; ob_GameTime : option GameTime; ob_Body : Value }.

Record ControlDirective := { cd_Kind : ControlKind; cd_Reason : string }.
Record ModelDecision := mkDecision { md_ToolCalls : list ToolCall; md_Control : ControlDirective }.
Record Response := { rp_Decision : ModelDecision; rp_ReasoningContent : string }.
Inductive Message :=
| AssistantCalls (calls : list ToolCall) (reasoning : string)
| ToolAnswers (results : list ToolResult).

Record HistoryEvent := { he_ID : string; he_Type : string; he_Sequence : N; he_GameTime : option GameTimeSnapshot; he_Facts : list ContextFact }.
Record HistoryStep := mkStep { hs_Index : Z; hs_Decision : ModelDecision; hs_Executions : list HistoryExecution }.
Record HistoryBatch := mkBatch {
  hb_Owner : AgentSessionKey; hb_Kind : string; hb_Version : Z; hb_TurnID : string; hb_Event : HistoryEvent;
  hb_Observations : list HistoryObservation; hb_Steps : list HistoryStep; hb_Terminal : HistoryTerminal
}.

(** ** The collector: [turn_history.go] *)
Definition zeroTerminal : HistoryTerminal := {| ht_Status := ""; ht_Stage := ""; ht_Reason := ""; ht_Error := "" |}.
Definition zeroDecision : ModelDecision := mkDecision [] {| cd_Kind := ControlOther ""; cd_Reason := "" |}.
Definition newTurnHistoryCollector (key : AgentSessionKey) (turnID : string) (event : GameEvent) : HistoryBatch :=
  mkBatch key "terminal_turn" 1 turnID
    {| he_ID := ge_EventId event; he_Type := ge_EventType event; he_Sequence := ge_Sequence event;
       he_GameTime := SnapshotGameTime (ge_GameTime event); he_Facts := omap id (ge_ContextFacts event) |} [] [] zeroTerminal.
Definition with_event (id type : string) (b : HistoryBatch) : HistoryBatch :=
  let e := hb_Event b in
  mkBatch (hb_Owner b) (hb_Kind b) (hb_Version b) (hb_TurnID b)
    {| he_ID := id; he_Type := type; he_Sequence := he_Sequence e; he_GameTime := he_GameTime e; he_Facts := he_Facts e |}
    (hb_Observations b) (hb_Steps b) (hb_Terminal b).
Definition with_steps (f : list HistoryStep -> list HistoryStep) (b : HistoryBatch) : HistoryBatch :=
  mkBatch (hb_Owner b) (hb_Kind b) (hb_Version b) (hb_TurnID b) (hb_Event b) (hb_Observations b) (f (hb_Steps b)) (hb_Terminal b).
Definition collect_Observe (step : Z) (obs : option Observation) (b : HistoryBatch) : HistoryBatch :=
  match obs with
  | None => b
  | Some o =>
    mkBatch (hb_Owner b) (hb_Kind b) (hb_Version b) (hb_TurnID b) (hb_Event b)
      (hb_Observations b ++ [{| ho_Step := step; ho_Revision := ob_Revision o; ho_GameTime := SnapshotGameTime (ob_GameTime o) |}])
      (hb_Steps b) (hb_Terminal b)
  end.
(** [c.step(index)], which the callers then change through the pointer: [f] on the first
    step of that index, appended when there is none. *)
Fixpoint at_index (index : Z) (f : HistoryStep -> HistoryStep) (steps : list HistoryStep) : list HistoryStep :=
  match steps with
  | [] => [f (mkStep index zeroDecision [])]
  | s :: steps => if hs_Index s == index then f s :: steps else s :: at_index index f steps
  end.
Definition collect_Decision (step : Z) (decision : ModelDecision) : HistoryBatch -> HistoryBatch :=
  with_steps (at_index step (fun s => mkStep (hs_Index s) decision (hs_Executions s))).
Definition collect_Executions (step : Z) (executions : list HistoryExecution) (b : HistoryBatch) : HistoryBatch :=
  match executions with
  | [] => b
  | _ => with_steps (at_index step (fun s => mkStep (hs_Index s) (hs_Decision s) (hs_Executions s ++ executions))) b
  end.
(** [slices.SortStableFunc], [slices.SortFunc] by a key: [insert_slice] puts an element
    before its equals, and the fold meets the list from its end, so the sort is stable. *)
Definition by_key {A} (key : A -> Z) (a b : A) : bool := (key a <? key b)%Z.
Definition Finish (status stage reason : string) (err : option error) (b : HistoryBatch) : HistoryBatch :=
  mkBatch (hb_Owner b) (hb_Kind b) (hb_Version b) (hb_TurnID b) (hb_Event b)
    (sort_slice (by_key ho_Step) (hb_Observations b)) (sort_slice (by_key hs_Index) (hb_Steps b))
    {| ht_Status := status; ht_Stage := stage; ht_Reason := reason;
       ht_Error := match err with
                   | None => ""
                   | Some e => if Is_canceled e then Error_text Canceled else if Is_deadline e then Error_text DeadlineExceeded
                               else if reason == "" then "turn failed" else reason
                   end |}.

(** ** The outside *)
Record turnView := { tv_Lookup : string -> option Entry; tv_RuntimeContext : bool; tv_ObservedTask : bool }.
(** The library functions of the scheduler, how errors of other packages answer
    [errors.Is] and [errors.As], and [result.Output["proposal_ref"] = ref]. *)
Record turnLibrary := {
  tl_quote : string -> string; Is_quota : error -> bool; Is_busy : error -> bool; Is_invalid_json : error -> bool; Is_truncated : error -> bool;
  Is_over_budget : error -> bool; Is_invalid_input : error -> bool; FailureReason : error -> option string;
  As_execution : error -> option error; put_proposal_ref : option Value -> string -> Value
}.
(** What a step meets: the turn's context when it looks at it; the task context; the
    prompt; the model; the scheduler's library, outside and schedule; the registrar of
    task actions, if the environment is one; the proposals; the release; what the
    environment observes after an action. *)
Record stepOutside := {
  so_ctx : option error; so_ctx_model : option error;
  so_stopped : bool * option error; so_stopped_after : bool * option error; so_snapshot : outcome error turnView;
  so_build : turnView -> list Message -> option Observation -> outcome error Request; so_generate : Request -> outcome error Response;
  so_lib : batchLibrary (Value := Value); so_batch : batchOutside (Value := Value);
  so_pick : list (plannedToolCall (Value := Value)) -> list (plannedToolCall (Value := Value)) -> nat;
  so_register : option (plannedToolCall (Value := Value) -> option error);
  so_capture : completedToolAction -> string * option error;
  so_releaser : bool; so_release : option error; so_observe : outcome error (option Observation)
}.
(** How a turn's end is received: whether its context is done by then, and whether
    history, the environment and memory take what they are given. *)
Record turnEnd := { te_ctx_done : bool; te_append : option error; te_send : option error; te_project : option error }.
(** A task context: of a wake (with its id) or of a player's turn. *)
Record taskTurn := { tt_background : bool; tt_WakeID : string }.

Variable lib : turnLibrary.
Variable config : turnConfig.
Variable at_step : Z -> stepOutside.
Variable ending : turnEnd.
Variable key : AgentSessionKey.
Variable turnID : string.
Variable event : option GameEvent.
Variable task : option taskTurn.
Notation the_event := (default nil_event event).

(** ** The program of a turn *)
Inductive turn_event :=
| TTrace (name : string)
| TObserve (step : Z)
| TGenerate (step : Z) (transcript : list Message) (request : Request)
| TBatch (step : Z) (calls : list ToolCall) (tr : list (run_event (Value := Value)))
| TRelease
| TMemory (kind : ProjectionKind) (outcomes : list completedToolAction)
| THistory (batch : HistoryBatch)
| TCompletion (completion : TurnCompletion)
| TCompleted | TFailed (stage reason : string).

Record turnState := mkTurn {
  ts_transcript : list Message; ts_actions : list completedToolAction; ts_totalToolCalls : Z; ts_async : Z; ts_seen : gset string;
  ts_correctionUsed : bool; ts_correctionPending : bool; ts_view : turnView; ts_obs : option Observation; ts_collector : HistoryBatch;
  ts_finished : bool
}.
(** A statement runs on, or returns from the function with its error. *)
Definition Turn (A : Type) : Type := turnState -> (option error + A) * turnState * list turn_event.
#[export] Instance Turn_ret : MRet Turn := fun A a st => (inr a, st, []).
#[export] Instance Turn_bind : MBind Turn := fun A B f m st =>
  match m st with
  | (inl err, st, tr) => (inl err, st, tr)
  | (inr a, st, tr) => let '(r, st', tr') := f a st in (r, st', tr ++ tr')
  end.
Definition emit (e : turn_event) : Turn unit := fun st => (inr tt, st, [e]).
Definition trace (name : string) : Turn unit := emit (TTrace name).
Definition read {A} (f : turnState -> A) : Turn A := fun st => (inr (f st), st, []).
Definition write (f : turnState -> turnState) : Turn unit := fun st => (inr tt, f st, []).
Definition leave {A} (err : option error) : Turn A := fun st => (inl err, st, []).
Definition when (b : bool) (m : Turn unit) : Turn unit := if b then m else mret tt.

Definition with_collector (f : HistoryBatch -> HistoryBatch) (st : turnState) : turnState :=
  mkTurn (ts_transcript st) (ts_actions st) (ts_totalToolCalls st) (ts_async st) (ts_seen st) (ts_correctionUsed st)
    (ts_correctionPending st) (ts_view st) (ts_obs st) (f (ts_collector st)) (ts_finished st).
Definition set_finished (st : turnState) : turnState :=
  mkTurn (ts_transcript st) (ts_actions st) (ts_totalToolCalls st) (ts_async st) (ts_seen st) (ts_correctionUsed st)
    (ts_correctionPending st) (ts_view st) (ts_obs st) (ts_collector st) true.
Definition set_view (v : turnView) (st : turnState) : turnState :=
  mkTurn (ts_transcript st) (ts_actions st) (ts_totalToolCalls st) (ts_async st) (ts_seen st) (ts_correctionUsed st)
    (ts_correctionPending st) v (ts_obs st) (ts_collector st) (ts_finished st).
Definition set_obs (o : option Observation) (st : turnState) : turnState :=
  mkTurn (ts_transcript st) (ts_actions st) (ts_totalToolCalls st) (ts_async st) (ts_seen st) (ts_correctionUsed st)
    (ts_correctionPending st) (ts_view st) o (ts_collector st) (ts_finished st).
Definition add_message (m : Message) (st : turnState) : turnState :=
  mkTurn (ts_transcript st ++ [m]) (ts_actions st) (ts_totalToolCalls st) (ts_async st) (ts_seen st) (ts_correctionUsed st)
    (ts_correctionPending st) (ts_view st) (ts_obs st) (ts_collector st) (ts_finished st).
Definition add_actions (l : list completedToolAction) (st : turnState) : turnState :=
  mkTurn (ts_transcript st) (ts_actions st ++ l) (ts_totalToolCalls st) (ts_async st) (ts_seen st) (ts_correctionUsed st)
    (ts_correctionPending st) (ts_view st) (ts_obs st) (ts_collector st) (ts_finished st).
Definition count_calls (n : Z) (seen : gset string) (st : turnState) : turnState :=
  mkTurn (ts_transcript st) (ts_actions st) (ts_totalToolCalls st + n) (ts_async st) seen (ts_correctionUsed st)
    (ts_correctionPending st) (ts_view st) (ts_obs st) (ts_collector st) (ts_finished st).
Definition count_async (st : turnState) : turnState :=
  mkTurn (ts_transcript st) (ts_actions st) (ts_totalToolCalls st) (ts_async st + 1) (ts_seen st) (ts_correctionUsed st)
    (ts_correctionPending st) (ts_view st) (ts_obs st) (ts_collector st) (ts_finished st).
Definition set_correction (used pending : bool) (st : turnState) : turnState :=
  mkTurn (ts_transcript st) (ts_actions st) (ts_totalToolCalls st) (ts_async st) (ts_seen st) used
    pending (ts_view st) (ts_obs st) (ts_collector st) (ts_finished st).

(** *** The end of a turn *)
Definition persistTerminalHistory (status stage reason : string) (cause : option error) : Turn unit :=
  finished ← read ts_finished;
  if (finished : bool) || ! has_historyStore config || ! MemoryEnabled config then mret tt else
  _ ← write set_finished;
  batch ← read (fun st => Finish status stage reason cause (ts_collector st));
  _ ← emit (THistory batch);
  trace (match te_append ending with Some _ => "context_update_failed" | None => "context_updated" end).
Definition turnCompletionError (reason : string) (err : error) : string * string := (reason, Error_text err).
Definition sendTurnCompletion (status : TurnCompletionStatus) (detail : option (string * string)) : Turn unit :=
  _ ← emit (TCompletion {| cp_TurnId := turnID; cp_EventId := ge_EventId the_event; cp_WorldId := WorldID key; cp_EntityId := EntityID key;
                           cp_Status := status; cp_Error := detail |});
  trace (match te_send ending with Some _ => "turn_completion_send_failed" | None => "turn_completion_sent" end).
Definition completeTurn : Turn unit :=
  _ ← persistTerminalHistory "completed" "" "" None;
  _ ← sendTurnCompletion TURN_COMPLETION_STATUS_COMPLETED None;
  emit TCompleted.
Definition failTurn (stage reason : string) (err : error) : Turn unit :=
  let status := if Is_canceled err || (Is_deadline err && te_ctx_done ending) then "cancelled" else "failed" in
  _ ← persistTerminalHistory status stage reason (Some err);
  _ ← sendTurnCompletion TURN_COMPLETION_STATUS_FAILED (Some (turnCompletionError reason err));
  emit (TFailed stage reason).
Definition complete_return : Turn unit := _ ← completeTurn; leave None.
Definition fail_return {A} (stage reason : string) (err : error) : Turn A := _ ← failTurn stage reason err; leave (Some err).

Definition action_succeeded (a : completedToolAction) : bool :=
  match ca_ActionResult a with
  | Some r => match ar_Status r with ACTION_STATUS_SUCCEEDED => true | _ => false end
  | None => false
  end.
Definition hasContextFacts : bool := match event with Some e => (0 <? length (ge_ContextFacts e))%nat | None => false end.
Definition updateMemoryForCompletedTurn (kind : ProjectionKind) : Turn unit :=
  if has_historyStore config || ! MemoryEnabled config || ! has_memory config then mret tt else
  outcomes ← read (fun st => List.filter action_succeeded (ts_actions st));
  if (length outcomes =? 0)%nat && ((kind != ProjectionKindSettledTurn) || ! hasContextFacts) then mret tt else
  _ ← emit (TMemory kind outcomes);
  trace (match te_project ending with Some _ => "context_update_failed" | None => "context_updated" end).

(** *** Reasons *)
Definition contextFailureReason (err : error) : string :=
  if Is_over_budget lib err then "required_context_over_budget"
  else if Is_invalid_input lib err then "context_build_failed" else "context_render_failed".
Definition observationFailureReason (err : error) : string :=
  if Is_deadline err then "observe_timeout" else default "observation_failed" (FailureReason lib err).
Definition actionFailureReason (err : error) : string :=
  if Is_deadline err then "action_timeout"
  else if Contains (Error_text err) "non_terminal_action_status" then "non_terminal_action_status" else "submit_action_failed".
Definition modelFailureReason (err : error) : string :=
  if Is_quota lib err then "quota_exceeded" else if Is_busy lib err then "model_service_busy"
  else if Is_deadline err then "provider_timeout" else if Is_invalid_json lib err then "model_response_invalid_json"
  else if Is_truncated lib err then "model_response_truncated" else "provider_failed".
Definition errInvalidModelDecision (text : string) : error :=
  Opaque ("invalid model response: " ++ text) (Some (Opaque "invalid model response" None)).
Definition validateControlDirective (control : ControlDirective) : option error :=
  match cd_Kind control with
  | ControlSettle | ControlContinue => None
  | ControlOther _ => Some (errInvalidModelDecision "control is unspecified")
  end.

(** *** Tool call ids *)
Fixpoint duplicate_from (seen : gset string) (calls : list ToolCall) : option string :=
  match calls with
  | [] => None
  | call :: calls =>
    let id := TrimSpace (tc_ID call) in
    if id == "" then duplicate_from seen calls else if bool_decide (id ∈ seen) then Some id else duplicate_from ({[id]} ∪ seen) calls
  end.
Definition duplicateToolCallIDWithinStep (calls : list ToolCall) : option string := duplicate_from ∅ calls.
Definition reused (seen : gset string) (call : ToolCall) : bool :=
  (TrimSpace (tc_ID call) != "") && bool_decide (TrimSpace (tc_ID call) ∈ seen).
Definition validateToolCallIDsAcrossSteps (calls : list ToolCall) (seen : gset string) : option (list ToolResult) :=
  if existsb (reused seen) calls
  then Some ((fun call => if reused seen call then invalidToolResult call "duplicate_tool_call_id" "duplicate tool call id"
                          else skippedToolResult call "batch_validation_failed" "batch validation failed") <$> calls)
  else None.
Definition rememberToolCallIDs (calls : list ToolCall) (seen : gset string) : gset string :=
  foldl (fun seen call => let id := TrimSpace (tc_ID call) in if id == "" then seen else {[id]} ∪ seen) seen calls.

(** *** A step *)
Definition background : bool := match task with Some t => tt_background t | None => false end.
(** The scheduler of a step, as far as it does not depend on the actions started. *)
Definition newToolBatchScheduler (view : turnView) (asyncActionLimitFull : bool) : toolBatchScheduler :=
  {| bs_view := tv_Lookup view; bs_taskHistoryOwner := bool_decide (is_Some task); bs_maxParallelToolCalls := MaxParallelToolCalls config;
     bs_asyncActionLimitFull := asyncActionLimitFull;
     bs_sourceEventID := match task with
                         | Some t => if tt_background t then tt_WakeID t else ge_EventId the_event
                         | None => ge_EventId the_event
                         end;
     bs_sourceTurnID := turnID |}.
Definition redactTaskCalls (view : turnView) (calls : list ToolCall) : list ToolCall :=
  (fun call => if isTaskHistoryCall (newToolBatchScheduler view false) (tc_Name call)
               then mkCall (tc_ID call) (tc_Name call) None "" (tc_ArgumentsError call) else call) <$> calls.
(** [taskContext.beforeAction], in background turns only. *)
Definition beforeAction (step : Z) (view : turnView) (call : plannedToolCall (Value := Value)) : option error :=
  match so_register (at_step step) with
  | Some register => if tv_RuntimeContext view then register call else Some ErrWorldNotReady
  | None => Some ErrWorldNotReady
  end.
Definition calls_outside (step : Z) (view : turnView) : batchOutside (Value := Value) :=
  let o := so_batch (at_step step) in
  {| bx_env := bx_env o; beforeEnvironmentAction := if background then Some (beforeAction step view) else None;
     ExecuteRuntime := ExecuteRuntime o; SubmitAction := SubmitAction o; StartAction := StartAction o; WaitActionResult := WaitActionResult o |}.

Definition add_proposal_ref (ref : string) (id : string) (r : ToolResult) : ToolResult :=
  if tr_ToolCallID r == id
  then mkResult (tr_ToolCallID r) (tr_Name r) (tr_Status r) (tr_Code r) (tr_Message r) (Some (put_proposal_ref lib (tr_Output r) ref)) else r.
Fixpoint captureProposals (capture : completedToolAction -> string * option error) (actions : list completedToolAction)
    (results : list ToolResult) : outcome error (list ToolResult) :=
  match actions with
  | [] => Ok results
  | action :: actions =>
    match capture action with
    | (_, Some e) => Err (SanitizeTaskError (As_execution lib) e)
    | (ref, None) =>
      captureProposals capture actions
        (if ref == "" then results else add_proposal_ref ref (tc_ID (ca_ToolCall action)) <$> results)
    end
  end.
Definition releases (step : Z) (view : turnView) (calls : list ToolCall) : bool :=
  tv_RuntimeContext view && tv_ObservedTask view && so_releaser (at_step step)
  && existsb (fun call => match tv_Lookup view (tc_Name call) with Some entry => en_Executor entry == Some TaskTools | None => false end) calls.
Definition with_results (results : list ToolResult) (o : toolBatchOutcome) : toolBatchOutcome :=
  mkOutcome results (bo_SuccessfulActions o) (bo_Executions o) (bo_HasModelVisibleFailure o) (bo_SettleAfterSuccess o) (bo_AsyncActionStarted o).

(** [taskContext.stopped], and what the loop makes of it. *)
Definition check_stopped (answer : bool * option error) : Turn unit :=
  if ! background then mret tt else
  match answer with
  | (_, Some err) => fail_return "task" "task_evidence_failed" err
  | (true, None) => complete_return
  | (false, None) => mret tt
  end.
(** The scheduler's run, then the proposals and the release of a task turn. *)
Definition run_calls (step : Z) (calls : list ToolCall) : Turn (toolBatchOutcome * option error) :=
  let o := at_step step in
  view ← read ts_view;
  asyncActionsStarted ← read ts_async;
  let scheduler := newToolBatchScheduler view (MaxAsyncActionsPerTurn config <=? asyncActionsStarted)%Z in
  let '(outcome, err, tr) := Run scheduler (so_lib o) (calls_outside step view) (so_pick o) (WorldID key) (EntityID key) calls in
  _ ← emit (TBatch step calls tr);
  match err, task with
  | None, Some _ =>
    match captureProposals (so_capture o) (bo_SuccessfulActions outcome) (bo_Results outcome) with
    | Err e => mret (outcome, Some e)
    | Ok results =>
      let outcome := with_results results outcome in
      if ! releases step view calls then mret (outcome, None) else
      _ ← emit TRelease; mret (outcome, so_release o)
    end
  | _, _ => mret (outcome, err)
  end.

(** What the step asks of its context and of the model: the response. *)
Definition ask_model (step : Z) : Turn Response :=
  let o := at_step step in
  _ ← trace "agent_step_started";
  _ ← match so_ctx o with Some err => fail_return "turn" "turn_cancelled" err | None => mret tt end;
  _ ← match task with
      | None => mret tt
      | Some _ =>
        _ ← check_stopped (so_stopped o);
        match so_snapshot o with
        | Err err => fail_return "context" "task_context_failed" err
        | Ok view =>
          _ ← write (set_view view);
          when (tv_RuntimeContext view && tv_ObservedTask view) (trace "task_context_prepared")
        end
      end;
  view ← read ts_view; transcript ← read ts_transcript; obs ← read ts_obs;
  request ← match so_build o view transcript obs with
            | Err err =>
              _ ← trace "context_request_build_failed"; _ ← trace "agent_step_failed";
              fail_return "context" (contextFailureReason err) err
            | Ok request => mret request
            end;
  _ ← trace "context_request_built";
  _ ← trace "model_request_started";
  _ ← match so_ctx_model o with Some err => fail_return "turn" "turn_cancelled" err | None => mret tt end;
  _ ← emit (TGenerate step transcript request);
  match so_generate o request with
  | Err err => _ ← trace "agent_step_failed"; fail_return "model" (modelFailureReason err) err
  | Ok rep => _ ← trace "model_response_received"; mret rep
  end.

(** The response without tool calls: the end of the turn. *)
Definition no_calls (control : ControlDirective) : Turn unit :=
  pending ← read ts_correctionPending;
  if (pending : bool) then
    _ ← updateMemoryForCompletedTurn ProjectionKindPriorSuccessfulActions;
    fail_return "model" "tool_argument_correction_failed" (Opaque "tool argument correction failed: no corrected tool call was returned" None)
  else if cd_Kind control == ControlSettle then
    _ ← trace "turn_settled"; _ ← trace "agent_step_completed";
    _ ← updateMemoryForCompletedTurn ProjectionKindSettledTurn;
    complete_return
  else
    _ ← trace "agent_step_failed";
    fail_return "model" "invalid_model_response" (errInvalidModelDecision "continue control requires tool calls").

(** The response is recorded and its calls are admitted: those to run. *)
Definition admit_calls (step : Z) (rep : Response) : Turn (list ToolCall) :=
  let decision := rp_Decision rep in
  let calls := md_ToolCalls decision in
  view ← read ts_view;
  _ ← write (with_collector (collect_Decision step (mkDecision (redactTaskCalls view calls) (md_Control decision))));
  _ ← match validateControlDirective (md_Control decision) with
      | Some err => _ ← trace "agent_step_failed"; fail_return "model" "invalid_model_response" err
      | None => mret tt
      end;
  _ ← when (length calls =? 0)%nat (no_calls (md_Control decision));
  total ← read ts_totalToolCalls;
  let n := Z.of_nat (length calls) in
  _ ← when (MaxToolCallsPerStep config <? n)%Z
        (_ ← trace "agent_step_failed";
         fail_return "model" "max_tool_calls_per_step_exceeded"
           (Opaque ("max tool calls per step exceeded: got " ++ FormatInt n ++ ", max " ++ FormatInt (MaxToolCallsPerStep config)) None));
  _ ← when (MaxToolCallsPerTurn config <? total + n)%Z
        (_ ← trace "agent_step_failed";
         fail_return "step" "max_tool_calls_per_turn_exceeded"
           (Opaque ("max tool calls per turn exceeded: got " ++ FormatInt (total + n) ++ ", max " ++ FormatInt (MaxToolCallsPerTurn config)) None));
  _ ← match duplicateToolCallIDWithinStep calls with
      | Some id => _ ← trace "agent_step_failed";
                   fail_return "model" "invalid_model_response" (errInvalidModelDecision ("duplicate tool call id " ++ tl_quote lib id))
      | None => mret tt
      end;
  mret calls.

(** Calls with an id of an earlier step are answered without running the batch. *)
Definition answer_reused (step : Z) (calls : list ToolCall) (results : list ToolResult) : Turn unit :=
  view ← read ts_view;
  let executions := zip_with (fun call r => with_RuntimeResult (Some r) (new_execution call)) (redactTaskCalls view calls) results in
  _ ← write (with_collector (collect_Executions step executions));
  _ ← write (add_message (ToolAnswers results));
  pending ← read ts_correctionPending;
  if (pending : bool) then
    _ ← updateMemoryForCompletedTurn ProjectionKindPriorSuccessfulActions;
    fail_return "model" "tool_argument_correction_failed" (Opaque "tool argument correction failed: tool call id was reused" None)
  else
    _ ← trace "tool_batch_failed"; trace "agent_step_failed".
(** One correction of arguments per turn. *)
Definition correct_arguments (results : list ToolResult) : Turn unit :=
  pending ← read ts_correctionPending; used ← read ts_correctionUsed;
  if hasToolArgumentFailure results || ((pending : bool) && hasInvalidToolResult results) then
    _ ← when used
          (_ ← updateMemoryForCompletedTurn ProjectionKindPriorSuccessfulActions;
           fail_return "model" "tool_argument_correction_failed"
             (Opaque "tool argument correction failed: corrected tool call is invalid" None));
    write (set_correction true true)
  else write (set_correction used false).
(** After an asynchronous action the environment is observed again. *)
Definition resume_step (step : Z) (outcome : toolBatchOutcome) : Turn unit :=
  when (bo_AsyncActionStarted outcome)
    (_ ← write count_async;
     _ ← trace "observation_requested";
     _ ← emit (TObserve step);
     match so_observe (at_step step) with
     | Err err =>
       _ ← updateMemoryForCompletedTurn ProjectionKindPriorSuccessfulActions;
       _ ← trace "agent_step_failed";
       fail_return "observation" (observationFailureReason err) err
     | Ok obs =>
       _ ← write (set_obs obs);
       _ ← write (with_collector (collect_Observe step obs));
       trace "observation_received"
     end).
(** The step is over, and maybe the turn. *)
Definition settle_step (control : ControlDirective) (outcome : toolBatchOutcome) : Turn unit :=
  if bo_HasModelVisibleFailure outcome then _ ← trace "tool_batch_failed"; trace "agent_step_failed" else
  _ ← trace "tool_batch_completed"; _ ← trace "agent_step_completed";
  if bo_AsyncActionStarted outcome then mret tt else
  when ((cd_Kind control == ControlSettle) || bo_SettleAfterSuccess outcome)
    (_ ← trace "turn_settled"; _ ← updateMemoryForCompletedTurn ProjectionKindSettledTurn; complete_return).
Definition run_step (step : Z) (control : ControlDirective) (calls : list ToolCall) : Turn unit :=
  '(outcome, err) ← run_calls step calls;
  _ ← write (with_collector (collect_Executions step (bo_Executions outcome)));
  _ ← match err with
      | Some err =>
        _ ← write (add_actions (bo_SuccessfulActions outcome));
        _ ← updateMemoryForCompletedTurn ProjectionKindPriorSuccessfulActions;
        _ ← trace "tool_batch_failed"; _ ← trace "agent_step_failed";
        fail_return "action" (actionFailureReason err) err
      | None => mret tt
      end;
  _ ← write (add_message (ToolAnswers (bo_Results outcome)));
  _ ← write (add_actions (bo_SuccessfulActions outcome));
  _ ← correct_arguments (bo_Results outcome);
  _ ← check_stopped (so_stopped_after (at_step step));
  _ ← resume_step step outcome;
  settle_step control outcome.

(** The body of the loop. *)
Definition agent_step (step : Z) : Turn unit :=
  rep ← ask_model step;
  calls ← admit_calls step rep;
  seen ← read ts_seen;
  let idValidationResults := validateToolCallIDsAcrossSteps calls seen in
  _ ← write (count_calls (Z.of_nat (length calls)) (rememberToolCallIDs calls seen));
  _ ← write (add_message (AssistantCalls calls (rp_ReasoningContent rep)));
  _ ← foldr (fun call m => _ ← trace "tool_call_selected"; m) (mret tt) calls;
  _ ← trace "tool_batch_started";
  match idValidationResults with
  | Some results => answer_reused step calls results
  | None => run_step step (md_Control (rp_Decision rep)) calls
  end.

(** [for stepIndex := 1; stepIndex <= l.config.MaxSteps; stepIndex++], [n] rounds from [step]. *)
Fixpoint agent_steps (n : nat) (step : Z) : Turn unit :=
  match n with
  | O => mret tt
  | S n => _ ← agent_step step; agent_steps n (step + 1)
  end.
Definition runBoundedSteps : Turn unit :=
  _ ← agent_steps (Z.to_nat (MaxSteps config)) 1;
  _ ← trace "agent_step_failed";
  fail_return "step" "max_steps_exceeded" (Opaque ("max steps exceeded: max " ++ FormatInt (MaxSteps config)) None).

(** *** The turn *)

(** What the turn meets before its first step: the admission of the read tools, what
    the environment observes, whether the task stopped, and the snapshot history is
    prepared with. *)
Record turnOpening := {
  to_admit : outcome error turnView; to_observe : outcome error (option Observation); to_stopped : bool * option error;
  to_snapshot : outcome error turnView
}.
Variable opening : turnOpening.
Definition new_turn (view : turnView) : turnState :=
  let collector := newTurnHistoryCollector key turnID the_event in
  mkTurn [] [] 0 0 ∅ false false view None
    (match task with Some t => if tt_background t then with_event (tt_WakeID t) "task_wake" collector else collector | None => collector end) false.
Definition turn_body : Turn unit :=
  _ ← trace "turn_started"; _ ← trace "observation_requested";
  _ ← emit (TObserve 0);
  obs ← match to_observe opening with
        | Err err => fail_return "observation" (observationFailureReason err) err
        | Ok obs => mret obs
        end;
  _ ← write (set_obs obs);
  _ ← write (with_collector (collect_Observe 0 obs));
  _ ← trace "observation_received";
  _ ← check_stopped (to_stopped opening);
  _ ← when (has_historyStore config && MemoryEnabled config)
        (match task, to_snapshot opening with
         | Some _, Err err => fail_return "context" "task_context_failed" err
         | Some _, Ok view => write (set_view view)
         | None, _ => mret tt
         end);
  runBoundedSteps.
(** The error the turn returns, its history and its trace: with [None], it refused
    before it began. *)
Definition handleTurn (view : turnView) : outcome error (option error * turnState * list turn_event) :=
  _ ← fail_if (KnowledgeEnabled config && ! has_knowledge config) (Opaque "knowledge is enabled without a loaded catalog" None);
  view ← if KnowledgeEnabled config then to_admit opening else Ok view;
  match turn_body (new_turn view) with
  | (inl err, st, tr) => Ok (err, st, tr)
  | (inr tt, st, tr) => Ok (None, st, tr)
  end.
End Turn.
