(* ===== verification/Turning.v ===== *)
(** * What a turn of the agent guarantees

    A turn is executed once, symbolically, into the relation [Stepped]: what a step asked
    of the model and ran, and how it left the turn.  [turn_rule] carries an invariant
    along the steps; the properties of turns are its instances. *)

From S2P Require Export Turn Batching.

Local Open Scope go_scope.

Section Facts.
Context {Value Request : Type}.
Notation Call := (ToolCall (Value := Value)).
Notation Result := (ToolResult (Value := Value)).
Notation Event := (turn_event (Value := Value) (Request := Request)).
Notation Batch := (HistoryBatch (Value := Value)).
Notation State := (turnState (Value := Value)).
Notation View := turnView.
Variable lib : turnLibrary (Value := Value).
Variable config : turnConfig.
Variable at_step : Z -> stepOutside (Value := Value) (Request := Request).
Variable ending : turnEnd.
Variable key : AgentSessionKey.
Variable turnID : string.
Variable event : option (GameEvent (Value := Value)).
Variable task : option taskTurn.
Variable opening : turnOpening (Value := Value).
Notation turn A := (Turn (Value := Value) (Request := Request) A).
Notation fail_with := (fail_return config ending key turnID event).
Notation done_with := (complete_return config ending key turnID event).

(** ** What a turn does: model calls, batches, and its end *)
Definition is_act (e : Event) : bool :=
  match e with TGenerate _ _ _ | TBatch _ _ _ | THistory _ | TCompletion _ | TCompleted | TFailed _ _ => true | _ => false end.
Definition acts (tr : list Event) : list Event := List.filter is_act tr.
Lemma acts_app tr tr' : acts (tr ++ tr') = acts tr ++ acts tr'.
Proof. apply List.filter_app. Qed.

(** The end of a turn with the history [b]. *)
Definition end_acts (b : Batch) (detail : option (string * string)) (final : Event) : list Event :=
  (if has_historyStore config && MemoryEnabled config then [THistory b] else [])
  ++ [TCompletion {| cp_TurnId := turnID; cp_EventId := ge_EventId (default nil_event event); cp_WorldId := WorldID key;
                     cp_EntityId := EntityID key;
                     cp_Status := match detail with None => TURN_COMPLETION_STATUS_COMPLETED | Some _ => TURN_COMPLETION_STATUS_FAILED end;
                     cp_Error := detail |}; final].
Definition Ended (b : Batch) (err : option error) (e : list Event) : Prop :=
  match err with
  | None => e = end_acts (Finish "completed" "" "" None b) None TCompleted
  | Some x => exists status stage reason, (status = "failed" \/ status = "cancelled")%string
      /\ e = end_acts (Finish status stage reason (Some x) b) (Some (reason, Error_text x)) (TFailed stage reason)
  end.

(** ** Symbolic execution *)
Definition runs {A} (m : turn A) (st : State) (Post : option error + A -> State -> list Event -> Prop) : Prop :=
  let '(r, st', tr) := m st in Post r st' (acts tr).
Lemma runs_weaken {A} (m : turn A) st (Post Post' : option error + A -> State -> list Event -> Prop) :
  runs m st Post -> (forall r st' e, Post r st' e -> Post' r st' e) -> runs m st Post'.
Proof. unfold runs. destruct (m st) as [[r st'] tr]. auto. Qed.
Lemma runs_bind {A B} (m : turn A) (f : A -> turn B) st Post :
  runs m st (fun r st' e => match r with
                            | inl err => Post (inl err) st' e
                            | inr a => runs (f a) st' (fun r st' e' => Post r st' (e ++ e'))
                            end) -> runs (m ≫= f) st Post.
Proof.
  unfold runs, mbind, Turn_bind. destruct (m st) as [[[err|a] st1] tr]; [done|]. destruct (f a st1) as [[r st2] tr2]. by rewrite acts_app.
Qed.
Lemma runs_ret {A} (a : A) st Post : Post (inr a) st [] -> runs (mret a : turn A) st Post.
Proof. done. Qed.
Lemma runs_quiet {B} (e : Event) (f : unit -> turn B) st Post : is_act e = false -> runs (f tt) st Post -> runs (emit e ≫= f) st Post.
Proof.
  intros He H. apply runs_bind. unfold runs at 1. cbn. rewrite He. exact H.
Qed.
Lemma runs_act {B} (e : Event) (f : unit -> turn B) st Post : is_act e = true ->
  runs (f tt) st (fun r st' e' => Post r st' (e :: e')) -> runs (emit e ≫= f) st Post.
Proof. intros He H. apply runs_bind. unfold runs at 1. cbn. rewrite He. exact H. Qed.
Lemma runs_trace {B} name (f : unit -> turn B) st Post : runs (f tt) st Post -> runs (trace name ≫= f) st Post.
Proof. by apply runs_quiet. Qed.
Lemma runs_read {A B} (g : State -> A) (f : A -> turn B) st Post : runs (f (g st)) st Post -> runs (read g ≫= f) st Post.
Proof. intros H. apply runs_bind. exact H. Qed.
Lemma runs_write {B} (g : State -> State) (f : unit -> turn B) st Post : runs (f tt) (g st) Post -> runs (write g ≫= f) st Post.
Proof. intros H. apply runs_bind. exact H. Qed.
Lemma runs_ret_bind {A B} (a : A) (f : A -> turn B) st Post : runs (f a) st Post -> runs (mret a ≫= f) st Post.
Proof. intros H. apply runs_bind. exact H. Qed.
Lemma runs_when {B} b (m : turn unit) (f : unit -> turn B) st Post :
  (b = true -> runs (m ≫= f) st Post) -> (b = false -> runs (f tt) st Post) -> runs (when b m ≫= f) st Post.
Proof. intros H1 H2. unfold when. destruct b; [auto|]. apply runs_ret_bind. auto. Qed.
(** A statement that does not change the state and is not an act. *)
Definition silent (m : turn unit) : Prop := forall st, exists tr, m st = (inr tt, st, tr) /\ acts tr = [].
Lemma runs_silent {B} (m : turn unit) (f : unit -> turn B) st Post : silent m -> runs (f tt) st Post -> runs (m ≫= f) st Post.
Proof. intros Hm H. apply runs_bind. unfold runs at 1. destruct (Hm st) as (tr & -> & ->). exact H. Qed.
Lemma silent_last {m : turn unit} st Post : silent m -> Post (inr tt) st [] -> runs m st Post.
Proof. intros Hm H. unfold runs. destruct (Hm st) as (tr & -> & ->). exact H. Qed.
Lemma silent_trace name : silent (trace name).
Proof. intros st. by eexists. Qed.
Lemma silent_bind m1 m2 : silent m1 -> silent m2 -> silent (m1 ≫= fun _ => m2).
Proof.
  intros H1 H2 st. destruct (H1 st) as (tr1 & E1 & A1), (H2 st) as (tr2 & E2 & A2). exists (tr1 ++ tr2).
  unfold mbind, Turn_bind. by rewrite E1, E2, acts_app, A1, A2.
Qed.
Lemma silent_memory kind : silent (updateMemoryForCompletedTurn config ending event kind).
Proof.
  intros st. unfold updateMemoryForCompletedTurn. destruct (_ || _); [by exists []|]. unfold mbind, Turn_bind, read. cbn.
  destruct (_ && _); by eexists.
Qed.
Lemma silent_each {A} (l : list A) name : silent (foldr (fun _ m => trace name ≫= fun _ => m) (mret tt) l).
Proof. induction l as [|a l IH]; [intros st; by exists []|]. cbn. apply silent_bind; [apply silent_trace|done]. Qed.

(** *** Ends *)
Lemma persist_runs status stage reason cause st : ts_finished st = false ->
  exists st' tr, persistTerminalHistory (Request := Request) config ending status stage reason cause st = (inr tt, st', tr)
    /\ acts tr = (if has_historyStore config && MemoryEnabled config then [THistory (Finish status stage reason cause (ts_collector st))] else []).
Proof.
  intros Hf. unfold persistTerminalHistory, mbind, Turn_bind, read. rewrite Hf. cbn.
  destruct (has_historyStore config), (MemoryEnabled config); cbn; by do 2 eexists.
Qed.
Lemma runs_fail {A} stage reason err st Post : ts_finished st = false ->
  (forall st' e, Ended (ts_collector st) (Some err) e -> Post (inl (Some err)) st' e) ->
  runs (fail_with stage reason err : turn A) st Post.
Proof.
  intros Hf H. unfold fail_return, failTurn, runs, mbind, Turn_bind.
  set (status := if _ || _ then _ else _). destruct (persist_runs status stage reason (Some err) st Hf) as (st' & tr & -> & Ha).
  cbn. apply H. exists status, stage, reason. split; [unfold status; destruct (_ || _); auto|].
  rewrite !app_nil_r, acts_app, Ha. done.
Qed.
Lemma runs_complete st Post : ts_finished st = false ->
  (forall st' e, Ended (ts_collector st) None e -> Post (inl None) st' e) -> runs (done_with : turn unit) st Post.
Proof.
  intros Hf H. unfold complete_return, completeTurn, runs, mbind, Turn_bind.
  destruct (persist_runs "completed" "" "" None st Hf) as (st' & tr & -> & Ha). cbn. apply H. unfold Ended.
  rewrite !app_nil_r, acts_app, Ha. done.
Qed.
Lemma runs_fail_bind {A B} stage reason err (f : A -> turn B) st Post : ts_finished st = false ->
  (forall st' e, Ended (ts_collector st) (Some err) e -> Post (inl (Some err)) st' e) ->
  runs (fail_with stage reason err ≫= f) st Post.
Proof. intros Hf H. apply runs_bind. by apply runs_fail. Qed.
Lemma runs_complete_bind {B} (f : unit -> turn B) st Post : ts_finished st = false ->
  (forall st' e, Ended (ts_collector st) None e -> Post (inl None) st' e) -> runs (done_with ≫= f) st Post.
Proof. intros Hf H. apply runs_bind. by apply runs_complete. Qed.
Lemma runs_stopped {B} answer (f : unit -> turn B) st Post : ts_finished st = false ->
  (forall err st' e, Ended (ts_collector st) err e -> Post (inl err) st' e) -> runs (f tt) st Post ->
  runs (check_stopped config ending key turnID event task answer ≫= f) st Post.
Proof.
  intros Hf He H. unfold check_stopped. destruct (background task); cbn; [|by apply runs_ret_bind].
  destruct answer as [[] [err|]]; try (apply runs_fail_bind; auto); [apply runs_complete_bind; auto|by apply runs_ret_bind].
Qed.
Lemma runs_assoc {A B C} (m : turn A) (g : A -> turn B) (f : B -> turn C) st Post :
  runs (m ≫= fun a => g a ≫= f) st Post -> runs ((m ≫= g) ≫= f) st Post.
Proof.
  unfold runs, mbind, Turn_bind. destruct (m st) as [[[err|a] st1] tr]; [done|]. destruct (g a st1) as [[[err|b] st2] tr2]; [done|].
  destruct (f b st2) as [[r st3] tr3]. by rewrite app_assoc.
Qed.

#[local] Opaque fail_return complete_return.
Ltac turn_run :=
  repeat first
    [ apply runs_trace | apply runs_read | apply runs_write | apply runs_ret_bind | apply runs_assoc
    | apply runs_quiet; [reflexivity|] | apply runs_silent; [apply silent_memory|] ].
Ltac turn_end := first [ apply runs_fail_bind; [done|] | apply runs_fail; [done|] | apply runs_complete_bind; [done|] | apply runs_complete; [done|] ]; auto.

(** ** One step *)
Notation asks step := (ask_model lib config at_step ending key turnID event task step).
Lemma set_view_id (st : State) : set_view (ts_view st) st = st.
Proof. by destruct st. Qed.
Lemma ask_model_runs step st (Post : option error + Response (Value := Value) -> State -> list Event -> Prop) : ts_finished st = false ->
  (forall err st' e, Ended (ts_collector st) err e -> Post (inl err) st' e) ->
  (forall err st' req e, Ended (ts_collector st) err e -> Post (inl err) st' (TGenerate step (ts_transcript st) req :: e)) ->
  (forall rep req view, Post (inr rep) (set_view view st) [TGenerate step (ts_transcript st) req]) ->
  runs (asks step) st Post.
Proof.
  intros Hf Hun Hno Hrep. unfold ask_model. turn_run. destruct (so_ctx (at_step step)) as [err|]; [turn_end|]. turn_run.
  assert (Hbuild : forall view, runs (view ← read ts_view; transcript ← read ts_transcript; obs ← read ts_obs;
    request ← match so_build (at_step step) view transcript obs with
              | Err err => _ ← trace "context_request_build_failed"; _ ← trace "agent_step_failed"; fail_with "context" (contextFailureReason lib err) err
              | Ok request => mret request
              end;
    _ ← trace "context_request_built"; _ ← trace "model_request_started";
    _ ← match so_ctx_model (at_step step) with Some err => fail_with "turn" "turn_cancelled" err | None => mret tt end;
    _ ← emit (TGenerate step transcript request);
    match so_generate (at_step step) request with
    | Err err => _ ← trace "agent_step_failed"; fail_with "model" (modelFailureReason lib err) err
    | Ok rep => _ ← trace "model_response_received"; mret rep
    end) (set_view view st) Post).
  { intros view. turn_run. destruct (so_build _ _ _ _) as [req|err]; [|turn_run; turn_end]. turn_run.
    destruct (so_ctx_model (at_step step)) as [err|]; [turn_end|]. turn_run. apply runs_act; [done|].
    destruct (so_generate _ req) as [rep|err]; turn_run; [apply runs_ret, Hrep|turn_end]. }
  pose proof (@runs_stopped (Response (Value := Value))) as Hstop.
  destruct task as [t|]; [|apply runs_ret_bind; specialize (Hbuild (ts_view st)); by rewrite set_view_id in Hbuild].
  apply runs_assoc, Hstop; [done|auto|]. destruct (so_snapshot (at_step step)) as [view|err]; [|turn_end].
  apply runs_assoc, runs_write, runs_when; intros _; [apply runs_trace|]; apply Hbuild.
Qed.

(** Calls that pass the checks on a response. *)
Definition admitted (st : State) (calls : list Call) : Prop := calls <> []
  /\ (Z.of_nat (length calls) <= MaxToolCallsPerStep config)%Z
  /\ (ts_totalToolCalls st + Z.of_nat (length calls) <= MaxToolCallsPerTurn config)%Z
  /\ duplicateToolCallIDWithinStep calls = None.
Notation redacted view calls := (redactTaskCalls config turnID event task view calls).
Definition decided (st : State) (rep : Response (Value := Value)) : ModelDecision (Value := Value) :=
  mkDecision (redacted (ts_view st) (md_ToolCalls (rp_Decision rep))) (md_Control (rp_Decision rep)).
Notation admits step rep := (admit_calls lib config ending key turnID event task step rep).
Lemma no_calls_runs {B} control (f : unit -> turn B) st Post : ts_finished st = false ->
  (forall err st' e, Ended (ts_collector st) err e -> Post (inl err) st' e) ->
  runs (no_calls config ending key turnID event control ≫= f) st Post.
Proof.
  intros Hf H. unfold no_calls. turn_run. destruct (ts_correctionPending st); [turn_run; turn_end|].
  destruct (cd_Kind control == ControlSettle); turn_run; turn_end.
Qed.
Lemma admit_calls_runs step rep st (Post : option error + list Call -> State -> list Event -> Prop) : ts_finished st = false ->
  (forall err st' e, Ended (collect_Decision step (decided st rep) (ts_collector st)) err e -> Post (inl err) st' e) ->
  (admitted st (md_ToolCalls (rp_Decision rep)) ->
     Post (inr (md_ToolCalls (rp_Decision rep))) (with_collector (collect_Decision step (decided st rep)) st) []) ->
  runs (admits step rep) st Post.
Proof.
  intros Hf Hend Hok. unfold admit_calls. set (calls := md_ToolCalls (rp_Decision rep)) in *. turn_run.
  fold (decided st rep) in *. set (st1 := with_collector _ st).
  assert (Hf1 : ts_finished st1 = false) by done.
  destruct (validateControlDirective _) as [err|]; [turn_run; turn_end|]. apply runs_ret_bind.
  apply runs_when; intros Hn; [apply no_calls_runs; [done|auto]|]. turn_run.
  apply runs_when; intros Hs; [turn_run; turn_end|]. apply runs_when; intros Ht; [turn_run; turn_end|].
  destruct (duplicateToolCallIDWithinStep calls) as [id|] eqn:Hd; [turn_run; turn_end|]. apply runs_ret_bind, runs_ret, Hok.
  split_and!; [intros ->; done|by apply Z.ltb_ge in Hs|by apply Z.ltb_ge in Ht|done].
Qed.

(** What a turn carries from a step to the next. *)
Record goes_on (st : State) (calls : list Call) (results : list Result) (async : Z) (st' : State) : Prop := {
  go_transcript : exists reasoning, ts_transcript st' = ts_transcript st ++ [AssistantCalls calls reasoning; ToolAnswers results];
  go_total : ts_totalToolCalls st' = (ts_totalToolCalls st + Z.of_nat (length calls))%Z;
  go_async : ts_async st' = (ts_async st + async)%Z;
  go_seen : ts_seen st' = rememberToolCallIDs calls (ts_seen st);
  go_finished : ts_finished st' = false
}.
Definition bad_arguments (st : State) (results : list Result) : bool :=
  hasToolArgumentFailure results || (ts_correctionPending st && hasInvalidToolResult results).
(** The scheduler's run of a step, and the results the model gets. *)
Notation ran step view limit calls := (Run (newToolBatchScheduler config turnID event task view limit) (so_lib (at_step step))
  (calls_outside at_step task step view) (so_pick (at_step step)) (WorldID key) (EntityID key) calls).
(** The results with the references of proposals. *)
Definition referring (results results' : list Result) : Prop :=
  Forall2 (fun r r' => tr_ToolCallID r' = tr_ToolCallID r /\ tr_Name r' = tr_Name r /\ tr_Status r' = tr_Status r /\ tr_Code r' = tr_Code r)
    results results'.
(** A step: what it did, by how far it came. *)
Inductive Stepped (step : Z) (st : State) : option error + unit -> State -> list Event -> Prop :=
| StUnasked err st' e : Ended (ts_collector st) err e -> Stepped step st (inl err) st' e
| StUnanswered err st' req e : Ended (ts_collector st) err e ->
    Stepped step st (inl err) st' (TGenerate step (ts_transcript st) req :: e)
| StUnrun err st' req d e : Ended (collect_Decision step d (ts_collector st)) err e ->
    Stepped step st (inl err) st' (TGenerate step (ts_transcript st) req :: e)
| StReused r st' req d view calls results b e :
    admitted st calls -> md_ToolCalls d = redacted view calls -> validateToolCallIDsAcrossSteps calls (ts_seen st) = Some results ->
    hb_Steps b = hb_Steps (collect_Executions step
      (zip_with (fun call r => with_RuntimeResult (Some r) (new_execution call)) (redacted view calls) results)
      (collect_Decision step d (ts_collector st))) ->
    match r with
    | inl err => Ended b err e
    | inr _ => e = [] /\ ts_collector st' = b /\ goes_on st calls results 0 st' /\ ts_correctionPending st = false
               /\ ts_correctionUsed st' = ts_correctionUsed st /\ ts_correctionPending st' = ts_correctionPending st
    end ->
    Stepped step st r st' (TGenerate step (ts_transcript st) req :: e)
| StRan r st' req d view calls o err tr b e :
    admitted st calls -> md_ToolCalls d = redacted view calls -> validateToolCallIDsAcrossSteps calls (ts_seen st) = None ->
    ran step view (MaxAsyncActionsPerTurn config <=? ts_async st)%Z calls = (o, err, tr) ->
    hb_Steps b = hb_Steps (collect_Executions step (bo_Executions o) (collect_Decision step d (ts_collector st))) ->
    match r with
    | inl err => Ended b err e
    | inr _ => e = [] /\ ts_collector st' = b /\ err = None /\ exists results,
               referring (bo_Results o) results /\ goes_on st calls results (if bo_AsyncActionStarted o then 1 else 0) st'
               /\ if bad_arguments st results
                  then ts_correctionUsed st = false /\ ts_correctionUsed st' = true /\ ts_correctionPending st' = true
                  else ts_correctionUsed st' = ts_correctionUsed st /\ ts_correctionPending st' = false
    end ->
    Stepped step st r st' (TGenerate step (ts_transcript st) req :: TBatch step calls tr :: e).

Lemma referring_refl results : referring results results.
Proof. unfold referring. induction results; by constructor. Qed.
Lemma captureProposals_refers capture actions results results' :
  captureProposals lib capture actions results = Ok results' -> referring results results'.
Proof.
  assert (Hgen : forall actions r1, referring results r1 -> captureProposals lib capture actions r1 = Ok results' -> referring results results').
  { clear actions. intros actions. induction actions as [|a actions IH]; cbn; intros r1 Hr; [by intros [= <-]|].
    destruct (capture a) as [ref [e|]]; [done|]. apply IH. case_bool_decide; [done|].
    unfold referring. apply Forall2_fmap_r. eapply Forall2_impl; [exact Hr|]. intros x y Hxy. cbn in *. unfold add_proposal_ref.
    case_bool_decide; cbn; [|done]. exact Hxy. }
  apply Hgen, referring_refl.
Qed.
Lemma run_calls_runs step calls st (Post : option error + toolBatchOutcome * option error -> State -> list Event -> Prop) :
  (forall o err tr results err', ran step (ts_view st) (MaxAsyncActionsPerTurn config <=? ts_async st)%Z calls = (o, err, tr) ->
     (err' = None -> err = None) -> referring (bo_Results o) results ->
     Post (inr (with_results results o, err')) st [TBatch step calls tr]) ->
  runs (run_calls lib config at_step key turnID event task step calls) st Post.
Proof.
  intros H. unfold run_calls. turn_run. destruct (Run _ _ _ _ _ _ _) as [[o err] tr] eqn:Hr. specialize (fun results err' => H _ _ _ results err' eq_refl).
  assert (Hid : o = with_results (bo_Results o) o) by by destruct o.
  apply runs_act; [done|]. pose proof (referring_refl (bo_Results o)) as Hrefl. destruct err as [err|].
  { apply runs_ret. rewrite Hid. by apply H. }
  destruct (task : option taskTurn); [|apply runs_ret; rewrite Hid; by apply H].
  destruct (captureProposals _ _ _ _) as [results|e] eqn:Hc; [|apply runs_ret; rewrite Hid; by apply H].
  apply captureProposals_refers in Hc. destruct (negb _); [apply runs_ret; by apply H|]. turn_run. apply runs_ret. by apply H.
Qed.

(** *** The pieces after the run *)
Lemma correct_runs {B} results (f : unit -> turn B) st Post : ts_finished st = false ->
  (forall err st' e, Ended (ts_collector st) err e -> Post (inl err) st' e) ->
  (forall used pending, (if bad_arguments st results then ts_correctionUsed st = false /\ used = true /\ pending = true
                         else used = ts_correctionUsed st /\ pending = false) -> runs (f tt) (set_correction used pending st) Post) ->
  runs (correct_arguments config ending key turnID event results ≫= f) st Post.
Proof.
  intros Hf He H. unfold correct_arguments. apply runs_assoc, runs_read, runs_assoc, runs_read. fold (bad_arguments st results).
  destruct (bad_arguments st results); [|by apply runs_write, H].
  apply runs_assoc, runs_when; intros Hu; [turn_run; turn_end|by apply runs_write, H].
Qed.
Lemma resume_runs {B} step (o : toolBatchOutcome) (f : unit -> turn B) st Post : ts_finished st = false ->
  (forall err st' e, Ended (ts_collector st) err e -> Post (inl err) st' e) ->
  (forall st', ts_transcript st' = ts_transcript st -> ts_totalToolCalls st' = ts_totalToolCalls st ->
     ts_async st' = (ts_async st + if bo_AsyncActionStarted o then 1 else 0)%Z -> ts_seen st' = ts_seen st -> ts_finished st' = false ->
     ts_correctionUsed st' = ts_correctionUsed st -> ts_correctionPending st' = ts_correctionPending st ->
     hb_Steps (ts_collector st') = hb_Steps (ts_collector st) -> runs (f tt) st' Post) ->
  runs (resume_step lib config at_step ending key turnID event step o ≫= f) st Post.
Proof.
  intros Hf He H. unfold resume_step. apply runs_when; intros Ha; rewrite Ha in *; [|by apply H; try lia]. turn_run.
  destruct (so_observe (at_step step)) as [obs|err]; turn_run; [|turn_end]. apply H; try done. destruct obs; done.
Qed.
Lemma settle_runs control (o : toolBatchOutcome) st (Post : option error + unit -> State -> list Event -> Prop) : ts_finished st = false ->
  (forall err st' e, Ended (ts_collector st) err e -> Post (inl err) st' e) -> Post (inr tt) st [] ->
  runs (settle_step config ending key turnID event control o) st Post.
Proof.
  intros Hf He H. unfold settle_step. destruct (bo_HasModelVisibleFailure o); turn_run; [by apply silent_last; [apply silent_trace|]|].
  destruct (bo_AsyncActionStarted o); [by apply runs_ret|]. unfold when. destruct (_ || _); [|by apply runs_ret]. turn_run. turn_end.
Qed.

Notation one_step step := (agent_step lib config at_step ending key turnID event task step).
#[local] Opaque ask_model admit_calls run_calls check_stopped updateMemoryForCompletedTurn correct_arguments resume_step settle_step.
Lemma agent_step_runs step st : ts_finished st = false -> runs (one_step step) st (Stepped step st).
Proof.
  intros Hf. unfold agent_step. apply runs_bind, ask_model_runs; [done|by econstructor|by econstructor|]. intros rep req view.
  apply runs_bind, admit_calls_runs; [done|by econstructor|]. set (calls := md_ToolCalls (rp_Decision rep)). intros Hadm.
  set (st1 := with_collector _ _). turn_run. apply runs_silent; [apply silent_each|]. turn_run.
  change (ts_seen st1) with (ts_seen st). set (st2 := add_message _ _). set (d := decided (set_view view st) rep) in *.
  destruct (validateToolCallIDsAcrossSteps calls (ts_seen st)) as [results|] eqn:Hids.
  - unfold answer_reused. turn_run. change (ts_correctionPending _) with (ts_correctionPending st).
    destruct (ts_correctionPending st) eqn:Hp; turn_run.
    + turn_end. intros st' e He. by eapply (StReused _ _ _ _ _ d view).
    + apply silent_last; [apply silent_trace|]. eapply (StReused _ _ _ _ _ d view); [done|done|done|reflexivity|].
      split_and!; [done|reflexivity|split; cbn; try done|done|done|done]; [|lia]. eexists. by rewrite <- app_assoc.
  - unfold run_step. apply runs_bind, run_calls_runs. intros o err tr results err' Hrun Herr Href.
    assert (Hend : forall b err2 st' e, hb_Steps b = hb_Steps (collect_Executions step (bo_Executions o) (collect_Decision step d (ts_collector st))) ->
      Ended b err2 e -> Stepped step st (inl err2) st' (TGenerate step (ts_transcript st) req :: TBatch step calls tr :: e)).
    { intros b err2 st' e Hb He. by eapply (StRan _ _ _ _ _ d view). }
    turn_run. set (st3 := with_collector _ st2). assert (Hf3 : ts_finished st3 = false) by done.
    destruct err' as [err'|]; turn_run; [turn_end; intros st' e He; by eapply Hend|]. specialize (Herr eq_refl). subst err.
    set (st4 := add_actions _ _). assert (Hf4 : ts_finished st4 = false) by done.
    apply correct_runs; [done|intros ? ? ? He; by eapply Hend|]. intros used pending Hbad. set (st5 := set_correction _ _ _).
    assert (Hf5 : ts_finished st5 = false) by done.
    apply runs_stopped; [done|intros ? ? ? He; by eapply Hend|]. apply resume_runs; [done|intros ? ? ? He; by eapply Hend|].
    intros st' H1 H2 H3 H4 H5 H6 H7 H8. apply settle_runs; [done|intros ? ? ? He; eapply Hend; [|done]; by rewrite H8|].
    eapply (StRan _ _ _ _ _ d view); [done|done|done|exact Hrun|exact H8|]. split_and!; [done|done|done|]. exists results. split_and!; [done| |].
    + split; try done. { exists (rp_ReasoningContent rep). rewrite H1. cbn. by rewrite <- app_assoc. }
    + rewrite H6, H7. exact Hbad.
Qed.

(** ** The whole turn *)
Definition fresh (st : State) : Prop := ts_transcript st = [] /\ ts_totalToolCalls st = 0%Z /\ ts_async st = 0%Z /\ ts_seen st = ∅
  /\ ts_correctionUsed st = false /\ ts_correctionPending st = false /\ ts_finished st = false /\ hb_Steps (ts_collector st) = [].
Lemma Stepped_finished step st r st' e : Stepped step st (inr r) st' e -> ts_finished st' = false.
Proof. inversion 1; subst; deex; repeat match goal with H : goes_on _ _ _ _ _ |- _ => apply go_finished in H end; done. Qed.
Notation steps n step := (agent_steps lib config at_step ending key turnID event task n step).
Notation whole_turn view := (handleTurn lib config at_step ending key turnID event task opening view).

Section Rule.
(** [I] holds before a step, of the turn's acts so far; [E] of the acts of an ended turn. *)
Variable I : Z -> State -> list Event -> Prop.
Variable E : option error -> list Event -> Prop.
Hypothesis fresh_I : forall st, fresh st -> I 1 st [].
Hypothesis step_I : forall step st h r st' e, (1 <= step <= MaxSteps config)%Z -> I step st h -> Stepped step st r st' e ->
  match r with inr _ => I (step + 1) st' (h ++ e) | inl err => E err (h ++ e) end.
Hypothesis end_E : forall step st h err e, I step st h -> Ended (ts_collector st) (Some err) e -> E (Some err) (h ++ e).
Hypothesis early_E : forall b err e, hb_Steps b = [] -> Ended b err e -> E err e.

Lemma steps_rule n step st h : (1 <= step)%Z -> (step + Z.of_nat n <= Z.max 1 (MaxSteps config + 1))%Z -> ts_finished st = false -> I step st h ->
  runs (steps n step) st (fun r st' e => match r with
                                         | inr _ => I (step + Z.of_nat n) st' (h ++ e) /\ ts_finished st' = false
                                         | inl err => E err (h ++ e)
                                         end).
Proof.
  revert step st h. induction n as [|n IH]; intros step st h Hs Hm Hf HI.
  { apply runs_ret. rewrite app_nil_r. replace (step + Z.of_nat 0)%Z with step by lia. done. }
  change (steps (S n) step) with (one_step step ≫= fun _ => steps n (step + 1)). apply runs_bind.
  eapply runs_weaken; [by apply agent_step_runs|]. intros [err|[]] st' e Hst.
  - by apply (step_I step st h (inl err) st' e); [lia| |].
  - pose proof (Stepped_finished _ _ _ _ _ Hst) as Hf'. apply (step_I step st h _ st' e) in Hst; [|lia|done].
    eapply runs_weaken; [apply (IH (step + 1)%Z st' (h ++ e)); [lia|lia|done|exact Hst]|]. intros [err|u] st2 e2; cbn beta iota; rewrite <- app_assoc; [done|].
    by replace (step + 1 + Z.of_nat n)%Z with (step + Z.of_nat (S n))%Z by lia.
Qed.
Lemma bounded_rule st : fresh st ->
  runs (runBoundedSteps lib config at_step ending key turnID event task) st (fun r st' e => match r with inr _ => False | inl err => E err e end).
Proof.
  intros Hfr. unfold runBoundedSteps. apply runs_bind. eapply runs_weaken.
  { apply (steps_rule _ 1 st []); [lia|lia|by destruct Hfr; naive_solver|by apply fresh_I]. }
  intros [err|[]] st' e; [done|]. intros [HI Hf]. turn_run. turn_end. intros st2 e2 He. by eapply end_E.
Qed.
Lemma turn_rule view err st tr : whole_turn view = Ok (err, st, tr) -> E err (acts tr).
Proof.
  unfold handleTurn. destruct (KnowledgeEnabled config && negb (has_knowledge config)); [done|].
  destruct (if KnowledgeEnabled config then to_admit opening else Ok view) as [view'|e]; [|done]. cbn [mbind outcome_bind fail_if].
  set (st0 := new_turn _ _ _ _ _).
  assert (Hst0 : ts_finished st0 = false /\ hb_Steps (ts_collector st0) = [] /\ fresh st0).
  { unfold st0, fresh, new_turn. cbn. destruct task as [t|]; [destruct (tt_background t)|]; done. }
  assert (Hrun : runs (turn_body lib config at_step ending key turnID event task opening) st0
    (fun r st' e => match r with inr _ => False | inl err => E err e end)).
  { destruct Hst0 as (Hf & Hsteps & Hfresh). unfold turn_body. turn_run. destruct (to_observe opening) as [obs|e].
    2: { turn_end. intros st' e' He. by eapply early_E. }
    turn_run. set (st1 := with_collector _ _).
    assert (Hst1 : ts_finished st1 = false /\ hb_Steps (ts_collector st1) = [] /\ fresh st1).
    { unfold fresh in *. cbn. destruct obs; cbn; deex; split_and!; done. }
    clearbody st1. destruct Hst1 as (Hf1 & Hs1 & Hfr1). apply runs_stopped; [done|intros err' st' e He; by eapply early_E|].
    apply runs_when; intros _.
    - pose proof bounded_rule as Hbr. destruct task as [t|]; [|by apply runs_ret_bind, Hbr]. destruct (to_snapshot opening) as [view2|e].
      + apply runs_write, Hbr. exact Hfr1.
      + turn_end. intros st' e' He. by eapply early_E.
    - by apply bounded_rule. }
  unfold runs in Hrun. destruct (turn_body _ _ _ _ _ _ _ _ _ st0) as [[[err'|[]] st'] tr']; [|done]. intros [= <- <- <-]. exact Hrun.
Qed.
End Rule.
End Facts.
