(* ===== verification/TurnFacts.v ===== *)
(** * Properties of turns

    How a turn ends, what it may spend, what the model sees, what runs twice (nothing),
    and what its history says.  Each is an invariant given to [Turning.turn_rule]. *)

From S2P Require Export Turning.

Local Open Scope go_scope.

(** ** Sorting what is in order *)
Lemma sort_slice_id {A} (less : A -> A -> bool) l : StronglySorted (fun a b => less b a = false) l -> sort_slice less l = l.
Proof.
  induction 1 as [|a l Hs IH Hf]; [done|]. unfold sort_slice in *. cbn. rewrite IH. destruct l as [|b l]; [done|]. cbn.
  by rewrite (Forall_inv Hf).
Qed.

Section Ids.
Context {Value : Type}.
Notation Call := (ToolCall (Value := Value)).
(** The ids that tell calls apart. *)
Definition ids_of (calls : list Call) : list string := List.filter (fun id => id != "") ((fun call => TrimSpace (tc_ID call)) <$> calls).
Lemma ids_of_app l l' : ids_of (l ++ l') = ids_of l ++ ids_of l'.
Proof. unfold ids_of. by rewrite fmap_app, List.filter_app. Qed.
Lemma elem_of_ids calls id : id ∈ ids_of calls <-> id <> "" /\ exists call, call ∈ calls /\ TrimSpace (tc_ID call) = id.
Proof.
  unfold ids_of. rewrite list_elem_of_In, filter_In, <- list_elem_of_In, list_elem_of_fmap, negb_true_iff, bool_decide_eq_false.
  naive_solver.
Qed.
Lemma ids_prefix (l calls : list Call) : l `prefix_of` calls -> ids_of l `prefix_of` ids_of calls.
Proof. intros [k ->]. rewrite ids_of_app. by eexists. Qed.
Lemma duplicate_none calls : duplicateToolCallIDWithinStep calls = None -> NoDup (ids_of calls).
Proof.
  assert (Hgen : forall calls (seen : gset string), duplicate_from seen calls = None ->
    NoDup (ids_of calls) /\ forall id, id ∈ ids_of calls -> id ∉ seen).
  { clear calls. intros calls. induction calls as [|call calls IH]; intros seen; cbn.
    { intros _. split; [constructor|]. intros id Hid. by apply elem_of_nil in Hid. }
    unfold ids_of. cbn. fold (ids_of calls). case_bool_decide as He; cbn; [apply IH|]. case_bool_decide as Hs; [done|].
    intros H. destruct (IH _ H) as [H1 H2]. split.
    - constructor; [|done]. intros Hin. specialize (H2 _ Hin). set_solver.
    - intros id Hid. apply elem_of_cons in Hid as [->|Hid]; [done|]. specialize (H2 _ Hid). set_solver. }
  intros H. by apply Hgen in H as [? _].
Qed.
Lemma validate_none (calls : list Call) seen : validateToolCallIDsAcrossSteps calls seen = None -> forall id, id ∈ ids_of calls -> id ∉ seen.
Proof.
  unfold validateToolCallIDsAcrossSteps. destruct (existsb _ _) eqn:He; [done|]. intros _ id Hid Hs.
  apply elem_of_ids in Hid as [Hne (call & Hc & <-)]. apply not_true_iff_false in He. apply He, existsb_exists. exists call.
  split; [by apply list_elem_of_In|]. unfold reused. apply andb_true_iff. split; [by apply negb_true_iff, bool_decide_eq_false|by apply bool_decide_eq_true].
Qed.
Lemma elem_of_remember calls seen id : id ∈ rememberToolCallIDs calls seen <-> id ∈ seen \/ id ∈ ids_of calls.
Proof.
  revert seen. induction calls as [|call calls IH]; intros seen; [unfold ids_of; cbn; set_solver|].
  change (rememberToolCallIDs (call :: calls) seen)
    with (rememberToolCallIDs calls (if TrimSpace (tc_ID call) == "" then seen else {[TrimSpace (tc_ID call)]} ∪ seen)).
  rewrite IH. unfold ids_of at 2. cbn. fold (ids_of calls). case_bool_decide; cbn; set_solver.
Qed.
Lemma prefix_nodup {A} (l l' : list A) : l `prefix_of` l' -> NoDup l' -> NoDup l.
Proof. intros [k ->] H. by apply NoDup_app in H as [? _]. Qed.
End Ids.

Section Facts.
Context {Value Request : Type}.
Notation Call := (ToolCall (Value := Value)).
Notation Result := (ToolResult (Value := Value)).
Notation Item := (plannedToolCall (Value := Value)).
Notation Event := (turn_event (Value := Value) (Request := Request)).
Notation Batch := (HistoryBatch (Value := Value)).
Notation State := (turnState (Value := Value)).
Variable lib : turnLibrary (Value := Value).
Variable config : turnConfig.
Variable at_step : Z -> stepOutside (Value := Value) (Request := Request).
Variable ending : turnEnd.
Variable key : AgentSessionKey.
Variable turnID : string.
Variable event : option (GameEvent (Value := Value)).
Variable task : option taskTurn.
Variable opening : turnOpening (Value := Value).
Notation whole_turn view := (handleTurn lib config at_step ending key turnID event task opening view).
Notation rule := (turn_rule lib config at_step ending key turnID event task opening).
Notation Step := (Stepped config at_step key turnID event task).
Notation End := (Ended config key turnID event).
Notation ends := (end_acts config key turnID event).
Notation goes := (goes_on (Value := Value)).

(** ** What happened in a turn *)
Definition is_work (e : Event) : Prop := match e with TGenerate _ _ _ | TBatch _ _ _ => True | _ => False end.
Definition generates (tr : list Event) : nat := length (List.filter (fun e => match e with TGenerate _ _ _ => true | _ => false end) tr).
(** The calls launched by the batches of a turn. *)
Definition turn_launches (tr : list Event) : list Item :=
  concat ((fun e => match e with TBatch _ _ btr => launches btr | _ => [] end) <$> tr).
Lemma generates_app tr tr' : generates (tr ++ tr') = generates tr + generates tr'.
Proof. unfold generates. by rewrite List.filter_app, length_app. Qed.
Lemma turn_launches_app tr tr' : turn_launches (tr ++ tr') = turn_launches tr ++ turn_launches tr'.
Proof. unfold turn_launches. by rewrite fmap_app, concat_app. Qed.
Lemma generates_acts tr : generates (acts tr) = generates tr.
Proof. unfold generates, acts. induction tr as [|[] tr IH]; cbn in *; congruence. Qed.
Lemma turn_launches_acts tr : turn_launches (acts tr) = turn_launches tr.
Proof. unfold turn_launches, acts. induction tr as [|[] tr IH]; cbn in *; congruence. Qed.
Lemma Ended_nothing b err e : End b err e -> generates e = 0 /\ turn_launches e = [].
Proof.
  destruct err; cbn; intros H; deex; subst; unfold end_acts; by destruct (_ && _).
Qed.

Lemma app_cons (h : list Event) step t req e : h ++ TGenerate step t req :: e = (h ++ [TGenerate step t req]) ++ e.
Proof. by rewrite <- app_assoc. Qed.
Lemma app_cons2 (h : list Event) step t req calls tr e : h ++ TGenerate step t req :: TBatch step calls tr :: e
  = (h ++ [TGenerate step t req; TBatch step calls tr]) ++ e.
Proof. by rewrite <- app_assoc. Qed.

(** ** The end *)
(** C5: a turn that began ends exactly once: after its model calls and batches it stores at most one history record, says
    once to the environment how it ended, and traces the end, each in agreement with the error it returns; nothing
    is asked of the model or run after that.  It stores the record whenever history and memory are on. *)
Theorem turn_ends_once view err st tr : whole_turn view = Ok (err, st, tr) ->
  exists body b completion final, acts tr = body ++ (if has_historyStore config && MemoryEnabled config then [THistory b] else [])
      ++ [TCompletion completion; final]
    /\ Forall is_work body /\ cp_TurnId completion = turnID
    /\ match err with
       | None => cp_Status completion = TURN_COMPLETION_STATUS_COMPLETED /\ cp_Error completion = None /\ final = TCompleted
                 /\ ht_Status (hb_Terminal b) = "completed"%string
       | Some x => cp_Status completion = TURN_COMPLETION_STATUS_FAILED
                   /\ exists stage reason, final = TFailed stage reason /\ cp_Error completion = Some (reason, Error_text x)
                      /\ ht_Stage (hb_Terminal b) = stage /\ ht_Reason (hb_Terminal b) = reason
                      /\ ht_Status (hb_Terminal b) ∈ ["failed"; "cancelled"]%string
       end.
Proof.
  assert (Hend : forall b err body e, Forall is_work body -> End b err e ->
    exists body' b' err' e', Forall is_work body' /\ End b' err' e' /\ err = err' /\ body ++ e = body' ++ e') by (intros; by do 4 eexists).
  intros Ht. apply (rule (fun _ _ h => Forall is_work h)
    (fun err h => exists body b err' e, Forall is_work body /\ End b err' e /\ err = err' /\ h = body ++ e)) in Ht.
  - destruct Ht as (body & b & err' & e & Hb & He & <- & ->). destruct err as [x|]; cbn in He.
    + destruct He as (status & stage & reason & Hst & ->). exists body, (Finish status stage reason (Some x) b). do 2 eexists.
      split; [by unfold end_acts; destruct (_ && _)|]. split_and!; [done|done|done|]. exists stage, reason. split_and!; try done. cbn. set_solver.
    + subst e. exists body, (Finish "completed" "" "" None b). do 2 eexists. split; [by unfold end_acts; destruct (_ && _)|]. by split_and!.
  - intros. constructor.
  - intros step st0 h r st' e _ Hh Hs. inversion Hs; subst; try (destruct r as [err'|]; deex; subst);
      first [rewrite app_cons2|rewrite app_cons|idtac]; try (eapply Hend; [|eassumption]); rewrite ?Forall_app; split_and?; try done; repeat constructor.
  - intros. by eapply Hend.
  - intros b err' e _ He. eapply (Hend _ _ []); [constructor|done].
Qed.

(** ** What a step spends *)
Notation Batched step view limit calls := (Run (newToolBatchScheduler config turnID event task view limit) (so_lib (at_step step))
  (calls_outside at_step task step view) (so_pick (at_step step)) (WorldID key) (EntityID key) calls).
Notation full st := (MaxAsyncActionsPerTurn config <=? ts_async st)%Z.
(** The batch a step ran. *)
Definition step_batch (step : Z) (st : State) (r : option error + unit) (st' : State) (calls : list Call) (items : list Item) : Prop :=
  exists view o err tr, admitted config st calls /\ validateToolCallIDsAcrossSteps calls (ts_seen st) = None
    /\ Batched step view (full st) calls = (o, err, tr) /\ items = launches tr
    /\ (r = inr tt -> err = None /\ ts_async st' = (ts_async st + if bo_AsyncActionStarted o then 1 else 0)%Z).
Lemma step_spends step st r st' e : Step step st r st' e -> generates e <= 1
  /\ (r = inr tt -> exists calls, admitted config st calls /\ ts_totalToolCalls st' = (ts_totalToolCalls st + Z.of_nat (length calls))%Z
        /\ ts_seen st' = rememberToolCallIDs calls (ts_seen st) /\ (ts_async st <= ts_async st')%Z
        /\ (turn_launches e = [] \/ step_batch step st r st' calls (turn_launches e)))
  /\ (turn_launches e = [] \/ exists calls, step_batch step st r st' calls (turn_launches e)).
Proof.
  inversion 1; subst.
  - destruct (Ended_nothing _ _ _ H0) as [-> ->]. split_and!; [lia|done|by left].
  - destruct (Ended_nothing _ _ _ H0) as [Hg Hl]. split_and!; [unfold generates in *; cbn; lia|done|by left].
  - destruct (Ended_nothing _ _ _ H0) as [Hg Hl]. split_and!; [unfold generates in *; cbn; lia|done|by left].
  - assert (He : generates e0 = 0 /\ turn_launches e0 = []).
    { destruct r as [err|]; [by eapply Ended_nothing|]. by destruct H4 as [-> _]. }
    destruct He as [Hg Hl]. split_and!; [unfold generates in *; cbn; lia| |by left]. intros ->.
    destruct H4 as (-> & _ & [_ Ht Ha Hs _] & _). exists calls. split_and!; try done; [lia|by left].
  - assert (He : generates e0 = 0 /\ turn_launches e0 = []).
    { destruct r as [err'|]; [by eapply Ended_nothing|]. by destruct H5 as [-> _]. }
    destruct He as [Hg Hl].
    assert (Hl' : turn_launches (TGenerate step (ts_transcript st) req :: TBatch step calls tr :: e0) = launches tr).
    { unfold turn_launches in *. cbn. by rewrite Hl, app_nil_r. }
    assert (Hb : step_batch step st r st' calls (launches tr)).
    { exists view, o, err, tr. split_and!; try done. intros ->. destruct H5 as (_ & _ & -> & results & _ & [_ _ Ha _ _] & _). done. }
    rewrite Hl'. split_and!; [unfold generates in *; cbn; lia| |right; by exists calls]. intros ->.
    destruct H5 as (_ & _ & -> & results & _ & [_ Ht Ha Hs _] & _). exists calls. split_and!; try done; [|by right].
    rewrite Ha. destruct (bo_AsyncActionStarted o); lia.
Qed.

(** Within a turn no call is run twice: the calls its batches launched have distinct ids, those without an id aside. *)
Theorem tool_call_runs_once view err st tr : whole_turn view = Ok (err, st, tr) -> NoDup (ids_of (pc_call <$> turn_launches tr)).
Proof.
  intros Ht. apply (rule (fun _ st h => NoDup (ids_of (pc_call <$> turn_launches h))
      /\ forall id, id ∈ ids_of (pc_call <$> turn_launches h) -> id ∈ ts_seen st)
    (fun _ h => NoDup (ids_of (pc_call <$> turn_launches h)))) in Ht; [by rewrite turn_launches_acts in Ht| | | |].
  - intros st0 _. split; [constructor|]. intros id Hid. by apply elem_of_nil in Hid.
  - intros step st0 h r st' e _ [Hnd Hin] Hs. destruct (step_spends _ _ _ _ _ Hs) as (_ & Hon & Hl).
    assert (Hall : forall calls, step_batch step st0 r st' calls (turn_launches e) -> NoDup (ids_of (pc_call <$> turn_launches (h ++ e)))
      /\ forall id, id ∈ ids_of (pc_call <$> turn_launches (h ++ e)) -> id ∈ ts_seen st0 \/ id ∈ ids_of calls).
    { intros calls (v & o & er & btr & (_ & _ & _ & Hd) & Hv & Hrun & Hit & _). apply Run_launches in Hrun. rewrite <- Hit in Hrun.
      apply ids_prefix in Hrun. rewrite turn_launches_app, fmap_app, ids_of_app. split.
      - apply NoDup_app. split_and!; [done| |by eapply prefix_nodup, duplicate_none].
        intros id Hid Hid'. apply (validate_none _ _ Hv id); [by destruct Hrun as [k ->]; apply elem_of_app; left|by apply Hin].
      - intros id Hid. apply elem_of_app in Hid as [Hid|Hid]; [by left; apply Hin|right]. destruct Hrun as [k ->]. apply elem_of_app. by left. }
    assert (Hnone : turn_launches e = [] -> turn_launches (h ++ e) = turn_launches h) by (intros E; by rewrite turn_launches_app, E, app_nil_r).
    destruct r as [err'|[]]; [destruct Hl as [Hl|[calls Hl]]; [by rewrite Hnone|by apply (Hall calls)]|].
    destruct (Hon eq_refl) as (calls & _ & _ & Hs' & _ & Hl'). rewrite Hs'. setoid_rewrite elem_of_remember. destruct Hl' as [Hl'|Hl'].
    + rewrite Hnone by done. split; [done|]. intros id Hid. left. by apply Hin.
    + by apply Hall.
  - intros step st0 h err' e [Hnd _] He. destruct (Ended_nothing _ _ _ He) as [_ Hl]. by rewrite turn_launches_app, Hl, app_nil_r.
  - intros b err' e _ He. destruct (Ended_nothing _ _ _ He) as [_ ->]. constructor.
Qed.

(** Asynchronous actions among the calls launched. *)
Definition async_launches (items : list Item) : nat := length (List.filter asynchronous items).
Lemma async_launches_app l l' : async_launches (l ++ l') = async_launches l + async_launches l'.
Proof. unfold async_launches. by rewrite List.filter_app, length_app. Qed.
Lemma async_launches_pos l : 0 < async_launches l -> exists item, item ∈ l /\ asynchronous item = true.
Proof.
  unfold async_launches. destruct (List.filter asynchronous l) as [|item k] eqn:Hf; [cbn; lia|]. intros _. exists item.
  assert (Hin : In item (List.filter asynchronous l)) by (rewrite Hf; by left). apply filter_In in Hin as [Hin Ha].
  by rewrite list_elem_of_In.
Qed.
Lemma step_batch_bounds step st r st' calls items : step_batch step st r st' calls items ->
  length items <= length calls /\ (Z.of_nat (async_launches items) <= Z.max 0 (MaxAsyncActionsPerTurn config - ts_async st))%Z
  /\ (r = inr tt -> (ts_async st + Z.of_nat (async_launches items) <= ts_async st')%Z).
Proof.
  intros (v & o & er & btr & _ & _ & Hrun & -> & Hr). pose proof (Run_launches _ _ _ _ _ _ _ _ _ _ Hrun) as Hp. apply prefix_length in Hp.
  rewrite length_fmap in Hp. split; [done|]. destruct (decide (async_launches (launches btr) = 0)) as [->|Hn].
  { split; [lia|]. intros Hi. destruct (Hr Hi) as [_ ->]. destruct (bo_AsyncActionStarted o); lia. }
  destruct (async_launches_pos (launches btr)) as (item & Hin & Ha); [lia|].
  destruct (Run_async _ _ _ _ _ _ _ _ _ _ _ Hrun Hin Ha) as (Hone & Hfull & Hst).
  assert (async_launches (launches btr) <= length (launches btr)) by apply List.filter_length_le. apply Z.leb_gt in Hfull. split; [lia|].
  intros Hi. destruct (Hr Hi) as [-> ->]. rewrite Hst by done. lia.
Qed.

(** C26: a turn spends no more than its configuration allows, however it ends: model calls, tool calls launched, and
    asynchronous actions among them; so it ends. *)
Theorem turn_is_bounded view err st tr : whole_turn view = Ok (err, st, tr) ->
  generates tr <= Z.to_nat (MaxSteps config)
  /\ length (turn_launches tr) <= Z.to_nat (MaxToolCallsPerTurn config)
  /\ async_launches (turn_launches tr) <= Z.to_nat (MaxAsyncActionsPerTurn config).
Proof.
  intros Ht. set (spent := fun (h : list Event) => generates h <= Z.to_nat (MaxSteps config)
    /\ length (turn_launches h) <= Z.to_nat (MaxToolCallsPerTurn config)
    /\ async_launches (turn_launches h) <= Z.to_nat (MaxAsyncActionsPerTurn config)).
  apply (rule (fun step st h => spent h /\ (Z.of_nat (generates h) <= step - 1)%Z
      /\ (Z.of_nat (length (turn_launches h)) <= ts_totalToolCalls st)%Z /\ (Z.of_nat (async_launches (turn_launches h)) <= ts_async st)%Z)
    (fun _ h => spent h)) in Ht; unfold spent in *.
  - by rewrite generates_acts, turn_launches_acts in Ht.
  - intros st0 (_ & H1 & H2 & _). cbn. unfold async_launches. cbn. lia.
  - intros step st0 h r st' e Hstep ((Hs1 & Hs2 & Hs3) & Hg & Hl & Ha) Hs. destruct (step_spends _ _ _ _ _ Hs) as (Hge & Hon & Hb).
    rewrite generates_app, turn_launches_app, length_app, async_launches_app. destruct r as [err'|[]].
    + split; [lia|]. destruct Hb as [->|[calls Hb]]; [cbn; lia|]. destruct (step_batch_bounds _ _ _ _ _ _ Hb) as (H1 & H2 & _).
      destruct Hb as (v & o & er & btr & (_ & _ & Hm & _) & _). lia.
    + destruct (Hon eq_refl) as (calls & (_ & _ & Hm & _) & Ht' & _ & Ha' & Hb'). destruct Hb' as [->|Hb'].
      * change (async_launches []) with 0. cbn [length]. lia.
      * destruct (step_batch_bounds _ _ _ _ _ _ Hb') as (H1 & H2 & H3). specialize (H3 eq_refl). lia.
  - intros step st0 h err' e (Hs & _) He. destruct (Ended_nothing _ _ _ He) as [E1 E2]. rewrite generates_app, turn_launches_app, E1, E2, app_nil_r. lia.
  - intros b err' e _ He. destruct (Ended_nothing _ _ _ He) as [-> ->]. cbn. lia.
Qed.

(** ** What the model sees *)
Notation Transcript := (list (Message (Value := Value))).
Definition answered (calls : list Call) (results : list Result) : Prop := Forall2 (fun call r => answers r call) calls results.
Inductive dialogue : Transcript -> Prop :=
| dialogue_nil : dialogue []
| dialogue_round t calls reasoning results : dialogue t -> calls <> [] -> answered calls results ->
    dialogue (t ++ [AssistantCalls calls reasoning; ToolAnswers results]).
Lemma answered_lookup calls results : length results = length calls ->
  (forall i call, calls !! i = Some call -> exists r, results !! i = Some r /\ answers r call) -> answered calls results.
Proof.
  intros Hl H. apply Forall2_same_length_lookup. split; [done|]. intros i call r Hc Hr. destruct (H i call Hc) as (r' & Hr' & Ha). congruence.
Qed.
Lemma validate_results calls seen (results : list Result) : validateToolCallIDsAcrossSteps calls seen = Some results ->
  answered calls results /\ hasToolArgumentFailure results = false.
Proof.
  unfold validateToolCallIDsAcrossSteps. destruct (existsb _ _); [|done]. intros [= <-]. split.
  - apply answered_lookup; [by rewrite length_fmap|]. intros i call Hc. rewrite list_lookup_fmap, Hc. eexists. split; [done|]. by destruct (reused _ _).
  - apply not_true_iff_false. intros H. apply existsb_exists in H as (r & Hin & Hr). apply list_elem_of_In, list_elem_of_fmap in Hin as (call & -> & _).
    by destruct (reused _ _).
Qed.
Lemma referring_answered calls results results' : answered calls results -> referring results results' -> answered calls results'.
Proof.
  unfold answered, referring. intros H. revert results'. induction H as [|call r calls results Hr _ IH]; intros results' H; inversion H; subst; constructor.
  - unfold answers in *. naive_solver congruence.
  - by apply IH.
Qed.
(** What a step that goes on adds to the conversation. *)
Lemma step_round step st st' e : Step step st (inr tt) st' e -> exists calls reasoning results,
  ts_transcript st' = ts_transcript st ++ [AssistantCalls calls reasoning; ToolAnswers results] /\ calls <> [] /\ answered calls results
  /\ if bad_arguments st results
     then ts_correctionUsed st = false /\ ts_correctionUsed st' = true /\ ts_correctionPending st' = true
     else ts_correctionUsed st' = ts_correctionUsed st /\ ts_correctionPending st' = false.
Proof.
  inversion 1; subst.
  - destruct H4 as (_ & _ & [[reasoning Ht] _ _ _ _] & Hp & Hu & Hp'). destruct H0 as [Hne _]. exists calls, reasoning, results.
    apply validate_results in H2 as [Ha Hf]. unfold bad_arguments. rewrite Hf, Hp. cbn. split_and!; try done; congruence.
  - destruct H5 as (_ & _ & -> & results & Href & [[reasoning Ht] _ _ _ _] & Hbad). destruct H0 as [Hne _].
    exists calls, reasoning, results. split_and!; try done. eapply referring_answered; [|exact Href].
    apply Run_answers in H3 as (Hl & _ & Hr). by apply answered_lookup.
Qed.
Lemma step_asks step st r st' e i t q : Step step st r st' e -> TGenerate i t q ∈ e -> i = step /\ t = ts_transcript st.
Proof.
  assert (Hno : forall b err e', End b err e' -> TGenerate i t q ∉ e').
  { intros b err e' He. destruct err; cbn in He; deex; subst; unfold end_acts; destruct (_ && _); set_solver. }
  inversion 1; subst; intros Hin; try (destruct r as [er|]; deex; subst); set_solver.
Qed.

(** C25: what the model is sent in its k-th call is a conversation of k-1 rounds: each is a message with the calls the model
    made, none empty, and then one with exactly one result per call, in the order of the calls and naming them,
    whatever failed, was refused or was skipped. *)
Theorem model_sees_answered_calls view err st tr step t q : whole_turn view = Ok (err, st, tr) -> TGenerate step t q ∈ acts tr ->
  dialogue t /\ Z.of_nat (length t) = (2 * (step - 1))%Z.
Proof.
  set (seen := fun (h : list Event) => forall step t q, TGenerate step t q ∈ h -> dialogue t /\ Z.of_nat (length t) = (2 * (step - 1))%Z).
  intros Ht. apply (rule (fun step st h => seen h /\ dialogue (ts_transcript st) /\ Z.of_nat (length (ts_transcript st)) = (2 * (step - 1))%Z)
    (fun _ h => seen h)) in Ht; [by apply Ht| | | |]; unfold seen in *; clear.
  - intros st (-> & _). split_and!; [set_solver|constructor|done].
  - intros step st h r st' e _ (Hh & Hd & Hl) Hs. assert (Hseen : forall step t q, TGenerate step t q ∈ h ++ e -> dialogue t
      /\ Z.of_nat (length t) = (2 * (step - 1))%Z).
    { intros i t q Hin. apply elem_of_app in Hin as [Hin|Hin]; [by eapply Hh|]. by destruct (step_asks _ _ _ _ _ _ _ _ Hs Hin) as [-> ->]. }
    destruct r as [err|[]]; [done|]. destruct (step_round _ _ _ _ Hs) as (calls & reasoning & results & -> & Hne & Ha & _).
    split_and!; [done|by constructor|rewrite length_app; cbn; lia].
  - intros step st h err e (Hh & _) He i t q Hin. apply elem_of_app in Hin as [Hin|Hin]; [by eapply Hh|].
    exfalso. destruct He as (? & ? & ? & _ & ->). unfold end_acts in Hin. destruct (_ && _); set_solver.
  - intros b err e _ He i t q Hin. exfalso. destruct err; cbn in He; deex; subst; unfold end_acts in Hin; destruct (_ && _); set_solver.
Qed.

(** *** One correction *)
Definition tool_answers (t : Transcript) : list (list Result) := omap (fun m => match m with ToolAnswers r => Some r | AssistantCalls _ _ => None end) t.
Lemma tool_answers_round t calls reasoning results : tool_answers (t ++ [AssistantCalls calls reasoning; ToolAnswers results]) = tool_answers t ++ [results].
Proof. unfold tool_answers. by rewrite omap_app. Qed.
(** Of the answers at most one fails its arguments, and none invalid comes next. *)
Definition corrected (answers : list (list Result)) : Prop := forall i j r r', answers !! i = Some r -> answers !! j = Some r' -> i < j ->
  hasToolArgumentFailure r = true -> hasToolArgumentFailure r' = false /\ (j = S i -> hasInvalidToolResult r' = false).
Definition no_failure (answers : list (list Result)) : Prop := Forall (fun r => hasToolArgumentFailure r = false) answers.
Lemma corrected_snoc answers results : corrected answers ->
  (hasToolArgumentFailure results = true -> no_failure answers) ->
  (forall r, last answers = Some r -> hasToolArgumentFailure r = true -> hasInvalidToolResult results = false) ->
  corrected (answers ++ [results]).
Proof.
  intros Hc Hf Hl i j r r' Hi Hj Hij Hr. apply lookup_snoc_Some in Hj as [[Hj1 Hj]|[-> <-]].
  - apply lookup_snoc_Some in Hi as [[Hi1 Hi]|[-> <-]]; [by eapply Hc|lia].
  - apply lookup_snoc_Some in Hi as [[Hi1 Hi]|[-> <-]]; [|lia]. split.
    + apply not_true_iff_false. intros H. specialize (Hf H). apply (Forall_lookup_1 _ _ _ _ Hf) in Hi. congruence.
    + intros Hlast. apply (Hl r); [|done]. rewrite last_lookup. by replace (pred (length answers)) with i by lia.
Qed.

(** Arguments are corrected once per turn: when the model is asked again, at most one of the answers it sees, over the
    whole turn, says that arguments could not be used, and the answer to what it did next holds no invalid result. *)
Theorem arguments_are_corrected_once view err st tr step t q : whole_turn view = Ok (err, st, tr) -> TGenerate step t q ∈ acts tr ->
  corrected (tool_answers t).
Proof.
  set (seen := fun (h : list Event) => forall step t q, TGenerate step t q ∈ h -> corrected (tool_answers t)).
  intros Ht. apply (rule (fun step st h => seen h /\ corrected (tool_answers (ts_transcript st))
      /\ (ts_correctionUsed st = false -> no_failure (tool_answers (ts_transcript st)))
      /\ (ts_correctionPending st = true -> ts_correctionUsed st = true)
      /\ forall r, last (tool_answers (ts_transcript st)) = Some r -> hasToolArgumentFailure r = true -> ts_correctionPending st = true)
    (fun _ h => seen h)) in Ht; [by eapply Ht| | | |]; unfold seen in *; clear.
  - intros st (-> & _ & _ & _ & -> & -> & _). split_and!; [set_solver|by intros i|constructor|done|done].
  - intros step st h r st' e _ (Hh & Hc & Hu & Hpu & Hp) Hs. assert (Hseen : forall step t q, TGenerate step t q ∈ h ++ e -> corrected (tool_answers t)).
    { intros i t q Hin. apply elem_of_app in Hin as [Hin|Hin]; [by eapply Hh|]. by destruct (step_asks _ _ _ _ _ _ _ _ Hs Hin) as [-> ->]. }
    destruct r as [err|[]]; [done|]. destruct (step_round _ _ _ _ Hs) as (calls & reasoning & results & -> & Hne & Ha & Hbad).
    rewrite tool_answers_round. split; [done|]. unfold bad_arguments in Hbad. destruct (hasToolArgumentFailure results) eqn:Hf; cbn in Hbad.
    + destruct Hbad as (H1 & H2 & H3). split_and!; try done; [|congruence].
      apply corrected_snoc; [done|by intros _; apply Hu|]. intros r Hr Hfr. specialize (Hp r Hr Hfr). specialize (Hpu Hp). congruence.
    + destruct (ts_correctionPending st) eqn:Hpe; cbn in Hbad.
      * destruct (hasInvalidToolResult results) eqn:Hi; [destruct Hbad as [H1 _]; specialize (Hpu eq_refl); congruence|].
        destruct Hbad as (H1 & H2). split_and!; [apply corrected_snoc; [done|congruence|done]| |congruence|].
        -- intros Hu'. rewrite H1, Hpu in Hu' by done. done.
        -- intros r. rewrite last_snoc. intros [= <-]. congruence.
      * destruct Hbad as (H1 & H2). split_and!; [|intros Hu'; rewrite H1 in Hu'; apply Forall_app; split; [by apply Hu|by repeat constructor]|congruence|].
        -- apply corrected_snoc; [done|congruence|]. intros r Hr Hfr. specialize (Hp r Hr Hfr). done.
        -- intros r. rewrite last_snoc. intros [= <-]. congruence.
  - intros step st h err e (Hh & _) He i t q Hin. apply elem_of_app in Hin as [Hin|Hin]; [by eapply Hh|].
    exfalso. destruct He as (? & ? & ? & _ & ->). unfold end_acts in Hin. destruct (_ && _); set_solver.
  - intros b err e _ He i t q Hin. exfalso. destruct err; cbn in He; deex; subst; unfold end_acts in Hin; destruct (_ && _); set_solver.
Qed.

(** ** What the history says *)
Notation HStep := (HistoryStep (Value := Value)).
Notation Execution := (HistoryExecution (Value := Value)).
Definition accounts (call : Call) (e : Execution) : Prop :=
  tc_ID (he_Call e) = tc_ID call /\ tc_Name (he_Call e) = tc_Name call /\ recorded e.
Definition accounted (s : HStep) : Prop := Forall2 accounts (md_ToolCalls (hs_Decision s)) (hs_Executions s).
(** The steps of a history record of a turn that did [h]. *)
Definition told (steps : list HStep) (h : list Event) : Prop :=
  hs_Index <$> steps = seqZ 1 (Z.of_nat (length steps)) /\ length steps <= generates h <= S (length steps)
  /\ (forall i s, steps !! i = Some s -> accounted s \/ (S i = length steps /\ hs_Executions s = []))
  /\ forall k calls btr, TBatch k calls btr ∈ h -> exists s, s ∈ steps /\ hs_Index s = k /\ Forall2 accounts calls (hs_Executions s).
Lemma told_nil : told [] [].
Proof. split; [done|]. split; [cbn; lia|]. split; [by intros i|]. intros k calls btr Hin. by apply elem_of_nil in Hin. Qed.

Lemma at_index_new step f (steps : list HStep) : step ∉ hs_Index <$> steps -> at_index step f steps = steps ++ [f (mkStep step zeroDecision [])].
Proof.
  induction steps as [|s steps IH]; [done|]. rewrite fmap_cons. intros Hn. apply not_elem_of_cons in Hn as [Hs Hn]. cbn.
  rewrite bool_decide_eq_false_2 by done. by rewrite IH.
Qed.
Lemma at_index_last step f (steps : list HStep) s : step ∉ hs_Index <$> steps -> hs_Index s = step -> at_index step f (steps ++ [s]) = steps ++ [f s].
Proof.
  intros Hn Hs. induction steps as [|s' steps IH]; cbn; [by rewrite bool_decide_eq_true_2|]. rewrite fmap_cons in Hn.
  apply not_elem_of_cons in Hn as [Hs' Hn]. rewrite bool_decide_eq_false_2 by done. by rewrite IH.
Qed.
Lemma recorded_steps step d ex (b : Batch) : step ∉ hs_Index <$> hb_Steps b ->
  hb_Steps (collect_Executions step ex (collect_Decision step d b)) = hb_Steps b ++ [mkStep step d ex].
Proof.
  intros Hn. assert (Hd : hb_Steps (collect_Decision step d b) = hb_Steps b ++ [mkStep step d []]) by (cbn; by rewrite at_index_new).
  destruct ex as [|e ex]; [done|]. unfold collect_Executions, with_steps. cbn [hb_Steps]. rewrite Hd. by rewrite at_index_last.
Qed.
Lemma Finish_steps status stage reason err (b : Batch) : hs_Index <$> hb_Steps b = seqZ 1 (Z.of_nat (length (hb_Steps b))) ->
  hb_Steps (Finish status stage reason err b) = hb_Steps b.
Proof.
  intros Hi. cbn. apply sort_slice_id. generalize dependent (hb_Steps b). clear. intros l.
  assert (Hgen : forall n, hs_Index <$> l = seqZ n (Z.of_nat (length l)) -> StronglySorted (fun a b => by_key hs_Index b a = false) l).
  { induction l as [|s l IH]; intros n Hn; [constructor|]. rewrite fmap_cons in Hn. cbn [length] in Hn. rewrite Nat2Z.inj_succ, seqZ_cons in Hn by lia.
    injection Hn as Hs Hn. rewrite Z.pred_succ in Hn. constructor; [by eapply IH|]. apply Forall_forall. intros x Hx. unfold by_key. apply Z.ltb_ge.
    assert (Hin : hs_Index x ∈ hs_Index <$> l) by by apply list_elem_of_fmap_2. rewrite Hn in Hin. apply elem_of_seqZ in Hin. lia. }
  apply Hgen.
Qed.
Lemma fresh_index step (steps : list HStep) : hs_Index <$> steps = seqZ 1 (step - 1) -> step ∉ hs_Index <$> steps.
Proof. intros ->. rewrite elem_of_seqZ. lia. Qed.
Lemma redacted_accounts view calls ex :
  Forall2 accounts (redactTaskCalls config turnID event task view calls) ex <-> Forall2 accounts calls ex.
Proof.
  unfold redactTaskCalls. rewrite Forall2_fmap_l. split; intros H; (eapply Forall2_impl; [exact H|]); intros call e; cbn; unfold accounts; cbn; by destruct (isTaskHistoryCall _ _).
Qed.
Lemma reused_accounts view calls seen results : validateToolCallIDsAcrossSteps calls seen = Some results ->
  Forall2 accounts calls (zip_with (fun call r => with_RuntimeResult (Some r) (new_execution call))
                            (redactTaskCalls config turnID event task view calls) results).
Proof.
  intros Hv. apply validate_results in Hv as [Ha _]. unfold redactTaskCalls. induction Ha as [|call r calls results _ _ IH]; cbn; constructor; [|done].
  unfold accounts. cbn. destruct (isTaskHistoryCall _ _); cbn; split_and!; try done; left; by eexists.
Qed.
Lemma ran_accounts s blib out pick w en calls o err tr : executors_answer out -> Run s blib out pick w en calls = (o, err, tr) ->
  Forall2 accounts calls (bo_Executions o).
Proof.
  intros Hex Hrun. destruct (Run_accounts _ _ _ _ _ _ _ _ _ _ Hex Hrun) as [Hl Hat].
  apply Forall2_same_length_lookup. split; [done|]. intros i call e Hc He. destruct (Hat i call Hc) as (e' & He' & H1 & H2 & H3 & _).
  rewrite He in He'. injection He' as <-. by split_and!.
Qed.

Section History.
Hypothesis answer : forall step, executors_answer (so_batch (at_step step)).
(** What a step adds to the history: nothing when the model did not answer, else one
    step, which accounts for its calls unless none was run. *)
Lemma step_history step st r st' e : Step step st r st' e -> hs_Index <$> hb_Steps (ts_collector st) = seqZ 1 (step - 1) ->
  exists b work final, e = work ++ final /\ Forall is_work work /\ generates work <= 1
    /\ match r with inl err => End b err final | inr _ => final = [] /\ ts_collector st' = b end
    /\ ((hb_Steps b = hb_Steps (ts_collector st) /\ r <> inr tt /\ forall k calls btr, TBatch k calls btr ∉ work)
       \/ exists s, hb_Steps b = hb_Steps (ts_collector st) ++ [s] /\ hs_Index s = step /\ generates work = 1
          /\ (accounted s \/ (hs_Executions s = [] /\ r <> inr tt))
          /\ forall k calls btr, TBatch k calls btr ∈ work -> k = step /\ Forall2 accounts calls (hs_Executions s)).
Proof.
  intros Hst Hi. apply fresh_index in Hi. inversion Hst; subst.
  - exists (ts_collector st), [], e. split_and!; try done; [cbn; lia|]. left. split_and!; [done|done|set_solver].
  - exists (ts_collector st), [TGenerate step (ts_transcript st) req], e0. split_and!; try done; [by repeat constructor|]. left. split_and!; [done|done|set_solver].
  - exists (collect_Decision step d (ts_collector st)), [TGenerate step (ts_transcript st) req], e0. split_and!; try done; [by repeat constructor|].
    right. exists (mkStep step d []). split_and!; try done; [by apply (recorded_steps step d [])|by right|set_solver].
  - exists b, [TGenerate step (ts_transcript st) req], e0. rewrite recorded_steps in H2 by done.
    split_and!; try done; [by repeat constructor|destruct r; [done|by naive_solver]|]. right. eexists. split; [exact H2|]. split_and!; try done; [|set_solver].
    left. unfold accounted. cbn. rewrite H0, redacted_accounts. by eapply reused_accounts.
  - exists b, [TGenerate step (ts_transcript st) req; TBatch step calls tr], e0. rewrite recorded_steps in H3 by done.
    pose proof (fun H => ran_accounts _ _ _ _ _ _ _ _ _ _ H H2) as Hacc. specialize (Hacc (answer step)).
    split_and!; try done; [by repeat constructor|destruct r; [done|by naive_solver]|]. right. eexists. split; [exact H3|]. split_and!; try done.
    + left. unfold accounted. cbn. by rewrite H0, redacted_accounts.
    + intros k calls' btr Hin. assert (k = step /\ calls' = calls) as [-> ->] by set_solver. done.
Qed.

(** C6: the history record of a turn tells what happened in it: its steps are numbered 1, 2, ... without gaps, one for each
    answer of the model; each names its calls one by one with an execution for each that has a result or an error,
    except the last, whose calls may have been refused before any was run; and each batch that ran is one of its steps.
    Runtime tools are assumed to give a call that did not fail a status. *)
Theorem history_tells_the_turn view err st tr b : whole_turn view = Ok (err, st, tr) -> THistory b ∈ acts tr -> told (hb_Steps b) (acts tr).
Proof.
  assert (Hend : forall b b' err e h, told (hb_Steps b) h -> (forall x, THistory x ∉ h) -> End b err e -> THistory b' ∈ h ++ e -> told (hb_Steps b') (h ++ e)).
  { intros b1 b' err1 e h Ht Hno He Hin. assert (Hs : hb_Steps b' = hb_Steps b1).
    { apply elem_of_app in Hin as [Hin|Hin]; [by apply Hno in Hin|]. destruct Ht as [Hi _].
      destruct err1; cbn in He; deex; subst; unfold end_acts in Hin; destruct (_ && _); apply elem_of_app in Hin as [Hin|Hin];
        try (by apply elem_of_nil in Hin); try (by repeat (apply elem_of_cons in Hin as [Hin|Hin]; [done|]); apply elem_of_nil in Hin);
        apply list_elem_of_singleton in Hin; injection Hin as ->; by apply Finish_steps. }
    rewrite Hs. destruct Ht as (H1 & H2 & H3 & H4). destruct (Ended_nothing _ _ _ He) as [Hg _]. split_and!; [done| | |done|].
    - rewrite generates_app, Hg, Nat.add_0_r. lia.
    - rewrite generates_app, Hg, Nat.add_0_r. lia.
    - intros k calls btr Hk. apply elem_of_app in Hk as [Hk|Hk]; [by apply H4 in Hk|]. exfalso.
      destruct err1; cbn in He; deex; subst; unfold end_acts in Hk; destruct (_ && _); set_solver. }
  set (all_told := fun (h : list Event) => forall b, THistory b ∈ h -> told (hb_Steps b) h).
  intros Ht. revert b. apply (rule (fun step st h => told (hb_Steps (ts_collector st)) h /\ (forall x, THistory x ∉ h)
      /\ Forall accounted (hb_Steps (ts_collector st)) /\ generates h = length (hb_Steps (ts_collector st))
      /\ Z.of_nat (length (hb_Steps (ts_collector st))) = (step - 1)%Z)
    (fun _ h => all_told h)) in Ht; [exact Ht| | | |]; unfold all_told in *.
  - intros st0 (_ & _ & _ & _ & _ & _ & _ & Hs). rewrite Hs. split_and!; try done; [apply told_nil|set_solver].
  - intros step st0 h r st' e _ (Htold & Hno & Hall & Hg & Hl) Hs. pose proof Htold as (Hi & Hlen & _ & Hb). rewrite Hl in Hi.
    destruct (step_history _ _ _ _ _ Hs Hi) as (b & work & final & -> & Hw & Hgw & Hr & Hsteps).
    assert (Hno' : forall x, THistory x ∉ h ++ work).
    { intros x Hx. apply elem_of_app in Hx as [Hx|Hx]; [by apply Hno in Hx|]. rewrite Forall_forall in Hw. by apply Hw in Hx. }
    assert (Htold' : told (hb_Steps b) (h ++ work)
      /\ (r = inr tt -> Forall accounted (hb_Steps b) /\ generates (h ++ work) = length (hb_Steps b)
           /\ Z.of_nat (length (hb_Steps b)) = (step + 1 - 1)%Z)).
    { destruct Hsteps as [(Hsb & Hne & Hnb)|(s & Hsb & His & Hgs & Hacc & Hbw)]; rewrite Hsb.
      - split; [|done]. destruct Htold as (H1 & H2 & H3 & H4). split_and!; [done|rewrite generates_app; lia|rewrite generates_app; lia|done|].
        intros k calls btr Hk. apply elem_of_app in Hk as [Hk|Hk]; [by apply H4 in Hk|by apply Hnb in Hk].
      - split; [split_and!|].
        + rewrite fmap_app, Hi. cbn. rewrite His. replace (length (_ ++ [s])) with (S (length (hb_Steps (ts_collector st0)))) by (rewrite length_app; cbn; lia).
          rewrite seqZ_S, Hl. do 2 f_equal. lia.
        + rewrite length_app, generates_app. cbn. lia.
        + rewrite length_app, generates_app. cbn. lia.
        + intros i s' His'. apply lookup_snoc_Some in His' as [[_ His']|[-> <-]]; [left; by eapply Forall_lookup_1|].
          destruct Hacc as [Hacc|[Hacc _]]; [by left|right]. rewrite length_app. cbn. split; [lia|done].
        + intros k calls btr Hk. apply elem_of_app in Hk as [Hk|Hk].
          * destruct (Hb _ _ _ Hk) as (s' & Hin & Hx). exists s'. split; [apply elem_of_app; by left|done].
          * destruct (Hbw _ _ _ Hk) as [-> Hx]. exists s. split_and!; [apply elem_of_app; right; set_solver|done|done].
        + intros Hrr. rewrite length_app, generates_app. cbn [length]. split_and!; [|lia|lia]. apply Forall_app. split; [done|]. constructor; [|done].
          destruct Hacc as [Hacc|[_ Hne]]; [done|by destruct Hne]. }
    destruct Htold' as [Htold' Hon]. destruct r as [err'|[]].
    + rewrite app_assoc. intros b' Hin. by eapply Hend.
    + destruct Hr as [-> ->]. rewrite app_nil_r. destruct (Hon eq_refl) as (Ha & Hb1 & Hb2). by split_and!.
  - intros step st0 h err' e (Htold & Hno & _) He b Hin. by eapply Hend.
  - intros b err' e Hsb He b' Hin. apply (Hend b b' err' e []); [rewrite Hsb; apply told_nil|set_solver|done|done].
Qed.
End History.
End Facts.

(** ** A turn of three steps: arguments that miss, their correction, and the end *)
Definition demo_view : turnView := {| tv_Lookup := bs_view batch_scheduler; tv_RuntimeContext := false; tv_ObservedTask := false |}.
Definition demo_turn_library : turnLibrary (Value := string) :=
  {| tl_quote := fun t => t; Is_quota := fun _ => false; Is_busy := fun _ => false; Is_invalid_json := fun _ => false;
     Is_truncated := fun _ => false; Is_over_budget := fun _ => false; Is_invalid_input := fun _ => false; FailureReason := fun _ => None;
     As_execution := fun _ => None; put_proposal_ref := fun _ ref => ref |}.
Definition demo_turn_config : turnConfig :=
  {| MaxSteps := 3; MaxToolCallsPerStep := 2; MaxToolCallsPerTurn := 4; MaxAsyncActionsPerTurn := 1; MaxParallelToolCalls := 2;
     MemoryEnabled := true; has_historyStore := true; has_memory := false; KnowledgeEnabled := false; has_knowledge := false |}.
Definition demo_response (step : Z) : Response (Value := string) :=
  let control k := {| cd_Kind := k; cd_Reason := "" |} in
  {| rp_Decision := match step with
                    | 1%Z => mkDecision [mkCall "a" "look" None "" ""] (control ControlContinue)
                    | 2%Z => mkDecision [batch_call "b" "look"; batch_call "c" "look"] (control ControlContinue)
                    | _ => mkDecision [] (control ControlSettle)
                    end; rp_ReasoningContent := "" |}.
Definition demo_step (step : Z) : stepOutside (Value := string) (Request := nat) :=
  {| so_ctx := None; so_ctx_model := None; so_stopped := (false, None); so_stopped_after := (false, None); so_snapshot := Ok demo_view;
     so_build := fun _ t _ => Ok (length t); so_generate := fun _ => Ok (demo_response step); so_lib := batch_library;
     so_batch := batch_outside "succeeded"; so_pick := batch_first; so_register := None; so_capture := fun _ => (""%string, None);
     so_releaser := false; so_release := None; so_observe := Ok None |}.
Definition demo_end : turnEnd := {| te_ctx_done := false; te_append := None; te_send := None; te_project := None |}.
Definition demo_key : AgentSessionKey := {| GameID := "game"; WorldID := "world"; EntityID := "npc" |}.
Definition demo_opening : turnOpening (Value := string) :=
  {| to_admit := Ok demo_view; to_observe := Ok None; to_stopped := (false, None); to_snapshot := Ok demo_view |}.
Definition demo_result : outcome error (option error * turnState (Value := string) * list (turn_event (Value := string) (Request := nat))) :=
  handleTurn demo_turn_library demo_turn_config demo_step demo_end demo_key "turn" (Some nil_event) None demo_opening demo_view.
Definition demo_final : turnState (Value := string) :=
  match demo_result with Ok (_, st, _) => st | Err _ => new_turn demo_key "turn" None None demo_view end.
Definition demo_trace : list (turn_event (Value := string) (Request := nat)) := match demo_result with Ok (_, _, tr) => tr | Err _ => [] end.
Lemma demo_turn_runs : demo_result = Ok (None, demo_final, demo_trace).
Proof. vm_compute. reflexivity. Qed.
(** What the model is sent in the third step, and the history record. *)
Definition demo_transcript : list (Message (Value := string)) :=
  default [] (head (omap (fun e => match e with TGenerate 3 t _ => Some t | _ => None end) (acts demo_trace))).
Definition demo_history : HistoryBatch (Value := string) :=
  default (newTurnHistoryCollector demo_key "" nil_event) (head (omap (fun e => match e with THistory b => Some b | _ => None end) (acts demo_trace))).
Definition demo_asks := TGenerate 3 demo_transcript (Value := string) 4.
Lemma demo_asked : demo_asks ∈ acts demo_trace.
Proof. apply list_elem_of_lookup_2 with 4. vm_compute. reflexivity. Qed.
Lemma demo_recorded : THistory demo_history ∈ acts demo_trace.
Proof. apply list_elem_of_lookup_2 with 5. vm_compute. reflexivity. Qed.

Lemma turn_ends_once_witness : exists body b completion final, acts demo_trace = body ++ [THistory b] ++ [TCompletion completion; final]
  /\ cp_Status completion = TURN_COMPLETION_STATUS_COMPLETED /\ ht_Status (hb_Terminal b) = "completed"%string.
Proof.
  destruct (turn_ends_once _ _ _ _ _ _ _ _ _ _ _ _ _ demo_turn_runs) as (body & b & completion & final & H & _ & _ & Hs & _ & _ & Hb).
  exists body, b, completion, final. split; [exact H|]. split; [exact Hs|exact Hb].
Defined.
Lemma tool_call_runs_once_witness : ids_of (pc_call <$> turn_launches demo_trace) = ["b"; "c"]%string /\ NoDup (ids_of (pc_call <$> turn_launches demo_trace)).
Proof.
  split; [vm_compute; reflexivity|]. exact (tool_call_runs_once _ _ _ _ _ _ _ _ _ _ _ _ _ demo_turn_runs).
Defined.
Lemma turn_is_bounded_witness : generates demo_trace = 3 /\ length (turn_launches demo_trace) = 2 /\ generates demo_trace <= 3
  /\ length (turn_launches demo_trace) <= 4.
Proof.
  destruct (turn_is_bounded _ _ _ _ _ _ _ _ _ _ _ _ _ demo_turn_runs) as (H1 & H2 & _).
  split; [vm_compute; reflexivity|]. split; [vm_compute; reflexivity|]. split; [exact H1|exact H2].
Defined.
Lemma model_sees_answered_calls_witness : length demo_transcript = 4 /\ dialogue demo_transcript.
Proof.
  split; [vm_compute; reflexivity|].
  exact (proj1 (model_sees_answered_calls _ _ _ _ _ _ _ _ _ _ _ _ _ _ _ _ demo_turn_runs demo_asked)).
Defined.
Lemma arguments_are_corrected_once_witness : hasToolArgumentFailure <$> tool_answers demo_transcript = [true; false] /\ corrected (tool_answers demo_transcript).
Proof.
  split; [vm_compute; reflexivity|].
  exact (arguments_are_corrected_once _ _ _ _ _ _ _ _ _ _ _ _ _ _ _ _ demo_turn_runs demo_asked).
Defined.
Lemma history_tells_the_turn_witness : hs_Index <$> hb_Steps demo_history = [1; 2; 3]%Z /\ told (hb_Steps demo_history) (acts demo_trace).
Proof.
  split; [vm_compute; reflexivity|].
  assert (Hans : forall step, executors_answer (so_batch (demo_step step))) by (intros step item r [= <-]; done).
  exact (history_tells_the_turn _ _ _ _ _ _ _ _ _ Hans _ _ _ _ _ demo_turn_runs demo_recorded).
Defined.
