(* ===== verification/Tooling.v ===== *)
(** * The task tools of a turn: [runtime/internal/tool/task_tools.go], [proposal.go]

    The two tools by which a model creates and changes tasks.  An action of the player's
    environment can propose a task; [CaptureProposal] keeps the proposal under a
    reference, [create_task] turns it into a task, and [update_task] sends an intent to
    the task the turn was shown.  Both go through the world registry's guard to the
    kernel, so their state is the references of the turn and the registry.

    Arguments are JSON values as the provider decoded them: of a number the code sees
    whether it is integral and which [int64] its text stands for; what else an object
    or array holds is not looked at. *)

From S2P Require Export Registry Turn.

Local Open Scope go_scope.

(** ** Arguments: [schema.go] *)
Record number := { nm_integral : bool; nm_int64 : option Z }.
Inductive any :=
| AnyString (s : string) | AnyNumber (n : number) | AnyInt (z : Z) | AnyUint (n : N) | AnyBool (b : bool) | AnyNil | AnyOther (object : bool).
#[export] Instance number_eq_dec : EqDecision number. Proof. solve_decision. Defined.
#[export] Instance any_eq_dec : EqDecision any. Proof. solve_decision. Defined.
Notation object := (gmap string any).

(** Enums of strings; a schema's properties in any order. *)
Record propertySchema := { ps_Type : string; ps_Enum : list string; ps_MinLength : option Z; ps_MaxLength : option Z }.
Record argumentSchema := {
  as_Type : string; as_Required : list string; as_Properties : list (string * propertySchema); as_AdditionalProperties : bool
}.
Definition rune_count (s : string) : Z := Z.of_nat (length (runes s)).
Definition valueMatchesJSONSchemaType (value : any) (want : string) : bool :=
  if want == "string" then match value with AnyString _ => true | _ => false end
  else if want == "boolean" then match value with AnyBool _ => true | _ => false end
  else if want == "number" then match value with AnyNumber _ | AnyInt _ | AnyUint _ => true | _ => false end
  else if want == "integer" then match value with AnyNumber n => nm_integral n | AnyInt _ | AnyUint _ => true | _ => false end
  else if want == "object" then match value with AnyOther o => o | _ => false end
  else if want == "array" then match value with AnyOther o => negb o | _ => false end
  else if want == "null" then match value with AnyNil => true | _ => false end
  else true.
Definition enumContains (values : list string) (candidate : any) : bool :=
  match candidate with AnyString s => existsb (fun v => v == s) values | _ => false end.
Definition property_ok (property : propertySchema) (value : any) : bool :=
  (match ps_Enum property with [] => true | values => enumContains values value end)
  && ((ps_Type property == "") || valueMatchesJSONSchemaType value (ps_Type property))
  && match value with
     | AnyString text =>
       match ps_MinLength property with Some n => (n <=? rune_count text)%Z | None => true end
       && match ps_MaxLength property with Some n => (rune_count text <=? n)%Z | None => true end
     | _ => true
     end.
(** [ValidateArguments(schema, arguments) == nil] *)
Definition tool_ValidateArguments (schema : argumentSchema) (arguments : object) : bool :=
  ((as_Type schema == "") || (as_Type schema == "object"))
  && forallb (fun name => bool_decide (is_Some (arguments !! name))) (as_Required schema)
  && (as_AdditionalProperties schema
      || forallb (fun name => existsb (fun p => p.1 == name) (as_Properties schema)) (map_to_list arguments).*1)
  && forallb (fun p => match arguments !! p.1 with Some value => property_ok p.2 value | None => true end) (as_Properties schema).

Definition string_property (enum : list string) (min max : option Z) : propertySchema :=
  {| ps_Type := "string"; ps_Enum := enum; ps_MinLength := min; ps_MaxLength := max |}.
Definition createTaskToolName : string := "create_task".
Definition updateTaskToolName : string := "update_task".
Definition createTaskSchema : argumentSchema :=
  {| as_Type := "object"; as_Required := ["proposal_ref"; "instruction"];
     as_Properties := [("proposal_ref", string_property [] (Some 1%Z) None); ("instruction", string_property [] (Some 1%Z) (Some 2048%Z))];
     as_AdditionalProperties := false |}%string.
Definition updateTaskSchema : argumentSchema :=
  {| as_Type := "object"; as_Required := ["task_id"; "intent"];
     as_Properties :=
       [("task_id", string_property [] (Some 1%Z) None); ("intent", string_property ["wait"; "cancel"] None None);
        ("next_wakeup_at", {| ps_Type := "integer"; ps_Enum := []; ps_MinLength := None; ps_MaxLength := None |});
        ("progress_note", string_property [] None (Some 2048%Z)); ("reason", string_property [] None (Some 512%Z))];
     as_AdditionalProperties := false |}%string.

(** ** Data *)
Record RuntimeCallContext := {
  rc_Execution : ExecutionContext; rc_InteractionSourceID : string; rc_ObservedTask : option TaskRecord;
  rc_RecentResults : list Result; rc_AuthorityEpoch : N
}.
(** The proposal of the protocol; its payload is the JSON text of its object, or fails to
    marshal. *)
Record TaskProposal := {
  pt_ClockId : string; pt_NowTick : Z; pt_Sequence : N; pt_WakeAt : Z; pt_DeadlineAt : Z; pt_Participants : list string;
  pt_EquivalenceKey : string; pt_Payload : option (option RawMessage)
}.
Record taskProposal := {
  tp_Clock : Clock; tp_WakeAt : Z; tp_DeadlineAt : Z; tp_ParticipantEntityIDs : list string; tp_EquivalenceKey : string;
  tp_Payload : RawMessage
}.
Definition marshalProposal (p : taskProposal) : option string :=
  payload ← raw_field "payload" (tp_Payload p);
  Some (enc_object [field "clock" (marshalClock (tp_Clock p)); field "wake_at" (enc_int (tp_WakeAt p));
                    field "deadline_at" (enc_int (tp_DeadlineAt p));
                    field "participant_entity_ids"
                      (match tp_ParticipantEntityIDs p with [] => "null" | l => enc_array (enc_string <$> l) end);
                    str_field "equivalence_key" (tp_EquivalenceKey p); payload]).
Record taskCreateResponse := { rs_arguments : string; rs_result : CreateResult }.
Record taskTools := mkTools {
  tt_authority : RuntimeCallContext; tt_proposals : gmap string taskProposal; tt_creates : gmap string taskCreateResponse; tt_closed : bool
}.
Definition NewTaskTools (authority : RuntimeCallContext) : taskTools := mkTools authority ∅ ∅ false.
Definition tools_Close (t : taskTools) : taskTools := mkTools (tt_authority t) ∅ ∅ true.
Definition OwnsTool (name : string) : bool := (name == createTaskToolName) || (name == updateTaskToolName).

Notation ToolCall := (Batch.ToolCall (Value := object)).
Notation ToolResult := (Batch.ToolResult (Value := object)).

(** ** Authority *)
Definition validTaskSource (rc : RuntimeCallContext) : bool :=
  let exec := rc_Execution rc in
  is_ok (ExecutionContext_Validate exec) && (TrimSpace (src_EventID (ex_Source exec)) != "")
  && (TrimSpace (src_TurnID (ex_Source exec)) != "")
  && match src_Kind (ex_Source exec) with
     | SourceKindInteraction => (TrimSpace (rc_InteractionSourceID rc) != "") && (ex_TaskID exec == "") && (ex_WakeID exec == "")
     | SourceKindTaskWake => (TrimSpace (ex_TaskID exec) != "") && (TrimSpace (ex_WakeID exec) != "") && (rc_InteractionSourceID rc == "")
     | _ => false
     end.
Definition checkContext (t : taskTools) (rc : RuntimeCallContext) : outcome error unit :=
  _ ← fail_if (tt_closed t) ErrWorldNotReady;
  let a := rc_Execution (tt_authority t) in
  let b := rc_Execution rc in
  fail_if (! validTaskSource rc || (ex_Owner a != ex_Owner b) || (ex_Binding a != ex_Binding b)
           || (src_Kind (ex_Source a) != src_Kind (ex_Source b)) || (src_EventID (ex_Source a) != src_EventID (ex_Source b))
           || (src_TurnID (ex_Source a) != src_TurnID (ex_Source b)) || (ex_TaskID a != ex_TaskID b) || (ex_WakeID a != ex_WakeID b)
           || (rc_InteractionSourceID (tt_authority t) != rc_InteractionSourceID rc)
           || (rc_AuthorityEpoch (tt_authority t) != rc_AuthorityEpoch rc)) ErrSourceInvalid.
Definition with_clock (clock : Clock) (e : ExecutionContext) : ExecutionContext :=
  {| ex_Owner := ex_Owner e; ex_Binding := ex_Binding e; ex_Clock := clock; ex_Source := ex_Source e; ex_TaskID := ex_TaskID e;
     ex_WakeID := ex_WakeID e; ex_WakeReason := ex_WakeReason e; ex_WakeDueAt := ex_WakeDueAt e;
     ex_ExpectedRevision := ex_ExpectedRevision e |}.
Definition with_call (callID : string) (e : ExecutionContext) : ExecutionContext :=
  let s := ex_Source e in
  {| ex_Owner := ex_Owner e; ex_Binding := ex_Binding e; ex_Clock := ex_Clock e;
     ex_Source := {| src_Kind := src_Kind s; src_EventID := src_EventID s; src_TurnID := src_TurnID s; src_CallID := callID;
                     src_GameTime := src_GameTime s; src_Facts := src_Facts s |};
     ex_TaskID := ex_TaskID e; ex_WakeID := ex_WakeID e; ex_WakeReason := ex_WakeReason e; ex_WakeDueAt := ex_WakeDueAt e;
     ex_ExpectedRevision := ex_ExpectedRevision e |}.
Definition with_task (taskID : string) (revision : N) (e : ExecutionContext) : ExecutionContext :=
  {| ex_Owner := ex_Owner e; ex_Binding := ex_Binding e; ex_Clock := ex_Clock e; ex_Source := ex_Source e; ex_TaskID := taskID;
     ex_WakeID := ex_WakeID e; ex_WakeReason := ex_WakeReason e; ex_WakeDueAt := ex_WakeDueAt e; ex_ExpectedRevision := revision |}.

Definition errTaskArguments : error := Opaque "tool_arguments_invalid" None.
Definition Is_taskArguments : error -> bool :=
  Is_leaf (fun e => match e with Opaque text None => text == "tool_arguments_invalid" | _ => false end).

Section Tools.
(** The connection's world authority: its environment and world; the context of a call;
    a fresh reference. *)
Variable envID : nat.
Variable world : WorldKey.
Variable cancelled : option error.

(** [guard]: under the context's own clock, as far as the world's has not moved back. *)
Definition task_guard {A} (t : taskTools) (rc : RuntimeCallContext) (fn : ExecutionContext -> M A) (e : Env) (r : WorldRegistry) :
    outcome error A * WorldRegistry :=
  match cancelled with
  | Some err => (Err err, r)
  | None =>
    match checkContext t rc with
    | Err err => (Err err, r)
    | Ok _ =>
      GuardOwner envID world (ex_Binding (rc_Execution rc)) (rc_AuthorityEpoch rc) (EntityID (ex_Owner (rc_Execution rc)))
        (fun head =>
           let own := ex_Clock (rc_Execution (tt_authority t)) in
           if ck_ID (hd_Clock head) != ck_ID own then fail ErrClockMismatch else
           if (ck_Tick (hd_Clock head) <? ck_Tick own)%Z || (ck_Sequence (hd_Clock head) <? ck_Sequence own)%N then fail ErrClockRewound else
           fn (with_clock (hd_Clock head) (rc_Execution (tt_authority t)))) e r
    end
  end.

(** ** Proposals: [proposal.go] *)
Definition normalizeTaskProposal (value : TaskProposal) : outcome error taskProposal :=
  let clock := {| ck_ID := pt_ClockId value; ck_Tick := pt_NowTick value; ck_Sequence := pt_Sequence value |} in
  _ ← fail_if (! is_ok (Clock_Validate clock) || (MaxInt64N <? ck_Sequence clock)%N || (pt_WakeAt value <=? ck_Tick clock)%Z
               || (pt_DeadlineAt value <? pt_WakeAt value)%Z
               || ((pt_EquivalenceKey value != "") && (TrimSpace (pt_EquivalenceKey value) == ""))) ErrInvalidTaskSpec;
  _ ← fail_if (existsb (fun id => TrimSpace id == "") (pt_Participants value)) ErrInvalidTaskSpec;
  payload ← match pt_Payload value with None => Ok ""%string | Some p => of_option p ErrInvalidTaskSpec end;
  Ok {| tp_Clock := clock; tp_WakeAt := pt_WakeAt value; tp_DeadlineAt := pt_DeadlineAt value;
        tp_ParticipantEntityIDs := pt_Participants value; tp_EquivalenceKey := pt_EquivalenceKey value; tp_Payload := payload |}.
(** The proposal of a succeeded action; [ref] is the fresh reference. *)
Definition CaptureProposal (ref : string) (rc : RuntimeCallContext) (status : ActionStatus) (value : option TaskProposal) (t : taskTools)
    (e : Env) (r : WorldRegistry) : (string * option error) * taskTools * WorldRegistry :=
  match status, value with
  | ACTION_STATUS_SUCCEEDED, Some value =>
    match normalizeTaskProposal value with
    | Err _ => ((""%string, None), t, r)
    | Ok proposal =>
      let '(o, r) := task_guard t rc (fun exec =>
        if src_Kind (ex_Source exec) != SourceKindInteraction then fail ErrSourceInvalid else
        if ck_ID (tp_Clock proposal) != ck_ID (ex_Clock exec) then fail ErrClockMismatch else
        mret (! ((ck_Tick (ex_Clock exec) <? ck_Tick (tp_Clock proposal))%Z || (ck_Sequence (ex_Clock exec) <? ck_Sequence (tp_Clock proposal))%N
                 || (tp_WakeAt proposal <=? ck_Tick (ex_Clock exec))%Z))) e r in
      match o with
      | Err err => ((""%string, Some err), t, r)
      | Ok false => ((""%string, None), t, r)
      | Ok true => ((ref, None), mkTools (tt_authority t) (<[ref := proposal]> (tt_proposals t)) (tt_creates t) (tt_closed t), r)
      end
    end
  | _, _ => ((""%string, None), t, r)
  end.

(** ** What the turn is offered *)
Definition activeTask (state : State) : bool := match state with StateWaiting | StateRunning | StatePaused => true | _ => false end.
Definition task_entry (schema : string) : Entry :=
  {| en_InputSchema := schema; en_Kind := KindRuntime; en_Concurrency := ConcurrencySequential; en_Execution := ExecutionSync;
     en_Policy := {| ExclusivePerStep := true; SettleAfterSuccess := false |}; en_Executor := Some TaskTools |}.
Definition Entries (schemas : string * string) (rc : RuntimeCallContext) (t : taskTools) (r : WorldRegistry) :
    list (string * Entry) * taskTools :=
  if ! is_ok (checkContext t rc) then ([], t) else
  let exec := rc_Execution rc in
  let gone := ([], mkTools (tt_authority t) ∅ (tt_creates t) (tt_closed t)) in
  match authority_Current envID world r with
  | None => gone
  | Some (head, epoch) =>
    if (hd_Binding head != ex_Binding exec) || (epoch != rc_AuthorityEpoch rc) || (ck_ID (hd_Clock head) != ck_ID (ex_Clock exec)) then gone else
    (((if (src_Kind (ex_Source exec) == SourceKindInteraction) && (tt_proposals t != ∅)
       then [(createTaskToolName, task_entry schemas.1)] else [])
      ++ match rc_ObservedTask rc with
         | Some record =>
           if (r_Owner record == ex_Owner exec) && activeTask (r_State record)
              && ((src_Kind (ex_Source exec) == SourceKindInteraction) || (r_ID record == ex_TaskID exec))
           then [(updateTaskToolName, task_entry schemas.2)] else []
         | None => []
         end), t)
  end.

(** ** Execution *)
Definition text_argument (args : object) (name : string) : string := match args !! name with Some (AnyString s) => s | _ => "" end.
Definition validTaskText (value : option any) (max : Z) (required : bool) : bool :=
  match value with
  | Some (AnyString text) => (! required || (TrimSpace text != "")) && ((max <=? 0)%Z || (rune_count text <=? max)%Z)
  | _ => false
  end.
Definition present (args : object) (name : string) : bool := bool_decide (is_Some (args !! name)).
(** [json.Unmarshal] of an integer into an [int64]. *)
Definition int64_of (z : Z) : option Z := if (- 2 ^ 63 <=? z)%Z && (z <? 2 ^ 63)%Z then Some z else None.
Definition decodeTaskIntent (args : object) : outcome error (Intent * string) :=
  _ ← fail_if (! tool_ValidateArguments updateTaskSchema args || ! validTaskText (args !! "task_id"%string) 0 true) errTaskArguments;
  _ ← fail_if (existsb (fun p => present args p.1 && ! validTaskText (args !! p.1) p.2 false)
                 [("progress_note", 2048%Z); ("reason", 512%Z)]%string) errTaskArguments;
  let kind := text_argument args "intent" in
  intent ← (if kind == "wait"%string then
              _ ← fail_if (present args "reason") errTaskArguments;
              value ← of_option (args !! "next_wakeup_at"%string) errTaskArguments;
              tick ← of_option (match value with AnyNumber n => nm_int64 n | AnyInt z => int64_of z | AnyUint n => int64_of (Z.of_N n) | _ => None end)
                       errTaskArguments;
              Ok {| in_Kind := IntentWait; in_NextWakeAt := Some tick; in_ProgressNote := text_argument args "progress_note"; in_Reason := "" |}
            else if kind == "cancel"%string then
              _ ← fail_if (present args "next_wakeup_at") errTaskArguments;
              _ ← fail_if (present args "progress_note") errTaskArguments;
              Ok {| in_Kind := IntentCancel; in_NextWakeAt := None; in_ProgressNote := ""; in_Reason := text_argument args "reason" |}
            else Ok {| in_Kind := IntentOther kind; in_NextWakeAt := None; in_ProgressNote := ""; in_Reason := "" |});
  _ ← fail_if (! is_ok (Intent_Validate intent)) errTaskArguments;
  Ok (intent, text_argument args "task_id").

Definition invalidTaskArguments (call : ToolCall) : ToolResult :=
  mkResult (tc_ID call) (tc_Name call) "invalid" "tool_arguments_invalid" "tool_arguments_invalid" None.
Definition taskSuccess (call : ToolCall) (record : TaskRecord) : ToolResult :=
  mkResult (tc_ID call) (tc_Name call) "succeeded" "task_updated" "task_updated"
    (Some {[ "task_id" := AnyString (r_ID record); "revision" := AnyUint (r_Revision record);
             "state" := AnyString (State_string (r_State record));
             "next_wakeup_at" := match r_NextWakeAt record with Some tick => AnyInt tick | None => AnyNil end;
             "deadline_at" := AnyInt (sp_DeadlineAt (r_Spec record)) ]}%string).
Definition with_created (created : bool) (result : ToolResult) : ToolResult :=
  mkResult (tr_ToolCallID result) (tr_Name result) (tr_Status result) (tr_Code result) (tr_Message result)
    (<["created"%string := AnyBool created]> <$> tr_Output result).
(** None of the errors the kernel and the registry answer was sanitized before. *)
Definition sanitized (err : error) : error := SanitizeTaskError (fun _ => None) err.
Definition rejected_code (code : Code) : bool :=
  match code with
  | CodeTaskNotFound | CodeTaskConflict | CodeTaskChanged | CodeIdempotencyConflict | CodeTaskTerminal | CodeTaskCapacityExceeded => true
  | _ => false
  end.
Definition failed_tool (err : error) : ToolResult * option error := (zeroResult, Some (sanitized err)).
Definition taskToolError (call : ToolCall) (err : error) : ToolResult * option error :=
  if Is_canceled err || Is_deadline err then failed_tool err else
  if Is_taskArguments err then (invalidTaskArguments call, None) else
  match As_task err with
  | Some (code, _, technical) =>
    if Code_Valid code && ! technical && rejected_code code
    then (mkResult (tc_ID call) (tc_Name call) "rejected" (Code_string code) (Code_string code) None, None)
    else failed_tool err
  | None => failed_tool err
  end.

(** [json.Marshal] of the two arguments, its keys sorted. *)
Definition marshalCreateArguments (args : object) : string :=
  enc_object [str_field "instruction" (text_argument args "instruction"); str_field "proposal_ref" (text_argument args "proposal_ref")].
Definition create_spec (exec : ExecutionContext) (args : object) (p : taskProposal) (contract : string) : TaskSpec :=
  {| sp_Instruction := text_argument args "instruction"; sp_ClockID := ck_ID (tp_Clock p); sp_WakeAt := tp_WakeAt p;
     sp_DeadlineAt := tp_DeadlineAt p; sp_ResultContract := ResultContractAuthoritativeEvidence; sp_Contract := contract;
     sp_EquivalenceKey := tp_EquivalenceKey p; sp_Source := ex_Source exec |}.
(** The guarded part of [create_task]. *)
Definition create_callback (t : taskTools) (call : ToolCall) (args : object) (exec : ExecutionContext) : M CreateResult :=
  if src_Kind (ex_Source exec) != SourceKindInteraction then fail ErrSourceInvalid else
  match tt_proposals t !! text_argument args "proposal_ref" with
  | None => fail ErrSourceInvalid
  | Some proposal =>
    if ck_ID (tp_Clock proposal) != ck_ID (ex_Clock exec) then fail ErrClockMismatch else
    match tt_creates t !! tc_ID call with
    | Some prior => if rs_arguments prior != marshalCreateArguments args then fail ErrIdempotencyConflict else mret (rs_result prior)
    | None =>
      if (tp_WakeAt proposal <=? ck_Tick (ex_Clock exec))%Z || (tp_DeadlineAt proposal <? tp_WakeAt proposal)%Z then fail errTaskArguments else
      let exec := with_call (tc_ID call) exec in
      match marshalProposal proposal with
      | None => fail ErrInvalidTaskSpec
      | Some contract => Create exec (create_spec exec args proposal contract) {| MaxActivePerOwner := 1 |}
      end
    end
  end.
(** The guarded part of [update_task]. *)
Definition update_callback (rc : RuntimeCallContext) (call : ToolCall) (intent : Intent) (taskID : string) (exec : ExecutionContext) : M TaskRecord :=
  match rc_ObservedTask rc with
  | None => fail ErrSourceInvalid
  | Some observed =>
    if (r_Owner observed != ex_Owner exec) || (r_ID observed != taskID)
       || ((src_Kind (ex_Source exec) == SourceKindTaskWake) && (taskID != ex_TaskID exec)) then fail ErrSourceInvalid else
    if (src_Kind (ex_Source exec) == SourceKindInteraction) && (in_Kind intent != IntentCancel) then fail ErrSourceInvalid else
    if sp_ClockID (r_Spec observed) != ck_ID (ex_Clock exec) then fail ErrClockMismatch else
    if (in_Kind intent == IntentWait)
       && match in_NextWakeAt intent with
          | Some tick => (tick <=? ck_Tick (ex_Clock exec))%Z || (sp_DeadlineAt (r_Spec observed) <? tick)%Z
          | None => true
          end then fail errTaskArguments else
    ApplyIntent (with_call (tc_ID call) (with_task taskID (r_Revision observed) exec)) intent
  end.
Definition arguments_of (call : ToolCall) : object := default ∅ (tc_Arguments call).
Definition execute_create (rc : RuntimeCallContext) (call : ToolCall) (t : taskTools) (e : Env) (r : WorldRegistry) :
    (ToolResult * option error) * taskTools * WorldRegistry :=
  let args := arguments_of call in
  if ! tool_ValidateArguments createTaskSchema args || ! validTaskText (args !! "instruction"%string) 2048 true
     || ! validTaskText (args !! "proposal_ref"%string) 0 true then ((invalidTaskArguments call, None), t, r) else
  match task_guard t rc (create_callback t call args) e r with
  | (Err err, r) => (taskToolError call err, t, r)
  | (Ok created, r) =>
    let response := {| rs_arguments := marshalCreateArguments args; rs_result := created |} in
    let creates := match tt_creates t !! tc_ID call with Some _ => tt_creates t | None => <[tc_ID call := response]> (tt_creates t) end in
    ((with_created (cr_Created created) (taskSuccess call (cr_Task created)), None),
     mkTools (tt_authority t) (tt_proposals t) creates (tt_closed t), r)
  end.
Definition execute_update (rc : RuntimeCallContext) (call : ToolCall) (t : taskTools) (e : Env) (r : WorldRegistry) :
    (ToolResult * option error) * taskTools * WorldRegistry :=
  match decodeTaskIntent (arguments_of call) with
  | Err _ => ((invalidTaskArguments call, None), t, r)
  | Ok (intent, taskID) =>
    match task_guard t rc (update_callback rc call intent taskID) e r with
    | (Err err, r) => (taskToolError call err, t, r)
    | (Ok record, r) => ((taskSuccess call record, None), t, r)
    end
  end.
(** [Execute] *)
Definition Execute (rc : RuntimeCallContext) (call : ToolCall) (t : taskTools) (e : Env) (r : WorldRegistry) :
    (ToolResult * option error) * taskTools * WorldRegistry :=
  if tc_Name call == createTaskToolName then execute_create rc call t e r
  else if tc_Name call == updateTaskToolName then execute_update rc call t e r
  else ((invalidTaskArguments call, None), t, r).
End Tools.
