(* ===== verification/Tasking.v ===== *)
(** * What the task tools guarantee

    A tool call is at most one kernel call, under the world's current authority and the
    turn's own identity; a call id creates once; what is answered is closed. *)

From S2P Require Export Tooling Serving Fences.
From S2P Require Import Demo.

Local Open Scope go_scope.

Section Facts.
Variable envID : nat.
Variable world : WorldKey.
Variable cancelled : option error.
Notation executes := (Execute envID world cancelled).
Notation guarded := (task_guard envID world cancelled).
Notation own t := (rc_Execution (tt_authority t)).
(** What a turn acts as, under a passed guard. *)
Definition acting (t : taskTools) (entry : WorldEntry) : ExecutionContext := with_clock (hd_Clock (we_Head entry)) (own t).

(** The guard of the turn's authority passes. *)
Definition authorized_at (t : taskTools) (entry : WorldEntry) (r : WorldRegistry) : Prop :=
  guard_entry envID (ex_Binding (own t)) r = Ok entry /\ we_AuthorityEpoch entry = rc_AuthorityEpoch (tt_authority t)
  /\ is_Some (we_Entities entry !! EntityID (ex_Owner (own t))) /\ tt_closed t = false
  /\ ck_ID (hd_Clock (we_Head entry)) = ck_ID (ex_Clock (own t))
  /\ (ck_Tick (ex_Clock (own t)) <= ck_Tick (hd_Clock (we_Head entry)))%Z
  /\ (ck_Sequence (ex_Clock (own t)) <= ck_Sequence (hd_Clock (we_Head entry)))%N.
Lemma set_store_same r : set_store (wr_store r) r = r.
Proof. by destruct r. Qed.
Lemma kernel_fail {A} (err : error) e r : kernel (fail err : M A) e r = (Err err, r).
Proof. unfold kernel, fail. by rewrite set_store_same. Qed.
Lemma kernel_ret {A} (a : A) e r : kernel (mret a : M A) e r = (Ok a, r).
Proof. unfold kernel, mret, M_ret. by rewrite set_store_same. Qed.
Lemma checkContext_ok t rc : checkContext t rc = Ok tt -> tt_closed t = false /\ validTaskSource rc = true
  /\ ex_Owner (rc_Execution rc) = ex_Owner (own t) /\ ex_Binding (rc_Execution rc) = ex_Binding (own t)
  /\ src_Kind (ex_Source (rc_Execution rc)) = src_Kind (ex_Source (own t)) /\ ex_TaskID (rc_Execution rc) = ex_TaskID (own t)
  /\ rc_AuthorityEpoch rc = rc_AuthorityEpoch (tt_authority t).
Proof. unfold checkContext. intros H. okinv H. boolp. naive_solver. Qed.
(** A guard fails without effect, or its callback runs in the kernel. *)
Lemma task_guard_cases {A} t rc (fn : ExecutionContext -> M A) e r o r' : guarded t rc fn e r = (o, r') ->
  (exists err, o = Err err /\ r' = r)
  \/ exists entry, cancelled = None /\ checkContext t rc = Ok tt /\ authorized_at t entry r /\ kernel (fn (acting t entry)) e r = (o, r').
Proof.
  unfold task_guard. destruct cancelled as [err|]; [intros [= <- <-]; left; by eexists|].
  destruct (checkContext t rc) as [[]|err] eqn:Hc; [|intros [= <- <-]; left; by eexists].
  destruct (checkContext_ok _ _ Hc) as (Hcl & _ & Ho & Hb & _ & _ & He). rewrite Ho, Hb, He. unfold GuardOwner, guardEntry.
  case_bool_decide; cbn; [|intros [= <- <-]; left; by eexists]. unfold registry_Guard.
  destruct (guard_entry envID (ex_Binding (own t)) r) as [entry|err] eqn:Hg; [|intros [= <- <-]; left; by eexists].
  assert (Hleft : forall err, kernel (fail err : M A) e r = (o, r') -> exists err, o = Err err /\ r' = r)
    by (intros err; rewrite kernel_fail; intros [= <- <-]; by eexists).
  case_bool_decide as Hepoch; cbn; [|intros H'; left; by eapply Hleft, H'].
  destruct (we_Entities entry !! EntityID (ex_Owner (own t))) as [x|] eqn:Hx; [|intros H'; left; by eapply Hleft, H'].
  case_bool_decide as Hid; cbn; [|intros H'; left; by eapply Hleft, H'].
  destruct (_ || _) eqn:Hclock; [intros H'; left; by eapply Hleft, H'|]. intros Hk. right. exists entry. boolp.
  split_and!; try done. all: rewrite ?Hx; try done; by destruct Hclock.
Qed.

(** ** What a tool asks of the kernel *)
Definition own_call (t : taskTools) (rc : RuntimeCallContext) (call : ToolCall) (entry : WorldEntry) (c : Kernel.call) : Prop :=
  let now := ck_Tick (hd_Clock (we_Head entry)) in
  match c with
  | CallCreate exec spec admission =>
    src_Kind (ex_Source (own t)) = SourceKindInteraction /\ exec = with_call (tc_ID call) (acting t entry) /\ MaxActivePerOwner admission = 1%Z
    /\ exists ref p contract, arguments_of call !! "proposal_ref"%string = Some (AnyString ref) /\ tt_proposals t !! ref = Some p
       /\ spec = create_spec exec (arguments_of call) p contract /\ ck_ID (tp_Clock p) = ck_ID (ex_Clock (own t))
       /\ (now < tp_WakeAt p <= tp_DeadlineAt p)%Z
  | CallApplyIntent exec intent =>
    exists observed, rc_ObservedTask rc = Some observed /\ r_Owner observed = ex_Owner (own t)
      /\ exec = with_call (tc_ID call) (with_task (r_ID observed) (r_Revision observed) (acting t entry))
      /\ sp_ClockID (r_Spec observed) = ck_ID (ex_Clock (own t))
      /\ match src_Kind (ex_Source (own t)) with
         | SourceKindTaskWake => r_ID observed = ex_TaskID (own t)
         | SourceKindInteraction => in_Kind intent = IntentCancel
         | _ => False
         end
      /\ (in_Kind intent = IntentWait -> exists tick, in_NextWakeAt intent = Some tick /\ (now < tick <= sp_DeadlineAt (r_Spec observed))%Z)
  | _ => False
  end.
(** The kernel call [c] under the turn's guard, its answer dropped: a step of the registry. *)
Notation performed t c e r := (registry_Guard envID (ex_Binding (own t)) (fun _ => perform c) e r).2.
Lemma performed_kernel {A} t entry (m : M A) c e r : authorized_at t entry r -> perform c = discard m -> (kernel m e r).2 = performed t c e r.
Proof. intros (Hg & _) Hp. unfold registry_Guard. by rewrite Hg, Hp, kernel_discard. Qed.

Lemma create_callback_cases t rc call entry e r o r' : checkContext t rc = Ok tt -> authorized_at t entry r ->
  tool_ValidateArguments createTaskSchema (arguments_of call) = true ->
  validTaskText (arguments_of call !! "proposal_ref"%string) 0 true = true ->
  kernel (create_callback t call (arguments_of call) (acting t entry)) e r = (o, r') ->
  (exists err, o = Err err /\ r' = r)
  \/ (exists prior, tt_creates t !! tc_ID call = Some prior /\ o = Ok (rs_result prior) /\ r' = r
      /\ rs_arguments prior = marshalCreateArguments (arguments_of call))
  \/ (tt_creates t !! tc_ID call = None /\ exists exec spec, own_call t rc call entry (CallCreate exec spec {| MaxActivePerOwner := 1 |})
      /\ kernel (Create exec spec {| MaxActivePerOwner := 1 |}) e r = (o, r')).
Proof.
  intros Hc (_ & _ & _ & _ & Hid & _) _ Href. unfold create_callback.
  assert (Hleft : forall err, kernel (fail err : M CreateResult) e r = (o, r') -> exists err, o = Err err /\ r' = r)
    by (intros err; rewrite kernel_fail; intros [= <- <-]; by eexists).
  case_bool_decide as Hk; cbn; [|intros H; left; by eapply Hleft, H].
  destruct (tt_proposals t !! _) as [p|] eqn:Hp; [|intros H; left; by eapply Hleft, H].
  case_bool_decide as Hpc; cbn; [|intros H; left; by eapply Hleft, H].
  destruct (tt_creates t !! tc_ID call) as [prior|] eqn:Hprior.
  { case_bool_decide; cbn [negb]; [|intros H'; left; by eapply Hleft, H']. rewrite kernel_ret. intros [= <- <-]. right. left. by exists prior. }
  destruct (_ || _) eqn:Htime; [intros H; left; by eapply Hleft|].
  destruct (marshalProposal p) as [contract|]; [|intros H; left; by eapply Hleft, H]. intros H. right. right. split; [done|].
  do 2 eexists. split; [|exact H]. cbn in *. boolp. split_and!; try done. unfold text_argument, validTaskText in *.
  destruct (arguments_of call !! "proposal_ref"%string) as [[ref| | | | | |]|]; try done. exists ref, p, contract. split_and!; try done; [congruence|lia..].
Qed.

Lemma update_callback_cases t rc call intent taskID entry e r o r' : authorized_at t entry r ->
  src_Kind (ex_Source (own t)) = SourceKindInteraction \/ src_Kind (ex_Source (own t)) = SourceKindTaskWake ->
  kernel (update_callback rc call intent taskID (acting t entry)) e r = (o, r') ->
  (exists err, o = Err err /\ r' = r)
  \/ exists exec, own_call t rc call entry (CallApplyIntent exec intent) /\ kernel (ApplyIntent exec intent) e r = (o, r').
Proof.
  intros (_ & _ & _ & _ & Hid & _) Hkind. unfold update_callback.
  assert (Hleft : forall err, kernel (fail err : M TaskRecord) e r = (o, r') -> exists err, o = Err err /\ r' = r)
    by (intros err; rewrite kernel_fail; intros [= <- <-]; by eexists).
  destruct (rc_ObservedTask rc) as [observed|] eqn:Hobs; [|intros H; left; by eapply Hleft, H].
  destruct ((r_Owner observed != _) || _ || _) eqn:Hsame; [intros H; left; by eapply Hleft, H|].
  destruct (_ && (in_Kind intent != _)) eqn:Hcancel; [intros H; left; by eapply Hleft, H|].
  destruct (sp_ClockID (r_Spec observed) == _) eqn:Hclock; cbn [negb]; [|intros H; left; by eapply Hleft, H].
  destruct ((in_Kind intent == IntentWait) && _) eqn:Hwait; [intros H; left; by eapply Hleft, H|]. intros H. right. eexists. split; [|exact H].
  cbn in *. apply orb_false_iff in Hsame as [[Ho Ht]%orb_false_iff Hw]. boolp. subst taskID. exists observed. split_and!; try done.
  - congruence.
  - clear H Hleft. destruct Hkind as [E|E]; rewrite E in *; naive_solver.
  - intros Hk. destruct Hwait as [Hn|Hwait]; [done|]. destruct (in_NextWakeAt intent) as [tick|]; [|done]. boolp. exists tick. split; [done|lia].
Qed.

(** ** The cases of a tool call *)
Definition refused (call : ToolCall) (o : ToolResult * option error) : Prop :=
  o = (invalidTaskArguments call, None) \/ exists err, o = taskToolError call err.
Definition created_answer (call : ToolCall) (created : CreateResult) : ToolResult * option error :=
  (with_created (cr_Created created) (taskSuccess call (cr_Task created)), None).
Definition remember (t : taskTools) (call : ToolCall) (created : CreateResult) : taskTools :=
  mkTools (tt_authority t) (tt_proposals t)
    (<[tc_ID call := {| rs_arguments := marshalCreateArguments (arguments_of call); rs_result := created |}]> (tt_creates t)) (tt_closed t).
Inductive executed (t : taskTools) (rc : RuntimeCallContext) (call : ToolCall) (e : Env) (r : WorldRegistry) :
    (ToolResult * option error) * taskTools * WorldRegistry -> Prop :=
| ExRefused o : refused call o -> executed t rc call e r (o, t, r)
| ExReplayed prior : tc_Name call = createTaskToolName -> tt_closed t = false -> tt_creates t !! tc_ID call = Some prior ->
    rs_arguments prior = marshalCreateArguments (arguments_of call) -> executed t rc call e r (created_answer call (rs_result prior), t, r)
| ExCreate entry exec spec answer r' : tc_Name call = createTaskToolName -> tt_creates t !! tc_ID call = None -> authorized_at t entry r ->
    own_call t rc call entry (CallCreate exec spec {| MaxActivePerOwner := 1 |}) ->
    kernel (Create exec spec {| MaxActivePerOwner := 1 |}) e r = (answer, r') ->
    executed t rc call e r
      (match answer with
       | Ok created => (created_answer call created, remember t call created, r')
       | Err err => (taskToolError call err, t, r')
       end)
| ExIntent entry exec intent answer r' : tc_Name call = updateTaskToolName -> authorized_at t entry r -> own_call t rc call entry (CallApplyIntent exec intent) ->
    kernel (ApplyIntent exec intent) e r = (answer, r') ->
    executed t rc call e r
      (match answer with Ok record => (taskSuccess call record, None) | Err err => taskToolError call err end, t, r').
Lemma source_kinds t rc : checkContext t rc = Ok tt ->
  src_Kind (ex_Source (own t)) = SourceKindInteraction \/ src_Kind (ex_Source (own t)) = SourceKindTaskWake.
Proof.
  intros (_ & Hv & _ & _ & <- & _)%checkContext_ok. unfold validTaskSource in Hv. boolp. destruct Hv as [_ Hv].
  destruct (src_Kind _); by auto.
Qed.
Lemma Execute_cases t rc call e r : executed t rc call e r (executes rc call t e r).
Proof.
  assert (Hinvalid : executed t rc call e r ((invalidTaskArguments call, None), t, r)) by (constructor; by left).
  unfold Execute. destruct (tc_Name call == createTaskToolName) eqn:Hname; [|destruct (tc_Name call == updateTaskToolName) eqn:Hupdate; [|done]]; boolp.
  - unfold execute_create. destruct (_ || _) eqn:Hargs; [done|].
    destruct (guarded t rc _ e r) as [o r'] eqn:Hg. pose proof Hg as [(err & -> & ->)|(entry & _ & Hc & Ha & Hk)]%task_guard_cases.
    { constructor. right. by eexists. }
    apply orb_false_iff in Hargs as [[Hargs%negb_false_iff _]%orb_false_iff Href%negb_false_iff].
    destruct (create_callback_cases _ _ _ _ _ _ _ _ Hc Ha Hargs Href Hk)
      as [(err & -> & ->)|[(prior & Hp & -> & -> & Hsame)|(Hnone & exec & spec & Hown & Hcall)]].
    + constructor. right. by eexists.
    + rewrite Hp. replace (mkTools _ _ _ _) with t by by destruct t. apply ExReplayed; try done. apply Ha.
    + rewrite Hnone. pose proof (ExCreate t rc call e r entry exec spec o r' Hname Hnone Ha Hown Hcall) as H. by destruct o.
  - unfold execute_update. destruct (decodeTaskIntent _) as [[intent taskID]|err]; [|done].
    destruct (guarded t rc _ e r) as [o r'] eqn:Hg. apply task_guard_cases in Hg as [(err & -> & ->)|(entry & _ & Hc & Ha & Hk)].
    { constructor. right. by eexists. }
    destruct (update_callback_cases _ _ _ _ _ _ _ _ _ _ Ha (source_kinds _ _ Hc) Hk) as [(err & -> & ->)|(exec & Hown & Hcall)].
    + constructor. right. by eexists.
    + pose proof (ExIntent t rc call e r entry exec intent o r' Hupdate Ha Hown Hcall) as H. by destruct o.
Qed.

(** ** What an answer says *)
Definition reported (call : ToolCall) (res : ToolResult) (status code : string) : Prop :=
  tr_ToolCallID res = tc_ID call /\ tr_Name res = tc_Name call /\ tr_Status res = status /\ tr_Code res = code /\ tr_Message res = code.
Definition shows (record : TaskRecord) (out : object) : Prop :=
  out !! "task_id"%string = Some (AnyString (r_ID record)) /\ out !! "revision"%string = Some (AnyUint (r_Revision record))
  /\ out !! "state"%string = Some (AnyString (State_string (r_State record))).
(** An error carries no text but a code of the closed set. *)
Inductive sanitary : error -> Prop :=
| sanitary_cancelled : sanitary (Opaque "task_cancelled" (Some Canceled))
| sanitary_timeout : sanitary (Opaque "task_timeout" (Some DeadlineExceeded))
| sanitary_code code : Code_Valid code = true -> sanitary (Opaque (Code_string code) None)
| sanitary_failed : sanitary (Opaque "task_execution_failed" None).
(** An answer that is no success. *)
Definition unsuccessful (call : ToolCall) (o : ToolResult * option error) : Prop :=
  match o with
  | (res, Some err) => res = zeroResult /\ sanitary err
  | (res, None) => tr_Output res = None
      /\ (reported call res "invalid" "tool_arguments_invalid"
          \/ exists code, rejected_code code = true /\ reported call res "rejected" (Code_string code))
  end.
Lemma sanitized_sanitary err : sanitary (sanitized err).
Proof.
  unfold sanitized, SanitizeTaskError. destruct (Is_canceled err); [constructor|]. destruct (Is_deadline err); [constructor|].
  destruct (As_task err) as [[[code cause] technical]|]; [|constructor]. destruct (Code_Valid code) eqn:H; [by constructor|constructor].
Qed.
Lemma taskToolError_unsuccessful call err : unsuccessful call (taskToolError call err).
Proof.
  assert (Hf : unsuccessful call (failed_tool err)) by (split; [done|apply sanitized_sanitary]).
  unfold taskToolError. destruct (_ || _); [done|]. destruct (Is_taskArguments err).
  { split; [done|]. left. done. }
  destruct (As_task err) as [[[code cause] technical]|]; [|done]. destruct (_ && rejected_code code) eqn:H; [|done]. boolp.
  split; [done|]. right. exists code. by split; [apply H|].
Qed.
Lemma refused_unsuccessful call o : refused call o -> unsuccessful call o.
Proof. intros [-> |[err ->]]; [|apply taskToolError_unsuccessful]. split; [done|]. by left. Qed.
Lemma unsuccessful_status call res err : unsuccessful call (res, err) -> tr_Status res <> "succeeded"%string.
Proof. destruct err; cbn; [by intros [-> _]|]. intros [_ [(_ & _ & -> & _)|(code & _ & _ & _ & -> & _)]]; done. Qed.
Lemma taskSuccess_shows call record : exists out, tr_Output (taskSuccess call record) = Some out /\ shows record out.
Proof. eexists. split; [done|]. done. Qed.
Lemma created_shows call created : exists out, tr_Output (created_answer call created).1 = Some out /\ shows (cr_Task created) out
  /\ out !! "created"%string = Some (AnyBool (cr_Created created)).
Proof. eexists. split; [done|]. done. Qed.
Lemma kernel_err_same {A} (m : M A) c e r err r' : perform c = discard m -> Atomic (perform c) -> kernel m e r = (Err err, r') ->
  exists n, r' = set_store (mkSt (st_db (wr_store r)) n) r.
Proof.
  intros Hp Hat. unfold kernel. destruct (m e (wr_store r)) as [o st] eqn:Hm. intros [= -> <-].
  assert (Hd : perform c e (wr_store r) = (Err err, st)) by (rewrite Hp; unfold discard, mbind, M_bind; by rewrite Hm).
  apply Hat in Hd. destruct st as [db n]. cbn in Hd. subst db. by exists n.
Qed.
End Facts.

(** C22: a tool call is at most one kernel call, made under the world's current
    authority.  [Execute] leaves the registry and the tool set as they were, or exactly
    one [Create] or [ApplyIntent] ran inside a guard that passed for the environment, the
    binding and the authority epoch the turn was opened with, at a clock that has not
    moved back.  That call acts as the turn's own owner, source and binding under the call's
    id.  A creation comes from an interaction and carries the instruction with a
    kept proposal of the turn whose wake lies ahead; an intent goes to the task the turn was
    shown at the revision it was shown, is a cancellation in an interaction and in a
    wake's turn goes to the wake's own task. *)
Theorem tool_call_is_one_guarded_call envID world cancelled rc call t e r o t' r' :
  Execute envID world cancelled rc call t e r = (o, t', r') ->
  (r' = r /\ t' = t)
  \/ exists entry c, authorized_at envID t entry r /\ own_call t rc call entry c
     /\ r' = (registry_Guard envID (ex_Binding (rc_Execution (tt_authority t))) (fun _ => perform c) e r).2 /\ registry_step r None r'.
Proof.
  intros H. pose proof (Execute_cases envID world cancelled t rc call e r) as Hx. rewrite H in Hx.
  assert (Hstep : forall entry A (m : M A) c answer, authorized_at envID t entry r -> own_call t rc call entry c -> perform c = discard m ->
    kernel m e r = (answer, r') -> exists entry c, authorized_at envID t entry r /\ own_call t rc call entry c
     /\ r' = (registry_Guard envID (ex_Binding (rc_Execution (tt_authority t))) (fun _ => perform c) e r).2 /\ registry_step r None r').
  { intros entry A m c answer Ha Hc Hp Hk. exists entry, c.
    assert (E : r' = (registry_Guard envID (ex_Binding (rc_Execution (tt_authority t))) (fun _ => perform c) e r).2).
    { rewrite <- (performed_kernel envID t entry m c e r Ha Hp). by rewrite Hk. }
    split_and!; [done..|]. rewrite E. constructor. }
  inversion Hx; subst; [by left|by left| |].
  - right. destruct answer; simplify_eq; by eapply (Hstep entry _ (Create exec spec _)).
  - right. by eapply (Hstep entry _ (ApplyIntent exec intent)).
Qed.

(** C24: an answer says what happened.  An error or an answer without success leaves the
    database and the tool set as they were; an error carries a code of the closed set or
    a cancellation, and nothing of the kernel's text; an answer names the call and is
    [invalid] or [rejected] with a code of its list, without output.  A success shows
    the id, revision and state of the task the kernel answered, or that the call
    created before. *)
Theorem tool_answer_says_what_happened envID world cancelled rc call t e r res err t' r' :
  Execute envID world cancelled rc call t e r = ((res, err), t', r') ->
  unsuccessful call (res, err) /\ t' = t /\ st_db (wr_store r') = st_db (wr_store r)
  \/ err = None /\ reported call res "succeeded" "task_updated"
     /\ exists out record, tr_Output res = Some out /\ shows record out
        /\ ((exists prior, tt_creates t !! tc_ID call = Some prior /\ record = cr_Task (rs_result prior) /\ r' = r /\ t' = t)
            \/ (exists entry exec spec created, own_call t rc call entry (CallCreate exec spec {| MaxActivePerOwner := 1 |})
                  /\ kernel (Create exec spec {| MaxActivePerOwner := 1 |}) e r = (Ok created, r') /\ record = cr_Task created)
            \/ (exists entry exec intent, own_call t rc call entry (CallApplyIntent exec intent)
                  /\ kernel (ApplyIntent exec intent) e r = (Ok record, r'))).
Proof.
  intros H. pose proof (Execute_cases envID world cancelled t rc call e r) as Hx. rewrite H in Hx. inversion Hx; subst.
  - left. split; [by apply refused_unsuccessful|done].
  - right. split; [done|]. split; [done|]. destruct (created_shows call (rs_result prior)) as (out & Ho & Hs & _).
    exists out, (cr_Task (rs_result prior)). split_and!; try done. left. by exists prior.
  - destruct answer as [created|e1]; simplify_eq.
    + match goal with H : created_answer _ _ = _ |- _ => apply pair_eq in H as [<- <-] end.
      right. split; [done|]. split; [done|]. destruct (created_shows call created) as (out & Ho & Hs & _).
      exists out, (cr_Task created). split_and!; try done. right. left. by exists entry, exec, spec, created.
    + left. match goal with H : taskToolError _ _ = _ |- _ => rewrite <- H end. split; [apply taskToolError_unsuccessful|]. split; [done|].
      match goal with H : kernel (Create ?x ?s ?a) _ _ = _ |- _ =>
        destruct (kernel_err_same _ (CallCreate x s a) _ _ _ _ eq_refl (perform_atomic (CallCreate x s a)) H) as [n ->] end. done.
  - destruct answer as [record|e1]; simplify_eq.
    + right. split; [done|]. split; [done|]. destruct (taskSuccess_shows call record) as (out & Ho & Hs).
      exists out, record. split_and!; try done. right. right. by exists entry, exec, intent.
    + left. split; [apply taskToolError_unsuccessful|]. split; [done|].
      match goal with H : kernel (ApplyIntent ?x ?s) _ _ = _ |- _ =>
        destruct (kernel_err_same _ (CallApplyIntent x s) _ _ _ _ eq_refl (perform_atomic (CallApplyIntent x s)) H) as [n ->] end. done.
Qed.

(** ** A call creates once *)
Section Once.
Variable envID : nat.
Variable world : WorldKey.
(** What happens to the tool set of a turn, at registries and contexts that change freely. *)
Inductive tool_step (t : taskTools) : taskTools -> Prop :=
| ts_execute cancelled rc call e r : tool_step t (Execute envID world cancelled rc call t e r).1.2
| ts_capture cancelled ref rc status value e r : tool_step t (CaptureProposal envID world cancelled ref rc status value t e r).1.2
| ts_entries schemas rc r : tool_step t (Entries envID world schemas rc t r).2
| ts_close : tool_step t (tools_Close t).
Definition settled (id : string) (prior : taskCreateResponse) (t : taskTools) : Prop := tt_closed t = true \/ tt_creates t !! id = Some prior.
Lemma settled_step id prior t t' : tool_step t t' -> settled id prior t -> settled id prior t'.
Proof.
  intros Hs H. destruct Hs as [cancelled rc call e r|cancelled ref rc status value e r|schemas rc r|]; [| | |by left].
  - destruct (Execute_cases envID world cancelled t rc call e r); try done. destruct answer as [created|err]; [|done].
    destruct H as [H|H]; [by left|]. right. cbn. rewrite lookup_insert_ne; [done|congruence].
  - unfold CaptureProposal. destruct status, value; try done. destruct (normalizeTaskProposal _); [|done].
    destruct (task_guard _ _ _ _ _ _ _ _) as [[[]|] r']; done.
  - unfold Entries. repeat (case_match; try done).
Qed.
Lemma settled_steps id prior t t' : rtc tool_step t t' -> settled id prior t -> settled id prior t'.
Proof. induction 1; [done|]. eauto using settled_step. Qed.
End Once.

(** C23: a call id creates once.  After a [create_task] that succeeded, and whatever
    the turn's tools do in between at whatever state of the registry, a later
    [create_task] under the same call id touches neither the registry nor the tool set;
    if it succeeds it came with the same arguments and is given the same answer. *)
Theorem call_creates_once envID world cancelled rc call t e r res t1 r1 t2 cancelled' rc' call' e' r' res' err' t3 r3 :
  Execute envID world cancelled rc call t e r = ((res, None), t1, r1) ->
  tc_Name call = createTaskToolName -> tr_Status res = "succeeded"%string -> rtc (tool_step envID world) t1 t2 ->
  tc_Name call' = createTaskToolName -> tc_ID call' = tc_ID call ->
  Execute envID world cancelled' rc' call' t2 e' r' = ((res', err'), t3, r3) ->
  t3 = t2 /\ r3 = r'
  /\ (tr_Status res' = "succeeded"%string -> res' = res
      /\ marshalCreateArguments (arguments_of call') = marshalCreateArguments (arguments_of call)).
Proof.
  intros H1 Hn Hs Hrun Hn' Hid H2.
  assert (exists prior, settled (tc_ID call) prior t1 /\ rs_arguments prior = marshalCreateArguments (arguments_of call)
    /\ res = (created_answer call (rs_result prior)).1) as (prior & Hp & Ha & ->).
  { pose proof (Execute_cases envID world cancelled t rc call e r) as Hx. rewrite H1 in Hx. inversion Hx; subst.
    - by destruct (unsuccessful_status call res None (refused_unsuccessful _ _ ltac:(eassumption))).
    - exists prior. split_and!; [by right|done..].
    - destruct answer as [created|err]; simplify_eq.
      + match goal with H : created_answer _ _ = _ |- _ => apply pair_eq in H as [<- _] end.
        eexists. split_and!; [right; cbn; apply lookup_insert_eq|done..].
      + match goal with H : taskToolError _ _ = _ |- _ => pose proof (taskToolError_unsuccessful call err) as Hu; rewrite H in Hu end.
        by destruct (unsuccessful_status call res None Hu).
    - match goal with H : _ = updateTaskToolName |- _ => rewrite Hn in H; discriminate H end. }
  apply (settled_steps _ _ _ _ _ _ Hrun) in Hp. pose proof (Execute_cases envID world cancelled' t2 rc' call' e' r') as Hx.
  rewrite H2 in Hx. inversion Hx; subst.
  - split_and!; try done. intros Hs'. by destruct (unsuccessful_status call' res' err' (refused_unsuccessful _ _ ltac:(eassumption))).
  - split_and!; try done. intros _. destruct Hp as [Hp|Hp]; [congruence|]. rewrite Hid in *. simplify_eq. split; [|congruence].
    unfold created_answer, taskSuccess. cbn. by rewrite Hid, Hn, Hn'.
  - exfalso. destruct Hp as [Hp|Hp]; [|congruence].
    match goal with H : authorized_at _ _ _ _ |- _ => destruct H as (_ & _ & _ & H & _) end. congruence.
  - match goal with H : _ = updateTaskToolName |- _ => rewrite Hn' in H; discriminate H end.
Qed.

(** ** Instances

    The player's turn at the served world of Serving.v: an action proposed a task, the
    model creates it, and repeats the call. *)
Definition tools_context : RuntimeCallContext :=
  {| rc_Execution := demo_exec demo_clock "turn" ""; rc_InteractionSourceID := "player"; rc_ObservedTask := None; rc_RecentResults := [];
     rc_AuthorityEpoch := we_AuthorityEpoch serving_entry |}.
Definition tools_proposal : TaskProposal :=
  {| pt_ClockId := "clock"; pt_NowTick := 10; pt_Sequence := 1; pt_WakeAt := 20; pt_DeadlineAt := 100; pt_Participants := ["npc"];
     pt_EquivalenceKey := "bread"; pt_Payload := None |}%string.
Definition tools_ready : taskTools :=
  Eval vm_compute in (CaptureProposal 0 demo_world None "proposal" tools_context ACTION_STATUS_SUCCEEDED (Some tools_proposal)
                        (NewTaskTools tools_context) demo_env serving_ready.2).1.2.
Definition tools_create : ToolCall :=
  {| tc_ID := "call"; tc_Name := createTaskToolName;
     tc_Arguments := Some {[ "proposal_ref" := AnyString "proposal"; "instruction" := AnyString "bake bread" ]}; tc_RawArguments := ""; tc_ArgumentsError := "" |}%string.
Definition tools_created := Eval vm_compute in Execute 0 demo_world None tools_context tools_create tools_ready demo_env serving_ready.2.
Definition tools_again := Eval vm_compute in
  Execute 0 demo_world None tools_context tools_create tools_created.1.2 demo_env tools_created.2.
Notation run_result := ((ToolResult * option error) * taskTools * WorldRegistry)%type.
Lemma tools_creates : Execute 0 demo_world None tools_context tools_create tools_ready demo_env serving_ready.2 = tools_created.
Proof. vm_cast_no_check (@eq_refl run_result tools_created). Qed.
Lemma tools_repeats : Execute 0 demo_world None tools_context tools_create tools_created.1.2 demo_env tools_created.2 = tools_again.
Proof. vm_cast_no_check (@eq_refl run_result tools_again). Qed.
Lemma tools_created_new : tools_created.1.2 <> tools_ready.
Proof.
  intros E. assert (bool_decide (is_Some (tt_creates tools_ready !! "call"%string)) = true); [rewrite <- E; by vm_compute|].
  assert (bool_decide (is_Some (tt_creates tools_ready !! "call"%string)) = false) by by vm_compute. congruence.
Qed.
Lemma tools_created_split : tools_created = ((tools_created.1.1.1, None), tools_created.1.2, tools_created.2).
Proof. vm_cast_no_check (@eq_refl run_result tools_created). Qed.
Lemma tools_again_split : tools_again = ((tools_again.1.1.1, tools_again.1.1.2), tools_again.1.2, tools_again.2).
Proof. by destruct tools_again as [[[] ]]. Qed.
Lemma tools_succeeds : tr_Status tools_created.1.1.1 = "succeeded"%string.
Proof. vm_cast_no_check (@eq_refl string "succeeded"%string). Qed.
Lemma tools_succeeds_again : tr_Status tools_again.1.1.1 = "succeeded"%string.
Proof. vm_cast_no_check (@eq_refl string "succeeded"%string). Qed.
Lemma tool_call_is_one_guarded_call_witness :
  exists entry c, authorized_at 0 tools_ready entry serving_ready.2 /\ own_call tools_ready tools_context tools_create entry c
  /\ registry_step serving_ready.2 None tools_created.2.
Proof.
  destruct (tool_call_is_one_guarded_call 0 demo_world None tools_context tools_create tools_ready demo_env serving_ready.2 _ _ _
    (eq_trans tools_creates tools_created_split)) as [(_ & E)|(entry & c & Ha & Hc & _ & Hs)]; [destruct (tools_created_new E)|].
  exists entry, c. split; [exact Ha|]. split; [exact Hc|exact Hs].
Defined.
Lemma tool_answer_says_what_happened_witness :
  reported tools_create tools_created.1.1.1 "succeeded" "task_updated" /\ exists out record, tr_Output tools_created.1.1.1 = Some out /\ shows record out.
Proof.
  destruct (tool_answer_says_what_happened 0 demo_world None tools_context tools_create tools_ready demo_env serving_ready.2 _ _ _ _
    (eq_trans tools_creates tools_created_split)) as [(_ & E & _)|(_ & Hr & out & record & Ho & Hs & _)]; [destruct (tools_created_new E)|].
  split; [exact Hr|]. exists out, record. split; [exact Ho|exact Hs].
Defined.
Lemma call_creates_once_witness : tools_again.2 = tools_created.2 /\ tools_again.1.1.1 = tools_created.1.1.1.
Proof.
  destruct (call_creates_once 0 demo_world None tools_context tools_create tools_ready demo_env serving_ready.2 _ _ _ _
    None tools_context tools_create demo_env tools_created.2 _ _ _ _
    (eq_trans tools_creates tools_created_split) eq_refl tools_succeeds (rtc_refl _ _) eq_refl eq_refl
    (eq_trans tools_repeats tools_again_split)) as (_ & E & H).
  split; [exact E|exact (proj1 (H tools_succeeds_again))].
Defined.
