(* ===== verification/Tokens.v ===== *)
(** * Tokens and JSON values: [runtime/internal/tokenestimate]

    The estimate by which the runtime measures texts, and the JSON values it measures:
    Go's [any] as the decoder and the tools produce it, its compact and indented
    encodings, and the parser of a whole document.

    A number is the text [encoding/json] writes for it.  [JNumber kept text] tells the
    types a projection keeps ([int], [int32], [int64] and the floats) from those it
    prints ([json.Number], unsigned integers).

    The estimate grows with the text: removing runes never adds tokens.  Encoded
    objects and arrays with fewer members are such texts, because the brackets, colons
    and commas between the members are bytes at which runes cannot be torn. *)

From S2P Require Export GoJson.

Local Open Scope go_scope.

(** ** The estimate *)
Definition isASCIIWordLike (r : N) : bool :=
  (r == 0x20%N) || (r == 0x0A%N) || (r == 0x0D%N) || (r == 0x09%N)
  || in_range 97 122 r || in_range 65 90 r || in_range 48 57 r.
Definition flushASCII (s : Z * Z) : Z * Z := if s.2 == 0%Z then s else (s.1 + (s.2 + 3) / 4, 0)%Z.
Definition estimate_rune (s : Z * Z) (r : N) : Z * Z :=
  if isASCIIWordLike r then (s.1, s.2 + 1)%Z else let s := flushASCII s in (s.1 + 1, s.2)%Z.
Definition estimate_runes (l : list N) : Z := (flushASCII (foldl estimate_rune (0, 0)%Z l)).1.
Definition EstimateText (value : string) : Z := estimate_runes (runes value).*1.

(** ** JSON values *)
Inductive json_any :=
| JNull
| JBool (b : bool)
| JNumber (kept : bool) (text : string)
| JString (s : string)
| JArray (l : list json_any)
| JMap (m : list (string * json_any)).

(** A map is encoded in the order of its keys. *)
Definition by_name {A} (a b : string * A) : bool := str_lt a.1 b.1.
Definition enc_map (m : list (string * string)) : string :=
  enc_object ((fun p => field p.1 p.2) <$> sort_slice by_name m).
(** [CompactStableJSON] of a value. *)
Fixpoint marshal_any (v : json_any) : string :=
  match v with
  | JNull => "null"
  | JBool b => enc_bool b
  | JNumber _ text => text
  | JString s => enc_string s
  | JArray l => enc_array (marshal_any <$> l)
  | JMap m => enc_map ((fun p => (p.1, marshal_any p.2)) <$> m)
  end.

(** *** Indentation: [json.Indent] with an empty prefix and two spaces *)
Definition in_literal (s : scanner) : bool :=
  match sc_state s with
  | InString | InStringEsc | InStringEscU | InStringEscU1 | InStringEscU12 | InStringEscU123 => true
  | _ => false
  end.
Definition newline (depth : nat) : list ascii := byte_of 10 :: repeat (byte_of 32) (2 * depth).
(** [need]: an opening bracket is written and its line not yet begun. *)
Fixpoint indent_run (s : scanner) (need : bool) (depth : nat) (l : list ascii) : option (list ascii) :=
  match l with
  | [] => if scan_eof s then Some [] else None
  | c :: t =>
    let v := byte_val c in
    match scan_step s v with
    | None => None
    | Some (false, s') => indent_run s' need depth t
    | Some (true, s') =>
      if in_literal s then (fun r => c :: r) <$> indent_run s' need depth t else
      let closing := (v == 125%N) || (v == 93%N) in
      let begin := need && ! closing in
      let depth1 := if begin then S depth else depth in
      let pre := if begin then newline depth1 else [] in
      let need1 := need && closing in
      if (v == 123%N) || (v == 91%N) then (fun r => pre ++ c :: r) <$> indent_run s' true depth1 t
      else if v == 44%N then (fun r => pre ++ c :: newline depth1 ++ r) <$> indent_run s' need1 depth1 t
      else if v == 58%N then (fun r => pre ++ c :: byte_of 32 :: r) <$> indent_run s' need1 depth1 t
      else if closing then
        if need1 then (fun r => c :: r) <$> indent_run s' false depth1 t
        else (fun r => newline (depth1 - 1) ++ c :: r) <$> indent_run s' false (depth1 - 1) t
      else (fun r => pre ++ c :: r) <$> indent_run s' need1 depth1 t
    end
  end.
Definition json_indent (compact : string) : option string := text_of <$> indent_run scanner_init false 0 (bytes_of compact).

(** *** Parsing a document *)
Definition hex_value (c : N) : N :=
  if in_range 48 57 c then c - 48 else if in_range 97 102 c then c - 87 else c - 55.
(** [utf8.AppendRune] *)
Definition rune_bytes (r : N) : list ascii :=
  let cont n := byte_of (0x80 + N.land n 0x3F) in
  if (r <? 0x80)%N then [byte_of r]
  else if (r <? 0x800)%N then [byte_of (0xC0 + N.shiftr r 6); cont r]
  else if in_range 0xD800 0xDFFF r || (0x10FFFF <? r)%N then [byte_of 0xEF; byte_of 0xBF; byte_of 0xBD]
  else if (r <? 0x10000)%N then [byte_of (0xE0 + N.shiftr r 12); cont (N.shiftr r 6); cont r]
  else [byte_of (0xF0 + N.shiftr r 18); cont (N.shiftr r 12); cont (N.shiftr r 6); cont r].
(** [getu4] *)
Definition getu4 (l : list ascii) : option N :=
  match l with
  | b :: u :: c1 :: c2 :: c3 :: c4 :: _ =>
    if (byte_val b == 92%N) && (byte_val u == 117%N) && is_hex (byte_val c1) && is_hex (byte_val c2) && is_hex (byte_val c3) && is_hex (byte_val c4)
    then Some (hex_value (byte_val c1) * 4096 + hex_value (byte_val c2) * 256 + hex_value (byte_val c3) * 16 + hex_value (byte_val c4))%N
    else None
  | _ => None
  end.
Definition surrogate (r : N) : bool := in_range 0xD800 0xDFFF r.
(** [utf16.DecodeRune] *)
Definition decode_pair (r1 r2 : N) : option N :=
  if in_range 0xD800 0xDBFF r1 && in_range 0xDC00 0xDFFF r2 then Some ((r1 - 0xD800) * 1024 + (r2 - 0xDC00) + 0x10000)%N else None.
Definition simple_escape (c : N) : N :=
  if c == 98%N then 8 else if c == 102%N then 12 else if c == 110%N then 10 else if c == 114%N then 13 else if c == 116%N then 9 else c.
(** [unquote]: the bytes of a string literal after its opening quote, and what follows
    its closing quote. *)
Fixpoint unquote (fuel : nat) (l : list ascii) : list ascii * list ascii :=
  match fuel, l with
  | S fuel, c :: t =>
    let v := byte_val c in
    let after (bs : list ascii) (rest : list ascii) := let '(out, rest) := unquote fuel rest in (bs ++ out, rest) in
    if v == 34%N then ([], t)
    else if v == 92%N then
      match getu4 l with
      | Some r =>
        if surrogate r then
          match getu4 (drop 6 l) ≫= decode_pair r with
          | Some r2 => after (rune_bytes r2) (drop 12 l)
          | None => after (rune_bytes RuneError) (drop 6 l)
          end
        else after (rune_bytes r) (drop 6 l)
      | None => match t with e :: t => after [byte_of (simple_escape (byte_val e))] t | [] => ([], []) end
      end
    else if (v <? 0x80)%N then after [c] t
    else let '(r, w) := decode_rune (byte_val <$> l) in after (rune_bytes r) (drop w l)
  | _, _ => ([], [])
  end.
Fixpoint skip_space (l : list ascii) : list ascii :=
  match l with c :: t => if json_space (byte_val c) then skip_space t else l | [] => [] end.
Definition number_byte (c : ascii) : bool :=
  let v := byte_val c in is_digit v || (v == 45%N) || (v == 43%N) || (v == 46%N) || (v == 101%N) || (v == 69%N).
Fixpoint span_number (l : list ascii) : list ascii * list ascii :=
  match l with
  | c :: t => if number_byte c then let '(n, rest) := span_number t in (c :: n, rest) else ([], l)
  | [] => ([], [])
  end.
(** [m[k] = v]: a key keeps its last value. *)
Definition put_key (k : string) (v : json_any) (m : list (string * json_any)) : list (string * json_any) :=
  List.filter (fun p => p.1 != k) m ++ [(k, v)].
(** The value a valid document starts with.  Each call of the three functions either
    reads a byte or hands over to one that does, so twice the length is enough fuel. *)
Fixpoint parse_value (fuel : nat) (l : list ascii) : json_any * list ascii :=
  match fuel, skip_space l with
  | S fuel, c :: t =>
    let v := byte_val c in
    if v == 123%N then parse_fields fuel [] t
    else if v == 91%N then parse_items fuel [] t
    else if v == 34%N then let '(s, rest) := unquote (length t) t in (JString (text_of s), rest)
    else if v == 116%N then (JBool true, drop 3 t)
    else if v == 102%N then (JBool false, drop 4 t)
    else if v == 110%N then (JNull, drop 3 t)
    else let '(n, rest) := span_number (c :: t) in (JNumber false (text_of n), rest)
  | _, _ => (JNull, [])
  end
with parse_items (fuel : nat) (acc : list json_any) (l : list ascii) : json_any * list ascii :=
  match fuel, skip_space l with
  | S fuel, c :: t =>
    if byte_val c == 93%N then (JArray (reverse acc), t)
    else if byte_val c == 44%N then let '(v, rest) := parse_value fuel t in parse_items fuel (v :: acc) rest
    else let '(v, rest) := parse_value fuel (c :: t) in parse_items fuel (v :: acc) rest
  | _, _ => (JArray (reverse acc), [])
  end
with parse_fields (fuel : nat) (acc : list (string * json_any)) (l : list ascii) : json_any * list ascii :=
  match fuel, skip_space l with
  | S fuel, c :: t =>
    if byte_val c == 125%N then (JMap acc, t)
    else if byte_val c == 44%N then parse_fields fuel acc t
    else
      let '(k, rest) := unquote (length t) t in
      let '(v, rest) := parse_value fuel (drop 1 (skip_space rest)) in parse_fields fuel (put_key (text_of k) v acc) rest
  | _, _ => (JMap acc, [])
  end.
(** [ParseJSONDocument]: the decoder stops at an error and wants nothing after the value. *)
Definition ParseJSONDocument (document : string) : option json_any :=
  if json_valid document then Some (parse_value (2 * length (bytes_of document)) (bytes_of document)).1 else None.

(** ** What the estimate respects *)
(** ** The estimate, rune by rune *)
Definition words (run : Z) : Z := ((run + 3) / 4)%Z.
Fixpoint tokens_from (run : Z) (l : list N) : Z :=
  match l with
  | [] => words run
  | r :: l => if isASCIIWordLike r then tokens_from (run + 1) l else (words run + 1 + tokens_from 0 l)%Z
  end.
Lemma words_0 : words 0 = 0%Z.
Proof. done. Qed.
Lemma words_mono a b : (a <= b)%Z -> (words a <= words b)%Z.
Proof. intros H. unfold words. apply Z.div_le_mono; lia. Qed.
Lemma words_add a b : (words (a + b) <= words a + words b)%Z.
Proof. unfold words. Z.to_euclidean_division_equations; lia. Qed.
Lemma words_nonneg a : (0 <= a)%Z -> (0 <= words a)%Z.
Proof. intros H. unfold words. apply Z.div_pos; lia. Qed.
Lemma fold_tokens l total run : (0 <= run)%Z ->
  (flushASCII (foldl estimate_rune (total, run) l)).1 = (total + tokens_from run l)%Z.
Proof.
  revert total run. induction l as [|r l IH]; intros total run Hr; cbn [foldl tokens_from].
  - unfold flushASCII. cbn [fst snd]. case_bool_decide as E; cbn [fst snd]; [subst; rewrite words_0; lia|done].
  - unfold estimate_rune at 2. destruct (isASCIIWordLike r); cbn [fst snd].
    + rewrite IH; [done|lia].
    + assert (Hf : flushASCII (total, run) = (total + words run, 0)%Z).
      { unfold flushASCII. cbn [fst snd]. case_bool_decide as E; [subst; rewrite words_0; f_equal; lia|done]. }
      rewrite Hf. cbn [fst snd]. rewrite IH by done. lia.
Qed.
Lemma estimate_runes_tokens l : estimate_runes l = tokens_from 0 l.
Proof. unfold estimate_runes. by rewrite fold_tokens. Qed.
Lemma tokens_mono l a b : (a <= b)%Z -> (tokens_from a l <= tokens_from b l)%Z.
Proof.
  revert a b. induction l as [|r l IH]; intros a b H; cbn; [by apply words_mono|]. destruct (isASCIIWordLike r); [apply IH; lia|].
  pose proof (words_mono a b H). lia.
Qed.
Lemma tokens_split l a b : (tokens_from (a + b) l <= words a + tokens_from b l)%Z.
Proof.
  revert b. induction l as [|r l IH]; intros b; cbn; [apply words_add|]. destruct (isASCIIWordLike r).
  - rewrite <- Z.add_assoc. apply IH.
  - pose proof (words_add a b). lia.
Qed.
Lemma tokens_sublist l l' : l' `sublist_of` l -> forall run, (tokens_from run l' <= tokens_from run l)%Z.
Proof.
  induction 1 as [|r l1 l2 _ IH|r l1 l2 _ IH]; intros run; cbn; [lia| |].
  - destruct (isASCIIWordLike r); [apply IH|]. specialize (IH 0%Z). lia.
  - destruct (isASCIIWordLike r).
    + etrans; [apply IH|]. apply tokens_mono. lia.
    + pose proof (tokens_split l2 run 0) as Hs. rewrite Z.add_0_r in Hs. specialize (IH run). lia.
Qed.
Lemma tokens_nonneg l run : (0 <= run)%Z -> (0 <= tokens_from run l)%Z.
Proof.
  revert run. induction l as [|r l IH]; intros run H; cbn; [by apply words_nonneg|]. destruct (isASCIIWordLike r); [apply IH; lia|].
  pose proof (words_nonneg run H). specialize (IH 0%Z). lia.
Qed.

(** ** Runes across an ASCII byte *)
Definition rune_list (l : list ascii) : list N := (runes_fuel (length l) l).*1.
Lemma decode_width c l r w : decode_rune (byte_val <$> c :: l) = (r, w) -> 1 <= w <= S (length l).
Proof.
  intros H. destruct (decode_rune_bytes (c :: l) r w H ltac:(done)) as [(? & t & E & ->)|[(? & ? & t & E & -> & _)|[(? & ? & ? & t & E & -> & _)|(? & ? & ? & ? & t & E & -> & _)]]];
    injection E as -> ->; cbn; lia.
Qed.
Lemma runes_fuel_more f l : length l <= f -> runes_fuel f l = runes_fuel (length l) l.
Proof.
  remember (length l) as n eqn:Hn. revert f l Hn. induction n as [n IH] using lt_wf_ind. intros f [|c l] -> Hf; [by destruct f|].
  destruct f as [|f]; [cbn in Hf; lia|]. cbn [length runes_fuel]. destruct (decode_rune (byte_val <$> c :: l)) as [r w] eqn:E.
  apply decode_width in E. f_equal. replace (Nat.max 1 w) with w by lia.
  assert (Hd : length (drop w (c :: l)) <= length l) by (rewrite length_drop; cbn; lia).
  rewrite (IH (length (drop w (c :: l)))) by (first [done|cbn in *; lia]).
  by rewrite (IH (length (drop w (c :: l))) ltac:(cbn; lia) (length l)).
Qed.
Lemma decode_ascii a c b : a <> [] -> (byte_val c < 0x80)%N -> decode_rune (byte_val <$> a ++ c :: b) = decode_rune (byte_val <$> a).
Proof.
  intros Ha Hc. assert (Hn : is_cont (byte_val c) = false) by (unfold is_cont, in_range; apply andb_false_iff; left; apply N.leb_gt; lia).
  assert (Hr : forall lo hi, (0x80 <= lo)%N -> in_range lo hi (byte_val c) = false)
    by (intros lo hi Hlo; unfold in_range; apply andb_false_iff; left; apply N.leb_gt; lia).
  destruct a as [|a0 [|a1 [|a2 [|a3 a]]]]; [done|..]; destruct b as [|b0 [|b1 b]]; cbn [app fmap list_fmap decode_rune];
    repeat match goal with |- context [if ?b then _ else _] => destruct b eqn:?; try done end;
    rewrite ?Hn, ?andb_false_r in *; cbn in *; try discriminate; rewrite ?Hr, ?andb_false_l in * by (repeat case_match; lia); try discriminate; try done.
Qed.
Lemma runes_across a c b : (byte_val c < 0x80)%N -> rune_list (a ++ c :: b) = rune_list a ++ byte_val c :: rune_list b.
Proof.
  intros Hc. remember (length a) as n eqn:Hn. revert a Hn. induction n as [n IH] using lt_wf_ind. intros [|x a] ->.
  - unfold rune_list. cbn [app length runes_fuel fmap list_fmap decode_rune]. rewrite (proj2 (N.ltb_lt _ _) Hc). done.
  - pose proof (decode_ascii (x :: a) c b ltac:(done) Hc) as Hd. unfold rune_list at 1 2. cbn [app length runes_fuel].
    cbn [app] in Hd. rewrite Hd. destruct (decode_rune (byte_val <$> x :: a)) as [r w] eqn:E. apply decode_width in E. replace (Nat.max 1 w) with w by lia.
    cbn [fmap list_fmap fst app]. f_equal. rewrite (runes_fuel_more (length (a ++ c :: b))), (runes_fuel_more (length a))
      by (rewrite length_drop; cbn; rewrite ?length_app; cbn; lia).
    replace (drop w (x :: a ++ c :: b)) with (drop w (x :: a) ++ c :: b) by (change (x :: a ++ c :: b) with ((x :: a) ++ c :: b); by rewrite drop_app_le by (cbn; lia)).
    apply (IH (length (drop w (x :: a)))); [rewrite length_drop; cbn; lia|done].
Qed.

(** ** Texts with fewer runes *)
Definition text_runes (s : string) : list N := rune_list (bytes_of s).
Definition runes_in (s' s : string) : Prop := text_runes s' `sublist_of` text_runes s.
#[export] Instance runes_in_preorder : PreOrder runes_in.
Proof. split; [by intros s; unfold runes_in|]. intros s1 s2 s3. unfold runes_in. apply transitivity. Qed.
Lemma EstimateText_tokens s : EstimateText s = tokens_from 0 (text_runes s).
Proof. unfold EstimateText. by rewrite estimate_runes_tokens. Qed.
Lemma EstimateText_mono s' s : runes_in s' s -> (EstimateText s' <= EstimateText s)%Z.
Proof. intros H. rewrite !EstimateText_tokens. by apply tokens_sublist. Qed.
Lemma EstimateText_nonneg s : (0 <= EstimateText s)%Z.
Proof. rewrite EstimateText_tokens. by apply tokens_nonneg. Qed.
Lemma text_runes_across a c b : (byte_val c < 0x80)%N -> text_runes (a +:+ String c b) = text_runes a ++ byte_val c :: text_runes b.
Proof. intros Hc. unfold text_runes. rewrite bytes_of_app. by apply runes_across. Qed.
Lemma text_runes_cons c b : (byte_val c < 0x80)%N -> text_runes (String c b) = byte_val c :: text_runes b.
Proof. intros Hc. by apply (text_runes_across "" c b). Qed.

(** *** Members of an object or array *)
Lemma fmap_sublist {A B} (f : A -> B) l' l : l' `sublist_of` l -> f <$> l' `sublist_of` f <$> l.
Proof. induction 1; cbn; auto using sublist_nil, sublist_skip, sublist_cons. Qed.
Lemma join_runes x y t : text_runes (join_comma (x :: y :: t)) = text_runes x ++ 44%N :: text_runes (join_comma (y :: t)).
Proof. change (join_comma (x :: y :: t)) with (x +:+ String "," (join_comma (y :: t))). by rewrite text_runes_across. Qed.
Lemma join_tail x t : runes_in (join_comma t) (join_comma (x :: t)).
Proof.
  destruct t as [|y t]; [apply sublist_nil_l|]. unfold runes_in. rewrite join_runes. by apply sublist_inserts_l, sublist_cons.
Qed.
Lemma join_sublist l' l : l' `sublist_of` l -> runes_in (join_comma l') (join_comma l).
Proof.
  induction 1 as [|x l1 l2 Hs IH|x l1 l2 _ IH]; [done| |etrans; [exact IH|apply join_tail]].
  destruct l1 as [|y l1], l2 as [|z l2]; [done| |by apply sublist_nil_r in Hs|].
  - unfold runes_in. rewrite join_runes. by apply sublist_inserts_r.
  - unfold runes_in in *. rewrite !join_runes. by apply sublist_app, sublist_skip.
Qed.
Lemma join_pointwise l' l : Forall2 runes_in l' l -> runes_in (join_comma l') (join_comma l).
Proof.
  induction 1 as [|x' x l' l Hx Hl IH]; [done|]. destruct Hl as [|y' y l' l Hy Hl]; [exact Hx|].
  unfold runes_in in *. rewrite !join_runes. by apply sublist_app, sublist_skip.
Qed.
Lemma wrapped_runes o s c : (byte_val o < 0x80)%N -> (byte_val c < 0x80)%N ->
  text_runes (String o (s +:+ String c "")) = byte_val o :: text_runes s ++ [byte_val c].
Proof. intros Ho Hc. rewrite text_runes_cons, text_runes_across by done. done. Qed.
Lemma enc_array_mono l' l : runes_in (join_comma l') (join_comma l) -> runes_in (enc_array l') (enc_array l).
Proof.
  intros H. change (runes_in (String "[" (join_comma l' +:+ String "]" "")) (String "[" (join_comma l +:+ String "]" ""))).
  unfold runes_in. rewrite !wrapped_runes by done. by apply sublist_skip, sublist_app.
Qed.
Lemma enc_object_sublist fs' fs : omap id fs' `sublist_of` omap id fs -> runes_in (enc_object fs') (enc_object fs).
Proof.
  intros H. unfold enc_object. set (f := fun p => _).
  change (runes_in (String "{" (join_comma (f <$> omap id fs') +:+ String "}" "")) (String "{" (join_comma (f <$> omap id fs) +:+ String "}" ""))).
  unfold runes_in. rewrite !wrapped_runes by done. apply sublist_skip, sublist_app; [|done]. apply join_sublist. by apply fmap_sublist.
Qed.
(** Members left out, one after the other. *)
Definition fewer_fields (fs' fs : list json_field) : Prop := Forall2 (fun f' f => f' = f \/ f' = None) fs' fs.
Lemma enc_object_fewer fs' fs : fewer_fields fs' fs -> runes_in (enc_object fs') (enc_object fs).
Proof.
  intros H. apply enc_object_sublist. induction H as [|f' f fs' fs [-> | ->] _ IH]; cbn; [done| |].
  - destruct f; cbn; [by apply sublist_skip|done].
  - destruct f; cbn; [by apply sublist_cons|done].
Qed.
