(* ===== verification/Context.v ===== *)
(** * What the model is shown: [runtime/internal/context]

    The data of a projection, its rendering into a request ([renderer.go] and the
    [Render...] functions of its sections), and the measure of a request
    ([request_sizing.go]).  Maps of the environment are the JSON values of Tokens.v; a
    section that marshals Go structs writes their fields as [encoding/json] does. *)

From S2P Require Export Tokens Tooling.

Local Open Scope go_scope.

(** ** Data *)
Notation any_map := (list (string * json_any)).
Notation ctx_ToolCall := (Batch.ToolCall (Value := any_map)).
Notation ctx_ToolResult := (Batch.ToolResult (Value := any_map)).

Record BudgetConfig := {
  MaxRequestTokens : Z; MaxSystemTokens : Z; MaxUserMessageTokens : Z; MaxDefinitionTokens : Z; MaxObservationTokens : Z;
  MaxEventTokens : Z; MaxContextFactsTokens : Z; MaxTaskContextTokens : Z; MaxRecentMemoryTokens : Z; MaxRecentMemoryRecords : Z;
  MaxTranscriptTokens : Z; MaxToolCount : Z; MaxToolDescriptionTokens : Z; MaxToolSchemaTokens : Z; MaxTotalToolSchemaTokens : Z;
  MaxToolResultOutputTokens : Z; MaxToolResultOutputDepth : Z; MaxToolResultOutputFields : Z; MaxToolResultOutputArrayItems : Z
}.
Definition DefaultBudgetConfig : BudgetConfig :=
  {| MaxRequestTokens := 65536; MaxSystemTokens := 8192; MaxUserMessageTokens := 49152; MaxDefinitionTokens := 8192;
     MaxObservationTokens := 8192; MaxEventTokens := 4096; MaxContextFactsTokens := 4096; MaxTaskContextTokens := 2048;
     MaxRecentMemoryTokens := 4096; MaxRecentMemoryRecords := 5; MaxTranscriptTokens := 16384; MaxToolCount := 64;
     MaxToolDescriptionTokens := 2048; MaxToolSchemaTokens := 8192; MaxTotalToolSchemaTokens := 32768;
     MaxToolResultOutputTokens := 8192; MaxToolResultOutputDepth := 4; MaxToolResultOutputFields := 64;
     MaxToolResultOutputArrayItems := 32 |}.
Definition positiveOrDefault (value fallback : Z) : Z := if (0 <? value)%Z then value else fallback.
Definition WithDefaults (c : BudgetConfig) : BudgetConfig :=
  let or_default (field : BudgetConfig -> Z) := positiveOrDefault (field c) (field DefaultBudgetConfig) in
  {| MaxRequestTokens := or_default MaxRequestTokens; MaxSystemTokens := or_default MaxSystemTokens;
     MaxUserMessageTokens := or_default MaxUserMessageTokens; MaxDefinitionTokens := or_default MaxDefinitionTokens;
     MaxObservationTokens := or_default MaxObservationTokens; MaxEventTokens := or_default MaxEventTokens;
     MaxContextFactsTokens := or_default MaxContextFactsTokens; MaxTaskContextTokens := or_default MaxTaskContextTokens;
     MaxRecentMemoryTokens := or_default MaxRecentMemoryTokens; MaxRecentMemoryRecords := or_default MaxRecentMemoryRecords;
     MaxTranscriptTokens := or_default MaxTranscriptTokens; MaxToolCount := or_default MaxToolCount;
     MaxToolDescriptionTokens := or_default MaxToolDescriptionTokens; MaxToolSchemaTokens := or_default MaxToolSchemaTokens;
     MaxTotalToolSchemaTokens := or_default MaxTotalToolSchemaTokens;
     MaxToolResultOutputTokens := or_default MaxToolResultOutputTokens; MaxToolResultOutputDepth := or_default MaxToolResultOutputDepth;
     MaxToolResultOutputFields := or_default MaxToolResultOutputFields;
     MaxToolResultOutputArrayItems := or_default MaxToolResultOutputArrayItems |}.

Record PlayerPreferences := { pf_Name : string; pf_Language : string; pf_Style : string }.
#[export] Instance PlayerPreferences_eq_dec : EqDecision PlayerPreferences. Proof. solve_decision. Defined.
Definition no_preferences : PlayerPreferences := {| pf_Name := ""; pf_Language := ""; pf_Style := "" |}.
Record GameDefinition := {
  gd_SchemaVersion : string; gd_GameID : string; gd_Title : string; gd_Summary : string; gd_WorldRules : list string;
  gd_Lore : list string; gd_NarrativeConstraints : list string; gd_SourceVersion : string
}.
#[export] Instance GameDefinition_eq_dec : EqDecision GameDefinition. Proof. solve_decision. Defined.
Record AgentDefinition := {
  ad_SchemaVersion : string; ad_GameID : string; ad_DefinitionID : string; ad_Identity : string; ad_Personality : list string;
  ad_SpeechStyle : list string; ad_Preferences : list string; ad_BehaviorGuidelines : list string; ad_SourceVersion : string
}.
#[export] Instance AgentDefinition_eq_dec : EqDecision AgentDefinition. Proof. solve_decision. Defined.
Record AgentInstanceDescriptor := { de_SessionKey : AgentSessionKey; de_EntityType : string; de_DisplayName : string; de_DefinitionID : string }.
Record EventProjection := {
  pe_EventID : string; pe_EventType : string; pe_WorldID : string; pe_TargetEntityID : string; pe_Sequence : N;
  pe_GameTime : option GameTime; pe_CanonicalTarget : option EntityRef; pe_Payload : any_map
}.
Record ContextFactProjection := {
  fp_Kind : string; fp_ActorEntityID : string; fp_TargetEntityID : string; fp_ScopeID : string; fp_Text : string; fp_Label : string;
  fp_Attributes : any_map
}.
Record ObservationProjection := {
  po_WorldID : string; po_EntityID : string; po_Revision : N; po_GameTime : option GameTime; po_NearbyEntities : list EntityRef;
  po_Extensions : any_map; po_State : any_map
}.
Record MemoryProjection := { mp_MemoryID : string; mp_TimeRelation : string; mp_Summaries : list string }.
Record HistoryTextSpan := { ts_Path : string; ts_Start : Z; ts_End : Z }.
#[export] Instance HistoryTextSpan_eq_dec : EqDecision HistoryTextSpan. Proof. solve_decision. Defined.
Record HistoryUnit := {
  hu_SourceID : string; hu_Sequence : Z; hu_TimeRelation : string; hu_Content : string; hu_Complete : bool; hu_VisibleSpans : list HistoryTextSpan
}.
Record HistoryProjection := { hp_SummaryID : string; hp_SummaryText : string; hp_Sources : list HistoryUnit }.
Record SourceContextFact := {
  sf_Kind : string; sf_ActorEntityID : string; sf_TargetEntityID : string; sf_ScopeID : string; sf_Text : string; sf_Label : string;
  sf_Attributes : option any_map
}.
Record ExperienceUnit := { xu_SourceID : string; xu_FactID : string; xu_GameTime : option GameTimeSnapshot; xu_Fact : SourceContextFact }.
Record HistoryTime := { htm_Source : string; htm_Step : Z; htm_Value : option GameTimeSnapshot }.
(** [sn_CreatedAt]: the text of the time. *)
Record RetrievedHistorySnippet := {
  sn_SourceID : string; sn_Sequence : Z; sn_CreatedAt : string; sn_Times : list HistoryTime; sn_TimeRelation : string; sn_ActorID : string;
  sn_Kind : string; sn_Path : string; sn_Start : Z; sn_End : Z; sn_Text : string; sn_Cropped : bool
}.
Record knowledge_Snippet := { ks_ID : string; ks_Title : string; ks_Text : string }.
Record knowledge_Result := {
  kr_Status : string; kr_SourceVersion : string; kr_ContentHash : string; kr_Entries : list knowledge_Snippet; kr_Truncated : bool
}.
Definition no_knowledge : knowledge_Result :=
  {| kr_Status := ""; kr_SourceVersion := ""; kr_ContentHash := ""; kr_Entries := []; kr_Truncated := false |}.
Record TaskRecovery := { tr_NeedsReconcile : bool; tr_ExecutionGeneration : N; tr_RevalidatedFactIDs : list string }.
Record TaskResultProjection := {
  tp_ResultID : string; tp_ResultTaskID : string; tp_ResultState : State; tp_ResultReason : string; tp_OccurredAt : Z; tp_EvidenceRefs : list string
}.
Record TaskProjection := mkTaskProjection {
  tk_TaskID : string; tk_Instruction : string; tk_State : State; tk_Revision : N; tk_NextWakeupAt : option Z; tk_DeadlineAt : Z;
  tk_WakeReason : string; tk_WakeDueAt : Z; tk_WakeID : string; tk_Reason : string; tk_Progress : RawMessage;
  tk_Recovery : option TaskRecovery; tk_RecentResults : list TaskResultProjection; tk_Contract : RawMessage
}.
Record ToolDefinition := { td_Name : string; td_Description : string; td_InputSchema : string }.
Inductive Role := RoleUser | RoleAssistant | RoleTool | RoleOther (text : string).
#[export] Instance Role_eq_dec : EqDecision Role. Proof. solve_decision. Defined.
Definition Role_string (r : Role) : string :=
  match r with RoleUser => "user" | RoleAssistant => "assistant" | RoleTool => "tool" | RoleOther text => text end.
Record model_Message := mkMessage {
  mm_Role : Role; mm_Content : string; mm_ToolCalls : list ctx_ToolCall; mm_ToolResults : list ctx_ToolResult; mm_ReasoningContent : string
}.
Record ControlDefinition := { ct_Kind : string; ct_Description : string }.
Record model_Request := {
  rq_System : string; rq_Messages : list model_Message; rq_Tools : list ToolDefinition; rq_Controls : list ControlDefinition
}.
Record ContextProjection := mkProjection {
  pj_PlayerPreferences : PlayerPreferences; pj_SessionKey : AgentSessionKey; pj_CanonicalTarget : option EntityRef;
  pj_AgentDescriptor : AgentInstanceDescriptor; pj_GameDefinition : option GameDefinition; pj_AgentDefinition : option AgentDefinition;
  pj_RuntimePolicy : string; pj_Instruction : string; pj_CurrentEvent : EventProjection; pj_Facts : list ContextFactProjection;
  pj_CurrentObservation : ObservationProjection; pj_Task : option TaskProjection; pj_RecentMemory : list MemoryProjection;
  pj_History : HistoryProjection; pj_RecentExperiences : list ExperienceUnit; pj_RetrievedHistory : list RetrievedHistorySnippet;
  pj_RetrievedKnowledge : knowledge_Result; pj_historyEnabled : bool; pj_retrievalEnabled : bool; pj_Tools : list ToolDefinition;
  pj_Transcript : list model_Message
}.
(** *** Field assignments *)
Definition set_preferences (x : PlayerPreferences) (p : ContextProjection) : ContextProjection :=
  mkProjection x (pj_SessionKey p) (pj_CanonicalTarget p) (pj_AgentDescriptor p) (pj_GameDefinition p)
    (pj_AgentDefinition p) (pj_RuntimePolicy p) (pj_Instruction p) (pj_CurrentEvent p) (pj_Facts p)
    (pj_CurrentObservation p) (pj_Task p) (pj_RecentMemory p) (pj_History p) (pj_RecentExperiences p)
    (pj_RetrievedHistory p) (pj_RetrievedKnowledge p) (pj_historyEnabled p) (pj_retrievalEnabled p) (pj_Tools p)
    (pj_Transcript p).
Definition set_game (x : option GameDefinition) (p : ContextProjection) : ContextProjection :=
  mkProjection (pj_PlayerPreferences p) (pj_SessionKey p) (pj_CanonicalTarget p) (pj_AgentDescriptor p) x
    (pj_AgentDefinition p) (pj_RuntimePolicy p) (pj_Instruction p) (pj_CurrentEvent p) (pj_Facts p)
    (pj_CurrentObservation p) (pj_Task p) (pj_RecentMemory p) (pj_History p) (pj_RecentExperiences p)
    (pj_RetrievedHistory p) (pj_RetrievedKnowledge p) (pj_historyEnabled p) (pj_retrievalEnabled p) (pj_Tools p)
    (pj_Transcript p).
Definition set_agent (x : option AgentDefinition) (p : ContextProjection) : ContextProjection :=
  mkProjection (pj_PlayerPreferences p) (pj_SessionKey p) (pj_CanonicalTarget p) (pj_AgentDescriptor p)
    (pj_GameDefinition p) x (pj_RuntimePolicy p) (pj_Instruction p) (pj_CurrentEvent p) (pj_Facts p)
    (pj_CurrentObservation p) (pj_Task p) (pj_RecentMemory p) (pj_History p) (pj_RecentExperiences p)
    (pj_RetrievedHistory p) (pj_RetrievedKnowledge p) (pj_historyEnabled p) (pj_retrievalEnabled p) (pj_Tools p)
    (pj_Transcript p).
Definition set_event (x : EventProjection) (p : ContextProjection) : ContextProjection :=
  mkProjection (pj_PlayerPreferences p) (pj_SessionKey p) (pj_CanonicalTarget p) (pj_AgentDescriptor p)
    (pj_GameDefinition p) (pj_AgentDefinition p) (pj_RuntimePolicy p) (pj_Instruction p) x (pj_Facts p)
    (pj_CurrentObservation p) (pj_Task p) (pj_RecentMemory p) (pj_History p) (pj_RecentExperiences p)
    (pj_RetrievedHistory p) (pj_RetrievedKnowledge p) (pj_historyEnabled p) (pj_retrievalEnabled p) (pj_Tools p)
    (pj_Transcript p).
Definition set_facts (x : list ContextFactProjection) (p : ContextProjection) : ContextProjection :=
  mkProjection (pj_PlayerPreferences p) (pj_SessionKey p) (pj_CanonicalTarget p) (pj_AgentDescriptor p)
    (pj_GameDefinition p) (pj_AgentDefinition p) (pj_RuntimePolicy p) (pj_Instruction p) (pj_CurrentEvent p) x
    (pj_CurrentObservation p) (pj_Task p) (pj_RecentMemory p) (pj_History p) (pj_RecentExperiences p)
    (pj_RetrievedHistory p) (pj_RetrievedKnowledge p) (pj_historyEnabled p) (pj_retrievalEnabled p) (pj_Tools p)
    (pj_Transcript p).
Definition set_observation (x : ObservationProjection) (p : ContextProjection) : ContextProjection :=
  mkProjection (pj_PlayerPreferences p) (pj_SessionKey p) (pj_CanonicalTarget p) (pj_AgentDescriptor p)
    (pj_GameDefinition p) (pj_AgentDefinition p) (pj_RuntimePolicy p) (pj_Instruction p) (pj_CurrentEvent p)
    (pj_Facts p) x (pj_Task p) (pj_RecentMemory p) (pj_History p) (pj_RecentExperiences p) (pj_RetrievedHistory p)
    (pj_RetrievedKnowledge p) (pj_historyEnabled p) (pj_retrievalEnabled p) (pj_Tools p) (pj_Transcript p).
Definition set_task (x : option TaskProjection) (p : ContextProjection) : ContextProjection :=
  mkProjection (pj_PlayerPreferences p) (pj_SessionKey p) (pj_CanonicalTarget p) (pj_AgentDescriptor p)
    (pj_GameDefinition p) (pj_AgentDefinition p) (pj_RuntimePolicy p) (pj_Instruction p) (pj_CurrentEvent p)
    (pj_Facts p) (pj_CurrentObservation p) x (pj_RecentMemory p) (pj_History p) (pj_RecentExperiences p)
    (pj_RetrievedHistory p) (pj_RetrievedKnowledge p) (pj_historyEnabled p) (pj_retrievalEnabled p) (pj_Tools p)
    (pj_Transcript p).
Definition set_memory (x : list MemoryProjection) (p : ContextProjection) : ContextProjection :=
  mkProjection (pj_PlayerPreferences p) (pj_SessionKey p) (pj_CanonicalTarget p) (pj_AgentDescriptor p)
    (pj_GameDefinition p) (pj_AgentDefinition p) (pj_RuntimePolicy p) (pj_Instruction p) (pj_CurrentEvent p)
    (pj_Facts p) (pj_CurrentObservation p) (pj_Task p) x (pj_History p) (pj_RecentExperiences p)
    (pj_RetrievedHistory p) (pj_RetrievedKnowledge p) (pj_historyEnabled p) (pj_retrievalEnabled p) (pj_Tools p)
    (pj_Transcript p).
Definition set_history (x : HistoryProjection) (p : ContextProjection) : ContextProjection :=
  mkProjection (pj_PlayerPreferences p) (pj_SessionKey p) (pj_CanonicalTarget p) (pj_AgentDescriptor p)
    (pj_GameDefinition p) (pj_AgentDefinition p) (pj_RuntimePolicy p) (pj_Instruction p) (pj_CurrentEvent p)
    (pj_Facts p) (pj_CurrentObservation p) (pj_Task p) (pj_RecentMemory p) x (pj_RecentExperiences p)
    (pj_RetrievedHistory p) (pj_RetrievedKnowledge p) (pj_historyEnabled p) (pj_retrievalEnabled p) (pj_Tools p)
    (pj_Transcript p).
Definition set_experiences (x : list ExperienceUnit) (p : ContextProjection) : ContextProjection :=
  mkProjection (pj_PlayerPreferences p) (pj_SessionKey p) (pj_CanonicalTarget p) (pj_AgentDescriptor p)
    (pj_GameDefinition p) (pj_AgentDefinition p) (pj_RuntimePolicy p) (pj_Instruction p) (pj_CurrentEvent p)
    (pj_Facts p) (pj_CurrentObservation p) (pj_Task p) (pj_RecentMemory p) (pj_History p) x (pj_RetrievedHistory p)
    (pj_RetrievedKnowledge p) (pj_historyEnabled p) (pj_retrievalEnabled p) (pj_Tools p) (pj_Transcript p).
Definition set_knowledge (x : knowledge_Result) (p : ContextProjection) : ContextProjection :=
  mkProjection (pj_PlayerPreferences p) (pj_SessionKey p) (pj_CanonicalTarget p) (pj_AgentDescriptor p)
    (pj_GameDefinition p) (pj_AgentDefinition p) (pj_RuntimePolicy p) (pj_Instruction p) (pj_CurrentEvent p)
    (pj_Facts p) (pj_CurrentObservation p) (pj_Task p) (pj_RecentMemory p) (pj_History p) (pj_RecentExperiences p)
    (pj_RetrievedHistory p) x (pj_historyEnabled p) (pj_retrievalEnabled p) (pj_Tools p) (pj_Transcript p).
Definition set_transcript (x : list model_Message) (p : ContextProjection) : ContextProjection :=
  mkProjection (pj_PlayerPreferences p) (pj_SessionKey p) (pj_CanonicalTarget p) (pj_AgentDescriptor p)
    (pj_GameDefinition p) (pj_AgentDefinition p) (pj_RuntimePolicy p) (pj_Instruction p) (pj_CurrentEvent p)
    (pj_Facts p) (pj_CurrentObservation p) (pj_Task p) (pj_RecentMemory p) (pj_History p) (pj_RecentExperiences p)
    (pj_RetrievedHistory p) (pj_RetrievedKnowledge p) (pj_historyEnabled p) (pj_retrievalEnabled p) (pj_Tools p) x.
Definition set_retrieved (x : list RetrievedHistorySnippet) (p : ContextProjection) : ContextProjection :=
  mkProjection (pj_PlayerPreferences p) (pj_SessionKey p) (pj_CanonicalTarget p) (pj_AgentDescriptor p)
    (pj_GameDefinition p) (pj_AgentDefinition p) (pj_RuntimePolicy p) (pj_Instruction p) (pj_CurrentEvent p)
    (pj_Facts p) (pj_CurrentObservation p) (pj_Task p) (pj_RecentMemory p) (pj_History p) (pj_RecentExperiences p) x
    (pj_RetrievedKnowledge p) (pj_historyEnabled p) (pj_retrievalEnabled p) (pj_Tools p) (pj_Transcript p).
Definition set_retrieval_enabled (x : bool) (p : ContextProjection) : ContextProjection :=
  mkProjection (pj_PlayerPreferences p) (pj_SessionKey p) (pj_CanonicalTarget p) (pj_AgentDescriptor p)
    (pj_GameDefinition p) (pj_AgentDefinition p) (pj_RuntimePolicy p) (pj_Instruction p) (pj_CurrentEvent p)
    (pj_Facts p) (pj_CurrentObservation p) (pj_Task p) (pj_RecentMemory p) (pj_History p) (pj_RecentExperiences p)
    (pj_RetrievedHistory p) (pj_RetrievedKnowledge p) (pj_historyEnabled p) x (pj_Tools p) (pj_Transcript p).
