(* ===== verification/Cropping.v ===== *)
(** * Fitting a projection into its budgets: [context.go] and the projections of sections

    Tool arguments and results cut to depth, width and tokens ([projection_bounds.go]),
    the transcript cut to its last causal groups ([transcript_projection.go]), the task
    ([task_projection.go]) and the definitions cut to their budgets, and the global
    loop that drops optional content until the request fits. *)

From S2P Require Export Rendering.

Local Open Scope go_scope.
Local Open Scope string_scope.

(** ** Bounds of tool arguments and results: [projection_bounds.go] *)
Record projectionBounds := { bn_maxTokens : Z; bn_maxDepth : Z; bn_maxFields : Z; bn_maxArrayItems : Z }.
Definition projectionBoundsFromEngineConfig (c : BudgetConfig) : projectionBounds :=
  {| bn_maxTokens := positiveOrDefault (MaxToolResultOutputTokens c) 8192; bn_maxDepth := positiveOrDefault (MaxToolResultOutputDepth c) 4;
     bn_maxFields := positiveOrDefault (MaxToolResultOutputFields c) 64;
     bn_maxArrayItems := positiveOrDefault (MaxToolResultOutputArrayItems c) 32 |}.
(** [limit := len; if max > 0 && limit > max { limit = max }] *)
Definition cut_limit {A} (max : Z) (l : list A) : nat :=
  if (0 <? max)%Z && (max <? Z.of_nat (length l))%Z then Z.to_nat max else length l.
Definition cut_fields (max : Z) (m : any_map) : any_map :=
  let m := sort_slice by_name m in
  let limit := cut_limit max m in
  let out := take limit m in
  if (limit <? length m)%nat then put_key "_truncated_fields" (json_int (Z.of_nat (length m - limit))) out else out.
Definition cut_items (max : Z) (l : list json_any) : list json_any :=
  let limit := cut_limit max l in
  let out := take limit l in
  if (limit <? length l)%nat then out ++ [JString ("_truncated_items:" +:+ enc_int (Z.of_nat (length l - limit)))] else out.
Fixpoint projectOutputValue (bounds : projectionBounds) (depth : Z) (v : json_any) : json_any :=
  let deep := (0 <? bn_maxDepth bounds)%Z && (bn_maxDepth bounds <? depth)%Z in
  match v with
  | JMap m =>
    if deep then JString "_truncated: max depth exceeded" else
    JMap (cut_fields (bn_maxFields bounds) ((fun p => (p.1, projectOutputValue bounds (depth + 1)%Z p.2)) <$> m))
  | JArray l =>
    if deep then JString "_truncated: max depth exceeded" else
    JArray (cut_items (bn_maxArrayItems bounds) (projectOutputValue bounds (depth + 1)%Z <$> l))
  | JNumber false text => JString text
  | v => v
  end.
Definition map_tokens (m : any_map) : Z := EstimateText (marshal_any (JMap m)).
Definition boundedTruncationMarker (bounds : projectionBounds) : option any_map :=
  let marker := [("_truncated", JBool true)] in
  if over (bn_maxTokens bounds) (map_tokens marker) then None else Some marker.
Definition projectBoundedMap (values : option any_map) (bounds : projectionBounds) : option any_map :=
  match values with
  | None | Some [] => None
  | Some values =>
    match projectOutputValue bounds 1 (JMap values) with
    | JMap ((_ :: _) as projected) =>
      if over (bn_maxTokens bounds) (map_tokens projected) then boundedTruncationMarker bounds else Some projected
    | _ => None
    end
  end.

(** ** The transcript: [transcript_projection.go] *)
Inductive context_error := ErrInvalidInput (text : string) | ErrBudgetExceeded (text : string) | ErrToolSchema.
Record RetentionReport := { rt_RetainedCount : Z; rt_DroppedCount : Z }.
Definition no_retention : RetentionReport := {| rt_RetainedCount := 0; rt_DroppedCount := 0 |}.

(** What stands before the first byte [c]; all of it when there is none. *)
Fixpoint before_byte (c : ascii) (l : list ascii) : list ascii :=
  match l with [] => [] | x :: t => if Ascii.eqb x c then [] else x :: before_byte c t end.
(** [strings.ReplaceAll(s, "\r\n", "\n")] *)
Fixpoint unix_lines (l : list ascii) : list ascii :=
  match l with
  | x :: t => match t with
              | y :: t' => if Ascii.eqb x (byte_of 13) && Ascii.eqb y (byte_of 10) then y :: unix_lines t' else x :: unix_lines t
              | [] => [x]
              end
  | [] => []
  end.
Definition has_byte (c : ascii) (s : string) : bool := existsb (Ascii.eqb c) (bytes_of s).
Definition cut_at (c : ascii) (s : string) : string := if has_byte c s then TrimSpace (text_of (before_byte c (bytes_of s))) else s.
Definition sanitizeToolResultMessage (message : string) : string :=
  let message := TrimSpace (text_of (unix_lines (bytes_of message))) in
  if message == "" then "" else
  let message := cut_at (byte_of 123) (cut_at (byte_of 10) message) in
  if (length (runes message) <=? 120)%nat then message
  else TrimSpace (text_of (concat (rune_bytes <$> (take 120 (runes message)).*1))).
Definition projectTranscriptToolCall (bounds : projectionBounds) (c : ctx_ToolCall) : ctx_ToolCall :=
  mkCall (tc_ID c) (tc_Name c) (projectBoundedMap (tc_Arguments c) bounds) (tc_RawArguments c) (tc_ArgumentsError c).
Definition projectTranscriptToolResult (bounds : projectionBounds) (r : ctx_ToolResult) : ctx_ToolResult :=
  mkResult (tr_ToolCallID r) (tr_Name r) (tr_Status r) (tr_Code r) (sanitizeToolResultMessage (tr_Message r)) (projectBoundedMap (tr_Output r) bounds).
Definition projectTranscriptMessage (bounds : projectionBounds) (m : model_Message) : model_Message :=
  mkMessage (mm_Role m) (TrimSpace (mm_Content m)) (projectTranscriptToolCall bounds <$> mm_ToolCalls m)
    (projectTranscriptToolResult bounds <$> mm_ToolResults m) (mm_ReasoningContent m).

(** Ids are compared trimmed; [None] when one is empty or repeated. *)
Fixpoint distinct_ids (seen : gset string) (ids : list string) : option (gset string) :=
  match ids with
  | [] => Some seen
  | id :: ids => let id := TrimSpace id in if (id == "") || bool_decide (id ∈ seen) then None else distinct_ids ({[id]} ∪ seen) ids
  end.
Definition toolResultsMatchCalls (calls : list ctx_ToolCall) (results : list ctx_ToolResult) : bool :=
  match calls with [] => false | _ =>
    (length calls == length results)
    && match distinct_ids ∅ (tc_ID <$> calls), distinct_ids ∅ (tr_ToolCallID <$> results) with
       | Some seen, Some matched => bool_decide (matched ⊆ seen) && (size matched == size seen)
       | _, _ => false
       end
  end.
Fixpoint transcriptCausalGroups (messages : list model_Message) : outcome context_error (list (list model_Message)) :=
  match messages with
  | [] => Ok []
  | m :: rest =>
    match mm_ToolCalls m with
    | [] =>
      _ ← fail_if (match mm_ToolResults m with [] => false | _ => true end) (ErrInvalidInput "transcript tool result has no corresponding call");
      groups ← transcriptCausalGroups rest; Ok ([m] :: groups)
    | calls =>
      match rest with
      | [] => Err (ErrInvalidInput "transcript tool call has no corresponding result")
      | result :: rest =>
        _ ← fail_if (match mm_ToolResults result, mm_ToolCalls result with
                     | _ :: _, [] => ! toolResultsMatchCalls calls (mm_ToolResults result)
                     | _, _ => true
                     end) (ErrInvalidInput "transcript tool call has no corresponding result");
        groups ← transcriptCausalGroups rest; Ok ([m; result] :: groups)
      end
    end
  end.
Definition messages_tokens (l : list model_Message) : Z := EstimateText (marshalMessages l).
(** How many of the groups, the latest first, fit in what is left of the limit. *)
Fixpoint fitting_groups (limit total : Z) (latest : list (list model_Message)) : nat :=
  match latest with
  | [] => 0
  | g :: latest => let total := (total + messages_tokens g)%Z in if (limit <? total)%Z then 0 else S (fitting_groups limit total latest)
  end.
Definition trimTranscriptGroups (groups : list (list model_Message)) (limit : Z) : outcome context_error (list model_Message * Z) :=
  match groups with
  | [] => Ok ([], 0%Z)
  | _ =>
    if (limit <=? 0)%Z then Ok (concat groups, 0%Z) else
    match fitting_groups limit 0 (reverse groups) with
    | O => Err (ErrBudgetExceeded "latest transcript causal group exceeds token budget")
    | n => let start := (length groups - n)%nat in
           Ok (concat (drop start groups), Z.of_nat (length (concat (take start groups))))
    end
  end.
Definition projectCurrentTurnTranscript (messages : list model_Message) (bounds : projectionBounds) (limit : Z) :
    list model_Message * RetentionReport * option context_error :=
  match messages with
  | [] => ([], no_retention, None)
  | _ =>
    let out := projectTranscriptMessage bounds <$> messages in
    match transcriptCausalGroups out with
    | Err e => ([], no_retention, Some e)
    | Ok groups =>
      match trimTranscriptGroups groups limit with
      | Err e => ([], {| rt_RetainedCount := 0; rt_DroppedCount := Z.of_nat (length out) |}, Some e)
      | Ok (trimmed, dropped) => (trimmed, {| rt_RetainedCount := Z.of_nat (length trimmed); rt_DroppedCount := dropped |}, None)
      end
    end
  end.

(** ** The task: [task_projection.go] *)
Definition defaultMaxTaskContextTokens : Z := 2048.
Definition maxProjectedTaskResults : nat := 3.
Definition projectTaskRecovery (record : TaskRecord) (rc : RuntimeCallContext) : option TaskRecovery :=
  let ids := omap (fun e => if bool_decide (is_Some (ev_RevalidatedIn e)) then Some (ev_FactID e) else None) (r_Evidence record) in
  if ! r_NeedsReconcile record && (ids == []) then None else
  Some {| tr_NeedsReconcile := r_NeedsReconcile record; tr_ExecutionGeneration := bd_Generation (ex_Binding (rc_Execution rc));
          tr_RevalidatedFactIDs := ids |}.
Definition projectTaskResult (r : Result) : TaskResultProjection :=
  {| tp_ResultID := rs_ID r; tp_ResultTaskID := rs_TaskID r; tp_ResultState := rs_State r; tp_ResultReason := rs_Reason r;
     tp_OccurredAt := rs_OccurredAt r; tp_EvidenceRefs := default [] (rs_EvidenceRefs r) |}.
Definition projectTask (owner : AgentSessionKey) (rc : option RuntimeCallContext) : outcome context_error (option TaskProjection) :=
  match rc with
  | None => Ok None
  | Some rc =>
    match rc_ObservedTask rc with
    | None => Ok None
    | Some r =>
      if r_Owner r != owner then Err (ErrInvalidInput "task") else
      let e := rc_Execution rc in
      let wake := src_Kind (ex_Source e) == SourceKindTaskWake in
      Ok (Some (mkTaskProjection (r_ID r) (sp_Instruction (r_Spec r)) (r_State r) (r_Revision r) (r_NextWakeAt r) (sp_DeadlineAt (r_Spec r))
                  (if wake then ex_WakeReason e else "") (if wake then ex_WakeDueAt e else 0%Z) (if wake then ex_WakeID e else "")
                  (if r_State r == StatePaused then r_PauseReason r else "") (r_Progress r) (projectTaskRecovery r rc)
                  (projectTaskResult <$> take maxProjectedTaskResults (rc_RecentResults rc)) (sp_Contract (r_Spec r))))
    end
  end.
Record TaskContextReport := mkTaskReport {
  kt_EstimatedTokens : Z; kt_Cropped : bool; kt_DroppedProgress : bool; kt_DroppedResults : Z; kt_DroppedDetail : bool
}.
Definition no_task_report : TaskContextReport := mkTaskReport 0 false false 0 false.
Definition estimateTaskProjection (t : option TaskProjection) : Z := EstimateText (renderTask t).
Definition with_task_content (progress : RawMessage) (results : list TaskResultProjection) (t : TaskProjection) : TaskProjection :=
  mkTaskProjection (tk_TaskID t) (tk_Instruction t) (tk_State t) (tk_Revision t) (tk_NextWakeupAt t) (tk_DeadlineAt t) (tk_WakeReason t)
    (tk_WakeDueAt t) (tk_WakeID t) (tk_Reason t) progress (tk_Recovery t) results (tk_Contract t).
Definition without_refs (r : TaskResultProjection) : TaskResultProjection :=
  {| tp_ResultID := tp_ResultID r; tp_ResultTaskID := tp_ResultTaskID r; tp_ResultState := tp_ResultState r; tp_ResultReason := tp_ResultReason r;
     tp_OccurredAt := tp_OccurredAt r; tp_EvidenceRefs := [] |}.
(** What is dropped, in order: the note, the results after the first from the last on,
    the first one's references.  Each step says what it did to the report. *)
Definition task_crops (t : TaskProjection) : list (TaskProjection * (Z -> TaskContextReport)) :=
  let results := tk_RecentResults t in
  let noted := negb (tk_Progress t == "") in
  let n := length results in
  (if noted then [(with_task_content "" results t, fun e => mkTaskReport e true true 0 false)] else [])
  ++ ((fun k => (with_task_content "" (take (n - S k) results) t, fun e => mkTaskReport e true noted (Z.of_nat (S k)) false)) <$> seq 0 (n - 1))
  ++ match results with
     | r :: _ => match tp_EvidenceRefs r with
                 | [] => []
                 | _ => [(with_task_content "" [without_refs r] t, fun e => mkTaskReport e true noted (Z.of_nat (n - 1)) true)]
                 end
     | [] => []
     end.
Fixpoint first_crop (budget : Z) (t : TaskProjection) (report : TaskContextReport) (crops : list (TaskProjection * (Z -> TaskContextReport))) :
    TaskProjection * TaskContextReport * option context_error :=
  match crops with
  | [] => (t, report, Some (ErrBudgetExceeded "task context required fields exceed token budget"))
  | (t', report_of) :: crops =>
    let e := estimateTaskProjection (Some t') in
    if (e <=? budget)%Z then (t', report_of e, None) else first_crop budget t' (report_of e) crops
  end.
Definition boundTaskContext (t : TaskProjection) (budget : Z) : TaskProjection * TaskContextReport * option context_error :=
  let budget := positiveOrDefault budget defaultMaxTaskContextTokens in
  let e := estimateTaskProjection (Some t) in
  if (e <=? budget)%Z then (t, mkTaskReport e false false 0 false, None)
  else first_crop budget t (mkTaskReport e true false 0 false) (task_crops t).
