(* ===== verification/Budgets.v ===== *)
(** * The budgets of a projection: [context.go]

    Definitions filled up to their budget, the budgets of single sections, and the loop
    that drops optional content, in a fixed order, until the request fits; with the
    report of what was dropped.  [ToolAdmission] is not part of the report here: the
    caller adds it. *)

From S2P Require Export Cropping.

Local Open Scope go_scope.
Local Open Scope string_scope.

(** ** The report *)
Record HistoryReport := mkHistoryReport {
  hr_RetainedSources : Z; hr_DroppedSources : Z; hr_SummaryIncluded : bool; hr_EstimatedTokens : Z; hr_Diagnostics : list string
}.
Record ExperiencesReport := mkExperiencesReport {
  xr_RetainedCount : Z; xr_DroppedCount : Z; xr_EstimatedTokens : Z; xr_Diagnostics : list string
}.
Record RetrievedHistoryReport := mkRetrievedReport {
  rr_RetainedSnippets : Z; rr_RetainedMatches : Z; rr_DroppedMatches : Z; rr_EstimatedTokens : Z; rr_Diagnostics : list string
}.
Record KnowledgeReport := {
  kn_Status : string; kn_ContentHash : string; kn_SourceVersion : string; kn_EntryIDs : list string; kn_DroppedCount : Z;
  kn_EstimatedTokens : Z; kn_Diagnostic : string
}.
Record SectionReport := { sr_Name : string; sr_Included : bool; sr_ProjectionEstimatedTokens : Z; sr_Cropped : bool; sr_Reason : string }.
Record ContextBuildReport := mkReport {
  rp_EffectiveBudget : BudgetConfig; rp_Sections : list SectionReport; rp_GameDefinitionFallback : bool; rp_AgentDefinitionFallback : bool;
  rp_RecentMemory : RetentionReport; rp_History : HistoryReport; rp_RecentExperiences : ExperiencesReport;
  rp_RetrievedHistory : RetrievedHistoryReport; rp_Knowledge : KnowledgeReport; rp_Transcript : RetentionReport;
  rp_Task : TaskContextReport; rp_FinalRequestSize : RequestTokenSummary; rp_ReasonCodes : list string
}.
(** *** Field assignments *)
Definition rep_sections (x : list SectionReport) (r : ContextBuildReport) : ContextBuildReport :=
  mkReport (rp_EffectiveBudget r) x (rp_GameDefinitionFallback r) (rp_AgentDefinitionFallback r) (rp_RecentMemory r)
    (rp_History r) (rp_RecentExperiences r) (rp_RetrievedHistory r) (rp_Knowledge r) (rp_Transcript r) (rp_Task r)
    (rp_FinalRequestSize r) (rp_ReasonCodes r).
Definition rep_memory (x : RetentionReport) (r : ContextBuildReport) : ContextBuildReport :=
  mkReport (rp_EffectiveBudget r) (rp_Sections r) (rp_GameDefinitionFallback r) (rp_AgentDefinitionFallback r) x
    (rp_History r) (rp_RecentExperiences r) (rp_RetrievedHistory r) (rp_Knowledge r) (rp_Transcript r) (rp_Task r)
    (rp_FinalRequestSize r) (rp_ReasonCodes r).
Definition rep_history (x : HistoryReport) (r : ContextBuildReport) : ContextBuildReport :=
  mkReport (rp_EffectiveBudget r) (rp_Sections r) (rp_GameDefinitionFallback r) (rp_AgentDefinitionFallback r)
    (rp_RecentMemory r) x (rp_RecentExperiences r) (rp_RetrievedHistory r) (rp_Knowledge r) (rp_Transcript r)
    (rp_Task r) (rp_FinalRequestSize r) (rp_ReasonCodes r).
Definition rep_experiences (x : ExperiencesReport) (r : ContextBuildReport) : ContextBuildReport :=
  mkReport (rp_EffectiveBudget r) (rp_Sections r) (rp_GameDefinitionFallback r) (rp_AgentDefinitionFallback r)
    (rp_RecentMemory r) (rp_History r) x (rp_RetrievedHistory r) (rp_Knowledge r) (rp_Transcript r) (rp_Task r)
    (rp_FinalRequestSize r) (rp_ReasonCodes r).
Definition rep_retrieved (x : RetrievedHistoryReport) (r : ContextBuildReport) : ContextBuildReport :=
  mkReport (rp_EffectiveBudget r) (rp_Sections r) (rp_GameDefinitionFallback r) (rp_AgentDefinitionFallback r)
    (rp_RecentMemory r) (rp_History r) (rp_RecentExperiences r) x (rp_Knowledge r) (rp_Transcript r) (rp_Task r)
    (rp_FinalRequestSize r) (rp_ReasonCodes r).
Definition rep_knowledge (x : KnowledgeReport) (r : ContextBuildReport) : ContextBuildReport :=
  mkReport (rp_EffectiveBudget r) (rp_Sections r) (rp_GameDefinitionFallback r) (rp_AgentDefinitionFallback r)
    (rp_RecentMemory r) (rp_History r) (rp_RecentExperiences r) (rp_RetrievedHistory r) x (rp_Transcript r)
    (rp_Task r) (rp_FinalRequestSize r) (rp_ReasonCodes r).
Definition rep_transcript (x : RetentionReport) (r : ContextBuildReport) : ContextBuildReport :=
  mkReport (rp_EffectiveBudget r) (rp_Sections r) (rp_GameDefinitionFallback r) (rp_AgentDefinitionFallback r)
    (rp_RecentMemory r) (rp_History r) (rp_RecentExperiences r) (rp_RetrievedHistory r) (rp_Knowledge r) x (rp_Task r)
    (rp_FinalRequestSize r) (rp_ReasonCodes r).
Definition rep_task (x : TaskContextReport) (r : ContextBuildReport) : ContextBuildReport :=
  mkReport (rp_EffectiveBudget r) (rp_Sections r) (rp_GameDefinitionFallback r) (rp_AgentDefinitionFallback r)
    (rp_RecentMemory r) (rp_History r) (rp_RecentExperiences r) (rp_RetrievedHistory r) (rp_Knowledge r)
    (rp_Transcript r) x (rp_FinalRequestSize r) (rp_ReasonCodes r).
Definition WithFinalRequestSize (x : RequestTokenSummary) (r : ContextBuildReport) : ContextBuildReport :=
  mkReport (rp_EffectiveBudget r) (rp_Sections r) (rp_GameDefinitionFallback r) (rp_AgentDefinitionFallback r)
    (rp_RecentMemory r) (rp_History r) (rp_RecentExperiences r) (rp_RetrievedHistory r) (rp_Knowledge r)
    (rp_Transcript r) (rp_Task r) x (rp_ReasonCodes r).
Definition rep_reasons (x : list string) (r : ContextBuildReport) : ContextBuildReport :=
  mkReport (rp_EffectiveBudget r) (rp_Sections r) (rp_GameDefinitionFallback r) (rp_AgentDefinitionFallback r)
    (rp_RecentMemory r) (rp_History r) (rp_RecentExperiences r) (rp_RetrievedHistory r) (rp_Knowledge r)
    (rp_Transcript r) (rp_Task r) (rp_FinalRequestSize r) x.
Definition appendUnique (values : list string) (value : string) : list string :=
  if existsb (fun v => v == value) values then values else values ++ [value].
Definition addReason (reason : string) (r : ContextBuildReport) : ContextBuildReport :=
  if reason == "" then r else rep_reasons (appendUnique (rp_ReasonCodes r) reason) r.

Definition ReasonDefinitionFallback := "definition_fallback".
Definition ReasonMemoryBudgetExceeded := "memory_budget_exceeded".
Definition ReasonTranscriptBudgetExceeded := "transcript_budget_exceeded".
Definition ReasonEventBudgetExceeded := "current_event_budget_exceeded".
Definition ReasonObservationBudgetExceeded := "current_observation_budget_exceeded".
Definition ReasonContextFactsBudgetExceeded := "context_facts_budget_exceeded".
Definition ReasonTaskContextBudgetExceeded := "task_context_budget_exceeded".
Definition ReasonRequiredContextOverBudget := "required_context_over_budget".
Definition ReasonRequiredSectionOverBudget := "required_section_over_budget".
Definition ReasonDefinitionBudgetExceeded := "definition_budget_exceeded".
Definition ReasonHistoryBudgetExceeded := "history_budget_exceeded".
Definition ReasonRetrievedHistoryBudgetExceeded := "retrieval_budget_exceeded".
Definition ReasonRecentExperiences := "recent_experiences_budget_exceeded".
Definition ReasonPreferences := "player_preferences_budget_exceeded".

Definition estimateHistoryProjection (p : HistoryProjection) : Z := EstimateText (RenderHistoryProjection p).
Definition EstimateRecentExperiences (l : list ExperienceUnit) : Z := EstimateText (RenderRecentExperiences l).
Definition estimateRetrievedHistoryProjection (l : list RetrievedHistorySnippet) : Z := EstimateText (RenderRetrievedHistoryProjection l).
(** [sectionProjectionEstimatedTokens] of an optional Go pointer. *)
Definition pointer_tokens {A} (marshal : A -> string) (x : option A) : Z := EstimateText (enc_opt marshal x).
Definition nonempty {A} (l : list A) : bool := match l with [] => false | _ => true end.
Definition sectionReportsForProjection (p : ContextProjection) : list SectionReport :=
  let section name included tokens := {| sr_Name := name; sr_Included := included; sr_ProjectionEstimatedTokens := tokens; sr_Cropped := false; sr_Reason := "" |} in
  let has_history := negb (no_history (pj_History p)) in
  [section "player_preferences" (pj_PlayerPreferences p != no_preferences) (EstimateText (marshalPreferences (pj_PlayerPreferences p)));
   section "runtime_policy" (pj_RuntimePolicy p != "") (EstimateText (enc_string (pj_RuntimePolicy p)));
   section "instruction" (renderAuthorityInstruction p != "") (EstimateText (enc_string (renderAuthorityInstruction p)));
   section "agent_descriptor" true (EstimateText (marshalDescriptor (pj_AgentDescriptor p)));
   section "game_definition" (bool_decide (is_Some (pj_GameDefinition p))) (pointer_tokens marshalGame (pj_GameDefinition p));
   section "agent_definition" (bool_decide (is_Some (pj_AgentDefinition p))) (pointer_tokens marshalAgent (pj_AgentDefinition p));
   section "current_event" (pe_EventID (pj_CurrentEvent p) != "") (EstimateText (marshalEvent (pj_CurrentEvent p)));
   section "current_event_context_facts" (nonempty (pj_Facts p)) (EstimateText (marshalFacts (pj_Facts p)));
   section "current_observation" (po_EntityID (pj_CurrentObservation p) != "") (EstimateText (marshalObservation (pj_CurrentObservation p)));
   section "task_context" (nonempty (option_list (pj_Task p))) (estimateTaskProjection (pj_Task p));
   section "recent_memory" (nonempty (pj_RecentMemory p)) (EstimateText (marshalMemories (pj_RecentMemory p)));
   section "recent_experiences" (nonempty (pj_RecentExperiences p)) (EstimateRecentExperiences (pj_RecentExperiences p));
   section "tools" (nonempty (pj_Tools p)) (EstimateText (marshalTools (pj_Tools p)));
   section "current_turn_transcript" (nonempty (pj_Transcript p)) (messages_tokens (pj_Transcript p))]
  ++ (if pj_historyEnabled p || has_history then [section "history" has_history (estimateHistoryProjection (pj_History p))] else [])
  ++ (if pj_retrievalEnabled p || nonempty (pj_RetrievedHistory p)
      then [section "retrieved_history" (nonempty (pj_RetrievedHistory p)) (estimateRetrievedHistoryProjection (pj_RetrievedHistory p))] else []).
Definition markCroppedSections (cropped : gmap string string) (sections : list SectionReport) : list SectionReport :=
  (fun s => match cropped !! sr_Name s with
            | Some reason => {| sr_Name := sr_Name s; sr_Included := sr_Included s; sr_ProjectionEstimatedTokens := sr_ProjectionEstimatedTokens s;
                                sr_Cropped := true; sr_Reason := reason |}
            | None => s
            end) <$> sections.

(** ** Definitions *)
Definition minimalAgentDefinition (a : AgentDefinition) : AgentDefinition :=
  {| ad_SchemaVersion := ad_SchemaVersion a; ad_GameID := ad_GameID a; ad_DefinitionID := ad_DefinitionID a; ad_Identity := "";
     ad_Personality := []; ad_SpeechStyle := []; ad_Preferences := []; ad_BehaviorGuidelines := []; ad_SourceVersion := "" |}.
Definition minimalGameDefinition (g : GameDefinition) : GameDefinition :=
  {| gd_SchemaVersion := gd_SchemaVersion g; gd_GameID := gd_GameID g; gd_Title := ""; gd_Summary := ""; gd_WorldRules := []; gd_Lore := [];
     gd_NarrativeConstraints := []; gd_SourceVersion := "" |}.
Definition definitionBudgetEstimatedTokens (agent : option AgentDefinition) (game : option GameDefinition) : Z :=
  (match agent with Some a => EstimateText (marshalAgent a) | None => 0 end + match game with Some g => EstimateText (marshalGame g) | None => 0 end)%Z.
Definition agent_parts (identity : string) (personality style preferences guidelines : list string) (version : string) (a : AgentDefinition) :
    AgentDefinition :=
  {| ad_SchemaVersion := ad_SchemaVersion a; ad_GameID := ad_GameID a; ad_DefinitionID := ad_DefinitionID a; ad_Identity := identity;
     ad_Personality := personality; ad_SpeechStyle := style; ad_Preferences := preferences; ad_BehaviorGuidelines := guidelines;
     ad_SourceVersion := version |}.
Definition game_parts (title summary : string) (rules lore constraints : list string) (version : string) (g : GameDefinition) : GameDefinition :=
  {| gd_SchemaVersion := gd_SchemaVersion g; gd_GameID := gd_GameID g; gd_Title := title; gd_Summary := summary; gd_WorldRules := rules;
     gd_Lore := lore; gd_NarrativeConstraints := constraints; gd_SourceVersion := version |}.
(** The candidates in the order the code tries them, each with one part more than the
    one before. *)
Definition text_updates {D} (text : string) (put : string -> D -> D) : list (D -> D) := if text == "" then [] else [put text].
Definition item_updates {D} (items : list string) (put : string -> D -> D) : list (D -> D) := put <$> items.
Definition put_identity (x : string) (a : AgentDefinition) : AgentDefinition :=
  agent_parts x (ad_Personality a) (ad_SpeechStyle a) (ad_Preferences a) (ad_BehaviorGuidelines a) (ad_SourceVersion a) a.
Definition put_personality (x : string) (a : AgentDefinition) : AgentDefinition :=
  agent_parts (ad_Identity a) (ad_Personality a ++ [x]) (ad_SpeechStyle a) (ad_Preferences a) (ad_BehaviorGuidelines a) (ad_SourceVersion a) a.
Definition put_style (x : string) (a : AgentDefinition) : AgentDefinition :=
  agent_parts (ad_Identity a) (ad_Personality a) (ad_SpeechStyle a ++ [x]) (ad_Preferences a) (ad_BehaviorGuidelines a) (ad_SourceVersion a) a.
Definition put_preference (x : string) (a : AgentDefinition) : AgentDefinition :=
  agent_parts (ad_Identity a) (ad_Personality a) (ad_SpeechStyle a) (ad_Preferences a ++ [x]) (ad_BehaviorGuidelines a) (ad_SourceVersion a) a.
Definition put_guideline (x : string) (a : AgentDefinition) : AgentDefinition :=
  agent_parts (ad_Identity a) (ad_Personality a) (ad_SpeechStyle a) (ad_Preferences a) (ad_BehaviorGuidelines a ++ [x]) (ad_SourceVersion a) a.
Definition put_agent_source (x : string) (a : AgentDefinition) : AgentDefinition :=
  agent_parts (ad_Identity a) (ad_Personality a) (ad_SpeechStyle a) (ad_Preferences a) (ad_BehaviorGuidelines a) x a.
Definition put_title (x : string) (g : GameDefinition) : GameDefinition :=
  game_parts x (gd_Summary g) (gd_WorldRules g) (gd_Lore g) (gd_NarrativeConstraints g) (gd_SourceVersion g) g.
Definition put_summary (x : string) (g : GameDefinition) : GameDefinition :=
  game_parts (gd_Title g) x (gd_WorldRules g) (gd_Lore g) (gd_NarrativeConstraints g) (gd_SourceVersion g) g.
Definition put_rule (x : string) (g : GameDefinition) : GameDefinition :=
  game_parts (gd_Title g) (gd_Summary g) (gd_WorldRules g ++ [x]) (gd_Lore g) (gd_NarrativeConstraints g) (gd_SourceVersion g) g.
Definition put_lore (x : string) (g : GameDefinition) : GameDefinition :=
  game_parts (gd_Title g) (gd_Summary g) (gd_WorldRules g) (gd_Lore g ++ [x]) (gd_NarrativeConstraints g) (gd_SourceVersion g) g.
Definition put_constraint (x : string) (g : GameDefinition) : GameDefinition :=
  game_parts (gd_Title g) (gd_Summary g) (gd_WorldRules g) (gd_Lore g) (gd_NarrativeConstraints g ++ [x]) (gd_SourceVersion g) g.
Definition put_game_source (x : string) (g : GameDefinition) : GameDefinition :=
  game_parts (gd_Title g) (gd_Summary g) (gd_WorldRules g) (gd_Lore g) (gd_NarrativeConstraints g) x g.
Definition agent_updates (s : AgentDefinition) : list (AgentDefinition -> AgentDefinition) :=
  text_updates (ad_Identity s) put_identity ++ item_updates (ad_Personality s) put_personality ++ item_updates (ad_SpeechStyle s) put_style
  ++ item_updates (ad_Preferences s) put_preference ++ item_updates (ad_BehaviorGuidelines s) put_guideline ++ text_updates (ad_SourceVersion s) put_agent_source.
Definition game_updates (s : GameDefinition) : list (GameDefinition -> GameDefinition) :=
  text_updates (gd_Title s) put_title ++ text_updates (gd_Summary s) put_summary ++ item_updates (gd_WorldRules s) put_rule
  ++ item_updates (gd_Lore s) put_lore ++ item_updates (gd_NarrativeConstraints s) put_constraint ++ text_updates (gd_SourceVersion s) put_game_source.
(** [tryUpdate...] for one candidate after the other, up to the first that does not fit. *)
Fixpoint fill_within {D} (limit : Z) (cost : D -> Z) (updates : list (D -> D)) (d : D) : D :=
  match updates with
  | [] => d
  | u :: updates => let candidate := u d in if (limit <? cost candidate)%Z then d else fill_within limit cost updates candidate
  end.
Definition changed {A} `{EqDecision A} (source result : option A) : bool := bool_decide (is_Some source) && (source != result).
(** The definitions, which of them is cropped, and the error. *)
Definition applyDefinitionBudget (agent : option AgentDefinition) (game : option GameDefinition) (limit : Z) :
    option AgentDefinition * option GameDefinition * (bool * bool) * option context_error :=
  if (limit <=? 0)%Z || ((agent == None) && (game == None)) then (agent, game, (false, false), None) else
  let a := minimalAgentDefinition <$> agent in
  let g := minimalGameDefinition <$> game in
  if (limit <? definitionBudgetEstimatedTokens a g)%Z
  then (a, g, (changed agent a, changed game g), Some (ErrBudgetExceeded "definition required minimum exceeds token budget")) else
  let a := match agent with
           | Some source => Some (fill_within limit (fun c => definitionBudgetEstimatedTokens (Some c) g) (agent_updates source) (minimalAgentDefinition source))
           | None => None
           end in
  let g := match game with
           | Some source => Some (fill_within limit (fun c => definitionBudgetEstimatedTokens a (Some c)) (game_updates source) (minimalGameDefinition source))
           | None => None
           end in
  (a, g, (changed agent a, changed game g), None).

(** ** Dropping optional content

    [b_cropped]: the reason a section was cropped for. *)
Record building := mkBuilding { b_projection : ContextProjection; b_report : ContextBuildReport; b_cropped : gmap string string }.
Definition on_projection (f : ContextProjection -> ContextProjection) (b : building) : building :=
  mkBuilding (f (b_projection b)) (b_report b) (b_cropped b).
Definition on_report (f : ContextBuildReport -> ContextBuildReport) (b : building) : building :=
  mkBuilding (b_projection b) (f (b_report b)) (b_cropped b).
Definition note (reason : string) : building -> building := on_report (addReason reason).
Definition crop (section reason : string) (b : building) : building :=
  mkBuilding (b_projection b) (b_report b) (<[section := reason]> (b_cropped b)).
Definition cropped (section reason : string) (b : building) : building := crop section reason (note reason b).

Definition dropPreferences (b : building) : option building :=
  if pj_PlayerPreferences (b_projection b) != no_preferences
  then Some (note ReasonPreferences (on_projection (set_preferences no_preferences) b)) else None.
Definition dropRetrievedHistoryDisplay (b : building) : option building :=
  match pj_RetrievedHistory (b_projection b) with
  | [] => None
  | _ =>
    let r := rp_RetrievedHistory (b_report b) in
    let r := mkRetrievedReport 0 0 (rr_DroppedMatches r + rr_RetainedMatches r) 0
               (appendUnique (List.filter (fun d => d != "retrieval_included") (rr_Diagnostics r)) ReasonRetrievedHistoryBudgetExceeded) in
    Some (cropped "retrieved_history" ReasonRetrievedHistoryBudgetExceeded
            (on_report (rep_retrieved r) (on_projection (fun p => set_retrieval_enabled true (set_retrieved [] p)) b)))
  end.
Definition hr_diagnose (d : string) (r : HistoryReport) : HistoryReport :=
  mkHistoryReport (hr_RetainedSources r) (hr_DroppedSources r) (hr_SummaryIncluded r) (hr_EstimatedTokens r) (appendUnique (hr_Diagnostics r) d).
Definition hr_refresh (p : HistoryProjection) (total : Z) (r : HistoryReport) : HistoryReport :=
  let retained := Z.of_nat (length (hp_Sources p)) in
  mkHistoryReport retained (total - retained) (hp_SummaryText p != "") (estimateHistoryProjection p) (hr_Diagnostics r).
Definition dropOldestHistoryDisplay (b : building) : option building :=
  let h := pj_History (b_projection b) in
  let r := rp_History (b_report b) in
  let total := (hr_RetainedSources r + hr_DroppedSources r)%Z in
  let dropped h := Some (cropped "history" ReasonHistoryBudgetExceeded
    (on_report (fun rep => rep_history (hr_refresh h total (hr_diagnose ReasonHistoryBudgetExceeded (rp_History rep))) rep) (on_projection (set_history h) b))) in
  match hp_Sources h with
  | _ :: sources => dropped {| hp_SummaryID := hp_SummaryID h; hp_SummaryText := hp_SummaryText h; hp_Sources := sources |}
  | [] => if hp_SummaryText h != "" then dropped {| hp_SummaryID := ""; hp_SummaryText := ""; hp_Sources := [] |} else None
  end.
Definition dropExperience (b : building) : option building :=
  match pj_RecentExperiences (b_projection b) with
  | [] => None
  | l =>
    let l := take (length l - 1) l in
    let r := rp_RecentExperiences (b_report b) in
    let r := mkExperiencesReport (Z.of_nat (length l)) (xr_DroppedCount r + 1) (EstimateRecentExperiences l)
               (appendUnique (xr_Diagnostics r) ReasonRecentExperiences) in
    Some (cropped "recent_experiences" ReasonRecentExperiences (on_report (rep_experiences r) (on_projection (set_experiences l) b)))
  end.
Definition dropOldestTranscriptGroup (b : building) : option building :=
  match pj_Transcript (b_projection b) with
  | [] => None
  | transcript =>
    match transcriptCausalGroups transcript with
    | Ok ((g :: _ :: _) as groups) =>
      let retained := concat (drop 1 groups) in
      let r := {| rt_RetainedCount := Z.of_nat (length retained);
                  rt_DroppedCount := rt_DroppedCount (rp_Transcript (b_report b)) + Z.of_nat (length g) |} in
      Some (cropped "current_turn_transcript" ReasonTranscriptBudgetExceeded
              (on_report (rep_transcript r) (on_projection (set_transcript retained) b)))
    | _ => None
    end
  end.
Definition dropOldestRecentMemory (b : building) : option building :=
  match pj_RecentMemory (b_projection b) with
  | [] => None
  | _ :: l =>
    let r := {| rt_RetainedCount := Z.of_nat (length l); rt_DroppedCount := rt_DroppedCount (rp_RecentMemory (b_report b)) + 1 |} in
    Some (cropped "recent_memory" ReasonMemoryBudgetExceeded (on_report (rep_memory r) (on_projection (set_memory l) b)))
  end.
Definition truncatedMarker : string := "_truncated".
Definition fact_with (text : string) (attributes : any_map) (f : ContextFactProjection) : ContextFactProjection :=
  {| fp_Kind := fp_Kind f; fp_ActorEntityID := fp_ActorEntityID f; fp_TargetEntityID := fp_TargetEntityID f; fp_ScopeID := fp_ScopeID f;
     fp_Text := text; fp_Label := fp_Label f; fp_Attributes := attributes |}.
Definition has_text (f : ContextFactProjection) : bool := (fp_Text f != "") && (fp_Text f != truncatedMarker).
(** [dropContextFactOptionalFields]: the attributes of all facts; when none has any, their
    texts. *)
Definition droppedFacts (l : list ContextFactProjection) : option (list ContextFactProjection) :=
  if existsb (fun f => nonempty (fp_Attributes f)) l then Some ((fun f => fact_with (fp_Text f) [] f) <$> l)
  else if existsb has_text l then Some ((fun f => if has_text f then fact_with truncatedMarker (fp_Attributes f) f else f) <$> l)
  else None.
Definition dropContextFactOptionalFields (b : building) : option building :=
  (fun l => cropped "current_event_context_facts" ReasonContextFactsBudgetExceeded (on_projection (set_facts l) b))
    <$> droppedFacts (pj_Facts (b_projection b)).
Definition event_payload (payload : any_map) (e : EventProjection) : EventProjection :=
  {| pe_EventID := pe_EventID e; pe_EventType := pe_EventType e; pe_WorldID := pe_WorldID e; pe_TargetEntityID := pe_TargetEntityID e;
     pe_Sequence := pe_Sequence e; pe_GameTime := pe_GameTime e; pe_CanonicalTarget := pe_CanonicalTarget e; pe_Payload := payload |}.
Definition dropEventPayload (b : building) : option building :=
  let e := pj_CurrentEvent (b_projection b) in
  match pe_Payload e with
  | [] => None
  | _ => Some (cropped "current_event" ReasonEventBudgetExceeded (on_projection (set_event (event_payload [] e)) b))
  end.
Definition observation_state (state : any_map) (o : ObservationProjection) : ObservationProjection :=
  {| po_WorldID := po_WorldID o; po_EntityID := po_EntityID o; po_Revision := po_Revision o; po_GameTime := po_GameTime o;
     po_NearbyEntities := []; po_Extensions := []; po_State := state |}.
Definition dropObservationOptionalFields (b : building) : option building :=
  let o := pj_CurrentObservation (b_projection b) in
  if nonempty (po_NearbyEntities o) || nonempty (po_Extensions o) || nonempty (po_State o)
  then Some (cropped "current_observation" ReasonObservationBudgetExceeded (on_projection (set_observation (observation_state [] o)) b)) else None.
Definition dropGameDefinitionOptionalFields (b : building) : option building :=
  let g := pj_GameDefinition (b_projection b) in
  let minimal := minimalGameDefinition <$> g in
  if g == minimal then None
  else Some (cropped "game_definition" ReasonDefinitionBudgetExceeded (on_projection (set_game minimal) b)).
Definition dropAgentDefinitionOptionalFields (b : building) : option building :=
  let a := pj_AgentDefinition (b_projection b) in
  let minimal := minimalAgentDefinition <$> a in
  if a == minimal then None
  else Some (cropped "agent_definition" ReasonDefinitionBudgetExceeded (on_projection (set_agent minimal) b)).
(** The [switch] of the loop. *)
Definition drops : list (building -> option building) :=
  [dropPreferences; dropRetrievedHistoryDisplay; dropOldestHistoryDisplay; dropExperience; dropOldestTranscriptGroup; dropOldestRecentMemory;
   dropContextFactOptionalFields; dropEventPayload; dropObservationOptionalFields; dropGameDefinitionOptionalFields;
   dropAgentDefinitionOptionalFields].
Fixpoint first_drop (l : list (building -> option building)) (b : building) : option building :=
  match l with [] => None | d :: l => match d b with Some b' => Some b' | None => first_drop l b end end.
Definition drop_next : building -> option building := first_drop drops.

(** ** The request's budget: [enforceGlobalRequestBudget]

    Every round drops something, so the measure below is fuel enough
    ([Fitting.enforce_ends]); [None] is the fuel running out. *)
Definition boolZ (b : bool) : nat := if b then 1 else 0.
Definition group_count (l : list model_Message) : nat := match transcriptCausalGroups l with Ok groups => length groups | Err _ => 0 end.
Definition droppable (p : ContextProjection) : nat :=
  boolZ (pj_PlayerPreferences p != no_preferences) + boolZ (nonempty (pj_RetrievedHistory p))
  + (length (hp_Sources (pj_History p)) + boolZ (hp_SummaryText (pj_History p) != "")) + length (pj_RecentExperiences p)
  + group_count (pj_Transcript p) + length (pj_RecentMemory p)
  + (boolZ (existsb (fun f => nonempty (fp_Attributes f)) (pj_Facts p)) + boolZ (existsb has_text (pj_Facts p)))
  + boolZ (nonempty (pe_Payload (pj_CurrentEvent p)))
  + boolZ (nonempty (po_NearbyEntities (pj_CurrentObservation p)) || nonempty (po_Extensions (pj_CurrentObservation p))
           || nonempty (po_State (pj_CurrentObservation p)))
  + boolZ (pj_GameDefinition p != (minimalGameDefinition <$> pj_GameDefinition p))
  + boolZ (pj_AgentDefinition p != (minimalAgentDefinition <$> pj_AgentDefinition p)).
Definition RequestTokenBudgetError (size : RequestTokenSummary) (budget : BudgetConfig) : context_error :=
  ErrBudgetExceeded ("final model request exceeds token budget (total=" +:+ enc_int (sz_Total size) +:+ " max_request=" +:+ enc_int (MaxRequestTokens budget)
    +:+ " system=" +:+ enc_int (sz_System size) +:+ " max_system=" +:+ enc_int (MaxSystemTokens budget)
    +:+ " user=" +:+ enc_int (sz_UserMessage size) +:+ " max_user=" +:+ enc_int (MaxUserMessageTokens budget) +:+ ")").
(** [default:] of the switch. *)
Definition over_budget (size : RequestTokenSummary) (budget : BudgetConfig) (b : building) : building * option context_error :=
  let b := on_report (WithFinalRequestSize size) (note ReasonRequiredContextOverBudget b) in
  (if RequiredRequestSectionExceedsBudget size budget then note ReasonRequiredSectionOverBudget b else b,
   Some (RequestTokenBudgetError size budget)).
Fixpoint enforce_loop (fuel : nat) (budget : BudgetConfig) (b : building) : option (building * option context_error) :=
  match projectionFitsRequestBudget (b_projection b) budget with
  | None => Some (b, Some ErrToolSchema)
  | Some true => Some (b, None)
  | Some false =>
    match drop_next b with
    | Some b => match fuel with S fuel => enforce_loop fuel budget b | O => None end
    | None => match measureProjectionRequest (b_projection b) with
              | None => Some (b, Some ErrToolSchema)
              | Some size => Some (over_budget size budget b)
              end
    end
  end.
Definition enforceGlobalRequestBudget (budget : BudgetConfig) (b : building) : option (building * option context_error) :=
  enforce_loop (droppable (b_projection b)) budget b.

(** ** The budgets of sections *)
Definition truncationMap (message : string) : any_map := [("_truncated", JString message)].
Definition event_tokens (p : ContextProjection) : Z := EstimateText (marshalEvent (pj_CurrentEvent p)).
Definition observation_tokens (p : ContextProjection) : Z := EstimateText (marshalObservation (pj_CurrentObservation p)).
Definition facts_tokens (p : ContextProjection) : Z := EstimateText (marshalFacts (pj_Facts p)).
Definition bound_event (budget : BudgetConfig) (b : building) : building :=
  let p := b_projection b in
  if over (MaxEventTokens budget) (event_tokens p)
  then cropped "current_event" ReasonEventBudgetExceeded
         (on_projection (set_event (event_payload (truncationMap "current event payload exceeded token limit") (pj_CurrentEvent p))) b) else b.
Definition bound_observation (budget : BudgetConfig) (b : building) : building :=
  let o := pj_CurrentObservation (b_projection b) in
  if over (MaxObservationTokens budget) (observation_tokens (b_projection b))
  then let state := if nonempty (po_State o) then truncationMap "current observation state exceeded token limit" else po_State o in
       cropped "current_observation" ReasonObservationBudgetExceeded (on_projection (set_observation (observation_state state o)) b) else b.
Definition or_same (f : building -> option building) (b : building) : building := default b (f b).
Definition bound_facts (budget : BudgetConfig) (b : building) : building :=
  if over (MaxContextFactsTokens budget) (facts_tokens (b_projection b))
  then cropped "current_event_context_facts" ReasonContextFactsBudgetExceeded (or_same dropContextFactOptionalFields b) else b.
Definition firstError (existing candidate : option context_error) : option context_error :=
  match existing with Some e => Some e | None => candidate end.
Definition bound_task (budget : BudgetConfig) (s : building * option context_error) : building * option context_error :=
  let '(b, err) := s in
  match pj_Task (b_projection b) with
  | None => s
  | Some t =>
    let '(t, report, taskErr) := boundTaskContext t (MaxTaskContextTokens budget) in
    let b := on_report (rep_task report) (on_projection (set_task (Some t)) b) in
    let b := if kt_Cropped report then cropped "task_context" ReasonTaskContextBudgetExceeded b else b in
    match taskErr with
    | None => (b, err)
    | Some e => (crop "task_context" ReasonTaskContextBudgetExceeded
                   (note ReasonRequiredSectionOverBudget (note ReasonRequiredContextOverBudget (note ReasonTaskContextBudgetExceeded b))),
                 firstError err (Some e))
    end
  end.
(** One section of [enforceRequiredSectionBudgets]. *)
Definition require_section (limit : Z) (tokens : ContextProjection -> Z) (f : building -> option building) (section reason message : string)
    (s : building * option context_error) : building * option context_error :=
  let '(b, err) := s in
  if ! over limit (tokens (b_projection b)) then s else
  let b := or_same f b in
  if over limit (tokens (b_projection b))
  then (crop section reason (note ReasonRequiredSectionOverBudget (note ReasonRequiredContextOverBudget (note reason b))),
        firstError err (Some (ErrBudgetExceeded message)))
  else (b, err).
Definition enforceRequiredSectionBudgets (budget : BudgetConfig) (b : building) : building * option context_error :=
  require_section (MaxContextFactsTokens budget) facts_tokens dropContextFactOptionalFields "current_event_context_facts"
    ReasonContextFactsBudgetExceeded "current event context facts required minimum exceeds token budget"
  (require_section (MaxObservationTokens budget) observation_tokens dropObservationOptionalFields "current_observation"
     ReasonObservationBudgetExceeded "current observation required minimum exceeds token budget"
  (require_section (MaxEventTokens budget) event_tokens dropEventPayload "current_event"
     ReasonEventBudgetExceeded "current event required shell exceeds token budget" (b, None))).

(** ** [applyProjectionBudgets] *)
Definition mark_if (b : bool) (section reason : string) (m : gmap string string) : gmap string string := if b then <[section := reason]> m else m.
(** What the projections of the sections have cropped already. *)
Definition already_cropped (r : ContextBuildReport) : gmap string string :=
  mark_if (0 <? rt_DroppedCount (rp_Transcript r))%Z "current_turn_transcript" ReasonTranscriptBudgetExceeded
  (mark_if (0 <? rt_DroppedCount (rp_RecentMemory r))%Z "recent_memory" ReasonMemoryBudgetExceeded
  (mark_if (existsb (fun d => d == ReasonHistoryBudgetExceeded) (hr_Diagnostics (rp_History r))) "history" ReasonHistoryBudgetExceeded
  (mark_if (0 <? xr_DroppedCount (rp_RecentExperiences r))%Z "recent_experiences" ReasonRecentExperiences ∅))).
Definition bound_definitions (budget : BudgetConfig) (b : building) : building * option context_error :=
  let '(agent, game, (agent_cropped, game_cropped), err) :=
    applyDefinitionBudget (pj_AgentDefinition (b_projection b)) (pj_GameDefinition (b_projection b)) (MaxDefinitionTokens budget) in
  let b := on_projection (fun p => set_agent agent (set_game game p)) b in
  let b := if agent_cropped then cropped "agent_definition" ReasonDefinitionBudgetExceeded b else b in
  let b := if game_cropped then cropped "game_definition" ReasonDefinitionBudgetExceeded b else b in
  match err with
  | None => (b, None)
  | Some e => (note ReasonRequiredContextOverBudget (note ReasonDefinitionBudgetExceeded b), Some e)
  end.
(** The sections, each in its own budget, before the request as a whole. *)
Definition bound_sections (budget : BudgetConfig) (b : building) : building * option context_error :=
  let '(b, err) := bound_definitions budget b in
  let b := bound_facts budget (bound_observation budget (bound_event budget b)) in
  let '(b, err) := bound_task budget (b, err) in
  let '(b, sectionErr) := enforceRequiredSectionBudgets budget b in
  (b, match sectionErr with Some e => Some e | None => err end).
Definition applyProjectionBudgets (p : ContextProjection) (budget : BudgetConfig) (report : ContextBuildReport) :
    option (ContextProjection * ContextBuildReport * option context_error) :=
  let report := if existsb (fun d => d == ReasonHistoryBudgetExceeded) (hr_Diagnostics (rp_History report))
                then addReason ReasonHistoryBudgetExceeded report else report in
  let '(b, err) := bound_sections budget (mkBuilding p report (already_cropped report)) in
  '(b, err) ← match err with None => enforceGlobalRequestBudget budget b | Some _ => Some (b, err) end;
  Some (b_projection b, rep_sections (markCroppedSections (b_cropped b) (sectionReportsForProjection (b_projection b))) (b_report b), err).

(** ** Background knowledge: [knowledge_projection.go] *)
Definition AutomaticLimit : nat := 3.
Definition AutomaticTokens : Z := 768.
Record RetrievedKnowledgeInput := {
  ki_Owner : AgentSessionKey; ki_DefinitionID : string; ki_ContentHash : string; ki_Result : knowledge_Result; ki_Diagnostic : string
}.
Definition with_entries (entries : list knowledge_Snippet) (truncated : bool) (r : knowledge_Result) : knowledge_Result :=
  {| kr_Status := kr_Status r; kr_SourceVersion := kr_SourceVersion r; kr_ContentHash := kr_ContentHash r; kr_Entries := entries; kr_Truncated := truncated |}.
(** The entries chosen so far; a request that cannot be measured ends with the candidate
    it was measured with. *)
Fixpoint choose_knowledge (budget : BudgetConfig) (p : ContextProjection) (result : knowledge_Result) (total : nat) (seen : gset string)
    (chosen entries : list knowledge_Snippet) : outcome knowledge_Result (list knowledge_Snippet) :=
  match entries with
  | [] => Ok chosen
  | e :: entries =>
    if bool_decide (ks_ID e ∈ seen) then choose_knowledge budget p result total seen chosen entries else
    let seen := {[ks_ID e]} ∪ seen in
    if (AutomaticLimit <=? length chosen)%nat then Ok chosen else
    let more := (chosen ++ [e])%list in
    let candidate := with_entries more (length more <? total)%nat result in
    match projectionFitsRequestBudget (set_knowledge candidate p) budget with
    | None => Err candidate
    | Some fits =>
      if (AutomaticTokens <? EstimateText (RenderRetrievedKnowledge candidate))%Z || ! fits
      then choose_knowledge budget p result total seen chosen entries
      else choose_knowledge budget p result total seen more entries
    end
  end.
Definition knowledge_report (input : RetrievedKnowledgeInput) (ids : list string) (dropped tokens : Z) (diagnostic : string) : KnowledgeReport :=
  let r := ki_Result input in
  {| kn_Status := kr_Status r; kn_ContentHash := kr_ContentHash r; kn_SourceVersion := kr_SourceVersion r; kn_EntryIDs := ids;
     kn_DroppedCount := dropped; kn_EstimatedTokens := tokens; kn_Diagnostic := diagnostic |}.
(** [failed]: the projection is already over its budgets. *)
Definition projectKnowledge (budget : BudgetConfig) (p : ContextProjection) (input : option RetrievedKnowledgeInput) (report : ContextBuildReport)
    (failed : bool) : ContextProjection * ContextBuildReport * option context_error :=
  match input with
  | None => (p, report, None)
  | Some input =>
    let r := ki_Result input in
    let entries := kr_Entries r in
    let total := length entries in
    let all := Z.of_nat total in
    let nothing diagnostic := rep_knowledge (knowledge_report input [] all 0 diagnostic) report in
    if (ki_Owner input != pj_SessionKey p) || (ki_DefinitionID input != de_DefinitionID (pj_AgentDescriptor p))
       || (ki_ContentHash input == "") || (ki_ContentHash input != kr_ContentHash r) then (p, nothing "knowledge_scope_mismatch", None) else
    if failed then (p, nothing "knowledge_budget_exceeded", None) else
    match choose_knowledge budget p r total ∅ [] entries with
    | Err candidate => (set_knowledge candidate p, nothing (ki_Diagnostic input), Some ErrToolSchema)
    | Ok [] => (set_knowledge no_knowledge p, nothing (if nonempty entries then "knowledge_budget_exceeded" else ki_Diagnostic input), None)
    | Ok chosen =>
      let selected := with_entries chosen (length chosen <? total)%nat r in
      let dropped := (all - Z.of_nat (length chosen))%Z in
      (set_knowledge selected p,
       rep_knowledge (knowledge_report input (ks_ID <$> chosen) dropped (EstimateText (RenderRetrievedKnowledge selected))
                        (if (0 <? dropped)%Z then "knowledge_budget_exceeded" else ki_Diagnostic input)) report, None)
    end
  end.
