(* ===== verification/Fitting.v ===== *)
(** * What the budgets guarantee

    The loop ends; what it leaves fits; it drops in its order and nothing it need not;
    what it may not drop stays. *)

From S2P Require Export Budgets.

Local Open Scope go_scope.

(** ** Causal groups *)
Inductive causal_group : list model_Message -> Prop :=
| causal_message m : mm_ToolCalls m = [] -> mm_ToolResults m = [] -> causal_group [m]
| causal_round m r : mm_ToolCalls r = [] -> mm_ToolResults r <> [] -> toolResultsMatchCalls (mm_ToolCalls m) (mm_ToolResults r) = true ->
    causal_group [m; r].
Lemma match_has_calls calls results : toolResultsMatchCalls calls results = true -> calls <> [].
Proof. by destruct calls. Qed.
Lemma groups_app g gs : causal_group g -> transcriptCausalGroups (g ++ concat gs) =
  (groups ← transcriptCausalGroups (concat gs); Ok (g :: groups)).
Proof.
  intros [m Hc Hr|m r Hc Hr Hm]; cbn [app transcriptCausalGroups].
  - by rewrite Hc, Hr.
  - pose proof (match_has_calls _ _ Hm) as Hne. destruct (mm_ToolCalls m) as [|c calls]; [done|].
    rewrite Hc. destruct (mm_ToolResults r); [done|]. by rewrite Hm.
Qed.
Lemma groups_of_concat gs : Forall causal_group gs -> transcriptCausalGroups (concat gs) = Ok gs.
Proof. induction 1 as [|g gs Hg _ IH]; [done|]. cbn [concat]. by rewrite groups_app, IH. Qed.
Lemma groups_sound ms gs : transcriptCausalGroups ms = Ok gs -> concat gs = ms /\ Forall causal_group gs.
Proof.
  remember (length ms) as n eqn:Hn. revert ms gs Hn. induction n as [n IH] using lt_wf_ind. intros [|m rest] gs Hn; cbn [transcriptCausalGroups].
  { by intros [= <-]. }
  destruct (mm_ToolCalls m) as [|c calls] eqn:Hc.
  - intros H. apply fail_if_bind in H as [Hr H]. apply bind_ok in H as (groups & Hg & [= <-]).
    destruct (IH (length rest) ltac:(cbn in Hn; lia) rest groups eq_refl Hg) as [E F]. cbn. rewrite E. split; [done|]. constructor; [|done].
    constructor; [done|]. by destruct (mm_ToolResults m).
  - destruct rest as [|r rest]; [done|]. intros H. apply fail_if_bind in H as [Hr H]. apply bind_ok in H as (groups & Hg & [= <-]).
    destruct (IH (length rest) ltac:(cbn in Hn; lia) rest groups eq_refl Hg) as [E F]. cbn. rewrite E. split; [done|]. constructor; [|done].
    destruct (mm_ToolResults r) as [|x xs] eqn:Hx; [done|]. destruct (mm_ToolCalls r) eqn:Hrc; [|done].
    constructor; [done|by rewrite Hx|]. rewrite Hc, Hx. by apply negb_false_iff.
Qed.
Lemma group_nonempty g : causal_group g -> g <> [].
Proof. by intros []. Qed.
Lemma group_count_drop ms g gs : transcriptCausalGroups ms = Ok (g :: gs) -> group_count (concat gs) = length gs.
Proof. intros [_ [_ F]%Forall_cons]%groups_sound. unfold group_count. by rewrite groups_of_concat. Qed.

(** ** Every round drops something *)
Lemma boolZ_le b : boolZ b <= 1.
Proof. by destruct b; cbn; lia. Qed.
Lemma boolZ_true b : b = true -> boolZ b = 1.
Proof. by intros ->. Qed.
Lemma minimal_game_idem g : minimalGameDefinition (minimalGameDefinition g) = minimalGameDefinition g.
Proof. done. Qed.
Lemma minimal_agent_idem a : minimalAgentDefinition (minimalAgentDefinition a) = minimalAgentDefinition a.
Proof. done. Qed.
Definition drop_smaller (d : building -> option building) : Prop :=
  forall b b', d b = Some b' -> droppable (b_projection b') < droppable (b_projection b).
Ltac open_drop b := intros b b'; destruct b as [[] ? ?]; cbn -[transcriptCausalGroups]; intros H; unfold droppable;
  cbn [b_projection on_projection note on_report crop cropped set_preferences set_retrieved set_retrieval_enabled set_history set_experiences set_transcript
       set_memory set_facts set_event set_observation set_game set_agent
       pj_PlayerPreferences pj_RetrievedHistory pj_History pj_RecentExperiences pj_Transcript pj_RecentMemory pj_Facts pj_CurrentEvent pj_CurrentObservation
       pj_GameDefinition pj_AgentDefinition] in *.
Lemma drops_preferences : drop_smaller dropPreferences.
Proof. unfold drop_smaller, dropPreferences. open_drop b. case_bool_decide as E; [done|]. cbn in H. injection H as <-. cbn -[no_preferences].
  rewrite (bool_decide_true (no_preferences = no_preferences)) by done. cbn. lia.
Qed.
Lemma drops_retrieved : drop_smaller dropRetrievedHistoryDisplay.
Proof. unfold drop_smaller, dropRetrievedHistoryDisplay. open_drop b. destruct pj_RetrievedHistory; [done|]. injection H as <-. cbn. lia. Qed.
Lemma drops_history : drop_smaller dropOldestHistoryDisplay.
Proof.
  unfold drop_smaller, dropOldestHistoryDisplay. open_drop b. destruct (hp_Sources pj_History) as [|s sources] eqn:Hs.
  - case_bool_decide as E; [done|]. injection H as <-. cbn. rewrite ?Hs. rewrite (bool_decide_true (""%string = ""%string)) by done. cbn. lia.
  - injection H as <-. cbn. rewrite ?Hs. cbn. lia.
Qed.
Lemma drops_experience : drop_smaller dropExperience.
Proof.
  unfold drop_smaller, dropExperience. open_drop b. destruct pj_RecentExperiences as [|x l] eqn:Hx; [done|]. injection H as <-. cbn -[take].
  rewrite length_take. cbn. lia.
Qed.
Lemma drops_transcript : drop_smaller dropOldestTranscriptGroup.
Proof.
  unfold drop_smaller, dropOldestTranscriptGroup. open_drop b. destruct pj_Transcript as [|m l] eqn:Hx; [done|].
  destruct (transcriptCausalGroups (m :: l)) as [[|g [|g2 groups]]|] eqn:Hg; try done. injection H as <-. cbn -[transcriptCausalGroups].
  pose proof (group_count_drop _ _ _ Hg) as Hc. cbn [concat length] in Hc. unfold group_count at 2. rewrite Hg.
  change (drop 0 groups) with groups. rewrite Hc. cbn [length]. lia.
Qed.
Lemma drops_memory : drop_smaller dropOldestRecentMemory.
Proof. unfold drop_smaller, dropOldestRecentMemory. open_drop b. destruct pj_RecentMemory; [done|]. injection H as <-. cbn. lia. Qed.
Lemma existsb_false {A} (f : A -> bool) l : (forall x, x ∈ l -> f x = false) -> existsb f l = false.
Proof.
  induction l as [|x l IH]; intros H; [done|]. cbn. rewrite (H x) by by left. apply IH. intros y Hy. apply H. by right.
Qed.
Definition facts_measure (l : list ContextFactProjection) : nat :=
  boolZ (existsb (fun f => nonempty (fp_Attributes f)) l) + boolZ (existsb has_text l).
Lemma has_text_marker f a : has_text (fact_with truncatedMarker a f) = false.
Proof. done. Qed.
Lemma droppedFacts_smaller l l' : droppedFacts l = Some l' -> facts_measure l' < facts_measure l.
Proof.
  unfold droppedFacts, facts_measure. destruct (existsb _ l) eqn:Ha.
  - intros [= <-]. rewrite (existsb_false (fun f => nonempty (fp_Attributes f))).
    + replace (existsb has_text _) with (existsb has_text l); [cbn; lia|]. clear Ha. induction l as [|f l IH]; [done|]. cbn. by rewrite IH.
    + intros f Hf. by apply list_elem_of_fmap in Hf as (f' & -> & _).
  - destruct (existsb has_text l) eqn:Ht; [|done]. intros [= <-]. rewrite (existsb_false has_text).
    + replace (existsb (fun f => nonempty (fp_Attributes f)) _) with (existsb (fun f => nonempty (fp_Attributes f)) l); [rewrite Ha; cbn; lia|].
      clear Ha Ht. induction l as [|f l IH]; [done|]. cbn. rewrite IH. by destruct (has_text f).
    + intros f Hf. apply list_elem_of_fmap in Hf as (f' & -> & _). by destruct (has_text f') eqn:E.
Qed.
Lemma drops_facts : drop_smaller dropContextFactOptionalFields.
Proof.
  unfold drop_smaller, dropContextFactOptionalFields. open_drop b. destruct (droppedFacts pj_Facts) as [l|] eqn:E; [|done]. injection H as <-. cbn -[facts_measure].
  apply droppedFacts_smaller in E. unfold facts_measure in E. lia.
Qed.
Lemma drops_event : drop_smaller dropEventPayload.
Proof. unfold drop_smaller, dropEventPayload. open_drop b. destruct (pe_Payload pj_CurrentEvent) eqn:E; [done|]. injection H as <-. cbn. rewrite ?E. cbn. lia. Qed.
Lemma drops_observation : drop_smaller dropObservationOptionalFields.
Proof. unfold drop_smaller, dropObservationOptionalFields. open_drop b. destruct (_ || _) eqn:E; [|done]. injection H as <-. cbn. rewrite ?E. cbn. lia. Qed.
Lemma drops_game : drop_smaller dropGameDefinitionOptionalFields.
Proof.
  unfold drop_smaller, dropGameDefinitionOptionalFields. open_drop b. case_bool_decide as E; [done|]. injection H as <-. cbn.
  rewrite (bool_decide_true (_ <$> _ = _)) by by destruct pj_GameDefinition. cbn. lia.
Qed.
Lemma drops_agent : drop_smaller dropAgentDefinitionOptionalFields.
Proof.
  unfold drop_smaller, dropAgentDefinitionOptionalFields. open_drop b. case_bool_decide as E; [done|]. injection H as <-. cbn.
  rewrite (bool_decide_true (_ <$> _ = _)) by by destruct pj_AgentDefinition. cbn. lia.
Qed.
Lemma first_drop_smaller l : Forall drop_smaller l -> drop_smaller (first_drop l).
Proof. induction 1 as [|d l Hd _ IH]; intros b b'; cbn; [done|]. destruct (d b) eqn:E; [intros [= <-]; by apply Hd|apply IH]. Qed.
Lemma drops_smaller : Forall drop_smaller drops.
Proof.
  repeat constructor; auto using drops_preferences, drops_retrieved, drops_history, drops_experience, drops_transcript, drops_memory, drops_facts,
    drops_event, drops_observation, drops_game, drops_agent.
Qed.
Lemma drop_next_smaller b b' : drop_next b = Some b' -> droppable (b_projection b') < droppable (b_projection b).
Proof. apply first_drop_smaller, drops_smaller. Qed.
Lemma enforce_loop_ends fuel budget b : droppable (b_projection b) <= fuel -> is_Some (enforce_loop fuel budget b).
Proof.
  revert b. induction fuel as [|fuel IH]; intros b Hf; cbn [enforce_loop]; destruct (projectionFitsRequestBudget _ _) as [[]|]; try (eexists; reflexivity).
  - destruct (drop_next b) eqn:E; [apply drop_next_smaller in E; lia|]. destruct (measureProjectionRequest _); eexists; reflexivity.
  - destruct (drop_next b) eqn:E; [apply drop_next_smaller in E; apply IH; lia|]. destruct (measureProjectionRequest _); eexists; reflexivity.
Qed.

(** ** Filling up to a budget *)
Section Fill.
Context {D : Type}.
Implicit Types (cost : D -> Z) (us : list (D -> D)) (d : D).
Definition apply_all us d : D := foldl (fun d (u : D -> D) => u d) d us.
Lemma fill_take limit cost us d : (cost d <= limit)%Z -> exists k, fill_within limit cost us d = apply_all (take k us) d
  /\ (cost (fill_within limit cost us d) <= limit)%Z
  /\ (k = length us \/ exists u, us !! k = Some u /\ (limit < cost (u (apply_all (take k us) d)))%Z).
Proof.
  revert d. induction us as [|u us IH]; intros d Hd; cbn [fill_within]; [exists 0; split_and!; auto|].
  destruct (limit <? cost (u d))%Z eqn:E; boolp.
  - exists 0. split_and!; [done|done|]. right. by exists u.
  - destruct (IH (u d)) as (k & H1 & H2 & H3); [lia|]. exists (S k). split_and!; [exact H1|exact H2|]. cbn. destruct H3 as [-> |H3]; [by left|by right].
Qed.
Lemma apply_take_app k us1 us2 d : apply_all (take k (us1 ++ us2)) d = apply_all (take (k - length us1) us2) (apply_all (take k us1) d).
Proof. unfold apply_all. by rewrite take_app, foldl_app. Qed.
Lemma apply_texts k text put d : apply_all (take k (text_updates text put)) d = d \/ apply_all (take k (text_updates text put)) d = put text d.
Proof.
  unfold text_updates. destruct (text == ""); [rewrite take_nil; by left|]. destruct k; [by left|]. right. cbn. by rewrite take_nil.
Qed.
Lemma apply_items (put : string -> D -> D) (set : list string -> D -> D) : (forall x l d, put x (set l d) = set (l ++ [x]) d) ->
  forall k items l d, apply_all (take k (item_updates items put)) (set l d) = set (l ++ take k items) d.
Proof.
  intros Hput k items. revert k. induction items as [|x items IH]; intros k l d; [change (item_updates [] put) with (@nil (D -> D)); by rewrite !take_nil, app_nil_r|].
  destruct k as [|k]; [by rewrite app_nil_r|]. change (apply_all (take k (item_updates items put)) (put x (set l d)) = set (l ++ x :: take k items) d).
  rewrite Hput, IH. by rewrite <- app_assoc.
Qed.
End Fill.

(** ** What is dropped and what stays *)
Definition text_cut (s s' : string) : Prop := s' = s \/ s' = ""%string.
Record game_cut (g g' : GameDefinition) : Prop := {
  gc_version : gd_SchemaVersion g' = gd_SchemaVersion g; gc_game : gd_GameID g' = gd_GameID g; gc_title : text_cut (gd_Title g) (gd_Title g');
  gc_summary : text_cut (gd_Summary g) (gd_Summary g'); gc_rules : gd_WorldRules g' `prefix_of` gd_WorldRules g;
  gc_lore : gd_Lore g' `prefix_of` gd_Lore g; gc_constraints : gd_NarrativeConstraints g' `prefix_of` gd_NarrativeConstraints g;
  gc_source : text_cut (gd_SourceVersion g) (gd_SourceVersion g')
}.
Record agent_cut (a a' : AgentDefinition) : Prop := {
  ac_version : ad_SchemaVersion a' = ad_SchemaVersion a; ac_game : ad_GameID a' = ad_GameID a; ac_definition : ad_DefinitionID a' = ad_DefinitionID a;
  ac_identity : text_cut (ad_Identity a) (ad_Identity a'); ac_personality : ad_Personality a' `prefix_of` ad_Personality a;
  ac_style : ad_SpeechStyle a' `prefix_of` ad_SpeechStyle a; ac_preferences : ad_Preferences a' `prefix_of` ad_Preferences a;
  ac_guidelines : ad_BehaviorGuidelines a' `prefix_of` ad_BehaviorGuidelines a; ac_source : text_cut (ad_SourceVersion a) (ad_SourceVersion a')
}.
Lemma texts_put {D} k text (put : string -> D -> D) d : d = put ""%string d ->
  exists t, text_cut text t /\ apply_all (take k (text_updates text put)) d = put t d.
Proof. intros E. destruct (apply_texts k text put d) as [-> | ->]; [exists ""%string|exists text]; (split; [by (left + right)|done]). Qed.
Lemma game_updates_cut k g : game_cut g (apply_all (take k (game_updates g)) (minimalGameDefinition g)).
Proof.
  unfold game_updates. rewrite !apply_take_app. set (k1 := k - _). set (k2 := k1 - _). set (k3 := k2 - _). set (k4 := k3 - _). set (k5 := k4 - _).
  destruct (texts_put k (gd_Title g) put_title (minimalGameDefinition g) eq_refl) as (t & Ht & ->).
  destruct (texts_put k1 (gd_Summary g) put_summary (put_title t (minimalGameDefinition g)) eq_refl) as (s & Hs & ->).
  change (put_summary s (put_title t (minimalGameDefinition g))) with (game_parts t s [] [] [] "" g).
  rewrite (apply_items put_rule (fun l d => game_parts t s l [] [] "" g) ltac:(done) k2 (gd_WorldRules g) [] g); cbn [app].
  rewrite (apply_items put_lore (fun l d => game_parts t s (take k2 (gd_WorldRules g)) l [] "" g) ltac:(done) k3 (gd_Lore g) [] g); cbn [app].
  rewrite (apply_items put_constraint (fun l d => game_parts t s (take k2 (gd_WorldRules g)) (take k3 (gd_Lore g)) l "" g) ltac:(done)
             k4 (gd_NarrativeConstraints g) [] g); cbn [app].
  match goal with |- context [apply_all (take k5 _) ?d] => destruct (texts_put k5 (gd_SourceVersion g) put_game_source d eq_refl) as (v & Hv & ->) end.
  split; cbn; first [done|apply prefix_take].
Qed.
Lemma agent_updates_cut k a : agent_cut a (apply_all (take k (agent_updates a)) (minimalAgentDefinition a)).
Proof.
  unfold agent_updates. rewrite !apply_take_app. set (k1 := k - _). set (k2 := k1 - _). set (k3 := k2 - _). set (k4 := k3 - _). set (k5 := k4 - _).
  destruct (texts_put k (ad_Identity a) put_identity (minimalAgentDefinition a) eq_refl) as (i & Hi & ->).
  change (put_identity i (minimalAgentDefinition a)) with (agent_parts i [] [] [] [] "" a).
  rewrite (apply_items put_personality (fun l d => agent_parts i l [] [] [] "" a) ltac:(done) k1 (ad_Personality a) [] a); cbn [app].
  rewrite (apply_items put_style (fun l d => agent_parts i (take k1 (ad_Personality a)) l [] [] "" a) ltac:(done) k2 (ad_SpeechStyle a) [] a); cbn [app].
  rewrite (apply_items put_preference (fun l d => agent_parts i (take k1 (ad_Personality a)) (take k2 (ad_SpeechStyle a)) l [] "" a) ltac:(done)
             k3 (ad_Preferences a) [] a); cbn [app].
  rewrite (apply_items put_guideline (fun l d => agent_parts i (take k1 (ad_Personality a)) (take k2 (ad_SpeechStyle a)) (take k3 (ad_Preferences a)) l "" a)
             ltac:(done) k4 (ad_BehaviorGuidelines a) [] a); cbn [app].
  match goal with |- context [apply_all (take k5 _) ?d] => destruct (texts_put k5 (ad_SourceVersion a) put_agent_source d eq_refl) as (v & Hv & ->) end.
  split; cbn; first [done|apply prefix_take].
Qed.
Definition opt_cut {A} (R : A -> A -> Prop) (x y : option A) : Prop := option_relation R (fun _ => False) (fun _ => False) x y.
Lemma game_cut_refl g : game_cut g g.
Proof. split; first [done|by left]. Qed.
Lemma agent_cut_refl a : agent_cut a a.
Proof. split; first [done|by left]. Qed.
Lemma minimal_game_cut g g' : game_cut g g' -> game_cut g (minimalGameDefinition g').
Proof. intros []. split; cbn; first [done|by right|apply prefix_nil]. Qed.
Lemma minimal_agent_cut a a' : agent_cut a a' -> agent_cut a (minimalAgentDefinition a').
Proof. intros []. split; cbn; first [done|by right|apply prefix_nil]. Qed.
Lemma applyDefinitionBudget_ok agent game limit a g crops err : applyDefinitionBudget agent game limit = (a, g, crops, err) ->
  opt_cut agent_cut agent a /\ opt_cut game_cut game g
  /\ (err = None -> (0 < limit)%Z -> (definitionBudgetEstimatedTokens a g <= limit)%Z).
Proof.
  unfold applyDefinitionBudget.
  destruct ((limit <=? 0)%Z || _) eqn:Hnone.
  { intros [= <- <- <- <-]. split_and!; [destruct agent; [apply agent_cut_refl|done]|destruct game; [apply game_cut_refl|done]|].
    intros _ Hl. apply orb_true_iff in Hnone as [?%Z.leb_le|[? ?]%andb_true_iff]; [lia|]. boolp. subst. exact (Z.lt_le_incl _ _ Hl). }
  apply orb_false_iff in Hnone as [Hl%Z.leb_gt _]. destruct (limit <? _)%Z eqn:Hmin; boolp.
  { intros [= <- <- <- <-]. split_and!; [|destruct game; [apply minimal_game_cut, game_cut_refl|done]|done].
    destruct agent; [apply minimal_agent_cut, agent_cut_refl|done]. }
  set (ga := minimalGameDefinition <$> game) in *. intros [= <- <- <- <-].
  assert (Ha : exists a', (match agent with Some source => Some (fill_within limit (fun c => definitionBudgetEstimatedTokens (Some c) ga) (agent_updates source) (minimalAgentDefinition source)) | None => None end) = a'
    /\ opt_cut agent_cut agent a' /\ (definitionBudgetEstimatedTokens a' ga <= limit)%Z).
  { destruct agent as [source|]; [|exists None; split_and!; done]. eexists. split; [done|].
    destruct (fill_take limit (fun c => definitionBudgetEstimatedTokens (Some c) ga) (agent_updates source) (minimalAgentDefinition source)) as (k & E & Hc & _); [done|].
    split; [|exact Hc]. rewrite E. apply agent_updates_cut. }
  destruct Ha as (a' & -> & Hcut & Hcost). split; [exact Hcut|].
  destruct game as [source|]; [|done].
  destruct (fill_take limit (fun c => definitionBudgetEstimatedTokens a' (Some c)) (game_updates source) (minimalGameDefinition source)) as (k & E & Hc & _); [done|].
  split; [rewrite E; apply game_updates_cut|]. intros _ _. exact Hc.
Qed.

(** *** What the engine may change of a projection, and what it may not *)
Definition fact_cut (f f' : ContextFactProjection) : Prop :=
  exists text attributes, f' = fact_with text attributes f /\ (text = fp_Text f \/ text = truncatedMarker) /\ (attributes = fp_Attributes f \/ attributes = []).
Definition note_of (message : string) (m m' : any_map) : Prop := m' = m \/ m' = [] \/ m' = truncationMap message.
Definition event_cut (e e' : EventProjection) : Prop :=
  exists payload, e' = event_payload payload e /\ note_of "current event payload exceeded token limit" (pe_Payload e) payload.
Definition observation_cut (o o' : ObservationProjection) : Prop :=
  o' = o \/ exists state, o' = observation_state state o /\ note_of "current observation state exceeded token limit" (po_State o) state.
Definition task_cut (t t' : TaskProjection) : Prop :=
  exists progress results, t' = with_task_content progress results t /\ (progress = tk_Progress t \/ progress = ""%string)
    /\ (results `prefix_of` tk_RecentResults t \/ exists r, head (tk_RecentResults t) = Some r /\ results = [without_refs r]).
Definition history_cut (h h' : HistoryProjection) : Prop :=
  hp_Sources h' `suffix_of` hp_Sources h
  /\ (hp_SummaryID h' = hp_SummaryID h /\ hp_SummaryText h' = hp_SummaryText h
      \/ hp_SummaryID h' = ""%string /\ hp_SummaryText h' = ""%string /\ hp_Sources h' = []).
(** The transcript keeps its last causal groups, and one at least. *)
Definition transcript_cut (l l' : list model_Message) : Prop :=
  l' = l \/ exists gs k, transcriptCausalGroups l = Ok gs /\ k < length gs /\ l' = concat (drop k gs).
Record projection_cut (p p' : ContextProjection) : Prop := {
  pc_identity : pj_SessionKey p' = pj_SessionKey p /\ pj_CanonicalTarget p' = pj_CanonicalTarget p /\ pj_AgentDescriptor p' = pj_AgentDescriptor p;
  pc_policy : pj_RuntimePolicy p' = pj_RuntimePolicy p /\ pj_Instruction p' = pj_Instruction p;
  pc_tools : pj_Tools p' = pj_Tools p;
  pc_preferences : pj_PlayerPreferences p' = pj_PlayerPreferences p \/ pj_PlayerPreferences p' = no_preferences;
  pc_retrieved : pj_RetrievedHistory p' = pj_RetrievedHistory p \/ pj_RetrievedHistory p' = [];
  pc_knowledge : pj_RetrievedKnowledge p' = pj_RetrievedKnowledge p;
  pc_historyEnabled : pj_historyEnabled p' = pj_historyEnabled p;
  pc_history : history_cut (pj_History p) (pj_History p');
  pc_experiences : pj_RecentExperiences p' `prefix_of` pj_RecentExperiences p;
  pc_transcript : transcript_cut (pj_Transcript p) (pj_Transcript p');
  pc_memory : pj_RecentMemory p' `suffix_of` pj_RecentMemory p;
  pc_facts : Forall2 fact_cut (pj_Facts p) (pj_Facts p');
  pc_event : event_cut (pj_CurrentEvent p) (pj_CurrentEvent p');
  pc_observation : observation_cut (pj_CurrentObservation p) (pj_CurrentObservation p');
  pc_game : opt_cut game_cut (pj_GameDefinition p) (pj_GameDefinition p');
  pc_agent : opt_cut agent_cut (pj_AgentDefinition p) (pj_AgentDefinition p');
  pc_task : opt_cut task_cut (pj_Task p) (pj_Task p')
}.
Lemma fact_cut_refl f : fact_cut f f.
Proof. exists (fp_Text f), (fp_Attributes f). split_and!; [by destruct f|by left|by left]. Qed.
Lemma event_cut_refl e : event_cut e e.
Proof. exists (pe_Payload e). split; [by destruct e|by left]. Qed.
Lemma task_cut_refl t : task_cut t t.
Proof. exists (tk_Progress t), (tk_RecentResults t). split_and!; [by destruct t|by left|by left]. Qed.
Lemma history_cut_refl h : history_cut h h.
Proof. split; [done|by left]. Qed.
#[export] Instance opt_cut_preorder {A} (R : A -> A -> Prop) `{!PreOrder R} : PreOrder (opt_cut R).
Proof. split; [by intros []; cbn|]. intros [] [] []; cbn; try done. apply transitivity. Qed.
Lemma text_cut_trans s1 s2 s3 : text_cut s1 s2 -> text_cut s2 s3 -> text_cut s1 s3.
Proof. unfold text_cut. intuition congruence. Qed.
Lemma game_cut_trans g1 g2 g3 : game_cut g1 g2 -> game_cut g2 g3 -> game_cut g1 g3.
Proof. intros [] []. split; first [congruence|by eapply text_cut_trans|by etrans]. Qed.
Lemma agent_cut_trans g1 g2 g3 : agent_cut g1 g2 -> agent_cut g2 g3 -> agent_cut g1 g3.
Proof. intros [] []. split; first [congruence|by eapply text_cut_trans|by etrans]. Qed.
Lemma history_cut_trans h1 h2 h3 : history_cut h1 h2 -> history_cut h2 h3 -> history_cut h1 h3.
Proof.
  intros [S1 H1] [S2 H2]. split; [by etrans|]. destruct H2 as [[E1 E2]|H2]; [|by right]. rewrite E1, E2. destruct H1 as [H1|(E3 & E4 & E5)]; [by left|].
  right. split_and!; [done|done|]. rewrite E5 in S2. by apply suffix_nil_inv in S2.
Qed.
Lemma transcript_cut_trans l1 l2 l3 : transcript_cut l1 l2 -> transcript_cut l2 l3 -> transcript_cut l1 l3.
Proof.
  intros [-> |(gs & k & Hg & Hk & ->)]; [done|]. intros [-> |(gs' & k' & Hg' & Hk' & ->)]; [right; eauto 6|].
  right. exists gs, (k + k'). destruct (groups_sound _ _ Hg) as [_ F]. rewrite (groups_of_concat (drop k gs)) in Hg' by by apply Forall_drop.
  injection Hg' as <-. rewrite length_drop in Hk'. split_and!; [done|lia|]. by rewrite drop_drop.
Qed.
Lemma note_of_trans s m1 m2 m3 : note_of s m1 m2 -> note_of s m2 m3 -> note_of s m1 m3.
Proof. unfold note_of. intuition congruence. Qed.
Lemma fact_cut_trans f1 f2 f3 : fact_cut f1 f2 -> fact_cut f2 f3 -> fact_cut f1 f3.
Proof.
  intros (t & a & -> & Ht & Ha) (t' & a' & -> & Ht' & Ha'). exists t', a'. cbn in *. split_and!; [done| |]; intuition congruence.
Qed.
Lemma event_cut_trans e1 e2 e3 : event_cut e1 e2 -> event_cut e2 e3 -> event_cut e1 e3.
Proof. intros (m & -> & H) (m' & -> & H'). exists m'. split; [done|]. by eapply note_of_trans. Qed.
Lemma observation_cut_trans o1 o2 o3 : observation_cut o1 o2 -> observation_cut o2 o3 -> observation_cut o1 o3.
Proof.
  intros [-> |(m & -> & H)]; [done|]. intros [-> |(m' & -> & H')]; right; [by exists m|]. exists m'. split; [done|]. by eapply note_of_trans.
Qed.
Lemma task_cut_trans t1 t2 t3 : task_cut t1 t2 -> task_cut t2 t3 -> task_cut t1 t3.
Proof.
  intros (p & r & -> & Hp & Hr) (p' & r' & -> & Hp' & Hr'). exists p', r'. cbn in *. split_and!; [done|intuition congruence|].
  destruct Hr as [Hr|(x & Hx & ->)].
  - destruct Hr' as [Hr'|(y & Hy & ->)]; [left; by etrans|]. right. exists y. split; [|done]. destruct r as [|z r]; [done|]. destruct Hr as [k Hr].
    by rewrite Hr.
  - destruct Hr' as [[k Hk]|(y & Hy & ->)].
    + destruct r' as [|z r']; [left; apply prefix_nil|]. cbn in Hk. injection Hk as <- Hk. destruct r'; [|done]. right. by exists x.
    + right. exists x. split; [done|]. by simplify_eq/=.
Qed.
Lemma transcript_cut_refl l : transcript_cut l l.
Proof. by left. Qed.
Lemma observation_cut_refl o : observation_cut o o.
Proof. by left. Qed.
#[export] Instance fact_cut_preorder : PreOrder fact_cut.
Proof. split; [exact fact_cut_refl|exact fact_cut_trans]. Qed.
#[export] Instance game_cut_preorder : PreOrder game_cut.
Proof. split; [exact game_cut_refl|exact game_cut_trans]. Qed.
#[export] Instance agent_cut_preorder : PreOrder agent_cut.
Proof. split; [exact agent_cut_refl|exact agent_cut_trans]. Qed.
#[export] Instance history_cut_preorder : PreOrder history_cut.
Proof. split; [exact history_cut_refl|exact history_cut_trans]. Qed.
#[export] Instance transcript_cut_preorder : PreOrder transcript_cut.
Proof. split; [exact transcript_cut_refl|exact transcript_cut_trans]. Qed.
#[export] Instance event_cut_preorder : PreOrder event_cut.
Proof. split; [exact event_cut_refl|exact event_cut_trans]. Qed.
#[export] Instance observation_cut_preorder : PreOrder observation_cut.
Proof. split; [exact observation_cut_refl|exact observation_cut_trans]. Qed.
#[export] Instance task_cut_preorder : PreOrder task_cut.
Proof. split; [exact task_cut_refl|exact task_cut_trans]. Qed.
#[export] Instance projection_cut_preorder : PreOrder projection_cut.
Proof.
  split; [intros p; split; first [done|by left]|]. intros p1 p2 p3 [] []. split; first [intuition congruence|by etrans].
Qed.

(** *** Every drop is such a change *)
Definition cuts (d : building -> option building) : Prop := forall b b', d b = Some b' -> projection_cut (b_projection b) (b_projection b').
Ltac open_cut d := intros b b'; unfold d; destruct b as [[] ? ?];
  cbn [b_projection on_projection note on_report crop cropped set_preferences set_retrieved set_retrieval_enabled set_history set_experiences set_transcript
       set_memory set_facts set_event set_observation set_game set_agent
       pj_PlayerPreferences pj_RetrievedHistory pj_History pj_RecentExperiences pj_Transcript pj_RecentMemory pj_Facts pj_CurrentEvent pj_CurrentObservation
       pj_GameDefinition pj_AgentDefinition].
(** A change of one field. *)
Ltac cut_field := intros [= <-]; split; cbn; try first [done|by left|by right].
Lemma cuts_preferences : cuts dropPreferences.
Proof. open_cut dropPreferences. case_bool_decide; [done|]. cut_field. Qed.
Lemma cuts_retrieved : cuts dropRetrievedHistoryDisplay.
Proof. open_cut dropRetrievedHistoryDisplay. destruct pj_RetrievedHistory; [done|]. cut_field. Qed.
Lemma cuts_history : cuts dropOldestHistoryDisplay.
Proof.
  open_cut dropOldestHistoryDisplay. destruct (hp_Sources pj_History) as [|s l] eqn:E.
  - case_bool_decide; [done|]. cut_field. split; [apply suffix_nil|by right].
  - cut_field. split; [rewrite E; by exists [s]|by left].
Qed.
Lemma cuts_experience : cuts dropExperience.
Proof. open_cut dropExperience. destruct pj_RecentExperiences; [done|]. cut_field. apply prefix_take. Qed.
Lemma cuts_transcript : cuts dropOldestTranscriptGroup.
Proof.
  open_cut dropOldestTranscriptGroup. destruct pj_Transcript as [|m l]; [done|].
  destruct (transcriptCausalGroups (m :: l)) as [[|g [|g2 groups]]|] eqn:Hg; try done. cut_field. right. exists (g :: g2 :: groups), 1.
  split_and!; [done|cbn; lia|done].
Qed.
Lemma cuts_memory : cuts dropOldestRecentMemory.
Proof. open_cut dropOldestRecentMemory. destruct pj_RecentMemory as [|m l]; [done|]. cut_field. by exists [m]. Qed.
Lemma droppedFacts_cut l l' : droppedFacts l = Some l' -> Forall2 fact_cut l l'.
Proof.
  unfold droppedFacts. destruct (existsb _ l); [|destruct (existsb has_text l); [|done]]; intros [= <-]; apply Forall2_fmap_r, Forall_Forall2_diag, Forall_true.
  - intros f. exists (fp_Text f), []. split_and!; auto.
  - intros f. unfold compose. destruct (has_text f); [|apply fact_cut_refl]. exists truncatedMarker, (fp_Attributes f). split_and!; auto.
Qed.
Lemma cuts_facts : cuts dropContextFactOptionalFields.
Proof.
  open_cut dropContextFactOptionalFields. destruct (droppedFacts pj_Facts) eqn:E; [|done]. cut_field. by apply droppedFacts_cut.
Qed.
Lemma cuts_event : cuts dropEventPayload.
Proof. open_cut dropEventPayload. destruct (pe_Payload pj_CurrentEvent); [done|]. cut_field. exists []. split; [done|]. right. by left. Qed.
Lemma cuts_observation : cuts dropObservationOptionalFields.
Proof. open_cut dropObservationOptionalFields. destruct (_ || _); [|done]. cut_field. right. exists []. split; [done|]. right. by left. Qed.
Lemma cuts_game : cuts dropGameDefinitionOptionalFields.
Proof. open_cut dropGameDefinitionOptionalFields. case_bool_decide; [done|]. cut_field. destruct pj_GameDefinition; [|done]. apply minimal_game_cut. done. Qed.
Lemma cuts_agent : cuts dropAgentDefinitionOptionalFields.
Proof. open_cut dropAgentDefinitionOptionalFields. case_bool_decide; [done|]. cut_field. destruct pj_AgentDefinition; [|done]. apply minimal_agent_cut. done. Qed.
Lemma drops_cut : Forall cuts drops.
Proof.
  unfold drops. repeat (apply Forall_cons_2 || apply Forall_nil_2); auto using cuts_preferences, cuts_retrieved, cuts_history, cuts_experience, cuts_transcript, cuts_memory, cuts_facts,
    cuts_event, cuts_observation, cuts_game, cuts_agent.
Qed.
Lemma first_drop_from l b b' : first_drop l b = Some b' -> exists l1 d l2, l = l1 ++ d :: l2 /\ d b = Some b' /\ Forall (fun d => d b = None) l1.
Proof.
  induction l as [|d l IH]; cbn; [done|]. destruct (d b) as [b1|] eqn:E; [intros [= ->]; by exists [], d, l|].
  intros H. destruct (IH H) as (l1 & d' & l2 & -> & Hd & F). exists (d :: l1), d', l2. split_and!; [done|done|]. by constructor.
Qed.
Lemma drop_next_cut b b' : drop_next b = Some b' -> projection_cut (b_projection b) (b_projection b').
Proof.
  intros (l1 & d & l2 & E & Hd & _)%first_drop_from. pose proof drops_cut as F. rewrite E in F. apply Forall_app in F as [_ F]. inversion F; subst. eauto.
Qed.
