(* ===== verification/Fitted.v ===== *)
(** * A projection within its budgets

    Sections shrink when they are cut, the loop drops class by class in its order, and
    what [applyProjectionBudgets] answers without an error fits. *)

From S2P Require Export Fitting.

Local Open Scope go_scope.

(** ** Sections only shrink *)
Lemma event_drop_smaller e : (EstimateText (marshalEvent (event_payload [] e)) <= EstimateText (marshalEvent e))%Z.
Proof. apply EstimateText_mono, enc_object_fewer. repeat (constructor; [by (left + right)|]). constructor. Qed.
Lemma observation_drop_smaller o : (EstimateText (marshalObservation (observation_state [] o)) <= EstimateText (marshalObservation o))%Z.
Proof. apply EstimateText_mono, enc_object_fewer. repeat (constructor; [by (left + right)|]). constructor. Qed.
Lemma enc_list_or_null_pointwise l' l : Forall2 runes_in l' l -> runes_in (enc_list_or_null l') (enc_list_or_null l).
Proof. intros H. pose proof (join_pointwise _ _ H). destruct H; [done|]. by apply enc_array_mono. Qed.
Lemma facts_drop_smaller l : runes_in (marshalFacts ((fun f => fact_with (fp_Text f) [] f) <$> l)) (marshalFacts l).
Proof.
  apply enc_list_or_null_pointwise. rewrite <- list_fmap_compose. apply Forall2_fmap, Forall_Forall2_diag, Forall_true. intros f.
  apply enc_object_fewer. repeat (constructor; [by (left + right)|]). constructor.
Qed.
(** A fact of which nothing more can be dropped. *)
Definition bare_fact (f : ContextFactProjection) : Prop := fp_Attributes f = [] /\ (fp_Text f = ""%string \/ fp_Text f = truncatedMarker).
Lemma droppedFacts_fit limit l l' : droppedFacts l = Some l' -> (EstimateText (marshalFacts l) <= limit)%Z ->
  (EstimateText (marshalFacts l') <= limit)%Z \/ Forall bare_fact l'.
Proof.
  unfold droppedFacts. destruct (existsb _ l) eqn:Ha.
  - intros [= <-] H. left. etrans; [apply EstimateText_mono, facts_drop_smaller|done].
  - destruct (existsb has_text l); [|done]. intros [= <-] _. right. apply Forall_fmap, Forall_forall. intros f Hf.
    assert (Hn : fp_Attributes f = []).
    { destruct (fp_Attributes f) eqn:E; [done|]. enough (existsb (fun f => nonempty (fp_Attributes f)) l = true) by congruence.
      apply existsb_exists. exists f. split; [by apply list_elem_of_In|by rewrite E]. }
    unfold compose. destruct (has_text f) eqn:E; [split; [exact Hn|by right]|]. split; [done|]. unfold has_text in E. boolp. tauto.
Qed.

(** ** What a result within its budgets satisfies *)
Definition within (limit tokens : Z) : Prop := (0 < limit)%Z -> (tokens <= limit)%Z.
Lemma over_within limit tokens : over limit tokens = false <-> within limit tokens.
Proof.
  unfold over, within. rewrite andb_false_iff, !Z.ltb_ge. lia.
Qed.
(** The sections that have a budget of their own. *)
Record sections_fit (budget : BudgetConfig) (p : ContextProjection) : Prop := {
  sf_definitions : within (MaxDefinitionTokens budget) (definitionBudgetEstimatedTokens (pj_AgentDefinition p) (pj_GameDefinition p));
  sf_event : within (MaxEventTokens budget) (event_tokens p);
  sf_observation : within (MaxObservationTokens budget) (observation_tokens p);
  sf_facts : within (MaxContextFactsTokens budget) (facts_tokens p) \/ Forall bare_fact (pj_Facts p);
  sf_task : (estimateTaskProjection (pj_Task p) <= positiveOrDefault (MaxTaskContextTokens budget) defaultMaxTaskContextTokens)%Z
}.
Definition keeps_sections (d : building -> option building) : Prop :=
  forall budget b b', d b = Some b' -> sections_fit budget (b_projection b) -> sections_fit budget (b_projection b').
(** A change to a field no section budget measures. *)
Lemma sections_fit_same budget p p' : pj_AgentDefinition p' = pj_AgentDefinition p -> pj_GameDefinition p' = pj_GameDefinition p ->
  pj_CurrentEvent p' = pj_CurrentEvent p -> pj_CurrentObservation p' = pj_CurrentObservation p -> pj_Facts p' = pj_Facts p -> pj_Task p' = pj_Task p ->
  sections_fit budget p -> sections_fit budget p'.
Proof. intros Ha Hg He Ho Hf Ht []. split; unfold event_tokens, observation_tokens, facts_tokens; by rewrite ?Ha, ?Hg, ?He, ?Ho, ?Hf, ?Ht. Qed.
Ltac keeps d := intros budget b b'; unfold d; repeat case_match; intros [= <-]; by apply sections_fit_same.
Lemma keeps_preferences : keeps_sections dropPreferences.
Proof. keeps dropPreferences. Qed.
Lemma keeps_retrieved : keeps_sections dropRetrievedHistoryDisplay.
Proof. keeps dropRetrievedHistoryDisplay. Qed.
Lemma keeps_history : keeps_sections dropOldestHistoryDisplay.
Proof. keeps dropOldestHistoryDisplay. Qed.
Lemma keeps_experience : keeps_sections dropExperience.
Proof. keeps dropExperience. Qed.
Lemma keeps_transcript : keeps_sections dropOldestTranscriptGroup.
Proof. intros budget b b'. unfold dropOldestTranscriptGroup. destruct (pj_Transcript _); [done|]. destruct (transcriptCausalGroups _) as [[|g [|g2 gs]]|]; try done.
  intros [= <-]. by apply sections_fit_same.
Qed.
Lemma keeps_memory : keeps_sections dropOldestRecentMemory.
Proof. keeps dropOldestRecentMemory. Qed.
Lemma keeps_facts : keeps_sections dropContextFactOptionalFields.
Proof.
  intros budget b b'. unfold dropContextFactOptionalFields. destruct (droppedFacts _) as [l|] eqn:E; [|done]. intros [= <-] [].
  split; try done. change (within (MaxContextFactsTokens budget) (EstimateText (marshalFacts l)) \/ Forall bare_fact l).
  destruct (decide (0 < MaxContextFactsTokens budget)%Z) as [Hp|Hp]; [|left; intros ?; lia].
  destruct sf_facts0 as [Hf|Hf].
  - destruct (droppedFacts_fit (MaxContextFactsTokens budget) _ _ E (Hf Hp)); [left; by intros _|by right].
  - exfalso. unfold droppedFacts in E. rewrite (existsb_false (fun f => nonempty (fp_Attributes f))), (existsb_false has_text) in E; [done|..];
      intros f Hin; rewrite Forall_forall in Hf; destruct (Hf f Hin) as [Ha Ht]; [|by rewrite Ha].
    unfold has_text. destruct Ht as [-> | ->]; done.
Qed.
Lemma keeps_event : keeps_sections dropEventPayload.
Proof.
  intros budget b b'. unfold dropEventPayload. destruct (pe_Payload _); [done|]. intros [= <-] []. split; try done.
  intros Hl. etrans; [apply event_drop_smaller|by apply sf_event0].
Qed.
Lemma keeps_observation : keeps_sections dropObservationOptionalFields.
Proof.
  intros budget b b'. unfold dropObservationOptionalFields. destruct (_ || _); [|done]. intros [= <-] []. split; try done.
  intros Hl. etrans; [apply observation_drop_smaller|by apply sf_observation0].
Qed.
Lemma minimal_game_smaller g : (EstimateText (marshalGame (minimalGameDefinition g)) <= EstimateText (marshalGame g))%Z.
Proof. apply EstimateText_mono, enc_object_fewer. repeat (constructor; [by (left + right)|]). constructor. Qed.
Lemma minimal_agent_smaller a : (EstimateText (marshalAgent (minimalAgentDefinition a)) <= EstimateText (marshalAgent a))%Z.
Proof. apply EstimateText_mono, enc_object_fewer. repeat (constructor; [by (left + right)|]). constructor. Qed.
Lemma keeps_game : keeps_sections dropGameDefinitionOptionalFields.
Proof.
  intros budget b b'. unfold dropGameDefinitionOptionalFields. case_bool_decide; [done|]. intros [= <-] []. split; try done.
  intros Hl. etrans; [|by apply sf_definitions0]. cbn -[marshalGame marshalAgent]. apply Z.add_le_mono_l. destruct (pj_GameDefinition _); [|done].
  apply minimal_game_smaller.
Qed.
Lemma keeps_agent : keeps_sections dropAgentDefinitionOptionalFields.
Proof.
  intros budget b b'. unfold dropAgentDefinitionOptionalFields. case_bool_decide; [done|]. intros [= <-] []. split; try done.
  intros Hl. etrans; [|by apply sf_definitions0]. cbn -[marshalGame marshalAgent]. apply Z.add_le_mono_r. destruct (pj_AgentDefinition _); [|done].
  apply minimal_agent_smaller.
Qed.
Lemma drops_keep : Forall keeps_sections drops.
Proof.
  unfold drops. repeat (apply Forall_cons_2 || apply Forall_nil_2); auto using keeps_preferences, keeps_retrieved, keeps_history, keeps_experience,
    keeps_transcript, keeps_memory, keeps_facts, keeps_event, keeps_observation, keeps_game, keeps_agent.
Qed.
Lemma drop_next_keeps : keeps_sections drop_next.
Proof.
  intros budget b b' (l1 & d & l2 & E & Hd & _)%first_drop_from. pose proof drops_keep as F. rewrite E in F. apply Forall_app in F as [_ F].
  inversion F; subst. eauto.
Qed.

(** ** The rounds of the loop *)
(** [drop_run ks b b']: from [b] to [b'] while the request does not fit, each round by the
    first of the classes that has anything left. *)
Inductive drop_run (budget : BudgetConfig) : list nat -> building -> building -> Prop :=
| run_done b : drop_run budget [] b b
| run_round k d ks b b1 b2 : projectionFitsRequestBudget (b_projection b) budget = Some false -> drops !! k = Some d -> d b = Some b1 ->
    Forall (fun d => d b = None) (take k drops) -> drop_run budget ks b1 b2 -> drop_run budget (k :: ks) b b2.
Lemma drop_next_round b b' : drop_next b = Some b' -> exists k d, drops !! k = Some d /\ d b = Some b' /\ Forall (fun d => d b = None) (take k drops).
Proof.
  intros (l1 & d & l2 & E & Hd & F)%first_drop_from. exists (length l1), d. rewrite E. split_and!; [by apply list_lookup_middle|done|].
  by rewrite take_app_length.
Qed.
(** How the loop ends. *)
Inductive loop_end (budget : BudgetConfig) (b : building) : building -> option context_error -> Prop :=
| end_fits : projectionFitsRequestBudget (b_projection b) budget = Some true -> loop_end budget b b None
| end_schema : projectionFitsRequestBudget (b_projection b) budget = None -> loop_end budget b b (Some ErrToolSchema)
| end_over size : projectionFitsRequestBudget (b_projection b) budget = Some false -> measureProjectionRequest (b_projection b) = Some size ->
    Forall (fun d => d b = None) drops ->
    loop_end budget b (over_budget size budget b).1 (over_budget size budget b).2.
Lemma first_drop_none l b : first_drop l b = None -> Forall (fun d => d b = None) l.
Proof. induction l as [|d l IH]; cbn; [done|]. destruct (d b) eqn:E; [done|]. intros H. constructor; auto. Qed.
Lemma enforce_loop_run fuel budget b b' err : enforce_loop fuel budget b = Some (b', err) ->
  exists ks b1, drop_run budget ks b b1 /\ loop_end budget b1 b' err.
Proof.
  revert b. induction fuel as [|fuel IH]; intros b; cbn [enforce_loop]; destruct (projectionFitsRequestBudget (b_projection b) budget) as [[]|] eqn:Hf.
  all: try (intros [= <- <-]; exists [], b; split; [constructor|by constructor]).
  all: destruct (drop_next b) as [b1|] eqn:Hd; try done.
  1, 3: apply first_drop_none in Hd; unfold projectionFitsRequestBudget in Hf; destruct (measureProjectionRequest (b_projection b)) as [size|] eqn:Hs; [|done];
    intros [= <- <-]; exists [], b; (split; [constructor|]); refine (end_over budget b size _ Hs Hd); unfold projectionFitsRequestBudget; by rewrite Hs.
  intros (ks & b2 & Hr & He)%IH. apply drop_next_round in Hd as (k & d & Hk & Hd & F). exists (k :: ks), b2. split; [|done]. by econstructor.
Qed.
Lemma loop_end_projection budget b b' err : loop_end budget b b' err -> b_projection b' = b_projection b.
Proof. intros []; [done|done|]. unfold over_budget. by destruct (RequiredRequestSectionExceedsBudget _ _). Qed.
Lemma drop_run_invariant (R : building -> building -> Prop) budget :
  (forall b, R b b) -> (forall b1 b2 b3, R b1 b2 -> R b2 b3 -> R b1 b3) -> (forall b b', drop_next b = Some b' -> R b b') -> forall ks b b', drop_run budget ks b b' -> R b b'.
Proof.
  intros Hrefl Htrans HR ks b b'. induction 1 as [b|k d ks b b1 b2 _ Hk Hd F _ IH]; [done|]. refine (Htrans _ _ _ _ IH). apply HR.
  unfold drop_next. rewrite <- (take_drop_middle drops k d Hk). clear IH Hk. revert F. generalize (take k drops). intros l. induction 1 as [|d' l Hd' _ IH]; cbn; [by rewrite Hd|].
  by rewrite Hd'.
Qed.
Lemma drop_run_cut budget ks b b' : drop_run budget ks b b' -> projection_cut (b_projection b) (b_projection b').
Proof.
  apply (drop_run_invariant (fun b b' => projection_cut (b_projection b) (b_projection b'))); [by intros b1|intros b1 b2 b3; apply transitivity|].
  exact drop_next_cut.
Qed.
Lemma drop_run_keeps budget ks b b' : drop_run budget ks b b' -> sections_fit budget (b_projection b) -> sections_fit budget (b_projection b').
Proof.
  apply (drop_run_invariant (fun b b' => sections_fit budget (b_projection b) -> sections_fit budget (b_projection b'))); [by intros b1|by intros b1 b2 b3; auto|].
  intros b1 b2. apply drop_next_keeps.
Qed.

(** *** What is left of the classes, in their order *)
Definition exhausted : list (ContextProjection -> Prop) :=
  [fun p => pj_PlayerPreferences p = no_preferences;
   fun p => pj_RetrievedHistory p = [];
   fun p => hp_Sources (pj_History p) = [] /\ hp_SummaryText (pj_History p) = ""%string;
   fun p => pj_RecentExperiences p = [];
   fun p => match transcriptCausalGroups (pj_Transcript p) with Ok (_ :: _ :: _) => False | _ => True end;
   fun p => pj_RecentMemory p = [];
   fun p => Forall bare_fact (pj_Facts p);
   fun p => pe_Payload (pj_CurrentEvent p) = [];
   fun p => let o := pj_CurrentObservation p in po_NearbyEntities o = [] /\ po_Extensions o = [] /\ po_State o = [];
   fun p => pj_GameDefinition p = (minimalGameDefinition <$> pj_GameDefinition p);
   fun p => pj_AgentDefinition p = (minimalAgentDefinition <$> pj_AgentDefinition p)].
Lemma droppedFacts_none l : droppedFacts l = None <-> Forall bare_fact l.
Proof.
  unfold droppedFacts. split.
  - destruct (existsb _ l) eqn:Ha; [done|]. destruct (existsb has_text l) eqn:Ht; [done|]. intros _. apply Forall_forall. intros f Hf. split.
    + destruct (fp_Attributes f) eqn:E; [done|]. enough (existsb (fun f => nonempty (fp_Attributes f)) l = true) by congruence.
      apply existsb_exists. exists f. split; [by apply list_elem_of_In|by rewrite E].
    + destruct (has_text f) eqn:E; [|unfold has_text in E; boolp; tauto]. enough (existsb has_text l = true) by congruence.
      apply existsb_exists. exists f. split; [by apply list_elem_of_In|done].
  - intros F. rewrite Forall_forall in F. rewrite (existsb_false (fun f => nonempty (fp_Attributes f))), (existsb_false has_text); [done|..].
    + intros f [Ha Ht]%F. unfold has_text. destruct Ht as [-> | ->]; done.
    + intros f [Ha Ht]%F. by rewrite Ha.
Qed.
(** A class drops nothing exactly when nothing of it is left. *)
Lemma drops_exhausted : Forall2 (fun d (e : ContextProjection -> Prop) => forall b, d b = None <-> e (b_projection b)) drops exhausted.
Proof.
  unfold drops, exhausted. repeat (apply Forall2_cons_2 || apply Forall2_nil_2); intros b.
  - unfold dropPreferences. case_bool_decide; naive_solver.
  - unfold dropRetrievedHistoryDisplay. destruct (pj_RetrievedHistory _); naive_solver.
  - unfold dropOldestHistoryDisplay. destruct (hp_Sources _); [case_bool_decide|]; naive_solver.
  - unfold dropExperience. destruct (pj_RecentExperiences _); naive_solver.
  - unfold dropOldestTranscriptGroup. destruct (pj_Transcript _) eqn:E; [done|]. destruct (transcriptCausalGroups _) as [[|g [|g2 gs]]|]; naive_solver.
  - unfold dropOldestRecentMemory. destruct (pj_RecentMemory _); naive_solver.
  - unfold dropContextFactOptionalFields. rewrite <- droppedFacts_none. destruct (droppedFacts _); cbn; naive_solver.
  - unfold dropEventPayload. destruct (pe_Payload _); naive_solver.
  - unfold dropObservationOptionalFields. cbv zeta. destruct (po_NearbyEntities _), (po_Extensions _), (po_State _); cbn; naive_solver.
  - unfold dropGameDefinitionOptionalFields. case_bool_decide; naive_solver.
  - unfold dropAgentDefinitionOptionalFields. case_bool_decide; naive_solver.
Qed.
(** The part of the projection each class drops from. *)
Definition same_part : list (ContextProjection -> ContextProjection -> Prop) :=
  [fun p p' => pj_PlayerPreferences p' = pj_PlayerPreferences p; fun p p' => pj_RetrievedHistory p' = pj_RetrievedHistory p;
   fun p p' => pj_History p' = pj_History p; fun p p' => pj_RecentExperiences p' = pj_RecentExperiences p;
   fun p p' => pj_Transcript p' = pj_Transcript p; fun p p' => pj_RecentMemory p' = pj_RecentMemory p; fun p p' => pj_Facts p' = pj_Facts p;
   fun p p' => pj_CurrentEvent p' = pj_CurrentEvent p; fun p p' => pj_CurrentObservation p' = pj_CurrentObservation p;
   fun p p' => pj_GameDefinition p' = pj_GameDefinition p; fun p p' => pj_AgentDefinition p' = pj_AgentDefinition p].
Lemma drop_other_part k d b b1 : drops !! k = Some d -> d b = Some b1 ->
  forall i same, i <> k -> same_part !! i = Some same -> same (b_projection b) (b_projection b1).
Proof.
  intros Hk Hd. destruct k as [|[|[|[|[|[|[|[|[|[|[|k]]]]]]]]]]]; try done; injection Hk as <-.
  all: unfold dropPreferences, dropRetrievedHistoryDisplay, dropOldestHistoryDisplay, dropExperience, dropOldestTranscriptGroup, dropOldestRecentMemory,
    dropContextFactOptionalFields, dropEventPayload, dropObservationOptionalFields, dropGameDefinitionOptionalFields, dropAgentDefinitionOptionalFields in Hd.
  all: try match type of Hd with context [droppedFacts ?l] => destruct (droppedFacts l); cbn [fmap option_fmap option_map] in Hd end.
  all: repeat case_match; try done; injection Hd as <-; intros i same Hi Hs.
  all: do 11 (destruct i as [|i]; [injection Hs as <-; done|]); done.
Qed.
(** [exhausted] looks at its own part only. *)
Lemma exhausted_part p p' i e same : exhausted !! i = Some e -> same_part !! i = Some same -> same p p' -> e p -> e p'.
Proof.
  intros He Hs. do 11 (destruct i as [|i]; [injection He as <-; injection Hs as <-; by intros ->|]). done.
Qed.
Definition exhausted_below (m : nat) (p : ContextProjection) : Prop := forall i e, i < m -> exhausted !! i = Some e -> e p.
Lemma exhausted_below_drop m k d b b1 : m <= k -> drops !! k = Some d -> d b = Some b1 ->
  exhausted_below m (b_projection b) -> exhausted_below m (b_projection b1).
Proof.
  intros Hm Hk Hd Hb i e Hi He. destruct (lookup_lt_is_Some_2 same_part i) as [same Hs]; [by apply lookup_lt_Some in He|].
  refine (exhausted_part _ _ i e same He Hs _ (Hb i e Hi He)). eapply drop_other_part; [done..| |done]. lia.
Qed.
Lemma none_below k b : Forall (fun d => d b = None) (take k drops) -> exhausted_below k (b_projection b).
Proof.
  intros F i e Hi He. destruct (Forall2_lookup_r _ _ _ _ _ drops_exhausted He) as (d & Hd & Hiff). apply Hiff.
  rewrite Forall_lookup in F. apply (F i). by rewrite lookup_take_lt.
Qed.
Lemma drop_not_exhausted k d b b1 e : drops !! k = Some d -> d b = Some b1 -> exhausted !! k = Some e -> ~ e (b_projection b).
Proof.
  intros Hk Hd He. destruct (Forall2_lookup_r _ _ _ _ _ drops_exhausted He) as (d' & Hd' & Hiff). simplify_eq. rewrite <- Hiff. by rewrite Hd.
Qed.
Lemma drop_run_below budget ks b b' : drop_run budget ks b b' -> forall m, Forall (fun k => m <= k) ks ->
  exhausted_below m (b_projection b) -> exhausted_below m (b_projection b').
Proof.
  induction 1 as [b|k d ks b b1 b2 _ Hk Hd F Hr IH]; intros m Hks Hm; [done|]. apply Forall_cons in Hks as [? ?]. apply IH; [done|].
  by eapply exhausted_below_drop.
Qed.
Lemma drop_run_sorted budget ks b b' : drop_run budget ks b b' -> forall m, exhausted_below m (b_projection b) ->
  Forall (fun k => m <= k) ks /\ StronglySorted le ks /\ (forall k, k ∈ ks -> exhausted_below k (b_projection b')).
Proof.
  induction 1 as [b|k d ks b b1 b2 _ Hk Hd F Hr IH]; intros m Hm; [split_and!; [constructor..|by intros k ?%not_elem_of_nil]|].
  assert (Hmk : m <= k).
  { destruct (decide (k < m)) as [Hlt|]; [|lia]. destruct (lookup_lt_is_Some_2 exhausted k) as [e He]; [by apply lookup_lt_Some in Hk|].
    exfalso. by eapply (drop_not_exhausted k d b b1 e), Hm. }
  destruct (IH k) as (Hks & Hs & Hx); [by eapply exhausted_below_drop, none_below|].
  assert (Hkb : exhausted_below k (b_projection b2)).
  { eapply drop_run_below; [exact Hr|exact Hks|]. by eapply exhausted_below_drop, none_below. }
  split_and!; [constructor; [done|]; eapply Forall_impl; [exact Hks|]; intros; cbn in *; lia|by constructor|].
  intros k' [-> |Hin]%elem_of_cons; [done|]. by apply Hx.
Qed.
Lemma drop_run_untouched budget ks b b' : drop_run budget ks b b' -> forall k same, k ∉ ks -> same_part !! k = Some same ->
  same (b_projection b) (b_projection b').
Proof.
  induction 1 as [b|k d ks b b1 b2 _ Hk Hd F Hr IH]; intros i same Hi Hs.
  - do 11 (destruct i as [|i]; [by injection Hs as <-|]). done.
  - apply not_elem_of_cons in Hi as [Hne Hi]. pose proof (drop_other_part _ _ _ _ Hk Hd i same Hne Hs) as H1. specialize (IH i same Hi Hs).
    do 11 (destruct i as [|i]; [injection Hs as <-; cbn in *; congruence|]). done.
Qed.
Lemma enforce_run budget b : exists b' err ks b1, enforceGlobalRequestBudget budget b = Some (b', err) /\ drop_run budget ks b b1 /\ loop_end budget b1 b' err.
Proof.
  destruct (enforce_loop_ends (droppable (b_projection b)) budget b) as [[b' err] E]; [done|].
  destruct (enforce_loop_run _ _ _ _ _ E) as (ks & b1 & H1 & H2). by exists b', err, ks, b1.
Qed.
(** C21: [enforceGlobalRequestBudget] always ends.  What it drops, it drops round by round
    while the request does not fit, in the fixed order of its classes (player
    preferences, retrieved history, history, experiences, transcript, memories, facts,
    event payload, observation, game, agent definition): a class is touched only when
    nothing is left of those before it, a class no round came to is as it was.  It ends without error exactly with a request
    that fits, and with the budget error only when nothing optional is left at all. *)
Theorem optional_content_goes_in_order budget b : exists b' err ks b1,
  enforceGlobalRequestBudget budget b = Some (b', err) /\ drop_run budget ks b b1 /\ loop_end budget b1 b' err
  /\ b_projection b' = b_projection b1 /\ StronglySorted le ks
  /\ (forall k i e, k ∈ ks -> i < k -> exhausted !! i = Some e -> e (b_projection b'))
  /\ (forall k same, k ∉ ks -> same_part !! k = Some same -> same (b_projection b) (b_projection b'))
  /\ (err = None <-> projectionFitsRequestBudget (b_projection b') budget = Some true)
  /\ (forall text, err = Some (ErrBudgetExceeded text) -> Forall (fun e : ContextProjection -> Prop => e (b_projection b')) exhausted).
Proof.
  destruct (enforce_run budget b) as (b' & err & ks & b1 & HE & Hr & Hend). exists b', err, ks, b1.
  pose proof (loop_end_projection _ _ _ _ Hend) as Hp. rewrite Hp.
  destruct (drop_run_sorted _ _ _ _ Hr 0) as (_ & Hs & Hx); [intros i e Hi; lia|].
  split_and!; try done; [intros k i e Hk; by apply Hx|by eapply drop_run_untouched|..].
  - split; [by intros ->; inversion Hend|]. intros Hf. inversion Hend; congruence.
  - intros text ->. apply Forall_lookup. intros i e He. inversion Hend as [| |size _ _ F]; subst.
    refine (none_below 11 b1 _ i e _ He); [by rewrite take_ge|by apply lookup_lt_Some in He].
Qed.
(** ** The sections, each in its budget *)
Ltac cut_one := split; try first [done|by left].
Lemma cut_set_event e p : event_cut (pj_CurrentEvent p) e -> projection_cut p (set_event e p).
Proof. intros H. cut_one. Qed.
Lemma cut_set_observation o p : observation_cut (pj_CurrentObservation p) o -> projection_cut p (set_observation o p).
Proof. intros H. cut_one. Qed.
Lemma cut_set_facts l p : Forall2 fact_cut (pj_Facts p) l -> projection_cut p (set_facts l p).
Proof. intros H. cut_one. Qed.
Lemma cut_set_task t p : opt_cut task_cut (pj_Task p) t -> projection_cut p (set_task t p).
Proof. intros H. cut_one. Qed.
Lemma cut_set_definitions a g p : opt_cut agent_cut (pj_AgentDefinition p) a -> opt_cut game_cut (pj_GameDefinition p) g ->
  projection_cut p (set_agent a (set_game g p)).
Proof. intros Ha Hg. cut_one. Qed.

Lemma set_same_event p : p = set_event (pj_CurrentEvent p) p.
Proof. by destruct p. Qed.
Lemma set_same_observation p : p = set_observation (pj_CurrentObservation p) p.
Proof. by destruct p. Qed.
Lemma set_same_facts p : p = set_facts (pj_Facts p) p.
Proof. by destruct p. Qed.
Lemma bound_definitions_ok budget b b' err : bound_definitions budget b = (b', err) -> exists a g,
  b_projection b' = set_agent a (set_game g (b_projection b)) /\ projection_cut (b_projection b) (b_projection b')
  /\ (err = None -> within (MaxDefinitionTokens budget) (definitionBudgetEstimatedTokens a g)).
Proof.
  unfold bound_definitions. destruct (applyDefinitionBudget _ _ _) as [[[a g] [ca cg]] e] eqn:E. apply applyDefinitionBudget_ok in E as (Ha & Hg & Hfit).
  intros H. exists a, g. assert (Hp : b_projection b' = set_agent a (set_game g (b_projection b))) by (destruct ca, cg, e; by injection H as <- <-).
  split_and!; [done|rewrite Hp; by apply cut_set_definitions|]. intros ->. destruct e; [done|]. intros Hl. by apply Hfit.
Qed.
Lemma bound_event_ok budget b : exists e, b_projection (bound_event budget b) = set_event e (b_projection b) /\ event_cut (pj_CurrentEvent (b_projection b)) e.
Proof.
  unfold bound_event. destruct (over _ _).
  - eexists. split; [done|]. eexists. split; [done|]. by right; right.
  - eexists. split; [apply set_same_event|apply event_cut_refl].
Qed.
Lemma bound_observation_ok budget b : exists o, b_projection (bound_observation budget b) = set_observation o (b_projection b)
  /\ observation_cut (pj_CurrentObservation (b_projection b)) o.
Proof.
  unfold bound_observation. destruct (over _ _).
  - eexists. split; [done|]. right. eexists. split; [done|]. destruct (nonempty _); [by right; right|by left].
  - eexists. split; [apply set_same_observation|by left].
Qed.
Lemma or_same_facts b : exists l, b_projection (or_same dropContextFactOptionalFields b) = set_facts l (b_projection b)
  /\ Forall2 fact_cut (pj_Facts (b_projection b)) l.
Proof.
  unfold or_same, dropContextFactOptionalFields. destruct (droppedFacts _) as [l|] eqn:E; cbn [fmap option_fmap option_map default].
  - exists l. split; [done|]. by apply droppedFacts_cut.
  - exists (pj_Facts (b_projection b)). split; [by destruct (b_projection b)|done].
Qed.
Lemma or_same_event b : exists e, b_projection (or_same dropEventPayload b) = set_event e (b_projection b) /\ event_cut (pj_CurrentEvent (b_projection b)) e.
Proof.
  unfold or_same, dropEventPayload. destruct (pe_Payload _) eqn:E; cbn [default].
  - eexists. split; [apply set_same_event|apply event_cut_refl].
  - eexists. split; [done|]. eexists. split; [done|]. by right; left.
Qed.
Lemma or_same_observation b : exists o, b_projection (or_same dropObservationOptionalFields b) = set_observation o (b_projection b)
  /\ observation_cut (pj_CurrentObservation (b_projection b)) o.
Proof.
  unfold or_same, dropObservationOptionalFields. destruct (_ || _); cbn [default].
  - eexists. split; [done|]. right. eexists. split; [done|]. by right; left.
  - eexists. split; [apply set_same_observation|by left].
Qed.
Lemma bound_facts_ok budget b : exists l, b_projection (bound_facts budget b) = set_facts l (b_projection b)
  /\ Forall2 fact_cut (pj_Facts (b_projection b)) l.
Proof.
  unfold bound_facts. destruct (over _ _); [apply or_same_facts|]. exists (pj_Facts (b_projection b)). split; [by destruct (b_projection b)|done].
Qed.
(** *** The task *)
Lemma first_crop_ok budget t report crops t' report' err : first_crop budget t report crops = (t', report', err) ->
  (t' = t \/ t' ∈ crops.*1) /\ (err = None -> (estimateTaskProjection (Some t') <= budget)%Z).
Proof.
  revert t report. induction crops as [|[t1 r1] crops IH]; intros t report; cbn; [intros [= <- <- <-]; split; [by left|done]|].
  destruct (_ <=? _)%Z eqn:E; [intros [= <- <- <-]; split; [right; by left|intros _; by apply Z.leb_le]|].
  intros [H1 H2]%IH. split; [|done]. right. destruct H1 as [-> |H1]; [by left|by right].
Qed.
Lemma task_crops_cut t : Forall (task_cut t) (task_crops t).*1.
Proof.
  unfold task_crops. cbv zeta. rewrite !fmap_app, !Forall_app. split_and!.
  - destruct (negb _); [|constructor]. constructor; [|constructor]. exists "", (tk_RecentResults t). split_and!; [done|by right|by left].
  - apply Forall_fmap, Forall_fmap, Forall_true. intros k. eexists "", _. split_and!; [done|by right|left; apply prefix_take].
  - destruct (tk_RecentResults t) as [|r l] eqn:E; [constructor|]. destruct (tp_EvidenceRefs r); [constructor|]. constructor; [|constructor].
    exists "", [without_refs r]. split_and!; [done|by right|]. right. exists r. by rewrite E.
Qed.
Lemma boundTaskContext_ok t budget t' report err : boundTaskContext t budget = (t', report, err) ->
  task_cut t t' /\ (err = None -> (estimateTaskProjection (Some t') <= positiveOrDefault budget defaultMaxTaskContextTokens)%Z).
Proof.
  unfold boundTaskContext. destruct (_ <=? _)%Z eqn:E; [intros [= <- <- <-]; split; [apply task_cut_refl|intros _; by apply Z.leb_le]|].
  intros [H1 H2]%first_crop_ok. split; [|done]. destruct H1 as [-> |H1]; [apply task_cut_refl|]. pose proof (task_crops_cut t) as F. rewrite Forall_forall in F. by apply F.
Qed.
Lemma bound_task_ok budget b err b' err' : bound_task budget (b, err) = (b', err') -> exists t, b_projection b' = set_task t (b_projection b)
  /\ opt_cut task_cut (pj_Task (b_projection b)) t
  /\ (err' = None -> err = None /\ (estimateTaskProjection t <= positiveOrDefault (MaxTaskContextTokens budget) defaultMaxTaskContextTokens)%Z).
Proof.
  unfold bound_task. destruct (pj_Task (b_projection b)) as [t|] eqn:Et.
  - destruct (boundTaskContext t _) as [[t' report] e] eqn:E. apply boundTaskContext_ok in E as [Hc He]. intros H. exists (Some t').
    destruct (kt_Cropped report), e as [e|]; injection H as <- <-; (split_and!; [done|done|]); try (by intros ->; split; [|apply He]); destruct err; done.
  - intros [= <- <-]. exists None. split_and!; [rewrite <- Et; by destruct (b_projection b)|done|]. intros ->. split; [done|].
    unfold positiveOrDefault. change (estimateTaskProjection None) with 0%Z. case_match; boolp; [lia|done].
Qed.
Lemma require_section_ok limit tokens f section reason message b err b' err' :
  require_section limit tokens f section reason message (b, err) = (b', err') ->
  (b_projection b' = b_projection b \/ b_projection b' = b_projection (or_same f b))
  /\ (err' = None -> err = None /\ within limit (tokens (b_projection b'))).
Proof.
  unfold require_section. destruct (over limit (tokens (b_projection b))) eqn:E1; cbn [negb].
  - destruct (over limit (tokens (b_projection (or_same f b)))) eqn:E2; intros [= <- <-]; (split; [by right|]).
    + by destruct err.
    + intros ->. split; [done|]. by apply over_within.
  - intros [= <- <-]. split; [by left|]. intros ->. split; [done|]. by apply over_within.
Qed.
Lemma enforceRequired_ok budget b b' err : enforceRequiredSectionBudgets budget b = (b', err) -> exists e o l,
  b_projection b' = set_facts l (set_observation o (set_event e (b_projection b)))
  /\ event_cut (pj_CurrentEvent (b_projection b)) e /\ observation_cut (pj_CurrentObservation (b_projection b)) o /\ Forall2 fact_cut (pj_Facts (b_projection b)) l
  /\ (err = None -> within (MaxEventTokens budget) (event_tokens (b_projection b')) /\ within (MaxObservationTokens budget) (observation_tokens (b_projection b'))
        /\ within (MaxContextFactsTokens budget) (facts_tokens (b_projection b'))).
Proof.
  unfold enforceRequiredSectionBudgets. destruct (require_section _ event_tokens _ _ _ _ _) as [b1 e1] eqn:E1. destruct (require_section _ observation_tokens _ _ _ _ _) as [b2 e2] eqn:E2.
  intros E3. apply require_section_ok in E1 as [H1 F1], E2 as [H2 F2], E3 as [H3 F3].
  assert (He : exists e, b_projection b1 = set_event e (b_projection b) /\ event_cut (pj_CurrentEvent (b_projection b)) e).
  { destruct H1 as [-> | ->]; [exists (pj_CurrentEvent (b_projection b)); split; [apply set_same_event|apply event_cut_refl]|apply or_same_event]. }
  assert (Ho : exists o, b_projection b2 = set_observation o (b_projection b1) /\ observation_cut (pj_CurrentObservation (b_projection b1)) o).
  { destruct H2 as [-> | ->]; [exists (pj_CurrentObservation (b_projection b1)); split; [apply set_same_observation|by left]|apply or_same_observation]. }
  assert (Hl : exists l, b_projection b' = set_facts l (b_projection b2) /\ Forall2 fact_cut (pj_Facts (b_projection b2)) l).
  { destruct H3 as [-> | ->]; [exists (pj_Facts (b_projection b2)); split; [apply set_same_facts|done]|apply or_same_facts]. }
  destruct He as (e & P1 & C1), Ho as (o & P2 & C2), Hl as (l & P3 & C3). exists e, o, l. rewrite P1 in C2. rewrite P2, P1 in C3. split_and!; [by rewrite P3, P2, P1|done..|].
  intros (-> & W3)%F3. destruct (F2 eq_refl) as (-> & W2). destruct (F1 eq_refl) as (_ & W1).
  rewrite P1 in W1. rewrite P2, P1 in W2. rewrite P3, P2, P1 in W3 |- *. done.
Qed.
(** The sections taken together. *)
Lemma bound_sections_ok budget b b' err : bound_sections budget b = (b', err) ->
  projection_cut (b_projection b) (b_projection b') /\ (err = None -> sections_fit budget (b_projection b')).
Proof.
  unfold bound_sections. destruct (bound_definitions budget b) as [b1 e1] eqn:E1. apply bound_definitions_ok in E1 as (a & g & P1 & C1 & F1).
  destruct (bound_event_ok budget b1) as (e & P2 & C2). set (b2 := bound_event budget b1) in *.
  destruct (bound_observation_ok budget b2) as (o & P3 & C3). set (b3 := bound_observation budget b2) in *.
  destruct (bound_facts_ok budget b3) as (l & P4 & C4). set (b4 := bound_facts budget b3) in *.
  destruct (bound_task budget (b4, e1)) as [b5 e5] eqn:E5. apply bound_task_ok in E5 as (t & P5 & C5 & F5).
  destruct (enforceRequiredSectionBudgets budget b5) as [b6 e6] eqn:E6. apply enforceRequired_ok in E6 as (e' & o' & l' & P6 & C6 & C7 & C8 & F6).
  intros [= <- <-]. split.
  - apply cut_set_event in C2. apply cut_set_observation in C3. apply cut_set_facts in C4. apply cut_set_task in C5. rewrite <- P2 in C2.
    rewrite <- P3 in C3. rewrite <- P4 in C4. rewrite <- P5 in C5. rewrite P6.
    etrans; [exact C1|]. etrans; [exact C2|]. etrans; [exact C3|]. etrans; [exact C4|]. etrans; [exact C5|].
    etrans; [by apply (cut_set_event e')|]. etrans; [by apply (cut_set_observation o')|]. by apply (cut_set_facts l').
  - intros H. assert (Hn : e5 = None /\ e6 = None) by by destruct e5, e6. destruct Hn as [-> ->].
    destruct (F6 eq_refl) as (W1 & W2 & W3). destruct (F5 eq_refl) as (-> & W4). split; [|done|done|by left|]; rewrite P6, P5, P4, P3, P2, P1; cbn; [by apply F1|done].
Qed.

(** A request that fits is measured and within its three budgets. *)
Definition request_within (budget : BudgetConfig) (p : ContextProjection) : Prop := exists size, measureProjectionRequest p = Some size
  /\ within (MaxSystemTokens budget) (sz_System size) /\ within (MaxUserMessageTokens budget) (sz_UserMessage size) /\ within (MaxRequestTokens budget) (sz_Total size).
Lemma fits_within budget p : projectionFitsRequestBudget p budget = Some true <-> request_within budget p.
Proof.
  unfold projectionFitsRequestBudget, request_within. destruct (measureProjectionRequest p) as [size|]; [|split; [done|by intros (? & ? & _)]].
  unfold RequestEstimatedTokensExceedBudget. split.
  - intros [= Hf]. exists size. split; [done|]. rewrite <- !over_within. apply negb_true_iff in Hf. rewrite !orb_false_iff in Hf. tauto.
  - intros (? & [= <-] & H). rewrite <- !over_within in H. destruct H as (H1 & H2 & H3).
    cbn. by rewrite H1, H2, H3.
Qed.
Lemma apply_budgets_ok p budget report : exists p' report' err,
  applyProjectionBudgets p budget report = Some (p', report', err) /\ projection_cut p p'
  /\ (err = None -> sections_fit budget p' /\ request_within budget p').
Proof.
  unfold applyProjectionBudgets. match goal with |- context [bound_sections budget ?b0] => set (b := b0) end.
  destruct (bound_sections budget b) as [b1 [e|]] eqn:E; apply bound_sections_ok in E as [C1 F1].
  - by exists (b_projection b1); do 2 eexists.
  - destruct (enforce_run budget b1) as (b2 & err & ks & b3 & HE & Hr & Hend). rewrite HE. pose proof (loop_end_projection _ _ _ _ Hend) as Hp.
    exists (b_projection b2). do 2 eexists. split; [done|]. rewrite Hp. split; [etrans; [exact C1|by eapply drop_run_cut]|].
    intros ->. split; [eapply drop_run_keeps; [done|by apply F1]|]. inversion Hend as [Hf| |]; subst. by apply fits_within.
Qed.
(** A projection is always brought into its budgets or refused.  [applyProjectionBudgets]
    ends; whatever it answers, the projection differs from the one it was given only by
    cuts: lists keep their first or last entries, a transcript its last causal groups,
    texts are kept, emptied or replaced by their marker, and identity, policy,
    instruction, tools and knowledge stay.  Without an error the rendered request is within the
    system, message and request budgets, and definitions, event, observation, task and facts
    are within theirs, or of the facts nothing optional is left. *)
Theorem projection_is_cut_to_fit p budget report : exists p' report' err,
  applyProjectionBudgets p budget report = Some (p', report', err) /\ projection_cut p p'
  /\ (err = None -> sections_fit budget p' /\ exists size, measureProjectionRequest p' = Some size
        /\ within (MaxSystemTokens budget) (sz_System size) /\ within (MaxUserMessageTokens budget) (sz_UserMessage size)
        /\ within (MaxRequestTokens budget) (sz_Total size)).
Proof. apply apply_budgets_ok. Qed.

(** Dropping a text that is shorter than its marker makes the section larger. *)
Example dropping_a_short_text_grows :
  let fact text := {| fp_Kind := "seen"; fp_ActorEntityID := ""; fp_TargetEntityID := ""; fp_ScopeID := ""; fp_Text := text; fp_Label := ""; fp_Attributes := [] |} in
  droppedFacts [fact "ok"] = Some [fact truncatedMarker]
  /\ (EstimateText (marshalFacts [fact "ok"]) < EstimateText (marshalFacts [fact truncatedMarker]))%Z.
Proof. split; [reflexivity|]. vm_compute. reflexivity. Qed.
