(* ===== verification/Shown.v ===== *)
(** * What of a turn is shown

    The transcript keeps its latest exchanges, parsed tool arguments and results keep to
    their depth, width and size, and background knowledge to its limits. *)

From S2P Require Export Fitting.

Local Open Scope go_scope.

(** ** The transcript *)
Lemma sum_of_app {A} (f : A -> Z) l1 l2 : sum_of f (l1 ++ l2) = (sum_of f l1 + sum_of f l2)%Z.
Proof. unfold sum_of. induction l1 as [|x l1 IH]; cbn; [done|]. rewrite IH. lia. Qed.
Lemma sum_of_cons {A} (f : A -> Z) x l : sum_of f (x :: l) = (f x + sum_of f l)%Z.
Proof. done. Qed.
Lemma sum_of_reverse {A} (f : A -> Z) l : sum_of f (reverse l) = sum_of f l.
Proof. induction l as [|x l IH]; [done|]. rewrite reverse_cons, sum_of_app, IH, !sum_of_cons. cbn. lia. Qed.
Lemma take_reverse {A} n (l : list A) : take n (reverse l) = reverse (drop (length l - n) l).
Proof.
  destruct (decide (n <= length l)).
  - rewrite <- (take_drop (length l - n) l) at 1. rewrite reverse_app, take_app_length'; [done|]. rewrite length_reverse, length_drop. lia.
  - replace (length l - n) with 0 by lia. by rewrite drop_0, take_ge by (rewrite length_reverse; lia).
Qed.
Lemma fitting_groups_spec limit latest : forall total, (total <= limit)%Z ->
  let n := fitting_groups limit total latest in
  n <= length latest /\ (total + sum_of messages_tokens (take n latest) <= limit)%Z
  /\ (n < length latest -> (limit < total + sum_of messages_tokens (take (S n) latest))%Z).
Proof.
  induction latest as [|g latest IH]; intros total Ht; cbn [fitting_groups]; [cbn; lia|].
  destruct (limit <? total + messages_tokens g)%Z eqn:E; boolp.
  - cbn [take length]. rewrite take_0, sum_of_cons. cbn. lia.
  - destruct (IH (total + messages_tokens g)%Z) as (H1 & H2 & H3); [lia|]. cbn [take length]. rewrite !sum_of_cons. split_and!; [lia|lia|]. intros H. specialize (H3 ltac:(lia)).
    cbn [take] in *. lia.
Qed.
Definition group_tokens (gs : list (list model_Message)) : Z := sum_of messages_tokens gs.
Lemma trim_ok groups limit kept dropped : trimTranscriptGroups groups limit = Ok (kept, dropped) -> exists k,
  kept = concat (drop k groups) /\ dropped = Z.of_nat (length (concat (take k groups))) /\ k <= length groups
  /\ (groups <> [] -> k < length groups) /\ ((limit <= 0)%Z -> k = 0)
  /\ ((0 < limit)%Z -> (group_tokens (drop k groups) <= limit)%Z /\ (0 < k -> (limit < group_tokens (drop (k - 1) groups))%Z)).
Proof.
  unfold trimTranscriptGroups. destruct groups as [|g gs] eqn:Eg; [intros [= <- <-]; exists 0; split_and!; try done; cbn; lia|].
  rewrite <- Eg. assert (Hne : 0 < length groups) by (subst; cbn; lia). clear Eg.
  destruct (limit <=? 0)%Z eqn:El; boolp; [intros [= <- <-]; exists 0; split_and!; [done|done|lia..]|].
  destruct (fitting_groups_spec limit (reverse groups) 0) as (H1 & H2 & H3); [lia|]. rewrite length_reverse in *.
  destruct (fitting_groups limit 0 (reverse groups)) as [|n]; [done|]. intros [= <- <-]. exists (length groups - S n).
  rewrite take_reverse, sum_of_reverse in H2. split_and!; [done|done|lia|lia|lia|].
  intros _. split; [exact H2|]. intros Hk. specialize (H3 ltac:(lia)). rewrite take_reverse, sum_of_reverse in H3.
  by replace (length groups - S n - 1) with (length groups - S (S n)) by lia.
Qed.
Lemma trim_err groups limit e : trimTranscriptGroups groups limit = Err e -> exists gs g, groups = gs ++ [g]
  /\ (0 < limit < messages_tokens g)%Z /\ e = ErrBudgetExceeded "latest transcript causal group exceeds token budget".
Proof.
  unfold trimTranscriptGroups. destruct groups as [|g0 gs0] eqn:Eg; [done|]. rewrite <- Eg. destruct (limit <=? 0)%Z eqn:El; boolp; [done|].
  destruct (exists_last (l := groups)) as (gs & g & ->); [by rewrite Eg|]. clear Eg. rewrite reverse_snoc. cbn [fitting_groups].
  destruct (limit <? 0 + messages_tokens g)%Z eqn:E; boolp; [|done]. intros [= <-]. exists gs, g. split_and!; [done|lia|lia|done].
Qed.
(** What is kept is a run of whole groups within the limit. *)
Lemma transcript_limits ms bounds limit kept report : projectCurrentTurnTranscript ms bounds limit = (kept, report, None) ->
  exists gs, Forall causal_group gs /\ kept = concat gs /\ ((0 < limit)%Z -> (group_tokens gs <= limit)%Z).
Proof.
  unfold projectCurrentTurnTranscript. destruct ms as [|m0 ms0] eqn:Em; [intros [= <- _]; exists []; split_and!; [constructor|done|cbn; lia]|]. rewrite <- Em.
  destruct (transcriptCausalGroups _) as [gs|e] eqn:Eg; [|done]. apply groups_sound in Eg as [_ F].
  destruct (trimTranscriptGroups gs limit) as [[l dropped]|e] eqn:Et; [|done]. intros [= <- _].
  apply trim_ok in Et as (k & -> & _ & _ & _ & _ & Hfit). exists (drop k gs). split_and!; [by apply Forall_drop|done|]. intros Hl. by apply Hfit.
Qed.
Lemma group_tokens_drop k gs : (group_tokens (drop k gs) <= group_tokens gs)%Z.
Proof.
  rewrite <- (take_drop k gs) at 2. unfold group_tokens. rewrite sum_of_app. enough (0 <= sum_of messages_tokens (take k gs))%Z by lia.
  induction (take k gs) as [|g l IH]; [done|]. rewrite sum_of_cons. pose proof (EstimateText_nonneg (marshalMessages g)). unfold messages_tokens at 1. lia.
Qed.
(** C31: The transcript keeps its latest exchanges.  What [projectCurrentTurnTranscript]
    keeps are whole causal groups, a message or a call with its results: the longest run of
    the last ones that is within the limit, at least one of a transcript that is not
    empty, and all of them without a limit; the report counts every message.  It refuses only a
    transcript that does not pair its calls with results, or one whose last group alone
    is over the limit. *)
Theorem transcript_keeps_the_latest ms bounds limit :
  let out := projectTranscriptMessage bounds <$> ms in
  match projectCurrentTurnTranscript ms bounds limit with
  | (kept, report, None) => exists gs k, transcriptCausalGroups out = Ok gs /\ Forall causal_group gs /\ concat gs = out
      /\ kept = concat (drop k gs) /\ k <= length gs /\ (ms <> [] -> k < length gs)
      /\ rt_RetainedCount report = Z.of_nat (length kept) /\ (rt_RetainedCount report + rt_DroppedCount report = Z.of_nat (length ms))%Z
      /\ ((limit <= 0)%Z -> kept = out)
      /\ ((0 < limit)%Z -> (group_tokens (drop k gs) <= limit)%Z /\ (0 < k -> (limit < group_tokens (drop (k - 1) gs))%Z))
  | (kept, _, Some e) => kept = []
      /\ (transcriptCausalGroups out = Err e
          \/ exists gs g, transcriptCausalGroups out = Ok (gs ++ [g]) /\ (0 < limit < messages_tokens g)%Z
               /\ e = ErrBudgetExceeded "latest transcript causal group exceeds token budget")
  end.
Proof.
  cbv zeta. unfold projectCurrentTurnTranscript. destruct ms as [|m0 ms0] eqn:Em.
  { exists [], 0. split_and!; try done; cbn; lia. }
  rewrite <- Em. set (out := _ <$> _).
  destruct (transcriptCausalGroups out) as [gs|e] eqn:Eg; [|split; [done|by left]]. pose proof (groups_sound _ _ Eg) as [Ec F].
  destruct (trimTranscriptGroups gs limit) as [[kept dropped]|e] eqn:Et.
  - destruct (trim_ok _ _ _ _ Et) as (k & Hk & Hd & Hle & Hlt & H0 & Hfit). exists gs, k.
    assert (Hgs : gs <> []) by (intros ->; cbn in Ec; by subst out; rewrite Em in Ec). cbn [rt_RetainedCount rt_DroppedCount].
    split_and!; try done; [auto|..].
    + rewrite Hk, Hd, <- Nat2Z.inj_add, Nat.add_comm, <- length_app, <- concat_app, take_drop, Ec. unfold out. by rewrite length_fmap, Em.
    + intros Hl. by rewrite Hk, (H0 Hl), <- Ec.
  - apply trim_err in Et as (gs' & g & -> & H1 & H2). split; [done|]. right. by exists gs', g.
Qed.

(** ** Tool arguments and results *)
(** No map or array below the depth, none wider than the limit and its note, and of
    numbers only the kinds a projection keeps. *)
Fixpoint json_bounded (b : projectionBounds) (depth : Z) (v : json_any) : bool :=
  match v with
  | JMap m => (depth <=? bn_maxDepth b)%Z && (Z.of_nat (length m) <=? bn_maxFields b + 1)%Z
              && forallb (fun p => json_bounded b (depth + 1)%Z p.2) m
  | JArray l => (depth <=? bn_maxDepth b)%Z && (Z.of_nat (length l) <=? bn_maxArrayItems b + 1)%Z && forallb (json_bounded b (depth + 1)%Z) l
  | JNumber kept _ => kept
  | _ => true
  end.
Section JsonInd.
Variable P : json_any -> Prop.
Hypothesis (Hnull : P JNull) (Hbool : forall b, P (JBool b)) (Hnumber : forall k t, P (JNumber k t)) (Hstring : forall s, P (JString s))
    (Harray : forall l, Forall P l -> P (JArray l)) (Hmap : forall m : any_map, Forall (fun p => P p.2) m -> P (JMap m)).
Fixpoint json_any_rect' (v : json_any) : P v :=
    match v with
    | JNull => Hnull
    | JBool b => Hbool b
    | JNumber k t => Hnumber k t
    | JString s => Hstring s
    | JArray l => Harray l ((fix go l := match l return Forall P l with [] => Forall_nil_2 _ | x :: l => Forall_cons_2 _ _ _ (json_any_rect' x) (go l) end) l)
    | JMap m => Hmap m ((fix go m := match m return Forall (fun p => P p.2) m with
                                      | [] => Forall_nil_2 _
                                      | p :: m => Forall_cons_2 (fun p => P p.2) p m (json_any_rect' p.2) (go m)
                                      end) m)
    end.
End JsonInd.
Definition positive_bounds (b : projectionBounds) : Prop :=
  (0 < bn_maxTokens b /\ 0 < bn_maxDepth b /\ 0 < bn_maxFields b /\ 0 < bn_maxArrayItems b)%Z.
Lemma config_bounds_positive config : positive_bounds (projectionBoundsFromEngineConfig config).
Proof. unfold positive_bounds, projectionBoundsFromEngineConfig, positiveOrDefault. cbn. split_and!; case_match; boolp; lia. Qed.
Lemma cut_limit_le {A} max (l : list A) : (0 < max)%Z -> (Z.of_nat (cut_limit max l) <= max)%Z /\ cut_limit max l <= length l.
Proof. intros H. unfold cut_limit. destruct (0 <? max)%Z eqn:E1, (max <? _)%Z eqn:E2; cbn; boolp; lia. Qed.
Lemma cut_limit_pos {A} max (l : list A) : (0 < max)%Z -> l <> [] -> 0 < cut_limit max l.
Proof. intros H Hl. unfold cut_limit. destruct l; [done|]. destruct (0 <? max)%Z eqn:E1, (max <? _)%Z eqn:E2; cbn; boolp; lia. Qed.
Lemma put_key_length k v m : length (put_key k v m) <= S (length m).
Proof.
  unfold put_key. rewrite length_app. cbn. enough (length (List.filter (fun p : string * json_any => p.1 != k) m) <= length m) by lia. apply List.filter_length_le.
Qed.
Lemma cut_fields_ok max m : (0 < max)%Z -> (Z.of_nat (length (cut_fields max m)) <= max + 1)%Z
  /\ (forall p, p ∈ cut_fields max m -> p ∈ m \/ p.2 = json_int (Z.of_nat (length m - cut_limit max m))) /\ (m <> [] -> cut_fields max m <> []).
Proof.
  intros Hmax. unfold cut_fields. cbv zeta. pose proof (sort_slice_perm by_name m) as Hp. set (s := sort_slice by_name m) in *.
  destruct (cut_limit_le max s Hmax) as [H1 H2]. assert (Hs : cut_limit max s = cut_limit max m) by (unfold cut_limit; by rewrite (Permutation_length Hp)).
  assert (Hin : forall p, p ∈ take (cut_limit max s) s -> p ∈ m).
  { intros p Hin. rewrite <- Hp. by eapply elem_of_take in Hin as (i & Hi & _); apply list_elem_of_lookup_2 in Hi. }
  destruct (cut_limit max s <? length s)%nat eqn:E; boolp.
  - split_and!.
    + pose proof (put_key_length "_truncated_fields" (json_int (Z.of_nat (length s - cut_limit max s))) (take (cut_limit max s) s)) as Hk.
      rewrite length_take in Hk. lia.
    + intros p. unfold put_key. rewrite elem_of_app. intros [Hf|Hf].
      * left. apply Hin. apply list_elem_of_In, List.filter_In in Hf as [Hf _]. by apply list_elem_of_In.
      * right. apply list_elem_of_singleton in Hf as ->. cbn. by rewrite <- Hs, (Permutation_length Hp).
    + intros _. unfold put_key. by destruct (List.filter _ _).
  - split_and!; [rewrite length_take; lia|by left; apply Hin|]. intros Hm. pose proof (cut_limit_pos max m Hmax Hm) as Hpos. rewrite <- Hs in Hpos.
    intros Hn. apply (f_equal length) in Hn. rewrite length_take in Hn. cbn in Hn. lia.
Qed.
Lemma cut_items_ok max l : (0 < max)%Z -> (Z.of_nat (length (cut_items max l)) <= max + 1)%Z
  /\ (forall v, v ∈ cut_items max l -> v ∈ l \/ exists s, v = JString s).
Proof.
  intros Hmax. unfold cut_items. cbv zeta. destruct (cut_limit_le max l Hmax) as [H1 H2].
  assert (Hin : forall v, v ∈ take (cut_limit max l) l -> v ∈ l).
  { intros v Hin. by eapply elem_of_take in Hin as (i & Hi & _); apply list_elem_of_lookup_2 in Hi. }
  destruct (cut_limit max l <? length l)%nat eqn:E; boolp.
  - split; [rewrite length_app, length_take; cbn; lia|]. intros v [Hv|Hv]%elem_of_app; [by left; apply Hin|]. right. apply list_elem_of_singleton in Hv as ->. eauto.
  - split; [rewrite length_take; lia|]. by left; apply Hin.
Qed.
Lemma projected_bounded b v : positive_bounds b -> forall depth, json_bounded b depth (projectOutputValue b depth v) = true.
Proof.
  intros (_ & Hd & Hf & Hi). assert (Hdeep : forall depth, (0 <? bn_maxDepth b)%Z && (bn_maxDepth b <? depth)%Z = (bn_maxDepth b <? depth)%Z)
    by (intros depth; by rewrite (proj2 (Z.ltb_lt _ _) Hd)).
  induction v as [|?|[] ?|?|l IH|m IH] using json_any_rect'; intros depth; try done; cbn [projectOutputValue]; rewrite Hdeep;
    destruct (bn_maxDepth b <? depth)%Z eqn:E; boolp; try done; cbn [json_bounded]; rewrite !andb_true_iff, !Z.leb_le.
  - set (l' := projectOutputValue b (depth + 1) <$> l). destruct (cut_items_ok (bn_maxArrayItems b) l' Hi) as [H1 H2]. split_and!; [lia|done|].
    apply forallb_forall. intros v Hv%list_elem_of_In%H2. destruct Hv as [(x & -> & Hx)%list_elem_of_fmap|[s ->]]; [|done].
    rewrite Forall_forall in IH. by apply IH.
  - set (m' := _ <$> m). destruct (cut_fields_ok (bn_maxFields b) m' Hf) as (H1 & H2 & _). split_and!; [lia|done|].
    apply forallb_forall. intros p Hp%list_elem_of_In%H2. destruct Hp as [(x & -> & Hx)%list_elem_of_fmap| ->]; [|done].
    rewrite Forall_forall in IH. by apply IH.
Qed.
(** What [projectBoundedMap] may show of a map: nothing deeper than the depth, no map or array
    with more entries than the limit and one note of what was cut, no more tokens than its
    budget; and nothing only of an empty map, or when the budget has no room for the note
    that everything was cut. *)
Definition map_shown (b : projectionBounds) (values shown : option any_map) : Prop :=
  match shown with
  | Some m => m <> [] /\ json_bounded b 1 (JMap m) = true /\ (map_tokens m <= bn_maxTokens b)%Z
  | None => default [] values = [] \/ (bn_maxTokens b < map_tokens [("_truncated"%string, JBool true)])%Z
  end.
Lemma bounded_map_shown b values : positive_bounds b -> map_shown b values (projectBoundedMap values b).
Proof.
  intros Hb. unfold map_shown, projectBoundedMap. destruct values as [[|p m]|]; [by left| |by left]. pose proof (projected_bounded b (JMap (p :: m)) Hb 1) as Hbound.
  cbn [projectOutputValue] in *. destruct Hb as (Ht & Hd & Hf & Hi). rewrite (proj2 (Z.ltb_ge (bn_maxDepth b) 1)) in * by lia. rewrite andb_false_r in *.
  set (m' := _ <$> p :: m) in *. destruct (cut_fields_ok (bn_maxFields b) m' Hf) as (_ & _ & Hne).
  destruct (cut_fields (bn_maxFields b) m') as [|q c]; [by destruct Hne|]. unfold boundedTruncationMarker, over. rewrite (proj2 (Z.ltb_lt _ _) Ht). cbn [andb].
  destruct (bn_maxTokens b <? map_tokens (q :: c))%Z eqn:E; boolp.
  - destruct (bn_maxTokens b <? map_tokens _)%Z eqn:E2; boolp; [by right|]. split_and!; [done| |lia]. cbn [json_bounded]. rewrite !andb_true_iff, !Z.leb_le. cbn. repeat split; lia.
  - split_and!; [done|done|lia].
Qed.
(** C32: The parsed arguments and the results of tools that a transcript message shows are bounded, under
    any configuration.  A message is projected call by call and result by result, each under its
    own id, name, status and code; the argument map of every call and the output map of every result are
    shown within the depth, the number of entries and the token budget of the bounds.  The
    text of arguments that did not parse is not a map and no bound applies to it: it is
    passed on unchanged with its error, for the model to correct. *)
Theorem tool_values_are_bounded config m :
  let b := projectionBoundsFromEngineConfig config in
  let shown := projectTranscriptMessage b m in
  mm_Role shown = mm_Role m
  /\ Forall2 (fun c c' => tc_ID c' = tc_ID c /\ tc_Name c' = tc_Name c /\ map_shown b (tc_Arguments c) (tc_Arguments c')
               /\ tc_RawArguments c' = tc_RawArguments c /\ tc_ArgumentsError c' = tc_ArgumentsError c)
       (mm_ToolCalls m) (mm_ToolCalls shown)
  /\ Forall2 (fun r r' => tr_ToolCallID r' = tr_ToolCallID r /\ tr_Name r' = tr_Name r /\ tr_Status r' = tr_Status r /\ tr_Code r' = tr_Code r
               /\ map_shown b (tr_Output r) (tr_Output r'))
       (mm_ToolResults m) (mm_ToolResults shown).
Proof.
  cbv zeta. pose proof (config_bounds_positive config) as Hb. cbn [projectTranscriptMessage mm_Role mm_ToolCalls mm_ToolResults].
  split_and!; [done|..]; apply Forall2_fmap_r, Forall_Forall2_diag, Forall_true; intros x; split_and!; try done; by apply bounded_map_shown.
Qed.

(** ** Background knowledge *)
(** What [projectKnowledge] may put into the projection [p] from a lookup. *)
Record knowledge_fits (budget : BudgetConfig) (p : ContextProjection) (found k : knowledge_Result) : Prop := {
  kf_source : k = with_entries (kr_Entries k) (length (kr_Entries k) <? length (kr_Entries found))%nat found;
  kf_entries : kr_Entries k `sublist_of` kr_Entries found;
  kf_distinct : NoDup (ks_ID <$> kr_Entries k);
  kf_count : length (kr_Entries k) <= AutomaticLimit;
  kf_tokens : (EstimateText (RenderRetrievedKnowledge k) <= AutomaticTokens)%Z;
  kf_request : projectionFitsRequestBudget (set_knowledge k p) budget = Some true
}.
Definition chosen_ok (budget : BudgetConfig) (p : ContextProjection) (found : knowledge_Result) (chosen : list knowledge_Snippet) : Prop :=
  chosen = [] \/ knowledge_fits budget p found (with_entries chosen (length chosen <? length (kr_Entries found))%nat found).
Lemma choose_ok budget p found entries : forall seen chosen l, choose_knowledge budget p found (length (kr_Entries found)) seen chosen entries = Ok l ->
  (exists before, chosen `sublist_of` before /\ kr_Entries found = before ++ entries) -> NoDup (ks_ID <$> chosen) -> Forall (fun e => ks_ID e ∈ seen) chosen ->
  length chosen <= AutomaticLimit -> chosen_ok budget p found chosen -> chosen_ok budget p found l.
Proof.
  induction entries as [|e entries IH]; intros seen chosen l; cbn [choose_knowledge]; [by intros [= <-]|].
  intros H (before & Hsub & Hb) Hnd Hseen Hlen Hok.
  assert (Hskip : forall seen', seen ⊆ seen' -> choose_knowledge budget p found (length (kr_Entries found)) seen' chosen entries = Ok l -> chosen_ok budget p found l).
  { intros seen' Hs HH. apply (IH seen' chosen l HH); try done; [|by eapply Forall_impl; [exact Hseen|]; intros x Hx; apply Hs].
    exists (before ++ [e]). split; [by apply sublist_inserts_r|]. by rewrite <- app_assoc. }
  case_bool_decide as Hin; [by apply (Hskip seen)|]. destruct (AutomaticLimit <=? length chosen)%nat eqn:Hlim; [by injection H as <-|]. boolp.
  set (more := chosen ++ [e]) in *. destruct (projectionFitsRequestBudget _ _) as [fits|] eqn:Hf; [|done].
  destruct (_ || _) eqn:Hbad; [eapply Hskip, H; set_solver|]. apply orb_false_iff in Hbad as [Ht Hfits]. apply negb_false_iff in Hfits. subst fits. boolp.
  assert (Hmore : more `sublist_of` before ++ [e]) by by apply sublist_app.
  assert (Hnd' : NoDup (ks_ID <$> more)).
  { unfold more. rewrite fmap_app, NoDup_app. split_and!; [done| |by apply NoDup_singleton]. intros x Hx Hx'. apply list_elem_of_singleton in Hx'. subst x.
    apply list_elem_of_fmap in Hx as (y & Hy & Hin'). rewrite Forall_forall in Hseen. apply Hin. rewrite Hy. by apply Hseen. }
  assert (Hl' : length more <= AutomaticLimit) by (unfold more; rewrite length_app; cbn; lia).
  apply (IH _ _ _ H); try done.
  - exists (before ++ [e]). split; [done|]. by rewrite <- app_assoc.
  - unfold more. rewrite Forall_app, Forall_singleton. split; [|set_solver]. eapply Forall_impl; [exact Hseen|]. set_solver.
  - right. split; try done. cbn. rewrite Hb. change (e :: entries) with ([e] ++ entries). rewrite app_assoc. by apply sublist_inserts_r.
Qed.
Lemma project_knowledge_ok budget p input report failed :
  let found := default no_knowledge (ki_Result <$> input) in
  let '(p', report', err) := projectKnowledge budget p input report failed in
  match err with
  | Some e => e = ErrToolSchema /\ exists k, p' = set_knowledge k p
  | None => p' = p \/ p' = set_knowledge no_knowledge p
      \/ exists i k, input = Some i /\ p' = set_knowledge k p /\ kr_Entries k <> [] /\ knowledge_fits budget p found k /\ failed = false
           /\ ki_Owner i = pj_SessionKey p /\ ki_DefinitionID i = de_DefinitionID (pj_AgentDescriptor p) /\ ki_ContentHash i = kr_ContentHash found
           /\ kn_EntryIDs (rp_Knowledge report') = (ks_ID <$> kr_Entries k)
           /\ (Z.of_nat (length (kr_Entries k)) + kn_DroppedCount (rp_Knowledge report') = Z.of_nat (length (kr_Entries found)))%Z
  end.
Proof.
  cbv zeta. unfold projectKnowledge. destruct input as [i|]; [|by left]. cbn [fmap option_fmap option_map default]. set (found := ki_Result i).
  destruct (_ || _) eqn:Hscope; [by left|]. destruct failed; [by left|]. rewrite !orb_false_iff in Hscope. boolp. destruct Hscope as (((H1 & H2) & H3) & H4).
  destruct (choose_knowledge budget p found _ ∅ [] (kr_Entries found)) as [[|e chosen]|k] eqn:E; [by right; left| |split; [done|by exists k]].
  apply choose_ok in E; [|by exists []|constructor|constructor|cbn; lia|by left]. destruct E as [E|E]; [done|]. right; right. eexists i, _.
  split_and!; [done|done| |exact E|done|done|done|done|done|]; [done|]. cbn -[length]. unfold found. lia.
Qed.
(** C33: Background knowledge stays within its limits.  [projectKnowledge] changes nothing
    but the knowledge of the projection.  What it shows are entries of the lookup in their order, each
    id once, at most three of them and no more than 768 tokens, with which the request
    still fits, and only a lookup made for this session, this definition and the content
    it names, in a projection that was within its budgets; the report names them and counts
    every other entry as dropped.  Its only error is that of a tool schema. *)
Theorem knowledge_stays_in_its_limits budget p input report failed :
  let found := default no_knowledge (ki_Result <$> input) in
  let '(p', report', err) := projectKnowledge budget p input report failed in
  match err with
  | Some e => e = ErrToolSchema /\ exists k, p' = set_knowledge k p
  | None => p' = p \/ p' = set_knowledge no_knowledge p
      \/ exists i k, input = Some i /\ p' = set_knowledge k p /\ kr_Entries k <> [] /\ knowledge_fits budget p found k /\ failed = false
           /\ ki_Owner i = pj_SessionKey p /\ ki_DefinitionID i = de_DefinitionID (pj_AgentDescriptor p) /\ ki_ContentHash i = kr_ContentHash found
           /\ kn_EntryIDs (rp_Knowledge report') = (ks_ID <$> kr_Entries k)
           /\ (Z.of_nat (length (kr_Entries k)) + kn_DroppedCount (rp_Knowledge report') = Z.of_nat (length (kr_Entries found)))%Z
  end.
Proof. apply project_knowledge_ok. Qed.
