(* ===== verification/GameTimes.v ===== *)
(** * Orders and game time: [memory/game_time.go], [memory/history.go]

    What [sort.SliceStable] gives for a comparator that is not total: the elements in an
    order that puts none after a greater one, by comparisons composed lexicographically.

    A game reports its time with any of its fields missing.  Times are compared only on
    fields all of them have; what is later than now stays hidden. *)

From S2P Require Export Context.

Local Open Scope go_scope.

(** ** Weak orders

    [sort.SliceStable] is [sort_slice]: the insertion sort does not exchange elements that
    compare equal.  A comparator needs to be a strict weak order only on the elements
    [P] it meets. *)
Record weak_order {A} (P : A -> Prop) (less : A -> A -> bool) : Prop := {
  wo_irrefl : forall x, P x -> less x x = false;
  wo_trans : forall x y z, P x -> P y -> P z -> less x y = true -> less y z = true -> less x z = true;
  wo_split : forall x y z, P x -> P y -> P z -> less x z = true -> less x y = true \/ less y z = true
}.
Definition not_after {A} (less : A -> A -> bool) (x y : A) : Prop := less y x = false.
Section Stable.
Context {A : Type} (P : A -> Prop) (less : A -> A -> bool) (Hw : weak_order P less).
Lemma not_after_trans x y z : P x -> P y -> P z -> not_after less x y -> not_after less y z -> not_after less x z.
Proof.
  unfold not_after. intros Hx Hy Hz H1 H2. destruct (less z x) eqn:E; [|done]. destruct (wo_split _ _ Hw z y x Hz Hy Hx E); congruence.
Qed.
Lemma less_asym x y : P x -> P y -> less x y = true -> less y x = false.
Proof.
  intros Hx Hy H. destruct (less y x) eqn:E; [|done]. pose proof (wo_trans _ _ Hw x y x Hx Hy Hx H E) as H'. by rewrite (wo_irrefl _ _ Hw x Hx) in H'.
Qed.
Lemma insert_weak x l : P x -> Forall P l -> StronglySorted (not_after less) l -> StronglySorted (not_after less) (insert_slice less x l).
Proof.
  intros Hx Hl Hs. induction Hs as [|y l Hs IH Hy]; cbn; [repeat constructor|]. apply Forall_cons in Hl as [Py Hl]. destruct (less y x) eqn:E.
  - constructor; [by apply IH|]. rewrite insert_slice_perm. constructor; [by apply less_asym|done].
  - constructor; [by constructor|]. constructor; [done|]. rewrite Forall_forall in *. intros z Hz. eapply not_after_trans, Hy; auto.
Qed.
Lemma sort_weak l : Forall P l -> StronglySorted (not_after less) (sort_slice less l).
Proof.
  induction 1 as [|x l Hx Hl IH]; cbn; [constructor|]. apply insert_weak; [done| |done]. fold (sort_slice less l). by rewrite sort_slice_perm.
Qed.
End Stable.
Lemma sorted_impl {A} (R R' : A -> A -> Prop) l : (forall x y, R x y -> R' x y) -> StronglySorted R l -> StronglySorted R' l.
Proof. intros H. induction 1 as [|x l _ IH Hx]; constructor; [done|]. eapply Forall_impl; [exact Hx|]. auto. Qed.
Lemma sorted_head {A} (R : A -> A -> Prop) x l : StronglySorted R (x :: l) -> Forall (R x) l /\ StronglySorted R l.
Proof. by inversion 1. Qed.
Lemma sorted_app {A} (R : A -> A -> Prop) l1 l2 : StronglySorted R l1 -> StronglySorted R l2 -> (forall x y, x ∈ l1 -> y ∈ l2 -> R x y) -> StronglySorted R (l1 ++ l2).
Proof.
  induction 1 as [|x l1 _ IH Hx]; intros H2 Hc; cbn; [done|]. constructor.
  - apply IH; [done|]. intros. apply Hc; [by right|done].
  - apply Forall_app. split; [done|]. apply Forall_forall. intros y Hy. apply Hc; [by left|done].
Qed.
Lemma sorted_in {A} (R R' : A -> A -> Prop) l : StronglySorted R l -> (forall x y, x ∈ l -> y ∈ l -> R x y -> R' x y) -> StronglySorted R' l.
Proof.
  induction 1 as [|x l _ IH Hx]; intros H; constructor; [apply IH; intros; apply H; [by right..|done]|]. rewrite Forall_forall in *. intros y Hy.
  apply H; [by left|by right|by apply Hx].
Qed.
Lemma sorted_app_inv {A} (R : A -> A -> Prop) l1 l2 : StronglySorted R (l1 ++ l2) -> StronglySorted R l1 /\ StronglySorted R l2.
Proof.
  induction l1 as [|x l1 IH]; cbn; [by split; [constructor|]|]. intros [Hx Hs]%sorted_head. apply Forall_app in Hx as [Hx _]. destruct (IH Hs). split; [by constructor|done].
Qed.
Lemma sorted_reverse {A} (R R' : A -> A -> Prop) l : (forall x y, R x y -> R' y x) -> StronglySorted R l -> StronglySorted R' (reverse l).
Proof.
  intros HR. induction 1 as [|x l _ IH Hx]; [constructor|]. rewrite reverse_cons. apply sorted_app; [done|repeat constructor|].
  intros y z Hy ->%list_elem_of_singleton. rewrite elem_of_reverse in Hy. rewrite Forall_forall in Hx. auto.
Qed.
(** A list made of a sorted one, element by element, with what is not made left out. *)
Lemma sorted_omap {A B} (R : A -> A -> Prop) (R' : B -> B -> Prop) (f : A -> option B) l :
  (forall x y x' y', f x = Some x' -> f y = Some y' -> R x y -> R' x' y') -> StronglySorted R l -> StronglySorted R' (omap f l).
Proof.
  intros HR. induction 1 as [|x l _ IH Hx]; [constructor|]. cbn. destruct (f x) as [x'|] eqn:E; [|done]. constructor; [done|].
  apply Forall_forall. intros y' (y & Hy & Hy')%list_elem_of_omap. rewrite Forall_forall in Hx. eauto.
Qed.

(** ** Comparisons *)
Record cmp_order {A} (P : A -> Prop) (c : A -> A -> comparison) : Prop := {
  co_antisym : forall x y, P x -> P y -> c y x = CompOpp (c x y);
  co_trans : forall x y z, P x -> P y -> P z -> c x y <> Gt -> c y z <> Gt -> c x z <> Gt /\ (c x z = Eq -> c x y = Eq /\ c y z = Eq)
}.
Definition lex {A} (c1 c2 : A -> A -> comparison) (x y : A) : comparison := match c1 x y with Eq => c2 x y | c => c end.
Lemma lex_order {A} (P : A -> Prop) c1 c2 : cmp_order P c1 -> cmp_order P c2 -> cmp_order P (lex c1 c2).
Proof.
  intros H1 H2. split.
  - intros x y Hx Hy. unfold lex. rewrite (co_antisym _ _ H1 x y Hx Hy). destruct (c1 x y); cbn; [by apply (co_antisym _ _ H2)|done..].
  - intros x y z Hx Hy Hz. unfold lex. intros A1 A2. assert (B1 : c1 x y <> Gt) by by destruct (c1 x y). assert (B2 : c1 y z <> Gt) by by destruct (c1 y z).
    destruct (co_trans _ _ H1 x y z Hx Hy Hz B1 B2) as [C1 C2]. destruct (c1 x z) eqn:E; [|done|done]. destruct (C2 eq_refl) as [D1 D2].
    rewrite D1 in *. rewrite D2 in *. by apply (co_trans _ _ H2).
Qed.
Definition less_of {A} (c : A -> A -> comparison) (x y : A) : bool := match c x y with Lt => true | _ => false end.
Lemma less_of_false {A} (P : A -> Prop) c (x y : A) : cmp_order P c -> P x -> P y -> less_of c y x = false <-> c x y <> Gt.
Proof. intros H Hx Hy. unfold less_of. rewrite (co_antisym _ _ H x y Hx Hy). by destruct (c x y); cbn. Qed.
Lemma weak_of_cmp {A} (P : A -> Prop) c : cmp_order P c -> weak_order P (less_of c).
Proof.
  intros H. assert (Hrefl : forall x, P x -> c x x = Eq).
  { intros x Hx. pose proof (co_antisym _ _ H x x Hx Hx) as E. by destruct (c x x). }
  split.
  - intros x Hx. unfold less_of. by rewrite Hrefl.
  - intros x y z Hx Hy Hz. unfold less_of. destruct (c x y) eqn:E1; try done. destruct (c y z) eqn:E2; try done. intros _ _.
    destruct (co_trans _ _ H x y z Hx Hy Hz) as [C1 C2]; [by rewrite E1|by rewrite E2|]. destruct (c x z); [|done|done]. destruct (C2 eq_refl). congruence.
  - intros x y z Hx Hy Hz Hxz. destruct (less_of c x y) eqn:E1; [by left|]. right. destruct (less_of c y z) eqn:E2; [done|].
    apply (less_of_false P) in E1; [|done..]. apply (less_of_false P) in E2; [|done..].
    destruct (co_trans _ _ H z y x Hz Hy Hx E2 E1) as [C1 _]. exfalso. apply C1. rewrite (co_antisym _ _ H x z Hx Hz). unfold less_of in Hxz. by destruct (c x z).
Qed.
Lemma z_order {A} (P : A -> Prop) (key : A -> Z) : cmp_order P (fun x y => (key x ?= key y)%Z).
Proof.
  split; [intros; apply Z.compare_antisym|]. intros x y z _ _ _.
  destruct (Z.compare_spec (key x) (key y)), (Z.compare_spec (key y) (key z)), (Z.compare_spec (key x) (key z)); intros ? ?; try done; try (split; done); lia.
Qed.
Lemma n_order {A} (P : A -> Prop) (key : A -> N) : cmp_order P (fun x y => (key x ?= key y)%N).
Proof.
  split; [intros; apply N.compare_antisym|]. intros x y z _ _ _.
  destruct (N.compare_spec (key x) (key y)), (N.compare_spec (key y) (key z)), (N.compare_spec (key x) (key z)); intros ? ?; try done; try (split; done); lia.
Qed.
Definition str_compare (a b : string) : comparison := if str_lt a b then Lt else if str_lt b a then Gt else Eq.
Lemma str_lt_asym a b : str_lt a b = true -> str_lt b a = false.
Proof. intros H. destruct (str_lt b a) eqn:E; [|done]. pose proof (str_lt_trans _ _ _ H E) as H'. by rewrite str_lt_irrefl in H'. Qed.
Lemma str_compare_eq a b : str_compare a b = Eq -> a = b.
Proof.
  unfold str_compare. destruct (str_lt a b) eqn:E1, (str_lt b a) eqn:E2; try done. intros _. destruct (decide (a = b)) as [|Hne]; [done|].
  destruct (str_lt_total a b Hne); congruence.
Qed.
Lemma str_compare_refl a : str_compare a a = Eq.
Proof. unfold str_compare. by rewrite str_lt_irrefl. Qed.
Lemma s_order {A} (P : A -> Prop) (key : A -> string) : cmp_order P (fun x y => str_compare (key x) (key y)).
Proof.
  split; intros x y.
  - intros _ _. unfold str_compare. destruct (str_lt (key x) (key y)) eqn:E1, (str_lt (key y) (key x)) eqn:E2; try done. by rewrite (str_lt_asym _ _ E1) in E2.
  - intros z _ _ _ H1 H2. destruct (str_compare (key x) (key y)) eqn:E1; [| |done].
    + apply str_compare_eq in E1. rewrite E1. done.
    + destruct (str_compare (key y) (key z)) eqn:E2; [| |done].
      * apply str_compare_eq in E2. rewrite <- E2, E1. done.
      * unfold str_compare in *. destruct (str_lt (key x) (key y)) eqn:F1; [|by destruct (str_lt (key y) (key x))].
        destruct (str_lt (key y) (key z)) eqn:F2; [|by destruct (str_lt (key z) (key y))]. by rewrite (str_lt_trans _ _ _ F1 F2).
Qed.
Lemma str_lt_compare a b : str_lt a b = match str_compare a b with Lt => true | _ => false end.
Proof. unfold str_compare. destruct (str_lt a b); [done|]. by destruct (str_lt b a). Qed.
Lemma weak_ext {A} (P : A -> Prop) (less less' : A -> A -> bool) : (forall x y, less x y = less' x y) -> weak_order P less' -> weak_order P less.
Proof. intros E [H1 H2 H3]. split; intros *; rewrite !E; [apply H1|apply H2|apply H3]. Qed.

(** ** Snapshots of game time *)
Definition gameTimeYear : Z := 1.
Definition gameTimeSeason : Z := 2.
Definition gameTimeDay : Z := 4.
Definition gameTimeHour : Z := 8.
Definition gameTimeMinute : Z := 16.
Definition gameTimeTick : Z := 32.
Definition gameTimeCalendarFields : Z := 31.
Definition gameTimeAllFields : Z := 63.
Inductive GameTimeBasis := GameTimeUnknown | GameTimeCalendar | GameTimeCalendarWithTick | GameTimeTick.
#[export] Instance GameTimeBasis_eq_dec : EqDecision GameTimeBasis. Proof. solve_decision. Defined.
#[export] Instance GameTimeSnapshot_eq_dec : EqDecision GameTimeSnapshot. Proof. solve_decision. Defined.
Definition TickGameTime (tick : Z) : GameTimeSnapshot :=
  {| gs_Year := 0; gs_Season := 0; gs_Day := 0; gs_Hour := 0; gs_Minute := 0; gs_Tick := tick; gs_PresentFields := gameTimeTick |}.
Definition presentFields (s : option GameTimeSnapshot) : Z :=
  match s with
  | None => 0
  | Some s =>
    if gs_PresentFields s != 0%Z then
      if Z.land (gs_PresentFields s) (Z.lxor gameTimeAllFields 255) != 0%Z then 0 else gs_PresentFields s
    else if (gs_Year s == 0%Z) && (gs_Season s == 0%Z) && (gs_Day s == 0%Z) && (gs_Hour s == 0%Z) && (gs_Minute s == 0%Z) && (gs_Tick s == 0%Z) then 0
    else gameTimeAllFields
  end.
Definition has_calendar (s : option GameTimeSnapshot) : bool := Z.land (presentFields s) gameTimeCalendarFields == gameTimeCalendarFields.
Definition has_tick (s : option GameTimeSnapshot) : bool := Z.land (presentFields s) gameTimeTick != 0%Z.
Definition tick_only (s : option GameTimeSnapshot) : bool := presentFields s == gameTimeTick.
Definition SharedGameTimeBasis (values : list (option GameTimeSnapshot)) : GameTimeBasis :=
  match values with
  | [] => GameTimeUnknown
  | _ =>
    if forallb has_calendar values then if forallb has_tick values then GameTimeCalendarWithTick else GameTimeCalendar
    else if forallb tick_only values then GameTimeTick else GameTimeUnknown
  end.
(** [cmp.Compare] of the fields, the first that differs. *)
Fixpoint compare_fields (l r : list Z) : comparison :=
  match l, r with
  | x :: l, y :: r => match (x ?= y)%Z with Eq => compare_fields l r | c => c end
  | _, _ => Eq
  end.
Definition compared (basis : GameTimeBasis) (s : GameTimeSnapshot) : list Z :=
  (match basis with GameTimeCalendar | GameTimeCalendarWithTick => [gs_Year s; gs_Season s; gs_Day s; gs_Hour s; gs_Minute s] | _ => [] end
   ++ match basis with GameTimeTick | GameTimeCalendarWithTick => [gs_Tick s] | _ => [] end)%list.
Definition Compare (basis : GameTimeBasis) (left right : option GameTimeSnapshot) : comparison :=
  match left, right with
  | Some l, Some r => compare_fields (compared basis l) (compared basis r)
  | _, _ => Eq
  end.
Definition CurrentGameTime (event observation : option GameTime) : option GameTimeSnapshot :=
  let value := SnapshotGameTime event in
  if SharedGameTimeBasis [value] != GameTimeUnknown then value else SnapshotGameTime observation.

(** ** Visibility of a source: [HistoryVisibility] *)
Definition is_future (time current : option GameTimeSnapshot) : bool :=
  match Compare (SharedGameTimeBasis [time; current]) time current with Gt => true | _ => false end.
(** [(visible, unknown)] *)
Definition HistoryVisibility (times : list HistoryTime) (current : option GameTimeSnapshot) : bool * bool :=
  match times with
  | [] => (true, true)
  | _ => (negb (existsb (fun t => is_future (htm_Value t) current) times),
          existsb (fun t => SharedGameTimeBasis [htm_Value t; current] == GameTimeUnknown) times)
  end.

(** ** The comparison *)
Lemma compare_fields_refl l : compare_fields l l = Eq.
Proof. induction l as [|x l IH]; cbn; [done|]. by rewrite Z.compare_refl. Qed.
Lemma compare_fields_antisym l r : compare_fields r l = CompOpp (compare_fields l r).
Proof.
  revert r. induction l as [|x l IH]; intros [|y r]; try done. cbn. rewrite (Z.compare_antisym x y). by destruct (x ?= y)%Z; cbn.
Qed.
Lemma compare_fields_lt_trans l m r : length l = length m -> length m = length r ->
  compare_fields l m <> Gt -> compare_fields m r <> Gt -> compare_fields l r <> Gt /\ (compare_fields l r = Eq -> compare_fields l m = Eq /\ compare_fields m r = Eq).
Proof.
  revert m r. induction l as [|x l IH]; intros [|y m] [|z r] H1 H2; try done. cbn.
  destruct (x ?= y)%Z eqn:E1, (y ?= z)%Z eqn:E2; try done; intros H3 H4.
  - apply Z.compare_eq in E1 as <-. rewrite E2. apply IH; [cbn in *; lia|cbn in *; lia|done|done].
  - apply Z.compare_eq in E1 as <-. by rewrite E2.
  - apply Z.compare_eq in E2 as <-. by rewrite E1.
  - assert (E : (x ?= z)%Z = Lt) by (rewrite Z.compare_lt_iff in *; lia). by rewrite E.
Qed.
Lemma compared_length basis s s' : length (compared basis s) = length (compared basis s').
Proof. by destruct basis. Qed.
Lemma Compare_antisym basis l r : Compare basis r l = CompOpp (Compare basis l r).
Proof. destruct l, r; try done. apply compare_fields_antisym. Qed.
Lemma Compare_refl basis l : Compare basis l l = Eq.
Proof. destruct l; [apply compare_fields_refl|done]. Qed.
Lemma Compare_unknown l r : Compare GameTimeUnknown l r = Eq.
Proof. by destruct l, r. Qed.
(** A basis that is known has its fields in every value. *)
Lemma SharedGameTimeBasis_some values x : SharedGameTimeBasis values <> GameTimeUnknown -> x ∈ values -> is_Some x.
Proof.
  intros Hb Hx. destruct x as [s|]; [eauto|]. exfalso. apply Hb. unfold SharedGameTimeBasis.
  assert (Hn : forall f : option GameTimeSnapshot -> bool, f None = false -> forallb f values = false).
  { intros f Hf. apply not_true_iff_false. rewrite forallb_forall. intros H. specialize (H None ltac:(by apply list_elem_of_In)). congruence. }
  destruct values; [done|]. by rewrite (Hn has_calendar), (Hn tick_only).
Qed.
Lemma not_future_unknown time current : SharedGameTimeBasis [time; current] = GameTimeUnknown -> is_future time current = false.
Proof. unfold is_future. intros ->. by rewrite Compare_unknown. Qed.
Lemma visible_not_future times current : (HistoryVisibility times current).1 = true <-> Forall (fun t => is_future (htm_Value t) current = false) times.
Proof.
  unfold HistoryVisibility. destruct times as [|t times]; [split; [constructor|done]|]. cbn [fst]. rewrite negb_true_iff, Forall_forall. split.
  - intros H x Hx. destruct (is_future (htm_Value x) current) eqn:E; [|done]. enough (existsb (fun t => is_future (htm_Value t) current) (t :: times) = true) by congruence.
    apply existsb_exists. exists x. by split; [apply list_elem_of_In|].
  - intros H. apply not_true_iff_false. intros (x & Hx & E)%existsb_exists. rewrite H in E; [done|by apply list_elem_of_In].
Qed.
