(* ===== verification/Memories.v ===== *)
(** * Recent memories: [context/memory_projection.go]

    The records of earlier turns that are not in the future, in the order of game time,
    the latest of them up to a number and a token budget, and the lines they are shown
    as.  Unicode's tables beyond ASCII are a parameter: [lower] is [unicode.ToLower] and
    [printable] is [strconv.IsPrint] on runes from 0x80 on.

    No memory of the future is shown; the memories are in the order of game time; those
    kept are the latest and within their budgets. *)

From S2P Require Export GameTimes Shown.

Local Open Scope go_scope.
Local Open Scope string_scope.

(** ** Text of Go's standard library *)
Class Unicode := { lower : N -> N; printable : N -> bool }.
Section Text.
Context `{Unicode}.
(** [strings.ToLower]: invalid bytes become the replacement character. *)
Definition rune_lower (r : N) : N := if (r <? 0x80)%N then (if in_range 65 90 r then r + 32 else r)%N else lower r.
Definition text_of_runes (l : list N) : string := text_of (concat (rune_bytes <$> l)).
Definition ToLower (s : string) : string := text_of_runes (rune_lower <$> (runes s).*1).
Definition hex_of (n : N) : ascii := byte_of (if n <? 10 then 48 + n else 87 + n)%N.
Definition hex_digits (digits : nat) (n : N) : list ascii :=
  (fun i => hex_of (N.land (N.shiftr n (4 * N.of_nat i)) 15)) <$> reverse (seq 0 digits).
Definition backslash (l : list ascii) : list ascii := byte_of 92 :: l.
(** A rune with its bytes as [strconv.Quote] writes it. *)
Definition quote_rune (x : N * list ascii) : list ascii :=
  let '(r, bs) := x in
  if (r == RuneError) && (length bs =? 1)%nat then backslash (byte_of 120 :: concat ((fun b => hex_digits 2 (byte_val b)) <$> bs))
  else if (r == 34%N) || (r == 92%N) then backslash [byte_of r]
  else if (if (r <? 0x80)%N then in_range 0x20 0x7E r else printable r) then rune_bytes r
  else if r == 7%N then backslash [byte_of 97] else if r == 8%N then backslash [byte_of 98] else if r == 12%N then backslash [byte_of 102]
  else if r == 10%N then backslash [byte_of 110] else if r == 13%N then backslash [byte_of 114] else if r == 9%N then backslash [byte_of 116]
  else if r == 11%N then backslash [byte_of 118]
  else if (r <? 0x20)%N || (r == 0x7F%N) then backslash (byte_of 120 :: hex_digits 2 r)
  else if (r <? 0x10000)%N then backslash (byte_of 117 :: hex_digits 4 r)
  else backslash (byte_of 85 :: hex_digits 8 r).
Definition Quote (s : string) : string := text_of ((byte_of 34 :: concat (quote_rune <$> runes s)) ++ [byte_of 34])%list.
(** [%02d] *)
Definition pad2 (z : Z) : string := let s := FormatInt z in if (String.length s <? 2)%nat then "0" +:+ s else s.

(** ** Records

    A slice that JSON may have to tell from a nil one is an option. *)
Record go_Time := { t_instant : Z; t_text : string }.
Record TurnOutcome := { to_ToolName : string; to_ToolArguments : option any_map; to_ActionStatus : string }.
Record memory_Record := {
  mr_MemoryID : string; mr_ProjectionKind : string; mr_ProjectionVersion : Z; mr_ProjectionBatchKey : string; mr_SessionKey : AgentSessionKey;
  mr_SourceTurnID : string; mr_SourceEventID : string; mr_SourceEventSequence : N; mr_EventType : string; mr_GameTime : option GameTimeSnapshot;
  mr_SourceContextFacts : option (list SourceContextFact); mr_Outcomes : option (list TurnOutcome); mr_CreatedAt : go_Time
}.
Definition memoryCreatedBefore (l r : memory_Record) : bool :=
  if t_instant (mr_CreatedAt l) != t_instant (mr_CreatedAt r) then (t_instant (mr_CreatedAt l) <? t_instant (mr_CreatedAt r))%Z
  else str_lt (mr_MemoryID l) (mr_MemoryID r).

(** ** Lines *)
Definition visibleContextFactSummary (fact : SourceContextFact) : string :=
  let kind := ToLower (TrimSpace (sf_Kind fact)) in
  let text := TrimSpace (sf_Text fact) in
  let label := TrimSpace (sf_Label fact) in
  let actor := TrimSpace (sf_ActorEntityID fact) in
  let actor := if actor == "" then "actor" else actor in
  let said (what : string) := if kind == "" then actor +:+ " context " +:+ Quote what else actor +:+ " " +:+ kind +:+ " " +:+ Quote what in
  if kind == "utterance" then if text != "" then actor +:+ " said " +:+ Quote text else ""
  else if text != "" then said text
  else if label != "" then said label
  else "".
Definition visibleActionSummary (outcome : TurnOutcome) (bounds : projectionBounds) : string :=
  let name := TrimSpace (to_ToolName outcome) in
  let status := TrimSpace (to_ActionStatus outcome) in
  let head := if name != "" then "tool " +:+ Quote name else "tool" in
  let parts := ([head] ++ (if status != "" then ["status " +:+ Quote status] else [])
    ++ match to_ToolArguments outcome with
       | Some ((_ :: _) as arguments) => ["arguments " +:+ enc_map_or_null (projectBoundedMap (Some arguments) bounds)]
       | _ => []
       end)%list in
  if (length parts =? 1)%nat && (head == "tool") then "completed a visible action" else join " " parts.
Definition sameGameDay (l r : option GameTimeSnapshot) : bool :=
  match l, r with
  | Some l, Some r => (gs_Year l == gs_Year r) && (gs_Season l == gs_Season r) && (gs_Day l == gs_Day r)
  | _, _ => false
  end.
Definition clock_text (t : GameTimeSnapshot) : string := pad2 (gs_Hour t) +:+ ":" +:+ pad2 (gs_Minute t).
Definition formatGameTime (t : GameTimeSnapshot) : string :=
  "Y" +:+ FormatInt (gs_Year t) +:+ " S" +:+ FormatInt (gs_Season t) +:+ " D" +:+ FormatInt (gs_Day t) +:+ " " +:+ clock_text t.
(** A known calendar basis has both times ([SharedGameTimeBasis_some]). *)
Definition gameTimeRelation (memoryTime currentTime : option GameTimeSnapshot) : string :=
  match SharedGameTimeBasis [memoryTime; currentTime], memoryTime with
  | (GameTimeCalendar | GameTimeCalendarWithTick), Some t => if sameGameDay memoryTime currentTime then "today " +:+ clock_text t else "previous day " +:+ formatGameTime t
  | _, _ => "previous interaction"
  end.
Definition projectRecentMemory (record : memory_Record) (currentTime : option GameTimeSnapshot) (bounds : projectionBounds) : MemoryProjection :=
  let summaries := (List.filter (fun s => s != "") (visibleContextFactSummary <$> default [] (mr_SourceContextFacts record))
                    ++ ((fun o => visibleActionSummary o bounds) <$> default [] (mr_Outcomes record)))%list in
  {| mp_MemoryID := mr_MemoryID record; mp_TimeRelation := gameTimeRelation (mr_GameTime record) currentTime;
     mp_Summaries := match summaries with [] => ["completed turn"] | _ => summaries end |}.

(** ** The timeline *)
Definition memory_less (basis : GameTimeBasis) (l r : memory_Record) : bool :=
  match Compare basis (mr_GameTime l) (mr_GameTime r) with Lt => true | Gt => false | Eq => memoryCreatedBefore l r end.
Definition sequence_less (l r : memory_Record) : bool :=
  if mr_SourceEventSequence l != mr_SourceEventSequence r then (mr_SourceEventSequence l <? mr_SourceEventSequence r)%N else memoryCreatedBefore l r.
Definition same_time (basis : GameTimeBasis) (l r : memory_Record) : bool :=
  match Compare basis (mr_GameTime l) (mr_GameTime r) with Eq => true | _ => false end.
(** The first group: what stands at the time of [x]. *)
Fixpoint span_time (basis : GameTimeBasis) (x : memory_Record) (l : list memory_Record) : list memory_Record * list memory_Record :=
  match l with
  | y :: l' => if same_time basis x y then let '(group, rest) := span_time basis x l' in (y :: group, rest) else ([], l)
  | [] => ([], [])
  end.
Definition order_group (group : list memory_Record) : list memory_Record :=
  if forallb (fun r => mr_SourceEventSequence r != 0%N) group then sort_slice sequence_less group else group.
(** Every group takes a record, so the number of records is enough rounds. *)
Fixpoint order_groups (fuel : nat) (basis : GameTimeBasis) (l : list memory_Record) : list memory_Record :=
  match fuel, l with
  | S fuel, x :: l => let '(group, rest) := span_time basis x l in (order_group (x :: group) ++ order_groups fuel basis rest)%list
  | _, _ => []
  end.
Definition isFutureMemory (record : memory_Record) (currentTime : option GameTimeSnapshot) : bool := is_future (mr_GameTime record) currentTime.
Definition selectTimelineMemories (records : list memory_Record) (currentTime : option GameTimeSnapshot) : list memory_Record :=
  let selected := List.filter (fun r => ! isFutureMemory r currentTime) records in
  let basis := SharedGameTimeBasis (mr_GameTime <$> selected) in
  let sorted := sort_slice (memory_less basis) selected in
  if basis == GameTimeUnknown then sorted else order_groups (length sorted) basis sorted.
Definition trimRecentMemoryRecords (records : list memory_Record) (limit : Z) : list memory_Record :=
  if (limit <=? 0)%Z then [] else drop (length records - Z.to_nat limit) records.
Definition memory_tokens (l : list MemoryProjection) : Z := EstimateText (marshalMemories l).
(** [for start > 0]: the projections from [start] on, one more as long as they fit. *)
Fixpoint extend_back (limit : Z) (before kept : list MemoryProjection) : list MemoryProjection :=
  match before with
  | [] => kept
  | m :: before => if (limit <? memory_tokens (m :: kept))%Z then kept else extend_back limit before (m :: kept)
  end.
Definition trimMemoryProjections (projections : list MemoryProjection) (limit : Z) : list MemoryProjection :=
  if (limit <=? 0)%Z then projections else
  match reverse projections with
  | [] => projections
  | m :: before => if (limit <? memory_tokens [m])%Z then [] else extend_back limit before [m]
  end.
Definition projectRecentMemories (records : list memory_Record) (recordLimit tokenLimit : Z) (currentTime : option GameTimeSnapshot)
    (bounds : projectionBounds) : list MemoryProjection * RetentionReport :=
  match records with
  | [] => ([], no_retention)
  | _ =>
    let selected := selectTimelineMemories records currentTime in
    let projections := (fun r => projectRecentMemory r currentTime bounds) <$> trimRecentMemoryRecords selected recordLimit in
    let trimmed := trimMemoryProjections projections tokenLimit in
    (trimmed, {| rt_RetainedCount := Z.of_nat (length trimmed); rt_DroppedCount := Z.of_nat (length selected) - Z.of_nat (length trimmed) |})
  end.
End Text.

#[local] Close Scope string_scope.

(** * The timeline of memories *)

(** ** The comparators of memories *)
Definition dated (basis : GameTimeBasis) (r : memory_Record) : Prop := basis = GameTimeUnknown \/ is_Some (mr_GameTime r).
Definition time_compare (basis : GameTimeBasis) (l r : memory_Record) : comparison := Compare basis (mr_GameTime l) (mr_GameTime r).
Definition created_compare : memory_Record -> memory_Record -> comparison :=
  lex (fun l r => (t_instant (mr_CreatedAt l) ?= t_instant (mr_CreatedAt r))%Z) (fun l r => str_compare (mr_MemoryID l) (mr_MemoryID r)).
Definition sequence_compare : memory_Record -> memory_Record -> comparison :=
  lex (fun l r => (mr_SourceEventSequence l ?= mr_SourceEventSequence r)%N) created_compare.
Lemma created_less l r : memoryCreatedBefore l r = less_of created_compare l r.
Proof.
  unfold memoryCreatedBefore, less_of, created_compare, lex. case_bool_decide as E; cbn [negb].
  - rewrite E, Z.compare_refl. apply str_lt_compare.
  - rewrite Z.ltb_compare. destruct (_ ?= _)%Z eqn:C; [by apply Z.compare_eq in C|done|done].
Qed.
Lemma sequence_less_of l r : sequence_less l r = less_of sequence_compare l r.
Proof.
  unfold sequence_less, less_of, sequence_compare. rewrite created_less. unfold less_of, lex. case_bool_decide as E; cbn [negb].
  - by rewrite E, N.compare_refl.
  - rewrite N.ltb_compare. destruct (_ ?= _)%N eqn:C; [by apply N.compare_eq in C|done|done].
Qed.
Lemma memory_less_of basis l r : memory_less basis l r = less_of (lex (time_compare basis) created_compare) l r.
Proof. unfold memory_less. rewrite created_less. unfold less_of, lex, time_compare. by destruct (Compare _ _ _). Qed.
Lemma created_order P : cmp_order P created_compare.
Proof. apply lex_order; [apply z_order|apply s_order]. Qed.
Lemma sequence_order P : cmp_order P sequence_compare.
Proof. apply lex_order; [apply n_order|apply created_order]. Qed.
Lemma time_order basis : cmp_order (dated basis) (time_compare basis).
Proof.
  unfold time_compare. split; [intros x y _ _; apply Compare_antisym|]. intros x y z [-> |[tx Hx]] Hy Hz; [by rewrite !Compare_unknown|].
  destruct Hy as [-> |[ty Hy]]; [by rewrite !Compare_unknown|]. destruct Hz as [-> |[tz Hz]]; [by rewrite !Compare_unknown|]. rewrite Hx, Hy, Hz. cbn.
  apply compare_fields_lt_trans; apply compared_length.
Qed.
Lemma memory_weak basis : weak_order (dated basis) (memory_less basis).
Proof. eapply weak_ext; [apply memory_less_of|]. apply weak_of_cmp, lex_order; [apply time_order|apply created_order]. Qed.
Lemma sequence_weak P : weak_order P sequence_less.
Proof. eapply weak_ext; [apply sequence_less_of|]. apply weak_of_cmp, sequence_order. Qed.

(** ** The order of the timeline *)
(** Do all records at the time of [x] have a sequence number? *)
Definition sequenced (basis : GameTimeBasis) (whole : list memory_Record) (x : memory_Record) : bool :=
  forallb (fun r => mr_SourceEventSequence r != 0%N) (List.filter (same_time basis x) whole).
(** [l] may stand before [r]: not later, and at the same time by sequence when the whole
    moment has them, by creation otherwise. *)
Definition in_timeline (basis : GameTimeBasis) (whole : list memory_Record) (l r : memory_Record) : Prop :=
  time_compare basis l r = Lt
  \/ time_compare basis l r = Eq /\ if sequenced basis whole l then sequence_less r l = false else memoryCreatedBefore r l = false.
Lemma in_timeline_not_later basis whole l r : in_timeline basis whole l r -> time_compare basis l r <> Gt.
Proof. by intros [-> |[-> _]]. Qed.
Lemma same_time_eq basis l r : same_time basis l r = true <-> time_compare basis l r = Eq.
Proof. unfold same_time, time_compare. by destruct (Compare _ _ _). Qed.
Lemma memory_not_after basis l r : dated basis l -> dated basis r -> not_after (memory_less basis) l r ->
  time_compare basis l r = Lt \/ time_compare basis l r = Eq /\ memoryCreatedBefore r l = false.
Proof.
  intros Hl Hr H. unfold not_after in H. rewrite memory_less_of in H. rewrite (less_of_false (dated basis)) in H; [|apply lex_order; [apply time_order|apply created_order]|done|done].
  unfold lex in H. destruct (time_compare basis l r); [right|by left|done]. split; [done|]. rewrite created_less, (less_of_false (dated basis)); [done|apply created_order|done|done].
Qed.
(** The group of [x] is all that stands at its time. *)
Lemma span_time_spec basis x l group rest : span_time basis x l = (group, rest) -> dated basis x -> Forall (dated basis) l ->
  StronglySorted (not_after (memory_less basis)) (x :: l) ->
  l = (group ++ rest)%list /\ Forall (fun y => time_compare basis x y = Eq) group /\ Forall (fun y => time_compare basis x y = Lt) rest.
Proof.
  revert group rest. induction l as [|y l IH]; intros group rest; cbn [span_time]; [by intros [= <- <-]|].
  intros H Hx [Hy Hl]%Forall_cons Hs. apply sorted_head in Hs as [[Hxy Hxl]%Forall_cons Hs]. apply sorted_head in Hs as [Hyl Hs].
  destruct (same_time basis x y) eqn:E.
  - destruct (span_time basis x l) as [g r] eqn:Es. injection H as <- <-. destruct (IH g r eq_refl Hx Hl) as (-> & H1 & H2); [by constructor|].
    split_and!; [done| |done]. constructor; [by apply same_time_eq|done].
  - injection H as <- <-. split_and!; [done|constructor|].
    assert (Hlt : time_compare basis x y = Lt).
    { destruct (memory_not_after basis x y Hx Hy Hxy) as [|[He _]]; [done|]. apply same_time_eq in He. congruence. }
    constructor; [done|]. rewrite Forall_forall in *. intros z Hz. destruct (memory_not_after basis y z Hy (Hl z Hz) (Hyl z Hz)) as [Hc|[Hc _]].
    all: destruct (co_trans _ _ (time_order basis) x y z Hx Hy (Hl z Hz)) as [A1 A2]; [by rewrite Hlt|by rewrite Hc|];
      destruct (time_compare basis x z); [|done|done]; destruct (A2 eq_refl); congruence.
Qed.
Lemma cmp_eq_l {A} (P : A -> Prop) c (x u v : A) : cmp_order P c -> P x -> P u -> P v -> c x u = Eq -> c u v = c x v.
Proof.
  intros H Hx Hu Hv E. pose proof (co_antisym _ _ H x u Hx Hu) as E'. rewrite E in E'. cbn in E'. pose proof (co_antisym _ _ H) as An. destruct (c x v) eqn:F.
  - assert (E1 : c v x = Eq) by (rewrite An, F by done; done). destruct (co_trans _ _ H u x v Hu Hx Hv) as [G1 _]; [by rewrite E'|by rewrite F|].
    destruct (co_trans _ _ H v x u Hv Hx Hu) as [G2 _]; [by rewrite E1|by rewrite E|]. rewrite An in G2 by done. by destruct (c u v).
  - destruct (co_trans _ _ H u x v Hu Hx Hv) as [G1 G2]; [by rewrite E'|by rewrite F|]. destruct (c u v); [|done|done]. destruct (G2 eq_refl). congruence.
  - assert (F' : c v x = Lt) by (rewrite An, F by done; done). destruct (co_trans _ _ H v x u Hv Hx Hu) as [G1 G2]; [by rewrite F'|by rewrite E|].
    rewrite An by done. destruct (c v u); [|done|done]. destruct (G2 eq_refl). congruence.
Qed.
Lemma filter_none {A} (f : A -> bool) l : (forall x, x ∈ l -> f x = false) -> List.filter f l = [].
Proof. induction l as [|x l IH]; intros H; [done|]. cbn. rewrite (H x) by by left. apply IH. intros. apply H. by right. Qed.
Lemma filter_all {A} (f : A -> bool) l : (forall x, x ∈ l -> f x = true) -> List.filter f l = l.
Proof. induction l as [|x l IH]; intros H; [done|]. cbn. rewrite (H x) by by left. f_equal. apply IH. intros. apply H. by right. Qed.
Section Group.
Context (basis : GameTimeBasis) (group rest : list memory_Record) (x : memory_Record).
Context (Hx : dated basis x) (Hg : forall y, y ∈ group -> dated basis y) (Hr : forall y, y ∈ rest -> dated basis y) (Hxg : x ∈ group).
Context (Heq : forall y, y ∈ group -> time_compare basis x y = Eq) (Hlt : forall y, y ∈ rest -> time_compare basis x y = Lt).
Lemma in_group y z : y ∈ group -> z ∈ group -> time_compare basis y z = Eq.
Proof.
  intros Hy Hz. rewrite (cmp_eq_l (dated basis) (time_compare basis) x y z); auto using time_order.
Qed.
Lemma across_groups y z : y ∈ group -> z ∈ rest -> time_compare basis y z = Lt.
Proof. intros Hy Hz. rewrite (cmp_eq_l (dated basis) (time_compare basis) x y z); auto using time_order. Qed.
Lemma sequenced_group y : y ∈ group -> sequenced basis (group ++ rest) y = forallb (fun r => mr_SourceEventSequence r != 0%N) group.
Proof.
  intros Hy. unfold sequenced. rewrite List.filter_app, filter_all, filter_none, app_nil_r; [done| |].
  - intros z Hz. apply not_true_iff_false. rewrite same_time_eq, (across_groups y z Hy Hz). done.
  - intros z Hz. apply same_time_eq, in_group; done.
Qed.
Lemma sequenced_rest y : y ∈ rest -> sequenced basis (group ++ rest) y = sequenced basis rest y.
Proof.
  intros Hy. unfold sequenced. rewrite List.filter_app, filter_none; [done|]. intros z Hz. apply not_true_iff_false. rewrite same_time_eq.
  rewrite (co_antisym _ _ (time_order basis) z y) by auto. rewrite (across_groups z y Hz Hy). done.
Qed.
Lemma order_group_perm : order_group group ≡ₚ group.
Proof. unfold order_group. destruct (forallb _ _); [apply sort_slice_perm|done]. Qed.
Lemma order_group_sorted : StronglySorted (not_after (memory_less basis)) group -> StronglySorted (in_timeline basis (group ++ rest)) (order_group group).
Proof.
  intros Hs. unfold order_group. destruct (forallb _ group) eqn:E.
  - eapply sorted_in; [apply (sort_weak (fun _ => True)); [apply sequence_weak|by apply Forall_true]|]. intros y z. rewrite sort_slice_perm. intros Hy Hz H. right.
    split; [by apply in_group|]. rewrite sequenced_group, E by done. exact H.
  - eapply sorted_in; [exact Hs|]. intros y z Hy Hz H. right. split; [by apply in_group|]. rewrite sequenced_group, E by done.
    destruct (memory_not_after basis y z) as [Hc|[_ Hc]]; auto. rewrite in_group in Hc; done.
Qed.
End Group.
Lemma order_groups_ok basis : forall fuel l, length l <= fuel -> Forall (dated basis) l -> StronglySorted (not_after (memory_less basis)) l ->
  order_groups fuel basis l ≡ₚ l /\ StronglySorted (in_timeline basis l) (order_groups fuel basis l).
Proof.
  induction fuel as [|fuel IH]; intros [|x l] Hf Hd Hs; cbn [order_groups]; [by split; [done|constructor]|cbn in Hf; lia|by split; [done|constructor]|].
  destruct (span_time basis x l) as [g rest] eqn:Es. pose proof Hd as [Hx Hl]%Forall_cons.
  destruct (span_time_spec _ _ _ _ _ Es Hx Hl Hs) as (-> & Hg & Hr). set (group := x :: g). change (x :: g ++ rest) with (group ++ rest) in *.
  apply sorted_app_inv in Hs as [Hs1 Hs2]. apply Forall_app in Hd as [Hd1 Hd2].
  assert (Heq : forall y, y ∈ group -> time_compare basis x y = Eq).
  { intros y [-> |Hy]%elem_of_cons; [|rewrite Forall_forall in Hg; auto]. unfold time_compare. apply Compare_refl. }
  assert (Hlt : forall y, y ∈ rest -> time_compare basis x y = Lt) by by apply Forall_forall.
  assert (Hdg : forall y, y ∈ group -> dated basis y) by by apply Forall_forall. assert (Hdr : forall y, y ∈ rest -> dated basis y) by by apply Forall_forall.
  assert (Hxg : x ∈ group) by by left.
  destruct (IH rest) as [P2 S2]; [unfold group in Hf; cbn in Hf; rewrite length_app in Hf; cbn in *; lia|done|done|]. split.
  - by rewrite order_group_perm, P2.
  - apply sorted_app.
    + eapply (order_group_sorted basis group rest x); try done.
    + eapply sorted_in; [exact S2|]. intros y z. rewrite P2. intros Hy Hz [H|[H1 H2]]; [by left|right]. split; [done|].
      erewrite (sequenced_rest basis group rest x); done.
    + intros y z. rewrite order_group_perm, P2. intros Hy Hz. left. eapply (across_groups basis group rest x); try done.
Qed.
Lemma sequenced_perm basis l l' x : l ≡ₚ l' -> sequenced basis l x = sequenced basis l' x.
Proof.
  intros Hp. unfold sequenced. apply eq_true_iff_eq. rewrite !forallb_forall. split; intros H r [Hr Hs]%List.filter_In; apply H, List.filter_In; (split; [|done]);
    apply list_elem_of_In; (rewrite Hp || rewrite <- Hp); by apply list_elem_of_In.
Qed.
(** The timeline of the visible records: by creation when they share no time, else in
    the order of [in_timeline]. *)
Definition timeline_order (visible : list memory_Record) (l r : memory_Record) : Prop :=
  let basis := SharedGameTimeBasis (mr_GameTime <$> visible) in
  if basis == GameTimeUnknown then memoryCreatedBefore r l = false else in_timeline basis visible l r.
Lemma timeline_ok records now : let visible := List.filter (fun r => negb (isFutureMemory r now)) records in
  selectTimelineMemories records now ≡ₚ visible /\ StronglySorted (timeline_order visible) (selectTimelineMemories records now).
Proof.
  cbv zeta. unfold selectTimelineMemories, timeline_order. set (visible := List.filter _ records). set (basis := SharedGameTimeBasis (mr_GameTime <$> visible)).
  case_bool_decide as E.
  - split; [apply sort_slice_perm|]. eapply sorted_in; [apply (sort_weak (dated basis)); [apply memory_weak|by apply Forall_true; intros; left]|].
    intros y z _ _ H. destruct (memory_not_after basis y z) as [Hc|[_ Hc]]; [by left|by left|done| |done]. unfold time_compare in Hc. by rewrite E, Compare_unknown in Hc.
  - assert (Hd : Forall (dated basis) visible).
    { apply Forall_forall. intros r Hr. right. eapply SharedGameTimeBasis_some; [exact E|]. by apply list_elem_of_fmap_2. }
    destruct (order_groups_ok basis (length (sort_slice (memory_less basis) visible)) (sort_slice (memory_less basis) visible)) as [Hp Hs]; [done|by rewrite sort_slice_perm| |].
    + apply (sort_weak (dated basis)); [apply memory_weak|done].
    + split; [by rewrite Hp, sort_slice_perm|]. eapply sorted_impl; [|exact Hs]. intros x y [H|[H1 H2]]; [by left|right]. split; [done|].
      by rewrite (sequenced_perm basis _ visible) in H2 by apply sort_slice_perm.
Qed.
(** ** The latest that fit *)
Lemma extend_back_ok limit kept before : (memory_tokens kept <= limit)%Z -> exists k, k <= length before
  /\ extend_back limit before kept = (reverse (take k before) ++ kept)%list /\ (memory_tokens (extend_back limit before kept) <= limit)%Z
  /\ (k < length before -> exists m, before !! k = Some m /\ (limit < memory_tokens (m :: extend_back limit before kept))%Z).
Proof.
  revert kept. induction before as [|m before IH]; intros kept Hk; cbn [extend_back]; [exists 0; split_and!; [done|done|done|cbn; lia]|].
  destruct (limit <? memory_tokens (m :: kept))%Z eqn:E; boolp.
  - exists 0. split_and!; [lia|done|done|]. intros _. by exists m.
  - destruct (IH (m :: kept) E) as (k & H1 & H2 & H3 & H4). exists (S k). split_and!; [cbn; lia| |done|].
    + rewrite H2. cbn [take]. rewrite reverse_cons, <- app_assoc. done.
    + intros Hlt. apply H4. cbn in Hlt. lia.
Qed.
Lemma trim_memories_ok ms limit : exists k, k <= length ms /\ trimMemoryProjections ms limit = drop k ms /\ ((limit <= 0)%Z -> k = 0)
  /\ ((0 < limit)%Z -> k < length ms -> (memory_tokens (drop k ms) <= limit)%Z)
  /\ (0 < k -> (limit < memory_tokens (drop (k - 1) ms))%Z).
Proof.
  unfold trimMemoryProjections. destruct (limit <=? 0)%Z eqn:E; boolp; [exists 0; split_and!; [lia|done|done|lia|lia]|].
  destruct (reverse ms) as [|m before] eqn:Hr.
  - apply (f_equal reverse) in Hr. rewrite reverse_involutive in Hr. subst ms. exists 0. split_and!; try done; cbn; lia.
  - assert (Hms : ms = (reverse before ++ [m])%list) by (rewrite <- (reverse_involutive ms), Hr, reverse_cons; done).
    assert (Hlen : length ms = S (length before)) by (rewrite Hms, length_app, length_reverse; cbn; lia).
    destruct (limit <? memory_tokens [m])%Z eqn:E2; boolp.
    + exists (length ms). split_and!; [lia|by rewrite drop_ge|lia|lia|]. intros _. rewrite Hms at 2. rewrite drop_app_length'; [done|]. rewrite length_reverse. lia.
    + destruct (extend_back_ok limit [m] before E2) as (k & H1 & H2 & H3 & H4). exists (length before - k).
      assert (Hd : drop (length before - k) ms = extend_back limit before [m]).
      { rewrite H2, Hms, drop_app_le by (rewrite length_reverse; lia). f_equal. rewrite <- (reverse_involutive before) at 3. rewrite take_reverse. rewrite length_reverse.
        by rewrite reverse_involutive. }
      split_and!; [lia|done|lia|by rewrite Hd|]. intros Hk. destruct H4 as (y & Hy & Hlt); [lia|]. replace (drop (length before - k - 1) ms) with (y :: extend_back limit before [m]); [done|].
      rewrite <- Hd. symmetry. replace (length before - k) with (S (length before - k - 1)) at 2 by lia. apply drop_S.
      rewrite Hms, lookup_app_l by (rewrite length_reverse; lia). rewrite reverse_lookup by lia. rewrite <- Hy. f_equal. lia.
Qed.
(** The limits of what is shown, and of any later part of it. *)
Lemma memories_limits `{Unicode} records recordLimit tokenLimit now bounds :
  let shown := (projectRecentMemories records recordLimit tokenLimit now bounds).1 in
  (Z.of_nat (length shown) <= Z.max 0 recordLimit)%Z /\ (shown = [] \/ ((0 < tokenLimit)%Z -> (memory_tokens shown <= tokenLimit)%Z)).
Proof.
  cbv zeta. unfold projectRecentMemories. destruct records as [|r0 rs] eqn:Er; [split; [cbn; lia|by left]|]. rewrite <- Er. cbn [fst].
  set (limited := trimRecentMemoryRecords _ _). set (project := fun r => _).
  destruct (trim_memories_ok (project <$> limited) tokenLimit) as (k & Hk & -> & _ & Htok & _). rewrite length_fmap in *.
  assert (Hl : (Z.of_nat (length limited) <= Z.max 0 recordLimit)%Z).
  { unfold limited, trimRecentMemoryRecords. destruct (recordLimit <=? 0)%Z eqn:E; boolp; [cbn; lia|]. rewrite length_drop. lia. }
  split; [rewrite length_drop, length_fmap; lia|]. destruct (decide (k < length limited)); [right; auto|left].
  apply drop_ge. rewrite length_fmap. lia.
Qed.
Lemma memory_tokens_suffix l' l : l' <> [] -> l' `suffix_of` l -> (memory_tokens l' <= memory_tokens l)%Z.
Proof.
  intros Hne [before ->]. apply EstimateText_mono. unfold marshalMemories, enc_list_or_null. rewrite fmap_app.
  destruct l' as [|m l']; [done|]. destruct ((marshalMemory <$> before) ++ (marshalMemory <$> (m :: l')))%list eqn:E; [by apply app_nil in E as [_ ?]|]. rewrite <- E.
  apply enc_array_mono, join_sublist. by apply sublist_inserts_l.
Qed.
(** C30: Recent memories are the latest of the past.  The timeline [projectRecentMemories]
    shows from holds exactly the records that are not later than now; it is in the order
    of game time, at one moment by the events' sequence when all its records have one and by creation
    otherwise, and by creation when the records share no time.  Shown are the last of
    it, no more than the record limit and within the token limit: the longest such run, and
    the report counts what was left out. *)
Theorem memories_are_the_latest_past `{Unicode} records recordLimit tokenLimit now bounds : exists k,
  let visible := List.filter (fun r => negb (isFutureMemory r now)) records in
  let timeline := selectTimelineMemories records now in
  let '(shown, report) := projectRecentMemories records recordLimit tokenLimit now bounds in
  timeline ≡ₚ visible /\ StronglySorted (timeline_order visible) timeline /\ Forall (fun r => isFutureMemory r now = false) timeline
  /\ shown = (fun r => projectRecentMemory r now bounds) <$> drop k timeline
  /\ (Z.of_nat (length shown) <= Z.max 0 recordLimit)%Z
  /\ ((0 < tokenLimit)%Z -> shown <> [] -> (memory_tokens shown <= tokenLimit)%Z)
  /\ (0 < k <= length timeline -> (recordLimit <= Z.of_nat (length shown))%Z
        \/ (tokenLimit < memory_tokens ((fun r => projectRecentMemory r now bounds) <$> drop (k - 1) timeline))%Z)
  /\ rt_RetainedCount report = Z.of_nat (length shown) /\ (rt_RetainedCount report + rt_DroppedCount report = Z.of_nat (length timeline))%Z.
Proof.
  set (visible := List.filter _ records). set (timeline := selectTimelineMemories records now).
  destruct (timeline_ok records now) as [Hp Hs]. fold visible timeline in Hp, Hs.
  assert (Hn : Forall (fun r => isFutureMemory r now = false) timeline).
  { rewrite Hp. apply Forall_forall. intros r [_ Hr]%list_elem_of_In%List.filter_In. by apply negb_true_iff. }
  set (limited := trimRecentMemoryRecords timeline recordLimit).
  assert (Hl : exists k1, limited = drop k1 timeline /\ k1 <= length timeline /\ (Z.of_nat (length limited) <= Z.max 0 recordLimit)%Z
    /\ (0 < k1 -> (recordLimit <= Z.of_nat (length limited))%Z)).
  { unfold limited, trimRecentMemoryRecords. destruct (recordLimit <=? 0)%Z eqn:E; boolp.
    - exists (length timeline). rewrite drop_ge by done. cbn. split_and!; [done|lia|lia|lia].
    - eexists. split; [done|]. rewrite length_drop. lia. }
  destruct Hl as (k1 & Hk1 & Hk1l & Hlen & Hfull). set (project := fun r => projectRecentMemory r now bounds).
  destruct (trim_memories_ok (project <$> limited) tokenLimit) as (k2 & Hk2l & Hk2 & _ & Htok & Hmax). rewrite length_fmap in *.
  exists (k1 + k2). cbv zeta. unfold projectRecentMemories. destruct records as [|r0 rs] eqn:Er.
  { assert (Ht : timeline = []) by done. clearbody timeline. subst timeline. split_and!; try done; try (cbn; lia). by rewrite drop_nil. }
  fold timeline limited project. rewrite Hk2. cbn [rt_RetainedCount rt_DroppedCount].
  assert (Hshown : drop k2 (project <$> limited) = project <$> drop (k1 + k2) timeline) by by rewrite <- fmap_drop, Hk1, drop_drop.
  split_and!; try done.
  - rewrite length_drop, length_fmap. lia.
  - intros Ht Hne. apply Htok; [done|]. destruct (decide (k2 < length limited)); [done|]. destruct Hne. apply drop_ge. rewrite length_fmap. lia.
  - intros [Hk Hkl]. destruct (decide (0 < k2)) as [H0|H0].
    + right. replace (k1 + k2 - 1) with (k1 + (k2 - 1)) by lia. rewrite <- drop_drop, <- Hk1, fmap_drop. by apply Hmax.
    + left. rewrite length_drop, length_fmap. replace k2 with 0 by lia. rewrite Nat.sub_0_r. apply Hfull. lia.
  - lia.
Qed.
