(* ===== verification/Histories.v ===== *)
(** * The history of a session: [memory/history.go], [memory/history_text.go], [memory/experiences.go]

    The batches the history is made of, their canonical JSON, their text fields, and the
    sources they are read as.  A batch holds results of the generated protocol types;
    their JSON is a parameter.  Sources, summaries and matches have the fields that a
    projection reads.

    The experiences among them ([experience/contract.go], [context/experiences.go]):
    confirmed interactions that a save still holds, the view an observation gives of
    them, which sources it allows, and the few that are shown. *)

From S2P Require Export Memories.

Local Open Scope go_scope.
Local Open Scope string_scope.

Class Protocol := { protocol_ActionResult : Type; marshal_ActionResult : protocol_ActionResult -> option string }.

(** ** Data *)
Record experience_Record := { er_ClockID : string; er_OccurredTick : Z; er_FocusUntilTick : Z; er_Priority : Z }.
Record HistoryTextField := { tf_Path : string; tf_ActorID : string; tf_Kind : string; tf_Text : string }.
Record HistoryTaskResult := {
  hr_ResultID : string; hr_TaskID : string; hr_Revision : N; hr_State : string; hr_Reason : string; hr_OccurredAt : Z; hr_EvidenceRefs : option (list string)
}.
Record HistorySnapshot := { hsn_Owner : AgentSessionKey; hsn_Watermark : Z; hsn_SummaryRevision : Z; hsn_LeaseID : string }.
Record HistorySourceRef := { sref_ID : string; sref_Sequence : Z; sref_Fingerprint : string }.
Record SummaryCheckpoint := {
  sc_ID : string; sc_Owner : AgentSessionKey; sc_Text : string; sc_Sources : list HistorySourceRef; sc_Times : list HistoryTime
}.
Record memory_Event := {
  me_ID : string; me_Type : string; me_Sequence : N; me_GameTime : option GameTimeSnapshot; me_Facts : option (list SourceContextFact)
}.
Record memory_Decision := { mdc_ToolCalls : option (list ctx_ToolCall); mdc_ControlKind : string; mdc_ControlReason : string }.
Section Histories.
Context `{Protocol}.
Record memory_Execution := {
  mx_Call : ctx_ToolCall; mx_ActionID : string; mx_Started : bool; mx_ActionResult : option protocol_ActionResult;
  mx_RuntimeResult : option ctx_ToolResult; mx_RuntimeError : string
}.
Record memory_Step := { ms_Index : Z; ms_Decision : memory_Decision; ms_Executions : option (list memory_Execution) }.
Record memory_Batch := {
  mb_Owner : AgentSessionKey; mb_Kind : string; mb_Version : Z; mb_TurnID : string; mb_Event : memory_Event;
  mb_Observations : option (list HistoryObservation); mb_Steps : option (list memory_Step); mb_Terminal : HistoryTerminal;
  mb_Legacy : option memory_Record; mb_TaskResult : option HistoryTaskResult; mb_Experience : option experience_Record
}.
Record HistorySource := {
  src_ID : string; src_Sequence : Z; src_Owner : AgentSessionKey; src_CreatedAt : go_Time; src_Times : list HistoryTime;
  src_Batch : option memory_Batch; src_Availability : string; src_Experience : option experience_Record; src_FactID : string
}.
Record HistoryMatch := { hm_Source : HistorySource; hm_Field : HistoryTextField; hm_Span : HistoryTextSpan; hm_MatchedTerms : list string }.

Definition HistoryKindTerminal := "terminal_turn".
Definition HistoryKindLegacy := "legacy_recent".
Definition HistoryKindTaskResult := "task_result".
Definition HistoryKindExperience := "experience".
Definition HistoryVersion : Z := 1.
Definition HistoryAvailable := "available".

(** ** Encoding *)
Definition enc_slice {A} (enc : A -> string) (l : option (list A)) : string := match l with None => "null" | Some l => enc_array (enc <$> l) end.
Definition enc_slice_opt {A} (enc : A -> option string) (l : option (list A)) : option string :=
  match l with None => Some "null" | Some l => items ← mapM_opt enc l; Some (enc_array items) end.
Definition marshalEventBatch (e : memory_Event) : string :=
  enc_object [str_field "id" (me_ID e); str_field "type" (me_Type e); field "sequence" (enc_uint (me_Sequence e));
              field "game_time" (enc_opt marshalSnapshotTime (me_GameTime e)); field "facts" (enc_slice marshalSourceFact (me_Facts e))].
Definition marshalBatchObservation (o : HistoryObservation) : string :=
  enc_object [field "step" (enc_int (ho_Step o)); field "revision" (enc_uint (ho_Revision o)); field "game_time" (enc_opt marshalSnapshotTime (ho_GameTime o))].
Definition marshalExecution (x : memory_Execution) : option string :=
  result ← match mx_ActionResult x with None => Some None | Some r => data ← marshal_ActionResult r; Some (field "action_result" data) end;
  Some (enc_object [field "call" (marshalCall (mx_Call x)); str_field "action_id" (mx_ActionID x); field "started" (enc_bool (mx_Started x)); result;
                    omit_opt "runtime_result" marshalAnswer (mx_RuntimeResult x); omit_text "runtime_error" (mx_RuntimeError x)]).
Definition marshalStep (s : memory_Step) : option string :=
  executions ← enc_slice_opt marshalExecution (ms_Executions s);
  let d := ms_Decision s in
  Some (enc_object [field "index" (enc_int (ms_Index s));
    field "decision" (enc_object [field "ToolCalls" (enc_slice marshalCall (mdc_ToolCalls d));
      field "Control" (enc_object [str_field "Kind" (mdc_ControlKind d); str_field "Reason" (mdc_ControlReason d)])]);
    field "executions" executions]).
Definition marshalTerminal (t : HistoryTerminal) : string :=
  enc_object [str_field "status" (ht_Status t); omit_text "stage" (ht_Stage t); omit_text "reason" (ht_Reason t); omit_text "error" (ht_Error t)].
Definition marshalOutcome (o : TurnOutcome) : string :=
  enc_object [str_field "ToolName" (to_ToolName o); field "ToolArguments" (enc_map_or_null (to_ToolArguments o)); str_field "ActionStatus" (to_ActionStatus o)].
Definition marshalMemoryRecord (r : memory_Record) : string :=
  enc_object [str_field "MemoryID" (mr_MemoryID r); str_field "ProjectionKind" (mr_ProjectionKind r); field "ProjectionVersion" (enc_int (mr_ProjectionVersion r));
    str_field "ProjectionBatchKey" (mr_ProjectionBatchKey r); field "SessionKey" (marshalSessionKey (mr_SessionKey r)); str_field "SourceTurnID" (mr_SourceTurnID r);
    str_field "SourceEventID" (mr_SourceEventID r); field "SourceEventSequence" (enc_uint (mr_SourceEventSequence r)); str_field "EventType" (mr_EventType r);
    field "GameTime" (enc_opt marshalSnapshotTime (mr_GameTime r)); field "SourceContextFacts" (enc_slice marshalSourceFact (mr_SourceContextFacts r));
    field "Outcomes" (enc_slice marshalOutcome (mr_Outcomes r)); str_field "CreatedAt" (t_text (mr_CreatedAt r))].
Definition marshalTaskResult (r : HistoryTaskResult) : string :=
  enc_object [str_field "result_id" (hr_ResultID r); str_field "task_id" (hr_TaskID r); field "revision" (enc_uint (hr_Revision r)); str_field "state" (hr_State r);
              str_field "reason" (hr_Reason r); field "occurred_at" (enc_int (hr_OccurredAt r)); field "evidence_refs" (enc_slice enc_string (hr_EvidenceRefs r))].
Definition marshalExperienceRecord (r : experience_Record) : string :=
  enc_object [str_field "clock_id" (er_ClockID r); field "occurred_tick" (enc_int (er_OccurredTick r));
              field "focus_until_tick" (enc_int (er_FocusUntilTick r)); field "priority" (enc_int (er_Priority r))].
Definition marshalBatch (b : memory_Batch) : option string :=
  steps ← enc_slice_opt marshalStep (mb_Steps b);
  Some (enc_object [field "owner" (marshalSessionKey (mb_Owner b)); str_field "kind" (mb_Kind b); field "version" (enc_int (mb_Version b));
    str_field "turn_id" (mb_TurnID b); field "event" (marshalEventBatch (mb_Event b)); field "observations" (enc_slice marshalBatchObservation (mb_Observations b));
    field "steps" steps; field "terminal" (marshalTerminal (mb_Terminal b)); omit_opt "legacy" marshalMemoryRecord (mb_Legacy b);
    omit_opt "task_result" marshalTaskResult (mb_TaskResult b); omit_opt "experience" marshalExperienceRecord (mb_Experience b)]).

(** ** Validation: [CanonicalHistoryBatch] *)
Definition experience_Validate (r : experience_Record) : bool :=
  negb ((TrimSpace (er_ClockID r) == "") || (128 <? String.length (er_ClockID r))%nat || (er_OccurredTick r <? 0)%Z
        || (er_FocusUntilTick r <=? er_OccurredTick r)%Z || (er_Priority r <? 0)%Z || (100 <? er_Priority r)%Z).
Definition validExperienceBatch (b : memory_Batch) : bool :=
  let e := mb_Event b in
  match mb_Experience b, default [] (me_Facts e) with
  | Some r, [fact] =>
    experience_Validate r && (me_ID e != "") && (String.length (me_ID e) <=? 128)%nat && bool_decide (is_Some (me_GameTime e))
    && (sf_Kind fact == "interaction") && (sf_ActorEntityID fact != "") && (String.length (sf_ActorEntityID fact) <=? 256)%nat
    && (sf_TargetEntityID fact == EntityID (mb_Owner b)) && (TrimSpace (sf_Text fact) != "") && (length (runes (sf_Text fact)) <=? 1024)%nat
    && (String.length (sf_ScopeID fact) <=? 128)%nat && (String.length (sf_Label fact) <=? 128)%nat
    && (String.length (enc_map_or_null (sf_Attributes fact)) <=? 4096)%nat
    && match mb_Legacy b, mb_TaskResult b, default [] (mb_Steps b), default [] (mb_Observations b) with None, None, [], [] => true | _, _, _, _ => false end
    && (mb_TurnID b == "") && (ht_Status (mb_Terminal b) == "") && (ht_Stage (mb_Terminal b) == "") && (ht_Reason (mb_Terminal b) == "")
    && (ht_Error (mb_Terminal b) == "")
  | _, _ => false
  end.
Definition validTaskResultBatch (b : memory_Batch) (r : HistoryTaskResult) : bool :=
  (hr_ResultID r != "") && (hr_TaskID r != "") && (hr_Revision r != 0%N) && (0 <? hr_OccurredAt r)%Z && bool_decide (is_Some (me_GameTime (mb_Event b)))
  && bool_decide (hr_State r ∈ ["succeeded"; "failed"; "cancelled"]) && forallb (fun ref => ref != "") (default [] (hr_EvidenceRefs r))
  && (ht_Status (mb_Terminal b) == "") && (ht_Stage (mb_Terminal b) == "") && (ht_Reason (mb_Terminal b) == "") && (ht_Error (mb_Terminal b) == "")
  && match default [] (mb_Steps b), default [] (mb_Observations b) with [], [] => true | _, _ => false end.
Definition validProjectionKind (kind : string) : bool := bool_decide (kind ∈ ["settled_turn"; "prior_successful_actions"]).
Definition BuildProjectionBatchKey (key : AgentSessionKey) (turnID eventID kind : string) (version : Z) : option string :=
  if (GameID key == "") || (WorldID key == "") || (EntityID key == "") || (TrimSpace turnID == "") || ! validProjectionKind kind || (version <=? 0)%Z then None else
  Some (enc_array [enc_string (GameID key); enc_string (WorldID key); enc_string (EntityID key); enc_string turnID; enc_string eventID; enc_string kind; enc_int version]).
(** The zero [time.Time]. *)
Definition IsZero (t : go_Time) : bool := t_text t == "0001-01-01T00:00:00Z".
Definition validateSQLiteRecord (r : memory_Record) : bool :=
  (mr_MemoryID r != "") && (GameID (mr_SessionKey r) != "") && (WorldID (mr_SessionKey r) != "") && (EntityID (mr_SessionKey r) != "")
  && validProjectionKind (mr_ProjectionKind r) && (0 <? mr_ProjectionVersion r)%Z && (mr_ProjectionBatchKey r != "") && (mr_SourceTurnID r != "")
  && (mr_SourceEventSequence r <=? 9223372036854775807)%N && negb (IsZero (mr_CreatedAt r))
  && (Some (mr_ProjectionBatchKey r) == BuildProjectionBatchKey (mr_SessionKey r) (mr_SourceTurnID r) (mr_SourceEventID r) (mr_ProjectionKind r) (mr_ProjectionVersion r)).
(** The parts of the batch key, encoded; [None] for an invalid batch. *)
Definition history_key (b : memory_Batch) : option (list string) :=
  let owner := mb_Owner b in
  let key (parts : list string) := Some ([enc_string (GameID owner); enc_string (WorldID owner); enc_string (EntityID owner)] ++ parts
                                         ++ [enc_string (mb_Kind b); enc_int (mb_Version b)])%list in
  if ! is_ok (Resolve (GameID owner) (WorldID owner) (EntityID owner)) || (mb_Version b != HistoryVersion) then None else
  if (mb_Kind b != HistoryKindExperience) && bool_decide (is_Some (mb_Experience b)) then None else
  if mb_Kind b == HistoryKindExperience then if validExperienceBatch b then key [enc_string (me_ID (mb_Event b))] else None
  else if mb_Kind b == HistoryKindTerminal then
    match mb_Legacy b, mb_TaskResult b with
    | None, None => if (mb_TurnID b != "") && bool_decide (ht_Status (mb_Terminal b) ∈ ["completed"; "failed"; "cancelled"])
                    then key [enc_string (mb_TurnID b); enc_string (me_ID (mb_Event b))] else None
    | _, _ => None
    end
  else if mb_Kind b == HistoryKindLegacy then
    match mb_Legacy b, mb_TaskResult b with
    | Some r, None => if (mr_SessionKey r == owner) && validateSQLiteRecord r then key [enc_string (mr_ProjectionBatchKey r)] else None
    | _, _ => None
    end
  else if mb_Kind b == HistoryKindTaskResult then
    match mb_TaskResult b, mb_Legacy b with
    | Some r, None => if validTaskResultBatch b r then key [enc_string (hr_ResultID r)] else None
    | _, _ => None
    end
  else None.
(** The canonical bytes, the batch key and the fingerprint. *)
Definition CanonicalHistoryBatch (b : memory_Batch) (maxBytes : Z) : option (string * string * string) :=
  key ← history_key b;
  data ← marshalBatch b;
  if (0 <? maxBytes)%Z && (maxBytes <? Z.of_nat (String.length data))%Z then None else Some (data, enc_array key, sha256Hex data).
Definition HistoryTimes (b : memory_Batch) : list HistoryTime :=
  match mb_Legacy b with
  | Some r => [{| htm_Source := "legacy_event"; htm_Step := 0; htm_Value := mr_GameTime r |}]
  | None => {| htm_Source := "event"; htm_Step := 0; htm_Value := me_GameTime (mb_Event b) |}
            :: ((fun o => {| htm_Source := "observation"; htm_Step := ho_Step o; htm_Value := ho_GameTime o |}) <$> default [] (mb_Observations b))
  end.

(** ** Text fields: [history_text.go] *)
(** [strings.ReplaceAll] of one byte. *)
Definition replace_byte (c : ascii) (new : string) (s : string) : string :=
  text_of (concat ((fun x => if Ascii.eqb x c then bytes_of new else [x]) <$> bytes_of s)).
Definition escape_key (key : string) : string := replace_byte (byte_of 47) "~1" (replace_byte (byte_of 126) "~0" key).
Definition index_path (path : string) (i : nat) : string := path +:+ "/" +:+ FormatInt (Z.of_nat i).
Fixpoint string_leaves (kind path : string) (v : json_any) : list HistoryTextField :=
  match v with
  | JString s => if s == "" then [] else [{| tf_Path := path; tf_ActorID := ""; tf_Kind := kind; tf_Text := s |}]
  | JArray l => concat (imap (fun i leaves => leaves (index_path path i)) ((fun v p => string_leaves kind p v) <$> l))
  | JMap m => concat (snd <$> sort_slice by_name ((fun p => (p.1, string_leaves kind (path +:+ "/" +:+ escape_key p.1) p.2)) <$> m))
  | _ => []
  end.
Definition json_get (key : string) (v : option json_any) : option json_any :=
  match v with Some (JMap m) => snd <$> List.find (fun p => p.1 == key) m | _ => None end.
Definition json_items (v : option json_any) : list json_any := match v with Some (JArray l) => l | _ => [] end.
Definition json_text (v : option json_any) : string := match v with Some (JString s) => s | _ => "" end.
Definition leaves_at (kind path : string) (v : option json_any) : list HistoryTextField := match v with Some v => string_leaves kind path v | None => [] end.
(** The fields of the batch's canonical JSON. *)
Definition fact_fields (path : string) (facts : option json_any) : list HistoryTextField :=
  concat (imap (fun i fact =>
    let text := json_text (json_get "Text" (Some fact)) in
    if text == "" then [] else
    [{| tf_Path := index_path path i +:+ "/Text"; tf_ActorID := json_text (json_get "ActorEntityID" (Some fact)); tf_Kind := json_text (json_get "Kind" (Some fact));
        tf_Text := text |}]) (json_items facts)).
Definition step_fields (i : nat) (step : json_any) : list HistoryTextField :=
  let path := index_path "/steps" i in
  concat (imap (fun j call => leaves_at "tool_argument" (index_path (path +:+ "/decision/ToolCalls") j +:+ "/Arguments") (json_get "Arguments" (Some call)))
            (json_items (json_get "ToolCalls" (json_get "decision" (Some step)))))
  ++ concat (imap (fun j execution =>
       let path := index_path (path +:+ "/executions") j in
       let result := json_get "action_result" (Some execution) in
       leaves_at "tool_argument" (path +:+ "/call/Arguments") (json_get "Arguments" (json_get "call" (Some execution)))
       ++ leaves_at "action_output" (path +:+ "/action_result/output") (json_get "output" result)
       ++ leaves_at "action_error" (path +:+ "/action_result/error") (json_get "error" result))%list
     (json_items (json_get "executions" (Some step)))).
Definition root_fields (root : json_any) : list HistoryTextField :=
  let top key := json_get key (Some root) in
  let reason := json_text (json_get "reason" (top "task_result")) in
  (fact_fields "/event/facts" (json_get "facts" (top "event"))
   ++ fact_fields "/legacy/SourceContextFacts" (json_get "SourceContextFacts" (top "legacy"))
   ++ (if reason == "" then [] else [{| tf_Path := "/task_result/reason"; tf_ActorID := ""; tf_Kind := "task_result"; tf_Text := reason |}])
   ++ concat (imap step_fields (json_items (top "steps"))))%list.
Definition HistoryTextFields (b : memory_Batch) : list HistoryTextField :=
  match marshalBatch b ≫= ParseJSONDocument with Some ((JMap _) as root) => root_fields root | _ => [] end.
End Histories.

(** * Experiences *)

Definition Extension := "gameagent.experiences.v1".
Record experience_View := { vw_ClockID : string; vw_NowTick : Z; vw_ValidFactIDs : gset string }.
Definition Allows (v : option experience_View) (id : string) (r : option experience_Record) : bool :=
  match v, r with
  | Some v, Some r =>
    experience_Validate r && (er_ClockID r == vw_ClockID v) && (er_OccurredTick r <=? vw_NowTick v)%Z && bool_decide (id ∈ vw_ValidFactIDs v)
  | _, _ => false
  end.

(** ** The view of an observation *)
(** [strconv.ParseInt(text, 10, 64)] *)
Fixpoint digits_value (acc : Z) (l : list ascii) : option Z :=
  match l with
  | [] => Some acc
  | c :: l => if is_digit (byte_val c) then digits_value (acc * 10 + Z.of_N (byte_val c - 48)) l else None
  end.
Definition ParseInt (text : string) : option Z :=
  let '(negative, digits) := match bytes_of text with
                             | c :: l => if byte_val c == 45%N then (true, l) else if byte_val c == 43%N then (false, l) else (false, c :: l)
                             | [] => (false, [])
                             end in
  match digits with
  | [] => None
  | _ => value ← digits_value 0 digits;
         let value := if (negative : bool) then (- value)%Z else value in
         if (-9223372036854775808 <=? value)%Z && (value <=? 9223372036854775807)%Z then Some value else None
  end.
Definition view_tick (fields : json_any) (key : string) : option Z :=
  let text := json_text (json_get key (Some fields)) in
  n ← ParseInt text; if (n <? 0)%Z || (FormatInt n != text) then None else Some n.
(** The fields of the extension; a version is a JSON number. *)
Definition extensionFields (value : any_map) : option json_any :=
  match json_get Extension (Some (JMap value)) with
  | Some (JMap m) => match json_get "version" (Some (JMap m)) with Some (JNumber _ "1") => Some (JMap m) | _ => None end
  | _ => None
  end.
Definition ParseView (extensions : option any_map) : outcome string (option experience_View) :=
  match extensions with
  | None => Ok None
  | Some extensions =>
    match json_get Extension (Some (JMap extensions)) with
    | None => Ok None
    | Some _ =>
      match extensionFields extensions with
      | None => Err "unsupported experience extension version"
      | Some fields =>
        let clock := json_text (json_get "clock_id" (Some fields)) in
        match view_tick fields "now_tick" with
        | None => Err "invalid experience view clock"
        | Some now =>
          if clock == "" then Err "invalid experience view clock" else
          match json_get "valid_fact_ids" (Some fields) with
          | Some (JArray ids) =>
            let ids := (fun v => json_text (Some v)) <$> ids in
            if existsb (fun id => (id == "") || (128 <? String.length id)%nat) ids then Err "invalid experience fact id"
            else Ok (Some {| vw_ClockID := clock; vw_NowTick := now; vw_ValidFactIDs := list_to_set ids |})
          | _ => Err "experience view requires valid_fact_ids"
          end
        end
      end
    end
  end.

(** ** The experiences shown *)
Definition MaxRecentExperiences : nat := 8.
Definition MaxRecentExperienceTokens : Z := 768.
Definition RecentExperienceAuthorityTokens : Z := EstimateText experienceAuthorityInstruction.
Section Experiences.
Context `{Protocol}.
Record RecentExperiencesInput := {
  xi_Snapshot : HistorySnapshot; xi_Sources : list HistorySource; xi_MaxTokens : Z; xi_Diagnostics : list string
}.
Definition ExperienceVisible (source : HistorySource) (view : option experience_View) : bool :=
  match src_Experience source, src_Batch source with
  | None, None => true
  | None, Some b => if mb_Kind b != HistoryKindExperience then true else Allows view (me_ID (mb_Event b)) (mb_Experience b)
  | Some _, Some b => Allows view (me_ID (mb_Event b)) (mb_Experience b)
  | Some r, None => Allows view (src_FactID source) (Some r)
  end.
Definition source_experience (source : HistorySource) : option experience_Record := b ← src_Batch source; mb_Experience b.
Definition experience_less (i j : HistorySource) : bool :=
  match source_experience i, source_experience j with
  | None, _ => false
  | Some _, None => true
  | Some a, Some b =>
    if er_Priority a != er_Priority b then (er_Priority b <? er_Priority a)%Z
    else if er_OccurredTick a != er_OccurredTick b then (er_OccurredTick b <? er_OccurredTick a)%Z
    else (src_Sequence j <? src_Sequence i)%Z
  end.
(** The unit of a source that may be shown. *)
Definition experience_unit (owner : AgentSessionKey) (watermark : Z) (view : experience_View) (source : HistorySource) : option ExperienceUnit :=
  match src_Batch source with
  | None => None
  | Some b =>
    match mb_Experience b, default [] (me_Facts (mb_Event b)) with
    | Some r, [fact] =>
      if (src_Owner source == owner) && (0 <? src_Sequence source)%Z && (src_Sequence source <=? watermark)%Z
         && (src_Availability source == HistoryAvailable) && (mb_Owner b == owner) && (mb_Kind b == HistoryKindExperience)
         && ExperienceVisible source (Some view) && (vw_NowTick view <? er_FocusUntilTick r)%Z
      then Some {| xu_SourceID := src_ID source; xu_FactID := me_ID (mb_Event b); xu_GameTime := me_GameTime (mb_Event b); xu_Fact := fact |} else None
    | _, _ => None
    end
  end.
Fixpoint choose_experiences (limit : Z) (candidates : list ExperienceUnit) (units : list ExperienceUnit) (seen : gset string) (diagnostics : list string) :
    list ExperienceUnit * list string :=
  match candidates with
  | [] => (units, diagnostics)
  | u :: candidates =>
    if bool_decide (xu_FactID u ∈ seen) then choose_experiences limit candidates units seen diagnostics else
    let candidate := (units ++ [u])%list in
    if (MaxRecentExperiences <? length candidate)%nat || (limit <? EstimateRecentExperiences candidate)%Z
    then choose_experiences limit candidates units seen (appendUnique diagnostics ReasonRecentExperiences)
    else choose_experiences limit candidates candidate ({[xu_FactID u]} ∪ seen) diagnostics
  end.
Definition ProjectRecentExperiences (input : option RecentExperiencesInput) (owner : AgentSessionKey) (view : option experience_View) :
    list ExperienceUnit * ExperiencesReport :=
  match input with
  | None => ([], mkExperiencesReport 0 0 0 [])
  | Some input =>
    let total := Z.of_nat (length (xi_Sources input)) in
    match view with
    | Some view =>
      if hsn_Owner (xi_Snapshot input) != owner then ([], mkExperiencesReport 0 total 0 (xi_Diagnostics input)) else
      let ordered := sort_slice experience_less (xi_Sources input) in
      let candidates := omap (experience_unit owner (hsn_Watermark (xi_Snapshot input)) view) ordered in
      let '(units, diagnostics) := choose_experiences (Z.min (xi_MaxTokens input) MaxRecentExperienceTokens) candidates [] ∅ (xi_Diagnostics input) in
      (units, mkExperiencesReport (Z.of_nat (length units)) (total - Z.of_nat (length units)) (EstimateRecentExperiences units) diagnostics)
    | None => ([], mkExperiencesReport 0 total 0 (xi_Diagnostics input))
    end
  end.
End Experiences.
