(* ===== verification/Recalling.v ===== *)
(** * History shown: [context/history_projection.go]

    A summary and the latest sources of a session's history, within a token budget; the
    newest source alone is cropped when it does not fit whole.

    Binary search stops where the next size fails; the history shown is what may be
    shown, its newest part whole, and within its budget; so are the experiences. *)

From S2P Require Export Histories.

Local Open Scope go_scope.
Local Open Scope string_scope.

(** ** Binary search

    [for low <= high]: the last accepted try.  A round leaves the sizes on one side of
    the one it tried, so their number is enough fuel ([find_largest_ok]);
    [None] is an error of a try. *)
Fixpoint search {A} (fuel : nat) (try : Z -> option (option A)) (low high : Z) (best : A) : option A :=
  match fuel with
  | O => Some best
  | S fuel =>
    if (high <? low)%Z then Some best else
    let middle := (low + (high - low) / 2)%Z in
    match try middle with
    | None => None
    | Some (Some a) => search fuel try (middle + 1) high a
    | Some None => search fuel try low (middle - 1) best
    end
  end.
Definition find_largest {A} (try : Z -> option (option A)) (high : Z) (best : A) : option A := search (Z.to_nat high) try 1 high best.

Section Recalling.
Context `{Protocol}.
Record HistoryInput := {
  hi_Summary : option SummaryCheckpoint; hi_Sources : list HistorySource; hi_MaxTokens : Z; hi_MaxSummaryTokens : Z
}.
Definition no_projection : HistoryProjection := {| hp_SummaryID := ""; hp_SummaryText := ""; hp_Sources := [] |}.
Definition with_sources (sources : list HistoryUnit) (p : HistoryProjection) : HistoryProjection :=
  {| hp_SummaryID := hp_SummaryID p; hp_SummaryText := hp_SummaryText p; hp_Sources := sources |}.
Definition text_prefix (n : nat) (s : string) : string := text_of_runes (take n (runes s).*1).
Definition rune_len (s : string) : nat := length (runes s).

(** ** The summary *)
Definition cropped_summary (summary : SummaryCheckpoint) (n : nat) : HistoryProjection :=
  {| hp_SummaryID := sc_ID summary; hp_SummaryText := text_prefix n (sc_Text summary) +:+ nl +:+ truncatedMarker; hp_Sources := [] |}.
Definition boundHistorySummary (summary : SummaryCheckpoint) (budget : Z) : HistoryProjection :=
  if (budget <=? 0)%Z then no_projection else
  let whole := {| hp_SummaryID := sc_ID summary; hp_SummaryText := sc_Text summary; hp_Sources := [] |} in
  if (estimateHistoryProjection whole <=? budget)%Z then whole else
  default no_projection (find_largest (fun n =>
    let p := cropped_summary summary (Z.to_nat n) in
    Some (if (estimateHistoryProjection p <=? budget)%Z then Some p else None)) (Z.of_nat (rune_len (sc_Text summary)) - 1) no_projection).
Definition diagnose_if (b : bool) (d : string) (r : HistoryReport) : HistoryReport := if b then hr_diagnose d r else r.
Definition project_summary (input : HistoryInput) (owner : AgentSessionKey) (current : option GameTimeSnapshot) (report : HistoryReport) :
    HistoryProjection * HistoryReport :=
  match hi_Summary input with
  | None => (no_projection, report)
  | Some summary =>
    let '(visible, unknown) := HistoryVisibility (sc_Times summary) current in
    if sc_Owner summary != owner then (no_projection, hr_diagnose "summary_owner_mismatch" report)
    else if (sc_ID summary == "") || (TrimSpace (sc_Text summary) == "") then (no_projection, hr_diagnose "summary_invalid" report)
    else
      let report := diagnose_if unknown "summary_time_unknown" report in
      if ! visible then (no_projection, hr_diagnose "summary_time_hidden" report) else
      let p := boundHistorySummary summary (Z.min (hi_MaxSummaryTokens input) (hi_MaxTokens input)) in
      (p, if hp_SummaryText p != sc_Text summary then hr_diagnose "summary_budget_exceeded" (hr_diagnose ReasonHistoryBudgetExceeded report) else report)
  end.
(** The sources the summary shown stands for. *)
Definition covered_sources (input : HistoryInput) (p : HistoryProjection) : gset string :=
  match hi_Summary input with
  | Some summary => if hp_SummaryText p != "" then list_to_set (sref_ID <$> sc_Sources summary) else ∅
  | None => ∅
  end.

(** ** The candidates *)
Definition source_less (i j : HistorySource) : bool :=
  if src_Sequence i == src_Sequence j then str_lt (src_ID i) (src_ID j) else (src_Sequence i <? src_Sequence j)%Z.
Definition foreign (owner : AgentSessionKey) (s : HistorySource) : bool :=
  (src_Owner s != owner)
  || match src_Batch s with
     | Some b => (mb_Owner b != owner) || match mb_Legacy b with Some r => mr_SessionKey r != owner | None => false end
     | None => false
     end.
Definition unavailable (s : HistorySource) : bool := (src_Availability s != "") && (src_Availability s != HistoryAvailable).
(** A source with its batch and its time relation, if it may be shown; and the report. *)
Definition candidate_of (owner : AgentSessionKey) (current : option GameTimeSnapshot) (covered : gset string) (s : HistorySource) (report : HistoryReport) :
    option (HistorySource * memory_Batch * string) * HistoryReport :=
  let is_experience := match src_Batch s with Some b => mb_Kind b == HistoryKindExperience | None => false end in
  if is_experience then (None, report) else
  if foreign owner s then (None, hr_diagnose ("history_owner_mismatch: " +:+ src_ID s) report) else
  match src_Batch s with
  | None => (None, hr_diagnose ("history_source_unavailable: " +:+ src_ID s) report)
  | Some b =>
    if unavailable s then (None, hr_diagnose ("history_source_unavailable: " +:+ src_ID s) report) else
    let '(visible, unknown) := HistoryVisibility (HistoryTimes b ++ src_Times s)%list current in
    let report := diagnose_if unknown ("history_time_unknown: " +:+ src_ID s) report in
    if ! visible then (None, hr_diagnose ("history_time_hidden: " +:+ src_ID s) report) else
    (if bool_decide (src_ID s ∈ covered) then None else Some (s, b, if unknown then "unknown" else "visible"), report)
  end.
Fixpoint candidates_of (owner : AgentSessionKey) (current : option GameTimeSnapshot) (covered : gset string) (l : list HistorySource) (report : HistoryReport) :
    list (HistorySource * memory_Batch * string) * HistoryReport :=
  match l with
  | [] => ([], report)
  | s :: l =>
    let '(c, report) := candidate_of owner current covered s report in
    let '(cs, report) := candidates_of owner current covered l report in
    (option_list c ++ cs, report)%list
  end.

(** ** Units *)
Definition fullHistoryUnit (s : HistorySource) (b : memory_Batch) (relation : string) : option HistoryUnit :=
  if src_ID s == "" then None else
  '(data, _, _) ← CanonicalHistoryBatch b 0;
  Some {| hu_SourceID := src_ID s; hu_Sequence := src_Sequence s; hu_TimeRelation := relation; hu_Content := data; hu_Complete := true;
          hu_VisibleSpans := (fun f => {| ts_Path := tf_Path f; ts_Start := 0; ts_End := Z.of_nat (rune_len (tf_Text f)) |}) <$> HistoryTextFields b |}.
(** [strings.Split(strings.TrimPrefix(path, "/"), "/")] *)
Fixpoint split_byte (c : ascii) (current : list ascii) (l : list ascii) : list (list ascii) :=
  match l with
  | [] => [reverse current]
  | x :: l => if Ascii.eqb x c then reverse current :: split_byte c [] l else split_byte c (x :: current) l
  end.
Definition path_parts (path : string) : list string :=
  let l := bytes_of path in
  text_of <$> split_byte (byte_of 47) [] (match l with x :: t => if Ascii.eqb x (byte_of 47) then t else l | [] => [] end).
(** [strings.ReplaceAll] of two bytes. *)
Fixpoint replace_pair (a b : ascii) (new : ascii) (l : list ascii) : list ascii :=
  match l with
  | x :: t => match t with
              | y :: t' => if Ascii.eqb x a && Ascii.eqb y b then new :: replace_pair a b new t' else x :: replace_pair a b new t
              | [] => [x]
              end
  | [] => []
  end.
Definition unescape_key (part : string) : string :=
  text_of (replace_pair (byte_of 126) (byte_of 48) (byte_of 126) (replace_pair (byte_of 126) (byte_of 49) (byte_of 47) (bytes_of part))).
(** The value with the string at the path replaced; [None] when there is none. *)
Definition update_key (key : string) (f : json_any -> option json_any) (m : any_map) : option any_map :=
  match json_get key (Some (JMap m)) with
  | Some child => child ← f child; Some ((fun p => if p.1 == key then (p.1, child) else p) <$> m)
  | None => None
  end.
(** [strconv.Atoi] *)
Definition Atoi := ParseInt.
Definition update_index (part : string) (f : json_any -> option json_any) (l : list json_any) : option (list json_any) :=
  i ← Atoi part;
  if (i <? 0)%Z then None else child ← l !! Z.to_nat i; child ← f child; Some (<[Z.to_nat i := child]> l).
Fixpoint setHistoryString (parts : list string) (text : string) (node : json_any) : option json_any :=
  match parts with
  | [] => match node with JString _ => Some (JString text) | _ => None end
  | part :: parts =>
    let part := unescape_key part in
    match node with
    | JMap m => JMap <$> update_key part (setHistoryString parts text) m
    | JArray l => JArray <$> update_index part (setHistoryString parts text) l
    | _ => None
    end
  end.
(** The unit with every text field cut to [limit] runes.  Every candidate sets all the
    fields, so each can be made from the parsed document. *)
Definition cropped_unit (unit : HistoryUnit) (root : json_any) (fields : list HistoryTextField) (limit : nat) : option HistoryUnit :=
  root ← foldl (fun root f => root ≫= setHistoryString (path_parts (tf_Path f)) (text_prefix limit (tf_Text f))) (Some root) fields;
  Some {| hu_SourceID := hu_SourceID unit; hu_Sequence := hu_Sequence unit; hu_TimeRelation := hu_TimeRelation unit; hu_Content := marshal_any root;
          hu_Complete := false;
          hu_VisibleSpans := omap (fun f => let n := Nat.min limit (rune_len (tf_Text f)) in
                                           if (0 <? n)%nat then Some {| ts_Path := tf_Path f; ts_Start := 0; ts_End := Z.of_nat n |} else None) fields |}.
Definition cropHistoryUnit (unit : HistoryUnit) (b : memory_Batch) (summary : HistoryProjection) (budget : Z) : option HistoryUnit :=
  match ParseJSONDocument (hu_Content unit) with
  | Some (JMap m) =>
    let root := JMap (put_key truncatedMarker (JBool true) m) in
    let fields := HistoryTextFields b in
    let maxRunes := foldr Nat.max 0%nat ((fun f => rune_len (tf_Text f)) <$> fields) in
    let makeCandidate n :=
      candidate ← cropped_unit unit root fields n;
      if (estimateHistoryProjection (with_sources [candidate] summary) <=? budget)%Z then Some candidate else None in
    best ← makeCandidate 0%nat;
    if (maxRunes =? 0)%nat then None else find_largest (fun n => Some (makeCandidate (Z.to_nat n))) (Z.of_nat maxRunes - 1) best
  | _ => None
  end.

(** All that the input holds, whatever is shown of it. *)
Definition EstimateHistoryInputTokens (input : HistoryInput) : Z :=
  estimateHistoryProjection
    {| hp_SummaryID := match hi_Summary input with Some s => sc_ID s | None => "" end;
       hp_SummaryText := match hi_Summary input with Some s => sc_Text s | None => "" end;
       hp_Sources := omap (fun s => b ← src_Batch s; fullHistoryUnit s b "unknown") (hi_Sources input) |}.

(** ** [projectHistory] *)
(** The candidates from the newest back; [newest]: none was tried yet. *)
Fixpoint fill_history (budget : Z) (newest : bool) (candidates : list (HistorySource * memory_Batch * string)) (p : HistoryProjection) (report : HistoryReport) :
    HistoryProjection * HistoryReport :=
  match candidates with
  | [] => (p, report)
  | (s, b, relation) :: candidates =>
    match fullHistoryUnit s b relation with
    | None => fill_history budget false candidates p (hr_diagnose ("history_source_invalid: " +:+ src_ID s) report)
    | Some unit =>
      let withUnit := with_sources (unit :: hp_Sources p) p in
      if (estimateHistoryProjection withUnit <=? budget)%Z then fill_history budget false candidates withUnit report else
      let report := hr_diagnose ReasonHistoryBudgetExceeded report in
      if ! newest then (p, report) else
      match cropHistoryUnit unit b p budget with
      | Some cropped => (with_sources [cropped] p, hr_diagnose ("history_source_cropped: " +:+ hu_SourceID unit) report)
      | None => (p, hr_diagnose ("history_framing_over_budget: " +:+ hu_SourceID unit) report)
      end
    end
  end.
Definition projectHistory (input : HistoryInput) (owner : AgentSessionKey) (current : option GameTimeSnapshot) : HistoryProjection * HistoryReport :=
  let total := Z.of_nat (length (hi_Sources input)) in
  let report := mkHistoryReport 0 total false 0 [] in
  if (hi_MaxTokens input <=? 0)%Z
  then (no_projection, diagnose_if (nonempty (hi_Sources input) || bool_decide (is_Some (hi_Summary input))) ReasonHistoryBudgetExceeded report) else
  let '(p, report) := project_summary input owner current report in
  let ordered := sort_slice source_less (hi_Sources input) in
  let '(candidates, report) := candidates_of owner current (covered_sources input p) ordered report in
  let '(p, report) := fill_history (hi_MaxTokens input) true (reverse candidates) p report in
  (p, hr_refresh p total report).
End Recalling.

#[local] Close Scope string_scope.

(** * What is shown of history and experiences *)

(** ** Binary search *)
Section Search.
Context {A : Type} (try : Z -> option (option A)).
(** The search is between a size that is accepted (or none, with [best]) and one that
    is not. *)
Lemma middle_between low high : (low <= high)%Z -> (low <= low + (high - low) / 2 <= high)%Z.
Proof. intros H. pose proof (Z.div_mod (high - low) 2 ltac:(lia)). pose proof (Z.mod_pos_bound (high - low) 2 ltac:(lia)). lia. Qed.
Lemma search_ok start top none : forall fuel low high best r, (high - low < Z.of_nat fuel)%Z -> (start <= low)%Z -> (low - 1 <= high <= top)%Z ->
  (low = start /\ best = none \/ (start < low)%Z /\ try (low - 1) = Some (Some best)) -> (high = top \/ try (high + 1)%Z = Some None) ->
  search fuel try low high best = Some r -> exists n, (start - 1 <= n <= top)%Z
  /\ ((n = start - 1)%Z /\ r = none \/ (start <= n)%Z /\ try n = Some (Some r)) /\ ((n < top)%Z -> try (n + 1)%Z = Some None).
Proof.
  assert (Hend : forall low high best r, (start <= low)%Z -> (high = low - 1)%Z -> (high <= top)%Z ->
    (low = start /\ best = none \/ (start < low)%Z /\ try (low - 1) = Some (Some best)) -> (high = top \/ try (high + 1)%Z = Some None) ->
    Some best = Some r -> exists n, (start - 1 <= n <= top)%Z
    /\ ((n = start - 1)%Z /\ r = none \/ (start <= n)%Z /\ try n = Some (Some r)) /\ ((n < top)%Z -> try (n + 1)%Z = Some None)).
  { intros low high best r Hs -> Ht Hlow Hhigh [= <-]. exists (low - 1)%Z. split_and!; [lia|lia| |].
    - destruct Hlow as [[-> ->]|[? ?]]; [by left|right; split; [lia|done]].
    - intros Hn. destruct Hhigh as [H|H]; [lia|done]. }
  induction fuel as [|fuel IH]; intros low high best r Hf Hs Hl Hlow Hhigh; cbn [search]; [apply (Hend low high); lia || done|].
  destruct (high <? low)%Z eqn:E; boolp; [apply (Hend low high); lia || done|]. pose proof (middle_between low high E) as Hm.
  assert (Hh : ((high - low) / 2 <= (high - low))%Z) by lia. set (middle := (low + (high - low) / 2)%Z) in *.
  destruct (try middle) as [[a|]|] eqn:Et; [| |done].
  - apply IH; try lia; [|done]. right. split; [lia|]. by replace (middle + 1 - 1)%Z with middle by lia.
  - apply IH; try lia; [done|]. right. by replace (middle - 1 + 1)%Z with middle by lia.
Qed.
Lemma search_error : forall fuel low high best, search fuel try low high best = None -> exists n, (low <= n <= high)%Z /\ try n = None.
Proof.
  induction fuel as [|fuel IH]; intros low high best; cbn [search]; [done|]. destruct (high <? low)%Z eqn:E; [done|]. boolp.
  pose proof (middle_between low high E) as Hm. set (middle := (low + (high - low) / 2)%Z) in *. destruct (try middle) as [[a|]|] eqn:Et; [| |exists middle; split; [lia|done]].
  - intros (n & Hn & H)%IH. exists n. split; [lia|done].
  - intros (n & Hn & H)%IH. exists n. split; [lia|done].
Qed.
Lemma find_largest_ok top best r : find_largest try top best = Some r -> exists n, (0 <= n <= Z.max 0 top)%Z
  /\ (n = 0%Z /\ r = best \/ (1 <= n)%Z /\ try n = Some (Some r)) /\ ((n < top)%Z -> try (n + 1)%Z = Some None).
Proof.
  unfold find_largest. destruct (decide (0 <= top)%Z) as [Ht|Ht].
  - intros (n & H1 & H2 & H3)%(search_ok 1 top best); try lia; [|by left..]. exists n. split_and!; [lia|lia| |done]. naive_solver lia.
  - replace (Z.to_nat top) with 0 by lia. intros [= <-]. exists 0%Z. split_and!; [lia|lia|by left|lia].
Qed.
End Search.

(** ** The history *)
Section Recalled.
Context {protocol : Protocol}.
(** The source as a candidate of the projection. *)
Definition candidate (owner : AgentSessionKey) (current : option GameTimeSnapshot) (covered : gset string) (s : HistorySource) :
    option (HistorySource * memory_Batch * string) :=
  (candidate_of owner current covered s (mkHistoryReport 0 0 false 0 [])).1.
Lemma candidate_of_report owner current covered s r : (candidate_of owner current covered s r).1 = candidate owner current covered s.
Proof. unfold candidate, candidate_of. cbv zeta. repeat case_match; try done; congruence. Qed.
(** What makes a source a candidate. *)
Record showable (owner : AgentSessionKey) (current : option GameTimeSnapshot) (covered : gset string) (s : HistorySource) (b : memory_Batch) (relation : string) : Prop := {
  sw_batch : src_Batch s = Some b;
  sw_kind : mb_Kind b <> HistoryKindExperience;
  sw_owner : foreign owner s = false;
  sw_available : unavailable s = false;
  sw_past : Forall (fun t => is_future (htm_Value t) current = false) (HistoryTimes b ++ src_Times s);
  sw_uncovered : src_ID s ∉ covered;
  sw_relation : relation = if (HistoryVisibility (HistoryTimes b ++ src_Times s)%list current).2 then "unknown"%string else "visible"%string
}.
Lemma candidate_showable owner current covered s c : candidate owner current covered s = Some c <-> exists b relation, c = (s, b, relation) /\ showable owner current covered s b relation.
Proof.
  unfold candidate, candidate_of. cbv zeta. split.
  - destruct (src_Batch s) as [b|] eqn:Eb; [|by destruct (foreign owner s)]. destruct (mb_Kind b == HistoryKindExperience) eqn:Ek; [done|].
    destruct (foreign owner s) eqn:Ef; [done|]. destruct (unavailable s) eqn:Eu; [done|]. destruct (HistoryVisibility _ _) as [visible unknown] eqn:Ev.
    destruct visible; cbn; [|done]. destruct (bool_decide (src_ID s ∈ covered)) eqn:Ec; [done|]. intros Hc. injection Hc as <-. exists b. eexists. split; [done|]. boolp.
    split; try done; [|by rewrite Ev]. apply visible_not_future. by rewrite Ev.
  - intros (b & relation & -> & [Hb Hk Ho Ha Hp Hc ->]). rewrite Hb, Ho, Ha. rewrite (bool_decide_eq_false_2 (mb_Kind b = _)) by done.
    apply visible_not_future in Hp. destruct (HistoryVisibility _ _) as [visible unknown]. cbn in Hp. subst visible. cbn. by rewrite bool_decide_eq_false_2.
Qed.
Lemma candidates_of_ok owner current covered l : forall r, (candidates_of owner current covered l r).1 = omap (candidate owner current covered) l.
Proof.
  induction l as [|s l IH]; intros r; cbn [candidates_of omap list_omap]; [done|]. pose proof (candidate_of_report owner current covered s r) as E.
  destruct (candidate_of _ _ _ s r) as [c r1]. cbn in E. subst c. specialize (IH r1). destruct (candidates_of _ _ _ l r1) as [cs r2]. cbn in IH |- *. subst cs.
  by destruct (candidate _ _ _ s).
Qed.
(** *** Units *)
Definition unit_of (c : HistorySource * memory_Batch * string) : option HistoryUnit := let '(s, b, relation) := c in fullHistoryUnit s b relation.
Lemma unit_of_ok c u : unit_of c = Some u -> hu_SourceID u = src_ID c.1.1 /\ hu_Sequence u = src_Sequence c.1.1 /\ hu_TimeRelation u = c.2 /\ hu_Complete u = true.
Proof.
  destruct c as [[s b] relation]. cbn. unfold fullHistoryUnit. destruct (src_ID s == "") eqn:E; [done|]. destruct (CanonicalHistoryBatch b 0) as [[[data key] print]|]; [|done].
  intros [= <-]. done.
Qed.
Lemma cropped_unit_ok unit root fields limit u : cropped_unit unit root fields limit = Some u ->
  hu_SourceID u = hu_SourceID unit /\ hu_Sequence u = hu_Sequence unit /\ hu_TimeRelation u = hu_TimeRelation unit /\ hu_Complete u = false.
Proof. unfold cropped_unit. intros (root' & _ & [= <-])%bind_Some. done. Qed.
Lemma crop_ok unit b summary budget u : cropHistoryUnit unit b summary budget = Some u ->
  hu_SourceID u = hu_SourceID unit /\ hu_Sequence u = hu_Sequence unit /\ hu_TimeRelation u = hu_TimeRelation unit /\ hu_Complete u = false
  /\ (estimateHistoryProjection (with_sources [u] summary) <= budget)%Z.
Proof.
  unfold cropHistoryUnit. destruct (ParseJSONDocument _) as [[| | | | |m]|]; try done. cbv zeta. set (root := JMap _). set (fields := HistoryTextFields b).
  assert (Hm : forall n u, (candidate ← cropped_unit unit root fields n;
      if (estimateHistoryProjection (with_sources [candidate] summary) <=? budget)%Z then Some candidate else None) = Some u ->
    hu_SourceID u = hu_SourceID unit /\ hu_Sequence u = hu_Sequence unit /\ hu_TimeRelation u = hu_TimeRelation unit /\ hu_Complete u = false
    /\ (estimateHistoryProjection (with_sources [u] summary) <= budget)%Z).
  { intros n v (c & Hc & Hv)%bind_Some. destruct (_ <=? budget)%Z eqn:E; [|done]. injection Hv as <-. apply cropped_unit_ok in Hc as (? & ? & ? & ?).
    split_and!; try done. by apply Z.leb_le. }
  intros (best & Hb & Hu)%bind_Some. destruct (_ =? 0)%nat; [done|]. apply find_largest_ok in Hu as (n & _ & [[_ ->]|[_ [= Hn]]] & _); by eapply Hm.
Qed.
(** [u] is the unit of the candidate, cut. *)
Definition cut_unit_of (c : HistorySource * memory_Batch * string) (u : HistoryUnit) : Prop :=
  exists whole, unit_of c = Some whole /\ hu_SourceID u = hu_SourceID whole /\ hu_Sequence u = hu_Sequence whole
  /\ hu_TimeRelation u = hu_TimeRelation whole /\ hu_Complete u = false.
(** The candidate, with all that is shown, is more than the budget. *)
Definition one_more_exceeds (budget : Z) (p : HistoryProjection) (shown : list HistoryUnit) (c : HistorySource * memory_Batch * string) : Prop :=
  exists u, unit_of c = Some u /\ (budget < estimateHistoryProjection (with_sources (u :: shown) p))%Z.
Lemma fill_ok budget cs : forall newest p report p' report', fill_history budget newest cs p report = (p', report') ->
  (estimateHistoryProjection p <= budget)%Z -> (estimateHistoryProjection p' <= budget)%Z /\ exists l, p' = with_sources l p
  /\ ((exists k, k <= length cs /\ l = omap unit_of (reverse (take k cs)) ++ hp_Sources p /\ forall c, cs !! k = Some c -> one_more_exceeds budget p l c)
      \/ newest = true /\ exists c u, cs !! 0 = Some c /\ one_more_exceeds budget p (hp_Sources p) c /\ l = [u] /\ cut_unit_of c u).
Proof.
  assert (Hsame : forall p, p = with_sources (hp_Sources p) p) by by intros [].
  induction cs as [|[[s b] relation] cs IH]; intros newest p report p' report' H Hp; cbn [fill_history] in H.
  { injection H as <- <-. split; [done|]. exists (hp_Sources p). split; [apply Hsame|]. left. by exists 0. }
  destruct (fullHistoryUnit s b relation) as [u|] eqn:Eu; cycle 1.
  { apply IH in H as (Hb & l & -> & H); [|done]. split; [done|]. exists l. split; [done|]. left. destruct H as [(k & Hk & -> & Hn)|[? _]]; [|done].
    exists (S k). split_and!; [cbn; lia| |done]. cbn [take]. rewrite reverse_cons, omap_app. cbn. rewrite Eu. by rewrite app_nil_r. }
  destruct (_ <=? budget)%Z eqn:E; boolp.
  { apply IH in H as (Hb & l & -> & H); [|done]. split; [done|]. exists l. split; [done|]. left. destruct H as [(k & Hk & -> & Hn)|[? _]]; [|done].
    exists (S k). split_and!; [cbn; lia| |exact Hn]. cbn [take]. rewrite reverse_cons, omap_app. cbn. rewrite Eu. by rewrite <- app_assoc. }
  assert (Hx : one_more_exceeds budget p (hp_Sources p) (s, b, relation)) by by exists u.
  assert (Hnone : (estimateHistoryProjection p <= budget)%Z /\ exists l, p = with_sources l p
    /\ ((exists k, k <= length ((s, b, relation) :: cs) /\ l = omap unit_of (reverse (take k ((s, b, relation) :: cs))) ++ hp_Sources p
           /\ forall c, ((s, b, relation) :: cs) !! k = Some c -> one_more_exceeds budget p l c)
        \/ newest = true /\ exists c u, ((s, b, relation) :: cs) !! 0 = Some c /\ one_more_exceeds budget p (hp_Sources p) c /\ l = [u] /\ cut_unit_of c u)).
  { split; [done|]. exists (hp_Sources p). split; [apply Hsame|]. left. exists 0. split_and!; [lia|done|]. by intros c [= <-]. }
  destruct newest; [|by injection H as <- <-]. cbn [negb] in H. destruct (cropHistoryUnit u b p budget) as [cropped|] eqn:Ec; [|by injection H as <- <-].
  injection H as <- <-. apply crop_ok in Ec as (? & ? & ? & ? & ?). split; [done|]. exists [cropped]. split; [done|]. right. split; [done|].
  eexists _, cropped. split_and!; [done|done|done|]. by exists u.
Qed.
(** *** The summary *)
(** Nothing, or the summary of the session, whole or as its longest prefix of runes that
    is tried and fits. *)
Definition summary_shown (input : HistoryInput) (owner : AgentSessionKey) (current : option GameTimeSnapshot) (p : HistoryProjection) : Prop :=
  p = no_projection \/ exists summary, let budget := Z.min (hi_MaxSummaryTokens input) (hi_MaxTokens input) in
    hi_Summary input = Some summary /\ sc_Owner summary = owner /\ Forall (fun t => is_future (htm_Value t) current = false) (sc_Times summary)
    /\ (estimateHistoryProjection p <= budget)%Z
    /\ (p = {| hp_SummaryID := sc_ID summary; hp_SummaryText := sc_Text summary; hp_Sources := [] |}
        \/ exists n, 1 <= n < rune_len (sc_Text summary) /\ p = cropped_summary summary n
             /\ (S n < rune_len (sc_Text summary) -> (budget < estimateHistoryProjection (cropped_summary summary (S n)))%Z)).
Lemma bound_summary_ok summary budget : let p := boundHistorySummary summary budget in p = no_projection \/ (estimateHistoryProjection p <= budget)%Z
  /\ (p = {| hp_SummaryID := sc_ID summary; hp_SummaryText := sc_Text summary; hp_Sources := [] |}
      \/ exists n, 1 <= n < rune_len (sc_Text summary) /\ p = cropped_summary summary n
           /\ (S n < rune_len (sc_Text summary) -> (budget < estimateHistoryProjection (cropped_summary summary (S n)))%Z)).
Proof.
  cbv zeta. unfold boundHistorySummary. destruct (budget <=? 0)%Z; [by left|]. set (whole := Build_HistoryProjection _ _ _).
  destruct (estimateHistoryProjection whole <=? budget)%Z eqn:E; boolp; [right; split; [done|by left]|]. set (len := rune_len (sc_Text summary)).
  destruct (find_largest _ _ _) as [p|] eqn:Ef; [|by left]. cbn [default]. apply find_largest_ok in Ef as (n & Hn & Hp & Hmax).
  destruct Hp as [[_ ->]|[H1 Hp]]; [by left|]. right. destruct (estimateHistoryProjection (cropped_summary summary (Z.to_nat n)) <=? budget)%Z eqn:E1; [|by injection Hp].
  injection Hp as <-. boolp. split; [done|]. right. exists (Z.to_nat n). split_and!; [lia|lia|done|]. intros Hlt. specialize (Hmax ltac:(lia)).
  replace (Z.to_nat (n + 1)) with (S (Z.to_nat n)) in Hmax by lia. destruct (_ <=? budget)%Z eqn:E2; [done|]. by boolp.
Qed.
Lemma project_summary_ok input owner current report p report' : project_summary input owner current report = (p, report') ->
  summary_shown input owner current p /\ hp_Sources p = [].
Proof.
  unfold project_summary, summary_shown. destruct (hi_Summary input) as [summary|]; [|intros [= <- <-]; split; [by left|done]].
  destruct (HistoryVisibility _ _) as [visible unknown] eqn:Ev. destruct (sc_Owner summary == owner) eqn:Eo; cbn [negb]; [|intros [= <- <-]; split; [by left|done]].
  destruct (_ || _); [intros [= <- <-]; split; [by left|done]|]. destruct visible; cbn [negb]; [|intros [= <- <-]; split; [by left|done]].
  intros [= <- _]. destruct (bound_summary_ok summary (Z.min (hi_MaxSummaryTokens input) (hi_MaxTokens input))) as [E|[Hb Hp]].
  - rewrite E. split; [by left|done].
  - split; [|by destruct Hp as [-> |(n & _ & -> & _)]]. right. exists summary. boolp. split_and!; try done. apply visible_not_future. by rewrite Ev.
Qed.
Lemma no_projection_tokens : estimateHistoryProjection no_projection = 0%Z.
Proof. done. Qed.
Lemma source_weak : weak_order (fun _ => True) source_less.
Proof.
  apply (weak_ext _ _ (less_of (lex (fun l r => (src_Sequence l ?= src_Sequence r)%Z) (fun l r => str_compare (src_ID l) (src_ID r))))).
  - intros l r. unfold source_less, less_of, lex. case_bool_decide as E.
    + rewrite E, Z.compare_refl. apply str_lt_compare.
    + rewrite Z.ltb_compare. destruct (_ ?= _)%Z eqn:C; [by apply Z.compare_eq in C|done|done].
  - apply weak_of_cmp, lex_order; [apply z_order|apply s_order].
Qed.
Lemma shown_units owner current covered cs (l : list HistorySource) : Forall (fun c => exists s b relation, c = (s, b, relation) /\ s ∈ l /\ showable owner current covered s b relation) cs ->
  Forall (fun u => exists s b relation, s ∈ l /\ showable owner current covered s b relation /\ hu_SourceID u = src_ID s /\ hu_TimeRelation u = relation) (omap unit_of cs).
Proof.
  intros F. apply Forall_forall. intros u (c & Hc & Hu)%list_elem_of_omap. rewrite Forall_forall in F. apply F in Hc as (s & b & relation & -> & Hs & Hw).
  exists s, b, relation. apply unit_of_ok in Hu as (? & ? & ? & ?). by split_and!.
Qed.
(** C28: The history shown is the latest that may be shown and fits.  [projectHistory] stays
    within its token budget.  Its summary is that of this session, of no future time, within
    the summary's own budget, whole or cut at a length after which one rune more does not
    fit.  Its sources are, in the order of their sequence, the newest
    candidates whole (one that cannot be encoded is left out), and the next older one does
    not fit any more; or, when not even the newest fits whole, that one cut.  A candidate is a source of the
    input that is owned by the session, available, no experience, of no future time, and not
    covered by the summary that is shown; its time relation tells whether its time is known.
    The report counts what is shown and what is not. *)
Theorem history_is_the_latest_that_fits input owner current :
  let '(p, report) := projectHistory input owner current in
  let covered := covered_sources input p in
  let newest := reverse (omap (candidate owner current covered) (sort_slice source_less (hi_Sources input))) in
  (estimateHistoryProjection p <= Z.max 0 (hi_MaxTokens input))%Z /\ summary_shown input owner current (with_sources [] p)
  /\ ((exists k, k <= length newest /\ hp_Sources p = omap unit_of (reverse (take k newest))
          /\ ((0 < hi_MaxTokens input)%Z -> forall c, newest !! k = Some c -> one_more_exceeds (hi_MaxTokens input) p (hp_Sources p) c))
       \/ exists c u, newest !! 0 = Some c /\ one_more_exceeds (hi_MaxTokens input) p [] c /\ hp_Sources p = [u] /\ cut_unit_of c u)
  /\ Forall (fun c => exists s b relation, c = (s, b, relation) /\ s ∈ hi_Sources input /\ showable owner current covered s b relation) newest
  /\ StronglySorted (fun c c' => src_Sequence c'.1.1 <= src_Sequence c.1.1)%Z newest
  /\ hr_RetainedSources report = Z.of_nat (length (hp_Sources p))
  /\ (hr_RetainedSources report + hr_DroppedSources report = Z.of_nat (length (hi_Sources input)))%Z
  /\ hr_EstimatedTokens report = estimateHistoryProjection p.
Proof.
  unfold projectHistory. cbv zeta. set (sorted := sort_slice source_less (hi_Sources input)).
  assert (Hcand : forall covered, let newest := reverse (omap (candidate owner current covered) sorted) in
    Forall (fun c => exists s b relation, c = (s, b, relation) /\ s ∈ hi_Sources input /\ showable owner current covered s b relation) newest
    /\ StronglySorted (fun c c' => src_Sequence c'.1.1 <= src_Sequence c.1.1)%Z newest).
  { intros covered. cbv zeta. split.
    - apply Forall_forall. intros c Hc. rewrite elem_of_reverse in Hc. apply list_elem_of_omap in Hc as (s & Hs & (b & relation & -> & Hw)%candidate_showable).
      exists s, b, relation. split_and!; [done| |done]. unfold sorted in Hs. by rewrite sort_slice_perm in Hs.
    - eapply (sorted_reverse (fun c c' => (src_Sequence c.1.1 <= src_Sequence c'.1.1)%Z)); [done|].
      eapply sorted_omap, (sort_weak (fun _ => True)); [|apply source_weak|by apply Forall_true]. intros s s' c c' (b & r & -> & _)%candidate_showable (b' & r' & -> & _)%candidate_showable.
      unfold not_after, source_less. cbn. case_bool_decide as Eq; [lia|]. lia. }
  destruct (hi_MaxTokens input <=? 0)%Z eqn:E; boolp.
  - cbn [hp_Sources no_projection]. destruct (Hcand (covered_sources input no_projection)) as [H1 H2]. split_and!; try done.
    + rewrite no_projection_tokens. lia.
    + by left.
    + left. exists 0. split_and!; [lia|done|lia].
    + unfold diagnose_if. by destruct (_ || _).
    + unfold diagnose_if. destruct (_ || _); cbn; lia.
    + unfold diagnose_if. by destruct (_ || _).
  - destruct (project_summary _ _ _ _) as [p0 r0] eqn:Es. destruct (project_summary_ok _ _ _ _ _ _ Es) as [Hsum H0].
    pose proof (candidates_of_ok owner current (covered_sources input p0) sorted r0) as Hc. destruct (candidates_of _ _ _ _ _) as [cs r1]. cbn in Hc. subst cs.
    destruct (fill_history _ _ _ _ _) as [p r2] eqn:Ef. assert (Hp0 : (estimateHistoryProjection p0 <= hi_MaxTokens input)%Z).
    { destruct Hsum as [-> |(summary & ? & ? & ? & Hb & _)]; [rewrite no_projection_tokens; lia|lia]. }
    destruct (fill_ok _ _ _ _ _ _ _ Ef Hp0) as (Hb & l & -> & Hl). rewrite H0, ?app_nil_r in Hl. destruct (Hcand (covered_sources input p0)) as [H1 H2].
    assert (Hw : with_sources [] (with_sources l p0) = p0) by (destruct p0; cbn in H0; by subst). split_and!; try done.
    + lia.
    + by rewrite Hw.
    + destruct Hl as [(k & Hk & -> & Hn)|(_ & c & u & Hc & Hx & -> & Hu)]; [left; exists k|right; exists c, u]; split_and!; try done.
      cbn. by rewrite app_nil_r.
    + cbn. lia.
Qed.

(** ** The experiences *)
(** The source holds the experience [u] of the session, and the save and the clock of
    [view] still allow it. *)
Record confirmed (owner : AgentSessionKey) (watermark : Z) (view : experience_View) (s : HistorySource) (u : ExperienceUnit) : Prop := {
  cn_source : xu_SourceID u = src_ID s;
  cn_batch : exists b r fact, src_Batch s = Some b /\ mb_Kind b = HistoryKindExperience /\ mb_Owner b = owner /\ mb_Experience b = Some r
    /\ default [] (me_Facts (mb_Event b)) = [fact] /\ xu_Fact u = fact /\ xu_FactID u = me_ID (mb_Event b) /\ xu_GameTime u = me_GameTime (mb_Event b)
    /\ er_ClockID r = vw_ClockID view /\ (er_OccurredTick r <= vw_NowTick view < er_FocusUntilTick r)%Z /\ experience_Validate r = true;
  cn_owner : src_Owner s = owner;
  cn_sequence : (0 < src_Sequence s <= watermark)%Z;
  cn_available : src_Availability s = HistoryAvailable;
  cn_valid : xu_FactID u ∈ vw_ValidFactIDs view
}.
Lemma experience_unit_ok owner watermark view s u : experience_unit owner watermark view s = Some u -> confirmed owner watermark view s u.
Proof.
  unfold experience_unit. destruct (src_Batch s) as [b|] eqn:Eb; [|done]. destruct (mb_Experience b) as [r|] eqn:Er; [|done].
  destruct (default [] (me_Facts (mb_Event b))) as [|fact [|]] eqn:Ef; try done. destruct (_ && _) eqn:E; [|done]. intros [= <-]. rewrite !andb_true_iff in E.
  destruct E as (((((((H1 & H2) & H3) & H4) & H5) & H6) & H7) & H8). boolp.
  assert (Ha : Allows (Some view) (me_ID (mb_Event b)) (Some r) = true).
  { unfold ExperienceVisible in H7. rewrite Eb, H6, Er in H7. by destruct (src_Experience s). }
  unfold Allows in Ha. rewrite !andb_true_iff in Ha. destruct Ha as (((A1 & A2) & A3) & A4). boolp. split; try done. exists b, r, fact. by split_and!.
Qed.
Lemma choose_experiences_ok limit candidates : forall units seen diagnostics l diagnostics',
  choose_experiences limit candidates units seen diagnostics = (l, diagnostics') ->
  NoDup (xu_FactID <$> units) -> Forall (fun u => xu_FactID u ∈ seen) units -> length units <= MaxRecentExperiences ->
  (units = [] \/ (EstimateRecentExperiences units <= limit)%Z) ->
  exists more, l = units ++ more /\ more `sublist_of` candidates /\ NoDup (xu_FactID <$> l) /\ length l <= MaxRecentExperiences
  /\ (l = [] \/ (EstimateRecentExperiences l <= limit)%Z) /\ diagnostics `prefix_of` diagnostics'
  /\ (ReasonRecentExperiences ∉ diagnostics' -> Forall (fun u => xu_FactID u ∈ seen \/ xu_FactID u ∈ (xu_FactID <$> more)) candidates).
Proof.
  induction candidates as [|c candidates IH]; intros units seen diagnostics l diagnostics'; cbn [choose_experiences].
  { intros [= <- <-] ? ? ? ?. exists []. rewrite app_nil_r. split_and!; try done. }
  intros Hc Hnd Hseen Hlen Htok. case_bool_decide as Hin.
  { apply IH in Hc as (more & -> & Hs & H1 & H2 & H3 & H4 & H5); try done. exists more. split_and!; try done; [by constructor|]. intros Hr. constructor; [by left|by apply H5]. }
  destruct (_ || _) eqn:E.
  { apply IH in Hc as (more & -> & Hs & H1 & H2 & H3 & H4 & H5); try done. exists more. split_and!; try done; [by constructor|..].
    - etrans; [|exact H4]. unfold appendUnique. destruct (existsb _ _); [done|]. by eexists.
    - intros Hr. destruct Hr. destruct H4 as [k ->]. apply elem_of_app. left. unfold appendUnique. destruct (existsb _ _) eqn:Ex; [|set_solver].
      apply existsb_exists in Ex as (d & Hd & Hd'). boolp. subst d. by apply list_elem_of_In. }
  rewrite orb_false_iff in E. destruct E as [E1 E2]. boolp.
  apply IH in Hc as (more & -> & Hs & H1 & H2 & H3 & H4 & H5); try done.
  - exists (c :: more). rewrite <- app_assoc in *. split_and!; try done; [by constructor|]. intros Hr. constructor; [right; cbn; by left|].
    eapply Forall_impl; [by apply H5|]. cbn. intros u Hu. rewrite elem_of_cons. set_solver.
  - rewrite fmap_app, NoDup_app. split_and!; [done| |by apply NoDup_singleton]. intros x (y & -> & Hy)%list_elem_of_fmap Hx. apply list_elem_of_singleton in Hx.
    rewrite Forall_forall in Hseen. apply Hin. rewrite <- Hx. by apply Hseen.
  - apply Forall_app. split; [|apply Forall_singleton; set_solver]. eapply Forall_impl; [exact Hseen|]. set_solver.
  - by right.
Qed.
(** The limits of what is shown, and of any first part of it. *)
Lemma experiences_limits input owner view : let units := (ProjectRecentExperiences input owner view).1 in
  length units <= MaxRecentExperiences /\ (units = [] \/ (EstimateRecentExperiences units <= MaxRecentExperienceTokens)%Z).
Proof.
  cbv zeta. unfold ProjectRecentExperiences. destruct input as [i|]; [|split; [cbn; lia|by left]].
  destruct view as [v|]; [|split; [cbn; lia|by left]]. case_bool_decide as Eo; cbn [negb]; [|split; [cbn; lia|by left]]. cbv zeta.
  destruct (choose_experiences _ _ _ _ _) as [units diagnostics] eqn:E. apply choose_experiences_ok in E as (more & -> & _ & _ & H2 & H3 & _); try done.
  all: try (by left); try (by constructor); try (cbn; lia).
  cbn [app fst] in *. split; [done|]. destruct H3 as [-> |H3]; [by left|right; lia].
Qed.
Lemma experiences_prefix l' l : l' `prefix_of` l -> (EstimateRecentExperiences l' <= EstimateRecentExperiences l)%Z.
Proof.
  intros [after ->]. apply EstimateText_mono. unfold RenderRecentExperiences. destruct l' as [|u l']; [apply sublist_nil_l|]. cbn [app].
  assert (H : runes_in (enc_array (marshalExperience <$> u :: l')) (enc_array (marshalExperience <$> u :: l' ++ after))).
  { apply enc_array_mono, join_sublist, fmap_sublist. apply sublist_skip. by apply sublist_inserts_r. }
  revert H. generalize (enc_array (marshalExperience <$> u :: l')) (enc_array (marshalExperience <$> u :: l' ++ after)). intros x y H.
  unfold runes_in in *. change (nl +:+ nl) with (String (byte_of 10) nl). change (nl +:+ ?z) with (String (byte_of 10) z). rewrite !text_runes_across by done.
  repeat (apply sublist_app || apply sublist_skip || done).
Qed.
(** C29: The experiences shown are few, confirmed and distinct.  [ProjectRecentExperiences]
    shows at most eight, in at most 768 tokens and within the input's own limit, no fact twice,
    by priority, then the latest first; each is an experience of this session up to the snapshot, still
    valid in the save the observation reports and in its focus by that clock.  When the report names no
    excess, every fact that may be shown is. *)
Theorem experiences_are_confirmed_and_few input owner view :
  let '(units, report) := ProjectRecentExperiences input owner view in
  length units <= MaxRecentExperiences /\ NoDup (xu_FactID <$> units)
  /\ xr_RetainedCount report = Z.of_nat (length units)
  /\ (xr_RetainedCount report + xr_DroppedCount report = Z.of_nat (length (default [] (xi_Sources <$> input))))%Z
  /\ (units = [] \/ exists i v, input = Some i /\ view = Some v /\ hsn_Owner (xi_Snapshot i) = owner
        /\ (EstimateRecentExperiences units <= Z.min (xi_MaxTokens i) MaxRecentExperienceTokens)%Z
        /\ units `sublist_of` omap (experience_unit owner (hsn_Watermark (xi_Snapshot i)) v) (sort_slice experience_less (xi_Sources i))
        /\ Forall (fun u => exists s, s ∈ xi_Sources i /\ confirmed owner (hsn_Watermark (xi_Snapshot i)) v s u) units)
  /\ (ReasonRecentExperiences ∉ xr_Diagnostics report -> forall i v s u, input = Some i -> view = Some v -> hsn_Owner (xi_Snapshot i) = owner ->
        s ∈ xi_Sources i -> experience_unit owner (hsn_Watermark (xi_Snapshot i)) v s = Some u -> xu_FactID u ∈ (xu_FactID <$> units)).
Proof.
  unfold ProjectRecentExperiences. destruct input as [i|]; [|cbn; split_and!; try done; [lia|constructor|by left]]. cbn [fmap option_fmap option_map default].
  destruct view as [v|]; [|cbn; split_and!; try done; [lia|constructor|by left]].
  case_bool_decide as Eo; cbn [negb]; [|cbn; split_and!; try done; [lia|constructor|by left|intros _ ? ? ? ? [= <-]; done]]. cbv zeta.
  set (sorted := sort_slice experience_less (xi_Sources i)). set (unit_of_source := experience_unit owner (hsn_Watermark (xi_Snapshot i)) v).
  destruct (choose_experiences _ _ _ _ _) as [units diagnostics] eqn:E. apply choose_experiences_ok in E as (more & -> & Hs & H1 & H2 & H3 & H4 & H5); try done.
  all: try (by left); try (by constructor); try (cbn; lia).
  cbn [app] in *. cbn [xr_RetainedCount xr_DroppedCount xr_Diagnostics]. split_and!; try done; [cbn; lia|..].
  - destruct H3 as [-> |H3]; [by left|right]. exists i, v. split_and!; try done. apply Forall_forall. intros u Hu.
    assert (Hu' : u ∈ omap unit_of_source sorted) by by eapply elem_of_sublist.
    apply list_elem_of_omap in Hu' as (s & Hin & Hu'). exists s. unfold sorted in Hin. rewrite sort_slice_perm in Hin. split; [done|]. by apply experience_unit_ok.
  - intros Hr ? ? s u [= <-] [= <-] _ Hin Hu. specialize (H5 Hr). rewrite Forall_forall in H5. destruct (H5 u) as [Hn|Hn]; [|set_solver|done].
    apply list_elem_of_omap. exists s. split; [|done]. unfold sorted. by rewrite sort_slice_perm.
Qed.
End Recalled.
