(* ===== verification/Retrieval.v ===== *)
(** * Retrieved history: [context/retrieval_projection.go]

    Passages of older history that a search found: of each match the part the recent
    history does not show, whole or cropped around a term of the query, within a number
    and a token budget and only while the request still fits.

    A test of a candidate against the request is a function of the snippets; [None] is
    its error.  Spans are subtracted as sets of positions; the passages shown are parts
    of what was found that nothing else shows, within their budgets. *)

From S2P Require Export Recalling.

Local Open Scope go_scope.
Local Open Scope string_scope.

#[export] Instance HistoryTime_eq_dec : EqDecision HistoryTime. Proof. solve_decision. Defined.

(** ** Text *)
Fixpoint is_prefix (p l : list ascii) : bool :=
  match p, l with
  | [], _ => true
  | x :: p, y :: l => Ascii.eqb x y && is_prefix p l
  | _ :: _, [] => false
  end.
Definition HasPrefix (s prefix : string) : bool := is_prefix (bytes_of prefix) (bytes_of s).
(** [strings.Index] *)
Fixpoint byte_index (sub l : list ascii) : option nat :=
  if is_prefix sub l then Some 0%nat else match l with [] => None | _ :: l => S <$> byte_index sub l end.
Definition Index (s sub : string) : option nat := byte_index (bytes_of sub) (bytes_of s).
(** [utf8.ValidString] *)
Definition ValidString (s : string) : bool := forallb (fun x : N * list ascii => negb ((x.1 == RuneError) && (length x.2 =? 1)%nat)) (runes s).

(** ** Spans *)
(** What is left of a span without the cover. *)
Definition subtract_span (cover span : HistoryTextSpan) : list HistoryTextSpan :=
  if (ts_Path cover != ts_Path span) || (ts_End cover <=? ts_Start cover)%Z || (ts_End cover <=? ts_Start span)%Z || (ts_End span <=? ts_Start cover)%Z
  then [span] else
  ((if (ts_Start span <? ts_Start cover)%Z then [{| ts_Path := ts_Path span; ts_Start := ts_Start span; ts_End := ts_Start cover |}] else [])
   ++ (if (ts_End cover <? ts_End span)%Z then [{| ts_Path := ts_Path span; ts_Start := ts_End cover; ts_End := ts_End span |}] else []))%list.
Definition subtractRetrievalSpans (spans covered : list HistoryTextSpan) : list HistoryTextSpan :=
  foldl (fun spans cover => spans ≫= subtract_span cover) spans covered.
Definition snippet_span (s : RetrievedHistorySnippet) : HistoryTextSpan := {| ts_Path := sn_Path s; ts_Start := sn_Start s; ts_End := sn_End s |}.

(** ** Snippets *)
Definition rune_slice (text : list N) (start finish : Z) : list N := take (Z.to_nat (finish - start)) (drop (Z.to_nat start) text).
Definition retrievalSnippetRange (s : RetrievedHistorySnippet) (text : list N) (span : HistoryTextSpan) : RetrievedHistorySnippet :=
  {| sn_SourceID := sn_SourceID s; sn_Sequence := sn_Sequence s; sn_CreatedAt := sn_CreatedAt s; sn_Times := sn_Times s; sn_TimeRelation := sn_TimeRelation s;
     sn_ActorID := sn_ActorID s; sn_Kind := sn_Kind s; sn_Path := sn_Path s; sn_Start := ts_Start span; sn_End := ts_End span;
     sn_Text := text_of_runes (rune_slice text (ts_Start span) (ts_End span));
     sn_Cropped := (ts_Start span != 0%Z) || (ts_End span != Z.of_nat (length text)) |}.
(** The order of the snippets shown: by sequence, source, path and place. *)
Definition snippet_less (l r : RetrievedHistorySnippet) : bool :=
  if sn_Sequence l != sn_Sequence r then (sn_Sequence l <? sn_Sequence r)%Z
  else if sn_SourceID l != sn_SourceID r then str_lt (sn_SourceID l) (sn_SourceID r)
  else if sn_Path l != sn_Path r then str_lt (sn_Path l) (sn_Path r)
  else (sn_Start l <? sn_Start r)%Z.
Definition appendRetrievedSnippet (shown : list RetrievedHistorySnippet) (s : RetrievedHistorySnippet) : list RetrievedHistorySnippet :=
  sort_slice snippet_less (shown ++ [s])%list.
Definition rr_diagnose (code : string) (r : RetrievedHistoryReport) : RetrievedHistoryReport :=
  mkRetrievedReport (rr_RetainedSnippets r) (rr_RetainedMatches r) (rr_DroppedMatches r) (rr_EstimatedTokens r) (appendUnique (rr_Diagnostics r) code).
Definition rr_match_shown (r : RetrievedHistoryReport) : RetrievedHistoryReport :=
  mkRetrievedReport (rr_RetainedSnippets r) (rr_RetainedMatches r + 1) (rr_DroppedMatches r - 1) (rr_EstimatedTokens r) (rr_Diagnostics r).

Section Retrieval.
Context `{Unicode} `{Protocol}.
Record RetrievedHistoryInput := {
  ri_Snapshot : HistorySnapshot; ri_Matches : list HistoryMatch; ri_MaxTokens : Z; ri_Limit : Z; ri_Diagnostics : list string
}.
(** The place of the first term of the query in the span; [None] is the empty span. *)
Fixpoint anchor_in (value : string) (start : Z) (terms : list string) : option (Z * Z) :=
  match terms with
  | [] => None
  | term :: terms =>
    let term := ToLower term in
    if term == "" then anchor_in value start terms else
    match Index value term with
    | Some index =>
      let start := (start + Z.of_nat (rune_len (text_of (take index (bytes_of value)))))%Z in
      Some (start, start + Z.of_nat (rune_len term))%Z
    | None => anchor_in value start terms
    end
  end.
Definition retrievalAnchor (text : list N) (span : HistoryTextSpan) (terms : list string) : option (Z * Z) :=
  anchor_in (ToLower (text_of_runes (rune_slice text (ts_Start span) (ts_End span)))) (ts_Start span) terms.
Definition anchored (anchor : option (Z * Z)) : bool := match anchor with Some (_, finish) => (0 <? finish)%Z | None => false end.
(** The window of a width that [cropRetrievedSnippet] tries, and the crop. *)
Definition crop_start (span : HistoryTextSpan) (anchor : option (Z * Z)) (width : Z) : Z :=
  match anchor with
  | Some (start, finish) =>
    if (0 <? finish)%Z then Z.max (ts_Start span) (Z.min (start - Z.max 0 (width - (finish - start)) / 2) (ts_End span - width)) else ts_Start span
  | None => ts_Start span
  end.
Definition crop_window (span : HistoryTextSpan) (anchor : option (Z * Z)) (width : Z) : HistoryTextSpan :=
  let start := crop_start span anchor width in {| ts_Path := ts_Path span; ts_Start := start; ts_End := start + width |}.
Definition cropRetrievedSnippet (shown : list RetrievedHistorySnippet) (s : RetrievedHistorySnippet) (text : list N) (span : HistoryTextSpan) (terms : list string)
    (fits : list RetrievedHistorySnippet -> option bool) : option (option (list RetrievedHistorySnippet)) :=
  let anchor := retrievalAnchor text span terms in
  find_largest (fun width =>
    let candidate := appendRetrievedSnippet shown (retrievalSnippetRange s text (crop_window span anchor width)) in
    match fits candidate with
    | None => None
    | Some true => Some (Some (Some candidate))
    | Some false => Some None
    end) (ts_End span - ts_Start span - 1) None.

(** ** Visibility *)
(** Each time once, where it first is. *)
Fixpoint unique_times (seen : list HistoryTime) (times : list HistoryTime) : list HistoryTime :=
  match times with
  | [] => []
  | t :: times => if bool_decide (t ∈ seen) then unique_times seen times else t :: unique_times (t :: seen) times
  end.
(** The times and the time relation of a match that may be shown, or the reason it may
    not. *)
Definition retrievalMatchVisibility (m : HistoryMatch) (snapshot : HistorySnapshot) (owner : AgentSessionKey) (current : option GameTimeSnapshot) :
    outcome string (list HistoryTime * string) :=
  let source := hm_Source m in
  let '(field, span) := (hm_Field m, hm_Span m) in
  if foreign owner source then Err "retrieval_owner_mismatch"
  else if (src_Sequence source <=? 0)%Z || (hsn_Watermark snapshot <? src_Sequence source)%Z then Err "retrieval_watermark_hidden"
  else if unavailable source then Err "retrieval_source_unavailable"
  else if (src_ID source == "") || ! HasPrefix (tf_Path field) "/" || (ts_Path span != tf_Path field) || (ts_Start span <? 0)%Z
          || (ts_End span <=? ts_Start span)%Z || (Z.of_nat (rune_len (tf_Text field)) <? ts_End span)%Z || ! ValidString (tf_Text field)
  then Err "retrieval_match_invalid"
  else
    let times := (src_Times source ++ match src_Batch source with Some b => HistoryTimes b | None => [] end)%list in
    let '(visible, unknown) := HistoryVisibility times current in
    if ! visible then Err "retrieval_time_hidden" else Ok (unique_times [] times, if unknown then "unknown" else "visible").

(** ** [projectRetrievedHistory] *)
(** The spans of a source that its units in the recent history do not show. *)
Fixpoint uncovered (id : string) (recent : list HistoryUnit) (spans : list HistoryTextSpan) : list HistoryTextSpan :=
  match recent with
  | [] => spans
  | unit :: recent =>
    if hu_SourceID unit != id then uncovered id recent spans
    else if hu_Complete unit then [] else uncovered id recent (subtractRetrievalSpans spans (hu_VisibleSpans unit))
  end.
Definition not_shown (id : string) (shown : list RetrievedHistorySnippet) (spans : list HistoryTextSpan) : list HistoryTextSpan :=
  subtractRetrievalSpans spans (snippet_span <$> List.filter (fun s => sn_SourceID s == id) shown).
Definition candidate_fits (input : RetrievedHistoryInput) (fits : option (list RetrievedHistorySnippet -> option bool)) (candidate : list RetrievedHistorySnippet) : option bool :=
  if (ri_MaxTokens input <? estimateRetrievedHistoryProjection candidate)%Z then Some false
  else match fits with None => Some true | Some fits => fits candidate end.
(** The spans of one match; [included]: one of them is shown. *)
Fixpoint admit_spans (input : RetrievedHistoryInput) (fits : list RetrievedHistorySnippet -> option bool) (s : RetrievedHistorySnippet) (text : list N)
    (terms : list string) (spans : list HistoryTextSpan) (shown : list RetrievedHistorySnippet) (included : bool) (report : RetrievedHistoryReport) :
    outcome (list RetrievedHistorySnippet * RetrievedHistoryReport) (list RetrievedHistorySnippet * bool * RetrievedHistoryReport) :=
  match spans with
  | [] => Ok (shown, included, report)
  | span :: spans =>
    if (ri_Limit input <=? Z.of_nat (length shown))%Z then Ok (shown, included, rr_diagnose "retrieval_limit_exceeded" report) else
    let candidate := appendRetrievedSnippet shown (retrievalSnippetRange s text span) in
    match fits candidate with
    | None => Err (shown, report)
    | Some true => admit_spans input fits s text terms spans candidate true report
    | Some false =>
      let report := rr_diagnose ReasonRetrievedHistoryBudgetExceeded report in
      match cropRetrievedSnippet shown s text span terms fits with
      | None => Err (shown, report)
      | Some None => admit_spans input fits s text terms spans shown included report
      | Some (Some candidate) => admit_spans input fits s text terms spans candidate true report
      end
    end
  end.
Definition match_snippet (m : HistoryMatch) (times : list HistoryTime) (relation : string) : RetrievedHistorySnippet :=
  let '(source, field) := (hm_Source m, hm_Field m) in
  {| sn_SourceID := src_ID source; sn_Sequence := src_Sequence source; sn_CreatedAt := t_text (src_CreatedAt source); sn_Times := times; sn_TimeRelation := relation;
     sn_ActorID := tf_ActorID field; sn_Kind := if TrimSpace (tf_Kind field) == "" then "history_text" else tf_Kind field; sn_Path := tf_Path field;
     sn_Start := 0; sn_End := 0; sn_Text := ""; sn_Cropped := false |}.
Definition project_match (input : RetrievedHistoryInput) (owner : AgentSessionKey) (current : option GameTimeSnapshot) (recent : HistoryProjection)
    (fits : list RetrievedHistorySnippet -> option bool) (m : HistoryMatch) (shown : list RetrievedHistorySnippet) (report : RetrievedHistoryReport) :
    outcome (list RetrievedHistorySnippet * RetrievedHistoryReport) (list RetrievedHistorySnippet * RetrievedHistoryReport) :=
  let id := src_ID (hm_Source m) in
  match retrievalMatchVisibility m (ri_Snapshot input) owner current with
  | Err reason => Ok (shown, rr_diagnose (reason +:+ ": " +:+ id) report)
  | Ok (times, relation) =>
    let report := if relation == "unknown" then rr_diagnose ("retrieval_time_unknown: " +:+ id) report else report in
    let spans := uncovered id (hp_Sources recent) [hm_Span m] in
    if ! nonempty spans then Ok (shown, rr_diagnose ("retrieval_recent_duplicate: " +:+ id) report) else
    let report := if spans != [hm_Span m] then rr_diagnose ("retrieval_recent_overlap: " +:+ id) report else report in
    let spans := not_shown id shown spans in
    if ! nonempty spans then Ok (shown, rr_diagnose ("retrieval_duplicate: " +:+ id) report) else
    let text := (runes (tf_Text (hm_Field m))).*1 in
    let has_term span := anchored (retrievalAnchor text span (hm_MatchedTerms m)) in
    let spans := sort_slice (fun i j => has_term i && match retrievalAnchor text j (hm_MatchedTerms m) with Some (_, finish) => finish == 0%Z | None => true end) spans in
    match admit_spans input fits (match_snippet m times relation) text (hm_MatchedTerms m) spans shown false report with
    | Err e => Err e
    | Ok (shown, included, report) => Ok (shown, if (included : bool) then rr_match_shown report else report)
    end
  end.
Fixpoint project_matches (input : RetrievedHistoryInput) (owner : AgentSessionKey) (current : option GameTimeSnapshot) (recent : HistoryProjection)
    (fits : list RetrievedHistorySnippet -> option bool) (matches : list HistoryMatch) (shown : list RetrievedHistorySnippet) (report : RetrievedHistoryReport) :
    outcome (list RetrievedHistorySnippet * RetrievedHistoryReport) (list RetrievedHistorySnippet * RetrievedHistoryReport) :=
  match matches with
  | [] => Ok (shown, report)
  | m :: matches =>
    match project_match input owner current recent fits m shown report with
    | Err e => Err e
    | Ok (shown, report) => project_matches input owner current recent fits matches shown report
    end
  end.
(** [Err]: a test of the request failed; what was chosen until then is returned with it. *)
Definition projectRetrievedHistory (input : RetrievedHistoryInput) (owner : AgentSessionKey) (current : option GameTimeSnapshot) (recent : HistoryProjection)
    (fits : option (list RetrievedHistorySnippet -> option bool)) :
    outcome (list RetrievedHistorySnippet * RetrievedHistoryReport) (list RetrievedHistorySnippet * RetrievedHistoryReport) :=
  let report := mkRetrievedReport 0 0 (Z.of_nat (length (ri_Matches input))) 0 (ri_Diagnostics input) in
  if hsn_Owner (ri_Snapshot input) != owner then Ok ([], rr_diagnose "retrieval_snapshot_owner_mismatch" report) else
  if (ri_MaxTokens input <=? 0)%Z || (ri_Limit input <=? 0)%Z
  then Ok ([], if nonempty (ri_Matches input) then rr_diagnose ReasonRetrievedHistoryBudgetExceeded report else report) else
  let report := if ! nonempty (ri_Matches input) && ! nonempty (rr_Diagnostics report) then rr_diagnose "retrieval_no_matches" report else report in
  match project_matches input owner current recent (candidate_fits input fits) (ri_Matches input) [] report with
  | Err e => Err e
  | Ok (shown, report) =>
    let report := if nonempty shown then rr_diagnose "retrieval_included" report else report in
    Ok (shown, mkRetrievedReport (Z.of_nat (length shown)) (rr_RetainedMatches report) (rr_DroppedMatches report) (estimateRetrievedHistoryProjection shown) (rr_Diagnostics report))
  end.
End Retrieval.
Definition DefaultRetrievedHistoryInput `{Protocol} : RetrievedHistoryInput :=
  {| ri_Snapshot := {| hsn_Owner := {| GameID := ""; WorldID := ""; EntityID := "" |}; hsn_Watermark := 0; hsn_SummaryRevision := 0; hsn_LeaseID := "" |};
     ri_Matches := []; ri_MaxTokens := 1024; ri_Limit := 5; ri_Diagnostics := [] |}.

#[local] Close Scope string_scope.

(** * Retrieved history stays in its place *)

(** ** Positions of spans *)
Definition at_span (path : string) (n : Z) (s : HistoryTextSpan) : bool :=
  bool_decide (ts_Path s = path /\ (ts_Start s <= n < ts_End s)%Z).
(** How many of the spans hold the position. *)
Definition holding (path : string) (n : Z) (l : list HistoryTextSpan) : nat := length (List.filter (at_span path n) l).
Lemma holding_app path n l l' : holding path n (l ++ l') = holding path n l + holding path n l'.
Proof. unfold holding. by rewrite List.filter_app, length_app. Qed.
Lemma holding_one path n s : holding path n [s] = if at_span path n s then 1 else 0.
Proof. unfold holding. cbn. by destruct (at_span path n s). Qed.
Lemma subtract_span_holding path n cover span :
  holding path n (subtract_span cover span) = if at_span path n cover then 0 else holding path n [span].
Proof.
  rewrite holding_one. unfold subtract_span. destruct (_ || _) eqn:E.
  - rewrite holding_one. unfold at_span. destruct (bool_decide (ts_Path span = path /\ _)) eqn:E1, (bool_decide (ts_Path cover = path /\ _)) eqn:E2; try done.
    rewrite !orb_true_iff in E. boolp. exfalso. destruct E1 as [<- ?], E2 as [? ?], E as [[[?|?]|?]|?]; [done|lia..].
  - rewrite !orb_false_iff in E. destruct E as (((E1 & E2) & E3) & E4). boolp. rewrite holding_app. unfold at_span. rewrite E1.
    destruct (ts_Start span <? ts_Start cover)%Z eqn:F1, (ts_End cover <? ts_End span)%Z eqn:F2; rewrite ?holding_one; unfold at_span; cbn; boolp;
      repeat case_bool_decide; try done; exfalso; intuition (subst; try done; lia).
Qed.
Lemma holding_perm path n l l' : l ≡ₚ l' -> holding path n l = holding path n l'.
Proof.
  unfold holding. induction 1 as [|x l l' _ IH|x y l|l1 l2 l3 _ IH1 _ IH2]; cbn; [done| | |congruence].
  - destruct (at_span path n x); cbn; congruence.
  - destruct (at_span path n x), (at_span path n y); done.
Qed.
Lemma subtract_one_holding path n cover spans :
  holding path n (spans ≫= subtract_span cover) = if at_span path n cover then 0 else holding path n spans.
Proof.
  induction spans as [|s spans IH]; [by destruct (at_span path n cover)|]. rewrite bind_cons, holding_app, IH, subtract_span_holding.
  change (s :: spans) with ([s] ++ spans). rewrite holding_app. by destruct (at_span path n cover).
Qed.
Lemma subtract_holding path n covered : forall spans,
  holding path n (subtractRetrievalSpans spans covered) = if existsb (at_span path n) covered then 0 else holding path n spans.
Proof.
  induction covered as [|c covered IH]; intros spans; [done|]. change (subtractRetrievalSpans spans (c :: covered)) with (subtractRetrievalSpans (spans ≫= subtract_span c) covered).
  rewrite IH, subtract_one_holding. cbn. destruct (at_span path n c), (existsb _ covered); done.
Qed.
Definition proper (s : HistoryTextSpan) : Prop := (ts_Start s < ts_End s)%Z.
Lemma subtract_proper covered : forall spans, Forall proper spans -> Forall proper (subtractRetrievalSpans spans covered).
Proof.
  induction covered as [|c covered IH]; intros spans H; [done|]. apply IH. apply Forall_forall. intros s (s0 & Hs & Hin)%list_elem_of_bind.
  rewrite Forall_forall in H. specialize (H _ Hin). unfold subtract_span in Hs. destruct (_ || _); [by apply list_elem_of_singleton in Hs as ->|].
  unfold proper in *. apply elem_of_app in Hs as [Hs|Hs]; revert Hs; case_match; try (by intros ?%not_elem_of_nil); intros ->%list_elem_of_singleton; cbn; boolp; lia.
Qed.
Lemma holding_in path n l : 0 < holding path n l <-> exists s, s ∈ l /\ at_span path n s = true.
Proof.
  unfold holding. split.
  - destruct (List.filter _ l) as [|s k] eqn:E; cbn; [lia|]. intros _. exists s. assert (Hs : In s (List.filter (at_span path n) l)) by (rewrite E; by left).
    apply List.filter_In in Hs as [Hs ?]. by split; [apply list_elem_of_In|].
  - intros (s & Hs & Ha). destruct (List.filter _ l) eqn:E; [|cbn; lia]. exfalso. assert (In s []); [|done]. rewrite <- E. apply List.filter_In. by split; [apply list_elem_of_In|].
Qed.
(** A span whose positions are all in another is within it. *)
Definition within_span (s' s : HistoryTextSpan) : Prop := ts_Path s' = ts_Path s /\ (ts_Start s <= ts_Start s')%Z /\ (ts_End s' <= ts_End s)%Z.
Lemma within_positions s' s : proper s' -> (forall n, at_span (ts_Path s') n s' = true -> at_span (ts_Path s') n s = true) -> within_span s' s.
Proof.
  unfold proper, within_span, at_span. intros Hp H. pose proof (H (ts_Start s')) as H1. pose proof (H (ts_End s' - 1)%Z) as H2. rewrite !bool_decide_eq_true in *.
  destruct H1 as [E ?]; [split; [done|lia]|]. destruct H2 as [_ ?]; [split; [done|lia]|]. split_and!; [done|lia|lia].
Qed.
Lemma within_at path n s' s : within_span s' s -> at_span path n s' = true -> at_span path n s = true.
Proof. unfold within_span, at_span. rewrite !bool_decide_eq_true. intros (H1 & H2 & H3) (<- & H). split; [done|lia]. Qed.
Lemma crop_window_within span anchor width : (1 <= width < ts_End span - ts_Start span)%Z -> within_span (crop_window span anchor width) span /\ proper (crop_window span anchor width).
Proof.
  intros H. assert (Hs : (ts_Start span <= crop_start span anchor width <= ts_End span - width)%Z).
  { unfold crop_start. destruct anchor as [[a b]|]; [|lia]. destruct (0 <? b)%Z; lia. }
  unfold crop_window, within_span, proper. cbn. split_and!; [done|lia..].
Qed.

(** ** The passages shown *)
(** How many of the snippets show the position of the source's text. *)
Definition shows_at (id path : string) (n : Z) (s : RetrievedHistorySnippet) : bool := (sn_SourceID s == id) && at_span path n (snippet_span s).
Definition times_shown (id path : string) (n : Z) (shown : list RetrievedHistorySnippet) : nat := length (List.filter (shows_at id path n) shown).
Lemma times_shown_perm id path n l l' : l ≡ₚ l' -> times_shown id path n l = times_shown id path n l'.
Proof.
  unfold times_shown. induction 1 as [|x l l' _ IH|x y l|l1 l2 l3 _ IH1 _ IH2]; cbn; [done| | |congruence].
  - destruct (shows_at id path n x); cbn; congruence.
  - destruct (shows_at id path n x), (shows_at id path n y); done.
Qed.
Lemma times_shown_append id path n shown s : times_shown id path n (appendRetrievedSnippet shown s) = times_shown id path n shown + if shows_at id path n s then 1 else 0.
Proof.
  unfold appendRetrievedSnippet. rewrite (times_shown_perm _ _ _ _ (shown ++ [s])) by apply sort_slice_perm. unfold times_shown. rewrite List.filter_app, length_app. cbn.
  by destruct (shows_at id path n s).
Qed.
Lemma times_shown_spans id path n shown : times_shown id path n shown = holding path n (snippet_span <$> List.filter (fun s => sn_SourceID s == id) shown).
Proof.
  unfold times_shown, holding, shows_at. induction shown as [|s shown IH]; cbn; [done|]. destruct (sn_SourceID s == id); cbn; [|done].
  destruct (at_span path n (snippet_span s)); cbn; by rewrite IH.
Qed.
Lemma not_shown_holding id path n shown spans : times_shown id path n shown <= 1 -> holding path n spans <= 1 ->
  times_shown id path n shown + holding path n (not_shown id shown spans) <= 1.
Proof.
  intros H1 H2. unfold not_shown. rewrite subtract_holding. rewrite times_shown_spans in *. set (l := snippet_span <$> _) in *. destruct (existsb _ l) eqn:E; [lia|].
  enough (holding path n l = 0) by lia. destruct (holding path n l) eqn:Eh; [done|]. destruct (proj1 (holding_in path n l)) as (s & Hs & Ha); [lia|].
  enough (existsb (at_span path n) l = true) by congruence. apply existsb_exists. exists s. by split; [apply list_elem_of_In|].
Qed.
Lemma snippet_weak : weak_order (fun _ => True) snippet_less.
Proof.
  apply (weak_ext _ _ (less_of (lex (fun l r => (sn_Sequence l ?= sn_Sequence r)%Z) (lex (fun l r => str_compare (sn_SourceID l) (sn_SourceID r))
          (lex (fun l r => str_compare (sn_Path l) (sn_Path r)) (fun l r => (sn_Start l ?= sn_Start r)%Z)))))).
  - intros l r. unfold snippet_less, less_of, lex. case_bool_decide as E1; cbn [negb].
    + rewrite E1, Z.compare_refl. case_bool_decide as E2; cbn [negb].
      * rewrite E2, str_compare_refl. case_bool_decide as E3; cbn [negb].
        -- by rewrite E3, str_compare_refl, Z.ltb_compare.
        -- rewrite str_lt_compare. destruct (str_compare (sn_Path l) (sn_Path r)) eqn:C; [by apply str_compare_eq in C|done|done].
      * rewrite str_lt_compare. destruct (str_compare (sn_SourceID l) (sn_SourceID r)) eqn:C; [by apply str_compare_eq in C|done|done].
    + rewrite Z.ltb_compare. destruct (_ ?= _)%Z eqn:C; [by apply Z.compare_eq in C|done|done].
  - apply weak_of_cmp. repeat apply lex_order; first [apply z_order|apply s_order].
Qed.

Section Retrieved.
Context {unicode : Unicode} {protocol : Protocol}.
Context (input : RetrievedHistoryInput) (owner : AgentSessionKey) (current : option GameTimeSnapshot) (recent : HistoryProjection).
Context (fits : option (list RetrievedHistorySnippet -> option bool)).
(** A match that may be shown. *)
Record visible_match (m : HistoryMatch) : Prop := {
  vm_owner : foreign owner (hm_Source m) = false;
  vm_sequence : (0 < src_Sequence (hm_Source m) <= hsn_Watermark (ri_Snapshot input))%Z;
  vm_available : unavailable (hm_Source m) = false;
  vm_past : Forall (fun t => is_future (htm_Value t) current = false)
              (src_Times (hm_Source m) ++ match src_Batch (hm_Source m) with Some b => HistoryTimes b | None => [] end);
  vm_path : ts_Path (hm_Span m) = tf_Path (hm_Field m);
  vm_range : (0 <= ts_Start (hm_Span m) < ts_End (hm_Span m))%Z /\ (ts_End (hm_Span m) <= Z.of_nat (rune_len (tf_Text (hm_Field m))))%Z
}.
Lemma visibility_ok m x : retrievalMatchVisibility m (ri_Snapshot input) owner current = Ok x -> visible_match m.
Proof.
  unfold retrievalMatchVisibility. destruct (foreign owner _) eqn:E1; [done|]. destruct (_ || _) eqn:E2; [done|]. destruct (unavailable _) eqn:E3; [done|].
  destruct (_ || negb (ValidString _)) eqn:E4; [done|]. cbv zeta. destruct (HistoryVisibility _ _) as [visible unknown] eqn:E5. destruct visible; cbn; [|done].
  intros _. boolp. destruct E4 as ((((((? & ?) & ?) & ?) & ?) & ?) & ?).
  split; try done. apply visible_not_future. by rewrite E5.
Qed.
(** The snippet is a passage of the match, at its place, that the recent history does
    not show. *)
Record passage (s : RetrievedHistorySnippet) (m : HistoryMatch) : Prop := {
  ps_match : m ∈ ri_Matches input;
  ps_visible : visible_match m;
  ps_source : sn_SourceID s = src_ID (hm_Source m) /\ sn_Sequence s = src_Sequence (hm_Source m);
  ps_within : proper (snippet_span s) /\ within_span (snippet_span s) (hm_Span m);
  ps_text : sn_Text s = text_of_runes (rune_slice (runes (tf_Text (hm_Field m))).*1 (sn_Start s) (sn_End s));
  ps_new : forall u, u ∈ hp_Sources recent -> hu_SourceID u = sn_SourceID s -> hu_Complete u = false
    /\ forall n, at_span (sn_Path s) n (snippet_span s) = true -> Forall (fun v => at_span (sn_Path s) n v = false) (hu_VisibleSpans u)
}.
(** What holds of the snippets at every moment. *)
Record shown_ok (shown : list RetrievedHistorySnippet) : Prop := {
  so_tokens : shown = [] \/ (estimateRetrievedHistoryProjection shown <= ri_MaxTokens input)%Z;
  so_fits : shown = [] \/ forall f, fits = Some f -> f shown = Some true;
  so_count : (Z.of_nat (length shown) <= Z.max 0 (ri_Limit input))%Z;
  so_passages : Forall (fun s => exists m, passage s m) shown;
  so_once : forall id path n, times_shown id path n shown <= 1;
  so_sorted : StronglySorted (not_after snippet_less) shown
}.
Lemma shown_nil : shown_ok [].
Proof. split; try (by left); cbn; [lia|unfold times_shown; cbn; lia]. Qed.
Lemma snippet_admitted shown s m : shown_ok shown -> (Z.of_nat (length shown) < ri_Limit input)%Z -> passage s m ->
  (forall path n, times_shown (sn_SourceID s) path n shown + (if at_span path n (snippet_span s) then 1 else 0) <= 1) ->
  candidate_fits input fits (appendRetrievedSnippet shown s) = Some true -> shown_ok (appendRetrievedSnippet shown s).
Proof.
  intros [] Hlen Hm Honce Hfit. unfold candidate_fits in Hfit. destruct (ri_MaxTokens input <? _)%Z eqn:E; [done|]. boolp. split.
  - by right.
  - right. intros f ->. done.
  - unfold appendRetrievedSnippet. rewrite sort_slice_perm, length_app. cbn. lia.
  - unfold appendRetrievedSnippet. rewrite sort_slice_perm, Forall_app, Forall_singleton. split; [done|by exists m].
  - intros id path n. rewrite times_shown_append. unfold shows_at. specialize (so_once0 id path n). case_bool_decide as Ei; cbn; [|lia].
    specialize (Honce path n). by rewrite Ei in Honce.
  - apply (sort_weak (fun _ => True)); [apply snippet_weak|by apply Forall_true].
Qed.
(** The spans of a match that may still be shown. *)
Record open_spans (s : RetrievedHistorySnippet) (text : list N) (shown : list RetrievedHistorySnippet) (spans : list HistoryTextSpan) : Prop := {
  os_proper : Forall proper spans;
  os_path : Forall (fun span => ts_Path span = sn_Path s) spans;
  os_passages : Forall (fun span => forall w, proper w -> within_span w span -> exists m, passage (retrievalSnippetRange s text w) m) spans;
  os_once : forall path n, times_shown (sn_SourceID s) path n shown + holding path n spans <= 1
}.
Lemma range_span s text w : ts_Path w = sn_Path s -> snippet_span (retrievalSnippetRange s text w) = w.
Proof. unfold snippet_span, retrievalSnippetRange. cbn. intros <-. by destruct w. Qed.
Lemma admit_window s text shown span spans w : shown_ok shown -> open_spans s text shown (span :: spans) -> (Z.of_nat (length shown) < ri_Limit input)%Z ->
  proper w -> within_span w span -> candidate_fits input fits (appendRetrievedSnippet shown (retrievalSnippetRange s text w)) = Some true ->
  let shown' := appendRetrievedSnippet shown (retrievalSnippetRange s text w) in shown_ok shown' /\ open_spans s text shown' spans.
Proof.
  intros Hok [[Hp Hps]%Forall_cons [Hpath Hpaths]%Forall_cons [Hm Hms]%Forall_cons Honce] Hlen Hw Hin Hfit. cbv zeta.
  assert (Hspan : snippet_span (retrievalSnippetRange s text w) = w) by (apply range_span; destruct Hin; congruence).
  assert (Hone : forall path n, times_shown (sn_SourceID s) path n shown + (if at_span path n w then 1 else 0) + holding path n spans <= 1).
  { intros path n. specialize (Honce path n). change (span :: spans) with ([span] ++ spans) in Honce. rewrite holding_app, holding_one in Honce.
    destruct (at_span path n w) eqn:E; [|destruct (at_span path n span); lia]. rewrite (within_at _ _ _ _ Hin E) in Honce. lia. }
  destruct (Hm w Hw Hin) as [m Hpm]. split.
  - apply (snippet_admitted _ _ m); try done. intros path n. specialize (Hone path n). rewrite Hspan. cbn [sn_SourceID retrievalSnippetRange]. lia.
  - split; try done. intros path n. rewrite times_shown_append. unfold shows_at. rewrite Hspan. cbn [sn_SourceID retrievalSnippetRange]. rewrite bool_decide_eq_true_2 by done. apply Hone.
Qed.
Lemma open_rest s text shown span spans : open_spans s text shown (span :: spans) -> open_spans s text shown spans.
Proof.
  intros [[Hp Hps]%Forall_cons [Hpath Hpaths]%Forall_cons [Hm Hms]%Forall_cons Honce]. split; try done. intros path n. specialize (Honce path n).
  change (span :: spans) with ([span] ++ spans) in Honce. rewrite holding_app in Honce. lia.
Qed.
Lemma crop_retrieved_ok shown s text span terms test c : cropRetrievedSnippet shown s text span terms test = Some (Some c) ->
  exists w, proper w /\ within_span w span /\ c = appendRetrievedSnippet shown (retrievalSnippetRange s text w) /\ test c = Some true.
Proof.
  unfold cropRetrievedSnippet. intros (n & Hn & [[_ H]|[H1 H2]] & _)%find_largest_ok; [done|]. destruct (test _) as [[]|] eqn:E; try done. injection H2 as <-.
  destruct (crop_window_within span (retrievalAnchor text span terms) n) as [Hw Hp]; [lia|]. by eexists.
Qed.
(** A report that only diagnoses more. *)
Definition same_counts (r r' : RetrievedHistoryReport) : Prop :=
  rr_RetainedMatches r' = rr_RetainedMatches r /\ rr_DroppedMatches r' = rr_DroppedMatches r.
Lemma admit_spans_ok s text terms spans : forall shown included r, shown_ok shown -> open_spans s text shown spans ->
  match admit_spans input (candidate_fits input fits) s text terms spans shown included r with
  | Ok (shown', _, r') => shown_ok shown' /\ same_counts r r'
  | Err (shown', _) => shown_ok shown'
  end.
Proof.
  induction spans as [|span spans IH]; intros shown included r Hok Hopen; cbn [admit_spans]; [by split|].
  destruct (_ <=? _)%Z eqn:E; [by split|]. boolp. pose proof (Forall_inv (os_proper _ _ _ _ Hopen)) as Hp.
  assert (Hself : within_span span span) by by split.
  destruct (candidate_fits _ _ _) as [[]|] eqn:Ef; [| |done].
  - destruct (admit_window _ _ _ _ _ _ Hok Hopen E Hp Hself Ef) as [Hok' Hopen']. by apply IH.
  - destruct (cropRetrievedSnippet _ _ _ _ _ _) as [[c|]|] eqn:Ec; [| |done].
    + apply crop_retrieved_ok in Ec as (w & Hw & Hin & -> & Ht). destruct (admit_window _ _ _ _ _ _ Hok Hopen E Hw Hin Ht) as [Hok' Hopen'].
      specialize (IH _ true (rr_diagnose ReasonRetrievedHistoryBudgetExceeded r) Hok' Hopen'). by destruct (admit_spans _ _ _ _ _ _ _ _ _) as [[]|[[] ?]].
    + specialize (IH shown included (rr_diagnose ReasonRetrievedHistoryBudgetExceeded r) Hok (open_rest _ _ _ _ _ Hopen)).
      by destruct (admit_spans _ _ _ _ _ _ _ _ _) as [[]|[[] ?]].
Qed.
(** *** The spans of a match *)
Lemma uncovered_proper id units : forall spans, Forall proper spans -> Forall proper (uncovered id units spans).
Proof.
  induction units as [|u units IH]; intros spans H; cbn; [done|]. destruct (negb _); [by apply IH|]. destruct (hu_Complete u); [constructor|]. by apply IH, subtract_proper.
Qed.
Lemma uncovered_holding id path n units : forall spans, holding path n (uncovered id units spans) <= holding path n spans
  /\ (0 < holding path n (uncovered id units spans) -> forall u, u ∈ units -> hu_SourceID u = id -> hu_Complete u = false
        /\ Forall (fun v => at_span path n v = false) (hu_VisibleSpans u)).
Proof.
  induction units as [|u units IH]; intros spans; cbn [uncovered]; [split; [done|]; by intros _ u ?%not_elem_of_nil|]. case_bool_decide as Eu; cbn [negb].
  - destruct (hu_Complete u) eqn:Ec; [split; [cbn; lia|unfold holding; cbn; lia]|]. destruct (IH (subtractRetrievalSpans spans (hu_VisibleSpans u))) as [H1 H2].
    rewrite subtract_holding in H1. destruct (existsb _ _) eqn:Ex; [split; [lia|lia]|]. split; [done|]. intros H v [-> |Hv]%elem_of_cons Hid; [|by apply H2].
    split; [done|]. apply Forall_forall. intros x Hx. apply not_true_iff_false. intros Ha. enough (existsb (at_span path n) (hu_VisibleSpans u) = true) by congruence.
    apply existsb_exists. exists x. by split; [apply list_elem_of_In|].
  - destruct (IH spans) as [H1 H2]. split; [done|]. intros H v [-> |Hv]%elem_of_cons Hid; [done|by apply H2].
Qed.
Lemma match_spans_open m times relation shown : m ∈ ri_Matches input -> visible_match m -> shown_ok shown ->
  let id := src_ID (hm_Source m) in
  open_spans (match_snippet m times relation) (runes (tf_Text (hm_Field m))).*1 shown (not_shown id shown (uncovered id (hp_Sources recent) [hm_Span m])).
Proof.
  intros Hm Hv Hok. cbv zeta. set (id := src_ID (hm_Source m)). set (left := uncovered id (hp_Sources recent) [hm_Span m]). set (spans := not_shown id shown left).
  assert (Hone : forall path n, holding path n spans <= holding path n left /\ holding path n left <= holding path n [hm_Span m]).
  { intros path n. split; [|apply uncovered_holding]. unfold spans, not_shown. rewrite subtract_holding. destruct (existsb _ _); lia. }
  assert (Hp : Forall proper left) by (apply uncovered_proper, Forall_singleton; destruct Hv as [? ? ? ? ? [? ?]]; unfold proper; lia).
  assert (Hps : Forall proper spans) by by apply subtract_proper.
  assert (Hin : forall w span, span ∈ spans -> proper w -> within_span w span -> forall n, at_span (ts_Path w) n w = true -> 0 < holding (ts_Path w) n left).
  { intros w span Hs Hw Hws n Ha. destruct (Hone (ts_Path w) n) as [H1 _]. enough (0 < holding (ts_Path w) n spans) by lia. apply holding_in.
    exists span. split; [done|]. by eapply within_at. }
  assert (Hwithin : forall w span, span ∈ spans -> proper w -> within_span w span -> within_span w (hm_Span m)).
  { intros w span Hs Hw Hws. apply within_positions; [done|]. intros n Ha. destruct (Hone (ts_Path w) n) as [_ H2]. pose proof (Hin w span Hs Hw Hws n Ha) as H3.
    rewrite holding_one in H2. destruct (at_span _ _ (hm_Span m)); [done|lia]. }
  split; [done| | |].
  - apply Forall_forall. intros span Hs. destruct (Hwithin span span) as [-> _]; [done|rewrite Forall_forall in Hps; by apply Hps|by split|]. apply (vm_path _ Hv).
  - apply Forall_forall. intros span Hs w Hw Hws. exists m. destruct (Hwithin w span Hs Hw Hws) as (P1 & P2 & P3).
    assert (Hspan : snippet_span (retrievalSnippetRange (match_snippet m times relation) (runes (tf_Text (hm_Field m))).*1 w) = w)
      by (apply range_span; rewrite P1; apply (vm_path _ Hv)).
    assert (Hpath : ts_Path w = sn_Path (match_snippet m times relation)) by (rewrite P1; apply (vm_path _ Hv)).
    split; rewrite ?Hspan; try done. intros u Hu Hid. cbn [sn_SourceID retrievalSnippetRange match_snippet sn_Path] in *. rewrite <- Hpath. split.
    + destruct (uncovered_holding id (ts_Path w) (ts_Start w) (hp_Sources recent) [hm_Span m]) as [_ H]. apply H; [|done|done]. apply (Hin w span Hs Hw Hws).
      unfold at_span. apply bool_decide_eq_true. unfold proper in Hw. split; [done|lia].
    + intros n Ha. destruct (uncovered_holding id (ts_Path w) n (hp_Sources recent) [hm_Span m]) as [_ H]. apply H; [|done|done]. by apply (Hin w span Hs Hw Hws).
  - intros path n. apply not_shown_holding; [apply (so_once _ Hok)|]. destruct (Hone path n) as [_ H2]. fold left. rewrite holding_one in H2. destruct (at_span _ _ _); lia.
Qed.
Lemma open_perm s text shown spans spans' : spans' ≡ₚ spans -> open_spans s text shown spans -> open_spans s text shown spans'.
Proof. intros Hp []. split; rewrite ?Hp; try done. intros path n. rewrite (holding_perm _ _ _ _ Hp). apply os_once0. Qed.
Lemma project_match_ok m shown r : m ∈ ri_Matches input -> shown_ok shown ->
  match project_match input owner current recent (candidate_fits input fits) m shown r with
  | Ok (shown', r') => shown_ok shown' /\ (rr_RetainedMatches r' + rr_DroppedMatches r' = rr_RetainedMatches r + rr_DroppedMatches r)%Z
  | Err (shown', _) => shown_ok shown'
  end.
Proof.
  intros Hm Hok. unfold project_match. cbv zeta. destruct (retrievalMatchVisibility _ _ _ _) as [[times relation]|] eqn:Ev; [|by split].
  pose proof (visibility_ok _ _ Ev) as Hv. set (r1 := if relation == "unknown"%string then _ else r).
  assert (H1 : same_counts r r1) by (unfold r1; by destruct (relation == _)). clearbody r1. destruct H1 as [H1 H1']. destruct (negb (nonempty _)); [split; [done|cbn; lia]|].
  set (r2 := if negb _ then _ else r1). assert (H2 : same_counts r1 r2) by (unfold r2; by case_match). clearbody r2. destruct H2 as [H2 H2'].
  destruct (negb (nonempty _)); [split; [done|cbn; lia]|]. pose proof (match_spans_open m times relation shown Hm Hv Hok) as Hopen. cbv zeta in Hopen.
  match goal with |- context [admit_spans _ _ ?s ?text ?terms (sort_slice ?less ?spans) _ _ _] =>
    assert (Hopen' : open_spans s text shown (sort_slice less spans)) by (eapply open_perm, Hopen; apply sort_slice_perm);
    pose proof (admit_spans_ok s text terms _ shown false r2 Hok Hopen') as H end.
  destruct (admit_spans _ _ _ _ _ _ _ _ _) as [[[shown' included] r']|[shown' r']]; [|done]. destruct H as [H [H3 H3']]. split; [done|]. destruct included; cbn; lia.
Qed.
Lemma project_matches_ok matches : forall shown r, (forall m, m ∈ matches -> m ∈ ri_Matches input) -> shown_ok shown ->
  match project_matches input owner current recent (candidate_fits input fits) matches shown r with
  | Ok (shown', r') => shown_ok shown' /\ (rr_RetainedMatches r' + rr_DroppedMatches r' = rr_RetainedMatches r + rr_DroppedMatches r)%Z
  | Err (shown', _) => shown_ok shown'
  end.
Proof.
  induction matches as [|m matches IH]; intros shown r Hm Hok; cbn [project_matches]; [by split|].
  pose proof (project_match_ok m shown r (Hm m ltac:(by left)) Hok) as H. destruct (project_match _ _ _ _ _ _ _ _) as [[shown' r']|[shown' r']]; [|done].
  destruct H as [H1 H2]. specialize (IH shown' r' ltac:(intros; apply Hm; by right) H1). destruct (project_matches _ _ _ _ _ _ _ _) as [[]|[]]; [|done].
  destruct IH. split; [done|lia].
Qed.
Lemma project_retrieved_ok :
  match projectRetrievedHistory input owner current recent fits with
  | Ok (shown, report) => shown_ok shown /\ (shown <> [] -> hsn_Owner (ri_Snapshot input) = owner)
      /\ rr_RetainedSnippets report = Z.of_nat (length shown) /\ (rr_RetainedMatches report + rr_DroppedMatches report = Z.of_nat (length (ri_Matches input)))%Z
      /\ rr_EstimatedTokens report = estimateRetrievedHistoryProjection shown
  | Err (shown, _) => shown_ok shown
  end.
Proof.
  unfold projectRetrievedHistory. cbv zeta. pose proof shown_nil as Hnil. case_bool_decide as Eo; cbn [negb]; [|by split_and!].
  destruct (_ || _); [split_and!; try done; by destruct (nonempty _)|]. set (r := if _ && _ then _ else _).
  assert (Hr : (rr_RetainedMatches r + rr_DroppedMatches r = Z.of_nat (length (ri_Matches input)))%Z) by (unfold r; by destruct (_ && _)). clearbody r.
  pose proof (project_matches_ok (ri_Matches input) [] r ltac:(done) Hnil) as H. destruct (project_matches _ _ _ _ _ _ _ _) as [[shown r']|[shown r']]; [|done].
  destruct H as [H1 H2]. split_and!; try done. cbn. destruct (nonempty shown); cbn; lia.
Qed.
(** C27: Retrieved history stays within its limits and repeats nothing.  Whatever
    [projectRetrievedHistory] shows_at, also when the test of the request fails on the way, is
    within the number and the tokens of the input, and the request was tested to fit with it. Each
    passage is the text of a match's field between the positions it names, which are within the span that was
    found and within the field; the match is of this session, up to the snapshot, available and of no future
    time.  No position of a source is shown twice, nor is any that the recent history shows_at.  The passages are in the order
    of their sequence, source, path and place, and without an error the report counts every match
    once. *)
Theorem retrieved_history_repeats_nothing :
  match projectRetrievedHistory input owner current recent fits with
  | Ok (shown, report) => shown_ok shown /\ (shown <> [] -> hsn_Owner (ri_Snapshot input) = owner)
      /\ rr_RetainedSnippets report = Z.of_nat (length shown) /\ (rr_RetainedMatches report + rr_DroppedMatches report = Z.of_nat (length (ri_Matches input)))%Z
      /\ rr_EstimatedTokens report = estimateRetrievedHistoryProjection shown
  | Err (shown, _) => shown_ok shown
  end.
Proof. apply project_retrieved_ok. Qed.
End Retrieved.

(** Of a passage too long for the budget the words around the query's term are shown. *)
#[local] Instance ascii_only : Unicode := {| lower := id; printable := fun _ => true |}.
#[local] Instance no_results : Protocol := {| protocol_ActionResult := unit; marshal_ActionResult := fun _ => None |}.
Example a_long_passage_is_cropped_around_its_term :
  let text := "The old mill stands by the river; the Harvest feast is held there every autumn, when the whole valley comes down to dance."%string in
  let owner := {| GameID := "g"; WorldID := "w"; EntityID := "e" |} in
  let source := {| src_ID := "s1"; src_Sequence := 3; src_Owner := owner; src_CreatedAt := {| t_instant := 0; t_text := "2026-01-01T00:00:00Z" |}; src_Times := [];
                   src_Batch := None; src_Availability := ""; src_Experience := None; src_FactID := "" |} in
  let found := {| hm_Source := source; hm_Field := {| tf_Path := "/event/facts/0/Text"; tf_ActorID := ""; tf_Kind := ""; tf_Text := text |};
                  hm_Span := {| ts_Path := "/event/facts/0/Text"; ts_Start := 0; ts_End := 122 |}; hm_MatchedTerms := ["harvest"] |} in
  let input := {| ri_Snapshot := {| hsn_Owner := owner; hsn_Watermark := 9; hsn_SummaryRevision := 0; hsn_LeaseID := "" |}; ri_Matches := [found; found];
                  ri_MaxTokens := 148; ri_Limit := 5; ri_Diagnostics := [] |} in
  match projectRetrievedHistory input owner None no_projection None with
  | Ok (shown, report) => (List.map (fun s => (sn_Start s, sn_End s, sn_Text s)) shown, rr_RetainedMatches report, rr_DroppedMatches report)
  | Err _ => ([], 0, 0)%Z
  end = ([(10, 73, "ll stands by the river; the Harvest feast is held there every a"%string)], 1, 1)%Z.
Proof. vm_compute. reflexivity. Qed.
