(* ===== verification/Building.v ===== *)
(** * The projection of a turn: [context.go], [Engine.Build]

    The validation of the input, the projections of event, facts and observation, and
    the composition of all sections: select, bring into the budgets, then spend what is
    left of the request on retrieved history and background knowledge.

    Messages of the protocol are records of their getters, with the zero values of a nil
    event; the tools are those the turn's view offers.

    Whatever the selections, the budgets, the retrieved history and the knowledge do
    together, a projection that is answered without an error is within the budgets of the
    request, and its sections within their own, but for facts already cut to the bone. *)

From S2P Require Export Retrieval Fitted.

Local Open Scope go_scope.
Local Open Scope string_scope.

(** ** The input *)
Record protocol_ContextFact := {
  pcf_Kind : string; pcf_ActorEntityId : string; pcf_TargetEntityId : string; pcf_ScopeId : string; pcf_Text : string; pcf_Label : string;
  pcf_Attributes : option any_map
}.
Record protocol_GameEvent := {
  pge_EventId : string; pge_EventType : string; pge_WorldId : string; pge_TargetEntityId : string; pge_Sequence : N; pge_GameTime : option GameTime;
  pge_ContextFacts : list (option protocol_ContextFact); pge_Payload : option any_map
}.
Record protocol_Observation := {
  pob_WorldId : string; pob_EntityId : string; pob_Revision : N; pob_GameTime : option GameTime; pob_NearbyEntities : list (option EntityRef);
  pob_Extensions : option any_map; pob_State : option any_map
}.
Definition nil_GameEvent : protocol_GameEvent :=
  {| pge_EventId := ""; pge_EventType := ""; pge_WorldId := ""; pge_TargetEntityId := ""; pge_Sequence := 0; pge_GameTime := None; pge_ContextFacts := [];
     pge_Payload := None |}.
(** The zero projection and the report of a budget alone. *)
Definition zero_projection : ContextProjection :=
  mkProjection no_preferences {| GameID := ""; WorldID := ""; EntityID := "" |} None
    {| de_SessionKey := {| GameID := ""; WorldID := ""; EntityID := "" |}; de_EntityType := ""; de_DisplayName := ""; de_DefinitionID := "" |} None None "" ""
    {| pe_EventID := ""; pe_EventType := ""; pe_WorldID := ""; pe_TargetEntityID := ""; pe_Sequence := 0; pe_GameTime := None; pe_CanonicalTarget := None;
       pe_Payload := [] |} []
    {| po_WorldID := ""; po_EntityID := ""; po_Revision := 0; po_GameTime := None; po_NearbyEntities := []; po_Extensions := []; po_State := [] |}
    None [] no_projection [] [] no_knowledge false false [] [].
Definition no_knowledge_report (status : string) : KnowledgeReport :=
  {| kn_Status := status; kn_ContentHash := ""; kn_SourceVersion := ""; kn_EntryIDs := []; kn_DroppedCount := 0; kn_EstimatedTokens := 0; kn_Diagnostic := "" |}.
Definition zero_budget : BudgetConfig :=
  {| MaxRequestTokens := 0; MaxSystemTokens := 0; MaxUserMessageTokens := 0; MaxDefinitionTokens := 0; MaxObservationTokens := 0;
     MaxEventTokens := 0; MaxContextFactsTokens := 0; MaxTaskContextTokens := 0; MaxRecentMemoryTokens := 0; MaxRecentMemoryRecords := 0;
     MaxTranscriptTokens := 0; MaxToolCount := 0; MaxToolDescriptionTokens := 0; MaxToolSchemaTokens := 0; MaxTotalToolSchemaTokens := 0;
     MaxToolResultOutputTokens := 0; MaxToolResultOutputDepth := 0; MaxToolResultOutputFields := 0; MaxToolResultOutputArrayItems := 0 |}.
Definition blank_report (budget : BudgetConfig) : ContextBuildReport :=
  mkReport budget [] false false no_retention (mkHistoryReport 0 0 false 0 []) (mkExperiencesReport 0 0 0 []) (mkRetrievedReport 0 0 0 0 [])
    (no_knowledge_report "") no_retention no_task_report no_size [].

Section Building.
Context `{Unicode} `{Protocol}.
Record BuildInput := {
  in_PlayerPreferences : PlayerPreferences; in_SessionKey : AgentSessionKey; in_CanonicalTarget : option EntityRef; in_AgentDescriptor : AgentInstanceDescriptor;
  in_GameDefinition : option GameDefinition; in_AgentDefinition : option AgentDefinition; in_RuntimePolicy : string;
  in_RecentMemories : list memory_Record; in_History : option HistoryInput; in_Retrieval : option RetrievedHistoryInput;
  in_Knowledge : option RetrievedKnowledgeInput; in_RecentExperiences : option RecentExperiencesInput;
  in_Event : option protocol_GameEvent; in_Observation : option protocol_Observation;
  in_Tools : list ToolDefinition; in_RuntimeContext : option RuntimeCallContext; in_Transcript : list model_Message
}.
Definition invalid (text : string) : option context_error := Some (ErrInvalidInput text).
(** The first check that fails. *)
Fixpoint first_failed (checks : list (bool * string)) : option context_error :=
  match checks with
  | [] => None
  | (failed, text) :: checks => if (failed : bool) then invalid text else first_failed checks
  end.
Definition internal_wake (input : BuildInput) : bool :=
  match in_Event input, in_RuntimeContext input with
  | None, Some rc =>
    let e := rc_Execution rc in
    (src_Kind (ex_Source e) == SourceKindTaskWake) && (ex_Owner e == in_SessionKey input) && (ex_WakeID e != "") && bool_decide (is_Some (rc_ObservedTask rc))
  | _, _ => false
  end.
Definition validateEngineInput (input : BuildInput) : option context_error :=
  let wake := internal_wake input in
  let key := in_SessionKey input in
  let event := default nil_GameEvent (in_Event input) in
  if bool_decide (in_Event input = None) && ! wake then invalid "event is required" else
  match in_Observation input, in_CanonicalTarget input with
  | None, _ => invalid "observation is required"
  | Some _, None => invalid "canonical target is required"
  | Some observation, Some target =>
    first_failed
      ([(in_RuntimePolicy input == "", "runtime policy is required");
        (GameID key == "", "session key game_id is required");
        (WorldID key == "", "session key world_id is required");
        (EntityID key == "", "session key entity_id is required");
        (EntityId target != EntityID key, "canonical target entity_id does not match session key");
        (de_SessionKey (in_AgentDescriptor input) != key, "agent descriptor session key does not match session key");
        (de_DefinitionID (in_AgentDescriptor input) != DefinitionId target, "agent descriptor definition_id does not match canonical target");
        (! wake && (TrimSpace (pge_WorldId event) != WorldID key), "event world_id does not match session key");
        (! wake && (TrimSpace (pge_TargetEntityId event) != EntityID key), "event target_entity_id does not match session key");
        (pob_WorldId observation != WorldID key, "observation world_id does not match session key");
        (pob_EntityId observation != EntityID key, "observation entity_id does not match session key");
        (match in_GameDefinition input with Some g => gd_GameID g != GameID key | None => false end, "game definition game_id does not match session key");
        ((DefinitionId target == "") && bool_decide (is_Some (in_AgentDefinition input)),
         "agent definition must be nil when canonical target definition_id is empty")]
       ++ match in_AgentDefinition input with
          | None => []
          | Some a => [(ad_GameID a != GameID key, "agent definition game_id does not match session key");
                       (ad_DefinitionID a != de_DefinitionID (in_AgentDescriptor input), "agent definition definition_id does not match agent descriptor");
                       (ad_DefinitionID a != DefinitionId target, "agent definition definition_id does not match canonical target")]
          end)%list
  end.

(** ** What the environment reports *)
Definition boundedPreferences (p : PlayerPreferences) : PlayerPreferences :=
  let unfit := (40 <? rune_len (pf_Name p))%nat
               || existsb (fun c => (byte_val c == 13%N) || (byte_val c == 10%N) || (byte_val c == 0%N)) (bytes_of (pf_Name p)) in
  {| pf_Name := if unfit then "" else pf_Name p;
     pf_Language := if (pf_Language p != "zh-CN") && (pf_Language p != "en") then "" else pf_Language p;
     pf_Style := if (pf_Style p != "natural") && (pf_Style p != "brief") && (pf_Style p != "detailed") then "" else pf_Style p |}.
Definition projectCurrentEvent (event : option protocol_GameEvent) (target : option EntityRef) : EventProjection :=
  let e := default nil_GameEvent event in
  {| pe_EventID := pge_EventId e; pe_EventType := pge_EventType e; pe_WorldID := TrimSpace (pge_WorldId e);
     pe_TargetEntityID := TrimSpace (pge_TargetEntityId e); pe_Sequence := pge_Sequence e; pe_GameTime := pge_GameTime e; pe_CanonicalTarget := target;
     pe_Payload := default [] (pge_Payload e) |}.
Definition project_fact (f : protocol_ContextFact) : ContextFactProjection :=
  {| fp_Kind := TrimSpace (pcf_Kind f); fp_ActorEntityID := TrimSpace (pcf_ActorEntityId f); fp_TargetEntityID := TrimSpace (pcf_TargetEntityId f);
     fp_ScopeID := TrimSpace (pcf_ScopeId f); fp_Text := TrimSpace (pcf_Text f); fp_Label := TrimSpace (pcf_Label f);
     fp_Attributes := default [] (pcf_Attributes f) |}.
Definition projectCurrentEventContextFacts (facts : list (option protocol_ContextFact)) : list ContextFactProjection := omap (fmap project_fact) facts.
Definition copyEntityRefs (refs : list (option EntityRef)) : list EntityRef :=
  omap (fmap (fun r => {| EntityId := TrimSpace (EntityId r); EntityType := TrimSpace (EntityType r); DefinitionId := TrimSpace (DefinitionId r);
                          DisplayName := TrimSpace (DisplayName r) |})) refs.
(** The extension of the experiences is not shown as such. *)
Definition projectCurrentObservation (observation : option protocol_Observation) : ObservationProjection :=
  match observation with
  | None => {| po_WorldID := ""; po_EntityID := ""; po_Revision := 0; po_GameTime := None; po_NearbyEntities := []; po_Extensions := []; po_State := [] |}
  | Some o =>
    {| po_WorldID := pob_WorldId o; po_EntityID := pob_EntityId o; po_Revision := pob_Revision o; po_GameTime := pob_GameTime o;
       po_NearbyEntities := copyEntityRefs (pob_NearbyEntities o);
       po_Extensions := List.filter (fun p => p.1 != Extension) (default [] (pob_Extensions o)); po_State := default [] (pob_State o) |}
  end.

(** ** The report *)
Definition newContextBuildReport (p : ContextProjection) (input : BuildInput) (budget : BudgetConfig) (recentMemory transcript : RetentionReport) : ContextBuildReport :=
  let game := bool_decide (in_GameDefinition input = None) in
  let agent := match in_CanonicalTarget input with Some t => DefinitionId t != "" | None => false end && bool_decide (in_AgentDefinition input = None) in
  let report := mkReport budget (sectionReportsForProjection p) game agent recentMemory (mkHistoryReport 0 0 false 0 []) (mkExperiencesReport 0 0 0 [])
                  (mkRetrievedReport 0 0 0 0 []) (no_knowledge_report "disabled") transcript no_task_report no_size [] in
  let report := if game || agent then addReason ReasonDefinitionFallback report else report in
  let report := if (0 <? rt_DroppedCount recentMemory)%Z then addReason ReasonMemoryBudgetExceeded report else report in
  if (0 <? rt_DroppedCount transcript)%Z then addReason ReasonTranscriptBudgetExceeded report else report.
Definition has_code (code : string) (diagnostics : list string) : bool := existsb (fun d => d == code) diagnostics.
Definition retrievedHistorySection (p : ContextProjection) (r : RetrievedHistoryReport) : SectionReport :=
  let exceeded := has_code ReasonRetrievedHistoryBudgetExceeded (rr_Diagnostics r) in
  {| sr_Name := "retrieved_history"; sr_Included := nonempty (pj_RetrievedHistory p); sr_ProjectionEstimatedTokens := rr_EstimatedTokens r;
     sr_Cropped := exceeded; sr_Reason := if exceeded then ReasonRetrievedHistoryBudgetExceeded else "" |}.
(** The tokens of the instruction are those of the projection as it is now. *)
Definition refresh_instruction (p : ContextProjection) (s : SectionReport) : SectionReport :=
  if sr_Name s == "instruction"
  then {| sr_Name := sr_Name s; sr_Included := sr_Included s; sr_ProjectionEstimatedTokens := EstimateText (enc_string (renderAuthorityInstruction p));
          sr_Cropped := sr_Cropped s; sr_Reason := sr_Reason s |}
  else s.
Definition refreshRetrievedHistoryReport (p : ContextProjection) (r : ContextBuildReport) : ContextBuildReport :=
  let refresh s := if sr_Name s == "retrieved_history" then retrievedHistorySection p (rp_RetrievedHistory r) else refresh_instruction p s in
  let report := rep_sections (refresh <$> rp_Sections r) r in
  if has_code ReasonRetrievedHistoryBudgetExceeded (rr_Diagnostics (rp_RetrievedHistory r)) then addReason ReasonRetrievedHistoryBudgetExceeded report else report.
Definition knowledge_section (p : ContextProjection) (r : KnowledgeReport) : SectionReport :=
  {| sr_Name := "retrieved_knowledge"; sr_Included := nonempty (kr_Entries (pj_RetrievedKnowledge p)); sr_ProjectionEstimatedTokens := kn_EstimatedTokens r;
     sr_Cropped := (0 <? kn_DroppedCount r)%Z; sr_Reason := kn_Diagnostic r |}.

(** ** [Build] *)
(** The matches that neither the save forgot nor the experiences already show. *)
Definition with_matches (matches : list HistoryMatch) (r : RetrievedHistoryInput) : RetrievedHistoryInput :=
  {| ri_Snapshot := ri_Snapshot r; ri_Matches := matches; ri_MaxTokens := ri_MaxTokens r; ri_Limit := ri_Limit r; ri_Diagnostics := ri_Diagnostics r |}.
Definition retrievable (view : option experience_View) (units : list ExperienceUnit) (m : HistoryMatch) : bool :=
  ExperienceVisible (hm_Source m) view && negb (existsb (fun u => xu_SourceID u == src_ID (hm_Source m)) units).
Definition is_budget_error (e : context_error) : bool := match e with ErrBudgetExceeded _ => true | _ => false end.
Definition select_retrieved (budget : BudgetConfig) (input : BuildInput) (view : option experience_View) (current : option GameTimeSnapshot)
    (s : ContextProjection * ContextBuildReport * option context_error) : ContextProjection * ContextBuildReport * option context_error :=
  let '(p, report, err) := s in
  match in_Retrieval input with
  | None => s
  | Some retrieval =>
    let filtered := with_matches (List.filter (retrievable view (pj_RecentExperiences p)) (ri_Matches retrieval)) retrieval in
    let '(p, r, err) :=
      match err with
      | None =>
        match projectRetrievedHistory filtered (in_SessionKey input) current (pj_History p)
                (Some (fun shown => projectionFitsRequestBudget (set_retrieved shown p) budget)) with
        | Ok (shown, r) => (set_retrieved shown p, r, None)
        | Err (shown, r) => (set_retrieved shown p, r, Some ErrToolSchema)
        end
      | Some e =>
        let r := mkRetrievedReport 0 0 (Z.of_nat (length (ri_Matches retrieval))) 0 (ri_Diagnostics retrieval) in
        (p, if is_budget_error e then rr_diagnose ReasonRetrievedHistoryBudgetExceeded r else r, Some e)
      end in
    (p, refreshRetrievedHistoryReport p (rep_retrieved r report), err)
  end.
Definition select_knowledge (budget : BudgetConfig) (input : BuildInput) (s : ContextProjection * ContextBuildReport * option context_error) :
    ContextProjection * ContextBuildReport * option context_error :=
  let '(p, report, err) := s in
  let '(p, report, knowledgeErr) := projectKnowledge budget p (in_Knowledge input) report (bool_decide (is_Some err)) in
  let sections := ((refresh_instruction p <$> rp_Sections report)
                  ++ match in_Knowledge input with Some _ => [knowledge_section p (rp_Knowledge report)] | None => [] end)%list in
  (p, rep_sections sections report, match err with Some e => Some e | None => knowledgeErr end).
(** The memories or the history, whichever is on. *)
Definition select_past (budget : BudgetConfig) (input : BuildInput) (current : option GameTimeSnapshot) :
    list MemoryProjection * RetentionReport * (HistoryProjection * HistoryReport) :=
  match in_History input with
  | None => (projectRecentMemories (in_RecentMemories input) (MaxRecentMemoryRecords budget) (MaxRecentMemoryTokens budget) current
               (projectionBoundsFromEngineConfig budget), (no_projection, mkHistoryReport 0 0 false 0 []))
  | Some history => ([], no_retention, projectHistory history (in_SessionKey input) current)
  end.
Definition assemble (input : BuildInput) (task : option TaskProjection) (memories : list MemoryProjection) (history : HistoryProjection)
    (units : list ExperienceUnit) (transcript : list model_Message) : ContextProjection :=
  {| pj_PlayerPreferences := boundedPreferences (in_PlayerPreferences input); pj_SessionKey := in_SessionKey input;
     pj_CanonicalTarget := in_CanonicalTarget input; pj_AgentDescriptor := in_AgentDescriptor input; pj_GameDefinition := in_GameDefinition input;
     pj_AgentDefinition := in_AgentDefinition input; pj_RuntimePolicy := in_RuntimePolicy input;
     pj_Instruction := match in_History input with Some _ => historyAuthorityInstruction | None => defaultAuthorityInstruction end;
     pj_CurrentEvent := projectCurrentEvent (in_Event input) (in_CanonicalTarget input);
     pj_Facts := projectCurrentEventContextFacts (pge_ContextFacts (default nil_GameEvent (in_Event input)));
     pj_CurrentObservation := projectCurrentObservation (in_Observation input); pj_Task := task; pj_RecentMemory := memories; pj_History := history;
     pj_RecentExperiences := units; pj_RetrievedHistory := []; pj_RetrievedKnowledge := no_knowledge;
     pj_historyEnabled := bool_decide (is_Some (in_History input)); pj_retrievalEnabled := bool_decide (is_Some (in_Retrieval input));
     pj_Tools := in_Tools input; pj_Transcript := transcript |}.
(** The result and the error of [Build]; [budget] is the engine's configuration. *)
Definition Build (budget : BudgetConfig) (input : BuildInput) : option (ContextProjection * ContextBuildReport * option context_error) :=
  match validateEngineInput input with
  | Some e => Some (zero_projection, blank_report zero_budget, Some e)
  | None =>
    match projectTask (in_SessionKey input) (in_RuntimeContext input) with
    | Err e => Some (zero_projection, blank_report zero_budget, Some e)
    | Ok task =>
      let current := CurrentGameTime (in_Event input ≫= pge_GameTime) (in_Observation input ≫= pob_GameTime) in
      let parsed := ParseView (in_Observation input ≫= pob_Extensions) in
      let view := match parsed with Ok view => view | Err _ => None end in
      let '(units, experiences) := ProjectRecentExperiences (in_RecentExperiences input) (in_SessionKey input) view in
      let experiences := match parsed with
                         | Ok _ => experiences
                         | Err _ => mkExperiencesReport (xr_RetainedCount experiences) (xr_DroppedCount experiences) (xr_EstimatedTokens experiences)
                                      (appendUnique (xr_Diagnostics experiences) "experience_view_invalid")
                         end in
      let '(memories, memoryReport, (history, historyReport)) := select_past budget input current in
      let '(transcript, transcriptReport, err) := projectCurrentTurnTranscript (in_Transcript input) (projectionBoundsFromEngineConfig budget) (MaxTranscriptTokens budget) in
      match err with
      | Some e =>
        let report := rep_transcript transcriptReport (blank_report budget) in
        Some (zero_projection, if is_budget_error e then addReason ReasonRequiredContextOverBudget (addReason ReasonTranscriptBudgetExceeded report) else report, Some e)
      | None =>
        let p := assemble input task memories history units transcript in
        let report := rep_experiences experiences (rep_history historyReport (newContextBuildReport p input budget memoryReport transcriptReport)) in
        s ← applyProjectionBudgets p budget report;
        let '(p, report, err) := select_knowledge budget input (select_retrieved budget input view current s) in
        match err with
        | Some e => Some (p, report, Some e)
        | None =>
          match measureProjectionRequest p with
          | None => Some (p, report, Some ErrToolSchema)
          | Some size => Some (p, WithFinalRequestSize size report, None)
          end
        end
      end
    end
  end.
End Building.

#[local] Close Scope string_scope.

(** * What [Build] gives fits the request *)

Lemma set_retrieved_same p : set_retrieved (pj_RetrievedHistory p) p = p.
Proof. by destruct p. Qed.
Lemma set_knowledge_same p : set_knowledge (pj_RetrievedKnowledge p) p = p.
Proof. by destruct p. Qed.

Section Built.
Context {unicode : Unicode} {protocol : Protocol} (budget : BudgetConfig) (input : BuildInput).
(** The view and the time of the input. *)
Definition input_view : option experience_View := match ParseView (in_Observation input ≫= pob_Extensions) with Ok view => view | Err _ => None end.
Definition input_time : option GameTimeSnapshot := CurrentGameTime (in_Event input ≫= pge_GameTime) (in_Observation input ≫= pob_GameTime).
(** The projection before the budgets. *)
Definition selected (task : option TaskProjection) : ContextProjection :=
  assemble input task (select_past budget input input_time).1.1 (select_past budget input input_time).2.1
    (ProjectRecentExperiences (in_RecentExperiences input) (in_SessionKey input) input_view).1
    (projectCurrentTurnTranscript (in_Transcript input) (projectionBoundsFromEngineConfig budget) (MaxTranscriptTokens budget)).1.1.
(** What retrieval was given once [kept] was settled, and the test it was to pass. *)
Definition retrieved_ok (kept : ContextProjection) (shown : list RetrievedHistorySnippet) : Prop :=
  match in_Retrieval input with
  | None => shown = []
  | Some r => shown_ok (with_matches (List.filter (retrievable input_view (pj_RecentExperiences kept)) (ri_Matches r)) r) (in_SessionKey input) input_time (pj_History kept)
                (Some (fun shown => projectionFitsRequestBudget (set_retrieved shown kept) budget)) shown
  end.
Lemma select_retrieved_ok kept report err p report' : pj_RetrievedHistory kept = [] ->
  select_retrieved budget input input_view input_time (kept, report, err) = (p, report', None) ->
  err = None /\ exists shown, p = set_retrieved shown kept /\ retrieved_ok kept shown
  /\ (projectionFitsRequestBudget kept budget = Some true -> projectionFitsRequestBudget p budget = Some true).
Proof.
  intros H0. unfold select_retrieved, retrieved_ok. pose proof (set_retrieved_same kept) as Hsame. rewrite H0 in Hsame. destruct (in_Retrieval input) as [r|]; cycle 1.
  { intros [= <- <- ->]. split; [done|]. exists []. by rewrite Hsame. }
  destruct err as [e|]; [done|]. set (filtered := with_matches _ _). set (test := fun shown => _).
  pose proof (project_retrieved_ok filtered (in_SessionKey input) input_time (pj_History kept) (Some test)) as H.
  destruct (projectRetrievedHistory _ _ _ _ _) as [[shown rep]|[shown rep]]; [|done]. intros [= <- _]. split; [done|]. exists shown. destruct H as (Hok & _).
  split_and!; [done|done|]. intros Hk. destruct (so_fits _ _ _ _ _ _ Hok) as [-> |Hf]; [by rewrite Hsame|]. by apply (Hf test).
Qed.
(** What the knowledge of a projection may be. *)
Definition knowledge_ok (kept : ContextProjection) (k : knowledge_Result) : Prop :=
  k = no_knowledge \/ exists i, in_Knowledge input = Some i /\ knowledge_fits budget kept (ki_Result i) k.
Lemma select_knowledge_ok q report err p report' : pj_RetrievedKnowledge q = no_knowledge ->
  select_knowledge budget input (q, report, err) = (p, report', None) ->
  err = None /\ exists k, p = set_knowledge k q /\ knowledge_ok q k
  /\ (projectionFitsRequestBudget q budget = Some true -> projectionFitsRequestBudget p budget = Some true).
Proof.
  intros H0. unfold select_knowledge. pose proof (set_knowledge_same q) as Hsame. rewrite H0 in Hsame.
  pose proof (project_knowledge_ok budget q (in_Knowledge input) report (bool_decide (is_Some err))) as H. cbv zeta in H.
  destruct (projectKnowledge _ _ _ _ _) as [[p' r'] kerr]. intros [= <- _ Herr]. destruct err as [e|]; [done|]. subst kerr. split; [done|].
  destruct H as [-> |[-> |(i & k & Hi & -> & _ & Hk & _)]].
  - exists no_knowledge. rewrite Hsame. split_and!; [done|by left|done].
  - exists no_knowledge. rewrite Hsame. split_and!; [done|by left|done].
  - exists k. split_and!; [done| |intros _; apply (kf_request _ _ _ _ Hk)]. right. exists i. split; [done|]. by rewrite Hi in Hk.
Qed.
Lemma sections_fit_selected p shown k : sections_fit budget p -> sections_fit budget (set_knowledge k (set_retrieved shown p)).
Proof. by apply sections_fit_same. Qed.

(** ** The sections cut as they are selected *)
Record selections_fit (p : ContextProjection) : Prop := {
  sl_records : (Z.of_nat (length (pj_RecentMemory p)) <= Z.max 0 (MaxRecentMemoryRecords budget))%Z;
  sl_memories : pj_RecentMemory p = [] \/ within (MaxRecentMemoryTokens budget) (memory_tokens (pj_RecentMemory p));
  sl_transcript : exists gs, Forall causal_group gs /\ pj_Transcript p = concat gs /\ within (MaxTranscriptTokens budget) (group_tokens gs);
  sl_experiences : length (pj_RecentExperiences p) <= MaxRecentExperiences
    /\ (pj_RecentExperiences p = [] \/ (EstimateRecentExperiences (pj_RecentExperiences p) <= MaxRecentExperienceTokens)%Z);
  sl_knowledge : kr_Entries (pj_RetrievedKnowledge p) = []
    \/ length (kr_Entries (pj_RetrievedKnowledge p)) <= AutomaticLimit
       /\ (EstimateText (RenderRetrievedKnowledge (pj_RetrievedKnowledge p)) <= AutomaticTokens)%Z
}.
Lemma select_past_fits :
  let memories := (select_past budget input input_time).1.1 in
  (Z.of_nat (length memories) <= Z.max 0 (MaxRecentMemoryRecords budget))%Z
  /\ (memories = [] \/ within (MaxRecentMemoryTokens budget) (memory_tokens memories)).
Proof.
  unfold select_past. destruct (in_History input); [split; [cbn; lia|by left]|].
  pose proof (memories_limits (in_RecentMemories input) (MaxRecentMemoryRecords budget) (MaxRecentMemoryTokens budget) input_time
    (projectionBoundsFromEngineConfig budget)) as H. cbv zeta in H. destruct (projectRecentMemories _ _ _ _ _). exact H.
Qed.
Lemma selected_fits task : (projectCurrentTurnTranscript (in_Transcript input) (projectionBoundsFromEngineConfig budget) (MaxTranscriptTokens budget)).2 = None ->
  selections_fit (selected task).
Proof.
  intros Ht. destruct select_past_fits as [H1 H2]. destruct (experiences_limits (in_RecentExperiences input) (in_SessionKey input) input_view) as [H3 H4].
  destruct (projectCurrentTurnTranscript _ _ _) as [[kept report] err] eqn:E. cbn in Ht. subst err.
  apply transcript_limits in E as H5. unfold selected. rewrite E. split; cbn [assemble pj_RecentMemory pj_Transcript pj_RecentExperiences pj_RetrievedKnowledge];
    [done|done|exact H5|by split|by left].
Qed.
(** What is cut later stays within the limits. *)
Lemma cut_fits p p' : projection_cut p p' -> selections_fit p -> selections_fit p'.
Proof.
  intros Hc [H1 H2 (gs & Hg & Hp & Hl) [H4 H5] H6]. split.
  - destruct (pc_memory _ _ Hc) as [before Hm]. rewrite Hm, length_app in H1. lia.
  - destruct (pj_RecentMemory p') as [|m l] eqn:Em; [by left|right]. pose proof (pc_memory _ _ Hc) as Hs. rewrite Em in Hs.
    intros Hpos. etrans; [apply (memory_tokens_suffix _ (pj_RecentMemory p)); done|]. destruct H2 as [H2|H2]; [|by apply H2].
    rewrite H2 in Hs. by apply suffix_cons_nil_inv in Hs.
  - destruct (pc_transcript _ _ Hc) as [-> |(gs' & k & Hg' & _ & ->)]; [by exists gs|]. rewrite Hp, groups_of_concat in Hg' by done. injection Hg' as <-.
    exists (drop k gs). split_and!; [by apply Forall_drop|done|]. intros Hpos. pose proof (group_tokens_drop k gs). specialize (Hl Hpos). lia.
  - pose proof (pc_experiences _ _ Hc) as Hs. split; [apply prefix_length in Hs; lia|]. destruct (pj_RecentExperiences p') as [|u l] eqn:Eu; [by left|right].
    etrans; [by apply experiences_prefix|]. destruct H5 as [H5|H5]; [|done]. rewrite H5 in Hs. by apply prefix_nil_not in Hs.
  - by rewrite (pc_knowledge _ _ Hc).
Qed.
Lemma knowledge_selected kept shown k : knowledge_ok (set_retrieved shown kept) k -> selections_fit kept -> selections_fit (set_knowledge k (set_retrieved shown kept)).
Proof.
  intros Hk [H1 H2 H3 H4 _]. split; try done. change (pj_RetrievedKnowledge _) with k.
  destruct Hk as [-> |(i & _ & Hk)]; [by left|right]. split; [apply (kf_count _ _ _ _ Hk)|apply (kf_tokens _ _ _ _ Hk)].
Qed.
(** C20: [Build] is total and what it answers is within the budgets.  Every input gives a result or an error.
    Without an error the input was valid, and the request rendered from the projection is within the
    system, message and request budgets; its size is the one reported.  Of the sections with a
    budget of their own, the definitions, the event, the observation and the task are
    within it, and so are the facts, unless of every one nothing is left that may be dropped.  The recent memories are
    within their record and token limits, the transcript is whole causal groups within its limit, there are at
    most eight experiences and three entries of knowledge, each section within 768 tokens.  The
    projection is what was selected from the input (its memories or its history, its
    experiences, its task and transcript), cut to the budgets, with passages of retrieved
    history chosen against the history that was kept, and with knowledge of the lookup. *)
Theorem build_answers_within_budgets : exists p report err, Build budget input = Some (p, report, err)
  /\ (err = None -> validateEngineInput input = None
      /\ (exists task kept shown k, projectTask (in_SessionKey input) (in_RuntimeContext input) = Ok task
            /\ projection_cut (selected task) kept /\ retrieved_ok kept shown /\ knowledge_ok (set_retrieved shown kept) k
            /\ p = set_knowledge k (set_retrieved shown kept))
      /\ sections_fit budget p /\ selections_fit p
      /\ request_within budget p /\ measureProjectionRequest p = Some (rp_FinalRequestSize report)).
Proof.
  unfold Build. destruct (validateEngineInput input) as [e|] eqn:Ev; [by do 3 eexists|]. destruct (projectTask _ _) as [task|e] eqn:Et; [|by do 3 eexists].
  fold input_time input_view. cbv zeta. pose proof (eq_refl (selected task)) as Hsel. unfold selected in Hsel at 2.
  destruct (ProjectRecentExperiences _ _ _) as [units experiences]. destruct (select_past _ _ _) as [[memories memoryReport] [history historyReport]].
  pose proof (selected_fits task) as Hsl.
  destruct (projectCurrentTurnTranscript _ _ _) as [[transcript transcriptReport] [e|]]; [by do 3 eexists|]. cbn [fst snd] in Hsel, Hsl. rewrite <- Hsel.
  match goal with |- context [applyProjectionBudgets _ _ ?r] => destruct (apply_budgets_ok (selected task) budget r) as (kept & report & err & -> & Hcut & Hfit) end.
  cbn [mbind option_bind]. destruct (select_retrieved _ _ _ _ _) as [[q report1] err1] eqn:Er. destruct (select_knowledge _ _ _) as [[p report2] err2] eqn:Ek.
  assert (H0 : pj_RetrievedHistory kept = []) by (by destruct (pc_retrieved _ _ Hcut)).
  assert (H1 : pj_RetrievedKnowledge kept = no_knowledge) by by rewrite (pc_knowledge _ _ Hcut).
  destruct err2 as [e|]; [by do 3 eexists|]. assert (Hq : pj_RetrievedKnowledge q = no_knowledge).
  { rewrite <- H1. revert Er. unfold select_retrieved. destruct (in_Retrieval input); [|by intros [= <- _ _]]. destruct err; [by intros [= <- _ _]|].
    destruct (projectRetrievedHistory _ _ _ _ _) as [[]|[]]; by intros [= <- _ _]. }
  apply select_knowledge_ok in Ek as (-> & k & Hp & Hkn & Hk); [|done]. apply select_retrieved_ok in Er as (-> & shown & Hshown & Hok & Hs); [|done].
  destruct (Hfit eq_refl) as [Hsec Hreq]. apply fits_within in Hreq. apply Hs, Hk in Hreq. apply fits_within in Hreq. pose proof Hreq as (size & Hsize & _).
  rewrite Hsize. do 3 eexists. split; [done|]. intros _. split; [done|]. subst q. split_and!; [by exists task, kept, shown, k|rewrite Hp; by apply sections_fit_selected| |done|done].
  rewrite Hp. apply knowledge_selected; [done|]. by eapply cut_fits, Hsl.
Qed.
End Built.
