(* ===== verification/Admission.v ===== *)
(** * The tools of a turn: [runtime/internal/tool/environment_catalog.go], [registry.go], [types.go]

    The catalog of an environment is built from the capabilities a connection announces;
    a registry adds the tools of the runtime; [buildTurnToolView] admits, in the order of
    their names, the tools that fit the limits of a request, and reports what it left
    out.  The extensions of a capability are a [structpb.Struct]. *)

From S2P Require Export Context.

Local Open Scope go_scope.

(** ** Data *)

(** [structpb.Value]; [SNone] is nil or without a kind. *)
Inductive struct_value :=
| SNone | SNull | SNumber | SString (s : string) | SBool (b : bool) | SStruct (fields : option (gmap string struct_value)) | SList.
Definition GetStructValue (v : struct_value) : option (gmap string struct_value) :=
  match v with SStruct fields => fields | _ => None end.
Inductive CapabilityConcurrencyMode :=
| CAPABILITY_CONCURRENCY_MODE_PARALLEL_SAFE | CAPABILITY_CONCURRENCY_MODE_OTHER (n : Z).
Inductive CapabilityExecutionMode := EXECUTION_MODE_ASYNC | EXECUTION_MODE_OTHER (n : Z).
Record Capability := {
  cb_Name : string; cb_Description : string; cb_InputSchemaJson : string; cb_ConcurrencyMode : CapabilityConcurrencyMode;
  cb_ExecutionMode : CapabilityExecutionMode; cb_Extensions : option (gmap string struct_value)
}.
Record CapabilityList := { cl_Revision : N; cl_EntityId : option string; cl_Capabilities : list (option Capability) }.

(** [tool.Entry]: its definition, and what the scheduler looks at. *)
Record tool_Entry := mkTool { te_Definition : ToolDefinition; te_Entry : Entry }.
Definition te_Name (e : tool_Entry) : string := td_Name (te_Definition e).
Definition te_InputSchema (e : tool_Entry) : string := td_InputSchema (te_Definition e).

Record BootstrapDiagnostics := {
  bd_AcceptedToolCount : nat; bd_AcceptedToolNames : list string; bd_SkippedNilCapabilityCount : nat; bd_InvalidToolNames : list string;
  bd_SkippedInvalidSchemaNames : list string; bd_SkippedInvalidToolPolicyNames : list string; bd_DuplicateToolNames : list string;
  bd_UnsupportedEntityID : string; bd_InvalidEntityID : string; bd_CapabilityRevision : N; bd_CatalogToolCount : nat
}.
(** Diagnostics of a list that is refused. *)
Definition refused_diagnostics (revision : N) (unsupported invalid : string) : BootstrapDiagnostics :=
  {| bd_AcceptedToolCount := 0; bd_AcceptedToolNames := []; bd_SkippedNilCapabilityCount := 0; bd_InvalidToolNames := [];
     bd_SkippedInvalidSchemaNames := []; bd_SkippedInvalidToolPolicyNames := []; bd_DuplicateToolNames := [];
     bd_UnsupportedEntityID := unsupported; bd_InvalidEntityID := invalid; bd_CapabilityRevision := revision; bd_CatalogToolCount := 0 |}.
Inductive catalog_error := ErrMissingCapabilityList | ErrUnsupportedEntityScope (id : string) | ErrInvalidEntityScope (id : string).
Record EnvironmentToolCatalog := { ec_tools : gmap string tool_Entry; ec_duplicateNames : list string }.

(** ** Capabilities *)
Definition concurrencyModeFromCapability (c : Capability) : ConcurrencyMode :=
  match cb_ConcurrencyMode c with CAPABILITY_CONCURRENCY_MODE_PARALLEL_SAFE => ConcurrencyParallelSafe | _ => ConcurrencySequential end.
Definition executionModeFromCapability (c : Capability) : ExecutionMode :=
  match cb_ExecutionMode c with EXECUTION_MODE_ASYNC => ExecutionAsync | _ => ExecutionSync end.
Definition no_policy : ToolPolicy := {| ExclusivePerStep := false; SettleAfterSuccess := false |}.
(** A flag that is there is a boolean. *)
Definition policy_flag (fields : gmap string struct_value) (name : string) : option bool :=
  match fields !! name with None => Some false | Some (SBool b) => Some b | Some _ => None end.
Definition toolPolicyFromCapability (c : Capability) : option ToolPolicy :=
  match cb_Extensions c with
  | None => Some no_policy
  | Some extensions =>
    match extensions !! "gameagent"%string with
    | None => Some no_policy
    | Some value =>
      gameagent ← GetStructValue value;
      match gameagent !! "tool_policy"%string with
      | None => Some no_policy
      | Some value =>
        policy ← GetStructValue value;
        exclusive ← policy_flag policy "exclusive_per_step";
        settle ← policy_flag policy "settle_after_success";
        Some {| ExclusivePerStep := exclusive; SettleAfterSuccess := settle |}
      end
    end
  end.
Definition isValidCapabilityName (name : string) : bool := (name != "") && (name == TrimSpace name).
Definition json_field_of (name : string) (m : any_map) : option json_any := snd <$> List.find (fun p => p.1 == name) m.
(** A JSON object whose [type], if it has one, is the text [object]. *)
Definition isObjectInputSchema (schemaJSON : string) : bool :=
  match ParseJSONDocument schemaJSON with
  | Some (JMap schema) => match json_field_of "type" schema with
                          | None => true
                          | Some (JString rootType) => rootType == "object"
                          | Some _ => false
                          end
  | _ => false
  end.
Definition environmentEntryFromCapability (c : Capability) (policy : ToolPolicy) : tool_Entry :=
  mkTool {| td_Name := cb_Name c; td_Description := cb_Description c; td_InputSchema := cb_InputSchemaJson c |}
    {| en_InputSchema := cb_InputSchemaJson c; en_Kind := KindEnvironment; en_Concurrency := concurrencyModeFromCapability c;
       en_Execution := executionModeFromCapability c; en_Policy := policy; en_Executor := None |}.

(** ** The catalog *)

(** [groups], with what is skipped on the way. *)
Record grouping := mkGrouping { gr_nil : nat; gr_invalid : list string; gr_groups : gmap string (list Capability) }.
Definition group_capability (g : grouping) (capability : option Capability) : grouping :=
  match capability with
  | None => mkGrouping (S (gr_nil g)) (gr_invalid g) (gr_groups g)
  | Some c =>
    if ! isValidCapabilityName (cb_Name c) then mkGrouping (gr_nil g) (gr_invalid g ++ [cb_Name c]) (gr_groups g) else
    mkGrouping (gr_nil g) (gr_invalid g) (<[cb_Name c := default [] (gr_groups g !! cb_Name c) ++ [c]]> (gr_groups g))
  end.
Definition group_capabilities (l : list (option Capability)) : grouping := foldl group_capability (mkGrouping 0 [] ∅) l.

(** The loop over the names: the tools, and the names of each diagnostic. *)
Record listing := mkListing {
  li_tools : gmap string tool_Entry; li_duplicate : list string; li_schema : list string; li_policy : list string; li_accepted : list string
}.
Definition list_group (s : listing) (group : string * list Capability) : listing :=
  let '(name, capabilities) := group in
  if (1 <? length capabilities)%nat
  then mkListing (li_tools s) (li_duplicate s ++ [name]) (li_schema s) (li_policy s) (li_accepted s) else
  match capabilities with
  | [] => s
  | c :: _ =>
    if ! isObjectInputSchema (cb_InputSchemaJson c)
    then mkListing (li_tools s) (li_duplicate s) (li_schema s ++ [name]) (li_policy s) (li_accepted s) else
    match toolPolicyFromCapability c with
    | None => mkListing (li_tools s) (li_duplicate s) (li_schema s) (li_policy s ++ [name]) (li_accepted s)
    | Some policy =>
      mkListing (<[name := environmentEntryFromCapability c policy]> (li_tools s)) (li_duplicate s) (li_schema s) (li_policy s)
        (li_accepted s ++ [name])
    end
  end.
(** A map, in the order of [sortedMapKeys]. *)
Definition by_key_name {A} (m : gmap string A) : list (string * A) := sort_slice by_name (map_to_list m).
Definition sort_names (l : list string) : list string := sort_slice str_lt l.
Definition BuildEnvironmentToolCatalog (announced : option CapabilityList) :
    outcome (catalog_error * option BootstrapDiagnostics) (EnvironmentToolCatalog * BootstrapDiagnostics) :=
  list ← of_option announced (ErrMissingCapabilityList, None);
  let id := default ""%string (cl_EntityId list) in
  _ ← fail_if ((id != "") && (TrimSpace id == "")) (ErrInvalidEntityScope id, Some (refused_diagnostics (cl_Revision list) "" id));
  _ ← fail_if (id != "") (ErrUnsupportedEntityScope id, Some (refused_diagnostics (cl_Revision list) id ""));
  let g := group_capabilities (cl_Capabilities list) in
  let s := foldl list_group (mkListing ∅ [] [] [] []) (by_key_name (gr_groups g)) in
  Ok ({| ec_tools := li_tools s; ec_duplicateNames := sort_names (li_duplicate s) |},
      {| bd_AcceptedToolCount := length (li_accepted s); bd_AcceptedToolNames := sort_names (li_accepted s);
         bd_SkippedNilCapabilityCount := gr_nil g; bd_InvalidToolNames := sort_names (gr_invalid g);
         bd_SkippedInvalidSchemaNames := sort_names (li_schema s); bd_SkippedInvalidToolPolicyNames := sort_names (li_policy s);
         bd_DuplicateToolNames := sort_names (li_duplicate s); bd_UnsupportedEntityID := ""; bd_InvalidEntityID := "";
         bd_CapabilityRevision := cl_Revision list; bd_CatalogToolCount := size (li_tools s) |}).

(** ** Admission *)
Record ToolAdmissionConfig := {
  ad_MaxToolCount : Z; ad_MaxToolDescriptionTokens : Z; ad_MaxToolSchemaTokens : Z; ad_MaxTotalToolSchemaTokens : Z
}.
Definition defaultMaxToolCount : Z := 64.
Definition defaultMaxToolDescriptionTokens : Z := 2048.
Definition defaultMaxToolSchemaTokens : Z := 8192.
Definition defaultMaxTotalToolSchemaTokens : Z := 32768.
Definition admission_withDefaults (c : ToolAdmissionConfig) : ToolAdmissionConfig :=
  {| ad_MaxToolCount := positiveOrDefault (ad_MaxToolCount c) defaultMaxToolCount;
     ad_MaxToolDescriptionTokens := positiveOrDefault (ad_MaxToolDescriptionTokens c) defaultMaxToolDescriptionTokens;
     ad_MaxToolSchemaTokens := positiveOrDefault (ad_MaxToolSchemaTokens c) defaultMaxToolSchemaTokens;
     ad_MaxTotalToolSchemaTokens := positiveOrDefault (ad_MaxTotalToolSchemaTokens c) defaultMaxTotalToolSchemaTokens |}.

Definition ToolDropReasonCountExceeded : string := "tool_count_exceeded".
Definition ToolDropReasonDescriptionTooLarge : string := "tool_description_too_large".
Definition ToolDropReasonSchemaTooLarge : string := "tool_schema_too_large".
Definition ToolDropReasonTotalSchemaBudgetExceeded : string := "tool_total_schema_budget_exceeded".
Definition MaxToolAdmissionDiagnosticNames : nat := 16.
Definition MaxToolAdmissionDiagnosticNameRunes : nat := 128.
Definition diagnosticToolName (name : string) : string :=
  let l := runes name in
  if (length l <=? MaxToolAdmissionDiagnosticNameRunes)%nat then name else
  (text_of (concat (rune_text <$> take (MaxToolAdmissionDiagnosticNameRunes - 3) l)) ++ "...")%string.

(** [ToolAdmissionReport] *)
Record ToolAdmissionReport := mkAdmission {
  tar_AcceptedToolCount : nat; tar_AcceptedToolNames : list string; tar_AcceptedToolNamesTruncatedCount : nat;
  tar_DroppedToolCount : nat; tar_DroppedToolNames : list string; tar_DroppedToolNamesTruncatedCount : nat;
  tar_DroppedTools : list (string * string); tar_DroppedToolsTruncatedCount : nat; tar_DroppedReasonCounts : gmap string nat;
  tar_TotalSchemaEstimatedTokens : Z
}.
Definition no_admission : ToolAdmissionReport := mkAdmission 0 [] 0 0 [] 0 [] 0 ∅ 0.
(** Appending to a list of diagnostics, and counting what it has no room for. *)
Definition capped {A} (x : A) (p : list A * nat) : list A * nat :=
  if (length p.1 <? MaxToolAdmissionDiagnosticNames)%nat then (p.1 ++ [x], p.2) else (p.1, S p.2).
Definition addDrop (name reason : string) (r : ToolAdmissionReport) : ToolAdmissionReport :=
  let names := capped (diagnosticToolName name) (tar_DroppedToolNames r, tar_DroppedToolNamesTruncatedCount r) in
  let drops := capped (diagnosticToolName name, reason) (tar_DroppedTools r, tar_DroppedToolsTruncatedCount r) in
  mkAdmission (tar_AcceptedToolCount r) (tar_AcceptedToolNames r) (tar_AcceptedToolNamesTruncatedCount r)
    (S (tar_DroppedToolCount r)) names.1 names.2 drops.1 drops.2
    (<[reason := S (default 0 (tar_DroppedReasonCounts r !! reason))]> (tar_DroppedReasonCounts r)) (tar_TotalSchemaEstimatedTokens r).
Definition addAccepted (name : string) (r : ToolAdmissionReport) : ToolAdmissionReport :=
  let names := capped (diagnosticToolName name) (tar_AcceptedToolNames r, tar_AcceptedToolNamesTruncatedCount r) in
  mkAdmission (S (tar_AcceptedToolCount r)) names.1 names.2
    (tar_DroppedToolCount r) (tar_DroppedToolNames r) (tar_DroppedToolNamesTruncatedCount r) (tar_DroppedTools r)
    (tar_DroppedToolsTruncatedCount r) (tar_DroppedReasonCounts r) (tar_TotalSchemaEstimatedTokens r).
Definition with_total (total : Z) (r : ToolAdmissionReport) : ToolAdmissionReport :=
  mkAdmission (tar_AcceptedToolCount r) (tar_AcceptedToolNames r) (tar_AcceptedToolNamesTruncatedCount r) (tar_DroppedToolCount r)
    (tar_DroppedToolNames r) (tar_DroppedToolNamesTruncatedCount r) (tar_DroppedTools r) (tar_DroppedToolsTruncatedCount r)
    (tar_DroppedReasonCounts r) total.

Definition EstimateJSONDocument (document : string) : option Z := (fun v => EstimateText (marshal_any v)) <$> ParseJSONDocument document.
(** What is admitted so far, the tokens of its schemas, the report. *)
Record admission := mkAdmitted { am_admitted : gmap string tool_Entry; am_total : Z; am_report : ToolAdmissionReport }.
Definition drop_reason (config : ToolAdmissionConfig) (s : admission) (description schema : Z) : option string :=
  if (ad_MaxToolDescriptionTokens config <? description)%Z then Some ToolDropReasonDescriptionTooLarge
  else if (ad_MaxToolSchemaTokens config <? schema)%Z then Some ToolDropReasonSchemaTooLarge
  else if (ad_MaxToolCount config <=? Z.of_nat (size (am_admitted s)))%Z then Some ToolDropReasonCountExceeded
  else if (ad_MaxTotalToolSchemaTokens config <? am_total s + schema)%Z then Some ToolDropReasonTotalSchemaBudgetExceeded
  else None.
(** One tool of the loop; [None] is the panic on a schema that does not parse. *)
Definition admit_tool (config : ToolAdmissionConfig) (s : admission) (tool : string * tool_Entry) : option admission :=
  let '(name, entry) := tool in
  let description := EstimateText (td_Description (te_Definition entry)) in
  schema ← EstimateJSONDocument (te_InputSchema entry);
  Some match drop_reason config s description schema with
       | Some reason => mkAdmitted (am_admitted s) (am_total s) (addDrop name reason (am_report s))
       | None => mkAdmitted (<[name := entry]> (am_admitted s)) (am_total s + schema) (addAccepted name (am_report s))
       end.
Fixpoint admit_tools (config : ToolAdmissionConfig) (s : admission) (l : list (string * tool_Entry)) : option admission :=
  match l with [] => Some s | tool :: l => s ← admit_tool config s tool; admit_tools config s l end.

Record TurnToolView := { vw_tools : gmap string tool_Entry; vw_runtimeContext : option RuntimeCallContext }.
Record ToolAdmissionResult := { ar_View : TurnToolView; ar_Report : ToolAdmissionReport }.
Definition buildTurnToolView (entries : gmap string tool_Entry) (config : ToolAdmissionConfig) : option ToolAdmissionResult :=
  s ← admit_tools (admission_withDefaults config) (mkAdmitted ∅ 0 no_admission) (by_key_name entries);
  Some {| ar_View := {| vw_tools := am_admitted s; vw_runtimeContext := None |}; ar_Report := with_total (am_total s) (am_report s) |}.
Definition catalog_BuildTurnToolView (c : EnvironmentToolCatalog) (config : ToolAdmissionConfig) : option ToolAdmissionResult :=
  buildTurnToolView (ec_tools c) config.
Definition availableToolDefinitions (entries : gmap string tool_Entry) : list ToolDefinition :=
  sort_slice (fun a b => str_lt (td_Name a) (td_Name b)) (te_Definition ∘ snd <$> map_to_list entries).
Definition view_Available (v : TurnToolView) : list ToolDefinition := availableToolDefinitions (vw_tools v).
Definition view_Lookup (v : TurnToolView) (name : string) : option tool_Entry := vw_tools v !! name.

(** ** The registry *)
Inductive registry_error := DuplicateEnvironmentNames (names : list string) | DuplicateToolName (name : string) | InvalidRuntimeEntry (name : string).
Record tool_Registry := { tg_tools : gmap string tool_Entry }.
Definition invalid_runtime_entry (entry : tool_Entry) : bool :=
  let e := te_Entry entry in
  ! isValidCapabilityName (te_Name entry) || ! isObjectInputSchema (te_InputSchema entry) || (en_Kind e != KindRuntime)
  || (en_Execution e != ExecutionSync)
  || ((en_Concurrency e != ConcurrencySequential) && (en_Concurrency e != ConcurrencyParallelSafe)) || (en_Executor e == None).
Fixpoint add_entries (entries : gmap string tool_Entry) (l : list tool_Entry) : outcome registry_error (gmap string tool_Entry) :=
  match l with
  | [] => Ok entries
  | entry :: l =>
    let name := te_Name entry in
    _ ← fail_if (bool_decide (is_Some (entries !! name))) (DuplicateToolName name);
    _ ← fail_if (invalid_runtime_entry entry) (InvalidRuntimeEntry name);
    add_entries (<[name := entry]> entries) l
  end.
Definition NewRegistry (environment : option EnvironmentToolCatalog) (runtimeEntries : list tool_Entry) : outcome registry_error tool_Registry :=
  entries ← match environment with
            | Some c => _ ← fail_if (! bool_decide (ec_duplicateNames c = [])) (DuplicateEnvironmentNames (ec_duplicateNames c));
                        Ok (ec_tools c)
            | None => Ok ∅
            end;
  tools ← add_entries entries runtimeEntries;
  Ok {| tg_tools := tools |}.
(** Without a runtime context there are only the environment's tools. *)
Definition registry_BuildTurnToolView (r : tool_Registry) (config : ToolAdmissionConfig) (rc : option RuntimeCallContext) :
    option ToolAdmissionResult :=
  let entries := filter (fun p => en_Kind (te_Entry p.2) = KindEnvironment \/ is_Some rc) (tg_tools r) in
  result ← buildTurnToolView entries config;
  Some {| ar_View := {| vw_tools := vw_tools (ar_View result); vw_runtimeContext := rc |}; ar_Report := ar_Report result |}.
(** [ExecuteRuntime]: the executor and the authority it runs with, if the tool is bound. *)
Definition view_ExecuteRuntime (v : TurnToolView) (name : string) : option (executor * RuntimeCallContext) :=
  entry ← vw_tools v !! name;
  rc ← vw_runtimeContext v;
  if en_Kind (te_Entry entry) != KindRuntime then None else
  executor ← en_Executor (te_Entry entry);
  Some (executor, rc).

(** ** Maps in the order of their names *)
Section Named.
Context {A : Type}.
Implicit Types m : gmap string A.
Lemma elem_of_by_key_name m k x : (k, x) ∈ by_key_name m <-> m !! k = Some x.
Proof. unfold by_key_name. rewrite sort_slice_perm. apply elem_of_map_to_list. Qed.
Lemma by_key_name_nodup m : NoDup (by_key_name m).*1.
Proof. unfold by_key_name. rewrite sort_slice_perm. apply NoDup_fst_map_to_list. Qed.
Lemma by_key_name_sorted m : StronglySorted (fun a b => str_lt a.1 b.1 = true) (by_key_name m).
Proof.
  apply sort_slice_sorted.
  - apply (strict_total_on_key fst). apply NoDup_fst_map_to_list.
  - apply NoDup_map_to_list.
Qed.
Lemma by_key_name_length m : length (by_key_name m) = size m.
Proof. unfold by_key_name. rewrite sort_slice_perm. apply length_map_to_list. Qed.
(** A sorted list of distinct names is the order of the map it makes. *)
Lemma by_key_name_unique m l : StronglySorted (fun a b : string * A => str_lt a.1 b.1 = true) l -> (forall k x, (k, x) ∈ l <-> m !! k = Some x) ->
  by_key_name m = l.
Proof.
  intros Hs Hl. apply (StronglySorted_unique_strong (fun a b : string * A => str_lt a.1 b.1 = true)).
  - intros x y _ _ H1 H2. pose proof (str_lt_trans _ _ _ H1 H2) as H. by rewrite str_lt_irrefl in H.
  - apply by_key_name_sorted.
  - done.
  - apply NoDup_Permutation.
    + eapply NoDup_fmap_1, by_key_name_nodup.
    + clear -Hs. induction Hs as [|x l Hs IH Hx]; constructor; [|done]. intros Hin. rewrite Forall_forall in Hx. specialize (Hx _ Hin). by rewrite str_lt_irrefl in Hx.
    + intros [k x]. by rewrite elem_of_by_key_name, Hl.
Qed.
End Named.
Lemma sort_names_mem l x : x ∈ sort_names l <-> x ∈ l.
Proof. unfold sort_names. by rewrite sort_slice_perm. Qed.

(** ** The catalog's tools *)

(** The capabilities announced under a name. *)
Definition announced (name : string) (l : list (option Capability)) : list Capability := filter (fun c => cb_Name c = name) (omap id l).
Lemma group_capabilities_spec l :
  gr_nil (group_capabilities l) = length (filter (fun c => c = None) l)
  /\ gr_invalid (group_capabilities l) = filter (fun name => isValidCapabilityName name = false) (cb_Name <$> omap id l)
  /\ forall name, gr_groups (group_capabilities l) !! name =
       if bool_decide (announced name l = []) || ! isValidCapabilityName name then None else Some (announced name l).
Proof.
  unfold group_capabilities, announced. induction l as [|[c|] l (IHn & IHi & IHg)] using rev_ind; [done|..];
    rewrite foldl_app, omap_app, filter_app; cbn [foldl omap list_omap id group_capability].
  - rewrite (filter_cons_False _ (Some c)) by done. rewrite filter_nil, app_nil_r, fmap_app, filter_app.
    destruct (isValidCapabilityName (cb_Name c)) eqn:Hv; cbn [negb gr_nil gr_invalid gr_groups fmap list_fmap].
    + split; [done|]. split; [rewrite filter_cons_False, filter_nil, app_nil_r by congruence; done|]. intros name. rewrite filter_app.
      destruct (decide (cb_Name c = name)) as [<-|Hne].
      * rewrite lookup_insert, decide_True by done. rewrite IHg, Hv, orb_false_r, filter_cons_True, filter_nil by done.
        rewrite (bool_decide_eq_false_2 (_ ++ [c] = [])) by (by intros [_ ?]%app_eq_nil). case_bool_decide as He; [by rewrite He|done].
      * rewrite lookup_insert_ne by done. rewrite IHg, filter_cons_False, filter_nil, app_nil_r by done. done.
    + split; [done|]. split; [rewrite filter_cons_True, filter_nil by done; by rewrite IHi|]. intros name. rewrite filter_app, IHg.
      destruct (decide (cb_Name c = name)) as [<-|Hne].
      * by rewrite Hv, !orb_true_r.
      * by rewrite filter_cons_False, filter_nil, app_nil_r by done.
  - rewrite (filter_cons_True _ None), filter_nil, app_nil_r, length_app by done. cbn. split; [lia|]. done.
Qed.

(** What becomes of the capabilities of one name. *)
Definition duplicated (capabilities : list Capability) : bool := (1 <? length capabilities)%nat.
Definition bad_schema (capabilities : list Capability) : bool :=
  match capabilities with [c] => ! isObjectInputSchema (cb_InputSchemaJson c) | _ => false end.
Definition bad_policy (capabilities : list Capability) : bool :=
  match capabilities with [c] => isObjectInputSchema (cb_InputSchemaJson c) && (toolPolicyFromCapability c == None) | _ => false end.
Definition sound_tool (capabilities : list Capability) : option tool_Entry :=
  match capabilities with
  | [c] => if isObjectInputSchema (cb_InputSchemaJson c) then environmentEntryFromCapability c <$> toolPolicyFromCapability c else None
  | _ => None
  end.
Definition is_sound (capabilities : list Capability) : bool := match sound_tool capabilities with Some _ => true | None => false end.
Definition names_with (test : list Capability -> bool) (l : list (string * list Capability)) : list string := (List.filter (fun p => test p.2) l).*1.
Lemma list_groups_names l s : let s' := foldl list_group s l in
  li_duplicate s' = li_duplicate s ++ names_with duplicated l /\ li_schema s' = li_schema s ++ names_with bad_schema l
  /\ li_policy s' = li_policy s ++ names_with bad_policy l /\ li_accepted s' = li_accepted s ++ names_with is_sound l.
Proof.
  cbn zeta. revert s. induction l as [|[name cs] l IH]; intros s; cbn [foldl]; [by rewrite !app_nil_r|].
  destruct (IH (list_group s (name, cs))) as (-> & -> & -> & ->). unfold names_with, is_sound. destruct cs as [|c [|c' cs]]; cbn; [done| |by rewrite <- app_assoc].
  destruct (isObjectInputSchema _); cbn; [|by rewrite <- app_assoc]. destruct (toolPolicyFromCapability c); cbn; by rewrite <- app_assoc.
Qed.
Lemma find_name {A} (l : list (string * A)) name : NoDup l.*1 -> forall p, List.find (fun p => p.1 == name) l = Some p <-> p ∈ l /\ p.1 = name.
Proof.
  induction l as [|q l IH]; intros Hn p; cbn; [split; [done|by intros [?%elem_of_nil _]]|]. apply NoDup_cons in Hn as [Hq Hn]. case_bool_decide as He.
  - split; [intros [= <-]; split; [by left|done]|]. intros [Hin Hp]. apply elem_of_cons in Hin as [->|Hin]; [done|]. destruct Hq. apply list_elem_of_fmap.
    exists p. by rewrite Hp.
  - rewrite IH by done. rewrite elem_of_cons. naive_solver.
Qed.
Lemma find_fresh {A} (l : list (string * A)) name : name ∉ l.*1 -> List.find (fun p => p.1 == name) l = None.
Proof.
  intros H. induction l as [|q l IH]; cbn; [done|]. apply not_elem_of_cons in H as [Hq H]. rewrite bool_decide_eq_false_2 by done. by apply IH.
Qed.
Lemma list_groups_tools l s name : NoDup l.*1 ->
  li_tools (foldl list_group s l) !! name =
    match List.find (fun p => p.1 == name) l ≫= (fun p => sound_tool p.2) with Some e => Some e | None => li_tools s !! name end.
Proof.
  revert s. induction l as [|[k cs] l IH]; intros s Hn; [done|]. apply NoDup_cons in Hn as [Hk Hn]. cbn [foldl List.find fst snd]. rewrite IH by done.
  case_bool_decide as He; [subst name; rewrite find_fresh by done|]; cbn; unfold list_group;
    (destruct cs as [|c [|c' cs]]; cbn; [done| |done]; destruct (isObjectInputSchema _); cbn; [|done]; destruct (toolPolicyFromCapability c); cbn; [|done]).
  - by rewrite lookup_insert, decide_True by done.
  - by rewrite lookup_insert_ne by done.
Qed.
Lemma names_with_mem test (m : gmap string (list Capability)) name :
  name ∈ names_with test (by_key_name m) <-> exists cs, m !! name = Some cs /\ test cs = true.
Proof.
  unfold names_with. rewrite list_elem_of_fmap. split.
  - intros ([k cs] & -> & H). apply list_elem_of_In, filter_In in H as [H Ht]. exists cs. split; [|done]. by apply elem_of_by_key_name, list_elem_of_In.
  - intros (cs & H & Ht). exists (name, cs). split; [done|]. apply list_elem_of_In, filter_In. split; [|done]. by apply list_elem_of_In, elem_of_by_key_name.
Qed.
Lemma names_with_nodup test (m : gmap string (list Capability)) : NoDup (names_with test (by_key_name m)).
Proof.
  unfold names_with. pose proof (by_key_name_nodup m) as H. induction (by_key_name m) as [|[k cs] l IH]; cbn; [constructor|].
  apply NoDup_cons in H as [Hk H]. destruct (test cs); cbn; [|by apply IH]. constructor; [|by apply IH]. intros Hin. apply Hk. clear -Hin.
  apply list_elem_of_fmap in Hin as (p & -> & Hp). apply list_elem_of_fmap. exists p. split; [done|]. apply list_elem_of_In in Hp. apply filter_In in Hp as [Hp _].
  by apply list_elem_of_In.
Qed.
Lemma sort_names_keys {A} l (m : gmap string A) : NoDup l -> (forall x, x ∈ l <-> is_Some (m !! x)) -> sort_names l = (by_key_name m).*1.
Proof.
  intros Hn Hl. apply (StronglySorted_unique_strong (fun a b => str_lt a b = true)).
  - intros x y _ _ H1 H2. pose proof (str_lt_trans _ _ _ H1 H2) as H. by rewrite str_lt_irrefl in H.
  - apply sort_slice_sorted; [|done]. apply (strict_total_on_key id). by rewrite list_fmap_id.
  - pose proof (by_key_name_sorted m) as H. induction H as [|x l' _ IH Hx]; cbn; constructor; [done|]. apply Forall_fmap. eapply Forall_impl; [exact Hx|]. done.
  - apply NoDup_Permutation; [unfold sort_names; by rewrite sort_slice_perm|apply by_key_name_nodup|]. intros x. rewrite sort_names_mem, Hl, list_elem_of_fmap. split.
    + intros [a Ha]. exists (x, a). split; [done|]. by apply elem_of_by_key_name.
    + intros ([k a] & -> & Ha). exists a. by apply elem_of_by_key_name.
Qed.
Lemma group_of l name cs : gr_groups (group_capabilities l) !! name = Some cs <->
  isValidCapabilityName name = true /\ cs = announced name l /\ cs <> [].
Proof.
  destruct (group_capabilities_spec l) as (_ & _ & ->). case_bool_decide as He; cbn; [split; [done|]; intros (_ & -> & H); done|].
  destruct (isValidCapabilityName name); cbn; split; try done; [intros [= <-]; done|intros (_ & -> & _); done|intros (? & _); done].
Qed.
Lemma sound_tool_spec cs e : sound_tool cs = Some e <-> exists c policy, cs = [c] /\ isObjectInputSchema (cb_InputSchemaJson c) = true
  /\ toolPolicyFromCapability c = Some policy /\ e = environmentEntryFromCapability c policy.
Proof.
  unfold sound_tool. split.
  - destruct cs as [|c [|]]; [done| |done]. destruct (isObjectInputSchema _) eqn:?; [|done]. destruct (toolPolicyFromCapability c) eqn:?; [|done]. intros [= <-]. eauto 6.
  - intros (c & policy & -> & -> & -> & ->). done.
Qed.

(** The loop over the names of a list. *)
Definition listing_of (l : list (option Capability)) : listing := foldl list_group (mkListing ∅ [] [] [] []) (by_key_name (gr_groups (group_capabilities l))).
Lemma listed_groups l name e : li_tools (listing_of l) !! name = Some e
  <-> exists cs, gr_groups (group_capabilities l) !! name = Some cs /\ sound_tool cs = Some e.
Proof.
  unfold listing_of. rewrite list_groups_tools by apply by_key_name_nodup. set (g := group_capabilities l).
  destruct (List.find _ _) as [[k cs]|] eqn:Ef.
  - apply find_name in Ef as [Hin Hk]; [|apply by_key_name_nodup]. cbn in Hk. subst k. apply elem_of_by_key_name in Hin. cbn. rewrite Hin.
    destruct (sound_tool cs) eqn:Es; [naive_solver|]. cbn. rewrite lookup_empty. naive_solver.
  - cbn. rewrite lookup_empty. split; [done|]. intros (cs & Hin & _). apply elem_of_by_key_name in Hin.
    assert (List.find (fun p => p.1 == name) (by_key_name (gr_groups g)) = Some (name, cs)) by (by apply find_name; [apply by_key_name_nodup|]). congruence.
Qed.
Lemma listed_tools l name e : li_tools (listing_of l) !! name = Some e <-> isValidCapabilityName name = true /\ exists cap policy,
  announced name l = [cap] /\ isObjectInputSchema (cb_InputSchemaJson cap) = true /\ toolPolicyFromCapability cap = Some policy
  /\ e = environmentEntryFromCapability cap policy.
Proof. rewrite listed_groups. setoid_rewrite sound_tool_spec. setoid_rewrite group_of. naive_solver. Qed.
Lemma listed_accepted l : sort_names (li_accepted (listing_of l)) = (by_key_name (li_tools (listing_of l))).*1
  /\ length (li_accepted (listing_of l)) = size (li_tools (listing_of l)).
Proof.
  destruct (list_groups_names (by_key_name (gr_groups (group_capabilities l))) (mkListing ∅ [] [] [] [])) as (_ & _ & _ & Ha). fold (listing_of l) in Ha. cbn in Ha.
  assert (sort_names (li_accepted (listing_of l)) = (by_key_name (li_tools (listing_of l))).*1) as Hs.
  { apply sort_names_keys; [rewrite Ha; apply names_with_nodup|]. intros name. rewrite Ha, names_with_mem. unfold is_Some, is_sound. setoid_rewrite listed_groups. split.
    - intros (cs & Hcs & H). destruct (sound_tool cs) eqn:E; [eauto|done].
    - intros (e & cs & Hcs & H). exists cs. by rewrite H. }
  split; [done|]. rewrite <- by_key_name_length, <- (length_fmap fst), <- Hs. unfold sort_names. by rewrite sort_slice_perm.
Qed.
Lemma listed_names l name :
  (name ∈ li_duplicate (listing_of l) <-> isValidCapabilityName name = true /\ 2 <= length (announced name l))
  /\ (name ∈ li_schema (listing_of l) <-> isValidCapabilityName name = true /\ exists cap, announced name l = [cap]
        /\ isObjectInputSchema (cb_InputSchemaJson cap) = false)
  /\ (name ∈ li_policy (listing_of l) <-> isValidCapabilityName name = true /\ exists cap, announced name l = [cap]
        /\ isObjectInputSchema (cb_InputSchemaJson cap) = true /\ toolPolicyFromCapability cap = None).
Proof.
  destruct (list_groups_names (by_key_name (gr_groups (group_capabilities l))) (mkListing ∅ [] [] [] [])) as (Hd & Hs & Hp & _).
  fold (listing_of l) in Hd, Hs, Hp. cbn in Hd, Hs, Hp. rewrite Hd, Hs, Hp, !names_with_mem. setoid_rewrite group_of.
  unfold duplicated, bad_schema, bad_policy. split_and!; split.
  - intros (cs & (Hv & -> & _) & H%Nat.ltb_lt). split; [done|lia].
  - intros [Hv Hl]. eexists; split_and!; [done|done|by intros Hnone; rewrite Hnone in Hl; cbn in Hl; lia|]. apply Nat.ltb_lt. exact Hl.
  - intros (cs & (Hv & -> & _) & H). split; [done|]. destruct (announced _ _) as [|c [|]]; try done. exists c. split; [done|]. by apply negb_true_iff.
  - intros (Hv & c & Hc & Ho). exists [c]. rewrite Hc, Ho. by split_and!.
  - intros (cs & (Hv & -> & _) & H). split; [done|]. destruct (announced _ _) as [|c [|]]; try done. boolp. eauto.
  - intros (Hv & c & Hc & Ho & Hpol). exists [c]. rewrite Hc, Ho, Hpol. by split_and!.
Qed.

(** The catalog lists what is announced soundly.  A list for a particular entity is
    refused.  Otherwise a tool is listed exactly when its name is trimmed and not empty,
    announced once, its schema is one of an object and its policy can be read; every
    other capability is in the diagnostics, under the reason it was left out. *)
Theorem catalog_lists_sound_tools l :
  match BuildEnvironmentToolCatalog (Some l) with
  | Err _ => default ""%string (cl_EntityId l) <> ""%string
  | Ok (c, d) =>
    let named name := announced name (cl_Capabilities l) in
    default ""%string (cl_EntityId l) = ""%string
    /\ (forall name e, ec_tools c !! name = Some e <-> isValidCapabilityName name = true /\ exists cap policy, named name = [cap]
          /\ isObjectInputSchema (cb_InputSchemaJson cap) = true /\ toolPolicyFromCapability cap = Some policy
          /\ e = environmentEntryFromCapability cap policy)
    /\ (forall name, name ∈ ec_duplicateNames c <-> isValidCapabilityName name = true /\ 2 <= length (named name))
    /\ (forall name, name ∈ bd_SkippedInvalidSchemaNames d <-> isValidCapabilityName name = true /\ exists cap, named name = [cap]
          /\ isObjectInputSchema (cb_InputSchemaJson cap) = false)
    /\ (forall name, name ∈ bd_SkippedInvalidToolPolicyNames d <-> isValidCapabilityName name = true /\ exists cap, named name = [cap]
          /\ isObjectInputSchema (cb_InputSchemaJson cap) = true /\ toolPolicyFromCapability cap = None)
    /\ bd_InvalidToolNames d ≡ₚ filter (fun name => isValidCapabilityName name = false) (cb_Name <$> omap id (cl_Capabilities l))
    /\ bd_SkippedNilCapabilityCount d = length (filter (fun c => c = None) (cl_Capabilities l))
    /\ bd_AcceptedToolNames d = (by_key_name (ec_tools c)).*1 /\ bd_AcceptedToolCount d = size (ec_tools c)
    /\ bd_CatalogToolCount d = size (ec_tools c) /\ bd_DuplicateToolNames d = ec_duplicateNames c
    /\ bd_CapabilityRevision d = cl_Revision l
  end.
Proof.
  unfold BuildEnvironmentToolCatalog. cbn [of_option mbind outcome_bind]. set (id := default _ _).
  destruct ((id != "") && (TrimSpace id == "")) eqn:E1; cbn [fail_if]; [boolp; cbn; tauto|].
  destruct (id != "") eqn:E2; cbn [fail_if]; [by boolp|]. cbn [mbind outcome_bind]. fold (listing_of (cl_Capabilities l)).
  destruct (group_capabilities_spec (cl_Capabilities l)) as (Hnil & Hinv & _). destruct (listed_accepted (cl_Capabilities l)) as [Ha Hc]. cbn.
  split; [by apply negb_false_iff, bool_decide_eq_true in E2|]. split_and!; try done.
  - apply listed_tools.
  - intros name. rewrite sort_names_mem. apply listed_names.
  - intros name. rewrite sort_names_mem. apply listed_names.
  - intros name. rewrite sort_names_mem. apply listed_names.
  - unfold sort_names. rewrite sort_slice_perm. by rewrite Hinv.
Qed.

(** ** Admission in the order of names *)
Definition description_tokens (e : tool_Entry) : Z := EstimateText (td_Description (te_Definition e)).
Definition schema_tokens (e : tool_Entry) : Z := default 0%Z (EstimateJSONDocument (te_InputSchema e)).
Definition schemas_total (m : gmap string tool_Entry) : Z := map_fold (fun _ e total => (schema_tokens e + total)%Z) 0%Z m.
(** What is admitted under smaller names. *)
Definition earlier (name : string) (m : gmap string tool_Entry) : gmap string tool_Entry := filter (fun p => str_lt p.1 name = true) m.
(** The tool fits beside those. *)
Definition admissible (limits : ToolAdmissionConfig) (beside : gmap string tool_Entry) (e : tool_Entry) : bool :=
  (description_tokens e <=? ad_MaxToolDescriptionTokens limits)%Z && (schema_tokens e <=? ad_MaxToolSchemaTokens limits)%Z
  && (Z.of_nat (size beside) <? ad_MaxToolCount limits)%Z
  && (schemas_total beside + schema_tokens e <=? ad_MaxTotalToolSchemaTokens limits)%Z.
Definition reason_for (limits : ToolAdmissionConfig) (beside : gmap string tool_Entry) (e : tool_Entry) : option string :=
  drop_reason limits (mkAdmitted beside (schemas_total beside) no_admission) (description_tokens e) (schema_tokens e).
Lemma reason_for_none limits beside e : reason_for limits beside e = None <-> admissible limits beside e = true.
Proof.
  unfold reason_for, admissible, drop_reason. cbn. rewrite !andb_true_iff, !Z.leb_le, Z.ltb_lt.
  repeat match goal with |- context [if ?b then _ else _] => destruct b eqn:? end; split; try done; lia.
Qed.
Lemma schemas_insert name e m : m !! name = None -> schemas_total (<[name := e]> m) = (schema_tokens e + schemas_total m)%Z.
Proof. intros H. unfold schemas_total. rewrite map_fold_insert_L; [done| |done]. intros. lia. Qed.
Definition schema_parses (e : tool_Entry) : Prop := is_Some (EstimateJSONDocument (te_InputSchema e)).
Lemma object_schema_parses e : isObjectInputSchema (te_InputSchema e) = true -> schema_parses e.
Proof. unfold isObjectInputSchema, schema_parses, EstimateJSONDocument. destruct (ParseJSONDocument _); [by eexists|done]. Qed.

(** The report of accepted names and drops. *)
Definition tally (l : list string) : gmap string nat := foldl (fun m reason => <[reason := S (default 0 (m !! reason))]> m) ∅ l.
Definition shown_of {A} (l : list A) : list A := take MaxToolAdmissionDiagnosticNames l.
Definition hidden_of {A} (l : list A) : nat := length l - MaxToolAdmissionDiagnosticNames.
Definition report_of (accepted : list string) (drops : list (string * string)) (total : Z) : ToolAdmissionReport :=
  mkAdmission (length accepted) (shown_of (diagnosticToolName <$> accepted)) (hidden_of accepted) (length drops)
    (shown_of (diagnosticToolName <$> drops.*1)) (hidden_of drops) (shown_of ((fun p => (diagnosticToolName p.1, p.2)) <$> drops)) (hidden_of drops)
    (tally drops.*2) total.
Lemma capped_shown {A} (x : A) l n : n = hidden_of l -> capped x (shown_of l, n) = (shown_of (l ++ [x]), hidden_of (l ++ [x])).
Proof.
  intros ->. unfold capped, shown_of, hidden_of. cbn [fst snd]. rewrite length_take, length_app, take_app. cbn [length].
  destruct (Nat.ltb_spec (Nat.min MaxToolAdmissionDiagnosticNames (length l)) MaxToolAdmissionDiagnosticNames) as [H|H]; f_equal; try lia.
  - f_equal. rewrite firstn_all2; [done|]. cbn [length]. lia.
  - replace (MaxToolAdmissionDiagnosticNames - length l) with 0 by lia. by rewrite app_nil_r.
Qed.
#[local] Arguments shown_of : simpl never.
#[local] Arguments hidden_of : simpl never.
#[local] Arguments capped : simpl never.
Lemma hidden_fmap {A B} (f : A -> B) l : hidden_of (f <$> l) = hidden_of l.
Proof. unfold hidden_of. by rewrite length_fmap. Qed.
Lemma addAccepted_report name a d t : addAccepted name (report_of a d t) = report_of (a ++ [name]) d t.
Proof.
  unfold addAccepted. cbn -[shown_of]. rewrite capped_shown by (by rewrite hidden_fmap). cbn. unfold report_of. rewrite fmap_app, length_app.
  rewrite <- (hidden_fmap diagnosticToolName (a ++ [name])), fmap_app. f_equal. cbn. lia.
Qed.
Lemma addDrop_report name reason a d t : addDrop name reason (report_of a d t) = report_of a (d ++ [(name, reason)]) t.
Proof.
  unfold addDrop. cbn -[shown_of]. rewrite !capped_shown by (by rewrite !hidden_fmap). cbn. unfold report_of, tally.
  rewrite !fmap_app, length_app, foldl_app. cbn. unfold hidden_of. rewrite !length_app, !length_fmap. f_equal. cbn. lia.
Qed.
Lemma tally_spec l reason : default 0 (tally l !! reason) = length (filter (fun r => r = reason) l).
Proof.
  unfold tally. induction l as [|r l IH] using rev_ind; [done|]. rewrite foldl_app, filter_app, length_app. cbn [foldl].
  destruct (decide (r = reason)) as [->|Hne].
  - rewrite lookup_insert, decide_True by done. rewrite filter_cons_True by done. cbn. lia.
  - rewrite lookup_insert_ne by done. rewrite filter_cons_False by done. cbn. lia.
Qed.

(** The tools of a list that are admitted beside [final], and the drops. *)
Definition accepted_in (limits : ToolAdmissionConfig) (final : gmap string tool_Entry) (l : list (string * tool_Entry)) : list string :=
  omap (fun p => match reason_for limits (earlier p.1 final) p.2 with None => Some p.1 | Some _ => None end) l.
Definition dropped_in (limits : ToolAdmissionConfig) (final : gmap string tool_Entry) (l : list (string * tool_Entry)) : list (string * string) :=
  omap (fun p => pair p.1 <$> reason_for limits (earlier p.1 final) p.2) l.
Lemma earlier_last (l : list (string * tool_Entry)) (m final : gmap string tool_Entry) name :
  (forall k, is_Some (m !! k) -> str_lt k name = true) ->
  (forall k e, final !! k = Some e -> m !! k = Some e \/ ~ str_lt k name = true) -> m ⊆ final -> earlier name final = m.
Proof.
  intros Hm Hf Hsub. apply map_eq. intros k. apply option_eq. intros e. unfold earlier. rewrite map_lookup_filter_Some. cbn. split.
  - intros [Hk Hlt]. by destruct (Hf k e Hk).
  - intros Hk. split; [by eapply lookup_weaken|]. apply Hm. by eexists.
Qed.
(** The loop: [final] extends what was there by the tools of the list that are
    admissible beside the earlier ones in [final]. *)
Lemma admit_tools_spec limits l s a d : StronglySorted (fun p q => str_lt p.1 q.1 = true) l ->
  (forall k p, is_Some (am_admitted s !! k) -> p ∈ l -> str_lt k p.1 = true) -> Forall (fun p => schema_parses p.2) l ->
  am_total s = schemas_total (am_admitted s) -> am_report s = report_of a d 0 ->
  exists s', admit_tools limits s l = Some s' /\ let final := am_admitted s' in
    am_total s' = schemas_total final /\ am_admitted s ⊆ final
    /\ (forall k e, final !! k = Some e <-> am_admitted s !! k = Some e \/ (k, e) ∈ l /\ admissible limits (earlier k final) e = true)
    /\ am_report s' = report_of (a ++ accepted_in limits final l) (d ++ dropped_in limits final l) 0.
Proof.
  intros Hs. revert s a d. induction Hs as [|[name e] l Hs IH Hhead]; intros s a d Hbefore Hparse Htotal Hrep; cbn [admit_tools].
  { exists s. unfold accepted_in, dropped_in. cbn. rewrite !app_nil_r. split_and!; try done. intros k e. split; [by left|]. intros [?|[?%elem_of_nil _]]; done. }
  apply Forall_cons in Hparse as [[tokens Hp] Hparse]. cbn in Hp. unfold admit_tool. rewrite Hp. cbn [mbind option_bind].
  assert (schema_tokens e = tokens) as Htok by (unfold schema_tokens; by rewrite Hp).
  assert (drop_reason limits s (EstimateText (td_Description (te_Definition e))) tokens = reason_for limits (am_admitted s) e) as ->.
  { unfold reason_for. rewrite Htok. unfold drop_reason. cbn. by rewrite Htotal. }
  assert (forall k, is_Some (am_admitted s !! k) -> str_lt k name = true) as Hlast by (intros k Hk; apply (Hbefore k (name, e)); [done|by left]).
  assert (am_admitted s !! name = None) as Hfresh.
  { apply eq_None_not_Some. intros H. apply Hlast in H. by rewrite str_lt_irrefl in H. }
  rewrite Forall_forall in Hhead.
  set (s1 := match reason_for _ _ _ with Some _ => _ | None => _ end).
  assert (exists a1 d1, am_report s1 = report_of a1 d1 0 /\ a1 = a ++ (if reason_for limits (am_admitted s) e then [] else [name])
    /\ d1 = d ++ match reason_for limits (am_admitted s) e with Some r => [(name, r)] | None => [] end) as (a1 & d1 & Hr1 & -> & ->).
  { subst s1. destruct (reason_for _ _ _); cbn; rewrite Hrep, ?addAccepted_report, ?addDrop_report; do 2 eexists; by rewrite ?app_nil_r. }
  assert (am_total s1 = schemas_total (am_admitted s1)) as Ht1.
  { subst s1. destruct (reason_for _ _ _); cbn; [done|]. rewrite schemas_insert, Htok, Htotal by done. lia. }
  assert (am_admitted s1 = if reason_for limits (am_admitted s) e then am_admitted s else <[name := e]> (am_admitted s)) as Ha1
    by (subst s1; by destruct (reason_for _ _ _)).
  destruct (IH s1 _ _ ltac:(
    intros k p Hk Hin; rewrite Ha1 in Hk; destruct (reason_for _ _ _); [apply Hbefore; [done|by right]|];
    apply lookup_insert_is_Some in Hk as [<-|[_ Hk]]; [by apply Hhead|apply Hbefore; [done|by right]]) Hparse Ht1 Hr1)
    as (s' & Hrun & Ht' & Hsub & Hin' & Hrep').
  exists s'. split; [done|]. cbn zeta.
  assert (am_admitted s ⊆ am_admitted s1) as Hsub1 by (rewrite Ha1; destruct (reason_for _ _ _); [done|by apply insert_subseteq]).
  assert (earlier name (am_admitted s') = am_admitted s) as Hear.
  { apply earlier_last; [exact l|done| |by etrans]. intros k e' Hk. apply Hin' in Hk as [Hk|[Hk _]].
    - rewrite Ha1 in Hk. destruct (reason_for _ _ _); [by left|]. apply lookup_insert_Some in Hk as [[<- _]|[_ Hk]]; [right; by rewrite str_lt_irrefl|by left].
    - right. intros Hlt. apply Hhead in Hk. cbn in Hk. pose proof (str_lt_trans _ _ _ Hlt Hk) as H. by rewrite str_lt_irrefl in H. }
  split_and!; [done|by etrans| |].
  - intros k e'. rewrite Hin', elem_of_cons, Ha1. destruct (reason_for limits (am_admitted s) e) eqn:Er.
    + split; [naive_solver|]. intros [?|[[[= -> ->]|?] Hadm]]; [by left| |by right]. rewrite Hear in Hadm. apply reason_for_none in Hadm. congruence.
    + rewrite lookup_insert_Some. apply reason_for_none in Er. split; [|naive_solver].
      intros [[[-> ->]|[? ?]]|?]; [right; split; [by left|by rewrite Hear]|by left|naive_solver].
  - rewrite Hrep', <- !app_assoc. unfold accepted_in, dropped_in. cbn. rewrite Hear. by destruct (reason_for _ _ _).
Qed.

(** ** The registry's tools *)

(** Tools under their own name, a trimmed one, with the schema of an object. *)
Definition sound_tools (m : gmap string tool_Entry) : Prop := forall name e, m !! name = Some e ->
  te_Name e = name /\ isValidCapabilityName name = true /\ isObjectInputSchema (te_InputSchema e) = true.
Lemma catalog_sound l c d : BuildEnvironmentToolCatalog (Some l) = Ok (c, d) ->
  sound_tools (ec_tools c) /\ forall name e, ec_tools c !! name = Some e -> en_Kind (te_Entry e) = KindEnvironment.
Proof.
  unfold BuildEnvironmentToolCatalog. cbn [of_option mbind outcome_bind]. intros H. okinv H. cbn. fold (listing_of (cl_Capabilities l)).
  split; intros name e He; apply listed_tools in He as (Hv & cap & policy & Hc & Ho & _ & ->); [|done]. split_and!; [|done..].
  assert (cap ∈ announced name (cl_Capabilities l)) as Hin by (rewrite Hc; by left). by apply list_elem_of_filter in Hin as [Hn _].
Qed.
(** What the runtime adds: under names of their own, in their order. *)
Lemma add_entries_spec l m : match add_entries m l with
  | Ok m' => (forall e, e ∈ l -> m !! te_Name e = None /\ invalid_runtime_entry e = false) /\ NoDup (te_Name <$> l)
      /\ forall name e, m' !! name = Some e <-> m !! name = Some e \/ e ∈ l /\ te_Name e = name
  | Err err => exists e, e ∈ l /\ (err = DuplicateToolName (te_Name e) \/ err = InvalidRuntimeEntry (te_Name e) /\ invalid_runtime_entry e = true)
  end.
Proof.
  revert m. induction l as [|e l IH]; intros m; cbn [add_entries].
  { split_and!; [by intros ? ?%elem_of_nil|constructor|]. intros name e. rewrite elem_of_nil. naive_solver. }
  case_bool_decide as Hx; cbn; [exists e; split; [by left|by left]|]. destruct (invalid_runtime_entry e) eqn:Hi; cbn; [exists e; split; [by left|by right]|].
  apply eq_None_not_Some in Hx. specialize (IH (<[te_Name e := e]> m)). destruct (add_entries _ l) as [m'|err].
  - destruct IH as (Hl & Hn & Hm). split_and!.
    + intros e' [->|Hin]%elem_of_cons; [done|]. apply Hl in Hin as [H ?]. by apply lookup_insert_None in H as [? _].
    + cbn. constructor; [|done]. intros (e' & He & Hin)%list_elem_of_fmap. apply Hl in Hin as [H _]. rewrite He in H. by apply lookup_insert_None in H as [_ ?].
    + intros name e'. rewrite Hm, elem_of_cons, lookup_insert_Some. split; [naive_solver|]. intros [H|[[->|H] <-]]; [|by left; left|by right].
      left. right. split; [|done]. intros <-. congruence.
  - destruct IH as (e' & Hin & H). exists e'. split; [by right|done].
Qed.
Lemma runtime_entry_valid e : invalid_runtime_entry e = false ->
  isValidCapabilityName (te_Name e) = true /\ isObjectInputSchema (te_InputSchema e) = true /\ en_Kind (te_Entry e) = KindRuntime
  /\ en_Execution (te_Entry e) = ExecutionSync /\ en_Executor (te_Entry e) <> None.
Proof.
  unfold invalid_runtime_entry. rewrite !orb_false_iff, !negb_false_iff, !bool_decide_eq_true. intros [[[[[? ?] ?] ?] _] Hx]. split_and!; try done.
  by apply bool_decide_eq_false in Hx.
Qed.
Lemma registry_tools c es r : NewRegistry (Some c) es = Ok r -> ec_duplicateNames c = []
  /\ (forall e, e ∈ es -> ec_tools c !! te_Name e = None /\ invalid_runtime_entry e = false) /\ NoDup (te_Name <$> es)
  /\ forall name e, tg_tools r !! name = Some e <-> ec_tools c !! name = Some e \/ e ∈ es /\ te_Name e = name.
Proof.
  unfold NewRegistry. case_bool_decide as Hd; cbn; [|done]. pose proof (add_entries_spec es (ec_tools c)) as H.
  destruct (add_entries _ _) as [m|]; cbn; [|done]. intros [= <-]. done.
Qed.
Lemma registry_sound c es r : NewRegistry (Some c) es = Ok r -> sound_tools (ec_tools c) -> sound_tools (tg_tools r).
Proof.
  intros H Hc name e He. apply registry_tools in H as (_ & Hes & _ & Hr). apply Hr in He as [He|[Hin <-]]; [by apply Hc|].
  apply Hes in Hin as [_ Hv]. by destruct (runtime_entry_valid e Hv) as (? & ? & _).
Qed.

(** ** What a turn is offered *)
Lemma str_sorted_unique l l' : StronglySorted (fun a b => str_lt a b = true) l -> StronglySorted (fun a b => str_lt a b = true) l' ->
  (forall x, x ∈ l <-> x ∈ l') -> l = l'.
Proof.
  assert (forall l, StronglySorted (fun a b => str_lt a b = true) l -> NoDup l) as Hnd.
  { intros l0. induction 1 as [|x l0 _ IH Hx]; constructor; [|done]. intros Hin. rewrite Forall_forall in Hx. apply Hx in Hin. by rewrite str_lt_irrefl in Hin. }
  intros Hs Hs' Hm. apply (StronglySorted_unique_strong (fun a b => str_lt a b = true)); [|done..|].
  - intros x y _ _ H1 H2. pose proof (str_lt_trans _ _ _ H1 H2) as H. by rewrite str_lt_irrefl in H.
  - apply NoDup_Permutation; auto.
Qed.
Lemma omap_sorted {A B} (f : string * A -> option B) (key : B -> string) l : (forall p b, f p = Some b -> key b = p.1) ->
  StronglySorted (fun p q => str_lt p.1 q.1 = true) l -> StronglySorted (fun a b => str_lt a b = true) (key <$> omap f l).
Proof.
  intros Hf. induction 1 as [|p l _ IH Hp]; cbn; [constructor|]. destruct (f p) as [b|] eqn:E; [|done]. cbn. constructor; [done|].
  rewrite Forall_forall in Hp. apply Forall_forall. intros k (b' & -> & (q & Hq & Hb)%list_elem_of_omap)%list_elem_of_fmap. rewrite (Hf _ _ E), (Hf _ _ Hb). by apply Hp.
Qed.
Lemma by_key_name_keys {A} (m : gmap string A) : StronglySorted (fun a b => str_lt a b = true) (by_key_name m).*1.
Proof.
  pose proof (by_key_name_sorted m) as H. induction H as [|p l _ IH Hp]; cbn; constructor; [done|]. apply Forall_fmap. eapply Forall_impl; [exact Hp|done].
Qed.
Lemma accepted_are_shown limits (final entries : gmap string tool_Entry) :
  (forall k e, final !! k = Some e <-> entries !! k = Some e /\ admissible limits (earlier k final) e = true) ->
  accepted_in limits final (by_key_name entries) = (by_key_name final).*1.
Proof.
  intros Hf. unfold accepted_in. set (f := fun p => _). rewrite <- (list_fmap_id (omap f _)).
  assert (forall p b, f p = Some b -> b = p.1) as Hfst by (intros p b; subst f; cbn; destruct (reason_for _ _ _); [done|by intros [= <-]]).
  apply str_sorted_unique; [apply omap_sorted; [done|apply by_key_name_sorted]|apply by_key_name_keys|].
  intros name. rewrite list_fmap_id, list_elem_of_omap, list_elem_of_fmap. split.
  - intros ([k e] & Hin & Hb). pose proof (Hfst _ _ Hb) as ->. exists (k, e). split; [done|]. apply elem_of_by_key_name, Hf. split; [by apply elem_of_by_key_name|].
    subst f. cbn in Hb. apply reason_for_none. by destruct (reason_for _ _ _).
  - intros ([k e] & -> & Hin). apply elem_of_by_key_name, Hf in Hin as [Hin Ha]. exists (k, e). split; [by apply elem_of_by_key_name|].
    subst f. cbn. apply reason_for_none in Ha. by rewrite Ha.
Qed.
Lemma dropped_elem limits final entries name reason : (name, reason) ∈ dropped_in limits final (by_key_name entries) <->
  exists e, entries !! name = Some e /\ reason_for limits (earlier name final) e = Some reason.
Proof.
  unfold dropped_in. rewrite list_elem_of_omap. setoid_rewrite <- elem_of_by_key_name. split.
  - intros ([k e] & Hin & H). cbn in H. apply fmap_Some in H as (r & Hr & [= <- <-]). by exists e.
  - intros (e & Hin & H). exists (name, e). cbn. by rewrite H.
Qed.
Lemma dropped_sorted limits final entries : StronglySorted (fun a b => str_lt a b = true) (dropped_in limits final (by_key_name entries)).*1.
Proof.
  apply omap_sorted; [|apply by_key_name_sorted]. intros p b H. by apply fmap_Some in H as (r & _ & ->).
Qed.
Lemma accepted_and_dropped limits final l : length (accepted_in limits final l) + length (dropped_in limits final l) = length l.
Proof. unfold accepted_in, dropped_in. induction l as [|p l IH]; cbn; [done|]. destruct (reason_for _ _ _); cbn; lia. Qed.
(** The loop keeps to the limits. *)
Lemma admit_tools_within limits l s s' : admit_tools limits s l = Some s' ->
  (Z.of_nat (size (am_admitted s)) <= ad_MaxToolCount limits)%Z -> (am_total s <= ad_MaxTotalToolSchemaTokens limits)%Z ->
  (Z.of_nat (size (am_admitted s')) <= ad_MaxToolCount limits)%Z /\ (am_total s' <= ad_MaxTotalToolSchemaTokens limits)%Z.
Proof.
  revert s. induction l as [|[name e] l IH]; intros s H Hc Ht; cbn in H; [by simplify_eq|]. apply bind_Some in H as (s1 & H1 & H). apply (IH s1); [done| |];
    unfold admit_tool in H1; apply bind_Some in H1 as (tokens & _ & [= <-]); destruct (drop_reason _ _ _ _) eqn:E; cbn; try done;
    unfold drop_reason in E; repeat case_match; try done.
  - rewrite map_size_insert. destruct (am_admitted s !! name); cbn; lia.
  - lia.
Qed.
Lemma withDefaults_positive c : (0 < ad_MaxToolCount (admission_withDefaults c))%Z /\ (0 < ad_MaxTotalToolSchemaTokens (admission_withDefaults c))%Z.
Proof. unfold admission_withDefaults, positiveOrDefault. cbn. split; case_match; unfold defaultMaxToolCount, defaultMaxTotalToolSchemaTokens; lia. Qed.
(** [buildTurnToolView] of tools with schemas: the view, and the report with what was
    dropped. *)
Lemma buildTurnToolView_spec entries config : sound_tools entries ->
  let limits := admission_withDefaults config in
  exists view, buildTurnToolView entries config = Some {| ar_View := {| vw_tools := view; vw_runtimeContext := None |};
      ar_Report := report_of (by_key_name view).*1 (dropped_in limits view (by_key_name entries)) (schemas_total view) |}
    /\ (forall name e, view !! name = Some e <-> entries !! name = Some e /\ admissible limits (earlier name view) e = true)
    /\ (Z.of_nat (size view) <= ad_MaxToolCount limits)%Z /\ (schemas_total view <= ad_MaxTotalToolSchemaTokens limits)%Z.
Proof.
  intros Hs limits. unfold buildTurnToolView. fold limits.
  destruct (admit_tools_spec limits (by_key_name entries) (mkAdmitted ∅ 0 no_admission) [] []) as (s & Hrun & Ht & _ & Hin & Hrep); [|..|done|done|].
  - apply by_key_name_sorted.
  - cbn. intros k p. rewrite lookup_empty. by intros [? ?].
  - apply Forall_forall. intros [k e] Hin%elem_of_by_key_name. apply object_schema_parses. by apply Hs in Hin as (_ & _ & ?).
  - destruct (withDefaults_positive config) as [Hcount Htotal]. fold limits in Hcount, Htotal.
    destruct (admit_tools_within limits _ _ _ Hrun) as [Hsize Hsum]; [cbn [am_admitted]; rewrite map_size_empty; lia|cbn [am_total]; lia|].
    assert (forall name e, am_admitted s !! name = Some e <-> entries !! name = Some e /\ admissible limits (earlier name (am_admitted s)) e = true) as Hv.
    { intros name e. rewrite Hin. cbn. rewrite lookup_empty, elem_of_by_key_name. split; [by intros [?|?]|by right]. }
    exists (am_admitted s). rewrite Hrun. cbn. rewrite Hrep, Ht. cbn [app]. rewrite accepted_are_shown by done. split_and!; [done|done|..].
    + done.
    + by rewrite <- Ht.
Qed.
(** The tools a registry offers with a runtime context and without. *)
Definition offered (r : tool_Registry) (rc : option RuntimeCallContext) : gmap string tool_Entry :=
  filter (fun p => en_Kind (te_Entry p.2) = KindEnvironment \/ is_Some rc) (tg_tools r).
Lemma registry_view_spec c es r config rc : sound_tools (ec_tools c) -> NewRegistry (Some c) es = Ok r ->
  let limits := admission_withDefaults config in
  exists view, registry_BuildTurnToolView r config rc = Some {| ar_View := {| vw_tools := view; vw_runtimeContext := rc |};
      ar_Report := report_of (by_key_name view).*1 (dropped_in limits view (by_key_name (offered r rc))) (schemas_total view) |}
    /\ (forall name e, view !! name = Some e <-> offered r rc !! name = Some e /\ admissible limits (earlier name view) e = true)
    /\ (Z.of_nat (size view) <= ad_MaxToolCount limits)%Z /\ (schemas_total view <= ad_MaxTotalToolSchemaTokens limits)%Z.
Proof.
  intros Hc Hr limits. destruct (buildTurnToolView_spec (offered r rc) config) as (view & Hrun & Hv).
  { intros name e He. apply map_lookup_filter_Some in He as [He _]. by apply (registry_sound _ _ _ Hr). }
  exists view. split; [|done]. unfold registry_BuildTurnToolView. fold (offered r rc). by rewrite Hrun.
Qed.
Lemma offered_spec l c d es r rc name e : BuildEnvironmentToolCatalog (Some l) = Ok (c, d) -> NewRegistry (Some c) es = Ok r ->
  offered r rc !! name = Some e <-> ec_tools c !! name = Some e \/ (e ∈ es /\ te_Name e = name) /\ is_Some rc.
Proof.
  intros Hc Hr. destruct (catalog_sound _ _ _ Hc) as [_ Hk]. apply registry_tools in Hr as (_ & Hes & _ & Hr). unfold offered.
  rewrite map_lookup_filter_Some, Hr. cbn. split.
  - intros [[H|[H <-]] [Hkind|Hrc]]; [by left..| |by right]. exfalso. apply Hes in H as [_ H]. destruct (runtime_entry_valid e H) as (_ & _ & Hrt & _). congruence.
  - intros [H|[H Hrc]]; [split; [by left|left; by eapply Hk]|split; [by right|by right]].
Qed.

(** The tools of a turn.  The view of a registry that was built never fails; it
    carries the runtime context it is built with; a tool is in it exactly when the
    catalog lists it, or the runtime adds it and there is a context, and it fits the
    limits beside the admitted tools of smaller names.  What a call of the view runs is the
    executor of a tool the runtime added, under the view's own context. *)
Theorem turn_offers_what_fits_first l c d es r config rc : BuildEnvironmentToolCatalog (Some l) = Ok (c, d) -> NewRegistry (Some c) es = Ok r ->
  exists res, registry_BuildTurnToolView r config rc = Some res /\ vw_runtimeContext (ar_View res) = rc
    /\ (forall name e, view_Lookup (ar_View res) name = Some e <->
          (ec_tools c !! name = Some e \/ (e ∈ es /\ te_Name e = name) /\ is_Some rc)
          /\ admissible (admission_withDefaults config) (earlier name (vw_tools (ar_View res))) e = true)
    /\ (forall name x rc', view_ExecuteRuntime (ar_View res) name = Some (x, rc') ->
          rc = Some rc' /\ exists e, e ∈ es /\ te_Name e = name /\ en_Executor (te_Entry e) = Some x).
Proof.
  intros Hc Hr. destruct (catalog_sound _ _ _ Hc) as [Hs Hk]. destruct (registry_view_spec c es r config rc Hs Hr) as (view & Hrun & Hview & _).
  eexists. split; [exact Hrun|]. cbn. split; [done|]. split.
  - intros name e. unfold view_Lookup. cbn. by rewrite Hview, (offered_spec l c d es r rc name e Hc Hr).
  - intros name x rc' H. unfold view_ExecuteRuntime in H. cbn in H. apply bind_Some in H as (e & He & H). apply bind_Some in H as (rc0 & -> & H).
    destruct (en_Kind (te_Entry e) != KindRuntime) eqn:Ek; [done|]. apply bind_Some in H as (x' & Hx & [= -> ->]). split; [done|].
    apply Hview in He as [He _]. apply (offered_spec l c d es r _ name e Hc Hr) in He as [He|[[He Hn] _]]; [|by exists e].
    apply Hk in He. apply negb_false_iff, bool_decide_eq_true in Ek. congruence.
Qed.

(** The limits hold and the report is exact.  Within the configured limits (defaults
    where none is set) stay the number of admitted tools and the tokens of their schemas;
    the report counts every tool offered, names the first sixteen admitted and dropped in
    the order of their names, and gives each drop the reason it failed for. *)
Theorem turn_tools_stay_within_limits l c d es r config rc : BuildEnvironmentToolCatalog (Some l) = Ok (c, d) -> NewRegistry (Some c) es = Ok r ->
  let limits := admission_withDefaults config in
  exists res drops, registry_BuildTurnToolView r config rc = Some res
    /\ let view := vw_tools (ar_View res) in let report := ar_Report res in
       (Z.of_nat (size view) <= ad_MaxToolCount limits)%Z /\ (schemas_total view <= ad_MaxTotalToolSchemaTokens limits)%Z
    /\ (forall name reason, (name, reason) ∈ drops <->
          exists e, offered r rc !! name = Some e /\ reason_for limits (earlier name view) e = Some reason)
    /\ StronglySorted (fun a b => str_lt a b = true) drops.*1
    /\ tar_AcceptedToolCount report = size view /\ tar_DroppedToolCount report = length drops
    /\ tar_AcceptedToolCount report + tar_DroppedToolCount report = size (offered r rc)
    /\ tar_TotalSchemaEstimatedTokens report = schemas_total view
    /\ tar_AcceptedToolNames report = take 16 (diagnosticToolName <$> (by_key_name view).*1)
    /\ tar_DroppedTools report = take 16 ((fun p => (diagnosticToolName p.1, p.2)) <$> drops)
    /\ tar_AcceptedToolNamesTruncatedCount report = size view - 16 /\ tar_DroppedToolsTruncatedCount report = length drops - 16
    /\ (forall reason, default 0 (tar_DroppedReasonCounts report !! reason) = length (filter (fun x => x = reason) drops.*2)).
Proof.
  intros Hc Hr limits. destruct (catalog_sound _ _ _ Hc) as [Hs Hk]. destruct (registry_view_spec c es r config rc Hs Hr) as (view & Hrun & Hview & Hcount & Htotal).
  set (drops := dropped_in limits view (by_key_name (offered r rc))). exists {| ar_View := {| vw_tools := view; vw_runtimeContext := rc |};
    ar_Report := report_of (by_key_name view).*1 drops (schemas_total view) |}, drops.
  split; [exact Hrun|]. cbn zeta. cbn [ar_View vw_tools]. split; [done|]. split; [done|]. split; [apply dropped_elem|]. split; [apply dropped_sorted|].
  cbn. rewrite length_fmap, by_key_name_length. split_and!; try done.
  - rewrite <- by_key_name_length, <- (length_fmap fst), <- (accepted_are_shown limits view (offered r rc)) by done. rewrite <- (by_key_name_length (offered r rc)).
    apply accepted_and_dropped.
  - unfold hidden_of. by rewrite length_fmap, by_key_name_length.
  - intros reason. apply tally_spec.
Qed.

(** ** An environment with three capabilities: one without a schema, one with a policy. *)
Definition demo_capability (name schema : string) (extensions : option (gmap string struct_value)) : option Capability :=
  Some {| cb_Name := name; cb_Description := "moves"; cb_InputSchemaJson := schema; cb_ConcurrencyMode := CAPABILITY_CONCURRENCY_MODE_PARALLEL_SAFE;
          cb_ExecutionMode := EXECUTION_MODE_OTHER 1; cb_Extensions := extensions |}.
Definition demo_extensions : gmap string struct_value :=
  {["gameagent"%string := SStruct (Some {["tool_policy"%string := SStruct (Some {["exclusive_per_step"%string := SBool true]})]})]}.
Definition demo_list : CapabilityList :=
  {| cl_Revision := 3; cl_EntityId := None;
     cl_Capabilities := [demo_capability "walk" "{}" (Some demo_extensions); None; demo_capability "look" "[]" None; demo_capability "jump" "{}" None] |}.
Definition demo_runtime : list tool_Entry :=
  [mkTool {| td_Name := updateTaskToolName; td_Description := "task"; td_InputSchema := "{}" |} (task_entry "{}")].
Definition demo_built : EnvironmentToolCatalog * BootstrapDiagnostics :=
  Eval vm_compute in match BuildEnvironmentToolCatalog (Some demo_list) with
                     | Ok x => x
                     | Err _ => ({| ec_tools := ∅; ec_duplicateNames := [] |}, refused_diagnostics 0 "" "")
                     end.
Definition demo_registry : tool_Registry :=
  Eval vm_compute in match NewRegistry (Some demo_built.1) demo_runtime with Ok r => r | Err _ => {| tg_tools := ∅ |} end.
Definition two_tools : ToolAdmissionConfig :=
  {| ad_MaxToolCount := 2; ad_MaxToolDescriptionTokens := 0; ad_MaxToolSchemaTokens := 0; ad_MaxTotalToolSchemaTokens := 0 |}.
Example demo_admission : (fun res => ((by_key_name (vw_tools (ar_View res))).*1, tar_DroppedTools (ar_Report res)))
    <$> registry_BuildTurnToolView demo_registry two_tools None = Some (["jump"; "walk"]%string, []).
Proof. vm_compute. reflexivity. Qed.
Lemma turn_offers_what_fits_first_witness : exists res, registry_BuildTurnToolView demo_registry two_tools None = Some res
  /\ vw_runtimeContext (ar_View res) = None.
Proof.
  assert (BuildEnvironmentToolCatalog (Some demo_list) = Ok (demo_built.1, demo_built.2)) as Hc by (vm_compute; reflexivity).
  assert (NewRegistry (Some demo_built.1) demo_runtime = Ok demo_registry) as Hr by (vm_compute; reflexivity).
  destruct (turn_offers_what_fits_first demo_list demo_built.1 demo_built.2 demo_runtime demo_registry two_tools None Hc Hr) as (res & H & Hrc & _).
  exists res. split; [exact H|exact Hrc].
Defined.
Lemma turn_tools_stay_within_limits_witness : exists res, registry_BuildTurnToolView demo_registry two_tools None = Some res
  /\ (Z.of_nat (size (vw_tools (ar_View res))) <= 2)%Z.
Proof.
  assert (BuildEnvironmentToolCatalog (Some demo_list) = Ok (demo_built.1, demo_built.2)) as Hc by (vm_compute; reflexivity).
  assert (NewRegistry (Some demo_built.1) demo_runtime = Ok demo_registry) as Hr by (vm_compute; reflexivity).
  destruct (turn_tools_stay_within_limits demo_list demo_built.1 demo_built.2 demo_runtime demo_registry two_tools None Hc Hr) as (res & drops & H & Hb & _).
  exists res. split; [exact H|exact Hb].
Defined.
